(* ===== verification/_CoqProject ===== *)
-Q . S2P
Prelude.v
Memory.v
CString.v
FsState.v
Machine.v
Spinlock.v
Kalloc.v
Proc.v
Vm.v
NetHdr.v
E1000.v
Pci.v
Sysarg.v
Sleeplock.v
Bio.v
Log.v
Fs.v
Pipe.v
File.v
Sysfile.v
Exec.v
Process.v
Console.v
Net.v
Syscall.v
Trap.v
Pages.v
Demo.v
DemoFs.v
Resume.v
Lru.v
BioSpec.v
Blocks.v
CacheInit.v
LogSpec.v
LogCrash.v
Txn.v
FileSpec.v
InodeSpec.v
PathSpec.v
NameSpec.v
ProcSpec.v
ExitSpec.v
E1000Spec.v
E1000Init.v
NetInv.v
UserMem.v
UserBuf.v
NetDemo.v
NetSpec.v
NetRecv.v
NetBlock.v
NetSend.v
NetRx.v
ConsoleSpec.v
PipeSpec.v
Grep.v
Ulib.v
Cprintf.v
Coreutils.v
CoreutilsSpec.v
Sh.v
ShSpec.v
ShRun.v
ShSafe.v
Umalloc.v
UmallocSpec.v
Mkfs.v
MkfsSpec.v
MkfsBoot.v
Kbd.v
KbdSpec.v
Ide.v
IdeSpec.v
Boot.v
BootSpec.v
Mp.v
MpSpec.v
