(* ===== verification/Prelude.v ===== *)
(** * xv6 with a network driver: verification library

    A model of the kernel in src/xv6-public, a 64-bit xv6 with an e1000 network
    card driver and a small UDP stack, of its boot loader, of the shell, the
    small programs and the library of its user level, and of the program that
    builds the disk image; with the theorems that make their operations correct.
    C functions are Rocq functions of the same name.  Kernel code runs in the
    monad [K] over the state [kstate] (Machine.v); its outcomes are a returned
    value, [Panic], a page [Fault], a switch to the scheduler ([Swtch], with the
    rest of the call as a continuation), a wait for a spin lock ([Spin]), and
    [OutOfFuel] for a loop that outruns the bound of its model.

    ** The program and the files that model it

    Foundations.
    - Prelude.v: machine integers with their wrap, the monad, shared lemmas and
      tactics.
    - Memory.v: the direct map of the kernel as one byte-addressed memory.
    - CString.v: string.c.
    - FsState.v: the structures of buf.h, sleeplock.h, fs.h, file.h, log.c and
      console.c.
    - Machine.v: param.h, memlayout.h, mmu.h, spinlock.h, proc.h, e1000_dev.h and
      the record of the kernel's globals.  Pages of [kalloc] live in [mem];
      static objects are fields of the record.

    Kernel core.
    - Spinlock.v: spinlock.c; Module [SpinSteps] is the same lock as a step
      relation of any number of CPUs.
    - Kalloc.v: kalloc.c.  Sleeplock.v: sleeplock.c.
    - Proc.v: the process table, sleep, wakeup, sched, yield, kill and allocproc
      of proc.c.  Process.v: fork, exit, wait, the scheduler, and sysproc.c.
    - Vm.v: page tables, user memory and copyout of vm.c.
    - Sysarg.v and Syscall.v: syscall.c.  Trap.v: trap.c.

    Files.
    - Bio.v: bio.c and memide.c.  Ide.v: ide.c.  Log.v: log.c.  Fs.v: fs.c.
    - Pipe.v: pipe.c.  File.v: file.c and pipealloc.  Sysfile.v: sysfile.c.
    - Exec.v: exec.c, sys_exec and loaduvm.

    Devices and network.
    - Console.v: console.c, with uartputc.  Cprintf.v: cprintf and panic of
      console.c.  Kbd.v: kbd.c and kbd.h.  The two interrupt handlers are in
      Trap.v.
    - Pci.v: pci.c and ioapicenable.  E1000.v: e1000.c.
    - NetHdr.v: net.h and in_cksum.  Net.v: net.c.

    Start-up.
    - Boot.v: bootmain.c, on the memory of the machine and the ports of the disk.
    - Mp.v: mp.c and mp.h, on the memory of the machine.

    User level.
    - Coreutils.v: cat.c, wc.c, ls.c, echo.c, rm.c, mkdir.c, ln.c, kill.c and
      init.c, with stat of ulib.c.
    - Grep.v: grep.c.  Ulib.v: ulib.c and printf.c.  Umalloc.v: umalloc.c, on
      the bytes of the process's heap.
    - Sh.v: sh.c.  The parser works on the line buffer and a heap of commands;
      what a command does is a tree of system calls, which ShRun.v interprets.

    Host.
    - Mkfs.v: mkfs.c, on an image that is a list of blocks.

    Demo.v, DemoFs.v and NetDemo.v are concrete kernels and a disk image, on
    which the witnesses run.

    ** Interfaces

    The driver calls the network stack through the class [RxHandler]
    (E1000Spec.v), which says what a handler may do with a frame; the driver's
    theorems are proved against it and NetRx.v proves that net.c is an instance.
    Pci.v is written over the class [Bus], with the documented behaviour of
    configuration mechanism 1 as the class [BusLaws].  Ide.v is written over the
    class [Ports]; the class [AtaLaws] (IdeSpec.v) states how a drive without
    faults answers commands for one sector.  The boot loader is proved against
    the same laws.  The small user programs are written over the class [Unix] of
    system calls; [UnixLaws] (CoreutilsSpec.v) states what open, read, write and
    close do with a file, where a read may deliver less than it was asked for.
    The drivers that fs.c reaches through the table [devsw] are an argument of
    its operations.

    ** What the theorems show

    - Locks and memory.  No interleaving has two CPUs in a critical section, and
      [acquire] and [release] take the steps of that relation
      ([spinlock_mutual_exclusion]).  [kalloc] and [kfree] pop and push an
      abstract free list, and [kinit1] fills it (Kalloc.v).  [copyout] writes the
      mapped user window and nothing else (UserMem.v, UserBuf.v).
    - Processes.  [allocproc] keeps identifiers unique and builds the first
      kernel stack (ProcSpec.v).  [exit] leaves a zombie, wakes the parent and
      hands over the children (ExitSpec.v).  A process that sleeps for a packet
      misses no wakeup (NetBlock.v, NetRecv.v).
    - Disk.  [binit] establishes the invariant of the cache (CacheInit.v); the
      cache refines a disk with pending writes (Lru.v, BioSpec.v, Blocks.v,
      LogCrash.v); a crash after any prefix of the writes of [commit] leaves,
      after recovery, all or none of the transaction (LogSpec.v, LogCrash.v);
      [begin_op] reserves log space, and a transaction applies its updates
      (Txn.v, over Resume.v).  The IDE driver serves its queue in order, and a
      request to it sleeps, is served by the interrupt and returns, with the
      effect that memide.c has at once (IdeSpec.v).
    - Files.  [writei] in a transaction replaces a part of a file on the disk and
      [readi] reads it back (FileSpec.v).  The inode cache counts references
      (InodeSpec.v).  Path names are walked component by component (PathSpec.v),
      and [namei] finds what the directories on the disk say (NameSpec.v).  The
      image that mkfs builds has every file in the form that [readi] reads, and a
      bitmap that marks exactly the blocks in use (MkfsSpec.v); the kernel opens
      its files by name (MkfsBoot.v).  A pipe is a bounded queue of bytes
      (PipeSpec.v).
    - Console.  The input ring and the history refine a line editor
      (ConsoleSpec.v); the scan codes of any strokes on a US keyboard reach it as
      the characters of the keys (KbdSpec.v).  [cprintf] sends the characters of
      the format with its arguments filled in (Cprintf.v).
    - Start-up.  The boot loader finds the header of the kernel on the disk and
      loads the kernel where the header says (BootSpec.v).  [mpinit] finds the
      tables of the BIOS and takes the processors from them (MpSpec.v).
    - Network.  [e1000_init] establishes the invariant of the rings (E1000Init.v),
      [e1000_transmit] hands a frame over or changes nothing, the interrupt
      handler drains the receive ring (E1000Spec.v, NetRx.v).  The system calls
      bind, send and recv and the input of IP and ARP frames refine operations on
      abstract ports and queues (Pages.v, NetInv.v, NetSpec.v, NetRecv.v,
      NetSend.v, NetRx.v); a frame that was sent is parsed back (NetSend.v).
      [pci_init] finds the card.
    - User level.  The matcher of grep decides the language of its pattern, and
      grep prints the lines that match (Grep.v); [atoi] reads what [printf]
      prints.  wc counts the lines, words and characters of a file and cat copies
      it, however the reads cut it (CoreutilsSpec.v).  The
      parser of the shell builds the command of every line of its grammar
      (ShSpec.v) and ends on every other line (ShSafe.v); the shell starts the
      programs of the lines that are typed, with their pipes and redirections
      (ShRun.v), and on any input stays inside its buffers (ShSafe.v).  [malloc]
      and [free] refine a list of blocks that tile the heap (UmallocSpec.v).
    - Defects.  Six theorems are concrete or general runs on which the code
      fails: the log overflows ([filewrite_overflows_log]), exec panics
      ([exec_low_segment_panics]), a page leaks ([arp_rx_full_ring_leaks]), the
      console stops ([console_dead_after_eof]), grep loses a line
      ([grep_loses_split_line]), and the user library's [memmove] overwrites its
      source ([ulib_memmove_overlap]).

    ** Bounds

    - [spin_limit] and [wait_limit] (64) bound how often one call of [acquire]
      polls a lock and how often a waiting loop sleeps.  They are not bounds of
      the code: every theorem about a waiting loop either says how often it
      waits or is stated for the calls that return, and one CPU that finds a
      lock free takes it at the first poll.
    - Loops over data have as fuel the length of what they walk: the bytes of a
      path, the blocks or pages that a range touches, the blocks of the bitmap,
      the descriptors of the ring, the size of the arrays of exec, the
      characters of a line, the blocks of the heap ([max_blocks]).  Theorems
      about such loops show that the result is returned, so the fuel is enough.
    - [idewait] and [waitdisk] poll the drive as often as an argument says;
      [AtaLaws] has the number after which the drive is ready.
    - cat, wc and ls read at most as often as an argument says, which the theorem
      takes larger than the file; init starts as many shells as an argument says,
      since its loop has no end.
    - Integers have the width of their C type, with the wrap written out
      ([u16], [u32], [s32], [u64]).

    ** The state between two steps

    Kernel code of one CPU runs without interleaving up to its next [Swtch] or
    [Spin]; what other processes do there is arbitrary, as the continuation takes
    any state.  The interleaving of CPUs is modelled for the spin lock itself,
    which is what justifies critical sections as units.  The file theorems start
    from a state in which no other process uses the file layers ([idle]), and
    they are proved on the disk of memide.c, which does not sleep;
    [ide_refines_memide] relates one request to ide.c with it.

    ** Not modelled

    - main.c, lapic.c, ioapicinit, seginit, syscallinit and the set-up of the
      serial port: they program devices and machine registers that no other code
      of the model reads.
    - bootasm.S, entry.S, swtch.S, trapasm.S and vectors.pl: assembly; a call of
      swtch is the outcome [Swtch].
    - The text that calls of cprintf and panic put on the screen, outside of
      Cprintf.v: a call of cprintf adds its message to the log of the state, and a
      call of panic is the outcome [Panic].
    - The e1000 card, the disk drive and the PCI configuration space: hardware;
      see Interfaces.
    - main of grep.c, which opens the files of the command line; zombie.c and the
      other tests (usertests.c, nettest.c and others); usys.S; the scripts of the
      build. *)

From stdpp Require Export base list numbers strings.
From coqutil Require Export Byte Word.LittleEndianList.
From Stdlib Require Export ZArith Lia.
From Stdlib Require Import FunctionalExtensionality.
#[global] Open Scope Z_scope.

(** ** Scope and automation of the library *)

Declare Scope kernel_scope.
Delimit Scope kernel_scope with kernel.

Create HintDb xv6.
Create Rewrite HintDb xv6.

(** Linear arithmetic with the quotients and remainders made explicit. *)
Ltac lia_mod := Z.to_euclidean_division_equations; lia.

(** ** Machine integers

    A C value of width [w] is the [Z] it denotes; an assignment that can leave
    the range of its type is written with the wrap of that type. *)

Definition u8 (x : Z) : Z := x mod 2 ^ 8.
Definition u16 (x : Z) : Z := x mod 2 ^ 16.
Definition u32 (x : Z) : Z := x mod 2 ^ 32.
Definition u64 (x : Z) : Z := x mod 2 ^ 64.

(** Two's complement reading of the low 32 bits: the conversion to [int]. *)
Definition s32 (x : Z) : Z :=
  let y := x mod 2 ^ 32 in if y <? 2 ^ 31 then y else y - 2 ^ 32.

(** Two's complement reading of the low 16 bits: the conversion to [short]. *)
Definition s16 (x : Z) : Z :=
  let y := x mod 2 ^ 16 in if y <? 2 ^ 15 then y else y - 2 ^ 16.

(** Two's complement reading of the low 64 bits: the conversion to [int64]. *)
Definition s64 (x : Z) : Z :=
  let y := x mod 2 ^ 64 in if y <? 2 ^ 63 then y else y - 2 ^ 64.

Lemma u8_range x : 0 <= u8 x < 256.
Proof. unfold u8. apply Z.mod_pos_bound. lia. Qed.
Lemma u16_range x : 0 <= u16 x < 65536.
Proof. unfold u16. apply Z.mod_pos_bound. lia. Qed.
Lemma u32_range x : 0 <= u32 x < 4294967296.
Proof. unfold u32. apply Z.mod_pos_bound. lia. Qed.
Lemma u64_range x : 0 <= u64 x < 2 ^ 64.
Proof. unfold u64. apply Z.mod_pos_bound. lia. Qed.

Lemma u16_small x : 0 <= x < 65536 -> u16 x = x.
Proof. intros. unfold u16. apply Z.mod_small. lia. Qed.
Lemma u32_small x : 0 <= x < 4294967296 -> u32 x = x.
Proof. intros. unfold u32. apply Z.mod_small. lia. Qed.
Lemma u64_small x : 0 <= x < 2 ^ 64 -> u64 x = x.
Proof. intros. unfold u64. apply Z.mod_small. lia. Qed.

Lemma s32_range x : - 2147483648 <= s32 x < 2147483648.
Proof.
  unfold s32. pose proof (Z.mod_pos_bound x (2 ^ 32) ltac:(lia)).
  destruct (Z.ltb_spec (x mod 2 ^ 32) (2 ^ 31)); lia.
Qed.

Lemma s32_small x : - 2147483648 <= x < 2147483648 -> s32 x = x.
Proof.
  intros. unfold s32. destruct (decide (0 <= x)) as [Hx|Hx].
  - rewrite Z.mod_small by lia. destruct (Z.ltb_spec x (2 ^ 31)); lia.
  - assert (x mod 2 ^ 32 = x + 2 ^ 32) as ->.
    { symmetry. apply Z.mod_unique with (-1); lia. }
    destruct (Z.ltb_spec (x + 2 ^ 32) (2 ^ 31)); lia.
Qed.

#[export] Hint Resolve u8_range u16_range u32_range u64_range s32_range : xv6.
#[export] Hint Rewrite u16_small u32_small u64_small s32_small using lia : xv6.

#[export] Instance byte_eq_decision : EqDecision byte := Byte.byte_eq_dec.
#[export] Instance byte_inhabited : Inhabited byte := populate Byte.x00.

(** ** Lists *)

(** Replace the segment of [x] that starts at [k] by [l]. *)
Definition splice {A} (k : nat) (l x : list A) : list A :=
  take k x ++ l ++ drop (k + length l) x.

Lemma length_splice {A} k (l x : list A) :
  (k + length l <= length x)%nat -> length (splice k l x) = length x.
Proof. intros. unfold splice. rewrite !length_app, length_take, length_drop. lia. Qed.

Lemma lookup_splice {A} k (l x : list A) i :
  (k + length l <= length x)%nat ->
  splice k l x !! i =
    if decide (k <= i < k + length l)%nat then l !! (i - k)%nat else x !! i.
Proof.
  intros Hk. unfold splice. case_decide as Hi.
  - rewrite lookup_app_r; rewrite length_take, Nat.min_l by lia; [|lia].
    rewrite lookup_app_l by lia. done.
  - destruct (decide (i < k)%nat).
    + rewrite lookup_app_l by (rewrite length_take; lia).
      by rewrite lookup_take_lt by lia.
    + rewrite lookup_app_r; rewrite length_take, Nat.min_l by lia; [|lia].
      rewrite lookup_app_r by lia. rewrite lookup_drop. f_equal. lia.
Qed.

Lemma splice_comm_segments {A} (p l q r : list A) :
  length l = length q -> splice (length p) l (p ++ q ++ r) = p ++ l ++ r.
Proof.
  intros Hlq. unfold splice.
  rewrite take_app_length, Hlq, drop_app, drop_ge by lia.
  replace (length p + length q - length p)%nat with (length q) by lia.
  by rewrite drop_app_length.
Qed.

(** ** The control effects of kernel code

    A kernel function runs on a state [S].  It returns ([Ok]); or halts the
    machine by [panic] ([Panic]); or takes a page fault on an address the
    kernel does not map ([Fault]); or waits: [Swtch s k] is a process that gave
    the CPU to the scheduler in state [s], and [k] is what it does from the
    state in which it runs again; [Spin l s k] is a CPU that spins on lock [l].
    [OutOfFuel] is a loop that outran the bound of its model; every property
    about a loop rules it out. *)

Inductive outcome (S A : Type) : Type :=
| Ok (a : A) (s : S)
| Swtch (s : S) (k : S -> outcome S A)
| Spin (lk : Z) (s : S) (k : S -> outcome S A)
| Panic (msg : string)
| Fault
| OutOfFuel.

Arguments Ok {S A} a s.
Arguments Swtch {S A} s k.
Arguments Spin {S A} lk s k.
Arguments Panic {S A} msg.
Arguments Fault {S A}.
Arguments OutOfFuel {S A}.

Definition M (S A : Type) : Type := S -> outcome S A.

Fixpoint obind {S A B} (o : outcome S A) (f : A -> M S B) : outcome S B :=
  match o with
  | Ok a s => f a s
  | Swtch s k => Swtch s (fun s' => obind (k s') f)
  | Spin l s k => Spin l s (fun s' => obind (k s') f)
  | Panic e => Panic e
  | Fault => Fault
  | OutOfFuel => OutOfFuel
  end.

Definition ret {S A} (a : A) : M S A := fun s => Ok a s.
Definition bind {S A B} (m : M S A) (f : A -> M S B) : M S B := fun s => obind (m s) f.
Definition gets {S A} (f : S -> A) : M S A := fun s => Ok (f s) s.
Definition modify {S} (f : S -> S) : M S unit := fun s => Ok tt (f s).
Definition panic {S A} (msg : string) : M S A := fun _ => Panic msg.
Definition fault {S A} : M S A := fun _ => Fault.
Definition out_of_fuel {S A} : M S A := fun _ => OutOfFuel.

Notation "x <- m ;; k" := (bind m (fun x => k))
  (at level 100, m at next level, right associativity) : kernel_scope.
Notation "m ;; k" := (bind m (fun _ => k))
  (at level 100, right associativity) : kernel_scope.
Notation "'when' b 'do' m" := (if b then m else ret tt)
  (at level 99, b at level 0, m at level 98) : kernel_scope.

(** [for] over the elements of a list, without early exit. *)
Fixpoint for_each {S A} (l : list A) (f : A -> M S unit) : M S unit :=
  match l with
  | [] => ret tt
  | x :: l => (f x ;; for_each l f)%kernel
  end.

Lemma bind_ok {S A B} (m : M S A) (f : A -> M S B) s a s' :
  m s = Ok a s' -> bind m f s = f a s'.
Proof. unfold bind. by intros ->. Qed.

Lemma bind_swtch {S A B} (m : M S A) (f : A -> M S B) s s1 k :
  m s = Swtch s1 k -> bind m f s = Swtch s1 (fun s' => obind (k s') f).
Proof. unfold bind. by intros ->. Qed.

Lemma bind_ret {S A B} (a : A) (f : A -> M S B) s : bind (ret a) f s = f a s.
Proof. done. Qed.

Lemma bind_gets {S A B} (g : S -> A) (f : A -> M S B) s :
  bind (gets g) f s = f (g s) s.
Proof. done. Qed.

Lemma bind_modify {S B} (g : S -> S) (f : unit -> M S B) s :
  bind (modify g) f s = f tt (g s).
Proof. done. Qed.

Lemma obind_assoc {S A B C} (o : outcome S A) (f : A -> M S B) (g : B -> M S C) :
  obind (obind o f) g = obind o (fun a => bind (f a) g).
Proof.
  induction o as [| s k IH | l s k IH | | |]; simpl; try done;
    f_equal; apply functional_extensionality; intros; apply IH.
Qed.

Lemma bind_assoc {S A B C} (m : M S A) (f : A -> M S B) (g : B -> M S C) s :
  bind (bind m f) g s = bind m (fun a => bind (f a) g) s.
Proof. apply obind_assoc. Qed.

Lemma bind_cong {S A B} (m : M S A) (k1 k2 : A -> M S B) s s' :
  s = s' -> (forall a s1, k1 a s1 = k2 a s1) -> bind m k1 s = bind m k2 s'.
Proof.
  intros <- Hk. unfold bind. f_equal. apply functional_extensionality. intros a.
  apply functional_extensionality. apply Hk.
Qed.

(** Symbolic execution: rewrite with the equation of the next call. *)
Ltac mstep :=
  first
    [ rewrite bind_assoc
    | rewrite bind_ret
    | rewrite bind_gets
    | rewrite bind_modify
    | erewrite bind_ok by eassumption ].
