(* ===== verification/Memory.v ===== *)
(** * Byte-addressed memory

    The kernel's direct map as one flat memory of bytes, with multi-byte loads
    and stores in the little-endian order of the x86.  The lemmas say how a
    load sees the stores before it: the same range, a range that does not
    meet it, and a window that contains the stored range ([splice]).  *)

From Stdlib Require Import FunctionalExtensionality.
From S2P Require Import Prelude.

(** A memory gives the byte at every address. *)
Definition memory : Type := Z -> byte.

Definition store_bytes (m : memory) (a : Z) (l : list byte) : memory :=
  fun x =>
    if (a <=? x) && (x <? a + Z.of_nat (length l))
    then nth (Z.to_nat (x - a)) l Byte.x00
    else m x.

Definition load_bytes (m : memory) (a : Z) (n : nat) : list byte :=
  map (fun i => m (a + Z.of_nat i)) (seq 0 n).

(** An [n]-byte unsigned integer at [a]. *)
Definition loadZ (n : nat) (m : memory) (a : Z) : Z := le_combine (load_bytes m a n).

Definition storeZ (n : nat) (m : memory) (a v : Z) : memory :=
  store_bytes m a (le_split n v).

(** ** Loads *)

Lemma length_load_bytes m a n : length (load_bytes m a n) = n.
Proof. unfold load_bytes. by rewrite length_map, length_seq. Qed.

Lemma lookup_load_bytes m a n i :
  (i < n)%nat -> load_bytes m a n !! i = Some (m (a + Z.of_nat i)).
Proof.
  intros. unfold load_bytes. rewrite list_lookup_fmap, lookup_seq_lt by lia. done.
Qed.

Lemma load_bytes_ext m m' a n :
  (forall i, (i < n)%nat -> m (a + Z.of_nat i) = m' (a + Z.of_nat i)) ->
  load_bytes m a n = load_bytes m' a n.
Proof.
  intros H. apply map_ext_in. intros i [_ Hi]%in_seq. apply H. lia.
Qed.

Lemma load_bytes_app m a n1 n2 :
  load_bytes m a (n1 + n2) = load_bytes m a n1 ++ load_bytes m (a + Z.of_nat n1) n2.
Proof.
  apply list_eq. intros i. destruct (decide (i < n1)%nat).
  - rewrite lookup_app_l by (rewrite length_load_bytes; lia).
    by rewrite !lookup_load_bytes by lia.
  - rewrite lookup_app_r by (rewrite length_load_bytes; lia).
    rewrite length_load_bytes. destruct (decide (i < n1 + n2)%nat).
    + rewrite !lookup_load_bytes by lia. do 2 f_equal. lia.
    + rewrite !lookup_ge_None_2; [done|rewrite length_load_bytes; lia..].
Qed.

Lemma load_bytes_cons m a n : load_bytes m a (S n) = m a :: load_bytes m (a + 1) n.
Proof.
  change (S n) with (1 + n)%nat. rewrite load_bytes_app.
  unfold load_bytes at 1. simpl. by rewrite Z.add_0_r.
Qed.

Lemma take_load_bytes m a n k :
  (k <= n)%nat -> take k (load_bytes m a n) = load_bytes m a k.
Proof.
  intros. replace n with (k + (n - k))%nat by lia.
  rewrite load_bytes_app, take_app_le, take_ge; [done|..];
    rewrite length_load_bytes; lia.
Qed.

Lemma drop_load_bytes m a n k :
  (k <= n)%nat -> drop k (load_bytes m a n) = load_bytes m (a + Z.of_nat k) (n - k).
Proof.
  intros. replace n with (k + (n - k))%nat at 1 by lia.
  rewrite load_bytes_app. rewrite drop_app_length'; [done|].
  by rewrite length_load_bytes.
Qed.

Lemma loadZ_range n m a : 0 <= loadZ n m a < 2 ^ (8 * Z.of_nat n).
Proof.
  unfold loadZ. pose proof (le_combine_bound (load_bytes m a n)) as H.
  by rewrite length_load_bytes in H.
Qed.

(** ** Stores *)

Lemma store_bytes_at m a l x :
  a <= x < a + Z.of_nat (length l) ->
  store_bytes m a l x = nth (Z.to_nat (x - a)) l Byte.x00.
Proof.
  intros. unfold store_bytes.
  destruct (Z.leb_spec a x), (Z.ltb_spec x (a + Z.of_nat (length l))); lia || done.
Qed.

Lemma store_bytes_ne m a l x :
  x < a \/ a + Z.of_nat (length l) <= x -> store_bytes m a l x = m x.
Proof.
  intros. unfold store_bytes.
  destruct (Z.leb_spec a x), (Z.ltb_spec x (a + Z.of_nat (length l))); lia || done.
Qed.

Lemma load_store_same m a l n :
  length l = n -> load_bytes (store_bytes m a l) a n = l.
Proof.
  intros <-. apply list_eq. intros i. destruct (decide (i < length l)%nat).
  - rewrite lookup_load_bytes by lia. rewrite store_bytes_at by lia.
    replace (Z.to_nat (a + Z.of_nat i - a)) with i by lia.
    destruct (lookup_lt_is_Some_2 l i) as [b Hb]; [lia|].
    rewrite Hb. by rewrite (nth_lookup_Some _ _ _ _ Hb).
  - rewrite !lookup_ge_None_2; [done|lia|rewrite length_load_bytes; lia].
Qed.

Lemma load_store_disjoint m a n b l :
  a + Z.of_nat n <= b \/ b + Z.of_nat (length l) <= a ->
  load_bytes (store_bytes m b l) a n = load_bytes m a n.
Proof. intros. apply load_bytes_ext. intros. apply store_bytes_ne. lia. Qed.

Lemma load_store_splice m a n k l :
  (k + length l <= n)%nat ->
  load_bytes (store_bytes m (a + Z.of_nat k) l) a n = splice k l (load_bytes m a n).
Proof.
  intros. unfold splice.
  rewrite take_load_bytes, drop_load_bytes by lia.
  replace n with (k + (length l + (n - (k + length l))))%nat at 1 by lia.
  rewrite !load_bytes_app. rewrite load_store_same by done.
  rewrite !load_store_disjoint by lia. do 3 f_equal; lia.
Qed.

Lemma store_bytes_nil m a : store_bytes m a [] = m.
Proof. apply functional_extensionality. intros. apply store_bytes_ne. simpl. lia. Qed.

Lemma store_bytes_app m a l1 l2 :
  store_bytes m a (l1 ++ l2) =
    store_bytes (store_bytes m a l1) (a + Z.of_nat (length l1)) l2.
Proof.
  apply functional_extensionality. intros x.
  destruct (decide (a <= x < a + Z.of_nat (length (l1 ++ l2)))) as [H|H];
    rewrite length_app in H.
  - rewrite store_bytes_at by (rewrite length_app; lia).
    destruct (decide (x < a + Z.of_nat (length l1))).
    + rewrite store_bytes_ne, store_bytes_at by lia. apply app_nth1. lia.
    + rewrite store_bytes_at by lia. rewrite app_nth2 by lia. f_equal. lia.
  - rewrite !store_bytes_ne; [done|lia|lia|rewrite length_app; lia].
Qed.

Lemma store_bytes_cons m a b l :
  store_bytes m a (b :: l) = store_bytes (store_bytes m a [b]) (a + 1) l.
Proof. apply (store_bytes_app m a [b] l). Qed.

Lemma store_bytes_load m a n : store_bytes m a (load_bytes m a n) = m.
Proof.
  apply functional_extensionality. intros x.
  destruct (decide (a <= x < a + Z.of_nat n)).
  - rewrite store_bytes_at by (rewrite length_load_bytes; lia).
    rewrite (nth_lookup_Some _ _ _ (m x)); [done|].
    rewrite lookup_load_bytes by lia. do 2 f_equal. lia.
  - apply store_bytes_ne. rewrite length_load_bytes. lia.
Qed.

(** Two stores whose ranges do not meet commute; a store hides an earlier one
    of the same range. *)
Lemma store_bytes_comm m a l b l' :
  a + Z.of_nat (length l) <= b \/ b + Z.of_nat (length l') <= a ->
  store_bytes (store_bytes m a l) b l' = store_bytes (store_bytes m b l') a l.
Proof.
  intros. apply functional_extensionality. intros x.
  destruct (decide (a <= x < a + Z.of_nat (length l)));
    destruct (decide (b <= x < b + Z.of_nat (length l'))); try lia.
  - rewrite store_bytes_ne, !store_bytes_at by lia. done.
  - rewrite store_bytes_at by lia. rewrite store_bytes_ne, store_bytes_at by lia. done.
  - rewrite !store_bytes_ne by lia. done.
Qed.

Lemma loadZ_store_same n m a v : loadZ n (storeZ n m a v) a = v mod 2 ^ (8 * Z.of_nat n).
Proof.
  unfold loadZ, storeZ. rewrite load_store_same by apply length_le_split.
  rewrite le_combine_split. do 2 f_equal. lia.
Qed.

Lemma loadZ_store_disjoint n m a b l :
  a + Z.of_nat n <= b \/ b + Z.of_nat (length l) <= a ->
  loadZ n (store_bytes m b l) a = loadZ n m a.
Proof. intros. unfold loadZ. by rewrite load_store_disjoint. Qed.

Lemma loadZ_storeZ_disjoint n k m a b v :
  a + Z.of_nat n <= b \/ b + Z.of_nat k <= a ->
  loadZ n (storeZ k m b v) a = loadZ n m a.
Proof.
  intros. apply loadZ_store_disjoint. by rewrite length_le_split.
Qed.

Lemma load_bytes_storeZ_disjoint n k m a b v :
  a + Z.of_nat n <= b \/ b + Z.of_nat k <= a ->
  load_bytes (storeZ k m b v) a n = load_bytes m a n.
Proof.
  intros. apply load_store_disjoint. by rewrite length_le_split.
Qed.

(** Two memories agree on a range when every load inside it sees the same. *)
Definition mem_agree (m m' : memory) (a : Z) (n : nat) : Prop :=
  forall x, a <= x < a + Z.of_nat n -> m x = m' x.

Lemma mem_agree_refl m a n : mem_agree m m a n.
Proof. by intros x _. Qed.

Lemma mem_agree_sym m m' a n : mem_agree m m' a n -> mem_agree m' m a n.
Proof. intros H x Hx. by rewrite H. Qed.

Lemma mem_agree_trans m1 m2 m3 a n :
  mem_agree m1 m2 a n -> mem_agree m2 m3 a n -> mem_agree m1 m3 a n.
Proof. intros H1 H2 x Hx. by rewrite H1, H2. Qed.

Lemma mem_agree_load m m' a n b k :
  mem_agree m m' a n -> a <= b -> b + Z.of_nat k <= a + Z.of_nat n ->
  load_bytes m b k = load_bytes m' b k.
Proof. intros H ??. apply load_bytes_ext. intros. apply H. lia. Qed.

Lemma mem_agree_loadZ m m' a n b k :
  mem_agree m m' a n -> a <= b -> b + Z.of_nat k <= a + Z.of_nat n ->
  loadZ k m b = loadZ k m' b.
Proof. intros. unfold loadZ. by erewrite mem_agree_load. Qed.

Lemma mem_agree_store m a n b l :
  a + Z.of_nat n <= b \/ b + Z.of_nat (length l) <= a ->
  mem_agree m (store_bytes m b l) a n.
Proof. intros ? x ?. rewrite store_bytes_ne; [done|lia]. Qed.

#[export] Hint Resolve mem_agree_refl : xv6.
#[export] Hint Rewrite length_load_bytes length_le_split : xv6.
