(* ===== verification/CString.v ===== *)
(** * string.c

    The kernel's memory and string routines as loops over memory, in the order
    in which the source reads and writes, and what each computes: a block
    store, the comparison of the strings, a bounded copy. *)

From Stdlib Require Import FunctionalExtensionality.
From S2P Require Import Prelude Memory.

(** ** x86.h: the string instructions behind [memset] *)

Fixpoint stosb (m : memory) (addr data : Z) (cnt : nat) : memory :=
  match cnt with
  | O => m
  | S k => stosb (storeZ 1 m addr data) (addr + 1) data k
  end.

Fixpoint stosl (m : memory) (addr data : Z) (cnt : nat) : memory :=
  match cnt with
  | O => m
  | S k => stosl (storeZ 4 m addr data) (addr + 4) data k
  end.

(** ** string.c *)

Definition memset (m : memory) (dst c n : Z) : memory :=
  if (dst mod 4 =? 0) && (n mod 4 =? 0) then
    let c := Z.land c 0xFF in
    stosl m dst
      (Z.lor (Z.lor (Z.lor (Z.shiftl c 24) (Z.shiftl c 16)) (Z.shiftl c 8)) c)
      (Z.to_nat (n / 4))
  else stosb m dst c (Z.to_nat n).

(** The value of the [uchar] at an address. *)
Definition ldb (m : memory) (a : Z) : Z := byte.unsigned (m a).

Fixpoint memcmp (m : memory) (s1 s2 : Z) (n : nat) : Z :=
  match n with
  | O => 0
  | S k =>
      if negb (ldb m s1 =? ldb m s2) then ldb m s1 - ldb m s2
      else memcmp m (s1 + 1) (s2 + 1) k
  end.

(** [while(n-- > 0) *--d = *--s;] *)
Fixpoint move_down (m : memory) (d s : Z) (n : nat) : memory :=
  match n with
  | O => m
  | S k => move_down (store_bytes m (d - 1) [m (s - 1)]) (d - 1) (s - 1) k
  end.

(** [while(n-- > 0) *d++ = *s++;] *)
Fixpoint move_up (m : memory) (d s : Z) (n : nat) : memory :=
  match n with
  | O => m
  | S k => move_up (store_bytes m d [m s]) (d + 1) (s + 1) k
  end.

Definition memmove (m : memory) (dst src : Z) (n : nat) : memory :=
  if (src <? dst) && (dst <? src + Z.of_nat n)
  then move_down m (dst + Z.of_nat n) (src + Z.of_nat n) n
  else move_up m dst src n.

Definition memcpy (m : memory) (dst src : Z) (n : nat) : memory := memmove m dst src n.

Fixpoint strncmp (m : memory) (p q : Z) (n : nat) : Z :=
  match n with
  | O => 0
  | S k =>
      if negb (ldb m p =? 0) && (ldb m p =? ldb m q)
      then strncmp m (p + 1) (q + 1) k
      else ldb m p - ldb m q
  end.

(** [while(n-- > 0) *s++ = 0;] *)
Fixpoint zero_fill (m : memory) (s : Z) (n : nat) : memory :=
  match n with
  | O => m
  | S k => zero_fill (store_bytes m s [Byte.x00]) (s + 1) k
  end.

Fixpoint strncpy (m : memory) (s t : Z) (n : nat) : memory :=
  match n with
  | O => m
  | S k =>
      let c := ldb m t in
      let m := store_bytes m s [m t] in
      if c =? 0 then zero_fill m (s + 1) k else strncpy m (s + 1) (t + 1) k
  end.

(** The loop of [safestrcpy] with [n] the value after the first [--n]; it
    returns the memory and the final [s]. *)
Fixpoint safestrcpy_loop (m : memory) (s t : Z) (n : nat) : memory * Z :=
  match n with
  | O => (m, s)
  | S k =>
      let c := ldb m t in
      let m := store_bytes m s [m t] in
      if c =? 0 then (m, s + 1) else safestrcpy_loop m (s + 1) (t + 1) k
  end.

Definition safestrcpy (m : memory) (s t n : Z) : memory :=
  if n <=? 0 then m
  else
    let '(m, s) := safestrcpy_loop m s t (Z.to_nat (n - 1)) in
    store_bytes m s [Byte.x00].

(** [strlen] with the number of bytes it may inspect; [None] when no NUL is
    among them. *)
Fixpoint strlen (fuel : nat) (m : memory) (s : Z) : option Z :=
  match fuel with
  | O => None
  | S k =>
      if ldb m s =? 0 then Some 0
      else match strlen k m (s + 1) with Some n => Some (n + 1) | None => None end
  end.

(** ** Block semantics of [memset] and [memmove] *)

Lemma stosb_spec m a c n :
  stosb m a c n = store_bytes m a (replicate n (byte.of_Z c)).
Proof.
  revert m a. induction n as [|n IH]; intros m a; simpl.
  - by rewrite store_bytes_nil.
  - rewrite IH. symmetry. apply store_bytes_cons.
Qed.

(** The word that [memset] stores four bytes at a time, checked for each byte. *)
Lemma le_split_4_fill c :
  let d := Z.land c 0xFF in
  le_split 4 (Z.lor (Z.lor (Z.lor (Z.shiftl d 24) (Z.shiftl d 16)) (Z.shiftl d 8)) d)
  = replicate 4 (byte.of_Z c).
Proof.
  intros d. assert (byte.of_Z c = byte.of_Z d) as ->.
  { apply byte.unsigned_inj. rewrite !byte.unsigned_of_Z. unfold byte.wrap, d.
    change 0xFF with (Z.ones 8). rewrite Z.land_ones by lia.
    by rewrite Z.mod_mod by lia. }
  assert (Hd : 0 <= d < 256).
  { unfold d. change 0xFF with (Z.ones 8). rewrite Z.land_ones by lia.
    apply Z.mod_pos_bound. lia. }
  clearbody d.
  assert (Hall : forallb (fun k => let d := Z.of_nat k in
     bool_decide (le_split 4 (Z.lor (Z.lor (Z.lor (Z.shiftl d 24) (Z.shiftl d 16))
       (Z.shiftl d 8)) d) = replicate 4 (byte.of_Z d))) (seq 0 256) = true)
    by (vm_compute; reflexivity).
  rewrite forallb_forall in Hall.
  specialize (Hall (Z.to_nat d) ltac:(apply in_seq; lia)). cbv zeta in Hall.
  rewrite Z2Nat.id in Hall by lia. by apply bool_decide_eq_true_1 in Hall.
Qed.

Lemma stosl_fill m a w b n :
  le_split 4 w = replicate 4 b ->
  stosl m a w n = store_bytes m a (replicate (4 * n) b).
Proof.
  intros Hw. revert m a. induction n as [|n IH]; intros m a.
  - simpl. by rewrite store_bytes_nil.
  - replace (4 * S n)%nat with (4 + 4 * n)%nat by lia.
    rewrite replicate_add, store_bytes_app. simpl stosl. rewrite IH.
    unfold storeZ. rewrite Hw, length_replicate. done.
Qed.

Lemma memset_block m dst c n :
  0 <= n -> memset m dst c n = store_bytes m dst (replicate (Z.to_nat n) (byte.of_Z c)).
Proof.
  intros Hn. unfold memset.
  destruct (Z.eqb_spec (dst mod 4) 0), (Z.eqb_spec (n mod 4) 0) as [H4|]; simpl;
    try apply stosb_spec.
  rewrite (stosl_fill _ _ _ _ _ (le_split_4_fill c)). do 2 f_equal.
  pose proof (Z.div_mod n 4 ltac:(lia)). lia.
Qed.

Lemma move_up_block m d s n :
  d <= s \/ s + Z.of_nat n <= d ->
  move_up m d s n = store_bytes m d (load_bytes m s n).
Proof.
  revert m d s. induction n as [|n IH]; intros m d s H; simpl.
  - by rewrite store_bytes_nil.
  - rewrite IH by lia.
    change (S n) with (1 + n)%nat. rewrite load_bytes_app, store_bytes_app.
    rewrite length_load_bytes. f_equal.
    + unfold load_bytes. simpl. by rewrite Z.add_0_r.
    + apply load_store_disjoint. simpl. lia.
Qed.

Lemma move_down_block m d s n :
  s <= d ->
  move_down m (d + Z.of_nat n) (s + Z.of_nat n) n = store_bytes m d (load_bytes m s n).
Proof.
  intros H. revert m. induction n as [|n IH]; intros m.
  - simpl. by rewrite store_bytes_nil.
  - simpl move_down.
    replace (d + Z.of_nat (S n) - 1) with (d + Z.of_nat n) by lia.
    replace (s + Z.of_nat (S n) - 1) with (s + Z.of_nat n) by lia.
    rewrite IH. replace (S n) with (n + 1)%nat by lia.
    rewrite load_bytes_app, store_bytes_app, length_load_bytes.
    rewrite load_store_disjoint by (simpl; lia).
    rewrite store_bytes_comm by (simpl; rewrite length_load_bytes; lia).
    unfold load_bytes at 3. simpl. by rewrite Z.add_0_r.
Qed.

Lemma memmove_block m dst src n :
  memmove m dst src n = store_bytes m dst (load_bytes m src n).
Proof.
  unfold memmove.
  destruct (Z.ltb_spec src dst), (Z.ltb_spec dst (src + Z.of_nat n)); simpl;
    first [apply move_down_block; lia | apply move_up_block; lia].
Qed.

(** ** Strings in memory

    The C string held by a buffer: its bytes before the first NUL. *)

Fixpoint cstr (l : list byte) : list byte :=
  match l with
  | [] => []
  | b :: l => if decide (b = Byte.x00) then [] else b :: cstr l
  end.

Lemma length_cstr l : (length (cstr l) <= length l)%nat.
Proof. induction l; simpl; [lia|]. case_decide; simpl; lia. Qed.

Lemma cstr_nonzero l : Forall (.≠ Byte.x00) (cstr l).
Proof. induction l; simpl; [done|]. case_decide; auto. Qed.

Lemma cstr_app_zeros l k : Forall (.≠ Byte.x00) l -> cstr (l ++ replicate k Byte.x00) = l.
Proof.
  induction 1; simpl; [by destruct k|]. case_decide; [done|]. by f_equal.
Qed.

Lemma unsigned_zero_iff b : byte.unsigned b = 0 <-> b = Byte.x00.
Proof.
  split; [|by intros ->]. intros H. apply byte.unsigned_inj. by rewrite H.
Qed.

Lemma ldb_zero_spec m a :
  (ldb m a =? 0) = bool_decide (m a = Byte.x00).
Proof.
  unfold ldb. destruct (Z.eqb_spec (byte.unsigned (m a)) 0) as [H|H];
    rewrite unsigned_zero_iff in H; by case_bool_decide.
Qed.

Lemma strncmp_zero_iff m p q n :
  strncmp m p q n = 0 <-> cstr (load_bytes m p n) = cstr (load_bytes m q n).
Proof.
  revert p q. induction n as [|n IH]; intros p q; simpl strncmp; [done|].
  rewrite !load_bytes_cons, ldb_zero_spec. simpl.
  destruct (decide (m p = Byte.x00)) as [Hp|Hp].
  - rewrite bool_decide_true by done. simpl. unfold ldb. rewrite Hp.
    change (byte.unsigned Byte.x00) with 0.
    destruct (decide (m q = Byte.x00)) as [Hq|Hq]; [by rewrite Hq|].
    split; [|done]. intros H. destruct Hq. apply unsigned_zero_iff. lia.
  - rewrite bool_decide_false by done. simpl.
    destruct (Z.eqb_spec (ldb m p) (ldb m q)) as [H|H]; unfold ldb in H.
    + apply byte.unsigned_inj in H. rewrite <- H, IH.
      rewrite decide_False by done. split; congruence.
    + unfold ldb. split; [lia|]. case_decide; [done|]. congruence.
Qed.

Lemma zero_fill_block m s n : zero_fill m s n = store_bytes m s (replicate n Byte.x00).
Proof.
  revert m s. induction n as [|n IH]; intros m s; simpl.
  - by rewrite store_bytes_nil.
  - rewrite IH. symmetry. apply store_bytes_cons.
Qed.

(** What [strncpy] leaves in its [n] byte destination. *)
Definition strncpy_bytes (l : list byte) : list byte :=
  cstr l ++ replicate (length l - length (cstr l)) Byte.x00.

Lemma length_strncpy_bytes l : length (strncpy_bytes l) = length l.
Proof.
  unfold strncpy_bytes. rewrite length_app, length_replicate.
  pose proof (length_cstr l). lia.
Qed.

Lemma strncpy_block m s t n :
  s + Z.of_nat n <= t \/ t + Z.of_nat n <= s ->
  strncpy m s t n = store_bytes m s (strncpy_bytes (load_bytes m t n)).
Proof.
  revert m s t. induction n as [|n IH]; intros m s t H; simpl strncpy.
  - unfold strncpy_bytes. simpl. by rewrite store_bytes_nil.
  - rewrite load_bytes_cons, ldb_zero_spec. unfold strncpy_bytes. simpl cstr.
    destruct (decide (m t = Byte.x00)) as [Ht|Ht].
    + rewrite bool_decide_true by done. rewrite zero_fill_block, Ht.
      simpl. rewrite length_load_bytes. symmetry. apply store_bytes_cons.
    + rewrite bool_decide_false by done. rewrite IH by lia.
      rewrite load_store_disjoint by (simpl; lia).
      unfold strncpy_bytes. simpl. symmetry. apply store_bytes_cons.
Qed.

Lemma strncpy_load m s t n :
  s + Z.of_nat n <= t \/ t + Z.of_nat n <= s ->
  cstr (load_bytes (strncpy m s t n) s n) = cstr (load_bytes m t n).
Proof.
  intros H. rewrite strncpy_block by done.
  rewrite load_store_same by (by rewrite length_strncpy_bytes, length_load_bytes).
  apply cstr_app_zeros, cstr_nonzero.
Qed.

(** What [safestrcpy] writes, from the first [n - 1] bytes of the source: the
    string, its NUL, and one more NUL when the source ended early. *)
Definition safestrcpy_bytes (l : list byte) : list byte :=
  cstr l ++ (if decide (length (cstr l) = length l) then [Byte.x00]
             else [Byte.x00; Byte.x00]).

Lemma safestrcpy_loop_spec m s t n :
  s + Z.of_nat (S n) <= t \/ t + Z.of_nat (S n) <= s ->
  (let '(m', s') := safestrcpy_loop m s t n in store_bytes m' s' [Byte.x00])
  = store_bytes m s (safestrcpy_bytes (load_bytes m t n)).
Proof.
  revert m s t. induction n as [|n IH]; intros m s t H; simpl safestrcpy_loop; [done|].
  rewrite load_bytes_cons, ldb_zero_spec. unfold safestrcpy_bytes. simpl cstr.
  destruct (decide (m t = Byte.x00)) as [Ht|Ht].
  - rewrite bool_decide_true by done. rewrite Ht. simpl.
    symmetry. apply (store_bytes_cons _ _ _ [Byte.x00]).
  - rewrite bool_decide_false by done. rewrite IH by lia.
    rewrite load_store_disjoint by (simpl; lia). unfold safestrcpy_bytes.
    rewrite <- app_comm_cons, (store_bytes_cons _ _ _ (_ ++ _)). do 2 f_equal. simpl.
    repeat case_decide; done || lia.
Qed.

Lemma safestrcpy_block m s t n :
  0 < n -> s + n <= t \/ t + n <= s ->
  safestrcpy m s t n =
    store_bytes m s (safestrcpy_bytes (load_bytes m t (Z.to_nat (n - 1)))).
Proof.
  intros Hn H. unfold safestrcpy. destruct (Z.leb_spec n 0); [lia|].
  rewrite <- safestrcpy_loop_spec by lia. done.
Qed.

Lemma strlen_spec fuel m s :
  (length (cstr (load_bytes m s fuel)) < fuel)%nat ->
  strlen fuel m s = Some (Z.of_nat (length (cstr (load_bytes m s fuel)))).
Proof.
  revert s. induction fuel as [|n IH]; intros s H; [lia|].
  simpl strlen. rewrite load_bytes_cons in *. rewrite ldb_zero_spec.
  simpl in *. destruct (decide (m s = Byte.x00)).
  - by rewrite bool_decide_true.
  - rewrite bool_decide_false by done. rewrite IH by (simpl in *; lia).
    f_equal. simpl. lia.
Qed.
