(* ===== verification/FsState.v ===== *)
(** * The state of the file layers

    The structures of sleeplock.h, buf.h, fs.h, file.h, log.c and console.c,
    the constants that size their tables, and the record [fsys] of the static
    data of bio.c, log.c, fs.c, file.c, console.c and of the disk. *)

From stdpp Require Import gmap.
From S2P Require Import Prelude.
Local Open Scope Z_scope.

(** ** param.h, fs.h, stat.h *)

Definition NFILE : nat := 100.
Definition NINODE : nat := 50.
Definition NDEV : Z := 10.
Definition ROOTDEV : Z := 1.
Definition MAXARG : nat := 32.
Definition MAXOPBLOCKS : Z := 10.
Definition LOGSIZE : Z := MAXOPBLOCKS * 3.
Definition FSSIZE : Z := 1000.
Definition NBUF : nat := 30.

Definition ROOTINO : Z := 1.
Definition BSIZE : Z := 512.
Definition NDIRECT : Z := 12.
Definition NINDIRECT : Z := BSIZE / 4.
Definition MAXFILE : Z := NDIRECT + NINDIRECT.
Definition DIRSIZ : nat := 14.
Definition T_DIR : Z := 1.
Definition T_FILE : Z := 2.
Definition T_DEV : Z := 3.

(** ** sleeplock.h

    The spin lock inside a sleep lock is a lock of its own, at [slk lk]. *)

Record sleeplock := mk_sleeplock {
  sl_locked : Z;
  sl_name : string;
  sl_pid : Z;
}.

(** ** buf.h *)

Record buf := mk_buf {
  b_flags : Z;
  b_dev : Z;
  b_blockno : Z;
  b_refcnt : Z;
  b_prev : nat;          (* LRU cache list *)
  b_next : nat;
  b_data : list byte;
}.

Definition B_VALID : Z := 0x2.
Definition B_DIRTY : Z := 0x4.

(** ** fs.h, log.c *)

Record superblock := mk_superblock {
  sb_size : Z;
  sb_nblocks : Z;
  sb_ninodes : Z;
  sb_nlog : Z;
  sb_logstart : Z;
  sb_inodestart : Z;
  sb_bmapstart : Z;
}.

Record logheader := mk_logheader {
  lh_n : Z;
  lh_block : list Z;
}.

Record log := mk_log {
  log_start : Z;
  log_size : Z;
  log_outstanding : Z;
  log_committing : Z;
  log_dev : Z;
  log_lh : logheader;
}.

(** ** file.h *)

Record inode := mk_inode {
  i_dev : Z;
  i_inum : Z;
  i_ref : Z;
  i_flags : Z;
  i_type : Z;
  i_major : Z;
  i_minor : Z;
  i_nlink : Z;
  i_size : Z;
  i_addrs : list Z;
}.

Definition I_VALID : Z := 0x2.

Inductive filetype := FD_NONE | FD_PIPE | FD_INODE.

#[export] Instance filetype_eq_dec : EqDecision filetype.
Proof. solve_decision. Defined.

Record file := mk_file {
  f_type : filetype;
  f_ref : Z;
  f_readable : Z;
  f_writable : Z;
  f_pipe : Z;
  f_ip : option nat;
  f_off : Z;
}.

(** ** console.c

    [crt_pos] is the cursor register of the display controller and [serial]
    what was sent to the serial port, latest first. *)

Record console := mk_console {
  in_buf : list byte;
  in_r : Z;
  in_w : Z;
  in_e : Z;
  history : list (list byte);
  history_len : Z;
  history_pos : Z;
  line_start : Z;
  cursor : Z;
  crt_pos : Z;
  serial : list Z;
}.

Definition INPUT_BUF : Z := 128.
Definition HISTORY_SIZE : Z := 16.

(** ** The static data of the file layers

    A buffer is its index in [bufs]; index [NBUF] is [bcache.head].  [disk] is
    the disk of memide.c, one list of bytes per block, and [dwrites] the block
    writes that reached it, latest first. *)

Record fsys := mk_fsys {
  slocks : gmap Z sleeplock;
  bufs : list buf;
  disk : list (list byte);
  dwrites : list (Z * list byte);
  logst : log;
  sb : superblock;
  icache : list inode;
  ftable : list file;
  ticks : Z;
  initproc : option nat;
  first : Z;                     (* the static variable of [forkret] *)
  tty : console;
}.

Definition set_slocks v f := mk_fsys v (bufs f) (disk f) (dwrites f) (logst f) (sb f)
  (icache f) (ftable f) (ticks f) (initproc f) (first f) (tty f).
Definition set_bufs v f := mk_fsys (slocks f) v (disk f) (dwrites f) (logst f) (sb f)
  (icache f) (ftable f) (ticks f) (initproc f) (first f) (tty f).
Definition set_disk v w f := mk_fsys (slocks f) (bufs f) v w (logst f) (sb f)
  (icache f) (ftable f) (ticks f) (initproc f) (first f) (tty f).
Definition set_logst v f := mk_fsys (slocks f) (bufs f) (disk f) (dwrites f) v (sb f)
  (icache f) (ftable f) (ticks f) (initproc f) (first f) (tty f).
Definition set_sb v f := mk_fsys (slocks f) (bufs f) (disk f) (dwrites f) (logst f) v
  (icache f) (ftable f) (ticks f) (initproc f) (first f) (tty f).
Definition set_icache v f := mk_fsys (slocks f) (bufs f) (disk f) (dwrites f) (logst f) (sb f)
  v (ftable f) (ticks f) (initproc f) (first f) (tty f).
Definition set_ftable v f := mk_fsys (slocks f) (bufs f) (disk f) (dwrites f) (logst f) (sb f)
  (icache f) v (ticks f) (initproc f) (first f) (tty f).
Definition set_ticks v f := mk_fsys (slocks f) (bufs f) (disk f) (dwrites f) (logst f) (sb f)
  (icache f) (ftable f) v (initproc f) (first f) (tty f).
Definition set_initproc v f := mk_fsys (slocks f) (bufs f) (disk f) (dwrites f) (logst f) (sb f)
  (icache f) (ftable f) (ticks f) v (first f) (tty f).
Definition set_first v f := mk_fsys (slocks f) (bufs f) (disk f) (dwrites f) (logst f) (sb f)
  (icache f) (ftable f) (ticks f) (initproc f) v (tty f).
Definition set_cons v f := mk_fsys (slocks f) (bufs f) (disk f) (dwrites f) (logst f) (sb f)
  (icache f) (ftable f) (ticks f) (initproc f) (first f) v.

(** ** The static data at entry: zero, and the disk [d] *)

Definition buf0 : buf := mk_buf 0 0 0 0 0 0 (replicate (Z.to_nat BSIZE) Byte.x00).
Definition inode0 : inode := mk_inode 0 0 0 0 0 0 0 0 0 (replicate 13 0).
Definition file0 : file := mk_file FD_NONE 0 0 0 0 None 0.
Definition console0 : console :=
  mk_console (replicate 128 Byte.x00) 0 0 0 (replicate 16 (replicate 128 Byte.x00))
    0 (-1) 0 0 0 [].

Definition fsys0 (d : list (list byte)) : fsys :=
  mk_fsys ∅ (replicate (S NBUF) buf0) d []
    (mk_log 0 0 0 0 0 (mk_logheader 0 (replicate 30 0)))
    (mk_superblock 0 0 0 0 0 0 0) (replicate NINODE inode0) (replicate NFILE file0)
    0 None 1 console0.
