(* ===== verification/Machine.v ===== *)
(** * The kernel's state

    The constants of param.h, memlayout.h and mmu.h, the structures of
    spinlock.h, proc.h and e1000_dev.h, and the record of the kernel's
    globals.  Pages that [kalloc] hands out live in the byte memory [mem];
    the static objects of the kernel (tables, rings, locks) are fields; those
    of the file layers are the field [fs]. *)

From stdpp Require Export gmap.
From S2P Require Import Prelude Memory FsState.
Local Open Scope Z_scope.

(** ** param.h, memlayout.h, mmu.h *)

Definition NPROC : nat := 64.
Definition NOFILE : nat := 16.
Definition KSTACKSIZE : Z := 4096.
Definition PHYSTOP : Z := 0xE000000.
Definition KERNBASE : Z := 0xFFFF800000000000.
Definition PGSIZE : Z := 4096.

Definition V2P (a : Z) : Z := u64 (a - KERNBASE).
Definition P2V (a : Z) : Z := u64 (a + KERNBASE).

(** The complement of [PGSIZE - 1] as an [addr_t]. *)
Definition PGMASK : Z := u64 (Z.lnot (PGSIZE - 1)).
Definition PGROUNDUP (sz : Z) : Z := Z.land (u64 (sz + (PGSIZE - 1))) PGMASK.
Definition PGROUNDDOWN (a : Z) : Z := Z.land a PGMASK.

(** ** spinlock.h *)

Record spinlock := mk_spinlock {
  locked : Z;            (* is the lock held? *)
  lk_name : string;
  lk_cpu : option Z;     (* the cpu holding the lock *)
}.

(** Locks are told apart by their addresses; the static ones need only be
    different from one another and from every allocated page. *)
Definition kmem_lock : Z := 1.
Definition ptable_lock : Z := 2.
Definition netlock : Z := 3.
Definition e1000_lock : Z := 4.
Definition tickslock : Z := 5.

(** ** proc.h *)

Record cpu := mk_cpu {
  cpu_id : Z;
  ncli : Z;              (* depth of pushcli nesting *)
  intena : bool;         (* were interrupts enabled before pushcli? *)
  eflags_IF : bool;      (* the interrupt flag of this CPU *)
  cr3 : Z;               (* the page table register of this CPU *)
}.

Inductive procstate := UNUSED | EMBRYO | SLEEPING | RUNNABLE | RUNNING | ZOMBIE.

#[export] Instance procstate_eq_dec : EqDecision procstate.
Proof. solve_decision. Defined.

(** The offsets in [struct trapframe] (x86.h) of the registers that the
    modelled code reads or writes, and its size. *)
Definition tf_rax : Z := 0.
Definition tf_rcx : Z := 16.
Definition tf_rdx : Z := 24.
Definition tf_rsi : Z := 40.
Definition tf_rdi : Z := 48.
Definition tf_r8 : Z := 56.
Definition tf_r9 : Z := 64.
Definition tf_r10 : Z := 72.
Definition tf_r11 : Z := 80.
Definition tf_rip : Z := 136.
Definition tf_rsp : Z := 160.
Definition sizeof_trapframe : Z := 176.

(** [struct context]: seven words, the last one [rip]. *)
Definition ctx_rip : Z := 48.
Definition sizeof_context : Z := 56.

(** A pointer to a process is its index in the process table, a pointer to an
    open file its index in the file table, a pointer to an in-memory inode its
    index in the inode cache. *)
Record proc := mk_proc {
  sz : Z;
  pgdir : Z;
  kstack : Z;
  state : procstate;
  pid : Z;
  parent : option nat;
  tf : Z;                (* address of the trap frame in the kernel stack *)
  context : Z;
  chan : Z;
  killed : Z;
  ofile : list (option nat);
  cwd : option nat;
  pname : list byte;
}.

(** ** e1000_dev.h *)

Record tx_desc := mk_tx_desc {
  tx_addr : Z; tx_length : Z; tx_cso : Z; tx_cmd : Z;
  tx_status : Z; tx_css : Z; tx_special : Z;
}.

Record rx_desc := mk_rx_desc {
  rx_addr : Z; rx_length : Z; rx_csum : Z; rx_status : Z; rx_errors : Z;
  rx_special : Z;
}.

(** The static data of e1000.c; [regs] is the register window, indexed by the
    word as the driver indexes it. *)
Record e1000 := mk_e1000 {
  tx_ring : list tx_desc;
  rx_ring : list rx_desc;
  tx_bufs : list Z;
  rx_bufs : list Z;
  regs : Z -> Z;
}.

(** The static data of net.c. *)
Record net := mk_net {
  port_list : Z;
  seen_ip : Z;
  seen_arp : Z;
}.

(** ** The kernel's globals *)

Record kstate := mk_kstate {
  mem : memory;
  kend : Z;                      (* the linker's [end] *)
  use_lock : Z;                  (* kmem.use_lock *)
  freelist : Z;                  (* kmem.freelist *)
  locks : gmap Z spinlock;
  this_cpu : cpu;
  procs : list proc;             (* ptable.proc *)
  cur : option nat;              (* the per-CPU variable [proc] *)
  nextpid : Z;
  nic : e1000;
  netst : net;
  klog : list string;            (* what cprintf printed, latest first *)
  kpml4 : Z;                     (* the static page tables of vm.c *)
  kpdpt : Z;
  fs : fsys;                     (* the static data of the file layers *)
}.

Definition set_mem (m : memory) (s : kstate) : kstate :=
  mk_kstate m (kend s) (use_lock s) (freelist s) (locks s) (this_cpu s) (procs s)
    (cur s) (nextpid s) (nic s) (netst s) (klog s) (kpml4 s) (kpdpt s) (fs s).
Definition set_use_lock (u : Z) (s : kstate) : kstate :=
  mk_kstate (mem s) (kend s) u (freelist s) (locks s) (this_cpu s) (procs s)
    (cur s) (nextpid s) (nic s) (netst s) (klog s) (kpml4 s) (kpdpt s) (fs s).
Definition set_freelist (r : Z) (s : kstate) : kstate :=
  mk_kstate (mem s) (kend s) (use_lock s) r (locks s) (this_cpu s) (procs s)
    (cur s) (nextpid s) (nic s) (netst s) (klog s) (kpml4 s) (kpdpt s) (fs s).
Definition set_locks (l : gmap Z spinlock) (s : kstate) : kstate :=
  mk_kstate (mem s) (kend s) (use_lock s) (freelist s) l (this_cpu s) (procs s)
    (cur s) (nextpid s) (nic s) (netst s) (klog s) (kpml4 s) (kpdpt s) (fs s).
Definition set_cpu (c : cpu) (s : kstate) : kstate :=
  mk_kstate (mem s) (kend s) (use_lock s) (freelist s) (locks s) c (procs s)
    (cur s) (nextpid s) (nic s) (netst s) (klog s) (kpml4 s) (kpdpt s) (fs s).
Definition set_procs (p : list proc) (s : kstate) : kstate :=
  mk_kstate (mem s) (kend s) (use_lock s) (freelist s) (locks s) (this_cpu s) p
    (cur s) (nextpid s) (nic s) (netst s) (klog s) (kpml4 s) (kpdpt s) (fs s).
Definition set_cur (c : option nat) (s : kstate) : kstate :=
  mk_kstate (mem s) (kend s) (use_lock s) (freelist s) (locks s) (this_cpu s) (procs s)
    c (nextpid s) (nic s) (netst s) (klog s) (kpml4 s) (kpdpt s) (fs s).
Definition set_nextpid (n : Z) (s : kstate) : kstate :=
  mk_kstate (mem s) (kend s) (use_lock s) (freelist s) (locks s) (this_cpu s) (procs s)
    (cur s) n (nic s) (netst s) (klog s) (kpml4 s) (kpdpt s) (fs s).
Definition set_nic (d : e1000) (s : kstate) : kstate :=
  mk_kstate (mem s) (kend s) (use_lock s) (freelist s) (locks s) (this_cpu s) (procs s)
    (cur s) (nextpid s) d (netst s) (klog s) (kpml4 s) (kpdpt s) (fs s).
Definition set_net (n : net) (s : kstate) : kstate :=
  mk_kstate (mem s) (kend s) (use_lock s) (freelist s) (locks s) (this_cpu s) (procs s)
    (cur s) (nextpid s) (nic s) n (klog s) (kpml4 s) (kpdpt s) (fs s).
Definition set_klog (l : list string) (s : kstate) : kstate :=
  mk_kstate (mem s) (kend s) (use_lock s) (freelist s) (locks s) (this_cpu s) (procs s)
    (cur s) (nextpid s) (nic s) (netst s) l (kpml4 s) (kpdpt s) (fs s).

Definition set_kpml4 (a : Z) (s : kstate) : kstate :=
  mk_kstate (mem s) (kend s) (use_lock s) (freelist s) (locks s) (this_cpu s) (procs s)
    (cur s) (nextpid s) (nic s) (netst s) (klog s) a (kpdpt s) (fs s).
Definition set_kpdpt (a : Z) (s : kstate) : kstate :=
  mk_kstate (mem s) (kend s) (use_lock s) (freelist s) (locks s) (this_cpu s) (procs s)
    (cur s) (nextpid s) (nic s) (netst s) (klog s) (kpml4 s) a (fs s).

Definition set_fs (f : fsys) (s : kstate) : kstate :=
  mk_kstate (mem s) (kend s) (use_lock s) (freelist s) (locks s) (this_cpu s) (procs s)
    (cur s) (nextpid s) (nic s) (netst s) (klog s) (kpml4 s) (kpdpt s) f.

Abbreviation K := (M kstate).

Definition cprintf (msg : string) : K unit :=
  modify (fun s => set_klog (msg :: klog s) s).

(** ** Kernel memory accesses

    [kvmalloc] maps the first gigabyte of physical memory at [KERNBASE]; an
    access through a pointer outside that window is a page fault. *)

Definition kmapped (a n : Z) : bool :=
  (KERNBASE <=? a) && (a + n <=? KERNBASE + 0x40000000).

Definition kload (n : nat) (a : Z) : K Z :=
  fun s => if kmapped a (Z.of_nat n) then Ok (loadZ n (mem s) a) s else Fault.

Definition kstore (n : nat) (a v : Z) : K unit :=
  fun s =>
    if kmapped a (Z.of_nat n) then Ok tt (set_mem (storeZ n (mem s) a v) s) else Fault.

(** Run a routine of string.c whose accesses stay in the ranges [rs]. *)
Definition kmem_op (rs : list (Z * Z)) (f : memory -> memory) : K unit :=
  fun s =>
    if forallb (fun r => kmapped (fst r) (snd r)) rs
    then Ok tt (set_mem (f (mem s)) s) else Fault.

Lemma kload_ok n a s :
  kmapped a (Z.of_nat n) = true -> kload n a s = Ok (loadZ n (mem s) a) s.
Proof. unfold kload. by intros ->. Qed.

Lemma kstore_ok n a v s :
  kmapped a (Z.of_nat n) = true ->
  kstore n a v s = Ok tt (set_mem (storeZ n (mem s) a v) s).
Proof. unfold kstore. by intros ->. Qed.

(** ** Pages *)

(** A page that the allocator may manage: aligned, past the kernel image and
    below [PHYSTOP]; the negation of the test in [kfree]. *)
Definition kpage (kend a : Z) : Prop :=
  a mod PGSIZE = 0 /\ kend <= a /\ KERNBASE <= a < KERNBASE + PHYSTOP.

#[export] Instance kpage_dec kend a : Decision (kpage kend a).
Proof. unfold kpage. apply _. Defined.

Lemma kmapped_in_page kend p k n :
  kpage kend p -> 0 <= k -> 0 <= n -> k + n <= PGSIZE -> kmapped (p + k) n = true.
Proof.
  unfold kpage, kmapped, PGSIZE, KERNBASE, PHYSTOP. intros (? & ? & ?) ???.
  apply andb_true_intro. lia.
Qed.

Lemma kpage_disjoint kend p q :
  kpage kend p -> kpage kend q -> p <> q -> p + PGSIZE <= q \/ q + PGSIZE <= p.
Proof. unfold kpage, PGSIZE. intros (?&?&?) (?&?&?) ?. lia_mod. Qed.

Lemma kpage_nonzero kend p : kpage kend p -> p <> 0.
Proof. unfold kpage, KERNBASE. lia. Qed.

Lemma kpage_word kend p : kpage kend p -> 0 <= p < 2 ^ 64.
Proof. unfold kpage, KERNBASE, PHYSTOP. lia. Qed.

(** ** Rounding to pages *)

Lemma land_PGMASK x : 0 <= x < 2 ^ 64 -> Z.land x PGMASK = PGSIZE * (x / PGSIZE).
Proof.
  intros Hx.
  change PGMASK with (Z.land (Z.ones 64) (Z.lnot (Z.ones 12))).
  rewrite Z.land_assoc, Z.land_ones, (Z.mod_small x) by lia.
  rewrite <- Z.ldiff_land, Z.ldiff_ones_r by lia.
  rewrite Z.shiftr_div_pow2, Z.shiftl_mul_pow2 by lia.
  change (2 ^ 12) with PGSIZE. lia.
Qed.

Lemma PGROUNDDOWN_spec x : 0 <= x < 2 ^ 64 -> PGROUNDDOWN x = PGSIZE * (x / PGSIZE).
Proof. apply land_PGMASK. Qed.

Lemma PGROUNDUP_spec x :
  0 <= x -> x + (PGSIZE - 1) < 2 ^ 64 ->
  PGROUNDUP x mod PGSIZE = 0 /\ x <= PGROUNDUP x < x + PGSIZE.
Proof.
  intros. unfold PGROUNDUP. rewrite u64_small, land_PGMASK by (unfold PGSIZE in *; lia).
  unfold PGSIZE in *. split; [|lia_mod]. rewrite Z.mul_comm. by apply Z.mod_mul.
Qed.

(** ** The state at entry

    The kernel starts with its static data zero and no lock initialised;
    [e] is the end of its image. *)

Definition proc0 : proc :=
  mk_proc 0 0 0 UNUSED 0 None 0 0 0 0 (replicate NOFILE None) None (replicate 16 Byte.x00).

Definition entry_state (e : Z) (d : list (list byte)) : kstate :=
  mk_kstate (fun _ => Byte.x00) e 0 0 ∅ (mk_cpu 0 0 false false 0)
    (replicate NPROC proc0) None 1
    (mk_e1000 (replicate 16 (mk_tx_desc 0 0 0 0 0 0 0))
              (replicate 16 (mk_rx_desc 0 0 0 0 0 0))
              (replicate 16 0) (replicate 16 0) (fun _ => 0))
    (mk_net 0 0 0) [] 0 0 (fsys0 d).
