(* ===== verification/Spinlock.v ===== *)
(** * spinlock.c

    Interrupt nesting ([pushcli], [popcli]), the spin lock as one CPU runs it,
    and the lock as several CPUs race for it: mutual exclusion of the critical
    sections from the atomic [xchg].  The call stack that a lock records for
    debugging is modelled by [getstackpcs] and is not stored in the lock. *)

From S2P Require Import Prelude Memory Machine.
Local Open Scope Z_scope.
Local Open Scope kernel_scope.

(** ** Interrupt nesting *)

Definition pushcli_cpu (c : cpu) : cpu :=
  mk_cpu (cpu_id c) (ncli c + 1)
    (if ncli c =? 0 then eflags_IF c else intena c) false (cr3 c).

Definition pushcli : K unit := modify (fun s => set_cpu (pushcli_cpu (this_cpu s)) s).

Definition popcli : K unit := fun s =>
  let c := this_cpu s in
  if eflags_IF c then Panic "popcli - interruptible"
  else
    let n := ncli c - 1 in
    if n <? 0 then Panic "popcli"
    else Ok tt (set_cpu (mk_cpu (cpu_id c) n (intena c)
                  (if (n =? 0) && intena c then true else eflags_IF c) (cr3 c)) s).

(** ** The lock *)

Definition initlock (lk : Z) (name : string) : K unit :=
  modify (fun s => set_locks (<[lk := mk_spinlock 0 name None]> (locks s)) s).

(** Is this CPU holding the lock?  A pointer to no lock faults. *)
Definition holding (lk : Z) : K bool := fun s =>
  match locks s !! lk with
  | None => Fault
  | Some l =>
      Ok (negb (locked l =? 0) && bool_decide (lk_cpu l = Some (cpu_id (this_cpu s)))) s
  end.

(** The number of failed exchanges after which the model of the spin loop
    gives up; the properties about one CPU start from a free lock. *)
Definition spin_limit : nat := 64.

(** [while(xchg(&lk->locked, 1) != 0);] then the note of the holder. *)
Fixpoint xchg_loop (fuel : nat) (lk : Z) : K unit := fun s =>
  match fuel with
  | O => OutOfFuel
  | S k =>
      match locks s !! lk with
      | None => Fault
      | Some l =>
          if locked l =? 0 then
            Ok tt (set_locks (<[lk := mk_spinlock 1 (lk_name l)
                                        (Some (cpu_id (this_cpu s)))]> (locks s)) s)
          else
            Spin lk (set_locks (<[lk := mk_spinlock 1 (lk_name l) (lk_cpu l)]> (locks s)) s)
              (xchg_loop k lk)
      end
  end.

Definition acquire (lk : Z) : K unit :=
  pushcli ;;
  h <- holding lk ;;
  if h then panic "acquire" else xchg_loop spin_limit lk.

Definition release (lk : Z) : K unit :=
  h <- holding lk ;;
  if h then
    modify (fun s =>
      set_locks (alter (fun l => mk_spinlock 0 (lk_name l) None) lk (locks s)) s) ;;
    popcli
  else panic "release".

(** Follow the chain of saved frame pointers, at most [n] frames. *)
Fixpoint getstackpcs_loop (n : nat) (rbp : Z) : K (list Z) :=
  match n with
  | O => ret []
  | S k =>
      if (rbp =? 0) || (rbp <? KERNBASE) || (rbp =? 0xffffffff)
      then ret (replicate n 0)
      else
        pc <- kload 8 (u64 (rbp + 8)) ;;
        rbp <- kload 8 rbp ;;
        pcs <- getstackpcs_loop k rbp ;;
        ret (pc :: pcs)
  end.

Definition getstackpcs (rbp : Z) : K (list Z) := getstackpcs_loop 10 rbp.

(** ** One CPU *)

(** The interrupt state of a CPU between two instructions of the kernel:
    inside a [pushcli] the interrupts are off. *)
Definition cpu_wf (c : cpu) : Prop :=
  0 <= ncli c /\ (0 < ncli c -> eflags_IF c = false).

(** What a balanced pair of [pushcli] and [popcli] leaves. *)
Definition cpu_norm (c : cpu) : cpu :=
  mk_cpu (cpu_id c) (ncli c) (if ncli c =? 0 then eflags_IF c else intena c) (eflags_IF c)
    (cr3 c).

Lemma cpu_norm_idem c : cpu_norm (cpu_norm c) = cpu_norm c.
Proof. unfold cpu_norm. simpl. by destruct (ncli c =? 0). Qed.

Lemma cpu_norm_pushcli c : cpu_wf c -> cpu_norm (pushcli_cpu c) = pushcli_cpu c.
Proof.
  intros [? _]. unfold cpu_norm, pushcli_cpu. simpl.
  destruct (Z.eqb_spec (ncli c + 1) 0); [lia|done].
Qed.

Lemma cpu_wf_norm c : cpu_wf c -> cpu_wf (cpu_norm c).
Proof. done. Qed.

Lemma cpu_wf_pushcli c : cpu_wf c -> cpu_wf (pushcli_cpu c).
Proof. intros [? ?]. split; simpl; [lia|done]. Qed.

Lemma popcli_pushcli s c :
  this_cpu s = pushcli_cpu c -> cpu_wf c -> popcli s = Ok tt (set_cpu (cpu_norm c) s).
Proof.
  intros Hs [Hn Hi]. unfold popcli. rewrite Hs. simpl.
  replace (ncli c + 1 - 1) with (ncli c) by lia.
  destruct (Z.ltb_spec (ncli c) 0); [lia|]. unfold cpu_norm. do 3 f_equal.
  destruct (Z.eqb_spec (ncli c) 0) as [E|E]; simpl.
  - by destruct (eflags_IF c).
  - rewrite Hi by lia. done.
Qed.

(** The lock at [lk] is initialised and free. *)
Definition lock_free (lk : Z) (s : kstate) : Prop :=
  exists name, locks s !! lk = Some (mk_spinlock 0 name None).

(** [acquire] of a free lock: the state inside the critical section. *)
Definition locked_state (lk : Z) (s : kstate) : kstate :=
  set_locks (alter (fun l => mk_spinlock 1 (lk_name l) (Some (cpu_id (this_cpu s)))) lk (locks s))
    (set_cpu (pushcli_cpu (this_cpu s)) s).

Lemma acquire_free lk s : lock_free lk s -> acquire lk s = Ok tt (locked_state lk s).
Proof.
  intros [name Hl]. unfold acquire, bind, pushcli, modify, holding. simpl.
  rewrite Hl. simpl. unfold spin_limit. simpl. rewrite Hl. simpl.
  unfold locked_state. do 2 f_equal.
  symmetry. apply map_eq. intros i.
  destruct (decide (i = lk)) as [->|Hne].
  - by rewrite lookup_alter_eq, lookup_insert_eq, Hl.
  - by rewrite lookup_alter_ne, lookup_insert_ne by done.
Qed.

(** A CPU that already holds the lock stops the machine instead of waiting for
    itself. *)
Lemma acquire_again lk s name :
  locks s !! lk = Some (mk_spinlock 1 name (Some (cpu_id (this_cpu s)))) ->
  acquire lk s = Panic "acquire".
Proof.
  intros Hl. unfold acquire, bind, pushcli, modify, holding. simpl. rewrite Hl. simpl.
  by rewrite bool_decide_true.
Qed.

(** [release] undoes [acquire]: from any state inside the critical section in
    which the lock and the CPU are as [acquire] left them. *)
Lemma release_held lk s s0 :
  lock_free lk s0 -> cpu_wf (this_cpu s0) ->
  locks s = locks (locked_state lk s0) ->
  this_cpu s = pushcli_cpu (this_cpu s0) ->
  release lk s = Ok tt (set_cpu (cpu_norm (this_cpu s0)) (set_locks (locks s0) s)).
Proof.
  intros [name Hl] Hwf Hlk Hcpu. unfold release, bind, holding. rewrite Hlk. simpl.
  rewrite lookup_alter_eq, Hl. simpl. rewrite Hcpu. simpl.
  rewrite bool_decide_true by done. simpl.
  rewrite (popcli_pushcli _ (this_cpu s0)) by done. simpl.
  unfold set_cpu, set_locks. simpl. do 2 f_equal.
  rewrite Hlk. simpl. apply map_eq. intros i. destruct (decide (i = lk)) as [->|Hne].
  - by rewrite !lookup_alter_eq, Hl.
  - by rewrite !lookup_alter_ne by done.
Qed.

(** A CPU that does not hold the lock cannot release it. *)
Lemma release_not_held lk s l :
  locks s !! lk = Some l -> lk_cpu l <> Some (cpu_id (this_cpu s)) ->
  release lk s = Panic "release".
Proof.
  intros Hl Hc. unfold release, bind, holding. rewrite Hl. simpl.
  rewrite bool_decide_false by done. by rewrite andb_false_r.
Qed.

Lemma length_getstackpcs_loop n rbp s pcs s' :
  getstackpcs_loop n rbp s = Ok pcs s' -> length pcs = n /\ s' = s.
Proof.
  revert rbp s pcs. induction n as [|n IH]; intros rbp s pcs; simpl.
  { intros [= <- <-]. done. }
  destruct ((rbp =? 0) || (rbp <? KERNBASE) || (rbp =? 0xffffffff)).
  { intros [= <- <-]. simpl. by rewrite length_replicate. }
  unfold bind, kload. destruct (kmapped _ _); simpl; [|done].
  destruct (kmapped _ _); simpl; [|done].
  destruct (getstackpcs_loop n _ s) eqn:E; simpl; try done.
  intros [= <- <-]. apply IH in E as [<- ->]. done.
Qed.

(** ** Several CPUs

    Each CPU is at one point of [acquire] or [release]; a step is one access
    to the lock, and the exchange of [locked] is one step. *)

Module SpinSteps.

Inductive pc :=
| Outside                 (* before [acquire], and after [release] *)
| Spinning                (* [acquire] past its test of [holding] *)
| Won                     (* the exchange returned 0, the holder not yet noted *)
| Critical                (* [acquire] has returned *)
| Leaving                 (* [release] has cleared the holder *)
| Panicked.

Record st := mk_st { lk : spinlock; pcs : list pc }.

Definition hold (c : Z) (l : spinlock) : bool :=
  negb (locked l =? 0) && bool_decide (lk_cpu l = Some c).

Inductive step : st -> st -> Prop :=
| step_enter i l ps :
    ps !! i = Some Outside -> hold (Z.of_nat i) l = false ->
    step (mk_st l ps) (mk_st l (<[i := Spinning]> ps))
| step_self i l ps p :
    ps !! i = Some p -> p = Outside \/ p = Critical -> hold (Z.of_nat i) l = true ->
    step (mk_st l ps) (mk_st l (<[i := Panicked]> ps))   (* acquire: held already *)
| step_lost i l ps :
    ps !! i = Some Spinning -> locked l <> 0 ->
    step (mk_st l ps) (mk_st (mk_spinlock 1 (lk_name l) (lk_cpu l)) ps)
| step_won i l ps :
    ps !! i = Some Spinning -> locked l = 0 ->
    step (mk_st l ps)
         (mk_st (mk_spinlock 1 (lk_name l) (lk_cpu l)) (<[i := Won]> ps))
| step_note i l ps :
    ps !! i = Some Won ->
    step (mk_st l ps)
         (mk_st (mk_spinlock (locked l) (lk_name l) (Some (Z.of_nat i)))
                (<[i := Critical]> ps))
| step_clear i l ps :
    ps !! i = Some Critical -> hold (Z.of_nat i) l = true ->
    step (mk_st l ps)
         (mk_st (mk_spinlock (locked l) (lk_name l) None) (<[i := Leaving]> ps))
| step_bad_release i l ps p :
    ps !! i = Some p -> p = Outside \/ p = Critical -> hold (Z.of_nat i) l = false ->
    step (mk_st l ps) (mk_st l (<[i := Panicked]> ps))
| step_unlock i l ps :
    ps !! i = Some Leaving ->
    step (mk_st l ps)
         (mk_st (mk_spinlock 0 (lk_name l) (lk_cpu l)) (<[i := Outside]> ps)).

(** CPU [i] has taken the lock and not yet given it back. *)
Definition holder (s : st) (i : nat) : Prop :=
  (exists p, pcs s !! i = Some p /\ (p = Won \/ p = Critical \/ p = Leaving)) \/
  lk_cpu (lk s) = Some (Z.of_nat i).

Record inv (s : st) : Prop := mk_inv {
  inv_locked : forall i, holder s i -> locked (lk s) <> 0;
  inv_unique : forall i j, holder s i -> holder s j -> i = j;
  inv_noted : forall i, pcs s !! i = Some Critical -> lk_cpu (lk s) = Some (Z.of_nat i);
  inv_not_noted : forall i p, pcs s !! i = Some p -> p <> Critical -> p <> Panicked ->
    lk_cpu (lk s) <> Some (Z.of_nat i);
}.

(** The state that [initlock] leaves, with [n] CPUs outside. *)
Definition init (name : string) (n : nat) : st :=
  mk_st (mk_spinlock 0 name None) (replicate n Outside).

Lemma inv_init name n : inv (init name n).
Proof.
  assert (Hp : forall i p, replicate n Outside !! i = Some p -> p = Outside)
    by (intros i p [-> _]%lookup_replicate_1; done).
  assert (Hh : forall i, ~ holder (init name n) i).
  { intros i [(p & ->%Hp & [?|[?|?]])|?]; done. }
  split; simpl; try done.
  - intros i H. by destruct (Hh i).
  - intros i j H. by destruct (Hh i).
  - intros i H%Hp. done.
Qed.

Lemma hold_true c l : hold c l = true <-> locked l <> 0 /\ lk_cpu l = Some c.
Proof.
  unfold hold. rewrite andb_true_iff, negb_true_iff, Z.eqb_neq, bool_decide_eq_true. done.
Qed.

Lemma hold_false c l : hold c l = false <-> locked l = 0 \/ lk_cpu l <> Some c.
Proof.
  rewrite <- not_true_iff_false, hold_true. destruct (decide (locked l = 0)); naive_solver.
Qed.

(** A CPU that starts to spin or panics changes neither the lock nor who has it. *)
Lemma inv_quiet l ps i p p0 :
  inv (mk_st l ps) -> ps !! i = Some p0 ->
  p = Spinning /\ p0 = Outside \/ p = Panicked ->
  inv (mk_st l (<[i := p]> ps)).
Proof.
  intros [H1 H2 H3 H4] Hi Hp.
  assert (Hh : forall j, holder (mk_st l (<[i := p]> ps)) j -> holder (mk_st l ps) j).
  { intros j [(q & Hq & Hq')|Hj]; [|by right]. simpl in Hq.
    apply list_lookup_insert_Some in Hq as [(_ & <- & _)|[_ Hq]]; [naive_solver|].
    left. eauto. }
  simpl in *. split; simpl.
  - intros j Hj. by apply (H1 j), Hh.
  - intros j k Hj Hk. apply H2; by apply Hh.
  - intros j. rewrite list_lookup_insert_Some. naive_solver.
  - intros j q. rewrite list_lookup_insert_Some. naive_solver.
Qed.

Lemma inv_step s s' : inv s -> step s s' -> inv s'.
Proof.
  intros Hinv Hs. pose proof Hinv as [H1 H2 H3 H4]. unfold holder in H1, H2.
  destruct Hs; try (by eapply inv_quiet; eauto); simpl in *;
    repeat match goal with
    | H : hold _ _ = true |- _ => apply hold_true in H as [? ?]
    end; clear Hinv.
  - split; unfold holder; simpl; naive_solver.
  - split; unfold holder; simpl; setoid_rewrite list_lookup_insert_Some; naive_solver.
  - split; unfold holder; simpl; setoid_rewrite list_lookup_insert_Some; naive_solver.
  - split; unfold holder; simpl; setoid_rewrite list_lookup_insert_Some; naive_solver.
  - assert (Hu : forall j, ~ ((exists p, <[i := Outside]> ps !! j = Some p /\
              (p = Won \/ p = Critical \/ p = Leaving)) \/ lk_cpu l = Some (Z.of_nat j))).
    { intros j Hj. assert (j = i) as ->.
      { apply H2; [|by left; eauto]. setoid_rewrite list_lookup_insert_Some in Hj.
        naive_solver. }
      destruct Hj as [(p & Hp & Hp')|Hj]; [|by apply (H4 i Leaving)].
      apply list_lookup_insert_Some in Hp. naive_solver. }
    split; unfold holder; simpl.
    + intros j Hj. by destruct (Hu j).
    + intros j k Hj. by destruct (Hu j).
    + intros j Hj. destruct (Hu j). left. eauto.
    + intros j p _ _ _ Hj. destruct (Hu j). by right.
Qed.

Lemma inv_reachable s s' : inv s -> rtc step s s' -> inv s'.
Proof. intros H Hs. induction Hs; eauto using inv_step. Qed.

End SpinSteps.

(** ** The code takes these steps *)

(** [lk] in the state of one CPU and in the race. *)
Lemma xchg_loop_steps k lk s l i ps :
  locks s !! lk = Some l -> cpu_id (this_cpu s) = Z.of_nat i ->
  ps !! i = Some SpinSteps.Spinning ->
  match xchg_loop (S k) lk s with
  | Ok _ s' => exists l', locks s' !! lk = Some l' /\
      rtc SpinSteps.step (SpinSteps.mk_st l ps) (SpinSteps.mk_st l' (<[i := SpinSteps.Critical]> ps))
  | Spin _ s' _ => exists l', locks s' !! lk = Some l' /\
      SpinSteps.step (SpinSteps.mk_st l ps) (SpinSteps.mk_st l' ps)
  | _ => False
  end.
Proof.
  intros Hl Hc Hi. cbn [xchg_loop]. rewrite Hl. destruct (Z.eqb_spec (locked l) 0) as [E|E].
  - eexists. cbn [locks set_locks]. split; [apply lookup_insert_eq|]. rewrite Hc.
    eapply rtc_l; [by apply (SpinSteps.step_won i)|].
    eapply rtc_l; [apply (SpinSteps.step_note i)|].
    + apply list_lookup_insert_eq. by eapply lookup_lt_Some.
    + rewrite list_insert_insert_eq. apply rtc_refl.
  - eexists. cbn [locks set_locks]. split; [apply lookup_insert_eq|]. by apply (SpinSteps.step_lost i).
Qed.

Lemma release_steps lk s s' l i ps :
  release lk s = Ok tt s' -> locks s !! lk = Some l -> cpu_id (this_cpu s) = Z.of_nat i ->
  ps !! i = Some SpinSteps.Critical ->
  exists l', locks s' !! lk = Some l' /\
    rtc SpinSteps.step (SpinSteps.mk_st l ps) (SpinSteps.mk_st l' (<[i := SpinSteps.Outside]> ps)).
Proof.
  intros Hr Hl Hc Hi. unfold release in Hr.
  assert (Hh : holding lk s = Ok (SpinSteps.hold (Z.of_nat i) l) s)
    by (unfold holding; rewrite Hl, Hc; done).
  rewrite (bind_ok _ _ _ _ _ Hh) in Hr. destruct (SpinSteps.hold (Z.of_nat i) l) eqn:Eh; [|done].
  rewrite bind_modify in Hr. unfold popcli in Hr. destruct (eflags_IF _); [done|].
  destruct (_ <? 0); [done|]. injection Hr as <-. eexists. cbn [locks set_cpu set_locks].
  rewrite lookup_alter_eq, Hl. split; [done|].
  eapply rtc_l; [by apply (SpinSteps.step_clear i)|].
  eapply rtc_l; [apply (SpinSteps.step_unlock i)|].
  - apply list_lookup_insert_eq. by eapply lookup_lt_Some.
  - rewrite list_insert_insert_eq. apply rtc_refl.
Qed.

(** C4: mutual exclusion.  However many CPUs take the lock with [acquire] and
    give it back with [release], in whatever order their accesses to it
    interleave, at most one of them is in its critical section; [holding] is
    true there and false outside.  The steps of the race are those of the code:
    an exchange that finds the lock free and the note of the holder, a failed
    exchange, and the two stores of [release]. *)
Theorem spinlock_mutual_exclusion name n s :
  rtc SpinSteps.step (SpinSteps.init name n) s ->
  (forall i j, SpinSteps.pcs s !! i = Some SpinSteps.Critical ->
     SpinSteps.pcs s !! j = Some SpinSteps.Critical -> i = j) /\
  (forall i, SpinSteps.pcs s !! i = Some SpinSteps.Critical ->
     SpinSteps.hold (Z.of_nat i) (SpinSteps.lk s) = true) /\
  (forall i, SpinSteps.pcs s !! i = Some SpinSteps.Outside ->
     SpinSteps.hold (Z.of_nat i) (SpinSteps.lk s) = false) /\
  (forall k lk ks i, locks ks !! lk = Some (SpinSteps.lk s) -> cpu_id (this_cpu ks) = Z.of_nat i ->
     SpinSteps.pcs s !! i = Some SpinSteps.Spinning ->
     match xchg_loop (S k) lk ks with
     | Ok _ ks' => exists l', locks ks' !! lk = Some l' /\
         rtc SpinSteps.step s (SpinSteps.mk_st l' (<[i := SpinSteps.Critical]> (SpinSteps.pcs s)))
     | Spin _ ks' _ => exists l', locks ks' !! lk = Some l' /\
         SpinSteps.step s (SpinSteps.mk_st l' (SpinSteps.pcs s))
     | _ => False
     end) /\
  (forall lk ks ks' i, release lk ks = Ok tt ks' -> locks ks !! lk = Some (SpinSteps.lk s) ->
     cpu_id (this_cpu ks) = Z.of_nat i -> SpinSteps.pcs s !! i = Some SpinSteps.Critical ->
     exists l', locks ks' !! lk = Some l' /\
       rtc SpinSteps.step s (SpinSteps.mk_st l' (<[i := SpinSteps.Outside]> (SpinSteps.pcs s)))).
Proof.
  intros Hs. apply SpinSteps.inv_reachable in Hs as [H1 H2 H3 H4];
    [|apply SpinSteps.inv_init].
  assert (Hc : forall i, SpinSteps.pcs s !! i = Some SpinSteps.Critical ->
            SpinSteps.holder s i) by (intros i Hi; left; eauto).
  split_and!.
  - eauto.
  - intros i Hi. apply SpinSteps.hold_true. eauto.
  - intros i Hi. apply SpinSteps.hold_false. right. by eapply H4.
  - intros k lk ks i. destruct s as [l ps]. apply xchg_loop_steps.
  - intros lk ks ks' i. destruct s as [l ps]. apply release_steps.
Qed.

(** Two CPUs: the second spins while the first is inside. *)
Lemma spinlock_mutual_exclusion_witness :
  exists s, rtc SpinSteps.step (SpinSteps.init "kmem" 2) s /\
    SpinSteps.pcs s = [SpinSteps.Critical; SpinSteps.Spinning] /\
    SpinSteps.hold 0 (SpinSteps.lk s) = true.
Proof.
  assert (Hr : rtc SpinSteps.step (SpinSteps.init "kmem" 2)
    (SpinSteps.mk_st (mk_spinlock 1 "kmem" (Some 0))
       [SpinSteps.Critical; SpinSteps.Spinning])).
  { eapply rtc_l; [by apply (SpinSteps.step_enter 1)|].
    eapply rtc_l; [by apply (SpinSteps.step_enter 0)|].
    eapply rtc_l; [by apply (SpinSteps.step_won 0)|].
    eapply rtc_l; [by apply (SpinSteps.step_note 0)|].
    apply rtc_refl. }
  eexists. split; [exact Hr|]. split; [reflexivity|].
  exact (proj1 (proj2 (spinlock_mutual_exclusion _ _ _ Hr)) 0%nat eq_refl).
Defined.
