(* ===== verification/Kalloc.v ===== *)
(** * kalloc.c

    The physical page allocator: a free list threaded through the free pages
    themselves.  [kmem_ok s fl] says that the list in memory is [fl]; the
    operations are push and pop on [fl] and leave every other page alone. *)

From S2P Require Import Prelude Memory CString Machine Spinlock.
Local Open Scope Z_scope.
Local Open Scope kernel_scope.

(** ** The code *)

Definition kmem_acquire : K unit :=
  u <- gets use_lock ;; when (negb (u =? 0)) do acquire kmem_lock.

Definition kmem_release : K unit :=
  u <- gets use_lock ;; when (negb (u =? 0)) do release kmem_lock.

Definition kfree (v : Z) : K unit :=
  e <- gets kend ;;
  if negb (v mod PGSIZE =? 0) || (v <? e) || (PHYSTOP <=? V2P v) then panic "kfree"
  else
    kmem_op [(v, PGSIZE)] (fun m => memset m v 1 PGSIZE) ;;
    kmem_acquire ;;
    fl <- gets freelist ;;
    kstore 8 v fl ;;
    modify (set_freelist v) ;;
    kmem_release.

Definition kalloc : K Z :=
  kmem_acquire ;;
  r <- gets freelist ;;
  when (negb (r =? 0)) do (n <- kload 8 r ;; modify (set_freelist n)) ;;
  kmem_release ;;
  ret r.

(** [for (; p + PGSIZE <= vend; p += PGSIZE) kfree(p);] *)
Fixpoint freerange_loop (fuel : nat) (p vend : Z) : K unit :=
  if p + PGSIZE <=? vend then
    match fuel with
    | O => out_of_fuel
    | S k => kfree p ;; freerange_loop k (p + PGSIZE) vend
    end
  else ret tt.

(** The fuel is the number of pages the range can hold. *)
Definition freerange (vstart vend : Z) : K unit :=
  let p := PGROUNDUP vstart in
  freerange_loop (Z.to_nat ((vend - p) / PGSIZE)) p vend.

Definition kinit1 (vstart vend : Z) : K unit :=
  initlock kmem_lock "kmem" ;;
  modify (set_use_lock 0) ;;
  modify (set_freelist 0) ;;
  freerange vstart vend.

Definition kinit2 : K unit := modify (set_use_lock 1).

(** ** The free list in memory *)

(** The pages on the list that starts at [head]. *)
Fixpoint chain (m : memory) (head : Z) (fl : list Z) : Prop :=
  match fl with
  | [] => head = 0
  | p :: fl => head = p /\ chain m (loadZ 8 m p) fl
  end.

Definition kmem_ok (s : kstate) (fl : list Z) : Prop :=
  chain (mem s) (freelist s) fl /\ NoDup fl /\ Forall (kpage (kend s)) fl.

(** The allocator's lock can be taken: once it is in use it is free. *)
Definition kmem_ready (s : kstate) : Prop :=
  cpu_wf (this_cpu s) /\ (use_lock s <> 0 -> lock_free kmem_lock s).

(** The interrupt state after the lock was taken and released. *)
Definition kmem_cpu (s : kstate) : cpu :=
  if use_lock s =? 0 then this_cpu s else cpu_norm (this_cpu s).
Definition kmem_norm (s : kstate) : kstate := set_cpu (kmem_cpu s) s.

Lemma kmem_cpu_wf s : cpu_wf (this_cpu s) -> cpu_wf (kmem_cpu s).
Proof. unfold kmem_cpu. by destruct (use_lock s =? 0). Qed.

Lemma kmem_cpu_norm s : cpu_norm (kmem_cpu s) = cpu_norm (this_cpu s).
Proof. unfold kmem_cpu. destruct (use_lock s =? 0); [done|]. apply cpu_norm_idem. Qed.

Lemma kmem_norm_ready s : kmem_ready s -> kmem_ready (kmem_norm s).
Proof. intros [? ?]. split; [by apply kmem_cpu_wf|done]. Qed.

Lemma chain_ext m m' head fl :
  (forall p, p ∈ fl -> loadZ 8 m' p = loadZ 8 m p) -> chain m head fl -> chain m' head fl.
Proof.
  revert head. induction fl as [|p fl IH]; intros head H; simpl; [done|].
  intros [-> Hc]. split; [done|]. rewrite H by set_solver. apply IH; set_solver.
Qed.

(** Stores into a page that is not free keep the list. *)
Lemma kmem_ok_mem s m fl :
  (forall p, p ∈ fl -> loadZ 8 m p = loadZ 8 (mem s) p) ->
  kmem_ok s fl -> kmem_ok (set_mem m s) fl.
Proof. intros H (Hc & ? & ?). split_and!; simpl; eauto using chain_ext. Qed.

(** ** Equations of the operations *)

Definition kmem_locked (s : kstate) : kstate :=
  if use_lock s =? 0 then s else locked_state kmem_lock s.

Lemma kmem_acquire_eq s : kmem_ready s -> kmem_acquire s = Ok tt (kmem_locked s).
Proof.
  intros [_ Hl]. unfold kmem_acquire, kmem_locked. rewrite bind_gets.
  destruct (Z.eqb_spec (use_lock s) 0); [done|]. apply acquire_free. auto.
Qed.

Lemma kmem_release_eq s s' :
  kmem_ready s -> use_lock s' = use_lock s ->
  locks s' = locks (kmem_locked s) -> this_cpu s' = this_cpu (kmem_locked s) ->
  kmem_release s' = Ok tt
    (if use_lock s =? 0 then s'
     else set_cpu (cpu_norm (this_cpu s)) (set_locks (locks s) s')).
Proof.
  intros [Hc Hl] Hu. unfold kmem_release, kmem_locked. rewrite bind_gets, Hu.
  destruct (Z.eqb_spec (use_lock s) 0); [done|]. intros Hk Hp.
  apply release_held; auto.
Qed.

(** The fields of the state that the lock does not touch. *)
Lemma kmem_locked_fields s :
  mem (kmem_locked s) = mem s /\ freelist (kmem_locked s) = freelist s /\
  use_lock (kmem_locked s) = use_lock s /\ kend (kmem_locked s) = kend s.
Proof. unfold kmem_locked. by destruct (use_lock s =? 0). Qed.

Lemma kalloc_eq s :
  kmem_ready s ->
  (freelist s <> 0 -> kmapped (freelist s) 8 = true) ->
  kalloc s = Ok (freelist s)
    (if freelist s =? 0 then kmem_norm s
     else set_freelist (loadZ 8 (mem s) (freelist s)) (kmem_norm s)).
Proof.
  intros Hr Hm. destruct (kmem_locked_fields s) as (Em & Ef & Eu & _).
  unfold kalloc. rewrite (bind_ok _ _ _ _ _ (kmem_acquire_eq s Hr)), bind_gets, Ef.
  destruct (Z.eqb_spec (freelist s) 0) as [Hf|Hf]; simpl.
  - rewrite bind_ret, (bind_ok _ _ _ _ _ (kmem_release_eq s (kmem_locked s) Hr Eu eq_refl eq_refl)).
    unfold ret, kmem_norm, kmem_cpu, kmem_locked. destruct (use_lock s =? 0); by destruct s.
  - rewrite bind_assoc, (bind_ok _ _ _ _ _ (kload_ok 8 _ _ (Hm Hf))), bind_modify.
    rewrite (bind_ok _ _ _ _ _ (kmem_release_eq s
      (set_freelist (loadZ 8 (mem (kmem_locked s)) (freelist s)) (kmem_locked s))
      Hr Eu eq_refl eq_refl)).
    unfold ret, kmem_norm, kmem_cpu, kmem_locked. destruct (use_lock s =? 0); by destruct s.
Qed.

(** The memory that [kfree] leaves: the page filled with 1, then the link. *)
Definition kfree_mem (s : kstate) (v : Z) : memory :=
  storeZ 8 (memset (mem s) v 1 PGSIZE) v (freelist s).

Lemma kfree_check s v :
  kpage (kend s) v ->
  negb (v mod PGSIZE =? 0) || (v <? kend s) || (PHYSTOP <=? V2P v) = false.
Proof.
  unfold kpage, V2P. intros (? & ? & ?). rewrite u64_small by (unfold KERNBASE, PHYSTOP in *; lia).
  rewrite !orb_false_iff, negb_false_iff. split_and!; lia.
Qed.

Lemma kfree_eq s v :
  kmem_ready s -> kpage (kend s) v ->
  kfree v s = Ok tt (set_freelist v (set_mem (kfree_mem s v) (kmem_norm s))).
Proof.
  intros Hr Hv. unfold kfree. rewrite bind_gets, kfree_check by done.
  set (s1 := set_mem (memset (mem s) v 1 PGSIZE) s).
  assert (kmapped v PGSIZE = true) as Hm.
  { rewrite <- (Z.add_0_r v). apply (kmapped_in_page (kend s)); unfold PGSIZE; try lia; done. }
  rewrite (bind_ok _ _ s tt s1) by (unfold kmem_op; simpl; by rewrite Hm).
  assert (Hr1 : kmem_ready s1) by done.
  destruct (kmem_locked_fields s1) as (Em & Ef & Eu & _).
  rewrite (bind_ok _ _ _ _ _ (kmem_acquire_eq s1 Hr1)), bind_gets, Ef.
  rewrite (bind_ok _ _ _ _ _ (kstore_ok 8 v _ _ ltac:(
    rewrite <- (Z.add_0_r v); apply (kmapped_in_page (kend s)); unfold PGSIZE; done || lia))).
  rewrite bind_modify, (kmem_release_eq s1) by done.
  rewrite Em. unfold kmem_norm, kmem_cpu, kmem_locked, kfree_mem.
  change (use_lock s1) with (use_lock s). destruct (use_lock s =? 0); by destruct s.
Qed.

(** A bad pointer stops the machine. *)
Lemma kfree_bad s v : ~ kpage (kend s) v -> KERNBASE <= v < 2 ^ 64 -> kfree v s = Panic "kfree".
Proof.
  intros Hv Hr. unfold kfree. rewrite bind_gets.
  destruct (negb (v mod PGSIZE =? 0) || (v <? kend s) || (PHYSTOP <=? V2P v)) eqn:E; [done|].
  destruct Hv. rewrite !orb_false_iff, negb_false_iff in E. unfold V2P in E.
  rewrite u64_small in E by (unfold KERNBASE in *; lia).
  unfold kpage. lia.
Qed.

Lemma kfree_mem_other s v a n :
  a + Z.of_nat n <= v \/ v + PGSIZE <= a ->
  load_bytes (kfree_mem s v) a n = load_bytes (mem s) a n.
Proof.
  intros H. unfold kfree_mem. rewrite load_bytes_storeZ_disjoint by (unfold PGSIZE in *; lia).
  rewrite memset_block by (unfold PGSIZE; lia). apply load_store_disjoint.
  rewrite length_replicate. unfold PGSIZE in *. lia.
Qed.

(** ** Push and pop *)

Lemma kmem_ok_head s p fl : kmem_ok s (p :: fl) -> freelist s = p /\ kpage (kend s) p.
Proof. intros ([? ?] & _ & [? ?]%Forall_cons). done. Qed.

Lemma kalloc_pop s p fl :
  kmem_ready s -> kmem_ok s (p :: fl) ->
  kalloc s = Ok p (set_freelist (loadZ 8 (mem s) p) (kmem_norm s)) /\
  kmem_ok (set_freelist (loadZ 8 (mem s) p) (kmem_norm s)) fl.
Proof.
  intros Hr Hk. destruct (kmem_ok_head _ _ _ Hk) as [Hf Hp].
  pose proof (kpage_nonzero _ _ Hp). split.
  - rewrite kalloc_eq; [|done|].
    + rewrite Hf. destruct (Z.eqb_spec p 0); done.
    + intros _. rewrite Hf, <- (Z.add_0_r p).
      apply (kmapped_in_page (kend s)); done || (unfold PGSIZE; lia).
  - destruct Hk as ([_ Hc] & [_ ?]%NoDup_cons & [_ ?]%Forall_cons).
    done.
Qed.

Lemma kalloc_empty s : kmem_ready s -> kmem_ok s [] -> kalloc s = Ok 0 (kmem_norm s).
Proof.
  intros Hr (Hf & _ & _). simpl in Hf. rewrite kalloc_eq; [|done|].
  - by rewrite Hf.
  - by rewrite Hf.
Qed.

Lemma kfree_push s v fl :
  kmem_ready s -> kmem_ok s fl -> kpage (kend s) v -> v ∉ fl ->
  kmem_ok (set_freelist v (set_mem (kfree_mem s v) (kmem_norm s))) (v :: fl).
Proof.
  intros Hr (Hc & Hn & Hf) Hv Hin.
  assert (kmem_ok (set_freelist v (set_mem (kfree_mem s v) s)) (v :: fl)) as Hk.
  { split_and!; simpl; [split; [done|]|by apply NoDup_cons|by apply Forall_cons].
    unfold kfree_mem. rewrite loadZ_store_same.
    assert (freelist s mod 2 ^ (8 * Z.of_nat 8) = freelist s) as ->.
    { apply Z.mod_small. destruct fl as [|q fl]; simpl in Hc; [lia|].
      destruct Hc as [-> _]. apply (kpage_word (kend s)). by apply Forall_cons in Hf as [? _]. }
    eapply chain_ext; [|exact Hc]. intros p Hp. fold (kfree_mem s v).
    rewrite Forall_forall in Hf.
    unfold loadZ. rewrite kfree_mem_other; [done|].
    destruct (kpage_disjoint _ _ _ (Hf p Hp) Hv) as [?|?]; [by intros ->| |];
      unfold PGSIZE in *; lia. }
  exact Hk.
Qed.

(** [kalloc] pops the free list. *)
Lemma kalloc_refines_pop s fl :
  kmem_ready s -> kmem_ok s fl ->
  match fl with
  | [] => kalloc s = Ok 0 (kmem_norm s) /\ kmem_ok (kmem_norm s) []
  | p :: fl' => exists s', kalloc s = Ok p s' /\ kmem_ok s' fl' /\ kmem_ready s' /\
      kpage (kend s) p /\ p ∉ fl' /\ mem s' = mem s /\ locks s' = locks s
  end.
Proof.
  intros Hr Hk. destruct fl as [|p fl].
  - split; [by apply kalloc_empty|]. destruct Hk as (? & ? & ?).
    done.
  - destruct (kalloc_pop s p fl Hr Hk) as [He Ho]. eexists.
    split_and!; [exact He|exact Ho|..].
    + destruct (kmem_norm_ready s Hr) as [? ?]. done.
    + by apply kmem_ok_head in Hk as [_ ?].
    + by destruct Hk as (_ & [? _]%NoDup_cons & _).
    + done.
    + done.
Qed.

(** [kfree] pushes on it, or stops the machine. *)
Lemma kfree_refines_push s fl v :
  kmem_ready s -> kmem_ok s fl -> v ∉ fl -> KERNBASE <= v < 2 ^ 64 ->
  (kpage (kend s) v /\ exists s', kfree v s = Ok tt s' /\ kmem_ok s' (v :: fl) /\
     kmem_ready s' /\ locks s' = locks s /\
     forall a n, a + Z.of_nat n <= v \/ v + PGSIZE <= a ->
       load_bytes (mem s') a n = load_bytes (mem s) a n) \/
  (~ kpage (kend s) v /\ kfree v s = Panic "kfree").
Proof.
  intros Hr Hk Hin Hrange.
  destruct (decide (v mod PGSIZE = 0 /\ kend s <= v /\ v < KERNBASE + PHYSTOP)) as [Hv|Hv].
  - assert (Hp : kpage (kend s) v) by (unfold kpage; lia).
    left. split; [done|]. eexists. split_and!;
      [by apply kfree_eq|by apply kfree_push|by destruct (kmem_norm_ready s Hr)|..].
    + done.
    + intros a n Ha. by apply kfree_mem_other.
  - right. assert (Hp : ~ kpage (kend s) v) by (unfold kpage; lia).
    split; [done|by apply kfree_bad].
Qed.

(** C8: the page allocator is a stack of pages.  [kalloc] returns the first free
    page, which is a page of the managed range and no longer free, and changes
    no memory; with no free page it returns 0.  [kfree] of a page of the range
    that is not free makes it the first free page, keeps the others in order
    and changes no byte outside the page; any other kernel address stops the
    machine. *)
Theorem kmem_refines_stack s fl : kmem_ready s -> kmem_ok s fl ->
  match fl with
  | [] => kalloc s = Ok 0 (kmem_norm s) /\ kmem_ok (kmem_norm s) []
  | p :: fl' => exists s', kalloc s = Ok p s' /\ kmem_ok s' fl' /\ kmem_ready s' /\
      kpage (kend s) p /\ p ∉ fl' /\ mem s' = mem s /\ locks s' = locks s
  end /\
  forall v, v ∉ fl -> KERNBASE <= v < 2 ^ 64 ->
  (kpage (kend s) v /\ exists s', kfree v s = Ok tt s' /\ kmem_ok s' (v :: fl) /\
     kmem_ready s' /\ locks s' = locks s /\
     forall a n, a + Z.of_nat n <= v \/ v + PGSIZE <= a ->
       load_bytes (mem s') a n = load_bytes (mem s) a n) \/
  (~ kpage (kend s) v /\ kfree v s = Panic "kfree").
Proof. intros Hr Hk. split; [by apply kalloc_refines_pop|]. intros v. by apply kfree_refines_push. Qed.

(** A state with one free page, used by the examples. *)
Definition one_page : kstate :=
  set_freelist (KERNBASE + 0x200000) (entry_state (KERNBASE + 0x1ff123) []).

Lemma one_page_ok : kmem_ready one_page /\ kmem_ok one_page [KERNBASE + 0x200000].
Proof.
  split; [split; [split; simpl; lia|done]|].
  split_and!; [by vm_compute|apply NoDup_singleton|].
  constructor; [|constructor]. by vm_compute.
Qed.

Lemma kmem_refines_stack_witness :
  (exists s', kalloc one_page = Ok (KERNBASE + 0x200000) s' /\ kmem_ok s' []) /\
  exists s', kfree (KERNBASE + 0x201000) one_page = Ok tt s' /\
    kmem_ok s' [KERNBASE + 0x201000; KERNBASE + 0x200000].
Proof.
  destruct one_page_ok as [Hr Hk].
  destruct (kmem_refines_stack one_page [KERNBASE + 0x200000] Hr Hk) as [(s' & H & Ho & _) Hfree].
  split; [eauto|]. destruct (Hfree (KERNBASE + 0x201000)) as [(_ & s2 & H2 & Ho2 & _)|[Hn _]].
  - intros E%list_elem_of_singleton. unfold KERNBASE in E. lia.
  - unfold KERNBASE. lia.
  - eauto.
  - exfalso. apply Hn. by vm_compute.
Defined.

(** ** Initialisation *)

(** [n] consecutive pages from [p] on. *)
Definition pages (p : Z) (n : nat) : list Z := map (fun i => p + PGSIZE * Z.of_nat i) (seq 0 n).

Lemma pages_S p n : pages p (S n) = p :: pages (p + PGSIZE) n.
Proof.
  unfold pages. simpl. f_equal; [unfold PGSIZE; lia|].
  rewrite <- seq_shift, map_map. apply map_ext. intros. unfold PGSIZE. lia.
Qed.

Lemma freerange_loop_spec n p vend s fl :
  kmem_ready s -> kmem_ok s fl -> p mod PGSIZE = 0 ->
  kend s <= p -> KERNBASE <= p -> vend <= KERNBASE + PHYSTOP ->
  n = Z.to_nat ((vend - p) / PGSIZE) -> Forall (fun q => q < p) fl ->
  exists s', freerange_loop n p vend s = Ok tt s' /\
    kmem_ok s' (rev (pages p n) ++ fl) /\ kmem_ready s'.
Proof.
  revert p s fl. induction n as [|n IH]; intros p s fl Hr Hk Hp He Hb Hv Hn Hlt.
  - exists s. split_and!; [|done|done]. unfold freerange_loop.
    destruct (Z.leb_spec (p + PGSIZE) vend); [|done]. unfold PGSIZE in *. lia_mod.
  - simpl freerange_loop. destruct (Z.leb_spec (p + PGSIZE) vend) as [Hle|Hle];
      [|unfold PGSIZE in *; lia_mod].
    assert (Hpg : kpage (kend s) p) by (unfold kpage, PGSIZE in *; lia).
    rewrite (bind_ok _ _ _ _ _ (kfree_eq s p Hr Hpg)).
    set (s1 := set_freelist p (set_mem (kfree_mem s p) (kmem_norm s))).
    assert (Hend : kend s1 = kend s) by done.
    destruct (IH (p + PGSIZE) s1 (p :: fl)) as (s' & Hl & Hk' & Hr').
    + by destruct (kmem_norm_ready s Hr).
    + apply kfree_push; try done. intros Hin. rewrite Forall_forall in Hlt.
      specialize (Hlt p Hin). lia.
    + unfold PGSIZE in *. lia_mod.
    + rewrite Hend. unfold PGSIZE. lia.
    + unfold PGSIZE. lia.
    + done.
    + unfold PGSIZE in *. lia_mod.
    + constructor; [unfold PGSIZE; lia|]. eapply Forall_impl; [exact Hlt|].
      simpl. unfold PGSIZE. lia.
    + exists s'. split_and!; [done| |done]. rewrite pages_S. simpl.
      by rewrite <- app_assoc.
Qed.

(** [kinit1] terminates and frees exactly the whole pages of its range:
    afterwards the free list holds each page between [PGROUNDUP(vstart)] and
    [vend] once, the last one first, and the allocator is ready. *)
Theorem kinit1_frees_range s vstart vend :
  cpu_wf (this_cpu s) -> kend s <= vstart -> KERNBASE <= vstart ->
  vstart <= vend -> vend <= KERNBASE + PHYSTOP ->
  exists s', kinit1 vstart vend s = Ok tt s' /\ kmem_ready s' /\
    kmem_ok s' (rev (pages (PGROUNDUP vstart)
                       (Z.to_nat ((vend - PGROUNDUP vstart) / PGSIZE)))).
Proof.
  intros Hc He Hb Hle Hv. unfold kinit1, initlock. rewrite !bind_modify.
  destruct (PGROUNDUP_spec vstart) as [Ha Hr];
    [unfold KERNBASE in *; lia|unfold KERNBASE, PHYSTOP, PGSIZE in *; lia|].
  set (p := PGROUNDUP vstart) in *.
  match goal with |- exists s', freerange _ _ ?s0 = _ /\ _ => set (s1 := s0) end.
  destruct (freerange_loop_spec (Z.to_nat ((vend - p) / PGSIZE)) p vend s1 [])
    as (s' & Hl & Hk & Hs'); [..|exists s'; split_and!; [exact Hl|exact Hs'|]].
  - split; simpl; [done|]. by intros [].
  - split_and!; simpl; [done|constructor|constructor].
  - done.
  - simpl. lia.
  - lia.
  - done.
  - done.
  - constructor.
  - by rewrite app_nil_r in Hk.
Qed.

Lemma kinit1_frees_range_witness :
  exists s', kinit1 (KERNBASE + 0x200000) (KERNBASE + 0x204000)
               (entry_state (KERNBASE + 0x1ff123) []) = Ok tt s' /\
    kmem_ok s' (map (Z.add KERNBASE) [0x203000; 0x202000; 0x201000; 0x200000]).
Proof.
  destruct (kinit1_frees_range (entry_state (KERNBASE + 0x1ff123) [])
    (KERNBASE + 0x200000) (KERNBASE + 0x204000)) as (s' & H & _ & Hk);
    [split; simpl; [lia|lia]|simpl; lia|lia|lia|unfold PHYSTOP; lia|].
  exists s'. split; [exact H|]. exact Hk.
Defined.

