(* ===== verification/Proc.v ===== *)
(** * proc.c: the process table

    Allocation of a slot, sleeping and waking, yielding the CPU and killing.
    A process that enters the scheduler is the outcome [Swtch]; its
    continuation is what the process does when the scheduler runs it again.
    [fork], [exit] and [wait], which call the memory and file layers, are in
    Process.v. *)

From S2P Require Import Prelude Memory CString Machine Spinlock Kalloc.
Local Open Scope Z_scope.
Local Open Scope kernel_scope.

(** ** Access to the table *)

Definition set_sz (v : Z) (p : proc) : proc :=
  mk_proc v (pgdir p) (kstack p) (state p) (pid p) (parent p) (tf p) (context p)
    (chan p) (killed p) (ofile p) (cwd p) (pname p).
Definition set_pgdir (v : Z) (p : proc) : proc :=
  mk_proc (sz p) v (kstack p) (state p) (pid p) (parent p) (tf p) (context p)
    (chan p) (killed p) (ofile p) (cwd p) (pname p).
Definition set_kstack (v : Z) (p : proc) : proc :=
  mk_proc (sz p) (pgdir p) v (state p) (pid p) (parent p) (tf p) (context p)
    (chan p) (killed p) (ofile p) (cwd p) (pname p).
Definition set_state (v : procstate) (p : proc) : proc :=
  mk_proc (sz p) (pgdir p) (kstack p) v (pid p) (parent p) (tf p) (context p)
    (chan p) (killed p) (ofile p) (cwd p) (pname p).
Definition set_pid (v : Z) (p : proc) : proc :=
  mk_proc (sz p) (pgdir p) (kstack p) (state p) v (parent p) (tf p) (context p)
    (chan p) (killed p) (ofile p) (cwd p) (pname p).
Definition set_parent (v : option nat) (p : proc) : proc :=
  mk_proc (sz p) (pgdir p) (kstack p) (state p) (pid p) v (tf p) (context p)
    (chan p) (killed p) (ofile p) (cwd p) (pname p).
Definition set_tf (v : Z) (p : proc) : proc :=
  mk_proc (sz p) (pgdir p) (kstack p) (state p) (pid p) (parent p) v (context p)
    (chan p) (killed p) (ofile p) (cwd p) (pname p).
Definition set_context (v : Z) (p : proc) : proc :=
  mk_proc (sz p) (pgdir p) (kstack p) (state p) (pid p) (parent p) (tf p) v
    (chan p) (killed p) (ofile p) (cwd p) (pname p).
Definition set_chan (v : Z) (p : proc) : proc :=
  mk_proc (sz p) (pgdir p) (kstack p) (state p) (pid p) (parent p) (tf p) (context p)
    v (killed p) (ofile p) (cwd p) (pname p).
Definition set_killed (v : Z) (p : proc) : proc :=
  mk_proc (sz p) (pgdir p) (kstack p) (state p) (pid p) (parent p) (tf p) (context p)
    (chan p) v (ofile p) (cwd p) (pname p).

(** Change the process at index [i] of the table. *)
Definition upd_proc (i : nat) (f : proc -> proc) : K unit :=
  modify (fun s => set_procs (alter f i (procs s)) s).

(** The current process; a null [proc] pointer faults. *)
Definition myproc : K nat := fun s =>
  match cur s with Some i => Ok i s | None => Fault end.

Definition get_proc (i : nat) : K proc := fun s =>
  match procs s !! i with Some p => Ok p s | None => Fault end.

(** The index of the first process with a property, in table order. *)
Fixpoint find_proc (f : proc -> bool) (ps : list proc) (i : nat) : option nat :=
  match ps with
  | [] => None
  | p :: ps => if f p then Some i else find_proc f ps (S i)
  end.

(** ** Waking and killing *)

Definition wakeup1_proc (c : Z) (p : proc) : proc :=
  if bool_decide (state p = SLEEPING) && (chan p =? c) then set_state RUNNABLE p else p.

Definition wakeup1 (c : Z) : K unit :=
  modify (fun s => set_procs (map (wakeup1_proc c) (procs s)) s).

Definition wakeup (c : Z) : K unit :=
  acquire ptable_lock ;; wakeup1 c ;; release ptable_lock.

Definition kill_proc (p : proc) : proc :=
  let p := set_killed 1 p in
  if bool_decide (state p = SLEEPING) then set_state RUNNABLE p else p.

Definition kill (pd : Z) : K Z :=
  acquire ptable_lock ;;
  ps <- gets procs ;;
  match find_proc (fun p => pid p =? pd) ps 0 with
  | Some i => upd_proc i kill_proc ;; release ptable_lock ;; ret 0
  | None => release ptable_lock ;; ret (-1)
  end.

(** ** Entering the scheduler *)

(** [swtch(&proc->context, cpu->scheduler)] with the saved [intena]. *)
Definition sched : K unit :=
  h <- holding ptable_lock ;;
  if negb h then panic "sched ptable.lock" else
  c <- gets this_cpu ;;
  if negb (ncli c =? 1) then panic "sched locks" else
  i <- myproc ;;
  p <- get_proc i ;;
  if bool_decide (state p = RUNNING) then panic "sched running" else
  if eflags_IF c then panic "sched interruptible" else
  (fun s => Swtch s (fun s' => Ok tt s')) ;;
  modify (fun s => let c' := this_cpu s in
    set_cpu (mk_cpu (cpu_id c') (ncli c') (intena c) (eflags_IF c') (cr3 c')) s).

Definition yield : K unit :=
  acquire ptable_lock ;;
  i <- myproc ;;
  upd_proc i (set_state RUNNABLE) ;;
  sched ;;
  release ptable_lock.

Definition sleep (c lk : Z) : K unit :=
  pr <- gets cur ;;
  match pr with
  | None => panic "sleep"
  | Some i =>
      if lk =? 0 then panic "sleep without lk" else
      when (negb (lk =? ptable_lock)) do (acquire ptable_lock ;; release lk) ;;
      upd_proc i (fun p => set_state SLEEPING (set_chan c p)) ;;
      sched ;;
      i <- myproc ;;
      upd_proc i (set_chan 0) ;;
      when (negb (lk =? ptable_lock)) do (release ptable_lock ;; acquire lk)
  end.

(** ** Allocation of a process *)

(** The entry points that a new context is aimed at: addresses of code. *)
Definition allocproc (syscall_trapret forkret : Z) : K (option nat) :=
  acquire ptable_lock ;;
  ps <- gets procs ;;
  match find_proc (fun p => bool_decide (state p = UNUSED)) ps 0 with
  | None => release ptable_lock ;; ret None
  | Some i =>
      upd_proc i (set_state EMBRYO) ;;
      n <- gets nextpid ;;
      upd_proc i (set_pid n) ;;
      modify (set_nextpid (s32 (n + 1))) ;;
      release ptable_lock ;;
      ks <- kalloc ;;
      upd_proc i (set_kstack ks) ;;
      if ks =? 0 then upd_proc i (set_state UNUSED) ;; ret None
      else
        let sp := ks + KSTACKSIZE - sizeof_trapframe in
        upd_proc i (set_tf sp) ;;
        let sp := sp - 8 in
        kstore 8 sp syscall_trapret ;;
        let sp := sp - sizeof_context in
        upd_proc i (set_context sp) ;;
        kmem_op [(sp, sizeof_context)] (fun m => memset m sp 0 sizeof_context) ;;
        kstore 8 (sp + ctx_rip) forkret ;;
        ret (Some i)
  end.

(** ** Equations *)

Lemma get_proc_ok i pr s : procs s !! i = Some pr -> get_proc i s = Ok pr s.
Proof. unfold get_proc. by intros ->. Qed.

Lemma wakeup_eq c s :
  lock_free ptable_lock s -> cpu_wf (this_cpu s) ->
  wakeup c s = Ok tt (set_cpu (cpu_norm (this_cpu s))
                        (set_procs (map (wakeup1_proc c) (procs s)) s)).
Proof.
  intros Hl Hc. unfold wakeup. rewrite (bind_ok _ _ _ _ _ (acquire_free _ _ Hl)).
  unfold wakeup1. rewrite bind_modify, (release_held _ _ s) by done. by destruct s.
Qed.
