(* ===== verification/Vm.v ===== *)
(** * vm.c: page tables

    The four-level page tables of the x86-64 in kernel memory: walking and
    extending a table, mapping and unmapping user pages, and the copies
    between the kernel and user addresses. *)

From S2P Require Import Prelude Memory CString Machine Spinlock Kalloc Proc.
Local Open Scope Z_scope.
Local Open Scope kernel_scope.

(** ** mmu.h *)

Definition PXMASK : Z := 0x1FF.
Definition PMX (va : Z) : Z := Z.land (Z.shiftr va 39) PXMASK.
Definition PDPX (va : Z) : Z := Z.land (Z.shiftr va 30) PXMASK.
Definition PDX (va : Z) : Z := Z.land (Z.shiftr va 21) PXMASK.
Definition PTX (va : Z) : Z := Z.land (Z.shiftr va 12) PXMASK.
Definition NPDENTRIES : nat := 512.

Definition PTE_P : Z := 0x001.
Definition PTE_W : Z := 0x002.
Definition PTE_U : Z := 0x004.
Definition PTE_PWT : Z := 0x008.
Definition PTE_PCD : Z := 0x010.
Definition PTE_PS : Z := 0x080.

(** [~0xFFF] is an [int]; as an [addr_t] it is [PGMASK]. *)
Definition PTE_ADDR (pte : Z) : Z := Z.land pte PGMASK.
Definition PTE_FLAGS (pte : Z) : Z := Z.land pte 0xFFF.

Definition has (pte flag : Z) : bool := negb (Z.land pte flag =? 0).

(** ** Walking a page table *)

(** One level: the table that entry [e] points to, allocated when it is absent
    and [alloc] asks for it; [None] is the early [return 0]. *)
Definition walk_level (e : Z) (alloc : bool) : K (option Z) :=
  x <- kload 8 e ;;
  if has x PTE_P then ret (Some (P2V (PTE_ADDR x)))
  else if negb alloc then ret None
  else
    t <- kalloc ;;
    if t =? 0 then ret None
    else
      kmem_op [(t, PGSIZE)] (fun m => memset m t 0 PGSIZE) ;;
      kstore 8 e (Z.lor (Z.lor (Z.lor (V2P t) PTE_P) PTE_W) PTE_U) ;;
      ret (Some t).

Definition walkpgdir (pml4 va : Z) (alloc : bool) : K Z :=
  o <- walk_level (pml4 + 8 * PMX va) alloc ;;
  match o with None => ret 0 | Some pdp =>
  o <- walk_level (pdp + 8 * PDPX va) alloc ;;
  match o with None => ret 0 | Some pd =>
  o <- walk_level (pd + 8 * PDX va) alloc ;;
  match o with None => ret 0 | Some pgtab =>
  ret (pgtab + 8 * PTX va)
  end end end.

(** The loop of [mappages] from page [a] on. *)
Fixpoint mappages_loop (fuel : nat) (pgdir a last pa perm : Z) : K Z :=
  match fuel with
  | O => out_of_fuel
  | S k =>
      pte <- walkpgdir pgdir a true ;;
      if pte =? 0 then ret (-1)
      else
        x <- kload 8 pte ;;
        if has x PTE_P then panic "remap"
        else
          kstore 8 pte (Z.lor (Z.lor pa perm) PTE_P) ;;
          if a =? last then ret 0
          else mappages_loop k pgdir (u64 (a + PGSIZE)) last (u64 (pa + PGSIZE)) perm
  end.

(** The fuel is the number of pages from the first to the last. *)
Definition mappages (pgdir va size pa perm : Z) : K Z :=
  let a := PGROUNDDOWN va in
  let last := PGROUNDDOWN (u64 (va + size - 1)) in
  mappages_loop (S (Z.to_nat (u64 (last - a) / PGSIZE))) pgdir a last pa perm.

(** ** Kernel page tables *)

Definition setupkvm : K Z :=
  pml4 <- kalloc ;;
  kmem_op [(pml4, PGSIZE)] (fun m => memset m pml4 0 PGSIZE) ;;
  t <- gets kpdpt ;;
  kstore 8 (pml4 + 8 * 256) (Z.lor (Z.lor (V2P t) PTE_P) PTE_W) ;;
  ret pml4.

Definition lcr3 (a : Z) : K unit :=
  modify (fun s => let c := this_cpu s in
    set_cpu (mk_cpu (cpu_id c) (ncli c) (intena c) (eflags_IF c) a) s).

Definition switchkvm : K unit := t <- gets kpml4 ;; lcr3 (V2P t).

Definition kvmalloc : K unit :=
  t <- kalloc ;;
  modify (set_kpml4 t) ;;
  kmem_op [(t, PGSIZE)] (fun m => memset m t 0 PGSIZE) ;;
  d <- kalloc ;;
  modify (set_kpdpt d) ;;
  kmem_op [(d, PGSIZE)] (fun m => memset m d 0 PGSIZE) ;;
  kstore 8 (t + 8 * PMX KERNBASE) (Z.lor (Z.lor (V2P d) PTE_P) PTE_W) ;;
  kstore 8 d (Z.lor (Z.lor (Z.lor 0 PTE_PS) PTE_P) PTE_W) ;;
  kstore 8 (d + 8 * 3)
    (Z.lor (Z.lor (Z.lor (Z.lor (Z.lor 0xC0000000 PTE_PS) PTE_P) PTE_W) PTE_PWT) PTE_PCD) ;;
  switchkvm.

(** [switchuvm]: the stack for the next trap goes into the task state at
    offset 1024 of the CPU-local page [local], which [seginit] allocated. *)
Definition switchuvm (local : Z) (i : nat) : K unit :=
  pushcli ;;
  p <- get_proc i ;;
  if pgdir p =? 0 then panic "switchuvm: no pgdir" else
  let stktop := u64 (kstack p + KSTACKSIZE) in
  kstore 4 (local + 1024 + 4) (u32 stktop) ;;
  kstore 4 (local + 1024 + 8) (u32 (Z.shiftr stktop 32)) ;;
  lcr3 (V2P (pgdir p)) ;;
  popcli.

(** ** User memory *)

Definition inituvm (pgdir : Z) (init sz : Z) : K unit :=
  if PGSIZE <=? sz then panic "inituvm: more than a page" else
  t <- kalloc ;;
  kmem_op [(t, PGSIZE)] (fun m => memset m t 0 PGSIZE) ;;
  mappages pgdir PGSIZE PGSIZE (V2P t) (Z.lor PTE_W PTE_U) ;;
  kmem_op [(t, sz); (init, sz)] (fun m => memmove m t init (Z.to_nat sz)).

Fixpoint deallocuvm_loop (fuel : nat) (pgdir a oldsz : Z) : K unit :=
  if a <? oldsz then
    match fuel with
    | O => out_of_fuel
    | S k =>
        pte <- walkpgdir pgdir a false ;;
        when (negb (pte =? 0)) do (
          x <- kload 8 pte ;;
          when (has x PTE_P) do (
            let pa := PTE_ADDR x in
            if pa =? 0 then panic "kfree"
            else kfree (P2V pa) ;; kstore 8 pte 0)) ;;
        deallocuvm_loop k pgdir (u64 (a + PGSIZE)) oldsz
    end
  else ret tt.

Definition deallocuvm (pgdir oldsz newsz : Z) : K Z :=
  if oldsz <=? newsz then ret oldsz
  else
    let a := PGROUNDUP newsz in
    deallocuvm_loop (Z.to_nat ((oldsz - a + PGSIZE - 1) / PGSIZE)) pgdir a oldsz ;;
    ret newsz.

Fixpoint allocuvm_loop (fuel : nat) (pgdir a oldsz newsz : Z) : K Z :=
  if a <? newsz then
    match fuel with
    | O => out_of_fuel
    | S k =>
        t <- kalloc ;;
        if t =? 0 then deallocuvm pgdir newsz oldsz ;; ret 0
        else
          kmem_op [(t, PGSIZE)] (fun m => memset m t 0 PGSIZE) ;;
          r <- mappages pgdir a PGSIZE (V2P t) (Z.lor PTE_W PTE_U) ;;
          if r <? 0 then deallocuvm pgdir newsz oldsz ;; kfree t ;; ret 0
          else allocuvm_loop k pgdir (u64 (a + PGSIZE)) oldsz newsz
    end
  else ret newsz.

Definition allocuvm (pgdir oldsz newsz : Z) : K Z :=
  if KERNBASE <=? newsz then ret 0
  else if newsz <? oldsz then ret oldsz
  else
    let a := PGROUNDUP oldsz in
    allocuvm_loop (Z.to_nat ((newsz - a + PGSIZE - 1) / PGSIZE)) pgdir a oldsz newsz.

(** Apply [f] to the table or page of every present entry of the table [t]. *)
Definition for_present (t : Z) (n : nat) (f : Z -> K unit) : K unit :=
  for_each (seq 0 n) (fun i =>
    x <- kload 8 (t + 8 * Z.of_nat i) ;;
    when (has x PTE_P) do f (P2V (PTE_ADDR x))).

Definition freevm (pml4 : Z) : K unit :=
  if pml4 =? 0 then panic "freevm: no pgdir" else
  for_present pml4 (NPDENTRIES / 2) (fun pdp =>
    for_present pdp NPDENTRIES (fun pd =>
      for_present pd NPDENTRIES (fun pt =>
        for_present pt NPDENTRIES kfree ;; kfree pt) ;;
      kfree pd) ;;
    kfree pdp) ;;
  kfree pml4.

Definition clearpteu (pgdir uva : Z) : K unit :=
  pte <- walkpgdir pgdir uva false ;;
  if pte =? 0 then panic "clearpteu"
  else
    x <- kload 8 pte ;;
    kstore 8 pte (Z.land x (u64 (Z.lnot PTE_U))).

Fixpoint copyuvm_loop (fuel : nat) (pgdir d i sz : Z) : K Z :=
  if i <? sz then
    match fuel with
    | O => out_of_fuel
    | S k =>
        pte <- walkpgdir pgdir i false ;;
        if pte =? 0 then panic "copyuvm: pte should exist" else
        x <- kload 8 pte ;;
        if negb (has x PTE_P) then panic "copyuvm: page not present" else
        let pa := PTE_ADDR x in
        let flags := PTE_FLAGS x in
        t <- kalloc ;;
        if t =? 0 then freevm d ;; ret 0
        else
          kmem_op [(t, PGSIZE); (P2V pa, PGSIZE)]
            (fun m => memmove m t (P2V pa) (Z.to_nat PGSIZE)) ;;
          (* [flags] is an [addr_t] and [perm] an [int] *)
          r <- mappages d i PGSIZE (V2P t) flags ;;
          if r <? 0 then freevm d ;; ret 0
          else copyuvm_loop k pgdir d (u64 (i + PGSIZE)) sz
    end
  else ret d.

(** [sz] is a [uint]: the caller's [addr_t] is cut to 32 bits. *)
Definition copyuvm (pgdir sz : Z) : K Z :=
  let sz := u32 sz in
  d <- setupkvm ;;
  if d =? 0 then ret 0
  else copyuvm_loop (Z.to_nat (sz / PGSIZE)) pgdir d PGSIZE sz.

Definition uva2ka (pgdir uva : Z) : K Z :=
  pte <- walkpgdir pgdir uva false ;;
  if pte =? 0 then ret 0 else
  x <- kload 8 pte ;;
  if negb (has x PTE_P) then ret 0 else
  if negb (has x PTE_U) then ret 0 else
  let pa := PTE_ADDR x in
  if PHYSTOP <=? pa then ret 0 else
  ret (P2V pa).

(** Copy [len] bytes from kernel address [p] to user address [va]. *)
Fixpoint copyout_loop (fuel : nat) (pgdir va buf len : Z) : K Z :=
  if 0 <? len then
    match fuel with
    | O => out_of_fuel
    | S k =>
        let va0 := PGROUNDDOWN va in
        pa0 <- uva2ka pgdir va0 ;;
        if pa0 =? 0 then ret (-1)
        else
          let n := PGSIZE - (va - va0) in
          let n := if len <? n then len else n in
          kmem_op [(pa0 + (va - va0), n); (buf, n)]
            (fun m => memmove m (pa0 + (va - va0)) buf (Z.to_nat n)) ;;
          copyout_loop k pgdir (u64 (va0 + PGSIZE)) (buf + n) (len - n)
    end
  else ret 0.

(** The fuel is a bound on the pages that [len] bytes can touch. *)
Definition copyout (pgdir va p len : Z) : K Z :=
  copyout_loop (S (S (Z.to_nat (len / PGSIZE)))) pgdir va p len.

(** ** Translation of user addresses *)

(** The table or page that the present entry at [e] points to. *)
Definition entry_target (m : memory) (e : Z) : option Z :=
  if kmapped e 8 && has (loadZ 8 m e) PTE_P then Some (P2V (PTE_ADDR (loadZ 8 m e))) else None.

(** The address of the leaf entry for [va]. *)
Definition pte_at (m : memory) (pml4 va : Z) : option Z :=
  match entry_target m (pml4 + 8 * PMX va) with None => None | Some pdp =>
  match entry_target m (pdp + 8 * PDPX va) with None => None | Some pd =>
  match entry_target m (pd + 8 * PDX va) with None => None | Some pt =>
  Some (pt + 8 * PTX va)
  end end end.

(** The kernel address of the page that user code sees at [va]. *)
Definition uxlate (m : memory) (pml4 va : Z) : option Z :=
  match pte_at m pml4 va with None => None | Some pte =>
  let x := loadZ 8 m pte in
  if kmapped pte 8 && has x PTE_P && has x PTE_U && (PTE_ADDR x <? PHYSTOP)
  then Some (P2V (PTE_ADDR x)) else None
  end.

(** The kernel address of the byte that user code sees at [va]. *)
Definition uaddr (m : memory) (pml4 va : Z) : option Z :=
  match uxlate m pml4 va with None => None | Some k => Some (k + va mod PGSIZE) end.

Lemma walk_level_present m e a s t :
  mem s = m -> entry_target m e = Some t -> walk_level e a s = Ok (Some t) s.
Proof.
  intros <-. unfold entry_target, walk_level.
  destruct (kmapped e 8) eqn:Hk; simpl; [|done].
  destruct (has (loadZ 8 (mem s) e) PTE_P) eqn:Hp; [|done]. intros [= <-].
  rewrite (bind_ok _ _ _ _ _ (kload_ok 8 _ _ Hk)). by rewrite Hp.
Qed.

Lemma walkpgdir_present pml4 va a s pte :
  pte_at (mem s) pml4 va = Some pte -> walkpgdir pml4 va a s = Ok pte s.
Proof.
  unfold pte_at, walkpgdir.
  destruct (entry_target _ (pml4 + _)) as [pdp|] eqn:H1; [|done].
  destruct (entry_target _ (pdp + _)) as [pd|] eqn:H2; [|done].
  destruct (entry_target _ (pd + _)) as [pt|] eqn:H3; [|done].
  intros [= <-].
  rewrite (bind_ok _ _ _ _ _ (walk_level_present _ _ a _ _ eq_refl H1)).
  rewrite (bind_ok _ _ _ _ _ (walk_level_present _ _ a _ _ eq_refl H2)).
  by rewrite (bind_ok _ _ _ _ _ (walk_level_present _ _ a _ _ eq_refl H3)).
Qed.

Lemma kmapped_nonzero a n : kmapped a n = true -> (a =? 0) = false.
Proof. unfold kmapped, KERNBASE. intros [? _]%andb_true_iff. lia. Qed.

Lemma PTE_ADDR_spec x :
  0 <= x < 2 ^ 64 -> PTE_ADDR x mod PGSIZE = 0 /\ 0 <= PTE_ADDR x <= x.
Proof.
  intros Hx. unfold PTE_ADDR. rewrite land_PGMASK by done. split.
  - rewrite Z.mul_comm. by apply Z.mod_mul.
  - unfold PGSIZE. lia_mod.
Qed.

(** A translated page is a page of physical memory in the direct map. *)
Lemma uxlate_page m pml4 va k :
  uxlate m pml4 va = Some k -> k mod PGSIZE = 0 /\ KERNBASE <= k < KERNBASE + PHYSTOP.
Proof.
  unfold uxlate. destruct (pte_at m pml4 va) as [pte|]; [|done].
  destruct (kmapped pte 8 && _ && _) eqn:H; simpl; [|done].
  destruct (Z.ltb_spec (PTE_ADDR (loadZ 8 m pte)) PHYSTOP); [|done]. intros [= <-].
  destruct (PTE_ADDR_spec (loadZ 8 m pte)) as [? ?]; [apply loadZ_range|].
  unfold P2V. rewrite u64_small by (unfold KERNBASE, PHYSTOP in *; lia).
  split; [|lia]. unfold KERNBASE, PGSIZE in *. lia_mod.
Qed.

Lemma uva2ka_ok pml4 va s k :
  uxlate (mem s) pml4 va = Some k -> uva2ka pml4 va s = Ok k s.
Proof.
  unfold uxlate, uva2ka. destruct (pte_at (mem s) pml4 va) as [pte|] eqn:Hp; [|done].
  destruct (kmapped pte 8) eqn:Hk; simpl; [|done].
  destruct (has _ PTE_P) eqn:H1; simpl; [|done].
  destruct (has _ PTE_U) eqn:H2; simpl; [|done].
  destruct (Z.ltb_spec (PTE_ADDR (loadZ 8 (mem s) pte)) PHYSTOP); [|done]. intros [= <-].
  rewrite (bind_ok _ _ _ _ _ (walkpgdir_present _ _ false _ _ Hp)), (kmapped_nonzero _ _ Hk).
  rewrite (bind_ok _ _ _ _ _ (kload_ok 8 _ _ Hk)), H1, H2. simpl.
  destruct (Z.leb_spec PHYSTOP (PTE_ADDR (loadZ 8 (mem s) pte))); [lia|done].
Qed.

Lemma shiftr_page va n : 12 <= n -> Z.shiftr (PGSIZE * (va / PGSIZE)) n = Z.shiftr va n.
Proof.
  intros. rewrite !Z.shiftr_div_pow2 by lia.
  replace (2 ^ n) with (PGSIZE * 2 ^ (n - 12))
    by (change PGSIZE with (2 ^ 12); rewrite <- Z.pow_add_r by lia; f_equal; lia).
  rewrite <- !Z.div_div by (try apply Z.pow_pos_nonneg; unfold PGSIZE; lia).
  f_equal. rewrite Z.mul_comm. by apply Z.div_mul.
Qed.

(** Translation looks only at the page of an address. *)
Lemma uxlate_page_base m pml4 va : uxlate m pml4 (PGSIZE * (va / PGSIZE)) = uxlate m pml4 va.
Proof. unfold uxlate, pte_at, PMX, PDPX, PDX, PTX. by rewrite !shiftr_page by lia. Qed.

(** ** Windows of user memory

    [user_window m pml4 va n T]: the [n] user bytes from [va] on are mapped,
    the [i]-th of them at kernel address [T i], no two at the same address, and
    the translation does not run through these bytes themselves: it is the same
    in every memory that differs from [m] only inside the window. *)

Definition outside (T : Z -> Z) (n : Z) (x : Z) : Prop := forall i, 0 <= i < n -> x <> T i.

Record user_window (m : memory) (pml4 va n : Z) (T : Z -> Z) : Prop := {
  uw_range : 0 <= va /\ va + n <= 2 ^ 64;
  uw_inj : forall i j, 0 <= i < n -> 0 <= j < n -> T i = T j -> i = j;
  uw_xlate : forall m', (forall x, outside T n x -> m' x = m x) ->
    forall i, 0 <= i < n -> uaddr m' pml4 (va + i) = Some (T i);
}.

Lemma uaddr_page m pml4 va a :
  uaddr m pml4 va = Some a ->
  exists k, uxlate m pml4 (PGSIZE * (va / PGSIZE)) = Some k /\ a = k + va mod PGSIZE.
Proof.
  unfold uaddr. rewrite uxlate_page_base. destruct (uxlate m pml4 va) as [k|]; [|done].
  intros [= <-]. eauto.
Qed.

(** Inside one page the window is contiguous. *)
Lemma user_window_chunk m m' pml4 va n T i :
  user_window m pml4 va n T -> (forall x, outside T n x -> m' x = m x) -> 0 <= i < n ->
  exists k, uxlate m' pml4 (PGSIZE * ((va + i) / PGSIZE)) = Some k /\
    k mod PGSIZE = 0 /\ KERNBASE <= k < KERNBASE + PHYSTOP /\
    forall j, 0 <= j -> i + j < n -> j < PGSIZE - (va + i) mod PGSIZE ->
      T (i + j) = k + (va + i) mod PGSIZE + j.
Proof.
  intros Hw Hm Hi. pose proof (uw_xlate _ _ _ _ _ Hw m' Hm) as Hx.
  destruct (uaddr_page _ _ _ _ (Hx i Hi)) as (k & Hk & Ha).
  exists k. split; [done|]. destruct (uxlate_page _ _ _ _ Hk) as [? ?].
  split_and!; try done || lia.
  intros j Hj0 Hjn Hj.
  destruct (uaddr_page _ _ _ _ (Hx (i + j) ltac:(lia))) as (k' & Hk' & Ha').
  assert ((va + (i + j)) / PGSIZE = (va + i) / PGSIZE) as Hd by (unfold PGSIZE in *; lia_mod).
  rewrite Hd, Hk in Hk'. injection Hk' as <-. rewrite Ha'. unfold PGSIZE in *. lia_mod.
Qed.

(** The memory after [src] was written to the first [o] bytes of the window. *)
Definition window_filled (m m' : memory) (T : Z -> Z) (n o : Z) (src : Z -> byte) : Prop :=
  (forall x, outside T n x -> m' x = m x) /\ (forall i, 0 <= i < o -> m' (T i) = src i).

(** One [memmove] of a chunk into the window. *)
Lemma window_fill_chunk m m' T n o c d l src :
  window_filled m m' T n o src ->
  0 <= o -> Z.of_nat (length l) = c -> o + c <= n ->
  (forall i j, 0 <= i < n -> 0 <= j < n -> T i = T j -> i = j) ->
  (forall j, 0 <= j < c -> T (o + j) = d + j) ->
  (forall j, 0 <= j < c -> nth (Z.to_nat j) l Byte.x00 = src (o + j)) ->
  window_filled m (store_bytes m' d l) T n (o + c) src.
Proof.
  intros [Ho Hf] H0 Hl Hn Hinj HT Hsrc. split.
  - intros x Hx. rewrite store_bytes_ne; [by apply Ho|].
    destruct (decide (d <= x < d + c)); [|lia].
    destruct (Hx (o + (x - d)) ltac:(lia)). rewrite HT by lia. lia.
  - intros i Hi. destruct (decide (i < o)) as [Hlt|Hge].
    + rewrite store_bytes_ne; [apply Hf; lia|].
      destruct (decide (d <= T i < d + c)); [|lia].
      assert (T i = T (o + (T i - d))) as E by (rewrite HT by lia; lia).
      apply Hinj in E; lia.
    + replace i with (o + (i - o)) by lia. rewrite HT, store_bytes_at by lia.
      rewrite <- Hsrc by lia. f_equal. lia.
Qed.

Lemma kmapped_page_part k a n :
  k mod PGSIZE = 0 -> KERNBASE <= k < KERNBASE + PHYSTOP -> 0 <= a -> 0 <= n -> a + n <= PGSIZE ->
  kmapped (k + a) n = true.
Proof.
  intros. apply (kmapped_in_page KERNBASE); unfold kpage; auto with lia.
Qed.

Lemma copyout_loop_done fuel pml4 va buf s : copyout_loop fuel pml4 va buf 0 s = Ok 0 s.
Proof. by destruct fuel. Qed.

(** One turn of the loop fills the window up to the end of a page. *)
Lemma copyout_turn pml4 va p len T m fuel o s :
  user_window m pml4 va len T ->
  kmapped p len = true -> (forall i, 0 <= i < len -> outside T len (p + i)) ->
  0 <= o < len -> window_filled m (mem s) T len o (fun i => m (p + i)) ->
  exists c m1, 0 < c <= len - o /\ (c = len - o \/ c = PGSIZE - (va + o) mod PGSIZE) /\
    copyout_loop (S fuel) pml4 (u64 (va + o)) (p + o) (len - o) s =
      copyout_loop fuel pml4 (u64 (PGSIZE * ((va + o) / PGSIZE) + PGSIZE)) (p + o + c) (len - o - c) (set_mem m1 s) /\
    window_filled m m1 T len (o + c) (fun i => m (p + i)).
Proof.
  intros Hw Hp Hsep Ho Hm. unfold copyout_loop at 1; fold copyout_loop. rewrite (proj2 (Z.ltb_lt 0 (len - o))) by lia.
  destruct (uw_range _ _ _ _ _ Hw) as [Hva Hend]. rewrite (u64_small (va + o)) by lia. rewrite PGROUNDDOWN_spec by lia.
  destruct (user_window_chunk _ (mem s) _ _ _ _ o Hw) as (k & Hk & Hk0 & Hkr & HT); [apply Hm|lia|].
  set (off := (va + o) mod PGSIZE) in *.
  assert (Hoff : 0 <= off < PGSIZE) by (apply Z.mod_pos_bound; done).
  assert (Hb : va + o - PGSIZE * ((va + o) / PGSIZE) = off)
    by (unfold off; pose proof (Z.div_mod (va + o) PGSIZE); unfold PGSIZE in *; lia).
  rewrite (bind_ok _ _ _ _ _ (uva2ka_ok _ _ _ _ Hk)), Hb.
  rewrite (kmapped_nonzero k 0) by (rewrite <- (Z.add_0_r k); apply kmapped_page_part; unfold PGSIZE in *; lia || done).
  set (c := if len - o <? PGSIZE - off then len - o else PGSIZE - off).
  assert (Hc : 0 < c /\ c <= len - o /\ c <= PGSIZE - off /\ (c = len - o \/ c = PGSIZE - off)).
  { unfold c. destruct (Z.ltb_spec (len - o) (PGSIZE - off)); lia. }
  set (l := load_bytes (mem s) (p + o) (Z.to_nat c)).
  exists c, (store_bytes (mem s) (k + off) l). split_and!; try lia.
  - erewrite bind_ok; [reflexivity|]. unfold kmem_op. simpl. rewrite memmove_block.
    rewrite kmapped_page_part by (lia || done). assert (kmapped (p + o) c = true) as ->; [|done].
    unfold kmapped in *. rewrite andb_true_iff in *. lia.
  - apply window_fill_chunk; try done; try lia.
    + unfold l. rewrite length_load_bytes. lia.
    + apply Hw.
    + intros j Hj. rewrite HT by lia. lia.
    + intros j Hj. unfold l. rewrite (nth_lookup_Some _ _ _ (mem s (p + o + j))).
      * destruct Hm as [Hm _]. replace (p + o + j) with (p + (o + j)) by lia. apply Hm, Hsep. lia.
      * rewrite lookup_load_bytes by lia. do 2 f_equal. lia.
Qed.

Lemma copyout_loop_spec pml4 va p len T m fuel o s :
  user_window m pml4 va len T ->
  kmapped p len = true -> (forall i, 0 <= i < len -> outside T len (p + i)) ->
  0 <= o <= len ->
  (o < len -> len - o + (va + o) mod PGSIZE <= PGSIZE * Z.of_nat fuel) ->
  window_filled m (mem s) T len o (fun i => m (p + i)) ->
  exists m', copyout_loop fuel pml4 (u64 (va + o)) (p + o) (len - o) s = Ok 0 (set_mem m' s) /\
    window_filled m m' T len len (fun i => m (p + i)).
Proof.
  intros Hw Hp Hsep. revert o s. induction fuel as [|fuel IH]; intros o s Ho Hfuel Hm.
  - assert (o = len) as ->.
    { destruct (decide (o < len)) as [H|]; [|lia]. specialize (Hfuel H).
      pose proof (Z.mod_pos_bound (va + o) PGSIZE eq_refl). lia. }
    exists (mem s). rewrite Z.sub_diag. split; [by destruct s|done].
  - destruct (decide (o = len)) as [->|Hne].
    { exists (mem s). rewrite Z.sub_diag, copyout_loop_done. split; [by destruct s|done]. }
    pose proof (Z.mod_pos_bound (va + o) PGSIZE eq_refl) as Hmod. pose proof (Z.div_mod (va + o) PGSIZE) as Hdiv.
    destruct (copyout_turn pml4 va p len T m fuel o s) as (c & m1 & Hc & Hc4 & -> & Hm1); try done; [lia|].
    destruct (IH (o + c) (set_mem m1 s)) as (m' & Hrun & Hfill); [lia| |done|].
    + intros Hlt. specialize (Hfuel ltac:(lia)). destruct Hc4 as [Hc4|Hc4]; [lia|].
      replace ((va + (o + c)) mod PGSIZE) with 0 by (rewrite Hc4; unfold PGSIZE in *; lia_mod).
      rewrite Nat2Z.inj_succ in Hfuel. lia.
    + exists m'. split; [|done]. replace (p + o + c) with (p + (o + c)) by lia. replace (len - o - c) with (len - (o + c)) by lia.
      destruct (decide (o + c = len)) as [E|E].
      * rewrite E, Z.sub_diag, copyout_loop_done in Hrun |- *. exact Hrun.
      * replace (PGSIZE * ((va + o) / PGSIZE) + PGSIZE) with (va + (o + c)) by (unfold PGSIZE in *; lia).
        exact Hrun.
Qed.

Lemma copyout_spec pml4 va p len T s :
  user_window (mem s) pml4 va len T -> 0 <= len ->
  kmapped p len = true -> (forall i, 0 <= i < len -> outside T len (p + i)) ->
  exists m', copyout pml4 va p len s = Ok 0 (set_mem m' s) /\
    (forall i, 0 <= i < len ->
       uaddr m' pml4 (va + i) = Some (T i) /\ m' (T i) = mem s (p + i)) /\
    (forall x, outside T len x -> m' x = mem s x).
Proof.
  intros Hw Hlen Hp Hsep. pose proof (uw_range _ _ _ _ _ Hw) as [Hva Hend].
  destruct (decide (len = 0)) as [->|Hne].
  { exists (mem s). split; [unfold copyout; rewrite copyout_loop_done; by destruct s|].
    split; [lia|done]. }
  destruct (copyout_loop_spec pml4 va p len T (mem s)
    (S (S (Z.to_nat (len / PGSIZE)))) 0 s) as (m' & Hrun & Ho & Hf); try done; try lia.
  - intros _. rewrite !Nat2Z.inj_succ, Z2Nat.id by (apply Z.div_pos; unfold PGSIZE; lia).
    unfold PGSIZE. lia_mod.
  - split; [done|lia].
  - exists m'. rewrite !Z.add_0_r, Z.sub_0_r, u64_small in Hrun by lia.
    split_and!; [done| |done].
    intros i Hi. split; [|by apply Hf]. by apply (uw_xlate _ _ _ _ _ Hw).
Qed.

(** C23: [copyout] into a mapped window returns 0, user code then reads at
    [va + i] the byte [i] of the source, for each of the [len] bytes and across
    page boundaries, and no other byte of memory changes. *)
Theorem copyout_correct pml4 va p len T s :
  user_window (mem s) pml4 va len T -> 0 <= len ->
  kmapped p len = true -> (forall i, 0 <= i < len -> outside T len (p + i)) ->
  exists m', copyout pml4 va p len s = Ok 0 (set_mem m' s) /\
    (forall i, 0 <= i < len ->
       uaddr m' pml4 (va + i) = Some (T i) /\ m' (T i) = mem s (p + i)) /\
    (forall x, outside T len x -> m' x = mem s x).
Proof. apply copyout_spec. Qed.

(** The addresses of the four entries that the translation of [va] reads. *)
Definition walk_cells (m : memory) (pml4 va : Z) : list Z :=
  let e1 := pml4 + 8 * PMX va in
  e1 :: match entry_target m e1 with None => [] | Some pdp =>
  let e2 := pdp + 8 * PDPX va in
  e2 :: match entry_target m e2 with None => [] | Some pd =>
  let e3 := pd + 8 * PDX va in
  e3 :: match entry_target m e3 with None => [] | Some pt => [pt + 8 * PTX va]
  end end end.

Lemma loadZ_agree n m m' a :
  (forall j, 0 <= j < Z.of_nat n -> m' (a + j) = m (a + j)) -> loadZ n m' a = loadZ n m a.
Proof. intros H. unfold loadZ. f_equal. apply load_bytes_ext. intros. apply H. lia. Qed.

Lemma entry_target_agree m m' e :
  loadZ 8 m' e = loadZ 8 m e -> entry_target m' e = entry_target m e.
Proof. unfold entry_target. by intros ->. Qed.

Lemma uaddr_agree m m' pml4 va :
  (forall e, e ∈ walk_cells m pml4 va -> loadZ 8 m' e = loadZ 8 m e) ->
  uaddr m' pml4 va = uaddr m pml4 va.
Proof.
  unfold walk_cells, uaddr, uxlate, pte_at. intros H.
  rewrite (entry_target_agree m m') by (apply H; set_solver).
  destruct (entry_target m (pml4 + 8 * PMX va)) as [pdp|]; [|done].
  rewrite (entry_target_agree m m') by (apply H; set_solver).
  destruct (entry_target m (pdp + 8 * PDPX va)) as [pd|]; [|done].
  rewrite (entry_target_agree m m') by (apply H; set_solver).
  destruct (entry_target m (pd + 8 * PDX va)) as [pt|]; [|done].
  rewrite H by set_solver. done.
Qed.

(** A window that meets none of the entries on its own walks. *)
Lemma user_window_intro m pml4 va n T :
  0 <= va -> va + n <= 2 ^ 64 ->
  (forall i j, 0 <= i < n -> 0 <= j < n -> T i = T j -> i = j) ->
  (forall i, 0 <= i < n -> uaddr m pml4 (va + i) = Some (T i) /\
     forall e j, e ∈ walk_cells m pml4 (va + i) -> 0 <= j < 8 -> outside T n (e + j)) ->
  user_window m pml4 va n T.
Proof.
  intros Hva Hend Hinj Hx. split; [done|done|].
  intros m' Hm' i Hi. destruct (Hx i Hi) as [Ha Hc]. rewrite <- Ha.
  apply uaddr_agree. intros e He. apply loadZ_agree. intros j Hj.
  apply Hm', Hc; [done|lia].
Qed.

(** ** An example: two user pages, not adjacent in physical memory *)

Definition demo_mem : memory :=
  let at_ k := KERNBASE + k in
  let entry k := Z.lor k 7 in
  let m0 : memory := fun _ => Byte.x00 in
  let m1 := storeZ 8 m0 (at_ 0x200000) (entry 0x201000) in
  let m2 := storeZ 8 m1 (at_ 0x201000) (entry 0x202000) in
  let m3 := storeZ 8 m2 (at_ 0x202000) (entry 0x203000) in
  let m4 := storeZ 8 m3 (at_ 0x203008) (entry 0x206000) in
  let m5 := storeZ 8 m4 (at_ 0x203010) (entry 0x205000) in
  store_bytes m5 (at_ 0x300000) [Byte.x61; Byte.x62; Byte.x63; Byte.x64].

(** Four bytes across the boundary at 0x2000. *)
Definition demo_T (i : Z) : Z :=
  if i <? 2 then KERNBASE + 0x206ffe + i else KERNBASE + 0x205000 + (i - 2).

Lemma demo_window : user_window demo_mem (KERNBASE + 0x200000) 0x1ffe 4 demo_T.
Proof.
  apply user_window_intro; [lia|lia| |].
  - intros i j Hi Hj. unfold demo_T, KERNBASE.
    destruct (Z.ltb_spec i 2), (Z.ltb_spec j 2); lia.
  - intros i Hi. assert (i = 0 \/ i = 1 \/ i = 2 \/ i = 3) as Hc by lia. split.
    + destruct Hc as [->|[->|[->| ->]]]; by vm_compute.
    + intros e j He Hj k Hk.
      assert (Hb : e < KERNBASE + 0x204000).
      { assert (walk_cells demo_mem (KERNBASE + 0x200000) (0x1ffe + i) =
          map (Z.add KERNBASE) [0x200000; 0x201000; 0x202000;
                                if i <? 2 then 0x203008 else 0x203010]) as E
          by (destruct Hc as [->|[->|[->| ->]]]; vm_compute; reflexivity).
        rewrite E in He. simpl in He. rewrite !elem_of_cons, elem_of_nil in He.
        destruct (i <? 2); lia. }
      clear He. unfold demo_T. destruct (Z.ltb_spec k 2); lia.
Qed.

Lemma copyout_correct_witness :
  exists m', copyout (KERNBASE + 0x200000) 0x1ffe (KERNBASE + 0x300000) 4
               (set_mem demo_mem (entry_state KERNBASE [])) =
             Ok 0 (set_mem m' (set_mem demo_mem (entry_state KERNBASE []))) /\
    m' (KERNBASE + 0x206fff) = Byte.x62 /\ m' (KERNBASE + 0x205000) = Byte.x63.
Proof.
  destruct (copyout_correct (KERNBASE + 0x200000) 0x1ffe (KERNBASE + 0x300000) 4 demo_T
    (set_mem demo_mem (entry_state KERNBASE []))) as (m' & Hrun & Hb & _).
  - exact demo_window.
  - lia.
  - reflexivity.
  - intros i Hi k Hk. unfold demo_T. destruct (Z.ltb_spec k 2); lia.
  - exists m'. split; [exact Hrun|]. split.
    + destruct (Hb 1 ltac:(lia)) as [_ H]. exact H.
    + destruct (Hb 2 ltac:(lia)) as [_ H]. exact H.
Defined.
