(* ===== verification/NetHdr.v ===== *)
(** * net.h: byte order, header layouts, and the Internet checksum

    The headers are overlays on a page: a field is an offset from the start of
    its header.  [in_cksum] is the checksum routine of net.c. *)

From coqutil Require Import Z.BitOps.
From S2P Require Import Prelude Memory CString Machine.
Local Open Scope Z_scope.
Local Open Scope kernel_scope.

(** ** Byte order *)

Definition bswaps (val : Z) : Z :=
  u16 (Z.lor (Z.shiftl (Z.land val 0x00ff) 8) (Z.shiftr (Z.land val 0xff00) 8)).

Definition bswapl (val : Z) : Z :=
  u32 (Z.lor (Z.lor (Z.lor
    (Z.shiftl (Z.land val 0x000000ff) 24) (Z.shiftl (Z.land val 0x0000ff00) 8))
    (Z.shiftr (Z.land val 0x00ff0000) 8)) (Z.shiftr (Z.land val 0xff000000) 24)).

Definition ntohs := bswaps.
Definition ntohl := bswapl.
Definition htons := bswaps.
Definition htonl := bswapl.

(** ** Header layouts *)

Definition ETHADDR_LEN : Z := 6.

(** [struct eth] *)
Definition eth_dhost : Z := 0.
Definition eth_shost : Z := 6.
Definition eth_type : Z := 12.
Definition sizeof_eth : Z := 14.
Definition ETHTYPE_IP : Z := 0x0800.
Definition ETHTYPE_ARP : Z := 0x0806.

(** [struct ip] *)
Definition ip_vhl : Z := 0.
Definition ip_tos : Z := 1.
Definition ip_len : Z := 2.
Definition ip_id : Z := 4.
Definition ip_off : Z := 6.
Definition ip_ttl : Z := 8.
Definition ip_p : Z := 9.
Definition ip_sum : Z := 10.
Definition ip_src : Z := 12.
Definition ip_dst : Z := 16.
Definition sizeof_ip : Z := 20.
Definition IPPROTO_UDP : Z := 17.

Definition MAKE_IP_ADDR (a b c d : Z) : Z :=
  Z.lor (Z.lor (Z.lor (u32 (Z.shiftl (u32 a) 24)) (u32 (Z.shiftl (u32 b) 16)))
    (u32 (Z.shiftl (u32 c) 8))) (u32 d).

(** [struct udp] *)
Definition udp_sport : Z := 0.
Definition udp_dport : Z := 2.
Definition udp_ulen : Z := 4.
Definition udp_sum : Z := 6.
Definition sizeof_udp : Z := 8.

(** [struct arp] *)
Definition arp_hrd : Z := 0.
Definition arp_pro : Z := 2.
Definition arp_hln : Z := 4.
Definition arp_pln : Z := 5.
Definition arp_op : Z := 6.
Definition arp_sha : Z := 8.
Definition arp_sip : Z := 14.
Definition arp_tha : Z := 18.
Definition arp_tip : Z := 24.
Definition sizeof_arp : Z := 28.
Definition ARP_HRD_ETHER : Z := 1.
Definition ARP_OP_REQUEST : Z := 1.
Definition ARP_OP_REPLY : Z := 2.

(** ** The Internet checksum *)

(** [while (nleft > 1) { sum += *w++; nleft -= 2; }] *)
Fixpoint cksum_loop (fuel : nat) (m : memory) (w nleft sum : Z) : Z * Z * Z :=
  if 1 <? nleft then
    match fuel with
    | O => (w, nleft, sum)
    | S k => cksum_loop k m (w + 2) (nleft - 2) (u32 (sum + loadZ 2 m w))
    end
  else (w, nleft, sum).

(** The fold of a 32-bit sum to 16 bits, and its complement. *)
Definition cksum_fold (sum : Z) : Z :=
  let sum := u32 (Z.land sum 0xffff + Z.shiftr sum 16) in
  let sum := u32 (sum + Z.shiftr sum 16) in
  u16 (Z.lnot sum).

Definition in_cksum (m : memory) (addr len : Z) : Z :=
  let '(w, nleft, sum) := cksum_loop (Z.to_nat len) m addr len 0 in
  let sum := if nleft =? 1 then u32 (sum + loadZ 1 m w) else sum in
  cksum_fold sum.

(** ** Byte order: proofs *)

(** The byte of [x] at bit [k], read through a mask in place. *)
Lemma land_byte x k : 0 <= k -> Z.land x (Z.shiftl 255 k) = (x / 2 ^ k) mod 256 * 2 ^ k.
Proof.
  intros Hk. change 256 with (2 ^ 8). rewrite <- Z.land_ones, <- Z.shiftr_div_pow2 by lia.
  rewrite <- Z.shiftl_mul_pow2 by lia. change (Z.ones 8) with 255.
  apply Z.bits_inj'. intros i Hi. rewrite Z.land_spec, !Z.shiftl_spec by done.
  destruct (Z.ltb_spec i k).
  - rewrite !(Z.testbit_neg_r _ (i - k)) by lia. apply andb_false_r.
  - rewrite Z.land_spec, Z.shiftr_spec by lia. do 2 f_equal. lia.
Qed.

Lemma lor_disjoint a b k : 0 <= k -> 0 <= b < 2 ^ k -> Z.lor (a * 2 ^ k) b = a * 2 ^ k + b.
Proof.
  intros Hk Hb. apply BitOps.or_to_plus.
  apply Z.bits_inj'. intros i Hi. rewrite <- Z.shiftl_mul_pow2, Z.land_spec, Z.bits_0 by done.
  rewrite Z.shiftl_spec by done. destruct (Z.ltb_spec i k).
  - by rewrite Z.testbit_neg_r by lia.
  - rewrite <- (Z.mod_small b (2 ^ k)), Z.mod_pow2_bits_high by lia. by rewrite andb_false_r.
Qed.

Lemma bswaps_arith v : bswaps v = v mod 256 * 256 + (v / 256) mod 256.
Proof.
  unfold bswaps. change 0x00ff with (Z.shiftl 255 0). change 0xff00 with (Z.shiftl 255 8).
  rewrite !land_byte by lia. rewrite Z.shiftl_mul_pow2, Z.shiftr_div_pow2 by lia.
  change (2 ^ 0) with 1. change (2 ^ 8) with 256.
  rewrite Z.div_1_r, Z.mul_1_r, Z.div_mul by lia.
  change 256 with (2 ^ 8) at 2. rewrite lor_disjoint by lia_mod.
  apply u16_small. lia_mod.
Qed.

Lemma bswapl_arith v :
  bswapl v = v mod 256 * 2 ^ 24 + (v / 256) mod 256 * 2 ^ 16 +
             (v / 2 ^ 16) mod 256 * 2 ^ 8 + (v / 2 ^ 24) mod 256.
Proof.
  unfold bswapl. change 0x000000ff with (Z.shiftl 255 0).
  change 0x0000ff00 with (Z.shiftl 255 8). change 0x00ff0000 with (Z.shiftl 255 16).
  change 0xff000000 with (Z.shiftl 255 24).
  rewrite !land_byte by lia. rewrite !Z.shiftl_mul_pow2, !Z.shiftr_div_pow2 by lia.
  change (2 ^ 0) with 1. rewrite Z.div_1_r, Z.mul_1_r, (Z.div_mul _ (2 ^ 24)) by lia.
  rewrite <- !Z.lor_assoc.
  set (b0 := v mod 256). set (b1 := (v / 2 ^ 8) mod 256).
  set (b2 := (v / 2 ^ 16) mod 256). set (b3 := (v / 2 ^ 24) mod 256).
  assert (0 <= b0 < 256 /\ 0 <= b1 < 256 /\ 0 <= b2 < 256 /\ 0 <= b3 < 256) as (?&?&?&?)
    by (unfold b0, b1, b2, b3; repeat split; apply Z.mod_pos_bound; lia).
  replace (b2 * 2 ^ 16 / 2 ^ 8) with (b2 * 2 ^ 8) by lia_mod.
  replace (b1 * 2 ^ 8 * 2 ^ 8) with (b1 * 2 ^ 16) by lia.
  rewrite (lor_disjoint b2 b3 8), (lor_disjoint b1 _ 16), (lor_disjoint b0 _ 24) by lia.
  change (v / 256) with (v / 2 ^ 8). fold b1.
  rewrite u32_small by lia. lia.
Qed.

(** Big-endian byte lists: what is on the wire. *)
Definition be16 (v : Z) : list byte := [byte.of_Z (v / 256); byte.of_Z v].
Definition be32 (v : Z) : list byte :=
  [byte.of_Z (v / 2 ^ 24); byte.of_Z (v / 2 ^ 16); byte.of_Z (v / 256); byte.of_Z v].

Lemma byte_of_Z_eq x y : x mod 256 = y mod 256 -> byte.of_Z x = byte.of_Z y.
Proof. intros. apply byte.unsigned_inj. rewrite !byte.unsigned_of_Z. done. Qed.

Lemma le_split_2 x : le_split 2 x = [byte.of_Z x; byte.of_Z (x / 256)].
Proof.
  change (le_split 2 x) with [byte.of_Z x; byte.of_Z (Z.shiftr x 8)].
  by rewrite Z.shiftr_div_pow2 by lia.
Qed.

Lemma le_split_4 x :
  le_split 4 x = [byte.of_Z x; byte.of_Z (x / 256); byte.of_Z (x / 2 ^ 16);
                  byte.of_Z (x / 2 ^ 24)].
Proof.
  change (le_split 4 x) with [byte.of_Z x; byte.of_Z (Z.shiftr x 8);
    byte.of_Z (Z.shiftr (Z.shiftr x 8) 8); byte.of_Z (Z.shiftr (Z.shiftr (Z.shiftr x 8) 8) 8)].
  by rewrite !Z.shiftr_shiftr, !Z.shiftr_div_pow2 by lia.
Qed.

Lemma le_split_htons v : le_split 2 (htons v) = be16 v.
Proof.
  unfold htons, be16. rewrite bswaps_arith, le_split_2.
  f_equal; [|f_equal]; apply byte_of_Z_eq; lia_mod.
Qed.

(** The digits of [x] in base 256. *)
Lemma digits4 x : exists a b c d e,
  0 <= a < 256 /\ 0 <= b < 256 /\ 0 <= c < 256 /\ 0 <= d < 256 /\
  x = a + 256 * b + 65536 * c + 16777216 * d + 4294967296 * e.
Proof.
  exists (x mod 256), (x / 256 mod 256), (x / 256 / 256 mod 256),
    (x / 256 / 256 / 256 mod 256), (x / 256 / 256 / 256 / 256).
  repeat split; try (apply Z.mod_pos_bound; lia). lia_mod.
Qed.

Lemma digits4_mod a b c d e x :
  0 <= a < 256 -> 0 <= b < 256 -> 0 <= c < 256 -> 0 <= d < 256 ->
  x = a + 256 * b + 65536 * c + 16777216 * d + 4294967296 * e ->
  x mod 256 = a /\ x / 256 mod 256 = b /\ x / 2 ^ 16 mod 256 = c /\ x / 2 ^ 24 mod 256 = d.
Proof. intros ???? ->. repeat split; lia_mod. Qed.

Lemma le_split_htonl v : le_split 4 (htonl v) = be32 v.
Proof.
  destruct (digits4 v) as (a & b & c & d & e & Ha & Hb & Hc & Hd & Hv).
  destruct (digits4_mod a b c d e v) as (E0 & E1 & E2 & E3); [done..|].
  unfold htonl, be32. rewrite bswapl_arith, E0, E1, E2, E3.
  destruct (digits4_mod d c b a 0 (a * 2 ^ 24 + b * 2 ^ 16 + c * 2 ^ 8 + d))
    as (F0 & F1 & F2 & F3); [done..|lia|].
  rewrite le_split_4. f_equal; [|f_equal; [|f_equal; [|f_equal]]]; apply byte_of_Z_eq; congruence.
Qed.

(** Reading a field: the bytes in wire order. *)
Lemma ntohs_bytes x y :
  ntohs (le_combine [x; y]) = byte.unsigned x * 256 + byte.unsigned y.
Proof.
  pose proof (byte.unsigned_range x). pose proof (byte.unsigned_range y).
  unfold ntohs. rewrite bswaps_arith.
  assert (le_combine [x; y] = byte.unsigned x + 256 * byte.unsigned y) as ->; [|lia_mod].
  unfold le_combine. rewrite Z.shiftl_0_l, Z.lor_0_r, Z.lor_comm.
  rewrite Z.shiftl_mul_pow2, lor_disjoint by lia. lia.
Qed.

Lemma ntohl_bytes x y z w :
  ntohl (le_combine [x; y; z; w]) =
    (byte.unsigned x * 256 + byte.unsigned y) * 65536 +
    (byte.unsigned z * 256 + byte.unsigned w).
Proof.
  pose proof (byte.unsigned_range x) as H. pose proof (byte.unsigned_range y) as H0.
  pose proof (byte.unsigned_range z) as H1. pose proof (byte.unsigned_range w) as H2.
  unfold ntohl. rewrite bswapl_arith.
  assert (le_combine [x; y; z; w] = byte.unsigned x + 256 * byte.unsigned y +
            65536 * byte.unsigned z + 16777216 * byte.unsigned w + 4294967296 * 0) as E.
  { unfold le_combine. rewrite Z.shiftl_0_l, Z.lor_0_r.
    rewrite (Z.lor_comm (byte.unsigned z)), (Z.lor_comm (byte.unsigned y)),
      (Z.lor_comm (byte.unsigned x)).
    rewrite !Z.shiftl_mul_pow2, !lor_disjoint by lia. lia. }
  destruct (digits4_mod _ _ _ _ _ _ H H0 H1 H2 E) as (-> & -> & -> & ->). lia.
Qed.

Lemma ntohs_htons v : ntohs (htons v) = u16 v.
Proof. unfold ntohs, htons. rewrite !bswaps_arith. unfold u16. lia_mod. Qed.

Lemma ntohl_htonl v : ntohl (htonl v) = u32 v.
Proof.
  destruct (digits4 v) as (a & b & c & d & e & Ha & Hb & Hc & Hd & Hv).
  destruct (digits4_mod a b c d e v) as (E0 & E1 & E2 & E3); [done..|].
  unfold ntohl, htonl. rewrite !bswapl_arith, E0, E1, E2, E3.
  destruct (digits4_mod d c b a 0 (a * 2 ^ 24 + b * 2 ^ 16 + c * 2 ^ 8 + d))
    as (F0 & F1 & F2 & F3); [done..|lia|].
  rewrite F0, F1, F2, F3. unfold u32. apply Z.mod_unique with e; lia.
Qed.

(** The byte order conversions are inverse to each other at their width,
    and a converted value stored by the little-endian machine puts the bytes
    of the value on the wire most significant first. *)
Theorem byte_order_roundtrip v :
  ntohs (htons v) = u16 v /\ ntohl (htonl v) = u32 v /\
  le_split 2 (htons v) = be16 v /\ le_split 4 (htonl v) = be32 v.
Proof. auto using ntohs_htons, ntohl_htonl, le_split_htons, le_split_htonl. Qed.

(** ** The checksum: proofs *)

(** The sum of [k] consecutive 16-bit words, and of a block with its odd byte. *)
Fixpoint wsum (k : nat) (m : memory) (w : Z) : Z :=
  match k with O => 0 | S k => loadZ 2 m w + wsum k m (w + 2) end.

Definition csum (m : memory) (a len : Z) : Z :=
  wsum (Z.to_nat (len / 2)) m a +
  (if len mod 2 =? 1 then loadZ 1 m (a + 2 * (len / 2)) else 0).

Lemma wsum_range k m w : 0 <= wsum k m w <= 65535 * Z.of_nat k.
Proof.
  revert w. induction k as [|k IH]; intros w; simpl wsum; [lia|].
  pose proof (loadZ_range 2 m w). specialize (IH (w + 2)). lia.
Qed.

Lemma cksum_loop_spec k fuel m w nleft sum :
  Z.of_nat k = nleft / 2 -> (k <= fuel)%nat -> 0 <= nleft -> 0 <= sum ->
  sum + wsum k m w < 2 ^ 32 ->
  cksum_loop fuel m w nleft sum = (w + 2 * (nleft / 2), nleft mod 2, sum + wsum k m w).
Proof.
  revert fuel w nleft sum. induction k as [|k IH]; intros fuel w nleft sum Hk Hf Hn Hs Hb.
  - assert (nleft / 2 = 0 /\ nleft mod 2 = nleft) as [-> ->] by lia_mod.
    assert (1 <? nleft = false) as E by lia_mod.
    destruct fuel; simpl; rewrite E; (f_equal; [f_equal|]); lia.
  - destruct fuel as [|fuel]; [lia|]. simpl wsum in *.
    pose proof (loadZ_range 2 m w). pose proof (wsum_range k m (w + 2)).
    cbn [cksum_loop]. destruct (Z.ltb_spec 1 nleft); [|lia_mod].
    rewrite u32_small by lia. rewrite IH; try lia; [|lia_mod].
    f_equal; [f_equal; lia_mod|lia].
Qed.

Lemma in_cksum_csum m a len :
  0 <= len -> csum m a len < 2 ^ 32 -> in_cksum m a len = cksum_fold (csum m a len).
Proof.
  intros Hl Hb. unfold in_cksum, csum in *.
  assert (0 <= len / 2) by lia_mod.
  pose proof (wsum_range (Z.to_nat (len / 2)) m a).
  pose proof (loadZ_range 1 m (a + 2 * (len / 2))).
  assert (Hodd : len mod 2 = 0 \/ len mod 2 = 1) by lia_mod.
  rewrite (cksum_loop_spec (Z.to_nat (len / 2))); try lia; [| lia_mod |].
  - destruct Hodd as [E|E]; rewrite E in *; simpl in *; [by rewrite Z.add_0_r|].
    rewrite u32_small by lia. done.
  - destruct Hodd as [E|E]; rewrite E in Hb; simpl in Hb; lia.
Qed.

(** Folding keeps the value modulo 65535 and leaves 0 only for 0. *)
Lemma cksum_fold_spec s :
  0 <= s < 2 ^ 32 ->
  exists f, cksum_fold s = 65535 - f /\ 0 <= f <= 65535 /\ f mod 65535 = s mod 65535 /\
    (f = 0 <-> s = 0).
Proof.
  intros Hs. unfold cksum_fold.
  replace (Z.land s 0xffff) with (s mod 2 ^ 16) by (symmetry; apply (Z.land_ones s 16); lia).
  rewrite Z.shiftr_div_pow2 by lia.
  change (2 ^ 16) with 65536.
  rewrite (u32_small (s mod 65536 + s / 65536)) by lia_mod.
  set (s1 := s mod 65536 + s / 65536).
  assert (H1 : 0 <= s1 <= 131070 /\ s1 mod 65535 = s mod 65535 /\ (s1 = 0 <-> s = 0))
    by (unfold s1; lia_mod).
  clearbody s1. destruct H1 as (Hr & Hm & H0).
  rewrite Z.shiftr_div_pow2 by lia. change (2 ^ 16) with 65536.
  rewrite u32_small by lia_mod.
  assert (Hlnot : forall x, u16 (Z.lnot x) = 65535 - x mod 65536).
  { intros x. unfold u16, Z.lnot. symmetry. apply Z.mod_unique with (- (x / 65536) - 1); lia_mod. }
  set (f := if s1 <? 65536 then s1 else s1 - 65535).
  assert (Hf : (s1 + s1 / 65536) mod 65536 = f).
  { unfold f. destruct (Z.ltb_spec s1 65536); lia_mod. }
  assert (Hf' : 0 <= f <= 65535 /\ f mod 65535 = s1 mod 65535 /\ (f = 0 <-> s1 = 0)).
  { unfold f. destruct (Z.ltb_spec s1 65536); lia_mod. }
  clearbody f. exists f. split.
  - by rewrite Hlnot, Hf.
  - destruct Hf' as (? & ? & ?). split_and!; [lia|lia|congruence|]. by rewrite <- H0.
Qed.

Lemma wsum_store k m w v j :
  loadZ 2 m (w + 2 * Z.of_nat j) = 0 -> 0 <= v < 65536 -> (j < k)%nat ->
  wsum k (storeZ 2 m (w + 2 * Z.of_nat j) v) w = wsum k m w + v.
Proof.
  revert w j. induction k as [|k IH]; intros w j H0 Hv Hj; [lia|]. simpl.
  destruct j as [|j].
  - rewrite Z.mul_0_r, Z.add_0_r in *. rewrite loadZ_store_same, H0, Z.mod_small by lia.
    assert (wsum k (storeZ 2 m w v) (w + 2) = wsum k m (w + 2)) as ->; [|lia].
    clear. assert (forall k x, w + 2 <= x -> wsum k (storeZ 2 m w v) x = wsum k m x) as H.
    { clear. intros k. induction k as [|k IH]; intros x Hx; simpl; [done|].
      rewrite IH by lia. rewrite loadZ_storeZ_disjoint by lia. done. }
    apply H. lia.
  - rewrite loadZ_storeZ_disjoint by lia.
    replace (w + 2 * Z.of_nat (S j)) with (w + 2 + 2 * Z.of_nat j) in * by lia.
    rewrite IH by (done || lia). lia.
Qed.

(** The checksum that [sys_send] stores verifies.  For a block of any length up
    to 128 KiB whose 16-bit checksum field holds 0, storing [in_cksum] of the
    block in that field makes [in_cksum] of the block 0, which is the
    receiver's test. *)
Lemma cksum_verifies m a len j :
  0 <= len <= 131072 -> 0 <= j -> 2 * j + 2 <= len -> loadZ 2 m (a + 2 * j) = 0 ->
  in_cksum (storeZ 2 m (a + 2 * j) (in_cksum m a len)) a len = 0.
Proof.
  intros Hl Hj0 Hj H0.
  assert (Hw : forall m', 0 <= csum m' a len <= 65535 * 65536 + 255).
  { intros m'. unfold csum. pose proof (wsum_range (Z.to_nat (len / 2)) m' a).
    pose proof (loadZ_range 1 m' (a + 2 * (len / 2))).
    assert (0 <= len / 2 <= 65536) by lia_mod. destruct (len mod 2 =? 1); lia. }
  destruct (cksum_fold_spec (csum m a len)) as (f & Hf & Hfr & Hfm & Hf0);
    [pose proof (Hw m); lia|].
  pose proof (Hw m) as Hm. rewrite (in_cksum_csum m), Hf by lia.
  set (m' := storeZ 2 m (a + 2 * j) (65535 - f)).
  assert (csum m' a len = csum m a len + (65535 - f)) as Hs.
  { unfold csum, m'. replace j with (Z.of_nat (Z.to_nat j)) in * by lia.
    rewrite wsum_store by (done || lia_mod).
    destruct (Z.eqb_spec (len mod 2) 1); [|lia].
    rewrite loadZ_storeZ_disjoint by lia_mod. lia. }
  pose proof (Hw m') as Hm'. rewrite in_cksum_csum by lia.
  destruct (cksum_fold_spec (csum m' a len)) as (g & -> & Hgr & Hgm & Hg0); [lia|].
  rewrite Hs in *. lia_mod.
Qed.
