(* ===== verification/E1000.v ===== *)
(** * e1000.c: the network card driver

    The transmit and receive rings, the driver's side of them, and the
    interrupt handler.  The card itself is not code of the repository: it
    shares the rings and the register window with the driver, and what it may
    do between two calls of the driver is the hypothesis of the properties
    about several calls.  [e1000_recv] hands each packet to the network stack
    through the interface [RxHandler]. *)

From S2P Require Import Prelude Memory CString Machine Spinlock Kalloc.
Local Open Scope Z_scope.
Local Open Scope kernel_scope.

(** ** e1000_dev.h *)

(** The registers that the driver uses. *)
Inductive e1000_reg :=
| E1000_CTL | E1000_STATUS | E1000_ICR | E1000_IMS | E1000_RCTL | E1000_TCTL | E1000_TIPG
| E1000_RDBAL | E1000_RDBAH | E1000_RDLEN | E1000_RDH | E1000_RDT | E1000_RDTR | E1000_RADV
| E1000_TDBAL | E1000_TDBAH | E1000_TDLEN | E1000_TDH | E1000_TDT | E1000_MTA | E1000_RA.

(** Their indices in the window of 32-bit words. *)
Definition reg_index (r : e1000_reg) : Z :=
  match r with
  | E1000_CTL => 0x00000 / 4 | E1000_STATUS => 0x00008 / 4 | E1000_ICR => 0x000C0 / 4
  | E1000_IMS => 0x000D0 / 4 | E1000_RCTL => 0x00100 / 4 | E1000_TCTL => 0x00400 / 4
  | E1000_TIPG => 0x00410 / 4 | E1000_RDBAL => 0x02800 / 4 | E1000_RDBAH => 0x02804 / 4
  | E1000_RDLEN => 0x02808 / 4 | E1000_RDH => 0x02810 / 4 | E1000_RDT => 0x02818 / 4
  | E1000_RDTR => 0x02820 / 4 | E1000_RADV => 0x0282C / 4 | E1000_TDBAL => 0x03800 / 4
  | E1000_TDBAH => 0x03804 / 4 | E1000_TDLEN => 0x03808 / 4 | E1000_TDH => 0x03810 / 4
  | E1000_TDT => 0x03818 / 4 | E1000_MTA => 0x05200 / 4 | E1000_RA => 0x05400 / 4
  end.

Coercion reg_index : e1000_reg >-> Z.

(** Fields of the registers and of the descriptors. *)
Inductive e1000_bits :=
| E1000_CTL_RST | E1000_TCTL_EN | E1000_TCTL_PSP | E1000_TCTL_CT_SHIFT
| E1000_TCTL_COLD_SHIFT | E1000_RCTL_EN | E1000_RCTL_BAM | E1000_RCTL_SZ_2048
| E1000_RCTL_SECRC | E1000_TXD_CMD_EOP | E1000_TXD_CMD_RS | E1000_TXD_STAT_DD
| E1000_RXD_STAT_DD.

(** Their values. *)
Definition bits_value (r : e1000_bits) : Z :=
  match r with
  | E1000_CTL_RST => 0x04000000 | E1000_TCTL_EN => 0x00000002
  | E1000_TCTL_PSP => 0x00000008 | E1000_TCTL_CT_SHIFT => 4 | E1000_TCTL_COLD_SHIFT => 12
  | E1000_RCTL_EN => 0x00000002 | E1000_RCTL_BAM => 0x00008000
  | E1000_RCTL_SZ_2048 => 0x00000000 | E1000_RCTL_SECRC => 0x04000000
  | E1000_TXD_CMD_EOP => 0x01 | E1000_TXD_CMD_RS => 0x08 | E1000_TXD_STAT_DD => 0x01
  | E1000_RXD_STAT_DD => 0x01
  end.

Coercion bits_value : e1000_bits >-> Z.

Definition TX_RING_SIZE : Z := 16.
Definition RX_RING_SIZE : Z := 16.

(** The sizes of the rings in bytes: sixteen descriptors of sixteen bytes. *)
Definition sizeof_tx_ring : Z := 256.
Definition sizeof_rx_ring : Z := 256.

(** ** Access to the rings and the registers *)

Definition set_regs (f : Z -> Z) (d : e1000) : e1000 :=
  mk_e1000 (tx_ring d) (rx_ring d) (tx_bufs d) (rx_bufs d) f.
Definition set_tx_ring (l : list tx_desc) (d : e1000) : e1000 :=
  mk_e1000 l (rx_ring d) (tx_bufs d) (rx_bufs d) (regs d).
Definition set_rx_ring (l : list rx_desc) (d : e1000) : e1000 :=
  mk_e1000 (tx_ring d) l (tx_bufs d) (rx_bufs d) (regs d).
Definition set_tx_bufs (l : list Z) (d : e1000) : e1000 :=
  mk_e1000 (tx_ring d) (rx_ring d) l (rx_bufs d) (regs d).
Definition set_rx_bufs (l : list Z) (d : e1000) : e1000 :=
  mk_e1000 (tx_ring d) (rx_ring d) (tx_bufs d) l (regs d).

Definition upd_nic (f : e1000 -> e1000) : K unit :=
  modify (fun s => set_nic (f (nic s)) s).

(** [regs[i]] and [regs[i] = v]; a register holds a [uint32]. *)
Definition reg_read (i : Z) : K Z := gets (fun s => regs (nic s) i).
Definition reg_write (i v : Z) : K unit :=
  upd_nic (fun d => set_regs (fun j => if j =? i then u32 v else regs d j) d).

(** An element of a static array; an index out of range faults. *)
Definition get_elem {A} (f : e1000 -> list A) (i : Z) : K A := fun s =>
  match f (nic s) !! Z.to_nat i with Some x => Ok x s | None => Fault end.

Definition tx_desc0 : tx_desc := mk_tx_desc 0 0 0 0 0 0 0.
Definition rx_desc0 : rx_desc := mk_rx_desc 0 0 0 0 0 0.

Definition set_tx_status (v : Z) (d : tx_desc) : tx_desc :=
  mk_tx_desc (tx_addr d) (tx_length d) (tx_cso d) (tx_cmd d) v (tx_css d) (tx_special d).
Definition set_tx_addr (v : Z) (d : tx_desc) : tx_desc :=
  mk_tx_desc v (tx_length d) (tx_cso d) (tx_cmd d) (tx_status d) (tx_css d) (tx_special d).
Definition set_rx_addr (v : Z) (d : rx_desc) : rx_desc :=
  mk_rx_desc v (rx_length d) (rx_csum d) (rx_status d) (rx_errors d) (rx_special d).
Definition set_rx_status (v : Z) (d : rx_desc) : rx_desc :=
  mk_rx_desc (rx_addr d) (rx_length d) (rx_csum d) v (rx_errors d) (rx_special d).

(** ** Initialisation *)

(** The loop that gives the card a page for each receive descriptor. *)
Definition rx_fill (i : nat) : K unit :=
  buf <- kalloc ;;
  if buf =? 0 then panic "e1000 rx kalloc"
  else
    upd_nic (fun d => set_rx_bufs (<[i := buf]> (rx_bufs d)) d) ;;
    upd_nic (fun d => set_rx_ring (alter (set_rx_addr (V2P buf)) i (rx_ring d)) d) ;;
    upd_nic (fun d => set_rx_ring (alter (set_rx_status 0) i (rx_ring d)) d).

(** [tx_ring_va] and [rx_ring_va] are the addresses of the static rings. *)
Definition e1000_init (tx_ring_va rx_ring_va : Z) : K unit :=
  cprintf "e1000_init: ENTER xregs" ;;
  initlock e1000_lock "e1000" ;;
  reg_write E1000_IMS 0 ;;
  c <- reg_read E1000_CTL ;;
  reg_write E1000_CTL (Z.lor c E1000_CTL_RST) ;;
  reg_write E1000_IMS 0 ;;
  upd_nic (set_tx_ring (replicate 16 tx_desc0)) ;;
  for_each (seq 0 16) (fun i =>
    upd_nic (fun d => set_tx_ring (alter (set_tx_status E1000_TXD_STAT_DD) i (tx_ring d)) d) ;;
    upd_nic (fun d => set_tx_ring (alter (set_tx_addr 0) i (tx_ring d)) d) ;;
    upd_nic (fun d => set_tx_bufs (<[i := 0]> (tx_bufs d)) d)) ;;
  let tx_pa := V2P tx_ring_va in
  reg_write E1000_TDBAL (u32 tx_pa) ;;
  reg_write E1000_TDBAH (u32 (Z.shiftr tx_pa 32)) ;;
  reg_write E1000_TDLEN sizeof_tx_ring ;;
  reg_write E1000_TDT 0 ;;
  reg_write E1000_TDH 0 ;;
  upd_nic (set_rx_ring (replicate 16 rx_desc0)) ;;
  for_each (seq 0 16) rx_fill ;;
  let rx_pa := V2P rx_ring_va in
  reg_write E1000_RDBAL (u32 rx_pa) ;;
  reg_write E1000_RDBAH (u32 (Z.shiftr rx_pa 32)) ;;
  reg_write E1000_RDLEN sizeof_rx_ring ;;
  reg_write E1000_RDH 0 ;;
  reg_write E1000_RDT (RX_RING_SIZE - 1) ;;
  reg_write E1000_RA 0x12005452 ;;
  reg_write (E1000_RA + 1) (Z.lor 0x5634 (s32 (Z.shiftl 1 31))) ;;
  for_each (seq 0 128) (fun i => reg_write (E1000_MTA + Z.of_nat i) 0) ;;
  reg_write E1000_TCTL
    (Z.lor (Z.lor (Z.lor E1000_TCTL_EN E1000_TCTL_PSP)
      (Z.shiftl 0x10 E1000_TCTL_CT_SHIFT)) (Z.shiftl 0x40 E1000_TCTL_COLD_SHIFT)) ;;
  reg_write E1000_TIPG (Z.lor (Z.lor 10 (Z.shiftl 8 10)) (Z.shiftl 6 20)) ;;
  reg_write E1000_RCTL
    (Z.lor (Z.lor (Z.lor E1000_RCTL_EN E1000_RCTL_BAM) E1000_RCTL_SZ_2048)
      E1000_RCTL_SECRC) ;;
  reg_write E1000_RDTR 0 ;;
  reg_write E1000_RADV 0 ;;
  reg_write E1000_IMS (Z.shiftl 1 7) ;;
  status <- reg_read E1000_STATUS ;;
  cprintf "e1000_init: STATUS" ;;
  tdt_before <- reg_read E1000_TDT ;;
  ret tt.

(** ** Transmission *)

Definition e1000_transmit (buf len : Z) : K Z :=
  pushcli ;;
  acquire e1000_lock ;;
  t_raw <- reg_read E1000_TDT ;;
  let t := t_raw mod TX_RING_SIZE in
  d <- get_elem tx_ring t ;;
  if Z.land (tx_status d) E1000_TXD_STAT_DD =? 0 then
    release e1000_lock ;; popcli ;; ret (-1)
  else
    old <- get_elem tx_bufs t ;;
    when (negb (old =? 0)) do kfree old ;;
    upd_nic (fun n => set_tx_ring (alter (fun d =>
      mk_tx_desc (V2P buf) (u16 len) (tx_cso d)
        (Z.lor E1000_TXD_CMD_EOP E1000_TXD_CMD_RS) 0 (tx_css d) (tx_special d))
      (Z.to_nat t) (tx_ring n)) n) ;;
    upd_nic (fun n => set_tx_bufs (<[Z.to_nat t := buf]> (tx_bufs n)) n) ;;
    reg_write E1000_TDT ((t + 1) mod TX_RING_SIZE) ;;
    release e1000_lock ;;
    popcli ;;
    ret 0.

(** ** Reception *)

Section Recv.

(** The network stack's entry point. *)
Variable net_rx : Z -> Z -> K unit.

(** One turn of the loop: [false] when no packet is waiting. *)
Definition e1000_recv_one : K bool :=
  acquire e1000_lock ;;
  r <- reg_read E1000_RDT ;;
  let i := (u32 (r + 1)) mod RX_RING_SIZE in
  d <- get_elem rx_ring i ;;
  if Z.land (rx_status d) E1000_RXD_STAT_DD =? 0 then
    release e1000_lock ;; ret false
  else
    let len := rx_length d in
    src <- get_elem rx_bufs i ;;
    dst <- (if (0 <? len) && (len <=? PGSIZE) then
              dst <- kalloc ;;
              when (negb (dst =? 0)) do
                kmem_op [(dst, len); (src, len)] (fun m => memmove m dst src (Z.to_nat len)) ;;
              ret dst
            else ret 0) ;;
    upd_nic (fun n => set_rx_ring (alter (set_rx_status 0) (Z.to_nat i) (rx_ring n)) n) ;;
    reg_write E1000_RDT i ;;
    release e1000_lock ;;
    when (negb (dst =? 0)) do net_rx dst len ;;
    ret true.

(** [for (;;)]: the fuel bounds the packets of one interrupt. *)
Fixpoint e1000_recv (fuel : nat) : K unit :=
  match fuel with
  | O => out_of_fuel
  | S k => more <- e1000_recv_one ;; if (more : bool) then e1000_recv k else ret tt
  end.

Definition e1000_intr (fuel : nat) : K unit :=
  reg_write E1000_ICR 0xffffffff ;;
  e1000_recv fuel.

End Recv.
