(* ===== verification/Pci.v ===== *)
(** * pci.c, and ioapicenable of ioapic.c

    The scan of the first PCI bus for the network card.  The configuration
    ports and the I/O APIC are hardware: the functions are written over the
    operations of the class [Bus], and the class [BusLaws] states what
    configuration mechanism 1 documents: the word at the data port is the one
    whose address was last written to the address port. *)

From S2P Require Import Prelude Memory CString Machine Spinlock Kalloc E1000.
Local Open Scope Z_scope.
Local Open Scope kernel_scope.

(** ** Hardware *)

Class Bus (B : Type) := {
  outl : Z -> Z -> B -> B;
  inl : Z -> B -> Z;
  ioapic_reg : Z -> Z -> B -> B;       (* write a register of the I/O APIC *)
}.

Definition PCI_CONFIG_ADDR : Z := 0xCF8.
Definition PCI_CONFIG_DATA : Z := 0xCFC.

(** [cfg b a] is the configuration word at address [a]; [redir b] the table of
    the I/O APIC. *)
Class BusLaws (B : Type) `{Bus B} := {
  cfg : B -> Z -> Z;
  redir : B -> Z -> Z;
  cfg_read a b : inl PCI_CONFIG_DATA (outl PCI_CONFIG_ADDR a b) = cfg b a;
  cfg_latch a b : cfg (outl PCI_CONFIG_ADDR a b) = cfg b;
  cfg_write a v b :
    cfg (outl PCI_CONFIG_DATA v (outl PCI_CONFIG_ADDR a b)) = fun x => if x =? a then v else cfg b x;
  redir_outl p v b : redir (outl p v b) = redir b;
  redir_write r v b : redir (ioapic_reg r v b) = fun x => if x =? r then v else redir b x;
  cfg_ioapic r v b : cfg (ioapic_reg r v b) = cfg b;
}.

(** ** pci.c *)

Definition PCI_ADDR (bus dev func off : Z) : Z :=
  Z.lor (Z.lor (Z.lor (Z.lor 0x80000000 (Z.shiftl bus 16)) (Z.shiftl dev 11)) (Z.shiftl func 8))
    (Z.land off 0xFC).

(** Offsets in the configuration space, the identity of the card, and bits of
    the command register. *)
Inductive pci_const :=
| PCI_VENDOR_ID | PCI_COMMAND | PCI_BAR0 | PCI_INT_LINE | E1000_VENDOR | E1000_DEVICE
| PCI_CMD_MEM | PCI_CMD_BUSMSTR.

(** Their values. *)
Definition pci_value (x : pci_const) : Z :=
  match x with
  | PCI_VENDOR_ID => 0x00 | PCI_COMMAND => 0x04 | PCI_BAR0 => 0x10 | PCI_INT_LINE => 0x3C
  | E1000_VENDOR => 0x8086 | E1000_DEVICE => 0x100E | PCI_CMD_MEM => 0x2
  | PCI_CMD_BUSMSTR => 0x4
  end.

Coercion pci_value : pci_const >-> Z.

(** ioapic.c *)
Definition REG_TABLE : Z := 0x10.
Definition T_IRQ0 : Z := 32.

Section Pci.
Context {B : Type} `{Bus B}.

Definition pci_read (bus dev func off : Z) (b : B) : Z * B :=
  let b := outl PCI_CONFIG_ADDR (PCI_ADDR bus dev func off) b in
  (inl PCI_CONFIG_DATA b, b).

Definition pci_write (bus dev func off val : Z) (b : B) : B :=
  outl PCI_CONFIG_DATA val (outl PCI_CONFIG_ADDR (PCI_ADDR bus dev func off) b).

Definition ioapicenable (irq cpunum : Z) (b : B) : B :=
  ioapic_reg (REG_TABLE + 2 * irq + 1) (Z.shiftl cpunum 24)
    (ioapic_reg (REG_TABLE + 2 * irq) (T_IRQ0 + irq) b).

(** The driver's [e1000_init] with the address of the card's registers. *)
Context (init_card : Z -> K unit).

(** The body of the [if] for the card at slot [dev]. *)
Definition pci_attach (dev : Z) (b : B) : K B :=
  cprintf "pci: found e1000 device at slot %d" ;;
  let '(cmd, b) := pci_read 0 dev 0 PCI_COMMAND b in
  let cmd := Z.lor cmd (Z.lor PCI_CMD_MEM PCI_CMD_BUSMSTR) in
  let b := pci_write 0 dev 0 PCI_COMMAND cmd b in
  let '(bar, b) := pci_read 0 dev 0 PCI_BAR0 b in
  let bar0 := Z.land bar (u32 (Z.lnot 0xF)) in
  init_card (P2V bar0) ;;
  let '(line, b) := pci_read 0 dev 0 PCI_INT_LINE b in
  ret (ioapicenable (Z.land line 0xFF) 0 b).

(** The slots [dev], [dev + 1], ... of which [n] are left. *)
Fixpoint pci_scan (n : nat) (dev : Z) (b : B) : K B :=
  match n with
  | O => cprintf "pci: no e1000 device found" ;; ret b
  | S k =>
      let '(id, b) := pci_read 0 dev 0 PCI_VENDOR_ID b in
      if id =? 0xFFFFFFFF then pci_scan k (dev + 1) b
      else
        let vendor := Z.land id 0xFFFF in
        let device := Z.shiftr id 16 in
        if (vendor =? E1000_VENDOR) && (device =? E1000_DEVICE) then pci_attach dev b
        else pci_scan k (dev + 1) b
  end.

Definition pci_init (b : B) : K B := pci_scan 32 0 b.

End Pci.

(** ** What the scan does *)

(** The identification word of the card: device above vendor. *)
Definition E1000_ID : Z := E1000_DEVICE * 2 ^ 16 + E1000_VENDOR.

Lemma id_matches id :
  (Z.land id 0xFFFF =? E1000_VENDOR) && (Z.shiftr id 16 =? E1000_DEVICE) = (id =? E1000_ID).
Proof.
  change 0xFFFF with (Z.ones 16). rewrite Z.land_ones, Z.shiftr_div_pow2 by lia.
  unfold E1000_ID. cbn [pci_value].
  destruct (Z.eqb_spec (id mod 2 ^ 16) 0x8086), (Z.eqb_spec (id / 2 ^ 16) 0x100E),
    (Z.eqb_spec id (0x100E * 2 ^ 16 + 0x8086)); try done; exfalso; lia_mod.
Qed.

(** The addresses of the registers of one slot are different. *)
Lemma addr_command dev :
  0 <= dev < 32 ->
  PCI_ADDR 0 dev 0 PCI_BAR0 <> PCI_ADDR 0 dev 0 PCI_COMMAND /\
  PCI_ADDR 0 dev 0 PCI_INT_LINE <> PCI_ADDR 0 dev 0 PCI_COMMAND.
Proof.
  intros Hd.
  assert (H : forallb (fun k => let d := Z.of_nat k in
    negb (PCI_ADDR 0 d 0 PCI_BAR0 =? PCI_ADDR 0 d 0 PCI_COMMAND) &&
    negb (PCI_ADDR 0 d 0 PCI_INT_LINE =? PCI_ADDR 0 d 0 PCI_COMMAND)) (seq 0 32) = true)
    by (vm_compute; reflexivity).
  rewrite forallb_forall in H. specialize (H (Z.to_nat dev) ltac:(apply in_seq; lia)).
  cbv zeta in H. rewrite Z2Nat.id in H by lia.
  apply andb_true_iff in H as [H1%negb_true_iff H2%negb_true_iff].
  by apply Z.eqb_neq in H1, H2.
Qed.

Section Scan.
Context {B : Type} `{BusLaws B} (init_card : Z -> K unit).

Definition logged (msg : string) (s : kstate) : kstate := set_klog (msg :: klog s) s.

(** The word of register [off] at slot [dev] of the first bus. *)
Definition slot (b : B) (dev off : Z) : Z := cfg b (PCI_ADDR 0 dev 0 off).

Lemma pci_read_eq dev off b :
  pci_read 0 dev 0 off b = (slot b dev off, outl PCI_CONFIG_ADDR (PCI_ADDR 0 dev 0 off) b).
Proof. unfold pci_read, slot. by rewrite cfg_read. Qed.

(** Slots without the card are passed over; the bus keeps its words. *)
Lemma pci_scan_skip n k dev b s :
  (forall d, dev <= d < dev + Z.of_nat k -> slot b d PCI_VENDOR_ID <> E1000_ID) ->
  exists b', pci_scan init_card (k + n) dev b s = pci_scan init_card n (dev + Z.of_nat k) b' s /\
    cfg b' = cfg b /\ redir b' = redir b.
Proof.
  revert dev b. induction k as [|k IH]; intros dev b Hd.
  { exists b. rewrite Z.add_0_r. done. }
  cbn [Nat.add pci_scan]. rewrite pci_read_eq.
  set (b1 := outl _ _ _).
  assert (Hc : cfg b1 = cfg b) by apply cfg_latch.
  assert (Hr : redir b1 = redir b) by apply redir_outl.
  destruct (IH (dev + 1) b1) as (b' & E & Hc' & Hr').
  { intros d Hdd. unfold slot. rewrite Hc. apply Hd. lia. }
  exists b'. rewrite Hc', Hr', Hc, Hr. split; [|done].
  rewrite id_matches, (proj2 (Z.eqb_neq _ _) (Hd dev ltac:(lia))).
  replace (dev + Z.of_nat (S k)) with (dev + 1 + Z.of_nat k) by lia.
  by destruct (_ =? 0xFFFFFFFF).
Qed.

(** The configuration after the card at [dev] was enabled. *)
Definition enabled (b : B) (dev : Z) : Z -> Z := fun x =>
  if x =? PCI_ADDR 0 dev 0 PCI_COMMAND
  then Z.lor (slot b dev PCI_COMMAND) (Z.lor PCI_CMD_MEM PCI_CMD_BUSMSTR) else cfg b x.

(** The I/O APIC with the interrupt of the card sent to the first CPU. *)
Definition routed (b : B) (dev : Z) : Z -> Z := fun x =>
  let irq := Z.land (slot b dev PCI_INT_LINE) 0xFF in
  if x =? REG_TABLE + 2 * irq + 1 then 0
  else if x =? REG_TABLE + 2 * irq then T_IRQ0 + irq else redir b x.

Lemma pci_attach_ok dev b s s1 :
  0 <= dev < 32 ->
  init_card (P2V (Z.land (slot b dev PCI_BAR0) (u32 (Z.lnot 0xF))))
    (logged "pci: found e1000 device at slot %d" s) = Ok tt s1 ->
  exists b', pci_attach init_card dev b s = Ok b' s1 /\ cfg b' = enabled b dev /\
    redir b' = routed b dev.
Proof.
  intros Hd Hi. destruct (addr_command dev Hd) as [N1 N2]. unfold pci_attach.
  rewrite (bind_ok _ _ s tt (logged "pci: found e1000 device at slot %d" s)) by done.
  rewrite pci_read_eq. cbv zeta. set (b1 := outl _ _ b). set (cmd := Z.lor _ _).
  assert (Hc2 : cfg (pci_write 0 dev 0 PCI_COMMAND cmd b1) = enabled b dev).
  { unfold pci_write. rewrite cfg_write. unfold b1. by rewrite cfg_latch. }
  assert (Hr2 : redir (pci_write 0 dev 0 PCI_COMMAND cmd b1) = redir b).
  { unfold pci_write, b1. by rewrite !redir_outl. }
  rewrite pci_read_eq. set (b3 := outl _ _ _).
  assert (Hc3 : cfg b3 = enabled b dev) by (unfold b3; by rewrite cfg_latch).
  assert (slot (pci_write 0 dev 0 PCI_COMMAND cmd b1) dev PCI_BAR0 = slot b dev PCI_BAR0) as ->.
  { unfold slot. rewrite Hc2. unfold enabled. by rewrite (proj2 (Z.eqb_neq _ _) N1). }
  rewrite (bind_ok _ _ _ _ _ Hi), pci_read_eq.
  assert (slot b3 dev PCI_INT_LINE = slot b dev PCI_INT_LINE) as ->.
  { unfold slot. rewrite Hc3. unfold enabled. by rewrite (proj2 (Z.eqb_neq _ _) N2). }
  eexists. split; [done|]. unfold ioapicenable. rewrite !cfg_ioapic, cfg_latch, Hc3.
  split; [done|]. rewrite !redir_write, redir_outl. unfold b3. by rewrite redir_outl, Hr2.
Qed.


End Scan.

(** A bus with the card in slot 3, for the example. *)
Module PciDemo.

Record bus := mk_bus { latch : Z; words : Z -> Z; table : Z -> Z }.

#[global] Instance bus_ops : Bus bus := {
  outl p v b := if p =? PCI_CONFIG_ADDR then mk_bus v (words b) (table b)
                else if p =? PCI_CONFIG_DATA
                then mk_bus (latch b) (fun x => if x =? latch b then v else words b x) (table b)
                else b;
  inl p b := if p =? PCI_CONFIG_DATA then words b (latch b) else 0;
  ioapic_reg r v b := mk_bus (latch b) (words b) (fun x => if x =? r then v else table b x);
}.

#[global] Instance bus_laws : BusLaws bus.
Proof.
  refine (Build_BusLaws bus bus_ops words table _ _ _ _ _ _); try reflexivity.
  intros p v b. simpl. destruct (p =? PCI_CONFIG_ADDR); [done|]. by destruct (p =? PCI_CONFIG_DATA).
Defined.

Definition machine : bus :=
  mk_bus 0 (fun a => if a =? PCI_ADDR 0 3 0 PCI_VENDOR_ID then E1000_ID
                     else if a =? PCI_ADDR 0 3 0 PCI_BAR0 then 0xfeb80000
                     else if a =? PCI_ADDR 0 3 0 PCI_INT_LINE then 11 else 0xffffffff)
    (fun _ => 0).

(** A driver that only reports where the card is. *)
Definition driver (regs : Z) : K unit :=
  if regs =? P2V 0xfeb80000 then cprintf "e1000" else panic "regs".

End PciDemo.

