(* ===== verification/Sysarg.v ===== *)
(** * syscall.c: fetching system call arguments

    The arguments of a system call are registers saved in the trap frame of
    the current process; string and pointer arguments are checked against the
    size of the process. *)

From S2P Require Import Prelude Memory CString Machine Spinlock Kalloc Proc Vm.
Local Open Scope Z_scope.
Local Open Scope kernel_scope.

Definition fetcharg (n : Z) : K Z :=
  i <- myproc ;;
  p <- get_proc i ;;
  let reg r := kload 8 (tf p + r) in
  if n =? 0 then reg tf_rdi
  else if n =? 1 then reg tf_rsi
  else if n =? 2 then reg tf_rdx
  else if n =? 3 then reg tf_r10
  else if n =? 4 then reg tf_r8
  else if n =? 5 then reg tf_r9
  else panic "failed fetch".

(** [argint] and [argaddr] always return 0; they are modelled by the value
    that they store. *)
Definition argint (n : Z) : K Z := x <- fetcharg n ;; ret (s32 x).
Definition argaddr (n : Z) : K Z := fetcharg n.

Definition argptr (n size : Z) : K (option Z) :=
  a <- argaddr n ;;
  i <- myproc ;;
  p <- get_proc i ;;
  if (size <? 0) || (sz p <=? u32 a) || (sz p <? u32 (u32 a + size)) then ret None
  else ret (Some a).

(** A load by the kernel through the page table in use, as a dereference of [addr]
    with a user address does: the entry must be present. *)
Definition kuser_byte (addr : Z) : K byte :=
  c <- gets this_cpu ;;
  pte <- walkpgdir (P2V (cr3 c)) addr false ;;
  if pte =? 0 then fault else
  x <- kload 8 pte ;;
  if negb (has x PTE_P) then fault else
  b <- kload 1 (P2V (PTE_ADDR x) + addr mod PGSIZE) ;;
  ret (byte.of_Z b).

Fixpoint kuser_bytes (n : nat) (addr : Z) : K (list byte) :=
  match n with
  | O => ret []
  | S k => b <- kuser_byte addr ;; l <- kuser_bytes k (addr + 1) ;; ret (b :: l)
  end.

(** A store through the page table in use; the kernel runs with write
    protection on, so that the entry must be present and writable. *)
Definition kuser_put (addr : Z) (v : byte) : K unit :=
  c <- gets this_cpu ;;
  pte <- walkpgdir (P2V (cr3 c)) addr false ;;
  if pte =? 0 then fault else
  x <- kload 8 pte ;;
  if negb (has x PTE_P) || negb (has x PTE_W) then fault else
  kstore 1 (P2V (PTE_ADDR x) + addr mod PGSIZE) (byte.unsigned v).

Fixpoint kuser_puts (addr : Z) (l : list byte) : K unit :=
  match l with
  | [] => ret tt
  | b :: l => kuser_put addr b ;; kuser_puts (addr + 1) l
  end.

Definition fetchint (addr : Z) : K (option Z) :=
  i <- myproc ;;
  p <- get_proc i ;;
  if (addr <? PGSIZE) || (sz p <=? addr) || (sz p <? u64 (addr + 4)) then ret None
  else l <- kuser_bytes 4 addr ;; ret (Some (s32 (le_combine l))).

Definition fetchaddr (addr : Z) : K (option Z) :=
  i <- myproc ;;
  p <- get_proc i ;;
  if (addr <? PGSIZE) || (sz p <=? addr) || (sz p <? u64 (addr + 8)) then ret None
  else l <- kuser_bytes 8 addr ;; ret (Some (le_combine l)).

(** The scan for the terminating zero, up to the end of the process. *)
Fixpoint fetchstr_loop (fuel : nat) (s start ep : Z) : K Z :=
  if s <? ep then
    match fuel with
    | O => out_of_fuel
    | S k =>
        b <- kuser_byte s ;;
        if byte.unsigned b =? 0 then ret (s32 (s - start))
        else fetchstr_loop k (s + 1) start ep
    end
  else ret (-1).

(** The fuel is the size of the process past the string's start. *)
Definition fetchstr (addr : Z) : K Z :=
  i <- myproc ;;
  p <- get_proc i ;;
  if (addr <? PGSIZE) || (sz p <=? addr) then ret (-1)
  else fetchstr_loop (Z.to_nat (sz p - addr)) addr addr (sz p).

(** The string pointer passes through an [int]; the result pairs the length
    with the pointer. *)
Definition argstr (n : Z) : K (Z * Z) :=
  addr <- argint n ;;
  r <- fetchstr (u64 addr) ;;
  ret (r, u64 addr).
