(* ===== verification/Sleeplock.v ===== *)
(** * sleeplock.c

    Locks whose waiters give up the CPU: the lock word is guarded by a spin
    lock inside the structure, and a waiter sleeps on the lock's address. *)

From S2P Require Import Prelude Memory FsState Machine Spinlock Kalloc Proc.
Local Open Scope Z_scope.
Local Open Scope kernel_scope.

(** ** Static locks of the file layers *)

Definition bcache_lock : Z := 6.
Definition icache_lock : Z := 7.
Definition ftable_lock : Z := 8.
Definition log_lock : Z := 9.
Definition cons_lock : Z := 10.
Definition input_lock : Z := 11.

(** The addresses of the sleep locks inside [bcache.buf] and [icache.inode]. *)
Definition buf_lock (b : nat) : Z := 0x10000 + 16 * Z.of_nat b.
Definition inode_lock (i : nat) : Z := 0x20000 + 16 * Z.of_nat i.

(** [&lk->lk] *)
Definition slk (lk : Z) : Z := lk + 8.

(** ** Operations *)

Definition modify_fs (f : fsys -> fsys) : K unit := modify (fun s => set_fs (f (fs s)) s).

Definition get_slock (lk : Z) : K sleeplock := fun s =>
  match slocks (fs s) !! lk with Some l => Ok l s | None => Fault end.

Definition put_slock (lk : Z) (f : sleeplock -> sleeplock) : K unit :=
  modify_fs (fun x => set_slocks (alter f lk (slocks x)) x).

Definition initsleeplock (lk : Z) (name : string) : K unit :=
  initlock (slk lk) "sleep lock" ;;
  modify_fs (fun x => set_slocks (<[lk := mk_sleeplock 0 name 0]> (slocks x)) x).

(** The number of times the model of a waiting loop goes back to sleep. *)
Definition wait_limit : nat := 64.

(** [while (lk->locked) sleep(lk, &lk->lk);] *)
Fixpoint acquiresleep_wait (fuel : nat) (lk : Z) : K unit :=
  l <- get_slock lk ;;
  if sl_locked l =? 0 then ret tt
  else
    match fuel with
    | O => out_of_fuel
    | S k => sleep lk (slk lk) ;; acquiresleep_wait k lk
    end.

Definition acquiresleep (lk : Z) : K unit :=
  acquire (slk lk) ;;
  acquiresleep_wait wait_limit lk ;;
  i <- myproc ;;
  p <- get_proc i ;;
  put_slock lk (fun l => mk_sleeplock 1 (sl_name l) (pid p)) ;;
  release (slk lk).

Definition releasesleep (lk : Z) : K unit :=
  acquire (slk lk) ;;
  put_slock lk (fun l => mk_sleeplock 0 (sl_name l) 0) ;;
  wakeup lk ;;
  release (slk lk).

Definition holdingsleep (lk : Z) : K bool :=
  acquire (slk lk) ;;
  l <- get_slock lk ;;
  release (slk lk) ;;
  ret (negb (sl_locked l =? 0)).
