(* ===== verification/Bio.v ===== *)
(** * bio.c and memide.c

    The buffer cache: [NBUF] buffers on a doubly linked list in the order of
    their last use, each a copy of one disk block; and the disk itself, which
    memide.c keeps in memory. *)

From S2P Require Import Prelude Memory FsState Machine Spinlock Kalloc Proc Sleeplock.
Local Open Scope Z_scope.
Local Open Scope kernel_scope.

(** ** Fields of a buffer *)

Definition set_flags v b := mk_buf v (b_dev b) (b_blockno b) (b_refcnt b) (b_prev b) (b_next b)
  (b_data b).
Definition set_refcnt v b := mk_buf (b_flags b) (b_dev b) (b_blockno b) v (b_prev b) (b_next b)
  (b_data b).
Definition set_prev v b := mk_buf (b_flags b) (b_dev b) (b_blockno b) (b_refcnt b) v (b_next b)
  (b_data b).
Definition set_next v b := mk_buf (b_flags b) (b_dev b) (b_blockno b) (b_refcnt b) (b_prev b) v
  (b_data b).
Definition set_data v b := mk_buf (b_flags b) (b_dev b) (b_blockno b) (b_refcnt b) (b_prev b)
  (b_next b) v.

Definition upd_buf (i : nat) (f : buf -> buf) : K unit :=
  modify_fs (fun x => set_bufs (alter f i (bufs x)) x).

Definition get_buf (i : nat) : K buf := fun s =>
  match bufs (fs s) !! i with Some b => Ok b s | None => Fault end.

(** [&bcache.head] *)
Definition head : nat := NBUF.

Definition flag_set (v flag : Z) : bool := negb (Z.land v flag =? 0).

(** ** memide.c *)

Definition BLK : nat := Z.to_nat BSIZE.

(** [memdisk] is the list [disk] and [disksize] its length. *)
Definition iderw (b : nat) : K unit :=
  h <- holdingsleep (buf_lock b) ;;
  if negb h then panic "iderw: buf not locked" else
  x <- get_buf b ;;
  if Z.land (b_flags x) (Z.lor B_VALID B_DIRTY) =? B_VALID then panic "iderw: nothing to do" else
  if negb (b_dev x =? 1) then panic "iderw: request not for disk 1" else
  d <- gets (fun s => disk (fs s)) ;;
  if Z.of_nat (length d) <=? b_blockno x then panic "iderw: block out of range" else
  let p := Z.to_nat (b_blockno x) in
  (if flag_set (b_flags x) B_DIRTY then
     upd_buf b (set_flags (Z.land (b_flags x) (Z.lnot B_DIRTY))) ;;
     modify_fs (fun f => set_disk (<[p := b_data x]> (disk f))
                           ((b_blockno x, b_data x) :: dwrites f) f)
   else
     upd_buf b (set_data (d !!! p))) ;;
  x <- get_buf b ;;
  upd_buf b (set_flags (Z.lor (b_flags x) B_VALID)).

(** ** bio.c *)

(** Put [b] at the front of the list. *)
Definition push_front (b : nat) : K unit :=
  h <- get_buf head ;;
  upd_buf b (set_next (b_next h)) ;;
  upd_buf b (set_prev head) ;;
  upd_buf (b_next h) (set_prev b) ;;
  upd_buf head (set_next b).

(** The sleep lock of a buffer is initialised after its links. *)
Definition binit : K unit :=
  initlock bcache_lock "bcache" ;;
  upd_buf head (set_prev head) ;;
  upd_buf head (set_next head) ;;
  for_each (seq 0 NBUF) (fun b =>
    h <- get_buf head ;;
    upd_buf b (set_next (b_next h)) ;;
    upd_buf b (set_prev head) ;;
    initsleeplock (buf_lock b) "buffer" ;;
    h <- get_buf head ;;
    upd_buf (b_next h) (set_prev b) ;;
    upd_buf head (set_next b)).

(** Walk the list from [b] until a buffer satisfies [f] or the head is met. *)
Fixpoint walk (fuel : nat) (next : buf -> nat) (f : buf -> bool) (b : nat) : K (option nat) :=
  if bool_decide (b = head) then ret None
  else
    match fuel with
    | O => out_of_fuel
    | S k =>
        x <- get_buf b ;;
        if f x then ret (Some b) else walk k next f (next x)
    end.

Definition bget (dev blockno : Z) : K nat :=
  acquire bcache_lock ;;
  h <- get_buf head ;;
  c <- walk NBUF b_next (fun b => (b_dev b =? dev) && (b_blockno b =? blockno)) (b_next h) ;;
  match c with
  | Some b =>
      x <- get_buf b ;;
      upd_buf b (set_refcnt (u32 (b_refcnt x + 1))) ;;
      release bcache_lock ;;
      acquiresleep (buf_lock b) ;;
      ret b
  | None =>
      c <- walk NBUF b_prev (fun b => (b_refcnt b =? 0) && negb (flag_set (b_flags b) B_DIRTY))
             (b_prev h) ;;
      match c with
      | Some b =>
          upd_buf b (fun x => mk_buf 0 dev blockno 1 (b_prev x) (b_next x) (b_data x)) ;;
          release bcache_lock ;;
          acquiresleep (buf_lock b) ;;
          ret b
      | None => panic "bget: no buffers"
      end
  end.

Definition bread (dev blockno : Z) : K nat :=
  b <- bget dev blockno ;;
  x <- get_buf b ;;
  when (negb (flag_set (b_flags x) B_VALID)) do iderw b ;;
  ret b.

Definition bwrite (b : nat) : K unit :=
  h <- holdingsleep (buf_lock b) ;;
  if negb h then panic "bwrite" else
  x <- get_buf b ;;
  upd_buf b (set_flags (Z.lor (b_flags x) B_DIRTY)) ;;
  iderw b.

Definition brelse (b : nat) : K unit :=
  h <- holdingsleep (buf_lock b) ;;
  if negb h then panic "brelse" else
  releasesleep (buf_lock b) ;;
  acquire bcache_lock ;;
  x <- get_buf b ;;
  upd_buf b (set_refcnt (u32 (b_refcnt x - 1))) ;;
  when (u32 (b_refcnt x - 1) =? 0) do (
    upd_buf (b_next x) (set_prev (b_prev x)) ;;
    upd_buf (b_prev x) (set_next (b_next x)) ;;
    push_front b) ;;
  release bcache_lock.
