(* ===== verification/Log.v ===== *)
(** * log.c

    The redo log: the blocks a transaction changed stay in the buffer cache
    until the last system call of the transaction ends; [commit] then writes
    them to the log, writes the header (the commit point), installs them and
    clears the header; [recover_from_log] replays a committed log at boot. *)

From S2P Require Import Prelude Memory FsState Machine Spinlock Kalloc Proc Sleeplock Bio.
Local Open Scope Z_scope.
Local Open Scope kernel_scope.

(** ** Words in the data of a block *)

Definition word (n : nat) (l : list byte) (off : nat) : Z := le_combine (take n (drop off l)).
Definition put_word (n : nat) (off : nat) (v : Z) (l : list byte) : list byte :=
  splice off (le_split n v) l.

(** ** Access to the log's state *)

Definition get_log : K log := gets (fun s => logst (fs s)).
Definition put_log (f : log -> log) : K unit := modify_fs (fun x => set_logst (f (logst x)) x).

Definition set_lh v l := mk_log (log_start l) (log_size l) (log_outstanding l)
  (log_committing l) (log_dev l) v.
Definition set_outstanding v l := mk_log (log_start l) (log_size l) v
  (log_committing l) (log_dev l) (log_lh l).
Definition set_committing v l := mk_log (log_start l) (log_size l) (log_outstanding l)
  v (log_dev l) (log_lh l).

Definition set_n v l := set_lh (mk_logheader v (lh_block (log_lh l))) l.
Definition set_block v l := set_lh (mk_logheader (lh_n (log_lh l)) v) l.

(** [log.lh.block[i]]; an index outside the array faults. *)
Definition lh_at (l : log) (i : nat) : K Z :=
  match lh_block (log_lh l) !! i with Some v => ret v | None => fault end.

Definition put_lh (i : nat) (v : Z) : K unit :=
  l <- get_log ;;
  if bool_decide (i < length (lh_block (log_lh l)))%nat
  then put_log (set_block (<[i := v]> (lh_block (log_lh l))))
  else fault.

(** [&log], the channel on which [begin_op] sleeps. *)
Definition log_chan : Z := log_lock.

(** ** fs.c: the super block *)

Definition sb_of (l : list byte) : superblock :=
  mk_superblock (word 4 l 0) (word 4 l 4) (word 4 l 8) (word 4 l 12) (word 4 l 16)
    (word 4 l 20) (word 4 l 24).

Definition readsb (dev : Z) : K superblock :=
  bp <- bread (u32 dev) 1 ;;
  x <- get_buf bp ;;
  brelse bp ;;
  ret (sb_of (b_data x)).

(** ** Moving blocks *)

Definition install_one (tail : nat) : K unit :=
  l <- get_log ;;
  lbuf <- bread (u32 (log_dev l)) (u32 (log_start l + Z.of_nat tail + 1)) ;;
  v <- lh_at l tail ;;
  dbuf <- bread (u32 (log_dev l)) (u32 v) ;;
  x <- get_buf lbuf ;;
  upd_buf dbuf (set_data (b_data x)) ;;
  bwrite dbuf ;;
  brelse lbuf ;;
  brelse dbuf.

(** The loops run while [tail < log.lh.n]; their bodies do not change it. *)
Definition install_trans : K unit :=
  l <- get_log ;;
  for_each (seq 0 (Z.to_nat (lh_n (log_lh l)))) install_one.

Definition read_head : K unit :=
  l <- get_log ;;
  b <- bread (u32 (log_dev l)) (u32 (log_start l)) ;;
  x <- get_buf b ;;
  let lh := b_data x in
  put_log (set_n (s32 (word 4 lh 0))) ;;
  for_each (seq 0 (Z.to_nat (s32 (word 4 lh 0)))) (fun i =>
    put_lh i (s32 (word 4 lh (4 + 4 * i)))) ;;
  brelse b.

Definition write_head : K unit :=
  l <- get_log ;;
  b <- bread (u32 (log_dev l)) (u32 (log_start l)) ;;
  upd_buf b (fun x => set_data (put_word 4 0 (lh_n (log_lh l)) (b_data x)) x) ;;
  for_each (seq 0 (Z.to_nat (lh_n (log_lh l)))) (fun i =>
    v <- lh_at l i ;;
    upd_buf b (fun x => set_data (put_word 4 (4 + 4 * i) v (b_data x)) x)) ;;
  bwrite b ;;
  brelse b.

Definition recover_from_log : K unit :=
  read_head ;;
  install_trans ;;
  put_log (set_n 0) ;;
  write_head.

(** [sizeof(struct logheader)] is 4 + 4 * LOGSIZE, below [BSIZE]. *)
Definition initlog (dev : Z) : K unit :=
  if BSIZE <=? 4 + 4 * LOGSIZE then panic "initlog: too big logheader" else
  initlock log_lock "log" ;;
  sb <- readsb dev ;;
  put_log (fun l => mk_log (s32 (sb_logstart sb)) (s32 (sb_nlog sb)) (log_outstanding l)
                      (log_committing l) dev (log_lh l)) ;;
  recover_from_log.

(** ** Transactions *)

(** [while(1)] of [begin_op]; the fuel bounds the times it sleeps. *)
Fixpoint begin_op_loop (fuel : nat) : K unit :=
  l <- get_log ;;
  if negb (log_committing l =? 0) ||
     (LOGSIZE <? lh_n (log_lh l) + (log_outstanding l + 1) * MAXOPBLOCKS) then
    match fuel with
    | O => out_of_fuel
    | S k => sleep log_chan log_lock ;; begin_op_loop k
    end
  else
    put_log (set_outstanding (log_outstanding l + 1)) ;;
    release log_lock.

Definition begin_op : K unit := acquire log_lock ;; begin_op_loop wait_limit.

Definition write_one (tail : nat) : K unit :=
  l <- get_log ;;
  to <- bread (u32 (log_dev l)) (u32 (log_start l + Z.of_nat tail + 1)) ;;
  v <- lh_at l tail ;;
  from <- bread (u32 (log_dev l)) (u32 v) ;;
  x <- get_buf from ;;
  upd_buf to (set_data (b_data x)) ;;
  bwrite to ;;
  brelse from ;;
  brelse to.

Definition write_log : K unit :=
  l <- get_log ;;
  for_each (seq 0 (Z.to_nat (lh_n (log_lh l)))) write_one.

Definition commit : K unit :=
  l <- get_log ;;
  when (0 <? lh_n (log_lh l)) do (
    write_log ;;
    write_head ;;
    install_trans ;;
    put_log (set_n 0) ;;
    write_head).

Definition end_op : K unit :=
  acquire log_lock ;;
  l <- get_log ;;
  put_log (set_outstanding (log_outstanding l - 1)) ;;
  if negb (log_committing l =? 0) then panic "log.committing" else
  let do_commit := log_outstanding l - 1 =? 0 in
  (if do_commit then put_log (set_committing 1) else wakeup log_chan) ;;
  release log_lock ;;
  when do_commit do (
    commit ;;
    acquire log_lock ;;
    put_log (set_committing 0) ;;
    wakeup log_chan ;;
    release log_lock).

(** The index at which [blockno] is logged, or [n]: the loop of [log_write]. *)
Fixpoint log_index (bs : list Z) (n : nat) (blockno : Z) : nat :=
  match n, bs with
  | S k, v :: bs => if u32 v =? blockno then O else S (log_index bs k blockno)
  | _, _ => O
  end.

Definition log_write (b : nat) : K unit :=
  l <- get_log ;;
  if (LOGSIZE <=? lh_n (log_lh l)) || (log_size l - 1 <=? lh_n (log_lh l))
  then panic "too big a transaction" else
  if log_outstanding l <? 1 then panic "log_write outside of trans" else
  acquire log_lock ;;
  l <- get_log ;;
  x <- get_buf b ;;
  let n := lh_n (log_lh l) in
  let i := log_index (lh_block (log_lh l)) (Z.to_nat n) (b_blockno x) in
  put_lh i (s32 (b_blockno x)) ;;
  when (Z.of_nat i =? n) do put_log (set_n (n + 1)) ;;
  upd_buf b (set_flags (Z.lor (b_flags x) B_DIRTY)) ;;
  release log_lock.
