(* ===== verification/Fs.v ===== *)
(** * fs.c: inodes, files and directories

    The block allocator, the inode cache, the content of inodes, directories
    and path names, over the buffer cache (Bio.v) and the log (Log.v). *)

From S2P Require Import Prelude Memory CString FsState Machine Spinlock Kalloc Proc Vm Sysarg.
From S2P Require Import Sleeplock Bio Log.
Local Open Scope Z_scope.
Local Open Scope kernel_scope.

(** ** fs.h *)

Definition sizeof_dinode : nat := 64.
Definition IPB : Z := BSIZE / 64.
Definition IBLOCK (i : Z) (s : superblock) : Z := u32 (i / IPB + sb_inodestart s).
Definition BPB : Z := BSIZE * 8.
Definition BBLOCK (b : Z) (s : superblock) : Z := u32 (b / BPB + sb_bmapstart s).

(** The layout of [struct dinode]: four shorts, the size, thirteen addresses. *)
Definition addrs_of (l : list byte) (o : nat) : list Z :=
  map (fun i => word 4 l (o + 12 + 4 * i)) (seq 0 13).

Definition put_addrs (o : nat) (a : list Z) (l : list byte) : list byte :=
  splice (o + 12) (concat (map (le_split 4) a)) l.

(** The offset in its block of inode [i]. *)
Definition dinode_off (i : Z) : nat := Z.to_nat (64 * (i mod IPB)).

(** ** Access to the state *)

Definition get_sb : K superblock := gets (fun s => sb (fs s)).

Definition set_iref v i := mk_inode (i_dev i) (i_inum i) v (i_flags i) (i_type i) (i_major i)
  (i_minor i) (i_nlink i) (i_size i) (i_addrs i).
Definition set_iflags v i := mk_inode (i_dev i) (i_inum i) (i_ref i) v (i_type i) (i_major i)
  (i_minor i) (i_nlink i) (i_size i) (i_addrs i).
Definition set_itype v i := mk_inode (i_dev i) (i_inum i) (i_ref i) (i_flags i) v (i_major i)
  (i_minor i) (i_nlink i) (i_size i) (i_addrs i).
Definition set_imajor v i := mk_inode (i_dev i) (i_inum i) (i_ref i) (i_flags i) (i_type i) v
  (i_minor i) (i_nlink i) (i_size i) (i_addrs i).
Definition set_iminor v i := mk_inode (i_dev i) (i_inum i) (i_ref i) (i_flags i) (i_type i)
  (i_major i) v (i_nlink i) (i_size i) (i_addrs i).
Definition set_inlink v i := mk_inode (i_dev i) (i_inum i) (i_ref i) (i_flags i) (i_type i)
  (i_major i) (i_minor i) v (i_size i) (i_addrs i).
Definition set_isize v i := mk_inode (i_dev i) (i_inum i) (i_ref i) (i_flags i) (i_type i)
  (i_major i) (i_minor i) (i_nlink i) v (i_addrs i).
Definition set_iaddrs v i := mk_inode (i_dev i) (i_inum i) (i_ref i) (i_flags i) (i_type i)
  (i_major i) (i_minor i) (i_nlink i) (i_size i) v.

Definition get_ip (ip : nat) : K inode := fun s =>
  match icache (fs s) !! ip with Some i => Ok i s | None => Fault end.
Definition upd_ip (ip : nat) (f : inode -> inode) : K unit :=
  modify_fs (fun x => set_icache (alter f ip (icache x)) x).

Definition upd_data (b : nat) (f : list byte -> list byte) : K unit :=
  upd_buf b (fun x => set_data (f (b_data x)) x).

(** ** Blocks *)

Definition bzero (dev bno : Z) : K unit :=
  bp <- bread (u32 dev) (u32 bno) ;;
  upd_data bp (fun _ => replicate BLK Byte.x00) ;;
  log_write bp ;;
  brelse bp.

(** Bit [bi] of a bitmap block, as [bp->data[bi/8] & (1 << (bi % 8))]. *)
Definition bm_byte (l : list byte) (bi : Z) : Z := byte.unsigned (l !!! Z.to_nat (bi / 8)).
Definition bm_mask (bi : Z) : Z := Z.shiftl 1 (bi mod 8).
Definition bm_test (l : list byte) (bi : Z) : bool := negb (Z.land (bm_byte l bi) (bm_mask bi) =? 0).
Definition bm_set (bi : Z) (l : list byte) : list byte :=
  <[Z.to_nat (bi / 8) := byte.of_Z (Z.lor (bm_byte l bi) (bm_mask bi))]> l.
Definition bm_clear (bi : Z) (l : list byte) : list byte :=
  <[Z.to_nat (bi / 8) := byte.of_Z (Z.land (bm_byte l bi) (Z.lnot (bm_mask bi)))]> l.

(** The inner loop of [balloc]: the first clear bit from [bi] on. *)
Fixpoint balloc_scan (fuel : nat) (l : list byte) (b bi size : Z) : option Z :=
  match fuel with
  | O => None
  | S k =>
      if (bi <? BPB) && (b + bi <? size) then
        if bm_test l bi then balloc_scan k l b (bi + 1) size else Some bi
      else None
  end.

Fixpoint balloc_loop (fuel : nat) (dev b : Z) : K Z :=
  s <- get_sb ;;
  if b <? sb_size s then
    match fuel with
    | O => out_of_fuel
    | S k =>
        bp <- bread dev (BBLOCK b s) ;;
        x <- get_buf bp ;;
        match balloc_scan (Z.to_nat BPB) (b_data x) b 0 (sb_size s) with
        | Some bi =>
            upd_data bp (bm_set bi) ;;
            log_write bp ;;
            brelse bp ;;
            bzero dev (b + bi) ;;
            ret (b + bi)
        | None =>
            brelse bp ;;
            balloc_loop k dev (b + BPB)
        end
    end
  else panic "balloc: out of blocks".

(** The fuel is the number of bitmap blocks. *)
Definition balloc (dev : Z) : K Z :=
  s <- get_sb ;;
  balloc_loop (Z.to_nat ((sb_size s + BPB - 1) / BPB)) dev 0.

Definition bfree (dev b : Z) : K unit :=
  s <- readsb dev ;;
  modify_fs (set_sb s) ;;
  bp <- bread (u32 dev) (BBLOCK b s) ;;
  x <- get_buf bp ;;
  let bi := b mod BPB in
  if negb (bm_test (b_data x) bi) then panic "freeing free block" else
  upd_data bp (bm_clear bi) ;;
  log_write bp ;;
  brelse bp.

(** ** Inodes *)

Definition iinit (dev : Z) : K unit :=
  initlock icache_lock "icache" ;;
  for_each (seq 0 NINODE) (fun i => initsleeplock (inode_lock i) "inode") ;;
  s <- readsb dev ;;
  modify_fs (set_sb s).

(** The scan of [iget]: an entry for the inode, or the first empty slot. *)
Fixpoint iget_scan (l : list inode) (i : nat) (dev inum : Z) (empty : option nat) :
    option nat * option nat :=
  match l with
  | [] => (None, empty)
  | x :: l =>
      if (0 <? i_ref x) && (i_dev x =? dev) && (i_inum x =? inum) then (Some i, empty)
      else iget_scan l (S i) dev inum
             (match empty with
              | Some e => Some e
              | None => if i_ref x =? 0 then Some i else None
              end)
  end.

Definition iget (dev inum : Z) : K nat :=
  acquire icache_lock ;;
  l <- gets (fun s => icache (fs s)) ;;
  match iget_scan l 0 dev inum None with
  | (Some ip, _) =>
      upd_ip ip (fun x => set_iref (i_ref x + 1) x) ;;
      release icache_lock ;;
      ret ip
  | (None, None) => panic "iget: no inodes"
  | (None, Some ip) =>
      upd_ip ip (fun x => mk_inode dev inum 1 0 (i_type x) (i_major x) (i_minor x) (i_nlink x)
                            (i_size x) (i_addrs x)) ;;
      release icache_lock ;;
      ret ip
  end.

Fixpoint ialloc_loop (fuel : nat) (dev type inum : Z) : K nat :=
  s <- get_sb ;;
  if inum <? sb_ninodes s then
    match fuel with
    | O => out_of_fuel
    | S k =>
        bp <- bread dev (IBLOCK inum s) ;;
        x <- get_buf bp ;;
        let o := dinode_off inum in
        if word 2 (b_data x) o =? 0 then
          upd_data bp (splice o (replicate sizeof_dinode Byte.x00)) ;;
          upd_data bp (put_word 2 o type) ;;
          log_write bp ;;
          brelse bp ;;
          iget dev inum
        else
          brelse bp ;;
          ialloc_loop k dev type (inum + 1)
    end
  else panic "ialloc: no inodes".

Definition ialloc (dev type : Z) : K nat :=
  s <- get_sb ;; ialloc_loop (Z.to_nat (sb_ninodes s)) dev type 1.

Definition iupdate (ip : nat) : K unit :=
  i <- get_ip ip ;;
  s <- get_sb ;;
  bp <- bread (i_dev i) (IBLOCK (i_inum i) s) ;;
  let o := dinode_off (i_inum i) in
  upd_data bp (put_word 2 o (i_type i)) ;;
  upd_data bp (put_word 2 (o + 2) (i_major i)) ;;
  upd_data bp (put_word 2 (o + 4) (i_minor i)) ;;
  upd_data bp (put_word 2 (o + 6) (i_nlink i)) ;;
  upd_data bp (put_word 4 (o + 8) (i_size i)) ;;
  upd_data bp (put_addrs o (i_addrs i)) ;;
  log_write bp ;;
  brelse bp.

Definition idup (ip : nat) : K nat :=
  acquire icache_lock ;;
  upd_ip ip (fun x => set_iref (i_ref x + 1) x) ;;
  release icache_lock ;;
  ret ip.

(** A null inode pointer is the panic of the test [ip == 0]. *)
Definition ilock (ip : nat) : K unit :=
  i <- get_ip ip ;;
  if i_ref i <? 1 then panic "ilock" else
  acquiresleep (inode_lock ip) ;;
  i <- get_ip ip ;;
  when (negb (flag_set (i_flags i) I_VALID)) do (
    s <- get_sb ;;
    bp <- bread (i_dev i) (IBLOCK (i_inum i) s) ;;
    x <- get_buf bp ;;
    let o := dinode_off (i_inum i) in
    let d := b_data x in
    upd_ip ip (fun i => mk_inode (i_dev i) (i_inum i) (i_ref i) (i_flags i)
      (s16 (word 2 d o)) (s16 (word 2 d (o + 2))) (s16 (word 2 d (o + 4)))
      (s16 (word 2 d (o + 6))) (word 4 d (o + 8)) (addrs_of d o)) ;;
    brelse bp ;;
    upd_ip ip (fun i => set_iflags (Z.lor (i_flags i) I_VALID) i) ;;
    i <- get_ip ip ;;
    when (i_type i =? 0) do panic "ilock: no type").

Definition iunlock (ip : nat) : K unit :=
  h <- holdingsleep (inode_lock ip) ;;
  i <- get_ip ip ;;
  if negb h || (i_ref i <? 1) then panic "iunlock" else
  releasesleep (inode_lock ip).

(** ** Inode content *)

(** [ip->addrs[k]]; an index outside the array faults. *)
Definition addr_at (i : inode) (k : nat) : K Z :=
  match i_addrs i !! k with Some a => ret a | None => fault end.

Definition put_addr (ip k : nat) (a : Z) : K unit :=
  upd_ip ip (fun i => set_iaddrs (<[k := a]> (i_addrs i)) i).

(** [addr = ip->addrs[k]], allocated when it is zero. *)
Definition bmap_direct (ip k : nat) : K Z :=
  i <- get_ip ip ;;
  a <- addr_at i k ;;
  if a =? 0 then
    a <- balloc (i_dev i) ;;
    put_addr ip k a ;;
    ret a
  else ret a.

Definition bmap (ip : nat) (bn : Z) : K Z :=
  if bn <? NDIRECT then bmap_direct ip (Z.to_nat bn)
  else
    let bn := bn - NDIRECT in
    if bn <? NINDIRECT then
      addr <- bmap_direct ip (Z.to_nat NDIRECT) ;;
      i <- get_ip ip ;;
      bp <- bread (i_dev i) addr ;;
      x <- get_buf bp ;;
      let addr := word 4 (b_data x) (Z.to_nat (4 * bn)) in
      addr <- (if addr =? 0 then
                 a <- balloc (i_dev i) ;;
                 upd_data bp (put_word 4 (Z.to_nat (4 * bn)) a) ;;
                 log_write bp ;;
                 ret a
               else ret addr) ;;
      brelse bp ;;
      ret addr
    else panic "bmap: out of range".

Definition itrunc (ip : nat) : K unit :=
  for_each (seq 0 (Z.to_nat NDIRECT)) (fun k =>
    i <- get_ip ip ;;
    a <- addr_at i k ;;
    when (negb (a =? 0)) do (bfree (i_dev i) a ;; put_addr ip k 0)) ;;
  let k := Z.to_nat NDIRECT in
  i <- get_ip ip ;;
  a <- addr_at i k ;;
  when (negb (a =? 0)) do (
    bp <- bread (i_dev i) a ;;
    for_each (seq 0 (Z.to_nat NINDIRECT)) (fun j =>
      x <- get_buf bp ;;
      let aj := word 4 (b_data x) (4 * j) in
      when (negb (aj =? 0)) do bfree (i_dev i) aj) ;;
    brelse bp ;;
    bfree (i_dev i) a ;;
    put_addr ip k 0) ;;
  upd_ip ip (set_isize 0) ;;
  iupdate ip.

Definition iput (ip : nat) : K unit :=
  acquire icache_lock ;;
  i <- get_ip ip ;;
  when ((i_ref i =? 1) && flag_set (i_flags i) I_VALID && (i_nlink i =? 0)) do (
    release icache_lock ;;
    itrunc ip ;;
    upd_ip ip (set_itype 0) ;;
    iupdate ip ;;
    acquire icache_lock ;;
    upd_ip ip (set_iflags 0)) ;;
  upd_ip ip (fun i => set_iref (i_ref i - 1) i) ;;
  release icache_lock.

Definition iunlockput (ip : nat) : K unit := iunlock ip ;; iput ip.

(** A store of [n] bytes to a user address. *)
Definition kuser_store (n : nat) (addr v : Z) : K unit := kuser_puts addr (le_split n v).

(** [struct stat]: type at 0, dev at 4, ino at 8, nlink at 12, size at 16. *)
Definition stati (ip : nat) (st : Z) : K unit :=
  i <- get_ip ip ;;
  kuser_store 4 (st + 4) (i_dev i) ;;
  kuser_store 4 (st + 8) (i_inum i) ;;
  kuser_store 2 st (i_type i) ;;
  kuser_store 2 (st + 12) (i_nlink i) ;;
  kuser_store 4 (st + 16) (i_size i).

(** *** Where the bytes of a read go and those of a write come from

    A user address, used through the current page table; an address of kernel
    memory; or a variable of the caller, whose bytes are passed as a list. *)

Inductive dest := ToUser (a : Z) | ToKernel (a : Z) | ToVar.
Inductive source := OfUser (a : Z) | OfVar (l : list byte).

(** [memmove(dst + o, l, n)] *)
Definition copy_to (dst : dest) (o : Z) (l : list byte) : K unit :=
  match dst with
  | ToUser a => kuser_puts (a + o) l
  | ToKernel a => kmem_op [(a + o, Z.of_nat (length l))] (fun m => store_bytes m (a + o) l)
  | ToVar => ret tt
  end.

(** The bytes that [memmove(_, src + o, n)] copies. *)
Definition copy_of (src : source) (o n : Z) : K (list byte) :=
  match src with
  | OfUser a => kuser_bytes (Z.to_nat n) (a + o)
  | OfVar l => ret (take (Z.to_nat n) (drop (Z.to_nat o) l))
  end.

(** An entry of the table [devsw]: the driver's read and write functions. *)
Record devops := mk_devops {
  dev_read : option (nat -> Z -> dest -> Z -> K (Z * list byte));
  dev_write : option (nat -> Z -> source -> Z -> K Z);
}.

Section Devices.
Context (devsw : Z -> devops).

(** The bytes read are returned too, for a caller whose [dst] is a variable. *)
Fixpoint readi_loop (fuel : nat) (ip : nat) (dst : dest) (tot off n : Z) : K (list byte) :=
  if tot <? n then
    match fuel with
    | O => out_of_fuel
    | S k =>
        a <- bmap ip (off / BSIZE) ;;
        i <- get_ip ip ;;
        bp <- bread (i_dev i) a ;;
        let m := Z.min (n - tot) (BSIZE - off mod BSIZE) in
        x <- get_buf bp ;;
        let l := take (Z.to_nat m) (drop (Z.to_nat (off mod BSIZE)) (b_data x)) in
        copy_to dst tot l ;;
        brelse bp ;;
        r <- readi_loop k ip dst (tot + m) (off + m) n ;;
        ret (l ++ r)
    end
  else ret [].

(** The fuel of the loops is the number of blocks that [n] bytes from [off] touch. *)
Definition blocks_of (off n : Z) : nat := Z.to_nat ((off mod BSIZE + n + BSIZE - 1) / BSIZE).

Definition readi (ip : nat) (dst : dest) (off n : Z) : K (Z * list byte) :=
  i <- get_ip ip ;;
  if i_type i =? T_DEV then
    if (i_major i <? 0) || (NDEV <=? i_major i) then ret (-1, [])
    else
      match dev_read (devsw (i_major i)) with
      | None => ret (-1, [])
      | Some f => f ip off dst (s32 n)
      end
  else if (i_size i <? off) || (u32 (off + n) <? off) then ret (-1, [])
  else
    let n := if i_size i <? u32 (off + n) then i_size i - off else n in
    l <- readi_loop (blocks_of off n) ip dst 0 off n ;;
    ret (s32 n, l).

Fixpoint writei_loop (fuel : nat) (ip : nat) (src : source) (tot off n : Z) : K Z :=
  if tot <? n then
    match fuel with
    | O => out_of_fuel
    | S k =>
        a <- bmap ip (off / BSIZE) ;;
        i <- get_ip ip ;;
        bp <- bread (i_dev i) a ;;
        let m := Z.min (n - tot) (BSIZE - off mod BSIZE) in
        l <- copy_of src tot m ;;
        upd_data bp (splice (Z.to_nat (off mod BSIZE)) l) ;;
        log_write bp ;;
        brelse bp ;;
        writei_loop k ip src (tot + m) (off + m) n
    end
  else ret off.

Definition writei (ip : nat) (src : source) (off n : Z) : K Z :=
  i <- get_ip ip ;;
  if i_type i =? T_DEV then
    if (i_major i <? 0) || (NDEV <=? i_major i) then ret (-1)
    else
      match dev_write (devsw (i_major i)) with
      | None => ret (-1)
      | Some f => f ip off src (s32 n)
      end
  else if (i_size i <? off) || (u32 (off + n) <? off) then ret (-1)
  else if MAXFILE * BSIZE <? u32 (off + n) then ret (-1)
  else
    off <- writei_loop (blocks_of off n) ip src 0 off n ;;
    i <- get_ip ip ;;
    when ((0 <? n) && (i_size i <? off)) do (
      upd_ip ip (set_isize off) ;;
      iupdate ip) ;;
    ret (s32 n).

(** ** Directories *)

(** [strncmp] on two character arrays; a string's list may omit its zeros. *)
Fixpoint strncmp_chars (n : nat) (p q : list byte) : Z :=
  match n with
  | O => 0
  | S k =>
      let a := default Byte.x00 (p !! 0%nat) in
      let b := default Byte.x00 (q !! 0%nat) in
      if negb (byte.unsigned a =? 0) && (byte.unsigned a =? byte.unsigned b)
      then strncmp_chars k (drop 1 p) (drop 1 q)
      else byte.unsigned a - byte.unsigned b
  end.

Definition namecmp (s t : list byte) : Z := strncmp_chars DIRSIZ s t.

(** [struct dirent]: the inode number in two bytes, then the name. *)
Definition sizeof_dirent : Z := 16.
Definition de_inum (l : list byte) : Z := word 2 l 0.
Definition de_name (l : list byte) : list byte := take DIRSIZ (drop 2 l).

Definition read_dirent (dp : nat) (off : Z) (msg : string) : K (list byte) :=
  r <- readi dp ToVar off sizeof_dirent ;;
  if negb (r.1 =? sizeof_dirent) then panic msg else ret (r.2).

Fixpoint dirlookup_loop (fuel : nat) (dp : nat) (name : list byte) (off : Z) :
    K (option (nat * Z)) :=
  d <- get_ip dp ;;
  if off <? i_size d then
    match fuel with
    | O => out_of_fuel
    | S k =>
        de <- read_dirent dp off "dirlookup read" ;;
        if de_inum de =? 0 then dirlookup_loop k dp name (off + sizeof_dirent)
        else if namecmp name (de_name de) =? 0 then
          d <- get_ip dp ;;
          ip <- iget (i_dev d) (de_inum de) ;;
          ret (Some (ip, off))
        else dirlookup_loop k dp name (off + sizeof_dirent)
    end
  else ret None.

(** The number of entries of a directory of [size] bytes. *)
Definition dir_entries (size : Z) : nat := Z.to_nat ((size + sizeof_dirent - 1) / sizeof_dirent).

(** The inode and the offset of its entry, which the caller may ignore. *)
Definition dirlookup (dp : nat) (name : list byte) : K (option (nat * Z)) :=
  d <- get_ip dp ;;
  if negb (i_type d =? T_DIR) then panic "dirlookup not DIR" else
  dirlookup_loop (dir_entries (i_size d)) dp name 0.

Fixpoint dirlink_loop (fuel : nat) (dp : nat) (off : Z) : K Z :=
  d <- get_ip dp ;;
  if off <? i_size d then
    match fuel with
    | O => out_of_fuel
    | S k =>
        de <- read_dirent dp off "dirlink read" ;;
        if de_inum de =? 0 then ret off else dirlink_loop k dp (off + sizeof_dirent)
    end
  else ret off.

(** The bytes of [name] padded with zeros, as [strncpy] fills [de.name]. *)
Definition dirent_of (name : list byte) (inum : Z) : list byte :=
  le_split 2 inum ++ strncpy_bytes (take DIRSIZ (name ++ replicate DIRSIZ Byte.x00)).

Definition dirlink (dp : nat) (name : list byte) (inum : Z) : K Z :=
  r <- dirlookup dp name ;;
  match r with
  | Some (ip, _) => iput ip ;; ret (-1)
  | None =>
      d <- get_ip dp ;;
      off <- dirlink_loop (dir_entries (i_size d)) dp 0 ;;
      r <- writei dp (OfVar (dirent_of name inum)) off sizeof_dirent ;;
      if negb (r =? sizeof_dirent) then panic "dirlink" else ret 0
  end.

(** ** Paths

    A path is the string it points to, without the terminating zero. *)

Definition slash : byte := Byte.x2f.

Fixpoint skip_slashes (p : list byte) : list byte :=
  match p with
  | b :: q => if bool_decide (b = slash) then skip_slashes q else p
  | [] => []
  end.

(** The bytes up to the next slash, and the rest. *)
Fixpoint take_elem (p : list byte) : list byte * list byte :=
  match p with
  | [] => ([], [])
  | b :: q =>
      if bool_decide (b = slash) then ([], p)
      else let '(e, r) := take_elem q in (b :: e, r)
  end.

(** The rest of the path and the new content of the buffer [name]. *)
Definition skipelem (path name : list byte) : option (list byte * list byte) :=
  let path := skip_slashes path in
  match path with
  | [] => None
  | _ =>
      let '(s, path) := take_elem path in
      let name :=
        if (DIRSIZ <=? length s)%nat then take DIRSIZ s
        else splice 0 (s ++ [Byte.x00]) name in
      Some (skip_slashes path, name)
  end.

(** The inode, if the path has one, and the last element copied to [name]. *)
Fixpoint namex_loop (fuel : nat) (ip : nat) (path : list byte) (nameiparent : bool)
    (name : list byte) : K (option nat * list byte) :=
  match skipelem path name with
  | Some (path, name) =>
      match fuel with
      | O => out_of_fuel
      | S k =>
          ilock ip ;;
          i <- get_ip ip ;;
          if negb (i_type i =? T_DIR) then iunlockput ip ;; ret (None, name)
          else if nameiparent && bool_decide (path = []) then iunlock ip ;; ret (Some ip, name)
          else
            r <- dirlookup ip name ;;
            match r with
            | None => iunlockput ip ;; ret (None, name)
            | Some (next, _) => iunlockput ip ;; namex_loop k next path nameiparent name
            end
      end
  | None =>
      if nameiparent then iput ip ;; ret (None, name)
      else ret (Some ip, name)
  end.

(** The array [name] of the caller is not initialised; what it holds past a
    terminating zero is never read.  The fuel is the length of the path. *)
Definition namex (path : list byte) (nameiparent : bool) : K (option nat * list byte) :=
  ip <- (if bool_decide (path !! 0%nat = Some slash) then iget ROOTDEV ROOTINO
         else
           i <- myproc ;;
           p <- get_proc i ;;
           match cwd p with Some c => idup c | None => fault end) ;;
  namex_loop (length path) ip path nameiparent (replicate DIRSIZ Byte.x00).

Definition namei (path : list byte) : K (option nat) :=
  r <- namex path false ;; ret (r.1).

Definition nameiparent (path : list byte) : K (option nat * list byte) := namex path true.

End Devices.
