(* ===== verification/Pipe.v ===== *)
(** * pipe.c: reading, writing and closing a pipe

    A pipe is a page from [kalloc]: a spin lock, a ring of [PIPESIZE] bytes and
    two counters that are compared modulo 2^32.  [pipealloc], which allocates
    the two open files, is in File.v. *)

From S2P Require Import Prelude Memory CString FsState Machine Spinlock Kalloc Proc Vm Sysarg.
From S2P Require Import Sleeplock.
Local Open Scope Z_scope.
Local Open Scope kernel_scope.

Definition PIPESIZE : Z := 512.

(** The layout of [struct pipe]; the lock, at offset 0, takes 104 bytes. *)
Definition p_data : Z := 104.
Definition p_nread : Z := 616.
Definition p_nwrite : Z := 620.
Definition p_readopen : Z := 624.
Definition p_writeopen : Z := 628.

Definition pipeclose (p : Z) (writable : bool) : K unit :=
  acquire p ;;
  (if writable then
     kstore 4 (p + p_writeopen) 0 ;;
     wakeup (p + p_nread)
   else
     kstore 4 (p + p_readopen) 0 ;;
     wakeup (p + p_nwrite)) ;;
  ro <- kload 4 (p + p_readopen) ;;
  wo <- kload 4 (p + p_writeopen) ;;
  if (ro =? 0) && (wo =? 0) then release p ;; kfree p
  else release p.

(** The inner loop of [pipewrite]: wait until the ring has room; [false] when
    nobody can read any more, with the lock released. *)
Fixpoint pipe_full_wait (fuel : nat) (p : Z) : K bool :=
  nw <- kload 4 (p + p_nwrite) ;;
  nr <- kload 4 (p + p_nread) ;;
  if nw =? u32 (nr + PIPESIZE) then
    ro <- kload 4 (p + p_readopen) ;;
    i <- myproc ;;
    pr <- get_proc i ;;
    if (ro =? 0) || negb (killed pr =? 0) then release p ;; ret false
    else
      match fuel with
      | O => out_of_fuel
      | S k =>
          wakeup (p + p_nread) ;;
          sleep (p + p_nwrite) p ;;
          pipe_full_wait k p
      end
  else ret true.

(** The bytes from [addr + i] on, [n] of them; [false] as above. *)
Fixpoint pipewrite_loop (n : nat) (p addr : Z) : K bool :=
  match n with
  | O => ret true
  | S k =>
      ok <- pipe_full_wait wait_limit p ;;
      if negb ok then ret false
      else
        nw <- kload 4 (p + p_nwrite) ;;
        kstore 4 (p + p_nwrite) (u32 (nw + 1)) ;;
        c <- kuser_byte addr ;;
        kstore 1 (p + p_data + nw mod PIPESIZE) (byte.unsigned c) ;;
        pipewrite_loop k p (addr + 1)
  end.

Definition pipewrite (p addr n : Z) : K Z :=
  acquire p ;;
  ok <- pipewrite_loop (Z.to_nat n) p addr ;;
  if negb ok then ret (-1)
  else
    wakeup (p + p_nread) ;;
    release p ;;
    ret n.

(** Wait while the pipe is empty and open for writing; [false] when the
    process was killed, with the lock released. *)
Fixpoint pipe_empty_wait (fuel : nat) (p : Z) : K bool :=
  nr <- kload 4 (p + p_nread) ;;
  nw <- kload 4 (p + p_nwrite) ;;
  wo <- kload 4 (p + p_writeopen) ;;
  if (nr =? nw) && negb (wo =? 0) then
    i <- myproc ;;
    pr <- get_proc i ;;
    if negb (killed pr =? 0) then release p ;; ret false
    else
      match fuel with
      | O => out_of_fuel
      | S k => sleep (p + p_nread) p ;; pipe_empty_wait k p
      end
  else ret true.

(** The number of bytes moved, at most [n]. *)
Fixpoint piperead_loop (n : nat) (p addr : Z) : K Z :=
  match n with
  | O => ret 0
  | S k =>
      nr <- kload 4 (p + p_nread) ;;
      nw <- kload 4 (p + p_nwrite) ;;
      if nr =? nw then ret 0
      else
        kstore 4 (p + p_nread) (u32 (nr + 1)) ;;
        c <- kload 1 (p + p_data + nr mod PIPESIZE) ;;
        kuser_put addr (byte.of_Z c) ;;
        r <- piperead_loop k p (addr + 1) ;;
        ret (1 + r)
  end.

Definition piperead (p addr n : Z) : K Z :=
  acquire p ;;
  ok <- pipe_empty_wait wait_limit p ;;
  if negb ok then ret (-1)
  else
    r <- piperead_loop (Z.to_nat n) p addr ;;
    wakeup (p + p_nwrite) ;;
    release p ;;
    ret r.
