(* ===== verification/File.v ===== *)
(** * file.c, and pipealloc of pipe.c

    The table of open files, whose entries are counted references to a pipe or
    to an inode, and the operations that go through them. *)

From S2P Require Import Prelude Memory CString FsState Machine Spinlock Kalloc Proc Vm Sysarg.
From S2P Require Import Sleeplock Bio Log Fs Pipe.
Local Open Scope Z_scope.
Local Open Scope kernel_scope.

Definition get_file (f : nat) : K file := fun s =>
  match ftable (fs s) !! f with Some x => Ok x s | None => Fault end.
Definition upd_file (f : nat) (g : file -> file) : K unit :=
  modify_fs (fun x => set_ftable (alter g f (ftable x)) x).

Definition set_fref v f := mk_file (f_type f) v (f_readable f) (f_writable f) (f_pipe f) (f_ip f)
  (f_off f).
Definition set_foff v f := mk_file (f_type f) (f_ref f) (f_readable f) (f_writable f) (f_pipe f)
  (f_ip f) v.
Definition set_ftype v f := mk_file v (f_ref f) (f_readable f) (f_writable f) (f_pipe f) (f_ip f)
  (f_off f).

Definition fileinit : K unit := initlock ftable_lock "ftable".

Fixpoint filealloc_scan (l : list file) (i : nat) : option nat :=
  match l with
  | [] => None
  | f :: l => if f_ref f =? 0 then Some i else filealloc_scan l (S i)
  end.

Definition filealloc : K (option nat) :=
  acquire ftable_lock ;;
  l <- gets (fun s => ftable (fs s)) ;;
  match filealloc_scan l 0 with
  | Some f =>
      upd_file f (set_fref 1) ;;
      release ftable_lock ;;
      ret (Some f)
  | None =>
      release ftable_lock ;;
      ret None
  end.

Definition filedup (f : nat) : K nat :=
  acquire ftable_lock ;;
  x <- get_file f ;;
  if f_ref x <? 1 then panic "filedup" else
  upd_file f (set_fref (f_ref x + 1)) ;;
  release ftable_lock ;;
  ret f.

(** A pointer to an inode; the null pointer faults. *)
Definition deref_ip (ip : option nat) : K nat :=
  match ip with Some i => ret i | None => fault end.

Definition fileclose (f : nat) : K unit :=
  acquire ftable_lock ;;
  x <- get_file f ;;
  if f_ref x <? 1 then panic "fileclose" else
  upd_file f (set_fref (f_ref x - 1)) ;;
  if 0 <? f_ref x - 1 then release ftable_lock
  else
    ff <- get_file f ;;
    upd_file f (set_fref 0) ;;
    upd_file f (set_ftype FD_NONE) ;;
    release ftable_lock ;;
    match f_type ff with
    | FD_PIPE => pipeclose (f_pipe ff) (negb (f_writable ff =? 0))
    | FD_INODE =>
        begin_op ;;
        ip <- deref_ip (f_ip ff) ;;
        iput ip ;;
        end_op
    | FD_NONE => ret tt
    end.

Definition filestat (f : nat) (st : Z) : K Z :=
  x <- get_file f ;;
  match f_type x with
  | FD_INODE =>
      ip <- deref_ip (f_ip x) ;;
      ilock ip ;;
      stati ip st ;;
      iunlock ip ;;
      ret 0
  | _ => ret (-1)
  end.

(** ** pipe.c *)

(** The label [bad]: give back what was allocated. *)
Definition pipealloc_bad (f0 f1 : option nat) (p : Z) : K (option (nat * nat)) :=
  when (negb (p =? 0)) do kfree p ;;
  match f0 with Some f => fileclose f | None => ret tt end ;;
  match f1 with Some f => fileclose f | None => ret tt end ;;
  ret None.

Definition pipealloc : K (option (nat * nat)) :=
  a <- filealloc ;;
  match a with
  | None => pipealloc_bad None None 0
  | Some f0 =>
      b <- filealloc ;;
      match b with
      | None => pipealloc_bad (Some f0) None 0
      | Some f1 =>
          p <- kalloc ;;
          if p =? 0 then pipealloc_bad (Some f0) (Some f1) 0
          else
            kstore 4 (p + p_readopen) 1 ;;
            kstore 4 (p + p_writeopen) 1 ;;
            kstore 4 (p + p_nwrite) 0 ;;
            kstore 4 (p + p_nread) 0 ;;
            initlock p "pipe" ;;
            upd_file f0 (fun x => mk_file FD_PIPE (f_ref x) 1 0 p (f_ip x) (f_off x)) ;;
            upd_file f1 (fun x => mk_file FD_PIPE (f_ref x) 0 1 p (f_ip x) (f_off x)) ;;
            ret (Some (f0, f1))
      end
  end.

(** ** Reading and writing *)

Section Devices.
Context (devsw : Z -> devops).

Definition fileread (f : nat) (addr n : Z) : K Z :=
  x <- get_file f ;;
  if f_readable x =? 0 then ret (-1) else
  match f_type x with
  | FD_PIPE => piperead (f_pipe x) addr n
  | FD_INODE =>
      ip <- deref_ip (f_ip x) ;;
      ilock ip ;;
      x <- get_file f ;;
      r <- readi devsw ip (ToUser addr) (f_off x) (u32 n) ;;
      when (0 <? r.1) do (
        x <- get_file f ;;
        upd_file f (set_foff (u32 (f_off x + r.1)))) ;;
      iunlock ip ;;
      ret (r.1)
  | FD_NONE => panic "fileread"
  end.

(** [int max = ((LOGSIZE-1-1-2) / 2) * 512;] *)
Definition filewrite_max : Z := (LOGSIZE - 1 - 1 - 2) / 2 * 512.

Definition filewrite_chunk (f ip : nat) (addr i n1 : Z) : K Z :=
  begin_op ;;
  ilock ip ;;
  x <- get_file f ;;
  r <- writei devsw ip (OfUser (addr + i)) (f_off x) n1 ;;
  when (0 <? r) do (
    x <- get_file f ;;
    upd_file f (set_foff (u32 (f_off x + r)))) ;;
  iunlock ip ;;
  end_op ;;
  ret r.

Fixpoint filewrite_loop (fuel : nat) (f ip : nat) (addr i n : Z) : K Z :=
  if i <? n then
    match fuel with
    | O => out_of_fuel
    | S k =>
        let n1 := Z.min (n - i) filewrite_max in
        r <- filewrite_chunk f ip addr i n1 ;;
        if r <? 0 then ret i
        else if negb (r =? n1) then panic "short filewrite"
        else filewrite_loop k f ip addr (i + r) n
    end
  else ret i.

Definition filewrite (f : nat) (addr n : Z) : K Z :=
  x <- get_file f ;;
  if f_writable x =? 0 then ret (-1) else
  match f_type x with
  | FD_PIPE => pipewrite (f_pipe x) addr n
  | FD_INODE =>
      ip <- deref_ip (f_ip x) ;;
      i <- filewrite_loop (Z.to_nat ((n + filewrite_max - 1) / filewrite_max)) f ip addr 0 n ;;
      ret (if i =? n then n else -1)
  | FD_NONE => panic "filewrite"
  end.

End Devices.
