(* ===== verification/Sysfile.v ===== *)
(** * sysfile.c: the system calls on files

    Each call checks its arguments and works on the file layers inside a
    transaction.  A path is read from user memory once [argstr] has found its
    end; the system call keeps the string, as user memory does not change
    while its process is in the kernel. *)

From S2P Require Import Prelude Memory CString FsState Machine Spinlock Kalloc Proc Vm Sysarg.
From S2P Require Import Sleeplock Bio Log Fs Pipe File.
Local Open Scope Z_scope.
Local Open Scope kernel_scope.

(** ** fcntl.h *)

Definition O_RDONLY : Z := 0x000.
Definition O_WRONLY : Z := 0x001.
Definition O_RDWR : Z := 0x002.
Definition O_CREATE : Z := 0x200.

Definition set_ofile (v : list (option nat)) (p : proc) : proc :=
  mk_proc (sz p) (pgdir p) (kstack p) (state p) (pid p) (parent p) (tf p) (context p)
    (chan p) (killed p) v (cwd p) (pname p).
Definition set_cwd (v : option nat) (p : proc) : proc :=
  mk_proc (sz p) (pgdir p) (kstack p) (state p) (pid p) (parent p) (tf p) (context p)
    (chan p) (killed p) (ofile p) v (pname p).

(** ** Descriptors *)

Definition argfd (n : Z) : K (option (nat * nat)) :=
  fd <- argint n ;;
  i <- myproc ;;
  p <- get_proc i ;;
  if (fd <? 0) || (Z.of_nat NOFILE <=? fd) then ret None
  else
    match mjoin (ofile p !! Z.to_nat fd) with
    | None => ret None
    | Some f => ret (Some (Z.to_nat fd, f))
    end.

Fixpoint fdalloc_scan {A} (l : list (option A)) (fd : nat) : option nat :=
  match l with
  | [] => None
  | None :: _ => Some fd
  | Some _ :: l => fdalloc_scan l (S fd)
  end.

(** [proc->ofile[fd] = f] *)
Definition put_ofile (fd : nat) (f : option nat) : K unit :=
  i <- myproc ;;
  upd_proc i (fun p => set_ofile (<[fd := f]> (ofile p)) p).

Definition fdalloc (f : nat) : K (option nat) :=
  i <- myproc ;;
  p <- get_proc i ;;
  match fdalloc_scan (ofile p) 0 with
  | Some fd => put_ofile fd (Some f) ;; ret (Some fd)
  | None => ret None
  end.

Definition sys_dup : K Z :=
  a <- argfd 0 ;;
  match a with
  | None => ret (-1)
  | Some (_, f) =>
      r <- fdalloc f ;;
      match r with
      | None => ret (-1)
      | Some fd => filedup f ;; ret (Z.of_nat fd)
      end
  end.

Definition sys_close : K Z :=
  a <- argfd 0 ;;
  match a with
  | None => ret (-1)
  | Some (fd, f) =>
      put_ofile fd None ;;
      fileclose f ;;
      ret 0
  end.

(** [sizeof(struct stat)] is 20. *)
Definition sys_fstat : K Z :=
  a <- argfd 0 ;;
  match a with
  | None => ret (-1)
  | Some (_, f) =>
      st <- argptr 1 20 ;;
      match st with
      | None => ret (-1)
      | Some st => filestat f st
      end
  end.

Definition sys_pipe : K Z :=
  a <- argptr 0 8 ;;
  match a with
  | None => ret (-1)
  | Some fd =>
      r <- pipealloc ;;
      match r with
      | None => ret (-1)
      | Some (rf, wf) =>
          let bad := fileclose rf ;; fileclose wf ;; ret (-1) in
          r0 <- fdalloc rf ;;
          match r0 with
          | None => bad
          | Some fd0 =>
              r1 <- fdalloc wf ;;
              match r1 with
              | None => put_ofile fd0 None ;; bad
              | Some fd1 =>
                  kuser_store 4 fd (Z.of_nat fd0) ;;
                  kuser_store 4 (fd + 4) (Z.of_nat fd1) ;;
                  ret 0
              end
          end
      end
  end.

(** The path argument [n], or [None] when it is no string. *)
Definition argpath (n : Z) : K (option (list byte)) :=
  r <- argstr n ;;
  if r.1 <? 0 then ret None
  else l <- kuser_bytes (Z.to_nat (r.1)) (r.2) ;; ret (Some l).

Section Devices.
Context (devsw : Z -> devops).

(** [argfd(0, 0, &f) < 0 || argint(2, &n) < 0 || argptr(1, &p, n) < 0] *)
Definition sys_rw (op : nat -> Z -> Z -> K Z) : K Z :=
  a <- argfd 0 ;;
  match a with
  | None => ret (-1)
  | Some (_, f) =>
      n <- argint 2 ;;
      p <- argptr 1 n ;;
      match p with
      | None => ret (-1)
      | Some p => op f p n
      end
  end.

Definition sys_read : K Z := sys_rw (fileread devsw).
Definition sys_write : K Z := sys_rw (filewrite devsw).

(** ** Links *)

Definition dot : list byte := [Byte.x2e].
Definition dotdot : list byte := [Byte.x2e; Byte.x2e].

Fixpoint isdirempty_loop (fuel : nat) (dp : nat) (off : Z) : K bool :=
  d <- get_ip dp ;;
  if off <? i_size d then
    match fuel with
    | O => out_of_fuel
    | S k =>
        de <- read_dirent devsw dp off "isdirempty: readi" ;;
        if negb (de_inum de =? 0) then ret false
        else isdirempty_loop k dp (off + sizeof_dirent)
    end
  else ret true.

Definition isdirempty (dp : nat) : K bool :=
  d <- get_ip dp ;;
  isdirempty_loop (dir_entries (i_size d)) dp (2 * sizeof_dirent).

(** [end_op(); return -1;] *)
Definition end_fail : K Z := end_op ;; ret (-1).

(** The label [bad] of [sys_link]. *)
Definition link_bad (ip : nat) : K Z :=
  ilock ip ;;
  upd_ip ip (fun i => set_inlink (s16 (i_nlink i - 1)) i) ;;
  iupdate ip ;;
  iunlockput ip ;;
  end_fail.

Definition sys_link : K Z :=
  o <- argpath 0 ;;
  match o with
  | None => ret (-1)
  | Some old =>
  n <- argpath 1 ;;
  match n with
  | None => ret (-1)
  | Some new =>
  begin_op ;;
  r <- namei devsw old ;;
  match r with
  | None => end_fail
  | Some ip =>
  ilock ip ;;
  i <- get_ip ip ;;
  if i_type i =? T_DIR then iunlockput ip ;; end_fail
  else
    upd_ip ip (fun i => set_inlink (s16 (i_nlink i + 1)) i) ;;
    iupdate ip ;;
    iunlock ip ;;
    r <- nameiparent devsw new ;;
    match r with
    | (None, _) => link_bad ip
    | (Some dp, name) =>
        ilock dp ;;
        d <- get_ip dp ;;
        i <- get_ip ip ;;
        bad <- (if negb (i_dev d =? i_dev i) then ret true
                else r <- dirlink devsw dp name (i_inum i) ;; ret (r <? 0)) ;;
        if (bad : bool) then iunlockput dp ;; link_bad ip
        else
          iunlockput dp ;;
          iput ip ;;
          end_op ;;
          ret 0
    end
  end
  end
  end.

(** The label [bad] of [sys_unlink]. *)
Definition unlink_bad (dp : nat) : K Z := iunlockput dp ;; end_fail.

(** [sys_unlink] once the entry, at offset [off], and its inode are found. *)
Definition unlink_found (dp ip : nat) (off : Z) : K Z :=
  ilock ip ;;
  i <- get_ip ip ;;
  if i_nlink i <? 1 then panic "unlink: nlink < 1" else
  e <- (if i_type i =? T_DIR then isdirempty ip else ret true) ;;
  if negb e then iunlockput ip ;; unlink_bad dp
  else
    r <- writei devsw dp (OfVar (replicate 16 Byte.x00)) off sizeof_dirent ;;
    if negb (r =? sizeof_dirent) then panic "unlink: writei" else
    i <- get_ip ip ;;
    when (i_type i =? T_DIR) do (
      upd_ip dp (fun d => set_inlink (s16 (i_nlink d - 1)) d) ;;
      iupdate dp) ;;
    iunlockput dp ;;
    upd_ip ip (fun i => set_inlink (s16 (i_nlink i - 1)) i) ;;
    iupdate ip ;;
    iunlockput ip ;;
    end_op ;;
    ret 0.

Definition sys_unlink : K Z :=
  p <- argpath 0 ;;
  match p with
  | None => ret (-1)
  | Some path =>
      begin_op ;;
      r <- nameiparent devsw path ;;
      match r with
      | (None, _) => end_fail
      | (Some dp, name) =>
          ilock dp ;;
          if (namecmp name dot =? 0) || (namecmp name dotdot =? 0) then unlink_bad dp
          else
            r <- dirlookup devsw dp name ;;
            match r with
            | None => unlink_bad dp
            | Some (ip, off) => unlink_found dp ip off
            end
      end
  end.

(** ** Creation and opening *)

(** [create] once the parent is locked and the name is not in it. *)
Definition create_new (dp : nat) (name : list byte) (type major minor : Z) : K (option nat) :=
  d <- get_ip dp ;;
  ip <- ialloc (i_dev d) type ;;
  ilock ip ;;
  upd_ip ip (set_imajor major) ;;
  upd_ip ip (set_iminor minor) ;;
  upd_ip ip (set_inlink 1) ;;
  iupdate ip ;;
  i <- get_ip ip ;;
  when (type =? T_DIR) do (
    upd_ip dp (fun d => set_inlink (s16 (i_nlink d + 1)) d) ;;
    iupdate dp ;;
    r <- dirlink devsw ip dot (i_inum i) ;;
    if r <? 0 then panic "create dots" else
    d <- get_ip dp ;;
    r <- dirlink devsw ip dotdot (i_inum d) ;;
    if r <? 0 then panic "create dots" else ret tt) ;;
  r <- dirlink devsw dp name (i_inum i) ;;
  if r <? 0 then panic "create: dirlink" else
  iunlockput dp ;;
  ret (Some ip).

Definition create (path : list byte) (type major minor : Z) : K (option nat) :=
  r <- nameiparent devsw path ;;
  match r with
  | (None, _) => ret None
  | (Some dp, name) =>
      ilock dp ;;
      r <- dirlookup devsw dp name ;;
      match r with
      | Some (ip, _) =>
          iunlockput dp ;;
          ilock ip ;;
          i <- get_ip ip ;;
          if (type =? T_FILE) && (i_type i =? T_FILE) then ret (Some ip)
          else iunlockput ip ;; ret None
      | None => create_new dp name type major minor
      end
  end.

(** The inode that [sys_open] works on, locked. *)
Definition open_inode (path : list byte) (omode : Z) : K (option nat) :=
  if negb (Z.land omode O_CREATE =? 0) then create path T_FILE 0 0
  else
    r <- namei devsw path ;;
    match r with
    | None => ret None
    | Some ip =>
        ilock ip ;;
        i <- get_ip ip ;;
        if (i_type i =? T_DIR) && negb (omode =? O_RDONLY) then iunlockput ip ;; ret None
        else ret (Some ip)
    end.

(** [(f = filealloc()) == 0 || (fd = fdalloc(f)) < 0], with the close of [f]. *)
Definition open_file : K (option (nat * nat)) :=
  r <- filealloc ;;
  match r with
  | None => ret None
  | Some f =>
      r <- fdalloc f ;;
      match r with
      | None => fileclose f ;; ret None
      | Some fd => ret (Some (f, fd))
      end
  end.

Definition c_bool (b : bool) : Z := if b then 1 else 0.

Definition sys_open : K Z :=
  p <- argpath 0 ;;
  match p with
  | None => ret (-1)
  | Some path =>
      omode <- argint 1 ;;
      begin_op ;;
      r <- open_inode path omode ;;
      match r with
      | None => end_fail
      | Some ip =>
          r <- open_file ;;
          match r with
          | None => iunlockput ip ;; end_fail
          | Some (f, fd) =>
              iunlock ip ;;
              end_op ;;
              let w := negb (Z.land omode O_WRONLY =? 0) in
              upd_file f (fun x => mk_file FD_INODE (f_ref x) (c_bool (negb w))
                (c_bool (w || negb (Z.land omode O_RDWR =? 0))) (f_pipe x) (Some ip) 0) ;;
              ret (Z.of_nat fd)
          end
      end
  end.

Definition sys_mkdir : K Z :=
  begin_op ;;
  p <- argpath 0 ;;
  match p with
  | None => end_fail
  | Some path =>
      r <- create path T_DIR 0 0 ;;
      match r with
      | None => end_fail
      | Some ip => iunlockput ip ;; end_op ;; ret 0
      end
  end.

(** [major] and [minor] are cut to shorts by the call of [create]. *)
Definition sys_mknod : K Z :=
  begin_op ;;
  p <- argpath 0 ;;
  match p with
  | None => end_fail
  | Some path =>
      major <- argint 1 ;;
      minor <- argint 2 ;;
      r <- create path T_DEV (s16 major) (s16 minor) ;;
      match r with
      | None => end_fail
      | Some ip => iunlockput ip ;; end_op ;; ret 0
      end
  end.

Definition sys_chdir : K Z :=
  begin_op ;;
  p <- argpath 0 ;;
  match p with
  | None => end_fail
  | Some path =>
      r <- namei devsw path ;;
      match r with
      | None => end_fail
      | Some ip =>
          ilock ip ;;
          i <- get_ip ip ;;
          if negb (i_type i =? T_DIR) then iunlockput ip ;; end_fail
          else
            iunlock ip ;;
            me <- myproc ;;
            pr <- get_proc me ;;
            c <- deref_ip (cwd pr) ;;
            iput c ;;
            end_op ;;
            upd_proc me (set_cwd (Some ip)) ;;
            ret 0
      end
  end.

End Devices.
