(* ===== verification/Exec.v ===== *)
(** * exec.c, sys_exec of sysfile.c and loaduvm of vm.c

    Loading a program: the new address space is built beside the old one from
    the segments of an ELF file, the arguments are copied to the new stack,
    and only then the process switches to it. *)

From S2P Require Import Prelude Memory CString FsState Machine Spinlock Kalloc Proc Vm Sysarg.
From S2P Require Import Sleeplock Bio Log Fs Pipe File Sysfile.
Local Open Scope Z_scope.
Local Open Scope kernel_scope.

(** ** elf.h *)

Definition ELF_MAGIC : Z := 0x464C457F.
Definition ELF_PROG_LOAD : Z := 1.

Definition sizeof_elfhdr : Z := 64.
Definition elf_magic (l : list byte) : Z := word 4 l 0.
Definition elf_entry (l : list byte) : Z := word 8 l 24.
Definition elf_phoff (l : list byte) : Z := word 8 l 32.
Definition elf_phnum (l : list byte) : Z := word 2 l 56.

Definition sizeof_proghdr : Z := 56.
Definition ph_type (l : list byte) : Z := word 4 l 0.
Definition ph_off (l : list byte) : Z := word 8 l 8.
Definition ph_vaddr (l : list byte) : Z := word 8 l 16.
Definition ph_filesz (l : list byte) : Z := word 8 l 32.
Definition ph_memsz (l : list byte) : Z := word 8 l 40.

(** ** Copying data that is not in a page

    [copyout] of bytes that are a variable of the caller. *)

Fixpoint copyout_var_loop (fuel : nat) (pgdir va : Z) (l : list byte) : K Z :=
  if 0 <? Z.of_nat (length l) then
    match fuel with
    | O => out_of_fuel
    | S k =>
        let va0 := PGROUNDDOWN va in
        pa0 <- uva2ka pgdir va0 ;;
        if pa0 =? 0 then ret (-1)
        else
          let n := PGSIZE - (va - va0) in
          let n := if Z.of_nat (length l) <? n then Z.of_nat (length l) else n in
          kmem_op [(pa0 + (va - va0), n)]
            (fun m => store_bytes m (pa0 + (va - va0)) (take (Z.to_nat n) l)) ;;
          copyout_var_loop k pgdir (u64 (va0 + PGSIZE)) (drop (Z.to_nat n) l)
    end
  else ret 0.

Definition copyout_var (pgdir va : Z) (l : list byte) : K Z :=
  copyout_var_loop (S (S (Z.to_nat (Z.of_nat (length l) / PGSIZE)))) pgdir va l.

(** The string at a user address, up to its terminating zero; the fuel is the
    size of the process past it. *)
Fixpoint kuser_string (fuel : nat) (addr : Z) : K (list byte) :=
  match fuel with
  | O => out_of_fuel
  | S k =>
      b <- kuser_byte addr ;;
      if byte.unsigned b =? 0 then ret []
      else l <- kuser_string k (addr + 1) ;; ret (b :: l)
  end.

Section Devices.
Context (devsw : Z -> devops).

(** ** vm.c *)

(** [i], [offset] and [sz] are 32-bit. *)
Fixpoint loaduvm_loop (fuel : nat) (pgdir addr : Z) (ip : nat) (offset i sz : Z) : K Z :=
  if i <? sz then
    match fuel with
    | O => out_of_fuel
    | S k =>
        pte <- walkpgdir pgdir (u64 (addr + i)) false ;;
        if pte =? 0 then panic "loaduvm: address should exist" else
        x <- kload 8 pte ;;
        let pa := PTE_ADDR x in
        let n := if sz - i <? PGSIZE then sz - i else PGSIZE in
        r <- readi devsw ip (ToKernel (P2V pa)) (u32 (offset + i)) n ;;
        if negb (u32 (r.1) =? n) then ret (-1)
        else loaduvm_loop k pgdir addr ip offset (u32 (i + PGSIZE)) sz
    end
  else ret 0.

Definition loaduvm (pgdir addr : Z) (ip : nat) (offset sz : Z) : K Z :=
  if negb (addr mod PGSIZE =? 0) then panic "loaduvm: addr must be page aligned" else
  loaduvm_loop (Z.to_nat ((sz + PGSIZE - 1) / PGSIZE)) pgdir addr ip offset 0 sz.

(** ** exec.c *)

(** One program header; the new size, or [None] for [goto bad]. *)
Definition exec_segment (pgdir : Z) (ip : nat) (off sz : Z) : K (option Z) :=
  r <- readi devsw ip ToVar (u32 off) sizeof_proghdr ;;
  if negb (r.1 =? sizeof_proghdr) then ret None else
  let ph := r.2 in
  if negb (ph_type ph =? ELF_PROG_LOAD) then ret (Some sz) else
  if ph_memsz ph <? ph_filesz ph then ret None else
  if u64 (ph_vaddr ph + ph_memsz ph) <? ph_vaddr ph then ret None else
  sz <- allocuvm pgdir sz (u64 (ph_vaddr ph + ph_memsz ph)) ;;
  if sz =? 0 then ret None else
  if negb (ph_vaddr ph mod PGSIZE =? 0) then ret None else
  r <- loaduvm pgdir (ph_vaddr ph) ip (u32 (ph_off ph)) (u32 (ph_filesz ph)) ;;
  if r <? 0 then ret None else ret (Some sz).

(** The loop over the [n] program headers that are left; [off] is an [int]. *)
Fixpoint exec_load (n : nat) (pgdir : Z) (ip : nat) (off sz : Z) : K (option Z) :=
  match n with
  | O => ret (Some sz)
  | S k =>
      r <- exec_segment pgdir ip off sz ;;
      match r with
      | None => ret None
      | Some sz => exec_load k pgdir ip (s32 (off + sizeof_proghdr)) sz
      end
  end.

(** The strings of [argv] go below [sp], each aligned to 8 bytes; the result
    is the new [sp] and the pointers, in the order of [ustack]. *)
Fixpoint exec_args (fuel : nat) (pgdir : Z) (argv : list Z) (sp : Z) : K (option (Z * list Z)) :=
  match argv with
  | [] => ret (Some (sp, []))
  | a :: argv =>
      s <- kuser_string fuel a ;;
      let sp := Z.land (u64 (sp - (Z.of_nat (length s) + 1))) (u64 (Z.lnot 7)) in
      r <- copyout_var pgdir sp (s ++ [Byte.x00]) ;;
      if r <? 0 then ret None
      else
        r <- exec_args fuel pgdir argv sp ;;
        match r with
        | None => ret None
        | Some (sp', us) => ret (Some (sp', sp :: us))
        end
  end.

(** The part of the path after the last slash. *)
Fixpoint last_elem (last p : list byte) : list byte :=
  match p with
  | [] => last
  | b :: p => last_elem (if bool_decide (b = slash) then p else last) p
  end.

Definition set_name (v : list byte) (p : proc) : proc :=
  mk_proc (sz p) (pgdir p) (kstack p) (state p) (pid p) (parent p) (tf p) (context p)
    (chan p) (killed p) (ofile p) (cwd p) v.

(** [safestrcpy(proc->name, l, sizeof(proc->name))] *)
Definition put_name (l : list byte) (p : proc) : proc :=
  let t := take 15 (cstr l) ++ [Byte.x00] in set_name (splice 0 t (pname p)) p.

(** The label [bad]; [ip] is null once the program is loaded. *)
Definition exec_bad (pgdir : Z) (ip : option nat) : K Z :=
  when (negb (pgdir =? 0)) do freevm pgdir ;;
  match ip with
  | Some ip => iunlockput ip ;; end_op
  | None => ret tt
  end ;;
  ret (-1).

(** From the stack on, with the program loaded up to [sz]. *)
Definition exec_stack (local : Z) (path : list byte) (argv : list Z) (entry oldpgdir pgdir sz : Z) :
    K Z :=
  let sz := PGROUNDUP sz in
  sz <- allocuvm pgdir sz (u64 (sz + 2 * PGSIZE)) ;;
  if sz =? 0 then exec_bad pgdir None else
  clearpteu pgdir (u64 (sz - 2 * PGSIZE)) ;;
  me <- myproc ;;
  p <- get_proc me ;;
  r <- exec_args (Z.to_nat (Machine.sz p)) pgdir argv sz ;;
  match r with
  | None => exec_bad pgdir None
  | Some (sp, us) =>
      let argc := Z.of_nat (length us) in
      let ustack := 0xffffffffffffffff :: us ++ [0] in
      kstore 8 (tf p + tf_rdi) argc ;;
      kstore 8 (tf p + tf_rsi) (u64 (sp - (argc + 1) * 8)) ;;
      let sp := u64 (sp - (1 + argc + 1) * 8) in
      r <- copyout_var pgdir sp (concat (map (le_split 8) ustack)) ;;
      if r <? 0 then exec_bad pgdir None
      else
        upd_proc me (put_name (last_elem path path)) ;;
        upd_proc me (set_pgdir pgdir) ;;
        upd_proc me (set_sz sz) ;;
        kstore 8 (tf p + tf_rip) entry ;;
        kstore 8 (tf p + tf_rcx) entry ;;
        kstore 8 (tf p + tf_rsp) sp ;;
        switchuvm local me ;;
        freevm oldpgdir ;;
        ret 0
  end.

(** [argv] holds fewer than [MAXARG] pointers, as [sys_exec] builds it. *)
Definition exec (local : Z) (path : list byte) (argv : list Z) : K Z :=
  me <- myproc ;;
  p <- get_proc me ;;
  let oldpgdir := pgdir p in
  begin_op ;;
  r <- namei devsw path ;;
  match r with
  | None => end_op ;; ret (-1)
  | Some ip =>
      ilock ip ;;
      e <- readi devsw ip ToVar 0 sizeof_elfhdr ;;
      if negb (e.1 =? sizeof_elfhdr) then exec_bad 0 (Some ip) else
      let elf := e.2 in
      if negb (elf_magic elf =? ELF_MAGIC) then exec_bad 0 (Some ip) else
      pgdir <- setupkvm ;;
      if pgdir =? 0 then exec_bad 0 (Some ip) else
      r <- exec_load (Z.to_nat (elf_phnum elf)) pgdir ip (s32 (elf_phoff elf)) PGSIZE ;;
      match r with
      | None => exec_bad pgdir (Some ip)
      | Some sz =>
          iunlockput ip ;;
          end_op ;;
          exec_stack local path argv (elf_entry elf) oldpgdir pgdir sz
      end
  end.

(** ** sysfile.c *)

(** The pointers of the user's [argv]; [i] of them are already read. *)
Fixpoint sys_exec_args (fuel : nat) (uargv i : Z) : K (option (list Z)) :=
  match fuel with
  | O => ret None
  | S k =>
      r <- fetchaddr (u64 (uargv + 8 * i)) ;;
      match r with
      | None => ret None
      | Some uarg =>
          if uarg =? 0 then ret (Some [])
          else
            n <- fetchstr uarg ;;
            if n <? 0 then ret None
            else
              r <- sys_exec_args k uargv (i + 1) ;;
              ret (match r with None => None | Some l => Some (uarg :: l) end)
      end
  end.

(** The fuel is the size of the array [argv]: the test [i >= NELEM(argv)]. *)
Definition sys_exec (local : Z) : K Z :=
  p <- argpath 0 ;;
  match p with
  | None => ret (-1)
  | Some path =>
      uargv <- argaddr 1 ;;
      r <- sys_exec_args MAXARG uargv 0 ;;
      match r with
      | None => ret (-1)
      | Some argv => exec local path argv
      end
  end.

End Devices.
