(* ===== verification/Process.v ===== *)
(** * proc.c: creation, exit and waiting; the scheduler; sysproc.c

    The operations on processes that call the memory and file layers. *)

From S2P Require Import Prelude Memory CString FsState Machine Spinlock Kalloc Proc Vm Sysarg.
From S2P Require Import Sleeplock Bio Log Fs Pipe File Sysfile Exec.
Local Open Scope Z_scope.
Local Open Scope kernel_scope.

Definition pinit : K unit := initlock ptable_lock "ptable".

(** The address of [ptable.proc[i]], the channel on which a parent waits. *)
Definition proc_addr (i : nat) : Z := 0x30000 + 16 * Z.of_nat i.
Definition proc_chan (p : option nat) : Z :=
  match p with Some i => proc_addr i | None => 0 end.

Section Entry.
(** The CPU-local page of [seginit], and the addresses of the code at which a
    new process starts. *)
Context (local syscall_trapret forkret_addr : Z).
Context (devsw : Z -> devops).

Definition FL_IF : Z := 0x200.

(** [init] and [sz] are the image of initcode that the linker embeds; the
    fields of the new process go through a null pointer when there is none. *)
Definition userinit (init size : Z) : K unit :=
  r <- allocproc syscall_trapret forkret_addr ;;
  modify_fs (set_initproc r) ;;
  match r with
  | None => fault
  | Some i =>
      pg <- setupkvm ;;
      upd_proc i (set_pgdir pg) ;;
      if pg =? 0 then panic "userinit: out of memory?" else
      inituvm pg init size ;;
      upd_proc i (set_sz (PGSIZE * 2)) ;;
      p <- get_proc i ;;
      kmem_op [(tf p, sizeof_trapframe)] (fun m => memset m (tf p) 0 sizeof_trapframe) ;;
      kstore 8 (tf p + tf_r11) FL_IF ;;
      kstore 8 (tf p + tf_rsp) (PGSIZE * 2) ;;
      kstore 8 (tf p + tf_rcx) PGSIZE ;;
      upd_proc i (put_name (map byte.of_Z [0x69; 0x6e; 0x69; 0x74; 0x63; 0x6f; 0x64; 0x65])) ;;
      c <- namei devsw [slash] ;;
      upd_proc i (set_cwd c) ;;
      upd_proc i (set_state RUNNABLE)
  end.

Definition growproc (n : Z) : K Z :=
  me <- myproc ;;
  p <- get_proc me ;;
  let finish (size : Z) := upd_proc me (set_sz size) ;; switchuvm local me ;; ret 0 in
  if 0 <? n then
    r <- allocuvm (pgdir p) (sz p) (u64 (sz p + n)) ;;
    if r =? 0 then ret (-1) else finish r
  else if n <? 0 then
    r <- deallocuvm (pgdir p) (sz p) (u64 (sz p + n)) ;;
    if r =? 0 then ret (-1) else finish r
  else finish (sz p).

Definition fork : K Z :=
  r <- allocproc syscall_trapret forkret_addr ;;
  match r with
  | None => ret (-1)
  | Some np =>
      me <- myproc ;;
      p <- get_proc me ;;
      pg <- copyuvm (pgdir p) (sz p) ;;
      upd_proc np (set_pgdir pg) ;;
      if pg =? 0 then
        n <- get_proc np ;;
        kfree (kstack n) ;;
        upd_proc np (set_kstack 0) ;;
        upd_proc np (set_state UNUSED) ;;
        ret (-1)
      else
        upd_proc np (set_sz (sz p)) ;;
        upd_proc np (set_parent (Some me)) ;;
        n <- get_proc np ;;
        kmem_op [(tf n, sizeof_trapframe); (tf p, sizeof_trapframe)]
          (fun m => store_bytes m (tf n) (load_bytes m (tf p) (Z.to_nat sizeof_trapframe))) ;;
        kstore 8 (tf n + tf_rax) 0 ;;
        for_each (seq 0 NOFILE) (fun fd =>
          match mjoin (ofile p !! fd) with
          | Some f =>
              filedup f ;;
              upd_proc np (fun q => set_ofile (<[fd := Some f]> (ofile q)) q)
          | None => ret tt
          end) ;;
        c <- deref_ip (cwd p) ;;
        idup c ;;
        upd_proc np (set_cwd (Some c)) ;;
        upd_proc np (put_name (pname p)) ;;
        upd_proc np (set_state RUNNABLE) ;;
        ret (pid n)
  end.

(** The loop of [exit] over the table: children go to [init], which is woken
    for each of them that is a zombie already. *)
Definition reparent (me : nat) : K unit :=
  for_each (seq 0 NPROC) (fun i =>
    p <- get_proc i ;;
    when (bool_decide (parent p = Some me)) do (
      ini <- gets (fun s => initproc (fs s)) ;;
      upd_proc i (set_parent ini) ;;
      when (bool_decide (state p = ZOMBIE)) do wakeup1 (proc_chan ini))).

(** The files of the process, closed in the order of their descriptors. *)
Definition close_files (me : nat) : K unit :=
  for_each (seq 0 NOFILE) (fun fd =>
    p <- get_proc me ;;
    match mjoin (ofile p !! fd) with
    | Some f =>
        fileclose f ;;
        upd_proc me (fun q => set_ofile (<[fd := None]> (ofile q)) q)
    | None => ret tt
    end).

(** [exit] does not return: the scheduler never runs a zombie. *)
Definition exit : K Z :=
  c <- gets cur ;;
  ini <- gets (fun s => initproc (fs s)) ;;
  if bool_decide (c = ini) then panic "init exiting" else
  me <- myproc ;;
  close_files me ;;
  begin_op ;;
  p <- get_proc me ;;
  c <- deref_ip (cwd p) ;;
  iput c ;;
  end_op ;;
  upd_proc me (set_cwd None) ;;
  acquire ptable_lock ;;
  p <- get_proc me ;;
  wakeup1 (proc_chan (parent p)) ;;
  reparent me ;;
  upd_proc me (set_state ZOMBIE) ;;
  sched ;;
  panic "zombie exit".

(** The scan of [wait]: the first zombie child, and whether there is a child. *)
Fixpoint wait_scan (me : nat) (l : list proc) (i : nat) (havekids : bool) : option nat * bool :=
  match l with
  | [] => (None, havekids)
  | p :: l =>
      if negb (bool_decide (parent p = Some me)) then wait_scan me l (S i) havekids
      else if bool_decide (state p = ZOMBIE) then (Some i, true)
      else wait_scan me l (S i) true
  end.

(** What [wait] does with a zombie child. *)
Definition reap (i : nat) : K Z :=
  p <- get_proc i ;;
  kfree (kstack p) ;;
  upd_proc i (set_kstack 0) ;;
  freevm (pgdir p) ;;
  upd_proc i (set_pid 0) ;;
  upd_proc i (set_parent None) ;;
  upd_proc i (fun q => set_name (<[0%nat := Byte.x00]> (pname q)) q) ;;
  upd_proc i (set_killed 0) ;;
  upd_proc i (set_state UNUSED) ;;
  release ptable_lock ;;
  ret (pid p).

Fixpoint wait_loop (fuel : nat) (me : nat) : K Z :=
  ps <- gets procs ;;
  match wait_scan me ps 0 false with
  | (Some i, _) => reap i
  | (None, havekids) =>
      p <- get_proc me ;;
      if negb havekids || negb (killed p =? 0) then release ptable_lock ;; ret (-1)
      else
        match fuel with
        | O => out_of_fuel
        | S k => sleep (proc_addr me) ptable_lock ;; wait_loop k me
        end
  end.

Definition wait : K Z :=
  me <- myproc ;;
  acquire ptable_lock ;;
  wait_loop wait_limit me.

(** ** The scheduler *)

Definition sti : K unit :=
  modify (fun s => let c := this_cpu s in
    set_cpu (mk_cpu (cpu_id c) (ncli c) (intena c) true (cr3 c)) s).

(** One slot of the table: [swtch] gives the CPU to the process, and returns
    when that process switches back. *)
Definition scheduler_slot (i : nat) : K bool :=
  p <- get_proc i ;;
  if negb (bool_decide (state p = RUNNABLE)) then ret false
  else
    modify (set_cur (Some i)) ;;
    switchuvm local i ;;
    upd_proc i (set_state RUNNING) ;;
    (fun s => Swtch s (fun s' => Ok tt s')) ;;
    switchkvm ;;
    modify (set_cur None) ;;
    ret true.

(** The slots [l]; the counter [skipped] of slots passed over in a row. *)
Fixpoint scheduler_slots (l : list nat) (skipped : Z) : K Z :=
  match l with
  | [] => ret skipped
  | i :: l =>
      ran <- scheduler_slot i ;;
      scheduler_slots l (if (ran : bool) then 0 else skipped + 1)
  end.

(** One round of [for(;;)]; a round in which [skipped] passes [NPROC] ends in
    [hlt], which waits for an interrupt. *)
Definition scheduler_round (skipped : Z) : K Z :=
  sti ;;
  acquire ptable_lock ;;
  n <- scheduler_slots (seq 0 NPROC) skipped ;;
  release ptable_lock ;;
  ret (if Z.of_nat NPROC <? n then 0 else n).

(** The first process to run initialises the file system. *)
Definition forkret : K unit :=
  release ptable_lock ;;
  f <- gets (fun s => first (fs s)) ;;
  when (negb (f =? 0)) do (
    modify_fs (set_first 0) ;;
    iinit ROOTDEV ;;
    initlog ROOTDEV).

(** ** sysproc.c *)

Definition sys_fork : K Z := fork.
Definition sys_exit : K Z := exit ;; ret 0.
Definition sys_wait : K Z := wait.
Definition sys_kill : K Z := pd <- argint 0 ;; kill pd.
Definition sys_getpid : K Z := i <- myproc ;; p <- get_proc i ;; ret (pid p).

(** [growproc] takes an [int64]. *)
Definition sys_sbrk : K Z :=
  n <- argaddr 0 ;;
  i <- myproc ;;
  p <- get_proc i ;;
  let addr := sz p in
  r <- growproc (s64 n) ;;
  ret (if r <? 0 then -1 else addr).

Definition get_ticks : K Z := gets (fun s => ticks (fs s)).

(** [&ticks], the channel of [sys_sleep]. *)
Definition ticks_chan : Z := 12.

(** [ticks - ticks0 < n] compares unsigned. *)
Fixpoint sys_sleep_loop (fuel : nat) (n ticks0 : Z) : K Z :=
  t <- get_ticks ;;
  if u32 (t - ticks0) <? u32 n then
    i <- myproc ;;
    p <- get_proc i ;;
    if negb (killed p =? 0) then release tickslock ;; ret (-1)
    else
      match fuel with
      | O => out_of_fuel
      | S k => sleep ticks_chan tickslock ;; sys_sleep_loop k n ticks0
      end
  else release tickslock ;; ret 0.

(** The fuel is the number of ticks to wait for. *)
Definition sys_sleep : K Z :=
  n <- argint 0 ;;
  acquire tickslock ;;
  t <- get_ticks ;;
  sys_sleep_loop (Z.to_nat (u32 n)) n t.

Definition sys_uptime : K Z :=
  acquire tickslock ;;
  t <- get_ticks ;;
  release tickslock ;;
  ret (s32 t).

End Entry.
