(* ===== verification/Console.v ===== *)
(** * console.c: the line editor of the terminal, and its device functions

    Characters from the keyboard or the serial line are edited in a ring of
    [INPUT_BUF] bytes between the write index [w] and the edit index [e]; a
    complete line moves [w] to [e] and wakes the readers.  Finished lines go to
    a history that the arrow keys walk through. *)

From S2P Require Import Prelude Memory CString FsState Machine Spinlock Kalloc Proc Vm Sysarg.
From S2P Require Import Sleeplock Bio Log Fs.
Local Open Scope Z_scope.
Local Open Scope kernel_scope.

Definition get_cons : K console := gets (fun s => tty (fs s)).
Definition put_cons (f : console -> console) : K unit := modify_fs (fun x => set_cons (f (tty x)) x).

Definition set_in_e v c := mk_console (in_buf c) (in_r c) (in_w c) v (history c) (history_len c)
  (history_pos c) (line_start c) (cursor c) (crt_pos c) (serial c).
Definition set_in_w v c := mk_console (in_buf c) (in_r c) v (in_e c) (history c) (history_len c)
  (history_pos c) (line_start c) (cursor c) (crt_pos c) (serial c).
Definition set_in_r v c := mk_console (in_buf c) v (in_w c) (in_e c) (history c) (history_len c)
  (history_pos c) (line_start c) (cursor c) (crt_pos c) (serial c).
Definition set_in_buf v c := mk_console v (in_r c) (in_w c) (in_e c) (history c) (history_len c)
  (history_pos c) (line_start c) (cursor c) (crt_pos c) (serial c).
Definition set_history v n c := mk_console (in_buf c) (in_r c) (in_w c) (in_e c) v n
  (history_pos c) (line_start c) (cursor c) (crt_pos c) (serial c).
Definition set_history_pos v c := mk_console (in_buf c) (in_r c) (in_w c) (in_e c) (history c)
  (history_len c) v (line_start c) (cursor c) (crt_pos c) (serial c).
Definition set_line_start v c := mk_console (in_buf c) (in_r c) (in_w c) (in_e c) (history c)
  (history_len c) (history_pos c) v (cursor c) (crt_pos c) (serial c).
Definition set_cursor v c := mk_console (in_buf c) (in_r c) (in_w c) (in_e c) (history c)
  (history_len c) (history_pos c) (line_start c) v (crt_pos c) (serial c).
Definition set_crt_pos v c := mk_console (in_buf c) (in_r c) (in_w c) (in_e c) (history c)
  (history_len c) (history_pos c) (line_start c) (cursor c) v (serial c).
Definition set_serial v c := mk_console (in_buf c) (in_r c) (in_w c) (in_e c) (history c)
  (history_len c) (history_pos c) (line_start c) (cursor c) (crt_pos c) v.

(** ** Output *)

Definition BACKSPACE : Z := 0x100.

(** uart.c: the byte goes out once the port is ready. *)
Definition uartputc (c : Z) : K unit := put_cons (fun x => set_serial (u8 c :: serial x) x).

(** The text memory of the display, two bytes per cell. *)
Definition crt : Z := P2V 0xb8000.

(** The cursor position is the pair of registers 14 and 15 of the display. *)
Definition cgaputc (c : Z) : K unit :=
  x <- get_cons ;;
  let pos := crt_pos x in
  pos <- (if c =? 10 then ret (pos + (80 - pos mod 80))
          else if c =? BACKSPACE then ret (if 0 <? pos then pos - 1 else pos)
          else kstore 2 (crt + 2 * pos) (Z.lor (Z.land c 0xff) 0x0700) ;; ret (pos + 1)) ;;
  pos <- (if 24 <=? pos / 80 then
            kmem_op [(crt, 160 * 24)] (fun m => memmove m crt (crt + 160) (Z.to_nat (2 * 23 * 80))) ;;
            let pos := pos - 80 in
            kmem_op [(crt + 2 * pos, 2 * (24 * 80 - pos))]
              (fun m => memset m (crt + 2 * pos) 0 (2 * (24 * 80 - pos))) ;;
            ret pos
          else ret pos) ;;
  put_cons (set_crt_pos (u16 pos)) ;;
  kstore 2 (crt + 2 * pos) (Z.lor 32 0x0700).

(** A panic ends the run of the model, so that [panicked] is zero here. *)
Definition consputc (c : Z) : K unit :=
  (if c =? BACKSPACE then uartputc 8 ;; uartputc 32 ;; uartputc 8 else uartputc c) ;;
  cgaputc c.

(** ** Input *)

(** [C(x)] and kbd.h *)
Definition Ctl (x : Z) : Z := x - 64.
Definition KEY_UP : Z := 0xE2.
Definition KEY_DN : Z := 0xE3.

(** [&input.r], the channel of the readers. *)
Definition input_chan : Z := 13.

Definition in_at (x : console) (i : Z) : byte := in_buf x !!! Z.to_nat (i mod INPUT_BUF).

(** [input.buf[input.e++ % INPUT_BUF] = c] *)
Definition put_char (c : Z) : K unit :=
  put_cons (fun x => set_in_e (u32 (in_e x + 1))
    (set_in_buf (<[Z.to_nat (in_e x mod INPUT_BUF) := byte.of_Z c]> (in_buf x)) x)).

(** [input.e--; consputc(BACKSPACE);] *)
Definition erase_char : K unit :=
  put_cons (fun x => set_in_e (u32 (in_e x - 1)) x) ;;
  consputc BACKSPACE.

(** The loop [while (input.e != line_start)] runs once per unit of distance. *)
Fixpoint clear_line_loop (n : nat) : K unit :=
  match n with
  | O => ret tt
  | S k => erase_char ;; clear_line_loop k
  end.

Definition clear_line : K unit :=
  x <- get_cons ;;
  clear_line_loop (Z.to_nat (u32 (in_e x - line_start x))) ;;
  x <- get_cons ;;
  put_cons (set_cursor (line_start x)).

(** The value of a [char]. *)
Definition schar (b : byte) : Z :=
  let v := byte.unsigned b in if v <? 128 then v else v - 256.

(** The characters [l] of a stored line up to its zero, while the ring has room. *)
Fixpoint load_chars (l : list byte) : K unit :=
  match l with
  | [] => ret tt
  | b :: l =>
      x <- get_cons ;;
      if bool_decide (b = Byte.x00) || negb (u32 (in_e x - in_r x) <? INPUT_BUF) then ret tt
      else
        put_char (byte.unsigned b) ;;
        consputc (schar b) ;;
        load_chars l
  end.

Definition load_history (idx : Z) : K unit :=
  x <- get_cons ;;
  if (idx <? 0) || (history_len x <=? idx) then ret tt
  else
    clear_line ;;
    load_chars (history x !!! Z.to_nat idx) ;;
    x <- get_cons ;;
    put_cons (set_cursor (in_e x)).

(** [^U]: back to the last newline or to [w]; the ring bounds the loop. *)
Fixpoint kill_line (fuel : nat) : K unit :=
  x <- get_cons ;;
  if negb (in_e x =? in_w x) && negb (bool_decide (in_at x (u32 (in_e x - 1)) = Byte.x0a)) then
    match fuel with
    | O => out_of_fuel
    | S k => erase_char ;; kill_line k
    end
  else ret tt.

(** [safestrcpy(h, l, INPUT_BUF)] into the array [h]. *)
Definition put_line (l h : list byte) : list byte :=
  splice 0 (take (Z.to_nat (INPUT_BUF - 1)) (cstr l) ++ [Byte.x00]) h.

(** The finished line, from [line_start] to before its newline. *)
Definition finished_line (x : console) : list byte :=
  map (fun k => in_at x (u32 (line_start x + Z.of_nat k)))
    (seq 0 (Nat.min (Z.to_nat (u32 (in_e x - 1 - line_start x))) (Z.to_nat (INPUT_BUF - 1)))).

(** The history shifted by one: entry [j] is copied over entry [j - 1]. *)
Fixpoint shift_history (hs : list (list byte)) : list (list byte) :=
  match hs with
  | h1 :: (h2 :: _) as t => put_line h2 h1 :: shift_history t
  | _ => hs
  end.

Definition store_history (x : console) : console :=
  let line := finished_line x in
  let x :=
    if (0 <? length line)%nat then
      let '(hs, n) :=
        if history_len x =? HISTORY_SIZE then (shift_history (history x), history_len x - 1)
        else (history x, history_len x) in
      set_history (alter (put_line line) (Z.to_nat n) hs) (n + 1) x
    else x in
  set_cursor (in_e x) (set_line_start (in_e x) (set_history_pos (-1) x)).

(** The default case of the switch. *)
Definition key_char (c : Z) : K unit :=
  x <- get_cons ;;
  when (negb (c =? 0) && (u32 (in_e x - in_r x) <? INPUT_BUF)) do (
    let c := if c =? 13 then 10 else c in
    put_char c ;;
    consputc c ;;
    x <- get_cons ;;
    when ((c =? 10) || (c =? Ctl 68) || (in_e x =? u32 (in_r x + INPUT_BUF))) do (
      put_cons (set_in_w (in_e x)) ;;
      wakeup input_chan ;;
      when (c =? 10) do put_cons store_history)).

(** The entries before the first zero. *)
Fixpoint until_zero (l : list Z) : list Z :=
  match l with
  | [] => []
  | x :: l => if x =? 0 then [] else x :: until_zero l
  end.

(** proc.c: the listing of the processes, with the call stacks of sleepers. *)
Definition procdump : K unit :=
  ps <- gets procs ;;
  for_each ps (fun p =>
    when (negb (bool_decide (state p = UNUSED))) do (
      cprintf "%d %s %s" ;;
      when (bool_decide (state p = SLEEPING)) do (
        rbp <- kload 8 (context p + 40) ;;
        pc <- getstackpcs (u64 (rbp + 16)) ;;
        for_each (until_zero pc) (fun _ => cprintf " %p")) ;;
      cprintf "\n")).

(** The two arrow keys. *)
Definition key_up : K unit :=
  x <- get_cons ;;
  when (0 <? history_len x) do (
    let p := if history_pos x =? -1 then history_len x - 1
             else if 0 <? history_pos x then history_pos x - 1 else history_pos x in
    put_cons (set_history_pos p) ;;
    load_history p).

Definition key_down : K unit :=
  x <- get_cons ;;
  when (negb (history_pos x =? -1)) do (
    if history_pos x <? history_len x - 1 then
      put_cons (set_history_pos (history_pos x + 1)) ;;
      load_history (history_pos x + 1)
    else
      put_cons (set_history_pos (-1)) ;;
      clear_line).

(** One character; after [^Z], which loads an empty interrupt table, the
    machine resets at its next interrupt. *)
Definition console_key (c : Z) : K unit :=
  if c =? Ctl 90 then fault
  else if c =? Ctl 80 then procdump
  else if c =? Ctl 85 then kill_line (Z.to_nat INPUT_BUF)
  else if (c =? Ctl 72) || (c =? 0x7f) then
    x <- get_cons ;;
    when (negb (in_e x =? in_w x)) do erase_char
  else if c =? 9 then
    x <- get_cons ;;
    when (u32 (in_e x - in_r x) <? INPUT_BUF) do put_char c
  else if c =? KEY_UP then key_up
  else if c =? KEY_DN then key_down
  else key_char c.

(** [cs] are the characters that [getc] returns before a negative number. *)
Definition consoleintr (cs : list Z) : K unit :=
  acquire input_lock ;;
  for_each cs console_key ;;
  release input_lock.

(** ** The device functions *)

(** [while (input.r == input.w)]; [false] when the process was killed. *)
Fixpoint consoleread_wait (fuel : nat) : K bool :=
  x <- get_cons ;;
  if in_r x =? in_w x then
    i <- myproc ;;
    p <- get_proc i ;;
    if negb (killed p =? 0) then ret false
    else
      match fuel with
      | O => out_of_fuel
      | S k => sleep input_chan input_lock ;; consoleread_wait k
      end
  else ret true.

(** The loop with [n] bytes still to read, [target] wanted at first; the result
    is what is left of [n] and the bytes, or [None] for a killed process. *)
Fixpoint consoleread_loop (fuel : nat) (dst : dest) (target n : Z) : K (option (Z * list byte)) :=
  match fuel with
  | O => ret (Some (n, []))
  | S k =>
      ok <- consoleread_wait wait_limit ;;
      if negb ok then ret None
      else
        x <- get_cons ;;
        let c := in_at x (in_r x) in
        put_cons (set_in_r (u32 (in_r x + 1))) ;;
        if schar c =? Ctl 68 then
          when (n <? target) do put_cons (set_in_r (in_r x)) ;;
          ret (Some (n, []))
        else
          copy_to dst (target - n) [c] ;;
          if bool_decide (c = Byte.x0a) then ret (Some (n - 1, [c]))
          else
            r <- consoleread_loop k dst target (n - 1) ;;
            ret (match r with None => None | Some (n, l) => Some (n, c :: l) end)
  end.

Definition consoleread (ip : nat) (off : Z) (dst : dest) (n : Z) : K (Z * list byte) :=
  iunlock ip ;;
  acquire input_lock ;;
  r <- consoleread_loop (Z.to_nat n) dst n n ;;
  release input_lock ;;
  ilock ip ;;
  ret (match r with None => (-1, []) | Some (m, l) => (n - m, l) end).

Definition consolewrite (ip : nat) (off : Z) (src : source) (n : Z) : K Z :=
  iunlock ip ;;
  acquire cons_lock ;;
  for_each (seq 0 (Z.to_nat n)) (fun i =>
    l <- copy_of src (Z.of_nat i) 1 ;;
    consputc (byte.unsigned (default Byte.x00 (l !! 0%nat)))) ;;
  release cons_lock ;;
  ilock ip ;;
  ret n.

(** The table [devsw] once [consoleinit] has run: [CONSOLE] is 1. *)
Definition devsw (major : Z) : devops :=
  if major =? 1 then mk_devops (Some consoleread) (Some consolewrite) else mk_devops None None.

(** The interrupt of the keyboard is enabled last, in the I/O APIC. *)
Definition consoleinit : K unit :=
  initlock cons_lock "console" ;;
  initlock input_lock "input" ;;
  put_cons (fun x => set_cursor 0 (set_line_start 0 (set_in_e 0 (set_in_w 0 (set_in_r 0 x))))).
