(* ===== verification/Net.v ===== *)
(** * net.c: the network stack

    Sockets (bound UDP ports with their queues of packets), the construction
    of outgoing frames and the dispatch of incoming ones.  The queues are
    linked lists of pages in kernel memory. *)

From S2P Require Import Prelude Memory CString Machine Spinlock Kalloc Proc Vm.
From S2P Require Import NetHdr E1000 Sysarg.
Local Open Scope Z_scope.
Local Open Scope kernel_scope.

(** ** Static data *)

Definition local_mac : list byte :=
  [Byte.x52; Byte.x54; Byte.x00; Byte.x12; Byte.x34; Byte.x56].
Definition local_ip : Z := MAKE_IP_ADDR 10 0 2 15.
Definition host_mac : list byte :=
  [Byte.x52; Byte.x55; Byte.x0a; Byte.x00; Byte.x02; Byte.x02].

Definition MAX_QUEUED_PER_PORT : Z := 16.

(** The layouts of [struct udp_pkt] and [struct port_queue]. *)
Definition pkt_fullbuf : Z := 0.
Definition pkt_payload : Z := 8.
Definition pkt_payload_len : Z := 16.
Definition pkt_src_ip : Z := 20.
Definition pkt_src_port : Z := 24.
Definition pkt_next : Z := 32.

Definition pq_port : Z := 0.
Definition pq_head : Z := 8.
Definition pq_tail : Z := 16.
Definition pq_count : Z := 24.
Definition pq_next : Z := 32.

Definition set_port_list (v : Z) (n : net) : net := mk_net v (seen_ip n) (seen_arp n).
Definition set_seen_ip (v : Z) (n : net) : net := mk_net (port_list n) v (seen_arp n).
Definition set_seen_arp (v : Z) (n : net) : net := mk_net (port_list n) (seen_ip n) v.
Definition upd_net (f : net -> net) : K unit := modify (fun s => set_net (f (netst s)) s).

(** [memmove] from a constant array. *)
Definition kstore_bytes (a : Z) (l : list byte) : K unit :=
  kmem_op [(a, Z.of_nat (length l))] (fun m => store_bytes m a l).

(** ** Ports *)

(** A list of bound ports is no longer than the number of physical pages. *)
Definition port_fuel : nat := Z.to_nat (PHYSTOP / PGSIZE).

Fixpoint find_loop (fuel : nat) (pq port : Z) : K Z :=
  if pq =? 0 then ret 0
  else
    match fuel with
    | O => out_of_fuel
    | S k =>
        p <- kload 2 (pq + pq_port) ;;
        if p =? port then ret pq
        else next <- kload 8 (pq + pq_next) ;; find_loop k next port
    end.

Definition find_port_queue (port : Z) : K Z :=
  l <- gets (fun s => port_list (netst s)) ;;
  find_loop port_fuel l port.

Definition netinit : K unit := initlock netlock "netlock".

Definition sys_bind : K Z :=
  port <- argint 0 ;;
  if (port <? 0) || (0xFFFF <? port) then ret (u64 (-1)) else
  acquire netlock ;;
  q <- find_port_queue (u16 port) ;;
  if negb (q =? 0) then release netlock ;; ret (u64 (-1)) else
  pq <- kalloc ;;
  if pq =? 0 then release netlock ;; ret (u64 (-1)) else
  kmem_op [(pq, PGSIZE)] (fun m => memset m pq 0 PGSIZE) ;;
  kstore 2 (pq + pq_port) (u16 port) ;;
  kstore 8 (pq + pq_tail) 0 ;;
  kstore 8 (pq + pq_head) 0 ;;
  kstore 4 (pq + pq_count) 0 ;;
  l <- gets (fun s => port_list (netst s)) ;;
  kstore 8 (pq + pq_next) l ;;
  upd_net (set_port_list pq) ;;
  release netlock ;;
  ret 0.

Definition sys_unbind : K Z := ret 0.

(** ** Receiving *)

(** [while (pq->count == 0) sleep(pq, &netlock);]: the fuel bounds the times
    that the process is woken with the queue still empty. *)
Fixpoint recv_wait (fuel : nat) (pq : Z) : K unit :=
  c <- kload 4 (pq + pq_count) ;;
  if c =? 0 then
    match fuel with
    | O => out_of_fuel
    | S k => sleep pq netlock ;; recv_wait k pq
    end
  else ret tt.

(** Free a packet: its frame and its node. *)
Definition free_pkt (pkt : Z) : K unit :=
  b <- kload 8 (pkt + pkt_fullbuf) ;;
  kfree b ;;
  kfree pkt.

(** The number of payload bytes that are copied out. *)
Definition recv_len (payload_len maxlen : Z) : Z :=
  let tocpy := payload_len in
  let tocpy := if maxlen <? tocpy then maxlen else tocpy in
  let tocpy := if tocpy <? 0 then 0 else tocpy in
  if 1500 <? tocpy then 1500 else tocpy.

(** The part of [sys_recv] after the packet was taken off the queue; [lip] and
    [lport] are the addresses of the locals [src_ip] and [src_port]. *)
Definition recv_deliver (lip lport pgd pkt src_uaddr sport_uaddr bufaddr maxlen : Z) : K Z :=
  src_ip <- kload 4 (pkt + pkt_src_ip) ;;
  kstore 4 lip src_ip ;;
  src_port <- kload 2 (pkt + pkt_src_port) ;;
  kstore 2 lport src_port ;;
  r <- copyout pgd src_uaddr lip 4 ;;
  if r <? 0 then free_pkt pkt ;; ret (u64 (-1)) else
  r <- copyout pgd sport_uaddr lport 2 ;;
  if r <? 0 then free_pkt pkt ;; ret (u64 (-1)) else
  plen <- kload 4 (pkt + pkt_payload_len) ;;
  let tocpy := recv_len (s32 plen) maxlen in
  r <- (if 0 <? tocpy then
          pay <- kload 8 (pkt + pkt_payload) ;;
          copyout pgd bufaddr pay tocpy
        else ret 0) ;;
  if r <? 0 then free_pkt pkt ;; ret (u64 (-1)) else
  free_pkt pkt ;;
  ret tocpy.

(** Take the first packet off the queue. *)
Definition recv_pop (pq : Z) : K Z :=
  pkt <- kload 8 (pq + pq_head) ;;
  next <- kload 8 (pkt + pkt_next) ;;
  kstore 8 (pq + pq_head) next ;;
  h <- kload 8 (pq + pq_head) ;;
  when (h =? 0) do kstore 8 (pq + pq_tail) 0 ;;
  c <- kload 4 (pq + pq_count) ;;
  kstore 4 (pq + pq_count) (s32 c - 1) ;;
  ret pkt.

(** [sys_recv] once the port was found, with [netlock] held; [i] is the
    calling process. *)
Definition recv_body (fuel : nat) (lip lport : Z) (i : nat)
    (pq src_uaddr sport_uaddr bufaddr maxlen : Z) : K Z :=
  recv_wait fuel pq ;;
  pkt <- recv_pop pq ;;
  release netlock ;;
  p <- get_proc i ;;
  recv_deliver lip lport (pgdir p) pkt src_uaddr sport_uaddr bufaddr maxlen.

Definition sys_recv (fuel : nat) (lip lport : Z) : K Z :=
  i <- myproc ;;
  dport <- argint 0 ;;
  src_uaddr <- argaddr 1 ;;
  sport_uaddr <- argaddr 2 ;;
  bufaddr <- argaddr 3 ;;
  maxlen <- argint 4 ;;
  let port := u16 dport in
  acquire netlock ;;
  pq <- find_port_queue port ;;
  if pq =? 0 then release netlock ;; ret (u64 (-1)) else
  recv_body fuel lip lport i pq src_uaddr sport_uaddr bufaddr maxlen.

(** ** Sending *)

Fixpoint copyin_loop (fuel : nat) (pgd d srcva len : Z) : K Z :=
  if 0 <? len then
    match fuel with
    | O => out_of_fuel
    | S k =>
        ka <- uva2ka pgd srcva ;;
        if ka =? 0 then ret (-1)
        else
          let off := u32 (Z.land srcva (PGSIZE - 1)) in
          let n := u32 (PGSIZE - off) in
          let n := if len <? n then u32 len else n in
          kmem_op [(d, n); (ka + off, n)] (fun m => memmove m d (ka + off) (Z.to_nat n)) ;;
          copyin_loop k pgd (d + n) (u64 (srcva + n)) (u64 (len - n))
    end
  else ret 0.

(** The fuel is a bound on the pages that [len] bytes can touch. *)
Definition copyin_user (pgd dst srcva len : Z) : K Z :=
  copyin_loop (S (S (Z.to_nat (len / PGSIZE)))) pgd dst srcva len.

(** The headers of an outgoing datagram with [len] bytes of payload. *)
Definition build_headers (buf sport dst dport len : Z) : K unit :=
  kmem_op [(buf, PGSIZE)] (fun m => memset m buf 0 PGSIZE) ;;
  let eth := buf in
  kstore_bytes (eth + eth_dhost) host_mac ;;
  kstore_bytes (eth + eth_shost) local_mac ;;
  kstore 2 (eth + eth_type) (htons ETHTYPE_IP) ;;
  let ip := eth + sizeof_eth in
  kstore 1 (ip + ip_vhl) 0x45 ;;
  kstore 1 (ip + ip_tos) 0 ;;
  kstore 2 (ip + ip_len) (htons (u16 (sizeof_ip + sizeof_udp + len))) ;;
  kstore 2 (ip + ip_id) 0 ;;
  kstore 2 (ip + ip_off) 0 ;;
  kstore 1 (ip + ip_ttl) 100 ;;
  kstore 1 (ip + ip_p) IPPROTO_UDP ;;
  kstore 4 (ip + ip_src) (htonl local_ip) ;;
  kstore 4 (ip + ip_dst) (htonl (u32 dst)) ;;
  m <- gets mem ;;
  kstore 2 (ip + ip_sum) (in_cksum m ip sizeof_ip) ;;
  let udp := ip + sizeof_ip in
  kstore 2 (udp + udp_sport) (htons (u16 sport)) ;;
  kstore 2 (udp + udp_dport) (htons (u16 dport)) ;;
  kstore 2 (udp + udp_ulen) (htons (u16 (len + sizeof_udp))).

(** [sys_send] of process [i], with its arguments. *)
Definition send_body (i : nat) (sport dst dport bufaddr len : Z) : K Z :=
  let total := s32 (len + (sizeof_eth + sizeof_ip + sizeof_udp)) in
  if PGSIZE <? total then ret (u64 (-1)) else
  buf <- kalloc ;;
  if buf =? 0 then cprintf "sys_send: kalloc failed" ;; ret (u64 (-1)) else
  build_headers buf sport dst dport len ;;
  let payload := buf + sizeof_eth + sizeof_ip + sizeof_udp in
  p <- get_proc i ;;
  r <- copyin_user (pgdir p) payload bufaddr (u64 len) ;;
  if r <? 0 then kfree buf ;; cprintf "send: copyin failed" ;; ret (u64 (-1)) else
  txret <- e1000_transmit buf total ;;
  if txret <? 0 then kfree buf ;; ret (u64 (-1)) else
  ret 0.

Definition sys_send : K Z :=
  i <- myproc ;;
  sport <- argint 0 ;;
  dst <- argint 1 ;;
  dport <- argint 2 ;;
  bufaddr <- argaddr 3 ;;
  len <- argint 4 ;;
  send_body i sport dst dport bufaddr len.

(** ** Incoming frames *)

(** Append the packet [pkt] to the queue [pq]. *)
Definition enqueue (pq pkt : Z) : K unit :=
  t <- kload 8 (pq + pq_tail) ;;
  (if negb (t =? 0) then
     kstore 8 (t + pkt_next) pkt ;;
     kstore 8 (pq + pq_tail) pkt
   else
     kstore 8 (pq + pq_tail) pkt ;;
     kstore 8 (pq + pq_head) pkt) ;;
  c <- kload 4 (pq + pq_count) ;;
  kstore 4 (pq + pq_count) (s32 c + 1).

(** The fields of the new node [pkt]. *)
Definition fill_pkt (pkt buf ip payload payload_len sport : Z) : K unit :=
  kmem_op [(pkt, PGSIZE)] (fun m => memset m pkt 0 PGSIZE) ;;
  kstore 8 (pkt + pkt_fullbuf) buf ;;
  kstore 8 (pkt + pkt_payload) payload ;;
  kstore 4 (pkt + pkt_payload_len) payload_len ;;
  src <- kload 4 (ip + ip_src) ;;
  kstore 4 (pkt + pkt_src_ip) (ntohl src) ;;
  kstore 2 (pkt + pkt_src_port) sport ;;
  kstore 8 (pkt + pkt_next) 0.

(** The part of [ip_rx] under the lock: queue the packet or drop it. *)
Definition ip_queue (buf ip payload payload_len dport sport : Z) : K unit :=
  acquire netlock ;;
  pq <- find_port_queue dport ;;
  if pq =? 0 then release netlock ;; kfree buf else
  c <- kload 4 (pq + pq_count) ;;
  if MAX_QUEUED_PER_PORT <=? s32 c then release netlock ;; kfree buf else
  pkt <- kalloc ;;
  if pkt =? 0 then release netlock ;; kfree buf else
  fill_pkt pkt buf ip payload payload_len sport ;;
  enqueue pq pkt ;;
  wakeup pq ;;
  release netlock.

Definition ip_rx (buf len : Z) : K unit :=
  n <- gets netst ;;
  when (seen_ip n =? 0) do cprintf "ip_rx: received an IP packet" ;;
  upd_net (set_seen_ip 1) ;;
  let ip := buf + sizeof_eth in
  proto <- kload 1 (ip + ip_p) ;;
  if negb (proto =? IPPROTO_UDP) then kfree buf else
  vhl <- kload 1 (ip + ip_vhl) ;;
  let ihl := Z.land vhl 0x0f in
  let ip_hdr_len := ihl * 4 in
  let udp := ip + ip_hdr_len in
  ulen <- kload 2 (udp + udp_ulen) ;;
  let payload_len := s32 (ntohs ulen - sizeof_udp) in
  dport <- kload 2 (udp + udp_dport) ;;
  sport <- kload 2 (udp + udp_sport) ;;
  let payload := udp + sizeof_udp in
  ip_queue buf ip payload payload_len (ntohs dport) (ntohs sport).

(** [memmove(dst, src, ETHADDR_LEN)] between two frames. *)
Definition mac_copy (dst src : Z) : K unit :=
  kmem_op [(dst, ETHADDR_LEN); (src, ETHADDR_LEN)]
    (fun m => memmove m dst src (Z.to_nat ETHADDR_LEN)).

(** The reply in [buf] to the request in [inbuf]. *)
Definition arp_fill (buf inbuf : Z) : K unit :=
  let ineth := inbuf in
  let inarp := ineth + sizeof_eth in
  let eth := buf in
  mac_copy (eth + eth_dhost) (ineth + eth_shost) ;;
  kstore_bytes (eth + eth_shost) local_mac ;;
  kstore 2 (eth + eth_type) (htons ETHTYPE_ARP) ;;
  let arp := eth + sizeof_eth in
  kstore 2 (arp + arp_hrd) (htons ARP_HRD_ETHER) ;;
  kstore 2 (arp + arp_pro) (htons ETHTYPE_IP) ;;
  kstore 1 (arp + arp_hln) ETHADDR_LEN ;;
  kstore 1 (arp + arp_pln) 4 ;;
  kstore 2 (arp + arp_op) (htons ARP_OP_REPLY) ;;
  kstore_bytes (arp + arp_sha) local_mac ;;
  kstore 4 (arp + arp_sip) (htonl local_ip) ;;
  mac_copy (arp + arp_tha) (ineth + eth_shost) ;;
  sip <- kload 4 (inarp + arp_sip) ;;
  kstore 4 (arp + arp_tip) sip.

Definition arp_rx (inbuf : Z) : K unit :=
  n <- gets netst ;;
  if negb (seen_arp n =? 0) then kfree inbuf else
  cprintf "arp_rx: received an ARP packet" ;;
  upd_net (set_seen_arp 1) ;;
  buf <- kalloc ;;
  if buf =? 0 then panic "send_arp_reply" else
  arp_fill buf inbuf ;;
  e1000_transmit buf (sizeof_eth + sizeof_arp) ;;
  kfree inbuf.

Definition net_rx (buf len : Z) : K unit :=
  (* len >= min && ntohs(eth->type) == type, which reads only a frame that is long enough *)
  let is_frame (min type : Z) : K bool :=
    if min <=? len then t <- kload 2 (buf + eth_type) ;; ret (ntohs t =? type) else ret false in
  arp <- is_frame (sizeof_eth + sizeof_arp) ETHTYPE_ARP ;;
  if arp then arp_rx buf
  else
    ip <- is_frame (sizeof_eth + sizeof_ip) ETHTYPE_IP ;;
    if ip then ip_rx buf len else kfree buf.
