(* ===== verification/Syscall.v ===== *)
(** * syscall.c: the dispatch of system calls *)

From S2P Require Import Prelude Memory CString FsState Machine Spinlock Kalloc Proc Vm Sysarg.
From S2P Require Import Sleeplock Bio Log Fs Pipe File Sysfile Exec Process NetHdr E1000 Net.
Local Open Scope Z_scope.
Local Open Scope kernel_scope.

(** ** syscall.h *)

Inductive sysname :=
| SYS_fork | SYS_exit | SYS_wait | SYS_pipe | SYS_read | SYS_kill | SYS_exec | SYS_fstat
| SYS_chdir | SYS_dup | SYS_getpid | SYS_sbrk | SYS_sleep | SYS_uptime | SYS_open
| SYS_write | SYS_mknod | SYS_unlink | SYS_link | SYS_mkdir | SYS_close | SYS_bind
| SYS_unbind | SYS_send | SYS_recv.

(** The numbers of the system calls. *)
Definition sysnum (c : sysname) : Z :=
  match c with
  | SYS_fork => 1 | SYS_exit => 2 | SYS_wait => 3 | SYS_pipe => 4 | SYS_read => 5
  | SYS_kill => 6 | SYS_exec => 7 | SYS_fstat => 8 | SYS_chdir => 9 | SYS_dup => 10
  | SYS_getpid => 11 | SYS_sbrk => 12 | SYS_sleep => 13 | SYS_uptime => 14 | SYS_open => 15
  | SYS_write => 16 | SYS_mknod => 17 | SYS_unlink => 18 | SYS_link => 19 | SYS_mkdir => 20
  | SYS_close => 21 | SYS_bind => 22 | SYS_unbind => 23 | SYS_send => 24 | SYS_recv => 25
  end.

Coercion sysnum : sysname >-> Z.

Section Dispatch.
Context (local syscall_trapret forkret_addr : Z).
Context (devsw : Z -> devops).
(** The variables that [sys_recv] leaves unset, and a bound on its sleeps. *)
Context (fuel : nat) (lip lport : Z).
(** The register after a function that returns [int]: the table calls it as if
    it returned 64 bits, of which only the low half is specified. *)
Context (int_ret : Z -> Z).

(** The functions of the table [syscalls]. *)
Definition syscalls (num : Z) : option (K Z) :=
  let int (f : K Z) := Some (r <- f ;; ret (int_ret r)) in
  let wide (f : K Z) := Some (r <- f ;; ret (u64 r)) in
  if num =? SYS_fork then int (sys_fork syscall_trapret forkret_addr)
  else if num =? SYS_exit then int sys_exit
  else if num =? SYS_wait then int sys_wait
  else if num =? SYS_pipe then int sys_pipe
  else if num =? SYS_read then int (sys_read devsw)
  else if num =? SYS_kill then int sys_kill
  else if num =? SYS_exec then int (sys_exec devsw local)
  else if num =? SYS_fstat then int sys_fstat
  else if num =? SYS_chdir then int (sys_chdir devsw)
  else if num =? SYS_dup then int sys_dup
  else if num =? SYS_getpid then int sys_getpid
  else if num =? SYS_sbrk then wide (sys_sbrk local)
  else if num =? SYS_sleep then int sys_sleep
  else if num =? SYS_uptime then int sys_uptime
  else if num =? SYS_open then int (sys_open devsw)
  else if num =? SYS_write then int (sys_write devsw)
  else if num =? SYS_mknod then int (sys_mknod devsw)
  else if num =? SYS_unlink then int (sys_unlink devsw)
  else if num =? SYS_link then int (sys_link devsw)
  else if num =? SYS_mkdir then int (sys_mkdir devsw)
  else if num =? SYS_close then int sys_close
  else if num =? SYS_bind then wide sys_bind
  else if num =? SYS_unbind then wide sys_unbind
  else if num =? SYS_send then wide sys_send
  else if num =? SYS_recv then wide (sys_recv fuel lip lport)
  else None.

(** [num] is an unsigned register: the test [num > 0] is the absence of a
    function at 0. *)
Definition syscall (frame : Z) : K unit :=
  me <- myproc ;;
  upd_proc me (set_tf frame) ;;
  num <- kload 8 (frame + tf_rax) ;;
  match syscalls num with
  | Some f => r <- f ;; kstore 8 (frame + tf_rax) r
  | None =>
      cprintf "%d %s: unknown sys call %d" ;;
      kstore 8 (frame + tf_rax) (u64 (-1))
  end ;;
  p <- get_proc me ;;
  when (negb (killed p =? 0)) do (exit ;; ret tt).

End Dispatch.
