(* ===== verification/Trap.v ===== *)
(** * trap.c: interrupts and exceptions

    The handler that every interrupt and exception enters, and the table of
    gates that leads to it. *)

From S2P Require Import Prelude Memory CString FsState Machine Spinlock Kalloc Proc Vm Sysarg.
From S2P Require Import Sleeplock Bio Log Fs Pipe File Sysfile Exec Process NetHdr E1000 Net.
From S2P Require Import Console.
Local Open Scope Z_scope.
Local Open Scope kernel_scope.

(** ** traps.h and the trap frame *)

Definition T_IRQ0 : Z := 32.
(** The interrupts of the devices. *)
Inductive irq :=
| IRQ_TIMER | IRQ_KBD | IRQ_COM1 | IRQ_E1000 | IRQ_IDE | IRQ_SPURIOUS.

(** Their numbers. *)
Definition irq_number (x : irq) : Z :=
  match x with
  | IRQ_TIMER => 0 | IRQ_KBD => 1 | IRQ_COM1 => 4 | IRQ_E1000 => 11 | IRQ_IDE => 14
  | IRQ_SPURIOUS => 31
  end.

Coercion irq_number : irq >-> Z.

Definition tf_trapno : Z := 120.
Definition tf_cs : Z := 144.

Definition KERNEL_CS : Z := 8.
Definition DPL_USER : Z := 3.

(** ** The table of gates *)

(** Four words per gate; [idt] is the address of the table. *)
Definition mkgate (idt n kva pl : Z) : K unit :=
  let n := u32 (n * 4) in
  kstore 4 (idt + 4 * n) (Z.lor (Z.land kva 0xFFFF) (Z.shiftl KERNEL_CS 16)) ;;
  kstore 4 (idt + 4 * (n + 1))
    (Z.lor (Z.lor (Z.land kva 0xFFFF0000) 0x8E00) (Z.shiftl (Z.land pl 3) 13)) ;;
  kstore 4 (idt + 4 * (n + 2)) (Z.shiftr kva 32) ;;
  kstore 4 (idt + 4 * (n + 3)) 0.

(** [vectors] is the array of entry points that vectors.S defines. *)
Definition tvinit (vectors : nat -> Z) : K Z :=
  idt <- kalloc ;;
  kmem_op [(idt, PGSIZE)] (fun m => memset m idt 0 PGSIZE) ;;
  for_each (seq 0 256) (fun n => mkgate idt (Z.of_nat n) (vectors n) 0) ;;
  ret idt.

(** ** The handler *)

Section Trap.
(** What the devices have for the drivers: the characters of the keyboard and
    of the serial line, and a bound on the packets of one interrupt. *)
Context (keys chars : list Z) (fuel : nat).

Definition kbdintr : K unit := consoleintr keys.
Definition uartintr : K unit := consoleintr chars.

(** memide.c has no interrupts. *)
Definition ideintr : K unit := ret tt.

(** One tick of the clock, on the first CPU only. *)
Definition timer_tick : K unit :=
  c <- gets this_cpu ;;
  when (cpu_id c =? 0) do (
    acquire tickslock ;;
    modify_fs (fun x => set_ticks (u32 (ticks x + 1)) x) ;;
    wakeup ticks_chan ;;
    release tickslock).

(** An exception: fatal in the kernel, the end of the process in user mode. *)
Definition trap_default (cs : Z) : K unit :=
  c <- gets cur ;;
  match c with
  | None => cprintf "unexpected trap" ;; panic "trap"
  | Some i =>
      if Z.land cs 3 =? 0 then
        cprintf "unexpected trap" ;; cprintf "proc id" ;; panic "trap"
      else
        cprintf "kill proc" ;;
        upd_proc i (set_killed 1)
  end.

(** [if (proc && proc->killed && (tf->cs & 3) == DPL_USER) exit();] *)
Definition exit_if_killed (cs : Z) : K unit :=
  c <- gets cur ;;
  match c with
  | None => ret tt
  | Some i =>
      p <- get_proc i ;;
      when (negb (killed p =? 0) && (Z.land cs 3 =? DPL_USER)) do (exit ;; ret tt)
  end.

(** The end-of-interrupt signal to the local APIC is left out: it changes no
    state of the kernel. *)
Definition trap (frame : Z) : K unit :=
  trapno <- kload 8 (frame + tf_trapno) ;;
  cs <- kload 8 (frame + tf_cs) ;;
  (if trapno =? T_IRQ0 + IRQ_TIMER then timer_tick
   else if trapno =? T_IRQ0 + IRQ_IDE then ideintr
   else if trapno =? T_IRQ0 + IRQ_IDE + 1 then ret tt
   else if trapno =? T_IRQ0 + IRQ_KBD then kbdintr
   else if trapno =? T_IRQ0 + IRQ_COM1 then uartintr
   else if trapno =? T_IRQ0 + IRQ_E1000 then e1000_intr net_rx fuel
   else if (trapno =? T_IRQ0 + 7) || (trapno =? T_IRQ0 + IRQ_SPURIOUS)
        then cprintf "cpu%d: spurious interrupt at %p:%p"
   else trap_default cs) ;;
  exit_if_killed cs ;;
  c <- gets cur ;;
  match c with
  | None => ret tt
  | Some i =>
      p <- get_proc i ;;
      when (bool_decide (state p = RUNNING) && (trapno =? T_IRQ0 + IRQ_TIMER)) do yield
  end ;;
  exit_if_killed cs.

End Trap.
