(* ===== verification/Pages.v ===== *)
(** * Pages and linked lists of pages

    What a page-sized object of the kernel depends on: [page_agree m m' p] says
    that page [p] holds the same bytes in both memories.  [links] is a list of
    pages threaded through a pointer field, and [owned] the accounting of the
    allocator: the free pages and the pages in use, all different. *)

From S2P Require Import Prelude Memory CString Machine Spinlock Kalloc.
Local Open Scope Z_scope.
Local Open Scope kernel_scope.

(** Permutations of lists built by [++] and [::]: cancel the head of the left
    side against the right side, rotated until the same head comes first. *)
Ltac perm_norm := rewrite <- ?app_assoc; simpl app; rewrite ?app_nil_r.
Ltac perm_rotate :=
  match goal with
  | |- _ ≡ₚ ?y :: ?r => transitivity (r ++ [y]); [|symmetry; apply Permutation_cons_append]
  | |- _ ≡ₚ ?a ++ ?r => transitivity (r ++ a); [|apply Permutation_app_comm]
  end; perm_norm.
Ltac perm_cancel n :=
  match goal with
  | |- ?l ≡ₚ ?l => reflexivity
  | |- ?x :: _ ≡ₚ ?x :: _ => apply perm_skip
  | |- ?a ++ _ ≡ₚ ?a ++ _ => apply Permutation_app_head
  | _ => lazymatch n with S ?k => perm_rotate; perm_cancel k end
  end.
Ltac perm_solve := perm_norm; repeat perm_cancel 12%nat.

Lemma NoDup_perm {A} (l l' : list A) : l ≡ₚ l' -> NoDup l -> NoDup l'.
Proof. by intros ->. Qed.

Lemma Forall_sublist {A} (P : A -> Prop) l l' : l `sublist_of` l' -> Forall P l' -> Forall P l.
Proof.
  induction 1; intros Hf; [done|..]; apply Forall_cons in Hf as [? ?]; auto.
Qed.

Lemma app_subseteq_r {A} (l l' : list A) : l' ⊆ l ++ l'.
Proof. intros x Hx. apply elem_of_app. by right. Qed.

(** ** Agreement on a page *)

Definition page_agree (m m' : memory) (p : Z) : Prop :=
  forall x, p <= x < p + PGSIZE -> m' x = m x.

Lemma page_agree_refl m p : page_agree m m p.
Proof. by intros x _. Qed.

Lemma page_agree_trans m1 m2 m3 p :
  page_agree m1 m2 p -> page_agree m2 m3 p -> page_agree m1 m3 p.
Proof. intros H1 H2 x Hx. by rewrite H2, H1. Qed.

Lemma page_agree_load m m' p k n :
  page_agree m m' p -> 0 <= k -> k + Z.of_nat n <= PGSIZE ->
  load_bytes m' (p + k) n = load_bytes m (p + k) n.
Proof. intros H ??. apply load_bytes_ext. intros. apply H. lia. Qed.

Lemma page_agree_loadZ m m' p k n :
  page_agree m m' p -> 0 <= k -> k + Z.of_nat n <= PGSIZE ->
  loadZ n m' (p + k) = loadZ n m (p + k).
Proof. intros. unfold loadZ. by rewrite (page_agree_load m m'). Qed.

Lemma page_agree_store e m p q k l :
  kpage e p -> kpage e q -> p <> q -> 0 <= k -> k + Z.of_nat (length l) <= PGSIZE ->
  page_agree m (store_bytes m (q + k) l) p.
Proof.
  intros Hp Hq Hne ?? x Hx. apply store_bytes_ne.
  destruct (kpage_disjoint e p q Hp Hq Hne); lia.
Qed.

Lemma page_agree_storeZ e m p q k n v :
  kpage e p -> kpage e q -> p <> q -> 0 <= k -> k + Z.of_nat n <= PGSIZE ->
  page_agree m (storeZ n m (q + k) v) p.
Proof. intros. eapply page_agree_store; eauto. by rewrite length_le_split. Qed.

Lemma page_agree_memset e m p q c :
  kpage e p -> kpage e q -> p <> q -> page_agree m (memset m q c PGSIZE) p.
Proof.
  intros. rewrite memset_block by (unfold PGSIZE; lia). rewrite <- (Z.add_0_r q).
  eapply page_agree_store; eauto; [lia|]. rewrite length_replicate. unfold PGSIZE. lia.
Qed.

Lemma page_agree_kfree s p v :
  kpage (kend s) p -> kpage (kend s) v -> p <> v -> page_agree (mem s) (kfree_mem s v) p.
Proof.
  intros. eapply page_agree_trans; [by eapply (page_agree_memset _ _ _ v)|].
  unfold kfree_mem. rewrite <- (Z.add_0_r v) at 3.
  eapply page_agree_storeZ; eauto; unfold PGSIZE; lia.
Qed.

#[export] Hint Resolve page_agree_refl : xv6.

(** The bytes of a page. *)
Definition page_bytes (m : memory) (p : Z) : list byte := load_bytes m p (Z.to_nat PGSIZE).

Lemma length_page_bytes m p : length (page_bytes m p) = Z.to_nat PGSIZE.
Proof. apply length_load_bytes. Qed.

Lemma page_agree_bytes m m' p : page_agree m m' p -> page_bytes m' p = page_bytes m p.
Proof.
  intros H. unfold page_bytes. rewrite <- (Z.add_0_r p).
  apply page_agree_load; [done|lia|unfold PGSIZE; lia].
Qed.

Lemma take_page_bytes m p n :
  (n <= Z.to_nat PGSIZE)%nat -> take n (page_bytes m p) = load_bytes m p n.
Proof. intros. by apply take_load_bytes. Qed.

Lemma nth_page_bytes m p i :
  0 <= i < PGSIZE -> nth (Z.to_nat i) (page_bytes m p) Byte.x00 = m (p + i).
Proof.
  intros. rewrite (nth_lookup_Some _ _ _ (m (p + i))); [done|].
  unfold page_bytes. rewrite lookup_load_bytes by (unfold PGSIZE in *; lia).
  do 2 f_equal. lia.
Qed.

(** A page never has more than [PHYSTOP / PGSIZE] others beside it. *)
Lemma kpages_length e l :
  NoDup l -> Forall (kpage e) l -> (length l <= Z.to_nat (PHYSTOP / PGSIZE))%nat.
Proof.
  intros Hn Hf.
  set (f := fun p => Z.to_nat ((p - KERNBASE) / PGSIZE)).
  rewrite <- (length_map f), <- (length_seq (Z.to_nat (PHYSTOP / PGSIZE)) 0).
  apply NoDup_incl_length.
  - apply NoDup_ListNoDup. apply NoDup_fmap_2_strong; [|done]. intros x y Hx Hy.
    rewrite Forall_forall in Hf. apply Hf in Hx as (? & ? & ?). apply Hf in Hy as (? & ? & ?).
    unfold f, PGSIZE, KERNBASE in *. intros. lia_mod.
  - intros i (p & <- & Hp)%in_map_iff. apply list_elem_of_In in Hp.
    rewrite Forall_forall in Hf. apply Hf in Hp as (? & ? & ?).
    apply in_seq. unfold f, PGSIZE, PHYSTOP, KERNBASE in *. lia_mod.
Qed.

(** ** Lists of pages linked through the word at offset [off] *)

Fixpoint links (m : memory) (off a : Z) (l : list Z) : Prop :=
  match l with
  | [] => a = 0
  | p :: l => a = p /\ links m off (loadZ 8 m (p + off)) l
  end.

Lemma links_ext m m' off a l :
  Forall (fun p => loadZ 8 m' (p + off) = loadZ 8 m (p + off)) l ->
  links m off a l -> links m' off a l.
Proof.
  revert a. induction l as [|p l IH]; intros a; [done|].
  rewrite Forall_cons. intros [Hp Hl] [-> H]. split; [done|]. rewrite Hp. auto.
Qed.

Lemma links_agree m m' off a l :
  0 <= off -> off + 8 <= PGSIZE -> Forall (page_agree m m') l ->
  links m off a l -> links m' off a l.
Proof.
  intros Ho1 Ho2 Ha. apply links_ext. eapply Forall_impl; [exact Ha|].
  intros p Hp. by apply page_agree_loadZ.
Qed.

(** The last element of the list, 0 when there is none. *)
Definition last_page (l : list Z) : Z := default 0 (last l).

Lemma last_page_snoc l p : last_page (l ++ [p]) = p.
Proof. unfold last_page. by rewrite last_snoc. Qed.

(** Appending [p] by a store in the link of the last page. *)
Lemma links_snoc m m' off a l t p :
  0 <= off -> off + 8 <= PGSIZE ->
  links m off a (l ++ [t]) -> Forall (page_agree m m') l ->
  loadZ 8 m' (t + off) = p -> loadZ 8 m' (p + off) = 0 ->
  links m' off a (l ++ [t; p]).
Proof.
  intros Ho1 Ho2 Hl Hag Ht Hp. revert a Hl.
  induction l as [|q l IH]; intros a; simpl.
  - intros [-> _]. rewrite Ht, Hp. done.
  - apply Forall_cons in Hag as [Hq Hag]. intros [-> H]. split; [done|].
    rewrite (page_agree_loadZ m m') by (done || lia). auto.
Qed.

(** ** Pages in use *)

(** [fl] are the free pages, [own] the pages in use. *)
Definition owned (s : kstate) (fl own : list Z) : Prop :=
  kmem_ok s fl /\ NoDup (fl ++ own) /\ Forall (kpage (kend s)) own.

#[export] Instance owned_proper s : Proper (eq ==> (≡ₚ) ==> iff) (owned s).
Proof. intros fl _ <- own own' Hp. unfold owned. by rewrite Hp. Qed.

Lemma owned_page s fl own p : owned s fl own -> p ∈ own -> kpage (kend s) p.
Proof. intros (_ & _ & Hf) Hp. rewrite Forall_forall in Hf. auto. Qed.

Lemma owned_ne s fl own p q : owned s fl own -> p ∈ fl -> q ∈ own -> p <> q.
Proof. intros (_ & (_ & Hd & _)%NoDup_app & _) Hp Hq ->. by eapply Hd. Qed.

(** A change of memory inside pages in use keeps the accounting. *)
Lemma owned_mem s m fl own :
  Forall (page_agree (mem s) m) fl -> owned s fl own -> owned (set_mem m s) fl own.
Proof.
  intros Ha (Hk & Hn & Hf). split_and!; [|done|done].
  apply kmem_ok_mem; [|done]. intros p Hp. rewrite Forall_forall in Ha.
  rewrite <- (Z.add_0_r p). apply page_agree_loadZ; [by apply Ha|lia|unfold PGSIZE; lia].
Qed.

Lemma owned_kalloc s p fl own :
  kmem_ready s -> owned s (p :: fl) own ->
  kalloc s = Ok p (set_freelist (loadZ 8 (mem s) p) (kmem_norm s)) /\
  owned (set_freelist (loadZ 8 (mem s) p) (kmem_norm s)) fl (p :: own).
Proof.
  intros Hr (Hk & Hn & Hf). destruct (kalloc_pop s p fl Hr Hk) as [He Ho].
  split; [done|]. destruct (kmem_ok_head _ _ _ Hk) as [_ Hp].
  split_and!; [done| |by constructor].
  eapply NoDup_perm; [|exact Hn]. perm_solve.
Qed.

Lemma owned_kalloc_none s own :
  kmem_ready s -> owned s [] own -> kalloc s = Ok 0 (kmem_norm s) /\ owned (kmem_norm s) [] own.
Proof. intros Hr (Hk & Hn & Hf). split; [by apply kalloc_empty|done]. Qed.

(** The state after [kfree v]. *)
Definition freed (v : Z) (s : kstate) : kstate :=
  set_freelist v (set_mem (kfree_mem s v) (kmem_norm s)).

Lemma owned_kfree s v fl own :
  kmem_ready s -> owned s fl (v :: own) ->
  kfree v s = Ok tt (freed v s) /\ owned (freed v s) (v :: fl) own /\
  Forall (page_agree (mem s) (mem (freed v s))) own.
Proof.
  intros Hr (Hk & Hn & Hf). apply Forall_cons in Hf as [Hv Hf].
  assert (NoDup (v :: fl ++ own)) as Hn'.
  { eapply NoDup_perm; [|exact Hn]. perm_solve. }
  apply NoDup_cons in Hn' as [Hin Hn'].
  split_and!; [by apply kfree_eq| |].
  - split_and!; [apply kfree_push; set_solver|by constructor|done].
  - rewrite Forall_forall in *. intros p Hp. apply page_agree_kfree; auto.
    intros ->. set_solver.
Qed.

(** Once every lock is free, the calls above can be made. *)
Definition quiet (s : kstate) : Prop :=
  cpu_wf (this_cpu s) /\ (use_lock s <> 0 -> lock_free kmem_lock s) /\
  lock_free ptable_lock s /\ lock_free netlock s /\ lock_free e1000_lock s.

Lemma quiet_kmem s : quiet s -> kmem_ready s.
Proof. intros (? & ? & _). done. Qed.

Lemma lock_free_locked lk lk' s : lk <> lk' -> lock_free lk s -> lock_free lk (locked_state lk' s).
Proof. intros ? [n Hn]. exists n. simpl. by rewrite lookup_alter_ne. Qed.

(** Inside the critical section of another lock the allocator is ready. *)
Lemma kmem_ready_locked lk s : lk <> kmem_lock -> kmem_ready s -> kmem_ready (locked_state lk s).
Proof.
  intros ? [? ?]. split; [by apply cpu_wf_pushcli|].
  intros. apply lock_free_locked; auto.
Qed.

#[export] Hint Resolve quiet_kmem kmem_ready_locked : xv6.

(** ** Accesses inside a page *)

Lemma kload_page e p k n s :
  kpage e p -> 0 <= k -> k + Z.of_nat n <= PGSIZE ->
  kload n (p + k) s = Ok (loadZ n (mem s) (p + k)) s.
Proof. intros. apply kload_ok. eapply kmapped_in_page; eauto. lia. Qed.

Lemma kstore_page e p k n v s :
  kpage e p -> 0 <= k -> k + Z.of_nat n <= PGSIZE ->
  kstore n (p + k) v s = Ok tt (set_mem (storeZ n (mem s) (p + k) v) s).
Proof. intros. apply kstore_ok. eapply kmapped_in_page; eauto. lia. Qed.

Lemma kmem_op_page e p f s :
  kpage e p -> kmem_op [(p, PGSIZE)] f s = Ok tt (set_mem (f (mem s)) s).
Proof.
  intros Hp. unfold kmem_op. simpl. rewrite <- (Z.add_0_r p) at 1.
  erewrite kmapped_in_page by (eauto; unfold PGSIZE; lia). done.
Qed.

(** ** What a call leaves alone
    [kframe own s s']: the locks are as before, the CPU's interrupt state up
    to a balanced [pushcli], and the pages in [own] are untouched. *)
Record kframe (own : list Z) (s s' : kstate) : Prop := mk_kframe {
  kf_end : kend s' = kend s;
  kf_use : use_lock s' = use_lock s;
  kf_locks : locks s' = locks s;
  kf_cpu : cpu_norm (this_cpu s') = cpu_norm (this_cpu s);
  kf_pages : Forall (page_agree (mem s) (mem s')) own;
}.

#[export] Instance kframe_refl own : Reflexive (kframe own).
Proof. intros s. split; try done. apply Forall_forall. eauto with xv6. Qed.

#[export] Instance kframe_trans own : Transitive (kframe own).
Proof.
  intros s1 s2 s3 [] []. split; try congruence.
  rewrite Forall_forall in *. eauto using page_agree_trans.
Qed.

Lemma kframe_cpu_wf own s s' : kframe own s s' -> cpu_wf (this_cpu s) -> cpu_wf (this_cpu s').
Proof. intros Hf Hc. change (cpu_wf (cpu_norm (this_cpu s'))). by rewrite (kf_cpu _ _ _ Hf). Qed.

Lemma kframe_quiet own s s' : kframe own s s' -> quiet s -> quiet s'.
Proof.
  intros Hf (Hc & Hk & H). split; [by eapply kframe_cpu_wf|].
  unfold lock_free in *. by rewrite (kf_use _ _ _ Hf), (kf_locks _ _ _ Hf).
Qed.

Lemma kframe_sub own own' s s' : own' ⊆ own -> kframe own s s' -> kframe own' s s'.
Proof. intros ? []. split; try done. rewrite Forall_forall in *. set_solver. Qed.

(** The CPU inside a critical section, after calls of the allocator. *)
Lemma kmem_cpu_locked lk s :
  cpu_wf (this_cpu s) -> kmem_cpu (locked_state lk s) = pushcli_cpu (this_cpu s).
Proof.
  intros. unfold kmem_cpu. simpl. destruct (_ =? 0); [done|]. by apply cpu_norm_pushcli.
Qed.
