(* ===== verification/Demo.v ===== *)
(** * A running kernel, for the examples

    A small concrete state: one process with two user pages, a kernel stack
    whose trap frame holds the arguments of a system call, a few free pages,
    and the rings of the card as [e1000_init] leaves them. *)

From S2P Require Import Prelude Memory CString FsState Machine Spinlock Kalloc Proc Vm E1000.
From S2P Require Import Pages.
Local Open Scope Z_scope.
Local Open Scope kernel_scope.

Module Demo.

Definition at_ (k : Z) : Z := KERNBASE + k.

(** The page table pages, the two user pages (at 0x1000 and 0x2000), the
    kernel stack, and the kernel's own tables: the upper half of every page
    table leads to [kpdpt], whose first entry is a large page. *)
Definition pml4 : Z := at_ 0x200000.
Definition kstack : Z := at_ 0x207000.
Definition trapframe : Z := kstack + KSTACKSIZE - sizeof_trapframe.
Definition own : list Z :=
  map at_ [0x200000; 0x201000; 0x202000; 0x203000; 0x205000; 0x206000; 0x207000;
    0x208000; 0x209000].

Definition free : list Z := map at_ [0x300000; 0x301000; 0x302000; 0x303000].
Definition rx_pages : list Z := map (fun i => at_ (0x400000 + 4096 * Z.of_nat i)) (seq 0 16).

(** The words of memory that are not zero: the entries of the page table, the
    links of the free list and the registers [rdi], [rsi], [rdx], [r10], [r8]. *)
Definition words (args : list Z) : list (Z * Z) :=
  [(pml4, 0x201007); (at_ 0x201000, 0x202007); (at_ 0x202000, 0x203007);
   (at_ 0x203008, 0x206007); (at_ 0x203010, 0x205007); (pml4 + 8 * 256, 0x208003);
   (at_ 0x208000, 0x83); (at_ 0x209000 + 8 * 256, 0x208003);
   (at_ 0x300000, at_ 0x301000); (at_ 0x301000, at_ 0x302000); (at_ 0x302000, at_ 0x303000)] ++
  zip [trapframe + tf_rdi; trapframe + tf_rsi; trapframe + tf_rdx; trapframe + tf_r10;
       trapframe + tf_r8] args.

Definition memory_of (ws : list (Z * Z)) : memory :=
  foldr (fun w m => storeZ 8 m (fst w) (snd w)) (fun _ => Byte.x00) ws.

Definition process : proc :=
  mk_proc 0x3000 pml4 kstack RUNNING 3 (Some 1%nat) trapframe 0 0 0 (replicate NOFILE None)
    None (replicate 16 Byte.x00).

Definition card : e1000 :=
  mk_e1000 (replicate 16 (mk_tx_desc 0 0 0 0 1 0 0))
    (map (fun p => mk_rx_desc (V2P p) 0 0 0 0 0) rx_pages)
    (replicate 16 0) rx_pages (fun i => if i =? E1000_RDT then 15 else 0).

Definition lock_table : gmap Z spinlock :=
  list_to_map [(kmem_lock, mk_spinlock 0 "kmem" None); (ptable_lock, mk_spinlock 0 "ptable" None);
    (netlock, mk_spinlock 0 "netlock" None); (e1000_lock, mk_spinlock 0 "e1000" None);
    (tickslock, mk_spinlock 0 "time" None)].

Definition kernel (args : list Z) : kstate :=
  mk_kstate (memory_of (words args)) (at_ 0x100000) 1 (at_ 0x300000) lock_table
    (mk_cpu 0 0 false true (V2P pml4)) (process :: replicate 63 proc0) (Some 0%nat) 4
    card (mk_net 0 0 0) [] (at_ 0x209000) (at_ 0x208000) (fsys0 []).

Lemma lock_free_kernel args lk :
  lk ∈ [kmem_lock; ptable_lock; netlock; e1000_lock; tickslock] -> lock_free lk (kernel args).
Proof.
  rewrite !elem_of_cons, elem_of_nil. unfold lock_free.
  intros [->|[->|[->|[->|[->|[]]]]]]; eexists; vm_compute; reflexivity.
Qed.

Lemma quiet_kernel args : quiet (kernel args).
Proof.
  split; [split; simpl; [lia|done]|].
  split_and!; intros; apply lock_free_kernel; set_solver.
Qed.

Definition used : list Z := rx_pages ++ own.

Lemma owned_kernel a b c d e : owned (kernel [a; b; c; d; e]) free used.
Proof.
  assert (Hn : NoDup (free ++ used)) by (apply (bool_decide_unpack _); vm_compute; done).
  assert (Hp : Forall (kpage (at_ 0x100000)) (free ++ used))
    by (apply (bool_decide_unpack _); vm_compute; done).
  apply Forall_app in Hp as [Hp1 Hp2].
  split_and!; [split_and!|done|done]; [|by apply NoDup_app in Hn as [? _]|done].
  vm_compute. repeat split.
Qed.

End Demo.
