(* ===== verification/DemoFs.v ===== *)
(** * A small disk, and what the file layers do on it

    A disk image with the layout of mkfs.c (a log of [LOGSIZE] blocks, a root
    directory, a few files), the state of the kernel once the file system is
    up, and the concrete runs that show three limits of the code. *)

From S2P Require Import Prelude Memory CString FsState Machine Spinlock Kalloc Proc Vm Sysarg.
From S2P Require Import Sleeplock Bio Log Fs Pipe File Sysfile Exec Pages Demo.
Local Open Scope Z_scope.
Local Open Scope kernel_scope.

Module DemoFs.

(** ** The image *)

Definition blank : list byte := replicate BLK Byte.x00.

(** size, nblocks, ninodes, nlog, logstart, inodestart, bmapstart *)
Definition super : list byte :=
  splice 0 (concat (map (le_split 4) [120; 84; 16; 30; 2; 32; 35])) blank.

Definition dinode (type nlink size : Z) (addrs : list Z) : list byte :=
  le_split 2 type ++ le_split 2 0 ++ le_split 2 0 ++ le_split 2 nlink ++ le_split 4 size ++
  concat (map (le_split 4) (take 13 (addrs ++ replicate 13 0))).

(** A name of one letter. *)
Definition name_a : list byte := [Byte.x61].
Definition name_b : list byte := [Byte.x62].
Definition name_x : list byte := [Byte.x78].

Definition root_dir : list byte :=
  splice 0 (dirent_of [Byte.x2e] 1 ++ dirent_of [Byte.x2e; Byte.x2e] 1 ++
            dirent_of name_a 2 ++ dirent_of name_b 3 ++ dirent_of name_x 4) blank.

(** An ELF header with one program header, a segment of one byte at address 0. *)
Definition elf_file : list byte :=
  splice 0 (le_split 4 ELF_MAGIC) (replicate 64 Byte.x00).
Definition program : list byte :=
  put_word 8 32 64 (put_word 2 56 1 elf_file) ++
  le_split 4 ELF_PROG_LOAD ++ le_split 4 0 ++ le_split 8 0 ++ le_split 8 0 ++ le_split 8 0 ++
  le_split 8 1 ++ le_split 8 1 ++ le_split 8 0.

Definition inodes : list byte :=
  splice 0 (replicate 64 Byte.x00 ++ dinode T_DIR 1 80 [36] ++ dinode T_FILE 1 0 [] ++
            dinode T_FILE 1 0 [] ++ dinode T_FILE 1 120 [37]) blank.

(** Blocks 0 to 37 are in use. *)
Definition bitmap : list byte :=
  splice 0 (map byte.of_Z [255; 255; 255; 255; 63]) blank.

Definition image : list (list byte) :=
  <[1%nat := super]> (<[32%nat := inodes]> (<[35%nat := bitmap]> (<[36%nat := root_dir]>
    (<[37%nat := splice 0 program blank]> (replicate 120 blank))))).

(** ** The kernel once the file system is up *)

(** The process 0 of Demo.v, with the root directory as its current one, and a
    second process that is also in a system call. *)
Definition start (args : list Z) : kstate :=
  set_fs (fsys0 image)
    (set_procs (<[0%nat := set_cwd (Some 0%nat) Demo.process]>
      (<[1%nat := set_pid 5 (set_cwd (Some 0%nat) Demo.process)]> (procs (Demo.kernel args))))
      (Demo.kernel args)).

Definition boot : K unit :=
  fileinit ;; binit ;; iinit ROOTDEV ;; initlog ROOTDEV ;;
  iget ROOTDEV ROOTINO ;; idup 0%nat ;; ret tt.

Definition value {A} (o : outcome kstate A) : option A :=
  match o with Ok a _ => Some a | _ => None end.
Definition final (o : outcome kstate unit) (s : kstate) : kstate :=
  match o with Ok _ s' => s' | _ => s end.

Definition booted (args : list Z) : kstate := final (boot (start args)) (start args).

Definition no_devices (major : Z) : devops := mk_devops None None.

(** The name [path] in the root directory, opened and locked. *)
Definition open_locked (name : list byte) : K nat :=
  r <- namei no_devices (slash :: name) ;;
  match r with
  | Some ip => ilock ip ;; ret ip
  | None => panic "not found"
  end.

(** ** Two processes that write at once *)

Definition text : source := OfVar (replicate (Z.to_nat filewrite_max) Byte.x41).

(** The blocks in the log after one chunk of [filewrite] into an empty file,
    before the system call ends. *)
Definition one_writer : K Z :=
  begin_op ;;
  ip <- open_locked name_a ;;
  writei no_devices ip text 0 filewrite_max ;;
  l <- get_log ;;
  ret (lh_n (log_lh l)).

(** Both processes have passed [begin_op] and hold their files; then each of
    them runs the [writei] of its chunk. *)
Definition two_writers : K unit :=
  modify (set_cur (Some 0%nat)) ;;
  begin_op ;;
  ip0 <- open_locked name_a ;;
  modify (set_cur (Some 1%nat)) ;;
  begin_op ;;
  ip1 <- open_locked name_b ;;
  modify (set_cur (Some 0%nat)) ;;
  writei no_devices ip0 text 0 filewrite_max ;;
  modify (set_cur (Some 1%nat)) ;;
  writei no_devices ip1 text 0 filewrite_max ;;
  ret tt.

End DemoFs.


