(* ===== verification/Resume.v ===== *)
(** * Outcomes after waiting

    [returns o a s]: the computation [o] can return [a] in the state [s], with
    any states for those in which it is resumed after it gave up the CPU or
    spun on a lock.  Theorems about [returns] hold whatever the other processes
    and CPUs did in the meantime. *)

From S2P Require Import Prelude FsState Machine Spinlock Kalloc Proc Pages.
Local Open Scope Z_scope.
Local Open Scope kernel_scope.

Inductive returns {S A} : outcome S A -> A -> S -> Prop :=
| returns_ok a s : returns (Ok a s) a s
| returns_swtch s k s2 a s' : returns (k s2) a s' -> returns (Swtch s k) a s'
| returns_spin lk s k s2 a s' : returns (k s2) a s' -> returns (Spin lk s k) a s'.

Lemma returns_obind {S A B} (o : outcome S A) (f : A -> M S B) b s' :
  returns (obind o f) b s' -> exists a s1, returns o a s1 /\ returns (f a s1) b s'.
Proof.
  induction o as [a s|s k IH|lk s k IH|e| |]; cbn [obind]; intros H.
  - exists a, s. split; [constructor|done].
  - inversion H; subst. destruct (IH s2) as (a & s1 & H1 & H2); [done|].
    exists a, s1. split; [by econstructor|done].
  - inversion H; subst. destruct (IH s2) as (a & s1 & H1 & H2); [done|].
    exists a, s1. split; [by econstructor|done].
  - inversion H.
  - inversion H.
  - inversion H.
Qed.

Lemma returns_bind {S A B} (m : M S A) (f : A -> M S B) s b s' :
  returns (bind m f s) b s' -> exists a s1, returns (m s) a s1 /\ returns (f a s1) b s'.
Proof. apply returns_obind. Qed.

Lemma returns_ok_inv {S A} (a a' : A) (s s' : S) : returns (Ok a s) a' s' -> a' = a /\ s' = s.
Proof. intros H. by inversion H. Qed.

(** [release] changes the lock and the interrupt state of the CPU only. *)
Lemma returns_release lk s u s' :
  returns (release lk s) u s' -> exists l c, s' = set_cpu c (set_locks l s).
Proof.
  intros (h & s1 & H1 & H2)%returns_bind. unfold holding in H1.
  destruct (locks s !! lk) as [l|]; [|inversion H1]. apply returns_ok_inv in H1 as [-> ->].
  destruct (_ && _); [|inversion H2].
  apply returns_bind in H2 as (u1 & s2 & H2 & H3). apply returns_ok_inv in H2 as [-> ->].
  unfold popcli in H3. destruct (eflags_IF _); [inversion H3|].
  destruct (_ <? 0); [inversion H3|]. apply returns_ok_inv in H3 as [_ ->]. by eexists _, _.
Qed.

(** ** Sleeping

    [sleep] with a lock [lk]: the process is asleep on its channel before [lk] is
    free, so that a wakeup by the next holder of [lk] cannot be missed; run
    again, the process holds [lk]. *)

(** The process [i] asleep on [c], as the scheduler finds the table. *)
Definition asleep (c : Z) (i : nat) (s : kstate) : kstate :=
  set_procs (alter (fun p => set_state SLEEPING (set_chan c p)) i (procs s)) s.

(** The process [i] awake, before it takes the lock again; [ie] is the
    interrupt state that it had. *)
Definition awake (ie : bool) (i : nat) (t : kstate) : kstate :=
  let c := this_cpu t in
  set_cpu (mk_cpu (cpu_id c) 0 ie ie (cr3 c)) (set_procs (alter (set_chan 0) i (procs t)) t).

Section Sleep.

Context (lk c : Z) (s : kstate) (i : nat) (p : proc).
Hypothesis Hlk : lk <> ptable_lock.
Hypothesis Hlk0 : lk <> 0.
Hypothesis Hpt : lock_free ptable_lock s.
Hypothesis Hfree : lock_free lk s.
Hypothesis Hwf : cpu_wf (this_cpu s).
Hypothesis Hncli : ncli (this_cpu s) = 0.
Hypothesis Hcur : cur s = Some i.
Hypothesis Hp : procs s !! i = Some p.

(** Taking the lock of the table before giving the other lock back. *)
Lemma swap_locks :
  (acquire ptable_lock ;; release lk) (locked_state lk s) = Ok tt (locked_state ptable_lock s).
Proof.
  rewrite (bind_ok _ _ _ _ _ (acquire_free ptable_lock (locked_state lk s)
    (lock_free_locked _ _ _ (not_eq_sym Hlk) Hpt))).
  rewrite (release_held lk _ (locked_state ptable_lock s)).
  - simpl. rewrite cpu_norm_pushcli by done. by destruct s.
  - by apply lock_free_locked.
  - by apply cpu_wf_pushcli.
  - simpl. by apply alter_alter_ne.
  - done.
Qed.

(** What the process does when it is run again. *)
Definition after_sched (ie : bool) : K unit :=
  modify (fun s => let c' := this_cpu s in
    set_cpu (mk_cpu (cpu_id c') (ncli c') ie (eflags_IF c') (cr3 c')) s) ;;
  i <- myproc ;;
  upd_proc i (set_chan 0) ;;
  when (negb (lk =? ptable_lock)) do (release ptable_lock ;; acquire lk).

Lemma sleep_eq :
  sleep c lk (locked_state lk s) =
    Swtch (asleep c i (locked_state ptable_lock s)) (after_sched (eflags_IF (this_cpu s))).
Proof.
  unfold sleep. rewrite bind_gets. change (cur (locked_state lk s)) with (cur s). rewrite Hcur.
  rewrite (proj2 (Z.eqb_neq _ _) Hlk0), (proj2 (Z.eqb_neq _ _) Hlk). cbn [negb].
  rewrite (bind_ok _ _ _ _ _ swap_locks). unfold upd_proc at 1. rewrite bind_modify.
  fold (asleep c i (locked_state ptable_lock s)). set (s1 := asleep _ _ _).
  unfold sched. rewrite !bind_assoc.
  assert (Hh : holding ptable_lock s1 = Ok true s1).
  { destruct Hpt as [name Hn]. unfold holding. simpl. rewrite lookup_alter_eq, Hn. simpl.
    by rewrite bool_decide_true. }
  rewrite (bind_ok _ _ _ _ _ Hh). cbn [negb]. rewrite bind_assoc, bind_gets.
  assert (Hn1 : ncli (this_cpu s1) = 1) by (simpl; lia). rewrite Hn1. cbn [Z.eqb Pos.eqb negb].
  rewrite bind_assoc, (bind_ok _ _ s1 i s1) by (unfold myproc; simpl; by rewrite Hcur).
  rewrite bind_assoc, (bind_ok _ _ s1 (set_state SLEEPING (set_chan c p)) s1).
  2: { apply get_proc_ok. simpl. by rewrite list_lookup_alter_eq, Hp. }
  rewrite bool_decide_false by done. simpl eflags_IF. cbv iota.
  unfold bind at 1. simpl. f_equal. unfold after_sched.
  rewrite (proj2 (Z.eqb_neq _ _) Hlk). by rewrite Hncli.
Qed.

End Sleep.

(** Run again with the lock of the table held, the process ends up with the
    lock it waited with. *)
Lemma after_sched_eq lk ie t i :
  lk <> ptable_lock -> lock_free ptable_lock t -> ncli (this_cpu t) = 0 -> cur t = Some i -> lock_free lk t ->
  after_sched lk ie (locked_state ptable_lock t) = Ok tt (locked_state lk (awake ie i t)).
Proof.
  intros Hlk Hq Hn Hcur Hfree. unfold after_sched. rewrite bind_modify.
  erewrite bind_ok by (unfold myproc; simpl; by rewrite Hcur).
  unfold upd_proc. rewrite bind_modify, (proj2 (Z.eqb_neq _ _) Hlk). cbn [negb].
  set (c := this_cpu t) in *. set (t0 := set_cpu (mk_cpu (cpu_id c) 0 ie ie (cr3 c)) t).
  erewrite bind_ok.
  2: { apply (release_held ptable_lock _ t0).
       - exact Hq.
       - split; simpl; [lia|lia].
       - done.
       - unfold pushcli_cpu. simpl. by rewrite Hn. }
  rewrite acquire_free by done. unfold awake. simpl. unfold locked_state. simpl.
  by destruct t.
Qed.
