(* ===== verification/Lru.v ===== *)
(** * Doubly linked lists, as update of two functions

    The links of a circular doubly linked list as two functions [nx] and [pv]
    from nodes to nodes: what unlinking a node and putting it behind the head
    does to the sequence of nodes.  The buffer cache (BioSpec.v) is the client. *)

From stdpp Require Import sets.
From S2P Require Import Prelude.
Local Open Scope Z_scope.

Section Links.
Local Open Scope nat_scope.

Definition upd (f : nat -> nat) (k v : nat) : nat -> nat := fun i => if decide (i = k) then v else f i.

Lemma upd_eq f k v : upd f k v k = v.
Proof. unfold upd. by rewrite decide_True. Qed.

Lemma upd_ne f k v i : i <> k -> upd f k v i = f i.
Proof. intros. unfold upd. by rewrite decide_False. Qed.

(** From [a] through [l] to [e]. *)
Fixpoint path (nx : nat -> nat) (a : nat) (l : list nat) (e : nat) : Prop :=
  match l with
  | [] => nx a = e
  | x :: l => nx a = x /\ path nx x l e
  end.

Lemma path_app nx a l1 x l2 e :
  path nx a (l1 ++ x :: l2) e <-> path nx a l1 x /\ path nx x l2 e.
Proof.
  revert a. induction l1 as [|y l1 IH]; intros a; simpl; [done|]. rewrite IH. tauto.
Qed.

Lemma path_ext nx nx' a l e :
  (forall i, i ∈ a :: l -> nx' i = nx i) -> path nx a l e -> path nx' a l e.
Proof.
  revert a. induction l as [|x l IH]; intros a Hx; simpl.
  - intros <-. apply Hx. set_solver.
  - intros [<- H]. split; [apply Hx; set_solver|]. apply IH; [set_solver|done].
Qed.

Lemma path_upd nx a l e k v :
  k ∉ a :: l -> path nx a l e -> path (upd nx k v) a l e.
Proof. intros Hk. apply path_ext. intros i Hi. apply upd_ne. set_solver. Qed.

(** The last node of a path, and what comes after its first one. *)
Definition last_of (a : nat) (l : list nat) : nat := List.last l a.
Definition first_of (l : list nat) (e : nat) : nat := match l with [] => e | x :: _ => x end.

Lemma path_first nx a l e : path nx a l e -> nx a = first_of l e.
Proof. destruct l; simpl; [done|]. by intros [? _]. Qed.

Lemma last_of_snoc a l x : last_of a (l ++ [x]) = x.
Proof. unfold last_of. apply List.last_last. Qed.

Lemma last_of_cons a x l : last_of a (x :: l) = last_of x l.
Proof.
  revert a x. induction l as [|y l IH]; intros a x; [done|].
  change (last_of a (x :: y :: l)) with (last_of a (y :: l)). rewrite !IH. done.
Qed.

Lemma last_of_in a l : last_of a l ∈ a :: l.
Proof.
  revert a. induction l as [|x l IH]; intros a; [set_solver|].
  rewrite last_of_cons. specialize (IH x). set_solver.
Qed.

Lemma path_last nx a l e : path nx a l e -> nx (last_of a l) = e.
Proof.
  revert a. induction l as [|x l IH]; intros a; cbn [path]; [done|]. intros [_ H].
  rewrite last_of_cons. by apply IH.
Qed.

(** Redirecting the last node of a path. *)
Lemma path_redirect nx a l e e' :
  NoDup (a :: l) -> path nx a l e -> path (upd nx (last_of a l) e') a l e'.
Proof.
  revert a. induction l as [|x l IH]; intros a Hn Hp; cbn [path].
  - apply upd_eq.
  - destruct Hp as [Ha Hp]. apply NoDup_cons in Hn as [Hin Hn]. rewrite last_of_cons.
    split; [|by apply IH]. rewrite upd_ne; [done|]. intros ->.
    pose proof (last_of_in x l). done.
Qed.

(** A path that starts at another node with the same successor. *)
Lemma path_start nx a b l e : nx b = nx a -> path nx a l e -> path nx b l e.
Proof. destruct l; simpl; intros ->; done. Qed.

Lemma path_join nx a l1 l2 e :
  path nx a l1 (first_of l2 e) -> (forall x l, l2 = x :: l -> path nx x l e) ->
  path nx a (l1 ++ l2) e.
Proof.
  destruct l2 as [|x l2]; simpl; intros H1 H2; [by rewrite app_nil_r|].
  apply path_app. eauto.
Qed.

(** ** The list *)

Lemma elem_of_reverse_rev (x : nat) l : x ∈ rev l <-> x ∈ l.
Proof. by rewrite !list_elem_of_In, <- in_rev. Qed.

Definition dll (h : nat) (nx pv : nat -> nat) (l : list nat) : Prop :=
  path nx h l h /\ path pv h (rev l) h.

(** The links after [b] was put behind the head [h], and after it was taken out
    of its place first: the order of the assignments is that of bio.c. *)
Definition push_nx (h : nat) (nx : nat -> nat) (b : nat) : nat -> nat :=
  upd (upd nx b (nx h)) h b.
Definition push_pv (h : nat) (nx pv : nat -> nat) (b : nat) : nat -> nat :=
  upd (upd pv b h) (nx h) b.
Definition move_nx (h : nat) (nx pv : nat -> nat) (b : nat) : nat -> nat :=
  push_nx h (upd nx (pv b) (nx b)) b.
Definition move_pv (h : nat) (nx pv : nat -> nat) (b : nat) : nat -> nat :=
  push_pv h (upd nx (pv b) (nx b)) (upd pv (nx b) (pv b)) b.

Lemma rev_first_last l e : first_of l e = last_of e (rev l).
Proof. destruct l as [|x l]; [done|]. cbn [rev]. by rewrite last_of_snoc. Qed.

(** Splicing [b] out of one direction. *)
Lemma path_unlink nx h l1 b l2 :
  NoDup (h :: l1 ++ b :: l2) -> path nx h (l1 ++ b :: l2) h ->
  path (upd nx (last_of h l1) (nx b)) h (l1 ++ l2) h.
Proof.
  intros Hn [H1 H2]%path_app. rewrite (path_first _ _ _ _ H2).
  change (h :: l1 ++ b :: l2) with ((h :: l1) ++ b :: l2) in Hn.
  apply NoDup_app in Hn as (Hn1 & Hd & Hn2). apply NoDup_cons in Hn2 as [Hb Hn2].
  apply path_join.
  - by eapply path_redirect.
  - intros x l ->. simpl in H2. destruct H2 as [_ H2]. apply path_upd; [|done].
    intros Hin. apply (Hd (last_of h l1)); [apply last_of_in|set_solver].
Qed.

Lemma dll_push h nx pv l b :
  NoDup (h :: l) -> b ∉ h :: l -> dll h nx pv l ->
  dll h (push_nx h nx b) (push_pv h nx pv b) (b :: l).
Proof.
  intros Hn Hb [U U']. assert (Hbh : b <> h) by set_solver. unfold push_nx, push_pv. split.
  - simpl. split; [apply upd_eq|]. destruct l as [|x l].
    + simpl in *. by rewrite upd_ne, upd_eq.
    + simpl in U |- *. destruct U as [U1 U2]. rewrite upd_ne, upd_eq by done. split; [done|].
      apply NoDup_cons in Hn as [Hh _]. apply path_upd; [done|]. apply path_upd; [|done].
      set_solver.
  - simpl. apply path_app. rewrite (path_first _ _ _ _ U), rev_first_last. split.
    + apply (path_redirect _ _ _ h); [|apply path_upd; [|done]].
      * by rewrite <- Permutation_rev.
      * by rewrite <- Permutation_rev.
    + simpl. rewrite upd_ne; [apply upd_eq|].
      pose proof (last_of_in h (rev l)) as Hin. intros Hx. rewrite <- Hx in Hin.
      rewrite elem_of_cons, elem_of_reverse_rev in Hin. set_solver.
Qed.

Lemma dll_move h nx pv l1 b l2 :
  NoDup (h :: l1 ++ b :: l2) -> dll h nx pv (l1 ++ b :: l2) ->
  dll h (move_nx h nx pv b) (move_pv h nx pv b) (b :: l1 ++ l2).
Proof.
  intros Hn [Hnx Hpv].
  assert (b ∉ h :: l1 ++ l2 /\ NoDup (h :: l1 ++ l2)) as [Hb Hnm].
  { rewrite <- Permutation_middle in Hn. apply NoDup_cons in Hn as [Hh Hn].
    apply NoDup_cons in Hn as [Hn ?]. split; [set_solver|constructor; [set_solver|done]]. }
  rewrite rev_app_distr in Hpv. simpl in Hpv. rewrite <- app_assoc in Hpv. simpl in Hpv.
  assert (Hpb : pv b = last_of h l1).
  { apply path_app in Hpv as [_ H]. apply path_first in H. rewrite H, rev_first_last.
    by rewrite rev_involutive. }
  assert (Hnb : nx b = last_of h (rev l2)).
  { apply path_app in Hnx as [_ H]. apply path_first in H. by rewrite H, rev_first_last. }
  unfold move_nx, move_pv. apply dll_push; [done|done|]. split.
  - rewrite Hpb. by apply path_unlink.
  - rewrite Hnb, rev_app_distr. apply path_unlink; [|done].
    assert (h :: rev l2 ++ b :: rev l1 ≡ₚ h :: l1 ++ b :: l2) as ->; [|done].
    rewrite <- (Permutation_rev l1), <- (Permutation_rev l2), <- !Permutation_middle.
    by rewrite (Permutation_app_comm l2 l1).
Qed.

End Links.
