(* ===== verification/BioSpec.v ===== *)
(** * The buffer cache, buffer by buffer

    In a state where nobody else uses the file layers ([idle]), the operations
    of sleeplock.c, memide.c and bio.c change the field [fs] of the state only.
    [arep f A]: the buffers are on one list, and each is what its [slot] in [A]
    says, unused, a copy of a block, a changed block or a block in the hands of
    the running process.  [bread], [bwrite] and [brelse] are changes of one
    slot; Blocks.v hides the slots. *)

From S2P Require Import Prelude Memory FsState Machine Spinlock Kalloc Proc Sleeplock Bio Lru.
Local Open Scope Z_scope.
Local Open Scope kernel_scope.

#[export] Instance buf_inhabited : Inhabited buf := populate buf0.

(** ** An idle file system *)

Record idle (s : kstate) : Prop := mk_idle {
  idle_cpu : cpu_wf (this_cpu s);
  idle_norm : cpu_norm (this_cpu s) = this_cpu s;
  idle_ptable : lock_free ptable_lock s;
  idle_bcache : lock_free bcache_lock s;
  idle_log : lock_free log_lock s;
  idle_slk : forall b, (b < NBUF)%nat -> lock_free (slk (buf_lock b)) s;
  idle_cur : exists i p, cur s = Some i /\ procs s !! i = Some p;
  idle_sleep : forall p, p ∈ procs s -> state p = SLEEPING ->
    chan p <> log_lock /\ forall b, (b < NBUF)%nat -> chan p <> buf_lock b;
}.

Lemma idle_set_fs s f : idle s -> idle (set_fs f s).
Proof. intros []. by constructor. Qed.

(** The process that runs. *)
Definition my_pid (s : kstate) : Z :=
  match cur s with
  | Some i => match procs s !! i with Some p => pid p | None => 0 end
  | None => 0
  end.

(** ** Critical sections *)

(** A section of code under a lock that changes [fs] only. *)
Lemma release_idle lk s f :
  lock_free lk s -> cpu_wf (this_cpu s) -> cpu_norm (this_cpu s) = this_cpu s ->
  release lk (set_fs f (locked_state lk s)) = Ok tt (set_fs f s).
Proof.
  intros Hl Hc Hn. rewrite (release_held _ _ s) by done. rewrite Hn. by destruct s.
Qed.

(** Waking a channel on which nobody sleeps. *)
Lemma wakeup_nobody c s :
  lock_free ptable_lock s -> cpu_wf (this_cpu s) -> cpu_norm (this_cpu s) = this_cpu s ->
  (forall p, p ∈ procs s -> state p = SLEEPING -> chan p <> c) -> wakeup c s = Ok tt s.
Proof.
  intros Hl Hc Hn Hp. rewrite wakeup_eq by done. rewrite Hn.
  replace (map (wakeup1_proc c) (procs s)) with (procs s); [by destruct s|].
  rewrite <- (map_id (procs s)) at 1. apply map_ext_in. intros p Hin%list_elem_of_In.
  unfold wakeup1_proc. case_bool_decide as Hs; [|done].
  by rewrite (proj2 (Z.eqb_neq _ _) (Hp p Hin Hs)).
Qed.

(** ** Sleep locks *)

Lemma set_fs_id s : set_fs (fs s) s = s.
Proof. by destruct s. Qed.

Definition slock_set (f : fsys) (lk : Z) (v : sleeplock) : fsys :=
  set_slocks (<[lk := v]> (slocks f)) f.

Section Sleep.
Context (s : kstate) (lk : Z).
Hypothesis Hidle : idle s.
Hypothesis Hfree : lock_free (slk lk) s.
Hypothesis Hpt : slk lk <> ptable_lock.
Hypothesis Hnobody : forall p, p ∈ procs s -> state p = SLEEPING -> chan p <> lk.

Lemma alter_insert f (v : sleeplock) (g : sleeplock -> sleeplock) k :
  slocks f !! k = Some v -> alter g k (slocks f) = <[k := g v]> (slocks f).
Proof.
  intros Hv. apply map_eq. intros i. destruct (decide (i = k)) as [->|].
  - by rewrite lookup_alter_eq, lookup_insert_eq, Hv.
  - by rewrite lookup_alter_ne, lookup_insert_ne.
Qed.

Lemma acquiresleep_free l :
  slocks (fs s) !! lk = Some l -> sl_locked l = 0 ->
  acquiresleep lk s =
  Ok tt (set_fs (slock_set (fs s) lk (mk_sleeplock 1 (sl_name l) (my_pid s))) s).
Proof.
  intros Hl H0. destruct (idle_cur _ Hidle) as (i & p & Hi & Hp). unfold acquiresleep.
  rewrite (bind_ok _ _ _ _ _ (acquire_free _ _ Hfree)).
  assert (Hg : get_slock lk (locked_state (slk lk) s) =
               Ok l (locked_state (slk lk) s)) by (unfold get_slock; cbn; by rewrite Hl).
  unfold wait_limit. cbn [acquiresleep_wait].
  rewrite bind_assoc, (bind_ok _ _ _ _ _ Hg), H0. cbn [Z.eqb]. rewrite bind_ret.
  rewrite (bind_ok myproc _ _ i (locked_state (slk lk) s))
    by (unfold myproc; cbn; by rewrite Hi).
  rewrite (bind_ok (get_proc i) _ _ p (locked_state (slk lk) s))
    by (unfold get_proc; cbn; by rewrite Hp).
  unfold put_slock, modify_fs. rewrite bind_modify. cbn [fs locked_state set_locks set_cpu].
  rewrite (alter_insert _ l) by done.
  assert (my_pid s = pid p) as -> by (unfold my_pid; by rewrite Hi, Hp).
  apply release_idle; [exact Hfree|apply Hidle..].
Qed.

Lemma releasesleep_free l :
  slocks (fs s) !! lk = Some l ->
  releasesleep lk s =
  Ok tt (set_fs (slock_set (fs s) lk (mk_sleeplock 0 (sl_name l) 0)) s).
Proof.
  intros Hl. unfold releasesleep.
  rewrite (bind_ok _ _ _ _ _ (acquire_free _ _ Hfree)).
  unfold put_slock, modify_fs. rewrite bind_modify. cbn [fs locked_state set_locks set_cpu].
  rewrite (alter_insert _ l) by done.
  set (s1 := set_fs _ _).
  assert (Hw : wakeup lk s1 = Ok tt s1).
  { apply wakeup_nobody.
    - destruct (idle_ptable _ Hidle) as [n Hn]. exists n. cbn.
      rewrite lookup_alter_ne; [done|]. exact Hpt.
    - apply cpu_wf_pushcli, Hidle.
    - apply cpu_norm_pushcli, Hidle.
    - exact Hnobody. }
  rewrite (bind_ok _ _ _ _ _ Hw). apply release_idle; [exact Hfree|apply Hidle..].
Qed.

Lemma holdingsleep_free l :
  slocks (fs s) !! lk = Some l ->
  holdingsleep lk s = Ok (negb (sl_locked l =? 0)) s.
Proof.
  intros Hl. unfold holdingsleep.
  rewrite (bind_ok _ _ _ _ _ (acquire_free _ _ Hfree)).
  assert (Hg : get_slock lk (locked_state (slk lk) s) =
               Ok l (locked_state (slk lk) s)) by (unfold get_slock; cbn; by rewrite Hl).
  rewrite (bind_ok _ _ _ _ _ Hg).
  replace (locked_state (slk lk) s) with
    (set_fs (fs s) (locked_state (slk lk) s)) by done.
  rewrite (bind_ok _ _ _ _ _ (release_idle _ s (fs s) Hfree
    (idle_cpu _ Hidle) (idle_norm _ Hidle))).
  unfold ret. by rewrite set_fs_id.
Qed.

End Sleep.

(** The lock of a buffer. *)
Section BufLock.
Context (s : kstate) (b : nat).
Hypothesis Hidle : idle s.
Hypothesis Hb : (b < NBUF)%nat.

Lemma slk_not_ptable : slk (buf_lock b) <> ptable_lock.
Proof. unfold slk, buf_lock, ptable_lock. lia. Qed.

Lemma acquiresleep_idle l :
  slocks (fs s) !! buf_lock b = Some l -> sl_locked l = 0 ->
  acquiresleep (buf_lock b) s =
  Ok tt (set_fs (slock_set (fs s) (buf_lock b) (mk_sleeplock 1 (sl_name l) (my_pid s))) s).
Proof. apply acquiresleep_free; [done|by apply idle_slk]. Qed.

Lemma releasesleep_idle l :
  slocks (fs s) !! buf_lock b = Some l ->
  releasesleep (buf_lock b) s =
  Ok tt (set_fs (slock_set (fs s) (buf_lock b) (mk_sleeplock 0 (sl_name l) 0)) s).
Proof.
  apply releasesleep_free; [done|by apply idle_slk|apply slk_not_ptable|].
  intros p Hp Hs. by apply (idle_sleep _ Hidle p Hp Hs).
Qed.

Lemma holdingsleep_idle l :
  slocks (fs s) !! buf_lock b = Some l ->
  holdingsleep (buf_lock b) s = Ok (negb (sl_locked l =? 0)) s.
Proof. intros Hl. apply holdingsleep_free; [done|by apply idle_slk|done]. Qed.

End BufLock.

(** ** The abstract cache *)

(** What one buffer is to the rest of the kernel: unused; a copy of a block of
    the disk; a changed block that waits for its transaction; or a block in the
    hands of the running process, changed or not. *)
Inductive slot :=
| Unused
| Clean (n : Z)
| Dirty (n : Z) (v : list byte)
| Held (n : Z) (v : list byte) (dirty : bool).

Definition slot_no (a : slot) : option Z :=
  match a with Unused => None | Clean n | Dirty n _ | Held n _ _ => Some n end.

Definition dirty_flags (w : bool) : Z := if w then Z.lor B_VALID B_DIRTY else B_VALID.

Definition slot_ok (d : list (list byte)) (x : buf) (locked : Z) (a : slot) : Prop :=
  match a with
  | Unused => b_dev x <> 1 /\ b_flags x = 0 /\ b_refcnt x = 0 /\ locked = 0
  | Clean n =>
      b_dev x = 1 /\ b_blockno x = n /\ b_flags x = B_VALID /\ b_refcnt x = 0 /\ locked = 0 /\
      0 <= n /\ d !! Z.to_nat n = Some (b_data x)
  | Dirty n v =>
      b_dev x = 1 /\ b_blockno x = n /\ b_flags x = dirty_flags true /\ b_refcnt x = 0 /\
      locked = 0 /\ 0 <= n < Z.of_nat (length d) /\ b_data x = v
  | Held n v w =>
      b_dev x = 1 /\ b_blockno x = n /\ b_flags x = dirty_flags w /\ b_refcnt x = 1 /\
      locked = 1 /\ 0 <= n < Z.of_nat (length d) /\ b_data x = v
  end.

Definition nxt (f : fsys) (i : nat) : nat := b_next (bufs f !!! i).
Definition prv (f : fsys) (i : nat) : nat := b_prev (bufs f !!! i).

(** The list of the buffers, most recently used first. *)
Definition lru (f : fsys) (l : list nat) : Prop :=
  l ≡ₚ seq 0 NBUF /\ dll head (nxt f) (prv f) l.

Record arep (f : fsys) (A : list slot) : Prop := mk_arep {
  ar_bufs : length (bufs f) = S NBUF;
  ar_slots : length A = NBUF;
  ar_lru : exists l, lru f l;
  ar_slot : forall b a, A !! b = Some a -> exists x l,
    bufs f !! b = Some x /\ slocks f !! buf_lock b = Some l /\
    slot_ok (disk f) x (sl_locked l) a;
  ar_uniq : forall b b' a a' n, A !! b = Some a -> A !! b' = Some a' ->
    slot_no a = Some n -> slot_no a' = Some n -> b = b';
}.

(** What the operations leave alone. *)
Record frame (f f' : fsys) : Prop := mk_frame {
  fr_log : logst f' = logst f;
  fr_sb : sb f' = sb f;
  fr_icache : icache f' = icache f;
  fr_ftable : ftable f' = ftable f;
  fr_ticks : ticks f' = ticks f;
  fr_initproc : initproc f' = initproc f;
  fr_first : first f' = first f;
  fr_tty : tty f' = tty f;
  fr_slocks : forall lk, (forall b, (b < NBUF)%nat -> lk <> buf_lock b) ->
    slocks f' !! lk = slocks f !! lk;
}.

Lemma frame_refl f : frame f f.
Proof. by constructor. Qed.

Lemma frame_trans f1 f2 f3 : frame f1 f2 -> frame f2 f3 -> frame f1 f3.
Proof.
  intros [] []. constructor; try congruence. intros lk Hlk. rewrite fr_slocks1, fr_slocks0; done.
Qed.

(** ** Walking the list *)

Lemma get_buf_ok b x s : bufs (fs s) !! b = Some x -> get_buf b s = Ok x s.
Proof. intros H. unfold get_buf. by rewrite H. Qed.

Lemma get_buf_in b s : (b < length (bufs (fs s)))%nat -> get_buf b s = Ok (bufs (fs s) !!! b) s.
Proof. intros H. apply get_buf_ok, list_lookup_lookup_total_lt, H. Qed.

Lemma walk_ok next P s l : forall a fuel,
  path (fun i => next (bufs (fs s) !!! i)) a l head -> head ∉ l ->
  Forall (fun b => (b < length (bufs (fs s)))%nat) l -> (length l <= fuel)%nat ->
  walk fuel next P (first_of l head) s =
  Ok (List.find (fun b => P (bufs (fs s) !!! b)) l) s.
Proof.
  induction l as [|b l IH]; intros a fuel Hp Hh Hf Hl.
  - destruct fuel; cbn [walk first_of]; by rewrite bool_decide_true.
  - cbn [path] in Hp. destruct Hp as [_ Hp]. apply not_elem_of_cons in Hh as [Hne Hh].
    apply Forall_cons in Hf as [Hb Hf]. destruct fuel as [|k]; [simpl in Hl; lia|].
    cbn [walk first_of List.find]. rewrite bool_decide_false by congruence.
    rewrite (bind_ok _ _ _ _ _ (get_buf_in _ _ Hb)). destruct (P _); [done|].
    pose proof (path_first _ _ _ _ Hp) as E. cbn beta in E. rewrite E.
    apply (IH b); [done..|simpl in Hl; lia].
Qed.

Lemma lru_in f l b : lru f l -> b ∈ l <-> (b < NBUF)%nat.
Proof. intros [E _]. rewrite E, elem_of_seq. lia. Qed.

Lemma lru_NoDup f l : lru f l -> NoDup (head :: l).
Proof.
  intros [E _]. constructor.
  - rewrite E, elem_of_seq. unfold head. lia.
  - rewrite E. apply NoDup_seq.
Qed.

Section Walk.
Context (f : fsys) (A : list slot) (l : list nat) (s : kstate).
Hypothesis Har : arep f A.
Hypothesis Hlru : lru f l.
Hypothesis Hs : fs s = f.

Lemma lru_bounds : Forall (fun b => (b < length (bufs (fs s)))%nat) l.
Proof.
  apply Forall_forall. intros b Hb. apply (lru_in _ _ _ Hlru) in Hb.
  rewrite Hs, (ar_bufs _ _ Har). lia.
Qed.

Lemma lru_length : length l = NBUF.
Proof. destruct Hlru as [E _]. rewrite E. apply length_seq. Qed.

Lemma head_not_in : head ∉ l.
Proof. pose proof (lru_NoDup _ _ Hlru) as H. by apply NoDup_cons in H as [? _]. Qed.

Lemma walk_forward P :
  walk NBUF b_next P (b_next (bufs f !!! head)) s =
  Ok (List.find (fun b => P (bufs f !!! b)) l) s.
Proof.
  destruct Hlru as [_ [Hn _]]. pose proof (path_first _ _ _ _ Hn) as E. unfold nxt in E.
  rewrite E, <- Hs. apply (walk_ok _ _ _ _ head).
  - by rewrite Hs.
  - apply head_not_in.
  - apply lru_bounds.
  - by rewrite lru_length.
Qed.

Lemma walk_backward P :
  walk NBUF b_prev P (b_prev (bufs f !!! head)) s =
  Ok (List.find (fun b => P (bufs f !!! b)) (rev l)) s.
Proof.
  destruct Hlru as [_ [_ Hp]]. pose proof (path_first _ _ _ _ Hp) as E. unfold prv in E.
  rewrite E, <- Hs. apply (walk_ok _ _ _ _ head).
  - by rewrite Hs.
  - rewrite elem_of_reverse_rev. apply head_not_in.
  - rewrite <- Permutation_rev. apply lru_bounds.
  - by rewrite length_rev, lru_length.
Qed.

End Walk.

(** ** Changing one buffer *)

Definition absent (A : list slot) (n : Z) : Prop :=
  forall b a, A !! b = Some a -> slot_no a <> Some n.

Definition with_buf (f : fsys) (b : nat) (x : buf) (l : sleeplock) : fsys :=
  set_bufs (<[b := x]> (bufs f)) (slock_set f (buf_lock b) l).

Lemma buf_lock_inj b b' : buf_lock b = buf_lock b' -> b = b'.
Proof. unfold buf_lock. lia. Qed.

Lemma arep_lt f A b a : arep f A -> A !! b = Some a -> (b < NBUF)%nat.
Proof. intros Hr Ha. rewrite <- (ar_slots _ _ Hr). by eapply lookup_lt_Some. Qed.

Lemma lru_ext f f' l :
  (forall i, nxt f' i = nxt f i) -> (forall i, prv f' i = prv f i) -> lru f l -> lru f' l.
Proof.
  intros Hn Hp [E [H1 H2]]. split; [done|]. split.
  - by apply (path_ext (nxt f)).
  - by apply (path_ext (prv f)).
Qed.

Lemma insert_field {B} (g : buf -> B) (bs : list buf) b x x' i :
  bs !! b = Some x -> g x' = g x -> g (<[b := x']> bs !!! i) = g (bs !!! i).
Proof.
  intros Hx Hg. destruct (decide (i = b)) as [->|Hne].
  - rewrite list_lookup_total_insert_eq by (by eapply lookup_lt_Some).
    by rewrite (list_lookup_total_correct _ _ _ Hx).
  - by rewrite list_lookup_total_insert_ne.
Qed.

Section Change.
Context (f f' : fsys) (A : list slot) (b : nat) (a a' : slot) (x x' : buf) (l' : sleeplock).
Hypothesis Har : arep f A.
Hypothesis Ha : A !! b = Some a.
Hypothesis Hx : bufs f !! b = Some x.
Hypothesis Hnext : b_next x' = b_next x.
Hypothesis Hprev : b_prev x' = b_prev x.
Hypothesis Hbufs : bufs f' = <[b := x']> (bufs f).
Hypothesis Hlocks : slocks f' = <[buf_lock b := l']> (slocks f).

Lemma arep_change :
  slot_ok (disk f') x' (sl_locked l') a' ->
  (forall n, slot_no a' = Some n -> slot_no a = Some n \/ absent A n) ->
  (forall b' c y k, b' <> b -> A !! b' = Some c -> slot_ok (disk f) y k c ->
     slot_ok (disk f') y k c) ->
  arep f' (<[b := a']> A).
Proof.
  intros Hok Hno Hother. constructor.
  - rewrite Hbufs, length_insert. apply Har.
  - rewrite length_insert. apply Har.
  - destruct (ar_lru _ _ Har) as [l Hl]. exists l. revert Hl. unfold nxt, prv.
    apply lru_ext; intros i; unfold nxt, prv; rewrite Hbufs; by eapply insert_field.
  - intros b0 c Hc. destruct (decide (b0 = b)) as [->|Hne].
    + rewrite list_lookup_insert_eq in Hc by (by eapply lookup_lt_Some). simplify_eq.
      exists x', l'. rewrite Hbufs, Hlocks, list_lookup_insert_eq, lookup_insert_eq; [done|].
      by eapply lookup_lt_Some.
    + rewrite list_lookup_insert_ne in Hc by done.
      destruct (ar_slot _ _ Har b0 c Hc) as (y & k & Hy & Hk & Hs). exists y, k.
      rewrite Hbufs, Hlocks, list_lookup_insert_ne, lookup_insert_ne by
        (first [done | intros E%buf_lock_inj; done]).
      eauto.
  - intros b1 b2 c1 c2 n H1 H2 N1 N2. apply list_lookup_insert_Some in H1, H2.
    assert (Hab : forall b0 c0, A !! b0 = Some c0 -> slot_no c0 = Some n -> slot_no a' = Some n ->
      b0 = b).
    { intros b0 c0 H0 N0 Na. destruct (Hno n Na) as [Hn|Hn].
      - by eapply (ar_uniq _ _ Har).
      - by destruct (Hn _ _ H0 N0). }
    destruct H1 as [(-> & -> & _)|[? H1]], H2 as [(-> & -> & _)|[? H2]]; eauto.
    + symmetry. eauto.
    + by eapply (ar_uniq _ _ Har).
Qed.

Lemma arep_change_same :
  disk f' = disk f -> slot_ok (disk f') x' (sl_locked l') a' ->
  (forall n, slot_no a' = Some n -> slot_no a = Some n \/ absent A n) ->
  arep f' (<[b := a']> A).
Proof. intros Hd ??. apply arep_change; [done..|]. intros. by rewrite Hd. Qed.

End Change.

Lemma frame_with_buf f b x l : (b < NBUF)%nat -> frame f (with_buf f b x l).
Proof.
  intros Hb. constructor; try done. intros lk Hlk. cbn. rewrite lookup_insert_ne; [done|].
  intros E. by apply (Hlk b).
Qed.

Lemma upd_buf_ok b g x s :
  bufs (fs s) !! b = Some x ->
  upd_buf b g s = Ok tt (set_fs (set_bufs (<[b := g x]> (bufs (fs s))) (fs s)) s).
Proof.
  intros Hx. unfold upd_buf, modify_fs, modify. do 3 f_equal.
  apply list_eq. intros i. destruct (decide (i = b)) as [->|Hne].
  - rewrite list_lookup_alter_eq, Hx, list_lookup_insert_eq; [done|by eapply lookup_lt_Some].
  - by rewrite list_lookup_alter_ne, list_lookup_insert_ne.
Qed.

(** ** bget and bread *)

Lemma slot_match d x k a n :
  slot_ok d x k a -> (b_dev x =? 1) && (b_blockno x =? n) = bool_decide (slot_no a = Some n).
Proof.
  destruct a as [|m|m v|m v w]; simpl; intros Hok.
  - destruct Hok as [Hd _]. rewrite (proj2 (Z.eqb_neq _ _) Hd). done.
  - destruct Hok as (-> & -> & _). case_bool_decide; simplify_eq; simpl; [lia|].
    apply Z.eqb_neq. congruence.
  - destruct Hok as (-> & -> & _). case_bool_decide; simplify_eq; simpl; [lia|].
    apply Z.eqb_neq. congruence.
  - destruct Hok as (-> & -> & _). case_bool_decide; simplify_eq; simpl; [lia|].
    apply Z.eqb_neq. congruence.
Qed.

(** A buffer that [bget] may recycle. *)
Definition spare (a : slot) : bool :=
  match a with Unused | Clean _ => true | _ => false end.

Lemma slot_spare d x k a :
  slot_ok d x k a -> (b_refcnt x =? 0) && negb (flag_set (b_flags x) B_DIRTY) = spare a.
Proof.
  destruct a as [|m|m v|m v w]; simpl; intros Hok.
  - by destruct Hok as (_ & -> & -> & _).
  - by destruct Hok as (_ & _ & -> & -> & _).
  - by destruct Hok as (_ & _ & -> & -> & _).
  - by destruct Hok as (_ & _ & _ & -> & _).
Qed.

Lemma find_exists {B} (P : B -> bool) (l : list B) :
  (exists x, x ∈ l /\ P x = true) -> exists x, List.find P l = Some x /\ x ∈ l /\ P x = true.
Proof.
  intros (x & Hin & HP). destruct (List.find P l) as [y|] eqn:E.
  - exists y. apply find_some in E as [? ?]. by rewrite list_elem_of_In.
  - rewrite (find_none _ _ E x) in HP; [done|by apply list_elem_of_In].
Qed.

Lemma find_all_false {B} (P : B -> bool) (l : list B) :
  (forall x, x ∈ l -> P x = false) -> List.find P l = None.
Proof.
  intros H. destruct (List.find P l) as [y|] eqn:E; [|done].
  apply find_some in E as [Hin HP]. rewrite H in HP; [done|by apply list_elem_of_In].
Qed.

Section Bget.
Context (s : kstate) (A : list slot) (n : Z).
Hypothesis Hidle : idle s.
Hypothesis Har : arep (fs s) A.

Notation st := (locked_state bcache_lock s).

Lemma find_slot (P : buf -> bool) (Q : slot -> bool) (l : list nat) :
  (forall b, b ∈ l -> (b < NBUF)%nat) ->
  (forall d x k a, slot_ok d x k a -> P x = Q a) ->
  forall b, b ∈ l -> exists a x k, A !! b = Some a /\ bufs (fs s) !! b = Some x /\
    slocks (fs s) !! buf_lock b = Some k /\ slot_ok (disk (fs s)) x (sl_locked k) a /\
    P (bufs (fs s) !!! b) = Q a.
Proof.
  intros Hl HP b Hb. destruct (lookup_lt_is_Some_2 A b) as [a Ha].
  { rewrite (ar_slots _ _ Har). auto. }
  destruct (ar_slot _ _ Har b a Ha) as (x & k & Hx & Hk & Hok).
  exists a, x, k. rewrite (list_lookup_total_correct _ _ _ Hx). split_and!; eauto.
Qed.

Lemma walk_hit b a l :
  lru (fs s) l -> A !! b = Some a -> slot_no a = Some n ->
  List.find (fun b => (b_dev (bufs (fs s) !!! b) =? 1) && (b_blockno (bufs (fs s) !!! b) =? n)) l
  = Some b.
Proof.
  intros Hl Ha Hn.
  assert (Hall : forall b, b ∈ l -> (b < NBUF)%nat) by (intros ?; apply (lru_in _ _ _ Hl)).
  pose proof (find_slot _ _ l Hall (fun d x k a H => slot_match d x k a n H)) as HF.
  destruct (find_exists (fun b => (b_dev (bufs (fs s) !!! b) =? 1) &&
    (b_blockno (bufs (fs s) !!! b) =? n)) l) as (b' & -> & Hin & HP).
  - assert (Hb : b ∈ l) by (apply (lru_in _ _ _ Hl); by eapply arep_lt).
    exists b. split; [done|]. destruct (HF b Hb) as (a0 & x & k & Ha0 & _ & _ & _ & ->).
    simplify_eq. by apply bool_decide_true.
  - destruct (HF b' Hin) as (a0 & x & k & Ha0 & _ & _ & _ & E). rewrite E in HP.
    apply bool_decide_eq_true in HP. f_equal. by eapply (ar_uniq _ _ Har).
Qed.

Lemma walk_miss l :
  lru (fs s) l -> absent A n ->
  List.find (fun b => (b_dev (bufs (fs s) !!! b) =? 1) && (b_blockno (bufs (fs s) !!! b) =? n)) l
  = None.
Proof.
  intros Hl Hn. apply find_all_false. intros b Hb.
  assert (Hall : forall b, b ∈ l -> (b < NBUF)%nat) by (intros ?; apply (lru_in _ _ _ Hl)).
  destruct (find_slot _ _ l Hall (fun d x k a H => slot_match d x k a n H) b Hb)
    as (a & x & k & Ha & _ & _ & _ & ->).
  apply bool_decide_eq_false. by eapply Hn.
Qed.

Lemma walk_spare l :
  lru (fs s) l -> (exists b a, A !! b = Some a /\ spare a = true) ->
  exists b a, A !! b = Some a /\ spare a = true /\
  List.find (fun b => (b_refcnt (bufs (fs s) !!! b) =? 0) &&
                      negb (flag_set (b_flags (bufs (fs s) !!! b)) B_DIRTY)) (rev l) = Some b.
Proof.
  intros Hl (b & a & Ha & Hsp).
  assert (Hall : forall b, b ∈ rev l -> (b < NBUF)%nat)
    by (intros ?; rewrite elem_of_reverse_rev; apply (lru_in _ _ _ Hl)).
  pose proof (find_slot _ _ (rev l) Hall slot_spare) as HF.
  destruct (find_exists (fun b => (b_refcnt (bufs (fs s) !!! b) =? 0) &&
    negb (flag_set (b_flags (bufs (fs s) !!! b)) B_DIRTY)) (rev l)) as (b' & Hf & Hin & HP).
  - assert (Hb : b ∈ rev l).
    { rewrite elem_of_reverse_rev. apply (lru_in _ _ _ Hl). by eapply arep_lt. }
    exists b. split; [done|]. destruct (HF b Hb) as (a0 & x & k & Ha0 & _ & _ & _ & ->).
    by simplify_eq.
  - destruct (HF b' Hin) as (a0 & x & k & Ha0 & _ & _ & _ & E). rewrite E in HP. eauto.
Qed.

(** The buffer [bget] returns, locked, with the contents it had. *)
Lemma bget_lock b x x' k :
  (b < NBUF)%nat -> bufs (fs s) !! b = Some x -> slocks (fs s) !! buf_lock b = Some k ->
  sl_locked k = 0 ->
  (release bcache_lock ;; acquiresleep (buf_lock b) ;; ret b)
    (set_fs (set_bufs (<[b := x']> (bufs (fs s))) (fs s)) st) =
  Ok b (set_fs (with_buf (fs s) b x' (mk_sleeplock 1 (sl_name k) (my_pid s))) s).
Proof.
  intros Hb Hx Hk H0.
  rewrite (bind_ok _ _ _ _ _ (release_idle _ s _ (idle_bcache _ Hidle) (idle_cpu _ Hidle)
    (idle_norm _ Hidle))).
  set (f1 := set_bufs _ _).
  rewrite (bind_ok _ _ _ _ _ (acquiresleep_idle (set_fs f1 s) b (idle_set_fs _ _ Hidle) Hb k Hk H0)).
  done.
Qed.

Lemma bget_start :
  exists l, lru (fs s) l /\
  bget 1 n s =
  match List.find (fun b => (b_dev (bufs (fs s) !!! b) =? 1) &&
                            (b_blockno (bufs (fs s) !!! b) =? n)) l with
  | Some b =>
      (x <- get_buf b ;; upd_buf b (set_refcnt (u32 (b_refcnt x + 1))) ;;
       release bcache_lock ;; acquiresleep (buf_lock b) ;; ret b) st
  | None =>
      match List.find (fun b => (b_refcnt (bufs (fs s) !!! b) =? 0) &&
                        negb (flag_set (b_flags (bufs (fs s) !!! b)) B_DIRTY)) (rev l) with
      | Some b =>
          (upd_buf b (fun x => mk_buf 0 1 n 1 (b_prev x) (b_next x) (b_data x)) ;;
           release bcache_lock ;; acquiresleep (buf_lock b) ;; ret b) st
      | None => Panic "bget: no buffers"
      end
  end.
Proof.
  destruct (ar_lru _ _ Har) as [l Hl]. exists l. split; [done|]. unfold bget.
  rewrite (bind_ok _ _ _ _ _ (acquire_free _ _ (idle_bcache _ Hidle))).
  assert (Hh : get_buf head st = Ok (bufs (fs s) !!! head) st).
  { apply (get_buf_in head st). cbn. rewrite (ar_bufs _ _ Har). unfold head. lia. }
  rewrite (bind_ok _ _ _ _ _ Hh).
  rewrite (bind_ok _ _ _ _ _ (walk_forward (fs s) A l st Har Hl eq_refl _)).
  destruct (List.find _ l); [done|].
  rewrite (bind_ok _ _ _ _ _ (walk_backward (fs s) A l st Har Hl eq_refl _)).
  by destruct (List.find _ (rev l)).
Qed.

End Bget.

(** ** The disk *)

Lemma set_bufs_bufs b x x' f :
  set_bufs (<[b := x']> (bufs (set_bufs (<[b := x]> (bufs f)) f))) (set_bufs (<[b := x]> (bufs f)) f) =
  set_bufs (<[b := x']> (bufs f)) f.
Proof. destruct f. cbn. unfold set_bufs. cbn. by rewrite list_insert_insert_eq. Qed.

Section Iderw.
Context (s : kstate) (b : nat) (x : buf) (k : sleeplock).
Hypothesis Hidle : idle s.
Hypothesis Hb : (b < NBUF)%nat.
Hypothesis Hx : bufs (fs s) !! b = Some x.
Hypothesis Hk : slocks (fs s) !! buf_lock b = Some k.
Hypothesis Hlk : sl_locked k = 1.
Hypothesis Hdev : b_dev x = 1.
Hypothesis Hno : 0 <= b_blockno x < Z.of_nat (length (disk (fs s))).

Lemma holding_it : holdingsleep (buf_lock b) s = Ok true s.
Proof. rewrite (holdingsleep_idle s b Hidle Hb k Hk). by rewrite Hlk. Qed.

Let p := Z.to_nat (b_blockno x).

Lemma b_lt_bufs : (b < length (bufs (fs s)))%nat.
Proof. by eapply lookup_lt_Some. Qed.

Lemma iderw_read :
  b_flags x = 0 ->
  iderw b s = Ok tt (set_fs (set_bufs (<[b := set_flags B_VALID (set_data (disk (fs s) !!! p) x)]>
    (bufs (fs s))) (fs s)) s).
Proof.
  intros Hf. unfold iderw. rewrite (bind_ok _ _ _ _ _ holding_it). cbn [negb].
  rewrite (bind_ok _ _ _ _ _ (get_buf_ok b x s Hx)), Hf, Hdev.
  change (Z.land 0 (Z.lor B_VALID B_DIRTY) =? B_VALID) with false.
  change (negb (1 =? 1)) with false. cbv iota. rewrite bind_gets. rewrite (proj2 (Z.leb_gt _ _)) by lia.
  change (flag_set 0 B_DIRTY) with false. cbv iota.
  rewrite (bind_ok _ _ _ _ _ (upd_buf_ok b _ x s Hx)).
  set (f1 := set_bufs _ _). set (x1 := set_data _ x).
  assert (H1 : bufs f1 !! b = Some x1) by (apply list_lookup_insert_eq, b_lt_bufs).
  rewrite (bind_ok _ _ _ _ _ (get_buf_ok b x1 (set_fs f1 s) H1)).
  rewrite (upd_buf_ok b _ x1 (set_fs f1 s) H1). cbn [fs set_fs]. unfold f1.
  rewrite set_bufs_bufs. unfold x1. cbn [b_flags set_data]. rewrite Hf. done.
Qed.

Lemma iderw_write :
  b_flags x = dirty_flags true ->
  iderw b s = Ok tt (set_fs (set_disk (<[p := b_data x]> (disk (fs s)))
    ((b_blockno x, b_data x) :: dwrites (fs s))
    (set_bufs (<[b := set_flags B_VALID x]> (bufs (fs s))) (fs s))) s).
Proof.
  intros Hf. unfold iderw. rewrite (bind_ok _ _ _ _ _ holding_it). cbn [negb].
  rewrite (bind_ok _ _ _ _ _ (get_buf_ok b x s Hx)), Hf, Hdev.
  change (Z.land (dirty_flags true) (Z.lor B_VALID B_DIRTY) =? B_VALID) with false.
  change (negb (1 =? 1)) with false. cbv iota. rewrite bind_gets. rewrite (proj2 (Z.leb_gt _ _)) by lia.
  change (flag_set (dirty_flags true) B_DIRTY) with true. cbv iota.
  rewrite bind_assoc, (bind_ok _ _ _ _ _ (upd_buf_ok b _ x s Hx)).
  set (x1 := set_flags _ x). unfold modify_fs. rewrite bind_modify.
  cbn [fs set_fs]. set (f1 := set_disk _ _ _).
  assert (H1 : bufs f1 !! b = Some x1) by (apply list_lookup_insert_eq, b_lt_bufs).
  rewrite (bind_ok _ _ _ _ _ (get_buf_ok b x1 (set_fs f1 s) H1)).
  rewrite (upd_buf_ok b _ x1 (set_fs f1 s) H1). cbn [fs set_fs]. unfold f1, x1.
  destruct s as [? ? ? ? ? ? ? ? ? ? ? ? ? ? f]; destruct f; cbn. unfold set_fs, set_bufs, set_disk. cbn.
  by rewrite list_insert_insert_eq.
Qed.

End Iderw.

(** ** The operations on slots *)

Definition no_dirty (A : list slot) (n : Z) : Prop := forall b v, A !! b <> Some (Dirty n v).

Section Slots.
Context (s : kstate) (A : list slot).
Hypothesis Hidle : idle s.
Hypothesis Har : arep (fs s) A.

Notation f := (fs s).

(** A cached block: the reference is counted and the buffer locked. *)
Lemma bread_hit n b a v w :
  A !! b = Some a -> slot_no a = Some n ->
  (forall x k, slot_ok (disk f) x k a -> k = 0 /\ b_refcnt x = 0 /\ b_flags x = dirty_flags w /\
     slot_ok (disk f) (set_refcnt 1 x) 1 (Held n v w)) ->
  exists f', bread 1 n s = Ok b (set_fs f' s) /\ frame f f' /\ disk f' = disk f /\
    dwrites f' = dwrites f /\ arep f' (<[b := Held n v w]> A).
Proof.
  intros Ha Hn Hok. pose proof (arep_lt _ _ _ _ Har Ha) as Hb.
  destruct (ar_slot _ _ Har b a Ha) as (x & k & Hx & Hk & Hsl).
  destruct (Hok _ _ Hsl) as (H0 & Hr & Hfl & Hheld).
  destruct (bget_start s A n Hidle Har) as (l & Hl & E).
  rewrite (walk_hit s A n Har b a l Hl Ha Hn) in E.
  rewrite (bind_ok _ _ _ _ _ (get_buf_ok b x (locked_state bcache_lock s) Hx)) in E.
  rewrite (bind_ok _ _ _ _ _ (upd_buf_ok b _ x (locked_state bcache_lock s) Hx)) in E.
  rewrite Hr in E. change (u32 (0 + 1)) with 1 in E.
  set (x' := set_refcnt 1 x) in *. set (l' := mk_sleeplock 1 (sl_name k) (my_pid s)).
  assert (Eb : bget 1 n s = Ok b (set_fs (with_buf f b x' l') s))
    by (rewrite E; exact (bget_lock s Hidle b x x' k Hb Hx Hk H0)).
  exists (with_buf f b x' l'). split_and!; [|by apply frame_with_buf|done|done|].
  - unfold bread. rewrite (bind_ok _ _ _ _ _ Eb).
    assert (Hx' : bufs (with_buf f b x' l') !! b = Some x')
      by (apply list_lookup_insert_eq; by eapply lookup_lt_Some).
    rewrite (bind_ok _ _ _ _ _ (get_buf_ok b x' (set_fs _ s) Hx')).
    unfold x'. cbn [b_flags set_refcnt]. rewrite Hfl.
    assert (flag_set (dirty_flags w) B_VALID = true) as -> by by destruct w.
    done.
  - eapply (arep_change_same f _ A b a _ x x' l'); try done.
    intros m Hm. simpl in Hm. simplify_eq. by left.
Qed.

(** A block that is not cached takes the place of a spare buffer. *)
Lemma bread_miss n :
  0 <= n < Z.of_nat (length (disk f)) -> absent A n ->
  (exists b a, A !! b = Some a /\ spare a = true) ->
  exists b a v f', A !! b = Some a /\ spare a = true /\ disk f !! Z.to_nat n = Some v /\
    bread 1 n s = Ok b (set_fs f' s) /\ frame f f' /\ disk f' = disk f /\
    dwrites f' = dwrites f /\ arep f' (<[b := Held n v false]> A).
Proof.
  intros Hn Hab Hsp. destruct (bget_start s A n Hidle Har) as (l & Hl & E).
  rewrite (walk_miss s A n Har l Hl Hab) in E.
  destruct (walk_spare s A Har l Hl Hsp) as (b & a & Ha & Ha' & Hf). rewrite Hf in E.
  pose proof (arep_lt _ _ _ _ Har Ha) as Hb.
  destruct (ar_slot _ _ Har b a Ha) as (x & k & Hx & Hk & Hsl).
  assert (H0 : sl_locked k = 0) by (destruct a; simpl in Hsl; try done; tauto).
  rewrite (bind_ok _ _ _ _ _ (upd_buf_ok b _ x (locked_state bcache_lock s) Hx)) in E.
  cbv beta in E. set (x1 := mk_buf 0 1 n 1 _ _ _) in *.
  set (l' := mk_sleeplock 1 (sl_name k) (my_pid s)).
  assert (Eb : bget 1 n s = Ok b (set_fs (with_buf f b x1 l') s))
    by (rewrite E; exact (bget_lock s Hidle b x x1 k Hb Hx Hk H0)).
  destruct (lookup_lt_is_Some_2 (disk f) (Z.to_nat n)) as [v Hv]; [lia|].
  assert (Hlt : (b < length (bufs f))%nat) by by eapply lookup_lt_Some.
  set (x2 := set_flags B_VALID (set_data v x1)).
  exists b, a, v, (with_buf f b x2 l').
  split_and!; [done|done|done| |by apply frame_with_buf|done|done|].
  - unfold bread. rewrite (bind_ok _ _ _ _ _ Eb).
    assert (H1 : bufs (with_buf f b x1 l') !! b = Some x1) by by apply list_lookup_insert_eq.
    rewrite (bind_ok _ _ _ _ _ (get_buf_ok b x1 (set_fs _ s) H1)).
    change (negb (flag_set (b_flags x1) B_VALID)) with true. cbv iota.
    rewrite (bind_ok _ _ _ _ _ (iderw_read (set_fs (with_buf f b x1 l') s) b x1 l'
      (idle_set_fs _ _ Hidle) Hb H1 (lookup_insert_eq _ _ _) eq_refl eq_refl Hn eq_refl)).
    unfold ret. cbn [fs set_fs]. rewrite (list_lookup_total_correct _ _ _ Hv).
    apply (f_equal (fun g => Ok b (set_fs g s))). unfold with_buf, slock_set.
    cbn [bufs set_bufs]. unfold set_bufs. cbn. by rewrite list_insert_insert_eq.
  - eapply (arep_change_same f _ A b a _ x x2 l'); try done.
    intros m Hm. simpl in Hm. simplify_eq. by right.
Qed.

Lemma bread_slot n :
  0 <= n < Z.of_nat (length (disk f)) -> (forall b v w, A !! b <> Some (Held n v w)) ->
  (exists b v, A !! b = Some (Dirty n v)) \/ (exists b a, A !! b = Some a /\ spare a = true) ->
  exists b a v w f', A !! b = Some a /\ bread 1 n s = Ok b (set_fs f' s) /\ frame f f' /\
    disk f' = disk f /\ dwrites f' = dwrites f /\ arep f' (<[b := Held n v w]> A) /\
    ((a = Dirty n v /\ w = true) \/
     (spare a = true /\ w = false /\ disk f !! Z.to_nat n = Some v /\ no_dirty A n)).
Proof.
  intros Hn Hnh Hsp.
  destruct (decide (Exists (fun a => slot_no a = Some n) A)) as [Hex|Hex].
  - apply list.Exists_exists in Hex as (a & [b Ha]%list_elem_of_lookup & Hno).
    assert (Hu : forall b' v, A !! b' = Some (Dirty n v) -> b' = b)
      by (intros b' v H'; by eapply (ar_uniq _ _ Har)).
    destruct a as [|m|m v|m v w]; simpl in Hno; simplify_eq.
    + destruct (ar_slot _ _ Har b _ Ha) as (x & k & Hx & Hk & Hsl).
      destruct (bread_hit n b (Clean n) (b_data x) false) as (f' & H1 & H2 & H3 & H4 & H5);
        [done..| |].
      { simpl. intros y ky (? & ? & ? & ? & ? & ? & Hd). simpl in Hsl.
        destruct Hsl as (_ & _ & _ & _ & _ & _ & Hd'). rewrite Hd in Hd'.
        injection Hd' as Hd'. apply lookup_lt_Some in Hd. split_and!; try done; lia. }
      exists b, (Clean n), (b_data x), false, f'. split_and!; try done. right.
      simpl in Hsl. split_and!; try done; [tauto|].
      intros b' v' H'. rewrite (Hu _ _ H') in H'. congruence.
    + destruct (bread_hit n b (Dirty n v) v true) as (f' & H1 & H2 & H3 & H4 & H5); [done..| |].
      { simpl. intros y ky (? & ? & ? & ? & ? & ? & ?). split_and!; first [done|lia]. }
      exists b, (Dirty n v), v, true, f'. split_and!; try done. by left.
    + by destruct (Hnh b v w).
  - assert (Hab : absent A n).
    { intros b a Ha Hno. apply Hex, list.Exists_exists. exists a. split; [|done].
      by eapply list_elem_of_lookup_2. }
    destruct Hsp as [(b & v & Hd)|Hsp]; [by destruct (Hab _ _ Hd)|].
    destruct (bread_miss n Hn Hab Hsp) as (b & a & v & f' & Ha & Hs & Hv & H1 & H2 & H3 & H4 & H5).
    exists b, a, v, false, f'. split_and!; try done. right. split_and!; try done.
    intros b' v' H'. by apply (Hab _ _ H').
Qed.

End Slots.

(** ** Writing *)

Section Held.
Context (s : kstate) (A : list slot) (b : nat) (n : Z) (v : list byte) (w : bool).
Hypothesis Hidle : idle s.
Hypothesis Har : arep (fs s) A.
Hypothesis Ha : A !! b = Some (Held n v w).

Notation f := (fs s).

Lemma held_buf : exists x k, bufs f !! b = Some x /\ slocks f !! buf_lock b = Some k /\
  slot_ok (disk f) x (sl_locked k) (Held n v w).
Proof. apply (ar_slot _ _ Har b _ Ha). Qed.

Lemma held_get : exists x, get_buf b s = Ok x s /\ b_data x = v /\ b_blockno x = n /\
  b_flags x = dirty_flags w.
Proof.
  destruct held_buf as (x & k & Hx & _ & Hok). exists x. simpl in Hok.
  split_and!; [by apply get_buf_ok|tauto..].
Qed.

(** The holder changes the data, or marks the block as changed. *)
Lemma upd_slot g v' w' :
  (forall x, b_data x = v -> b_flags x = dirty_flags w ->
     g x = mk_buf (dirty_flags w') (b_dev x) (b_blockno x) (b_refcnt x) (b_prev x) (b_next x) v') ->
  exists f', upd_buf b g s = Ok tt (set_fs f' s) /\ frame f f' /\ disk f' = disk f /\
    dwrites f' = dwrites f /\ arep f' (<[b := Held n v' w']> A).
Proof.
  intros Hg. destruct held_buf as (x & k & Hx & Hk & Hok). simpl in Hok.
  destruct Hok as (Hd & Hn & Hfl & Hr & Hl & Hrange & Hv).
  rewrite (upd_buf_ok b g x s Hx), (Hg x Hv Hfl). set (x' := mk_buf _ _ _ _ _ _ _).
  eexists. split; [done|]. split; [by constructor|]. split; [done|]. split; [done|].
  eapply (arep_change_same f _ A b _ _ x x' k); try done.
  - cbn. by rewrite insert_id.
  - intros m Hm. simpl in Hm. simplify_eq. by left.
Qed.

Lemma set_data_slot v' :
  exists f', upd_buf b (set_data v') s = Ok tt (set_fs f' s) /\ frame f f' /\ disk f' = disk f /\
    dwrites f' = dwrites f /\ arep f' (<[b := Held n v' w]> A).
Proof. apply upd_slot. intros x _ Hf. unfold set_data. by rewrite Hf. Qed.

Lemma bwrite_slot :
  exists f', bwrite b s = Ok tt (set_fs f' s) /\ frame f f' /\
    disk f' = <[Z.to_nat n := v]> (disk f) /\ dwrites f' = (n, v) :: dwrites f /\
    arep f' (<[b := Held n v false]> A).
Proof.
  destruct held_buf as (x & k & Hx & Hk & Hok). simpl in Hok.
  destruct Hok as (Hd & Hn & Hfl & Hr & Hl & Hrange & Hv).
  pose proof (arep_lt _ _ _ _ Har Ha) as Hb.
  unfold bwrite. rewrite (bind_ok _ _ _ _ _ (holding_it s b k Hidle Hb Hk Hl)). cbn [negb].
  rewrite (bind_ok _ _ _ _ _ (get_buf_ok b x s Hx)).
  rewrite (bind_ok _ _ _ _ _ (upd_buf_ok b _ x s Hx)). rewrite Hfl.
  assert (Z.lor (dirty_flags w) B_DIRTY = dirty_flags true) as -> by by destruct w.
  set (x1 := set_flags _ x). set (f1 := set_bufs _ _).
  assert (Hlt : (b < length (bufs f))%nat) by by eapply lookup_lt_Some.
  assert (H1 : bufs f1 !! b = Some x1) by by apply list_lookup_insert_eq.
  assert (Hr1 : 0 <= b_blockno x1 < Z.of_nat (length (disk f))) by (cbn; lia).
  rewrite (iderw_write (set_fs f1 s) b x1 k (idle_set_fs _ _ Hidle) Hb H1 Hk Hl Hd Hr1 eq_refl).
  eexists. split; [done|]. unfold x1. cbn [b_blockno b_data set_flags]. rewrite Hn, Hv.
  split; [by constructor|]. split; [done|]. split; [done|].
  eapply (arep_change f _ A b _ _ x (set_flags B_VALID x) k); try done.
  - cbn. by rewrite list_insert_insert_eq.
  - cbn. by rewrite insert_id.
  - cbn. rewrite length_insert. done.
  - intros m Hm. simpl in Hm. simplify_eq. by left.
  - intros b' c y q Hne Hc Hs. cbn [disk set_disk]. destruct c; simpl in *; rewrite ?length_insert; try done.
    rewrite list_lookup_insert_ne; [done|]. intros E.
    assert (n0 = n) as -> by (destruct Hs as (_ & _ & _ & _ & _ & ? & _); lia).
    apply Hne. by eapply (ar_uniq _ _ Har).
Qed.

End Held.

(** ** Releasing: the move to the front of the list *)

Definition unlinked (x y : buf) : Prop :=
  y = mk_buf (b_flags x) (b_dev x) (b_blockno x) (b_refcnt x) (b_prev y) (b_next y) (b_data x).

(** The assignments to the links in [brelse]. *)
Definition relink (b : nat) (bs : list buf) : list buf :=
  let x := bs !!! b in
  let bs1 := alter (set_prev (b_prev x)) (b_next x) bs in
  let bs2 := alter (set_next (b_next x)) (b_prev x) bs1 in
  let h := b_next (bs2 !!! head) in
  alter (set_next b) head (alter (set_prev b) h (alter (set_prev head) b (alter (set_next h) b bs2))).

Section Relink.
Context (bs : list buf).

Lemma next_set_next k v i : (k < length bs)%nat ->
  b_next (alter (set_next v) k bs !!! i) = upd (fun j => b_next (bs !!! j)) k v i.
Proof.
  intros Hk. unfold upd. case_decide as E.
  - subst i. by rewrite list_lookup_total_alter_eq.
  - by rewrite list_lookup_total_alter_ne.
Qed.

Lemma prev_set_prev k v i : (k < length bs)%nat ->
  b_prev (alter (set_prev v) k bs !!! i) = upd (fun j => b_prev (bs !!! j)) k v i.
Proof.
  intros Hk. unfold upd. case_decide as E.
  - subst i. by rewrite list_lookup_total_alter_eq.
  - by rewrite list_lookup_total_alter_ne.
Qed.

Lemma alter_other {B} (g : buf -> B) (h : buf -> buf) k i :
  (forall x, g (h x) = g x) -> g (alter h k bs !!! i) = g (bs !!! i).
Proof.
  intros Hg. rewrite !list_lookup_total_alt. destruct (decide (i = k)) as [->|Hne].
  - rewrite list_lookup_alter_eq. by destruct (bs !! k); simpl.
  - by rewrite list_lookup_alter_ne.
Qed.

Lemma unlinked_alter h k :
  (forall x, unlinked x (h x)) -> forall i x, bs !! i = Some x ->
  exists y, alter h k bs !! i = Some y /\ unlinked x y.
Proof.
  intros Hh i x Hx. destruct (decide (i = k)) as [->|Hne].
  - rewrite list_lookup_alter_eq, Hx. simpl. eauto.
  - rewrite list_lookup_alter_ne, Hx by done. exists x. split; [done|]. by destruct x.
Qed.

End Relink.

Lemma unlinked_trans x y z : unlinked x y -> unlinked y z -> unlinked x z.
Proof. unfold unlinked. intros E1 E2. rewrite E2. rewrite E1. done. Qed.

Lemma relink_length b bs : length (relink b bs) = length bs.
Proof. unfold relink. by rewrite !length_alter. Qed.

Lemma relink_unlinked b bs i x :
  bs !! i = Some x -> exists y, relink b bs !! i = Some y /\ unlinked x y.
Proof.
  assert (S1 : forall v y, unlinked y (set_next v y)) by done.
  assert (S2 : forall v y, unlinked y (set_prev v y)) by done.
  intros Hx. unfold relink.
  destruct (unlinked_alter bs (set_prev (b_prev (bs !!! b))) (b_next (bs !!! b)) (S2 _) i x Hx)
    as (x1 & H1 & U1).
  edestruct (unlinked_alter _ (set_next (b_next (bs !!! b))) (b_prev (bs !!! b)) (S1 _) i x1 H1)
    as (x2 & H2 & U2).
  set (bs2 := alter (set_next _) _ _) in *.
  edestruct (unlinked_alter _ (set_next (b_next (bs2 !!! head))) b (S1 _) i x2 H2) as (x3 & H3 & U3).
  edestruct (unlinked_alter _ (set_prev head) b (S2 _) i x3 H3) as (x4 & H4 & U4).
  edestruct (unlinked_alter _ (set_prev b) (b_next (bs2 !!! head)) (S2 _) i x4 H4) as (x5 & H5 & U5).
  edestruct (unlinked_alter _ (set_next b) head (S1 _) i x5 H5) as (x6 & H6 & U6).
  exists x6. split; [exact H6|].
  eapply unlinked_trans; [exact U1|]. eapply unlinked_trans; [exact U2|].
  eapply unlinked_trans; [exact U3|]. eapply unlinked_trans; [exact U4|].
  by eapply unlinked_trans.
Qed.

Section RelinkLinks.
Context (b : nat) (bs : list buf).
Notation N := (fun j => b_next (bs !!! j)).
Notation P := (fun j => b_prev (bs !!! j)).
Hypothesis Hlen : length bs = S NBUF.
Hypothesis Hb : (b < S NBUF)%nat.
Hypothesis HN : (b_next (bs !!! b) < S NBUF)%nat.
Hypothesis HP : (b_prev (bs !!! b) < S NBUF)%nat.
Hypothesis HF : (upd N (b_prev (bs !!! b)) (b_next (bs !!! b)) head < S NBUF)%nat.

Lemma upd_ext (g g' : nat -> nat) k v i : (forall j, g j = g' j) -> upd g k v i = upd g' k v i.
Proof. intros E. unfold upd. by case_decide. Qed.

Let bs2 := alter (set_next (b_next (bs !!! b))) (b_prev (bs !!! b))
             (alter (set_prev (b_prev (bs !!! b))) (b_next (bs !!! b)) bs).

Lemma bs2_next i : b_next (bs2 !!! i) = upd N (b_prev (bs !!! b)) (b_next (bs !!! b)) i.
Proof.
  unfold bs2. rewrite next_set_next by (rewrite length_alter; lia).
  apply upd_ext. intros j. by apply alter_other.
Qed.

Lemma bs2_prev i : b_prev (bs2 !!! i) = upd P (b_next (bs !!! b)) (b_prev (bs !!! b)) i.
Proof.
  unfold bs2. rewrite alter_other by done. by rewrite prev_set_prev by lia.
Qed.

Lemma relink_next i : b_next (relink b bs !!! i) = move_nx head N P b i.
Proof.
  unfold relink. fold bs2. set (h := b_next (bs2 !!! head)).
  rewrite next_set_next by (unfold bs2; rewrite !length_alter, Hlen; unfold head; lia).
  unfold move_nx. apply upd_ext. intros j. rewrite !alter_other by done.
  rewrite next_set_next by (unfold bs2; rewrite !length_alter; lia).
  unfold h. rewrite bs2_next. apply upd_ext. intros. apply bs2_next.
Qed.

Lemma relink_prev i : b_prev (relink b bs !!! i) = move_pv head N P b i.
Proof.
  unfold relink. fold bs2. rewrite alter_other by done.
  rewrite prev_set_prev by (rewrite bs2_next; unfold bs2; rewrite !length_alter; lia).
  unfold move_pv. rewrite bs2_next. apply upd_ext. intros j.
  rewrite prev_set_prev by (unfold bs2; rewrite !length_alter; lia).
  apply upd_ext. intros. rewrite alter_other by done. apply bs2_prev.
Qed.

End RelinkLinks.

Lemma path_in nx a l e i : path nx a l e -> i ∈ a :: l -> nx i ∈ e :: l.
Proof.
  revert a. induction l as [|x l IH]; intros a; cbn [path].
  - intros <- ->%list_elem_of_singleton. set_solver.
  - intros [Ha Hp] [->|Hi]%elem_of_cons; [set_solver|]. specialize (IH x Hp Hi). set_solver.
Qed.

Lemma lru_links f l i : lru f l -> i ∈ head :: l -> (nxt f i < S NBUF)%nat /\ (prv f i < S NBUF)%nat.
Proof.
  intros Hl Hi. pose proof Hl as [_ [Hn Hp]].
  assert (Hin : forall j, j ∈ head :: l -> (j < S NBUF)%nat).
  { intros j [->|Hj]%elem_of_cons; [unfold head; lia|]. apply (lru_in _ _ _ Hl) in Hj. lia. }
  split; apply Hin.
  - by apply (path_in _ head).
  - assert (H : prv f i ∈ head :: rev l).
    { apply (path_in _ head); [done|]. rewrite elem_of_cons, elem_of_reverse_rev.
      by apply elem_of_cons in Hi. }
    rewrite elem_of_cons, elem_of_reverse_rev in H. by apply elem_of_cons.
Qed.

Lemma lru_relink f f' l b :
  lru f l -> length (bufs f) = S NBUF -> (b < NBUF)%nat -> bufs f' = relink b (bufs f) ->
  exists l', lru f' l'.
Proof.
  intros Hl Hlen Hb E. assert (Hin : b ∈ l) by by apply (lru_in _ _ _ Hl).
  apply list_elem_of_split in Hin as (l1 & l2 & ->). exists (b :: l1 ++ l2).
  destruct (lru_links f _ b Hl) as [Bn Bp]; [set_solver|].
  assert (Bf : (upd (nxt f) (prv f b) (nxt f b) head < S NBUF)%nat).
  { unfold upd. case_decide; [done|]. apply (lru_links f _ head Hl). set_solver. }
  pose proof (lru_NoDup _ _ Hl) as Hnd. destruct Hl as [Ep Hd].
  pose proof (dll_move _ _ _ _ _ _ Hnd Hd) as [M1 M2]. split; [by rewrite <- Ep, Permutation_middle|].
  split.
  - eapply path_ext; [|exact M1]. intros i _. unfold nxt. rewrite E.
    by apply relink_next; try done; lia.
  - eapply path_ext; [|exact M2]. intros i _. unfold prv. rewrite E.
    by apply relink_prev; try done; lia.
Qed.

Lemma slot_ok_unlinked d x y k a : unlinked x y -> slot_ok d x k a -> slot_ok d y k a.
Proof. intros ->. by destruct a. Qed.

Lemma arep_relink f f' A b :
  arep f A -> (b < NBUF)%nat -> bufs f' = relink b (bufs f) -> slocks f' = slocks f ->
  disk f' = disk f -> arep f' A.
Proof.
  intros Har Hb E El Ed. constructor.
  - rewrite E, relink_length. apply Har.
  - apply Har.
  - destruct (ar_lru _ _ Har) as [l Hl]. eapply (lru_relink f); [done|apply Har|done..].
  - intros i a Ha. destruct (ar_slot _ _ Har i a Ha) as (x & k & Hx & Hk & Hok).
    destruct (relink_unlinked b _ _ _ Hx) as (y & Hy & Hu). exists y, k.
    rewrite E, El, Ed. split_and!; [done|done|]. by eapply slot_ok_unlinked.
  - apply Har.
Qed.

(** The state after [brelse] has moved the buffer. *)
Lemma relink_ops b x s :
  (b < NBUF)%nat -> length (bufs (fs s)) = S NBUF -> bufs (fs s) !! b = Some x ->
  (upd_buf (b_next x) (set_prev (b_prev x)) ;; upd_buf (b_prev x) (set_next (b_next x)) ;;
   push_front b) s =
  Ok tt (set_fs (set_bufs (relink b (bufs (fs s))) (fs s)) s).
Proof.
  intros Hb Hlen Hx. unfold push_front, upd_buf at 1 2, modify_fs. rewrite !bind_modify.
  match goal with |- _ ?st = _ =>
    assert (Hh : get_buf head st = Ok (bufs (fs st) !!! head) st)
      by (apply get_buf_in; cbn; rewrite !length_alter, Hlen; unfold head; lia)
  end.
  rewrite (bind_ok _ _ _ _ _ Hh).
  unfold upd_buf, modify_fs. rewrite !bind_modify. unfold modify, relink.
  rewrite (list_lookup_total_correct _ _ _ Hx). done.
Qed.

Section Brelse.
Context (s : kstate) (A : list slot) (b : nat) (n : Z) (v : list byte) (w : bool).
Hypothesis Hidle : idle s.
Hypothesis Har : arep (fs s) A.
Hypothesis Ha : A !! b = Some (Held n v w).

Notation f := (fs s).

Definition released : slot := if w then Dirty n v else Clean n.

Lemma brelse_slot :
  (w = false -> disk f !! Z.to_nat n = Some v) ->
  exists f', brelse b s = Ok tt (set_fs f' s) /\ frame f f' /\ disk f' = disk f /\
    dwrites f' = dwrites f /\ arep f' (<[b := released]> A).
Proof.
  intros Hclean. destruct (held_buf s A b n v w Har Ha) as (x & k & Hx & Hk & Hok). simpl in Hok.
  destruct Hok as (Hd & Hn & Hfl & Hr & Hl & Hrange & Hv).
  pose proof (arep_lt _ _ _ _ Har Ha) as Hb.
  unfold brelse. rewrite (bind_ok _ _ _ _ _ (holding_it s b k Hidle Hb Hk Hl)). cbn [negb].
  rewrite (bind_ok _ _ _ _ _ (releasesleep_idle s b Hidle Hb k Hk)).
  set (l' := mk_sleeplock 0 (sl_name k) 0). set (f1 := slock_set f (buf_lock b) l').
  set (s1 := set_fs f1 s).
  rewrite (bind_ok _ _ _ _ _ (acquire_free _ s1 (idle_bcache _ Hidle))).
  rewrite (bind_ok _ _ _ _ _ (get_buf_ok b x (locked_state bcache_lock s1) Hx)), Hr.
  rewrite (bind_ok _ _ _ _ _ (upd_buf_ok b _ x (locked_state bcache_lock s1) Hx)).
  change (u32 (1 - 1)) with 0. change (0 =? 0) with true. cbv iota.
  set (x1 := set_refcnt 0 x). set (s2 := set_fs _ _).
  assert (Hlt : (b < length (bufs f))%nat) by by eapply lookup_lt_Some.
  assert (H1 : bufs (fs s2) !! b = Some x1) by by apply list_lookup_insert_eq.
  assert (Hlen : length (bufs (fs s2)) = S NBUF) by (cbn; rewrite length_insert; apply Har).
  change (b_next x) with (b_next x1). change (b_prev x) with (b_prev x1).
  rewrite (bind_ok _ _ _ _ _ (relink_ops b x1 s2 Hb Hlen H1)).
  change (set_fs ?g s2) with (set_fs g (locked_state bcache_lock s)).
  rewrite (release_idle bcache_lock s _ (idle_bcache _ Hidle) (idle_cpu _ Hidle) (idle_norm _ Hidle)).
  eexists. split; [done|]. split; [|split; [done|split; [done|]]].
  - destruct (frame_with_buf f b x1 l' Hb). by constructor.
  - apply (arep_relink (with_buf f b x1 l') _ _ b); try done.
    eapply (arep_change_same f _ A b _ _ x x1 l'); try done.
    + unfold released. destruct w; simpl; split_and!; try done; try lia. rewrite Hv. by apply Hclean.
    + intros m Hm. left. unfold released in Hm. destruct w; simpl in Hm |- *; congruence.
Qed.

End Brelse.
