(* ===== verification/Blocks.v ===== *)
(** * The buffer cache as a disk with pending writes

    The clients of the buffer cache see neither buffers nor their order of use:
    [crep f D H] says that the cache holds the changed blocks [D], which wait
    for their transaction to end, and the blocks [H] that the running process
    has locked; [blk] is the content of a block for the next reader.  The
    operations of bio.c are functions on [D], [H] and the disk. *)

From stdpp Require Import gmap.
From S2P Require Import Prelude Memory FsState Machine Spinlock Kalloc Proc Sleeplock Bio Lru.
From S2P Require Import BioSpec.
Local Open Scope Z_scope.
Local Open Scope kernel_scope.

(** A buffer that [bread] returned: its block, its data, and whether it waits
    for the log. *)
Record handle := mk_handle {
  h_buf : nat;
  h_no : Z;
  h_data : list byte;
  h_dirty : bool;
}.

Definition blk (d : list (list byte)) (D : gmap Z (list byte)) (n : Z) : list byte :=
  match D !! n with Some v => v | None => d !!! Z.to_nat n end.

Definition crep (f : fsys) (D : gmap Z (list byte)) (H : list handle) : Prop :=
  exists A, arep f A /\
    (forall n v, D !! n = Some v <-> exists b, A !! b = Some (Dirty n v)) /\
    (forall b n v w, mk_handle b n v w ∈ H <-> A !! b = Some (Held n v w)) /\ NoDup H.

#[export] Instance crep_perm f D : Proper (Permutation ==> iff) (crep f D).
Proof.
  intros H H' E. unfold crep. split; intros (A & ? & ? & Hh & Hn); exists A.
  - rewrite <- E. split_and!; [done..| |done]. intros. by rewrite <- E.
  - rewrite E. split_and!; [done..| |done]. intros. by rewrite E.
Qed.

(** ** There is a spare buffer while less than [NBUF] are in use *)

Definition use (A : list slot) (b : nat) : Z + handle :=
  match A !! b with
  | Some (Held n v w) => inr (mk_handle b n v w)
  | Some (Dirty n v) => inl n
  | _ => inl 0
  end.

Lemma spare_exists f A (D : gmap Z (list byte)) (H : list handle) :
  arep f A -> (forall n v, D !! n = Some v <-> exists b, A !! b = Some (Dirty n v)) ->
  (forall b n v w, mk_handle b n v w ∈ H <-> A !! b = Some (Held n v w)) ->
  (size D + length H < NBUF)%nat -> exists b a, A !! b = Some a /\ spare a = true.
Proof.
  intros Har HD HH Hsz.
  destruct (decide (Exists (fun a => spare a = true) A)) as [Hex|Hno].
  - apply list.Exists_exists in Hex as (a & [b Ha]%list_elem_of_lookup & Hsp). eauto.
  - exfalso. assert (Hall : forall b, (b < NBUF)%nat -> exists a, A !! b = Some a /\ spare a = false).
    { intros b Hb. destruct (lookup_lt_is_Some_2 A b) as [a Ha]; [by rewrite (ar_slots _ _ Har)|].
      exists a. split; [done|]. destruct (spare a) eqn:Es; [|done]. destruct Hno.
      apply list.Exists_exists. exists a. split; [by eapply list_elem_of_lookup_2|done]. }
    assert (Hsub : use A <$> seq 0 NBUF ⊆+ (inl <$> (map_to_list D).*1) ++ (inr <$> H)).
    { apply NoDup_submseteq.
      - apply NoDup_fmap_2_strong; [|apply NoDup_seq]. intros b1 b2 H1 H2 E.
        apply elem_of_seq in H1, H2. destruct (Hall b1) as (a1 & A1 & S1); [lia|].
        destruct (Hall b2) as (a2 & A2 & S2); [lia|]. unfold use in E. rewrite A1, A2 in E.
        destruct a1, a2; simplify_eq/=; [|done]. by eapply (ar_uniq _ _ Har).
      - intros c (b & -> & Hb)%list_elem_of_fmap. apply elem_of_seq in Hb.
        destruct (Hall b) as (a & Hab & S1); [lia|]. unfold use. rewrite Hab.
        apply elem_of_app. destruct a as [| |n v|n v w]; try done.
        + left. apply list_elem_of_fmap. exists n. split; [done|]. apply list_elem_of_fmap.
          exists (n, v). split; [done|]. apply elem_of_map_to_list, HD. eauto.
        + right. apply list_elem_of_fmap. eexists. split; [done|]. by apply HH. }
    apply submseteq_length in Hsub. rewrite length_app, !length_fmap, length_seq in Hsub.
    rewrite length_map_to_list in Hsub. lia.
Qed.

(** ** The operations *)

Lemma lookup_change (A : list slot) b a a' c b' :
  A !! b = Some a ->
  <[b := a']> A !! b' = Some c <-> (b' = b /\ c = a') \/ (b' <> b /\ A !! b' = Some c).
Proof.
  intros Ha. rewrite list_lookup_insert_Some.
  assert ((b < length A)%nat) by by eapply lookup_lt_Some. split.
  - intros [(-> & -> & _)|[? ?]]; [left|right]; split; auto.
  - intros [[-> ->]|[? ?]]; [left|right]; split_and!; auto.
Qed.

Section Blocks.
Context (s : kstate) (D : gmap Z (list byte)) (H : list handle).
Hypothesis Hidle : idle s.

Notation f := (fs s).

Lemma crep_bread n :
  crep f D H -> 0 <= n < Z.of_nat (length (disk f)) -> n ∉ map h_no H ->
  is_Some (D !! n) \/ (size D + length H < NBUF)%nat ->
  exists b f', bread 1 n s = Ok b (set_fs f' s) /\ frame f f' /\ disk f' = disk f /\
    dwrites f' = dwrites f /\
    crep f' (delete n D) (mk_handle b n (blk (disk f) D n) (bool_decide (is_Some (D !! n))) :: H).
Proof.
  intros (A & Har & HD & HH & Hnd) Hn Hnh Hsp.
  assert (Hnh' : forall b v w, A !! b <> Some (Held n v w)).
  { intros b v w Hb%HH. apply Hnh, list_elem_of_fmap. by exists (mk_handle b n v w). }
  destruct (bread_slot s A Hidle Har n Hn Hnh') as (b & a & v & w & f' & Ha & E & Fr & Ed & Ew & Har' & Hc).
  { destruct Hsp as [[v Hv]|Hsp]; [left|right; by eapply spare_exists].
    apply HD in Hv as [b Hb]. eauto. }
  assert (Hna : forall b0 v0 w0, a <> Held b0 v0 w0).
  { intros. destruct Hc as [[-> _]|[Hc _]]; [done|]. by destruct a. }
  assert (Hdn : forall b' v', A !! b' = Some (Dirty n v') -> b' = b).
  { intros b' v' Hb'. destruct Hc as [[-> _]|(_ & _ & _ & Hno)]; [|by destruct (Hno b' v')].
    by eapply (ar_uniq _ _ Har). }
  assert (Hv : blk (disk f) D n = v /\ bool_decide (is_Some (D !! n)) = w).
  { unfold blk. destruct Hc as [[-> ->]|(_ & -> & Hv & Hno)].
    - rewrite (proj2 (HD n v)) by eauto. split; [done|]. by apply bool_decide_true.
    - destruct (D !! n) as [v'|] eqn:E'.
      + apply HD in E' as [b' Hb']. by destruct (Hno b' v').
      + split; [by apply list_lookup_total_correct|]. by apply bool_decide_false; intros [? ?]. }
  destruct Hv as [-> ->].
  exists b, f'. split_and!; try done. exists (<[b := Held n v w]> A).
  split; [done|]. split; [|split].
  - intros m u. setoid_rewrite (lookup_change A b a _ _ _ Ha). rewrite lookup_delete_Some, HD.
    split.
    + intros [Hne [b' Hb']]. exists b'. right. split; [|done]. intros ->.
      rewrite Ha in Hb'. simplify_eq. destruct Hc as [[? _]|[? _]]; simplify_eq.
    + intros [b' [[_ ?]|[Hne Hb']]]; [done|]. split; [|eauto]. intros ->.
      by apply Hne, (Hdn b' u).
  - intros b' m u w'. rewrite elem_of_cons, HH, (lookup_change A b a _ _ _ Ha). split.
    + intros [?|Hb']; [simplify_eq; by left|]. right. split; [|done]. intros ->.
      rewrite Ha in Hb'. simplify_eq. by destruct (Hna m u w').
    + intros [[-> ?]|[Hne Hb']]; [simplify_eq; by left|by right].
  - constructor; [|done]. rewrite HH, Ha. intros ?. simplify_eq. by destruct (Hna n v w).
Qed.

Lemma crep_get h : crep f D H -> h ∈ H ->
  exists x, get_buf (h_buf h) s = Ok x s /\ b_data x = h_data h /\ b_blockno x = h_no h /\
    b_flags x = dirty_flags (h_dirty h).
Proof.
  intros (A & Har & HD & HH & Hnd) Hh. destruct h as [b n v w].
  apply HH in Hh. by apply (held_get s A b n v w).
Qed.

Lemma crep_held_range h : crep f D H -> h ∈ H -> 0 <= h_no h < Z.of_nat (length (disk f)).
Proof.
  intros (A & Har & HD & HH & Hnd) Hh. destruct h as [b n v w]. apply HH in Hh.
  destruct (ar_slot _ _ Har b _ Hh) as (x & k & _ & _ & Hok). simpl in *. tauto.
Qed.

(** A held block is not among those that wait. *)
Lemma crep_held_not_dirty h : crep f D H -> h ∈ H -> D !! h_no h = None.
Proof.
  intros (A & Har & HD & HH & Hnd) Hh. destruct h as [b n v w]. apply HH in Hh. simpl.
  destruct (D !! n) as [u|] eqn:E; [|done]. apply HD in E as [b' Hb'].
  assert (b' = b) as -> by by eapply (ar_uniq _ _ Har). congruence.
Qed.

End Blocks.

(** The running process changes what it holds. *)
Section Holder.
Context (s : kstate) (D : gmap Z (list byte)) (H : list handle).
Context (b : nat) (n : Z) (v : list byte) (w : bool).
Hypothesis Hidle : idle s.

Notation f := (fs s).
Notation h := (mk_handle b n v w).

Hypothesis Hc : crep f D (h :: H).

Lemma holder : exists A, arep f A /\ A !! b = Some (Held n v w) /\
  (forall n v, D !! n = Some v <-> exists b, A !! b = Some (Dirty n v)) /\
  (forall b' n v w, b' <> b -> mk_handle b' n v w ∈ H <-> A !! b' = Some (Held n v w)) /\
  (forall n v w, mk_handle b n v w ∉ H) /\ NoDup H /\ D !! n = None.
Proof using Hc.
  clear Hidle.
  pose proof (crep_held_not_dirty s D (h :: H) h Hc ltac:(set_solver)) as Hno.
  destruct Hc as (A & Har & HD & HH & Hnd). exists A.
  apply NoDup_cons in Hnd as [Hnh Hnd].
  assert (Ha : A !! b = Some (Held n v w)) by (apply HH; set_solver).
  split_and!; try done.
  - intros b' m u w' Hne. rewrite <- HH, elem_of_cons. split; [by right|].
    intros [?|?]; [simplify_eq|done].
  - intros m u w' Hin. assert (mk_handle b m u w' ∈ h :: H) as Hm by set_solver.
    apply HH in Hm. rewrite Ha in Hm. simplify_eq. done.
Qed.

Lemma crep_rehold f' A v' w' :
  arep f' (<[b := Held n v' w']> A) -> A !! b = Some (Held n v w) ->
  (forall n v, D !! n = Some v <-> exists b, A !! b = Some (Dirty n v)) ->
  (forall b' n v w, b' <> b -> mk_handle b' n v w ∈ H <-> A !! b' = Some (Held n v w)) ->
  (forall n v w, mk_handle b n v w ∉ H) -> NoDup H ->
  crep f' D (mk_handle b n v' w' :: H).
Proof using.
  intros Har Ha HD HH Hn Hnd. eexists. split; [exact Har|]. split_and!; [| |by constructor].
  - intros m u. setoid_rewrite (lookup_change A b _ _ _ _ Ha). rewrite HD. split.
    + intros [b' Hb']. exists b'. right. split; [congruence|done].
    + intros [b' [[_ ?]|[_ ?]]]; [done|eauto].
  - intros b' m u w0. rewrite elem_of_cons, (lookup_change A b _ _ _ _ Ha).
    destruct (decide (b' = b)) as [->|Hne].
    + split; [intros [?|Hin]; [simplify_eq; by left|by destruct (Hn m u w0)]|].
      intros [[_ ?]|[? _]]; [simplify_eq; by left|done].
    + rewrite (HH b' m u w0 Hne). split; [intros [?|?]; [simplify_eq|by right]|].
      intros [[? _]|[_ ?]]; [done|by right].
Qed.

Lemma crep_upd g v' w' :
  (forall x, b_data x = v -> b_flags x = dirty_flags w ->
     g x = mk_buf (dirty_flags w') (b_dev x) (b_blockno x) (b_refcnt x) (b_prev x) (b_next x) v') ->
  exists f', upd_buf b g s = Ok tt (set_fs f' s) /\ frame f f' /\ disk f' = disk f /\
    dwrites f' = dwrites f /\ crep f' D (mk_handle b n v' w' :: H).
Proof using Hc.
  intros Hg. destruct holder as (A & Har & Ha & HD & HH & Hn & Hnd & _).
  destruct (upd_slot s A b n v w Har Ha g v' w' Hg) as (f' & E & Fr & Ed & Ew & Har').
  exists f'. split_and!; try done. by eapply crep_rehold.
Qed.

Lemma crep_bwrite :
  exists f', bwrite b s = Ok tt (set_fs f' s) /\ frame f f' /\
    disk f' = <[Z.to_nat n := v]> (disk f) /\ dwrites f' = (n, v) :: dwrites f /\
    crep f' D (mk_handle b n v false :: H).
Proof.
  destruct holder as (A & Har & Ha & HD & HH & Hn & Hnd & _).
  destruct (bwrite_slot s A b n v w Hidle Har Ha) as (f' & E & Fr & Ed & Ew & Har').
  exists f'. split_and!; try done. by eapply crep_rehold.
Qed.

Lemma crep_brelse :
  (w = false -> disk f !! Z.to_nat n = Some v) ->
  exists f', brelse b s = Ok tt (set_fs f' s) /\ frame f f' /\ disk f' = disk f /\
    dwrites f' = dwrites f /\ crep f' (if w then <[n := v]> D else D) H.
Proof.
  intros Hcl. destruct holder as (A & Har & Ha & HD & HH & Hn & Hnd & Hno).
  destruct (brelse_slot s A b n v w Hidle Har Ha Hcl) as (f' & E & Fr & Ed & Ew & Har').
  exists f'. split_and!; try done. eexists. split; [exact Har'|]. split_and!; [| |done].
  - intros m u. setoid_rewrite (lookup_change A b _ _ _ _ Ha). unfold released.
    assert (Hold : D !! m = Some u <-> exists b', b' <> b /\ A !! b' = Some (Dirty m u)).
    { rewrite HD. split; [intros [b' Hb']; exists b'; split; [congruence|done]|].
      intros (b' & _ & ?). eauto. }
    destruct w.
    + rewrite lookup_insert_Some, Hold. split.
      * intros [[<- <-]|[_ (b' & Hne & Hb')]]; [exists b; by left|exists b'; by right].
      * intros [b' [[-> ?]|[Hne Hb']]]; [simplify_eq; by left|right].
        split; [|eauto]. intros <-. rewrite (proj2 Hold) in Hno by eauto. done.
    + rewrite Hold. split; [intros (b' & ? & ?); exists b'; by right|].
      intros [b' [[_ ?]|?]]; [done|eauto].
  - intros b' m u w0. rewrite (lookup_change A b _ _ _ _ Ha).
    destruct (decide (b' = b)) as [->|Hne].
    + split; [intros Hin; by destruct (Hn m u w0)|]. unfold released.
      intros [[_ ?]|[? _]]; [by destruct w|done].
    + rewrite (HH b' m u w0 Hne). split; [by right|]. by intros [[? _]|[_ ?]].
Qed.

End Holder.

(** ** Triples

    [runs m s Q]: [m] returns from [s], having changed the file layers only,
    with a result and a new [fs] in [Q].  [st f0 d ws D H] is the abstract state
    of the block layer: disk [d], the blocks written so far [ws], the rest of
    the file layers as in [f0]. *)

Definition runs {R} (m : K R) (s : kstate) (Q : R -> fsys -> Prop) : Prop :=
  exists r f', m s = Ok r (set_fs f' s) /\ Q r f'.

Lemma runs_bind {R T} (m : K R) (k : R -> K T) s P Q :
  runs m s P -> (forall r f', P r f' -> runs (k r) (set_fs f' s) Q) -> runs (bind m k) s Q.
Proof.
  intros (r & f' & E & HP) Hk. destruct (Hk r f' HP) as (r2 & f2 & E2 & HQ).
  exists r2, f2. split; [|done]. by rewrite (bind_ok _ _ _ _ _ E).
Qed.

Lemma runs_ret {R} (r : R) s (Q : R -> fsys -> Prop) : Q r (fs s) -> runs (ret r) s Q.
Proof. intros HQ. exists r, (fs s). split; [|done]. unfold ret. by destruct s. Qed.

Lemma runs_mono {R} (m : K R) s (P Q : R -> fsys -> Prop) :
  runs m s P -> (forall r f', P r f' -> Q r f') -> runs m s Q.
Proof. intros (r & f' & E & HP) HQ. exists r, f'. auto. Qed.

Definition st (f0 : fsys) (d : list (list byte)) (ws : list (Z * list byte))
    (D : gmap Z (list byte)) (H : list handle) (f : fsys) : Prop :=
  frame f0 f /\ disk f = d /\ dwrites f = ws /\ crep f D H.

Lemma st_perm f0 d ws D H H' f : H ≡ₚ H' -> st f0 d ws D H f -> st f0 d ws D H' f.
Proof. intros E (? & ? & ? & ?). split_and!; try done. by rewrite <- E. Qed.

Lemma st_refl f D H : crep f D H -> st f (disk f) (dwrites f) D H f.
Proof. intros Hc. split; [apply frame_refl|done]. Qed.

Section Rules.
Context (s : kstate) (f0 : fsys) (d : list (list byte)) (ws : list (Z * list byte)).
Context (D : gmap Z (list byte)) (H : list handle).
Hypothesis Hidle : idle s.

Lemma R_bread n :
  st f0 d ws D H (fs s) -> 0 <= n < Z.of_nat (length d) -> n ∉ map h_no H ->
  is_Some (D !! n) \/ (size D + length H < NBUF)%nat ->
  runs (bread 1 n) s (fun b f' =>
    st f0 d ws (delete n D) (mk_handle b n (blk d D n) (bool_decide (is_Some (D !! n))) :: H) f').
Proof.
  intros (Fr & Ed & Ew & Hc) Hn Hh Hsp. rewrite <- Ed in Hn.
  destruct (crep_bread s D H Hidle n Hc Hn Hh Hsp) as (b & f' & E & Fr' & Ed' & Ew' & Hc').
  exists b, f'. split; [done|]. rewrite <- Ed, <- Ew. split_and!; try done. by eapply frame_trans.
Qed.

Lemma R_get h :
  st f0 d ws D H (fs s) -> h ∈ H ->
  exists x, get_buf (h_buf h) s = Ok x s /\ b_data x = h_data h /\ b_blockno x = h_no h /\
    b_flags x = dirty_flags (h_dirty h).
Proof. intros (_ & _ & _ & Hc). by eapply crep_get. Qed.

Context (b : nat) (n : Z) (v : list byte) (w : bool).

Lemma R_upd g v' w' :
  st f0 d ws D (mk_handle b n v w :: H) (fs s) ->
  (forall x, b_data x = v -> b_flags x = dirty_flags w ->
     g x = mk_buf (dirty_flags w') (b_dev x) (b_blockno x) (b_refcnt x) (b_prev x) (b_next x) v') ->
  runs (upd_buf b g) s (fun _ f' => st f0 d ws D (mk_handle b n v' w' :: H) f').
Proof using.
  intros (Fr & Ed & Ew & Hc) Hg.
  destruct (crep_upd s D H b n v w Hc g v' w' Hg) as (f' & E & Fr' & Ed' & Ew' & Hc').
  exists tt, f'. split; [done|]. rewrite <- Ed, <- Ew. split_and!; try done. by eapply frame_trans.
Qed.

Lemma R_set_data v' :
  st f0 d ws D (mk_handle b n v w :: H) (fs s) ->
  runs (upd_buf b (set_data v')) s (fun _ f' => st f0 d ws D (mk_handle b n v' w :: H) f').
Proof using. intros Hs. apply (R_upd _ v' w Hs). intros x _ Hf. unfold set_data. by rewrite Hf. Qed.

Lemma R_bwrite :
  st f0 d ws D (mk_handle b n v w :: H) (fs s) ->
  runs (bwrite b) s (fun _ f' =>
    st f0 (<[Z.to_nat n := v]> d) ((n, v) :: ws) D (mk_handle b n v false :: H) f').
Proof.
  intros (Fr & Ed & Ew & Hc).
  destruct (crep_bwrite s D H b n v w Hidle Hc) as (f' & E & Fr' & Ed' & Ew' & Hc').
  exists tt, f'. split; [done|]. rewrite <- Ed, <- Ew. split_and!; try done. by eapply frame_trans.
Qed.

Lemma R_brelse :
  st f0 d ws D (mk_handle b n v w :: H) (fs s) -> (w = false -> d !! Z.to_nat n = Some v) ->
  runs (brelse b) s (fun _ f' => st f0 d ws (if w then <[n := v]> D else D) H f').
Proof.
  intros (Fr & Ed & Ew & Hc) Hv. rewrite <- Ed in Hv.
  destruct (crep_brelse s D H b n v w Hidle Hc Hv) as (f' & E & Fr' & Ed' & Ew' & Hc').
  exists tt, f'. split; [done|]. rewrite <- Ed, <- Ew. split_and!; try done. by eapply frame_trans.
Qed.

Lemma st_range h : st f0 d ws D H (fs s) -> h ∈ H -> 0 <= h_no h < Z.of_nat (length d).
Proof. intros (_ & Ed & _ & Hc) Hh. rewrite <- Ed. by eapply crep_held_range. Qed.

End Rules.

Lemma blk_disk d D n v : D !! n = None -> d !! Z.to_nat n = Some v -> blk d D n = v.
Proof. intros H1 H2. unfold blk. rewrite H1. by apply list_lookup_total_correct. Qed.

Lemma blk_pending d D n v : D !! n = Some v -> blk d D n = v.
Proof. intros H1. unfold blk. by rewrite H1. Qed.
