(* ===== verification/CacheInit.v ===== *)
(** * binit establishes the invariant of the buffer cache

    From the zeroed static data of the kernel, [binit] links the [NBUF] buffers
    into a list with the last one in front, and unlocks them. *)

From stdpp Require Import gmap.
From S2P Require Import Prelude Memory FsState Machine Spinlock Kalloc Proc Sleeplock Bio Lru.
From S2P Require Import BioSpec Blocks DemoFs.
Local Open Scope Z_scope.
Local Open Scope kernel_scope.

(** One turn of the loop. *)
Definition binit_turn (b : nat) : K unit :=
  h <- get_buf head ;;
  upd_buf b (set_next (b_next h)) ;;
  upd_buf b (set_prev head) ;;
  initsleeplock (buf_lock b) "buffer" ;;
  h <- get_buf head ;;
  upd_buf (b_next h) (set_prev b) ;;
  upd_buf head (set_next b).

Definition unused_buf (x : buf) : Prop := b_dev x <> 1 /\ b_flags x = 0 /\ b_refcnt x = 0.

(** After [k] turns, from the state [s0]. *)
Record inited (s0 : kstate) (k : nat) (s : kstate) : Prop := mk_inited {
  in_len : length (bufs (fs s)) = S NBUF;
  in_dll : dll head (nxt (fs s)) (prv (fs s)) (rev (seq 0 k));
  in_bufs : Forall unused_buf (bufs (fs s));
  in_slocks : forall b, (b < k)%nat -> exists l, slocks (fs s) !! buf_lock b = Some l /\ sl_locked l = 0;
  in_locks : forall b, (b < k)%nat -> lock_free (slk (buf_lock b)) s;
  in_bcache : lock_free bcache_lock s;
  in_other : forall lk, lk <> bcache_lock -> (forall b, (b < NBUF)%nat -> lk <> slk (buf_lock b)) ->
    locks s !! lk = locks s0 !! lk;
  in_frame : frame (fs s0) (fs s) /\ disk (fs s) = disk (fs s0) /\ dwrites (fs s) = dwrites (fs s0);
  in_rest : this_cpu s = this_cpu s0 /\ procs s = procs s0 /\ cur s = cur s0 /\ mem s = mem s0;
}.

(** The links after the turn for [b]. *)
Definition turned (b : nat) (bs : list buf) : list buf :=
  let n := b_next (bs !!! head) in
  alter (set_next b) head (alter (set_prev b) n (alter (set_prev head) b (alter (set_next n) b bs))).

Definition turn_state (b : nat) (s : kstate) : kstate :=
  set_fs (set_bufs (turned b (bufs (fs s)))
            (slock_set (fs s) (buf_lock b) (mk_sleeplock 0 "buffer" 0)))
    (set_locks (<[slk (buf_lock b) := mk_spinlock 0 "sleep lock" None]> (locks s)) s).

Lemma binit_turn_eq b s :
  length (bufs (fs s)) = S NBUF -> (b < NBUF)%nat -> binit_turn b s = Ok tt (turn_state b s).
Proof.
  intros Hlen Hb. unfold binit_turn.
  rewrite (bind_ok _ _ _ _ _ (get_buf_in head s ltac:(rewrite Hlen; unfold head; lia))).
  unfold upd_buf at 1 2, initsleeplock, initlock, modify_fs. rewrite !bind_modify.
  rewrite bind_assoc, !bind_modify.
  match goal with |- _ ?st = _ =>
    assert (Hh : get_buf head st = Ok (bufs (fs st) !!! head) st)
      by (apply get_buf_in; cbn; rewrite !length_alter, Hlen; unfold head; lia)
  end.
  rewrite (bind_ok _ _ _ _ _ Hh). unfold upd_buf, modify_fs. rewrite bind_modify.
  unfold modify, turn_state, turned. cbn [fs set_fs bufs set_bufs set_slocks set_locks].
  rewrite (alter_other _ b_next) by done.
  rewrite list_lookup_total_alter_ne by (unfold head; lia). done.
Qed.

Lemma turned_links b bs :
  length bs = S NBUF -> (b < NBUF)%nat -> (b_next (bs !!! head) < S NBUF)%nat ->
  (forall i, b_next (turned b bs !!! i) = push_nx head (fun j => b_next (bs !!! j)) b i) /\
  (forall i, b_prev (turned b bs !!! i) =
             push_pv head (fun j => b_next (bs !!! j)) (fun j => b_prev (bs !!! j)) b i).
Proof.
  intros Hlen Hb Hn. unfold turned. split; intros i.
  - rewrite next_set_next by (rewrite !length_alter; unfold head; lia).
    unfold push_nx. apply upd_ext. intros j. rewrite !alter_other by done.
    by rewrite next_set_next by lia.
  - rewrite alter_other by done. rewrite prev_set_prev by (rewrite !length_alter; lia).
    unfold push_pv. apply upd_ext. intros j.
    rewrite prev_set_prev by (rewrite length_alter; lia).
    apply upd_ext. intros i'. by rewrite alter_other.
Qed.

Lemma Forall_alter_same (P : buf -> Prop) g k bs :
  (forall x, P x -> P (g x)) -> Forall P bs -> Forall P (alter g k bs).
Proof. intros Hg Hf. apply Forall_alter; auto. Qed.

Lemma inited_turn s0 k s : inited s0 k s -> (k < NBUF)%nat -> inited s0 (S k) (turn_state k s).
Proof.
  intros Hi Hk. pose proof (in_dll _ _ _ Hi) as Hd.
  assert (Hnd : NoDup (head :: rev (seq 0 k)) /\ k ∉ head :: rev (seq 0 k)).
  { rewrite <- Permutation_rev, NoDup_cons, elem_of_cons, !elem_of_seq. unfold head.
    split; [split; [lia|apply NoDup_seq]|lia]. }
  assert (Hn : (b_next (bufs (fs s) !!! head) < S NBUF)%nat).
  { pose proof (path_in _ _ _ _ head (proj1 Hd) ltac:(left)) as Hin. unfold nxt in Hin.
    apply elem_of_cons in Hin as [->|Hin]; [unfold head; lia|].
    rewrite elem_of_reverse_rev, elem_of_seq in Hin. lia. }
  destruct (turned_links k _ (in_len _ _ _ Hi) Hk Hn) as [T1 T2].
  constructor.
  - cbn. unfold turned. rewrite !length_alter. apply Hi.
  - rewrite seq_S, rev_app_distr. cbn [rev app Nat.add].
    destruct (dll_push head _ _ _ k (proj1 Hnd) (proj2 Hnd) Hd) as [P1 P2].
    split; (eapply path_ext; [|eassumption]); intros i _; unfold nxt, prv; cbn; [apply T1|apply T2].
  - cbn. unfold turned. repeat (apply Forall_alter_same; [done|]). apply Hi.
  - intros b Hb. cbn. destruct (decide (b = k)) as [->|Hne].
    + rewrite lookup_insert_eq. by eexists.
    + rewrite lookup_insert_ne by (intros E%buf_lock_inj; done). apply (in_slocks _ _ _ Hi). lia.
  - intros b Hb. unfold lock_free. cbn. destruct (decide (b = k)) as [->|Hne].
    + rewrite lookup_insert_eq. by eexists.
    + rewrite lookup_insert_ne by (unfold slk, buf_lock; lia). apply (in_locks _ _ _ Hi). lia.
  - destruct (in_bcache _ _ _ Hi) as [n En]. exists n. cbn.
    rewrite lookup_insert_ne; [done|]. unfold slk, buf_lock, bcache_lock. lia.
  - intros lk H1 H2. cbn. rewrite lookup_insert_ne by (symmetry; by apply H2). by apply Hi.
  - destruct (in_frame _ _ _ Hi) as (Fr & ? & ?). split_and!; [|done..].
    eapply frame_trans; [exact Fr|]. constructor; try done. intros lk Hlk. cbn.
    rewrite lookup_insert_ne; [done|]. intros E. by apply (Hlk k).
  - apply Hi.
Qed.

Lemma inited_loop s0 : forall n k s, inited s0 k s -> (k + n <= NBUF)%nat ->
  exists s', for_each (seq k n) binit_turn s = Ok tt s' /\ inited s0 (k + n) s'.
Proof.
  induction n as [|n IH]; intros k s Hi Hk; cbn [seq for_each].
  - exists s. by rewrite Nat.add_0_r.
  - rewrite (bind_ok _ _ _ _ _ (binit_turn_eq k s (in_len _ _ _ Hi) ltac:(lia))).
    destruct (IH (S k) (turn_state k s)) as (s' & E & Hi'); [apply inited_turn; [done|lia]|lia|].
    exists s'. split; [done|]. by rewrite Nat.add_succ_r.
Qed.

Lemma binit_ok s :
  length (bufs (fs s)) = S NBUF -> Forall unused_buf (bufs (fs s)) ->
  exists s', binit s = Ok tt s' /\ inited s NBUF s'.
Proof.
  intros Hlen Hu. unfold binit, initlock, upd_buf at 1 2, modify_fs. rewrite !bind_modify.
  apply (inited_loop s NBUF 0); [|done]. constructor.
  - cbn. by rewrite !length_alter.
  - assert (Hl : (head < length (bufs (fs s)))%nat) by (rewrite Hlen; unfold head; lia).
    split; simpl; unfold nxt, prv; cbn [fs set_fs bufs set_bufs set_locks].
    + rewrite next_set_next by by rewrite length_alter. by rewrite upd_eq.
    + rewrite alter_other by done. rewrite prev_set_prev by done. by rewrite upd_eq.
  - cbn. repeat (apply Forall_alter_same; [done|]). done.
  - lia.
  - lia.
  - exists "bcache"%string. cbn. by rewrite lookup_insert_eq.
  - intros lk Hne _. cbn. by rewrite lookup_insert_ne.
  - cbn. split_and!; [by constructor|done..].
  - done.
Qed.

Lemma inited_arep s0 s : inited s0 NBUF s -> arep (fs s) (replicate NBUF Unused).
Proof.
  intros Hi. constructor.
  - apply (in_len _ _ _ Hi).
  - apply length_replicate.
  - exists (rev (seq 0 NBUF)). split; [by rewrite <- Permutation_rev|apply (in_dll _ _ _ Hi)].
  - intros b a Ha. apply lookup_replicate in Ha as [-> Hb].
    destruct (lookup_lt_is_Some_2 (bufs (fs s)) b) as [x Hx];
      [rewrite (in_len _ _ _ Hi); lia|].
    destruct (in_slocks _ _ _ Hi b Hb) as (l & Hl & H0). exists x, l. split_and!; try done.
    pose proof (in_bufs _ _ _ Hi) as Hu. rewrite Forall_lookup in Hu.
    destruct (Hu b x Hx) as (? & ? & ?). done.
  - intros b b' a a' n Ha _ Hn. apply lookup_replicate in Ha as [-> _]. done.
Qed.

Lemma inited_crep s0 s : inited s0 NBUF s -> crep (fs s) ∅ [].
Proof.
  intros Hi. exists (replicate NBUF Unused). split; [by eapply inited_arep|]. split_and!.
  - intros n v. rewrite lookup_empty. split; [done|]. intros [b Hb].
    apply lookup_replicate in Hb as [? _]. done.
  - intros b n v w. split; [by intros ?%not_elem_of_nil|].
    intros Hb. apply lookup_replicate in Hb as [? _]. done.
  - constructor.
Qed.

Lemma inited_idle s0 s :
  inited s0 NBUF s -> cpu_wf (this_cpu s0) -> cpu_norm (this_cpu s0) = this_cpu s0 ->
  lock_free ptable_lock s0 -> lock_free log_lock s0 ->
  (exists i p, cur s0 = Some i /\ procs s0 !! i = Some p) ->
  (forall p, p ∈ procs s0 -> state p <> SLEEPING) -> idle s.
Proof.
  intros Hi Hc Hn [np Hp] [nl Hl] Hcur Hsl. destruct (in_rest _ _ _ Hi) as (Ec & Ep & Eu & _).
  constructor.
  - by rewrite Ec.
  - by rewrite Ec.
  - exists np. rewrite (in_other _ _ _ Hi); [done|done|].
    unfold slk, buf_lock, ptable_lock. lia.
  - apply (in_bcache _ _ _ Hi).
  - exists nl. rewrite (in_other _ _ _ Hi); [done|done|]. unfold slk, buf_lock, log_lock. lia.
  - apply (in_locks _ _ _ Hi).
  - by rewrite Eu, Ep.
  - intros p Hin Hs. rewrite Ep in Hin. by destruct (Hsl p Hin).
Qed.

(** [binit] establishes the invariant of the buffer cache.  From a kernel
    whose buffers are unused, as static data is, it returns with the [NBUF]
    buffers on one circular list, in both directions, all unlocked and free to
    hold any block, and with the disk and the rest of the kernel unchanged. *)
Theorem binit_cache s :
  length (bufs (fs s)) = S NBUF -> Forall unused_buf (bufs (fs s)) ->
  exists s', binit s = Ok tt s' /\ crep (fs s') ∅ [] /\ lru (fs s') (rev (seq 0 NBUF)) /\
    lock_free bcache_lock s' /\ frame (fs s) (fs s') /\ disk (fs s') = disk (fs s) /\
    procs s' = procs s /\ this_cpu s' = this_cpu s /\ mem s' = mem s.
Proof.
  intros Hlen Hu. destruct (binit_ok s Hlen Hu) as (s' & E & Hi). exists s'.
  pose proof (in_frame _ _ _ Hi) as (? & ? & _). pose proof (in_rest _ _ _ Hi) as (? & ? & _ & ?).
  pose proof (in_dll _ _ _ Hi). pose proof (in_bcache _ _ _ Hi).
  split_and!; try done; [by eapply inited_crep|].
  split; [by rewrite <- Permutation_rev|done].
Qed.

Lemma binit_cache_witness : exists s',
  binit (DemoFs.start []) = Ok tt s' /\ crep (fs s') ∅ [] /\ disk (fs s') = DemoFs.image.
Proof.
  destruct (binit_cache (DemoFs.start []) eq_refl) as (s' & E & Hc & _ & _ & _ & Hd & _).
  - change (bufs (fs (DemoFs.start []))) with (replicate (S NBUF) buf0).
    apply Forall_replicate. repeat split. done.
  - exists s'. split_and!; [exact E|exact Hc|exact Hd].
Defined.

(** ** The demonstration kernel with its cache *)

Module CacheDemo.

(** The kernel of DemoFs.v on the disk [d], before and after [binit]. *)
Definition before (d : list (list byte)) : kstate :=
  set_cpu (cpu_norm (this_cpu (DemoFs.start [])))
    (set_fs (fsys0 d)
      (set_locks (<[log_lock := mk_spinlock 0 "log" None]> (locks (DemoFs.start [])))
        (DemoFs.start []))).

Definition kernel (d : list (list byte)) : kstate := DemoFs.final (binit (before d)) (before d).

Lemma inited_kernel d : inited (before d) NBUF (kernel d).
Proof.
  destruct (binit_ok (before d)) as (s' & E & Hi); [done| |].
  - change (bufs (fs (before d))) with (replicate (S NBUF) buf0).
    apply Forall_replicate. repeat split. done.
  - unfold kernel. rewrite E. exact Hi.
Qed.

Lemma idle_kernel d : idle (kernel d).
Proof.
  eapply inited_idle; [apply inited_kernel|..].
  - split; simpl; [lia|done].
  - reflexivity.
  - eexists. vm_compute. reflexivity.
  - eexists. vm_compute. reflexivity.
  - eexists 0%nat, _. split; [done|]. cbn. reflexivity.
  - change (procs (before d)) with (procs (DemoFs.start [])).
    apply Forall_forall, (bool_decide_unpack _). vm_compute. done.
Qed.

Lemma disk_kernel d : disk (fs (kernel d)) = d.
Proof. by destruct (in_frame _ _ _ (inited_kernel d)) as (_ & -> & _). Qed.

End CacheDemo.
