(* ===== verification/LogSpec.v ===== *)
(** * The log makes transactions atomic

    What [commit] writes, block by block, and what [recover_from_log] makes of
    a disk on which any prefix of these writes happened.  The states are those
    of Blocks.v: changed blocks wait in the cache ([D]) until their transaction
    commits. *)

From stdpp Require Import gmap.
From S2P Require Import Prelude Memory FsState Machine Spinlock Kalloc Proc Sleeplock Bio Lru.
From S2P Require Import BioSpec Blocks Log.
Local Open Scope Z_scope.
Local Open Scope kernel_scope.

(** ** Words in a block *)

Lemma word_ext n l l' off :
  (forall i, (off <= i < off + n)%nat -> l !! i = l' !! i) -> word n l off = word n l' off.
Proof.
  intros E. unfold word. f_equal. apply list_eq. intros i.
  destruct (decide (i < n)%nat).
  - rewrite !lookup_take_lt, !lookup_drop by done. apply E. lia.
  - by rewrite !lookup_take_ge by lia.
Qed.

Lemma word_put_same n off v l :
  (off + n <= length l)%nat -> word n (put_word n off v l) off = v mod 2 ^ (Z.of_nat n * 8).
Proof.
  intros Hl. unfold word, put_word, splice.
  assert (Ht : length (take off l) = off) by (rewrite length_take; lia).
  rewrite drop_app, Ht, Nat.sub_diag, drop_ge by lia. rewrite drop_0, app_nil_l.
  rewrite take_app_le by (rewrite length_le_split; lia).
  rewrite take_ge by (rewrite length_le_split; lia). apply le_combine_split.
Qed.

Lemma word_put_other n off v l n' off' :
  (off + n <= length l)%nat -> (off' + n' <= off \/ off + n <= off')%nat ->
  word n' (put_word n off v l) off' = word n' l off'.
Proof.
  intros Hl Hd. apply word_ext. intros i Hi. unfold put_word.
  rewrite lookup_splice by (rewrite length_le_split; lia).
  rewrite length_le_split. rewrite decide_False by lia. done.
Qed.

Lemma length_put_word n off v l :
  (off + n <= length l)%nat -> length (put_word n off v l) = length l.
Proof. intros. unfold put_word. apply length_splice. by rewrite length_le_split. Qed.

(** ** The header block *)

(** The loop of [write_head] from index [i] on. *)
Fixpoint put_blocks (i : nat) (hs : list Z) (l : list byte) : list byte :=
  match hs with
  | [] => l
  | h :: hs => put_blocks (S i) hs (put_word 4 (4 + 4 * i) h l)
  end.

Definition header (hs : list Z) (old : list byte) : list byte :=
  put_blocks 0 hs (put_word 4 0 (Z.of_nat (length hs)) old).

Lemma length_put_blocks hs : forall i l,
  (4 + 4 * (i + length hs) <= length l)%nat -> length (put_blocks i hs l) = length l.
Proof.
  induction hs as [|h hs IH]; intros i l Hl; cbn [put_blocks]; [done|]. simpl in Hl.
  rewrite IH; rewrite length_put_word; lia.
Qed.

Lemma put_blocks_before hs : forall i l o,
  (4 + 4 * (i + length hs) <= length l)%nat -> (o + 4 <= 4 + 4 * i)%nat ->
  word 4 (put_blocks i hs l) o = word 4 l o.
Proof.
  induction hs as [|h hs IH]; intros i l o Hl Ho; cbn [put_blocks]; [done|]. simpl in Hl.
  rewrite IH by (rewrite ?length_put_word; lia). apply word_put_other; lia.
Qed.

Lemma put_blocks_at hs : forall i l j h,
  (4 + 4 * (i + length hs) <= length l)%nat -> hs !! j = Some h ->
  word 4 (put_blocks i hs l) (4 + 4 * (i + j)) = u32 h.
Proof.
  induction hs as [|h0 hs IH]; intros i l j h Hl Hj; [done|]. simpl in Hl. cbn [put_blocks].
  destruct j as [|j]; simpl in Hj.
  - simplify_eq. rewrite put_blocks_before by (rewrite ?length_put_word; lia).
    replace (i + 0)%nat with i by lia. rewrite word_put_same by lia. done.
  - replace (i + S j)%nat with (S i + j)%nat by lia.
    apply IH; [rewrite length_put_word; lia|done].
Qed.

Section Header.
Context (hs : list Z) (old : list byte).
Hypothesis Hold : length old = BLK.
Hypothesis Hhs : (length hs <= 30)%nat.

Lemma BLK_512 : BLK = 512%nat.
Proof. reflexivity. Qed.

Lemma header_length : length (header hs old) = BLK.
Proof.
  pose proof BLK_512. unfold header.
  rewrite length_put_blocks; rewrite length_put_word; lia.
Qed.

Lemma header_n : word 4 (header hs old) 0 = Z.of_nat (length hs).
Proof.
  pose proof BLK_512. unfold header.
  rewrite put_blocks_before by (rewrite ?length_put_word; lia).
  rewrite word_put_same by lia. apply Z.mod_small. lia.
Qed.

Lemma header_block i h : hs !! i = Some h -> word 4 (header hs old) (4 + 4 * i) = u32 h.
Proof.
  intros Hi. pose proof BLK_512. unfold header.
  change (4 + 4 * i)%nat with (4 + 4 * (0 + i))%nat.
  apply put_blocks_at; [rewrite length_put_word; lia|done].
Qed.

End Header.

(** ** Sequences of writes *)

Definition apply_writes (ws : list (Z * list byte)) (d : list (list byte)) : list (list byte) :=
  foldl (fun d w => <[Z.to_nat (fst w) := snd w]> d) d ws.

Fixpoint at_blocks (a : Z) (vs : list (list byte)) : list (Z * list byte) :=
  match vs with [] => [] | v :: vs => (a, v) :: at_blocks (a + 1) vs end.

Lemma apply_writes_app ws ws' d :
  apply_writes (ws ++ ws') d = apply_writes ws' (apply_writes ws d).
Proof. apply foldl_app. Qed.

Lemma length_apply_writes ws : forall d, length (apply_writes ws d) = length d.
Proof.
  induction ws as [|[a v] ws IH]; intros d; [done|]. cbn. unfold apply_writes in IH.
  rewrite IH. apply length_insert.
Qed.

Lemma apply_writes_other ws : forall d m,
  m ∉ map (fun w => Z.to_nat (fst w)) ws -> apply_writes ws d !! m = d !! m.
Proof.
  induction ws as [|[a v] ws IH]; intros d m Hm; [done|]. cbn in Hm.
  apply not_elem_of_cons in Hm as [Hne Hm]. cbn. unfold apply_writes in IH.
  rewrite IH by done. by rewrite list_lookup_insert_ne.
Qed.

(** ** The rules for the state of the log *)

Lemma runs_gets {R T} (g : kstate -> R) (k : R -> K T) s Q :
  runs (k (g s)) s Q -> runs (bind (gets g) k) s Q.
Proof. intros (r & f' & E & HQ). exists r, f'. split; [|done]. by rewrite bind_gets. Qed.

Lemma runs_get_buf {T} b x (k : buf -> K T) s Q :
  get_buf b s = Ok x s -> runs (k x) s Q -> runs (bind (get_buf b) k) s Q.
Proof. intros E (r & f' & E' & HQ). exists r, f'. split; [|done]. by rewrite (bind_ok _ _ _ _ _ E). Qed.

Lemma runs_lh_at {T} l i v (k : Z -> K T) s Q :
  lh_block (log_lh l) !! i = Some v -> runs (k v) s Q -> runs (bind (lh_at l i) k) s Q.
Proof. intros E HQ. unfold lh_at. rewrite E. unfold runs. by rewrite bind_ret. Qed.

Lemma crep_logst f l D H : crep f D H -> crep (set_logst l f) D H.
Proof.
  intros (A & [] & ?). exists A. split; [|done]. by constructor.
Qed.

Lemma R_put_log s f0 d ws D H g :
  st f0 d ws D H (fs s) ->
  runs (put_log g) s (fun _ f' => st (set_logst (g (logst f0)) f0) d ws D H f').
Proof.
  intros ([] & Ed & Ew & Hc). exists tt, (set_logst (g (logst (fs s))) (fs s)). split; [done|].
  split_and!; [|done|done|by apply crep_logst]. rewrite fr_log. by constructor.
Qed.

(** ** Copying one block *)

Section Copy.
Context (s : kstate) (f0 : fsys) (d : list (list byte)) (ws : list (Z * list byte)).
Context (D : gmap Z (list byte)) (tail : nat) (h a : Z).
Hypothesis Hidle : idle s.
Hypothesis Hst : st f0 d ws D [] (fs s).
Hypothesis Hdev : log_dev (logst f0) = 1.
Hypothesis Hh : lh_block (log_lh (logst f0)) !! tail = Some h.
Hypothesis Ha : a = log_start (logst f0) + Z.of_nat tail + 1.
Hypothesis Hlen : Z.of_nat (length d) <= 2 ^ 31.
Hypothesis Ha_in : 0 <= a < Z.of_nat (length d).
Hypothesis Hh_in : 0 <= h < Z.of_nat (length d).
Hypothesis Hne : a <> h.
Hypothesis HaD : D !! a = None.
Hypothesis Hsz : (size D < NBUF)%nat.

Lemma same_log : logst (fs s) = logst f0.
Proof. destruct Hst as ([] & _). done. Qed.

Lemma write_one_ok v :
  D !! h = Some v ->
  runs (write_one tail) s (fun _ f' => st f0 (<[Z.to_nat a := v]> d) ((a, v) :: ws) D [] f').
Proof.
  intros HhD. unfold write_one, get_log. apply runs_gets. rewrite same_log, Hdev, <- Ha.
  change (u32 1) with 1. rewrite (u32_small a) by lia.
  eapply runs_bind; [apply (R_bread s f0 d ws D [] Hidle a Hst); [lia|apply not_elem_of_nil|right; simpl; lia]|].
  cbv beta. intros to f1 S1. rewrite (delete_id D a HaD), HaD, bool_decide_false in S1 by (by intros [? ?]).
  eapply runs_lh_at; [exact Hh|]. rewrite (u32_small h) by lia.
  eapply runs_bind; [apply (R_bread _ f0 d ws D _ (idle_set_fs s f1 Hidle) h S1);
    [lia|simpl; set_solver|by left]|].
  cbv beta. intros from f2 S2. rewrite (blk_pending d D h v HhD), HhD, bool_decide_true in S2 by by eexists.
  destruct (R_get (set_fs f2 s) _ _ _ _ _ (mk_handle from h v true) S2) as (x & Ex & Dx & _); [set_solver|].
  eapply runs_get_buf; [exact Ex|]. simpl in Dx. rewrite Dx.
  eapply runs_bind; [eapply (R_set_data (set_fs f2 s) f0 d ws _ _);
    eapply st_perm; [apply Permutation_swap|exact S2]|].
  cbv beta. intros _ f3 S3.
  eapply runs_bind; [eapply (R_bwrite (set_fs f3 s) f0 d ws _ _ (idle_set_fs s f3 Hidle)); exact S3|].
  cbv beta. intros _ f4 S4.
  eapply runs_bind; [eapply (R_brelse (set_fs f4 s) f0 _ _ _ _ (idle_set_fs s f4 Hidle));
    [eapply st_perm; [apply Permutation_swap|exact S4]|done]|].
  cbv beta iota. intros _ f5 S5. rewrite insert_delete_id in S5 by done.
  eapply runs_mono; [eapply (R_brelse (set_fs f5 s) f0 _ _ _ _ (idle_set_fs s f5 Hidle)); [exact S5|]|done].
  intros _. apply list_lookup_insert_eq. lia.
Qed.

Lemma install_one_ok u :
  d !! Z.to_nat a = Some u -> is_Some (D !! h) \/ (size D + 1 < NBUF)%nat ->
  runs (install_one tail) s (fun _ f' =>
    st f0 (<[Z.to_nat h := u]> d) ((h, u) :: ws) (delete h D) [] f').
Proof.
  intros Hu Hsp. unfold install_one, get_log. apply runs_gets. rewrite same_log, Hdev, <- Ha.
  change (u32 1) with 1. rewrite (u32_small a) by lia.
  eapply runs_bind; [apply (R_bread s f0 d ws D [] Hidle a Hst); [lia|apply not_elem_of_nil|right; simpl; lia]|].
  cbv beta. intros lbuf f1 S1.
  rewrite (delete_id D a HaD), (blk_disk d D a u HaD Hu), HaD, bool_decide_false in S1
    by (by intros [? ?]).
  eapply runs_lh_at; [exact Hh|]. rewrite (u32_small h) by lia.
  eapply runs_bind; [apply (R_bread _ f0 d ws D _ (idle_set_fs s f1 Hidle) h S1);
    [lia|simpl; set_solver|simpl; done]|].
  cbv beta. intros dbuf f2 S2.
  destruct (R_get (set_fs f2 s) _ _ _ _ _ (mk_handle lbuf a u false) S2) as (x & Ex & Dx & _);
    [set_solver|].
  eapply runs_get_buf; [exact Ex|]. simpl in Dx. rewrite Dx.
  eapply runs_bind; [eapply (R_set_data (set_fs f2 s) f0 d ws _ _); exact S2|].
  cbv beta. intros _ f3 S3.
  eapply runs_bind; [eapply (R_bwrite (set_fs f3 s) f0 d ws _ _ (idle_set_fs s f3 Hidle)); exact S3|].
  cbv beta. intros _ f4 S4.
  eapply runs_bind; [eapply (R_brelse (set_fs f4 s) f0 _ _ _ _ (idle_set_fs s f4 Hidle));
    [eapply st_perm; [apply Permutation_swap|exact S4]|]|].
  { intros _. rewrite list_lookup_insert_ne by lia. done. }
  cbv beta iota. intros _ f5 S5.
  eapply runs_mono; [eapply (R_brelse (set_fs f5 s) f0 _ _ _ _ (idle_set_fs s f5 Hidle)); [exact S5|]|done].
  intros _. apply list_lookup_insert_eq. lia.
Qed.

End Copy.

(** ** The loops *)

(** The log of a transaction that changed the blocks [hs]: the header in memory
    names them, and they lie outside the log, which is [LOGSIZE] blocks from
    [ls] on. *)
Record log_ok (f0 : fsys) (ls : Z) (hs : list Z) (nd : nat) : Prop := mk_log_ok {
  lo_start : log_start (logst f0) = ls;
  lo_dev : log_dev (logst f0) = 1;
  lo_n : lh_n (log_lh (logst f0)) = Z.of_nat (length hs);
  lo_blocks : exists rest, lh_block (log_lh (logst f0)) = hs ++ rest;
  lo_len : length (lh_block (log_lh (logst f0))) = 30%nat;
  lo_area : 0 <= ls /\ ls + LOGSIZE <= Z.of_nat nd <= 2 ^ 31;
  lo_max : (length hs <= 29)%nat;
  lo_home : Forall (fun h => 0 <= h < Z.of_nat nd /\ ~ (ls <= h < ls + LOGSIZE)) hs;
}.

Section Loops.
Context (f0 : fsys) (ls : Z) (hs : list Z) (nd : nat).
Hypothesis Hlog : log_ok f0 ls hs nd.

Lemma lo_at i h : hs !! i = Some h -> lh_block (log_lh (logst f0)) !! i = Some h.
Proof.
  intros Hi. destruct (lo_blocks _ _ _ _ Hlog) as [rest ->].
  rewrite lookup_app_l; [done|by eapply lookup_lt_Some].
Qed.

Lemma lo_home_at i h : hs !! i = Some h -> 0 <= h < Z.of_nat nd /\ ~ (ls <= h < ls + LOGSIZE).
Proof.
  intros Hi. pose proof (lo_home _ _ _ _ Hlog) as Hf. rewrite Forall_lookup in Hf. eauto.
Qed.

Lemma lo_index i h : hs !! i = Some h -> (i < 29)%nat.
Proof. intros Hi%lookup_lt_Some. pose proof (lo_max _ _ _ _ Hlog). lia. Qed.

(** The changed blocks [D], as the header lists them. *)
Definition pending (D : gmap Z (list byte)) (vs : list (list byte)) : Prop :=
  D = list_to_map (zip hs vs) /\ length vs = length hs /\ NoDup hs.

Lemma write_loop D : (size D < NBUF)%nat -> (forall m, ls <= m < ls + LOGSIZE -> D !! m = None) ->
  forall hs2 vs2 hs1 s d ws, hs = hs1 ++ hs2 -> Forall2 (fun h v => D !! h = Some v) hs2 vs2 ->
  idle s -> length d = nd -> st f0 d ws D [] (fs s) ->
  runs (for_each (seq (length hs1) (length hs2)) write_one) s (fun _ f' =>
    let w := at_blocks (ls + 1 + Z.of_nat (length hs1)) vs2 in
    st f0 (apply_writes w d) (rev w ++ ws) D [] f').
Proof.
  intros Hsz HD. destruct (lo_area _ _ _ _ Hlog) as [Hls Hnd].
  induction hs2 as [|h hs2 IH]; intros vs2 hs1 s d ws Ehs Hvs Hidle Hd Hst.
  - apply Forall2_nil_inv_l in Hvs as ->. by apply runs_ret.
  - apply Forall2_cons_inv_l in Hvs as (v & vs & Hv & Hvs & ->).
    assert (Hi : hs !! length hs1 = Some h) by (subst hs; by apply list_lookup_middle).
    destruct (lo_home_at _ _ Hi) as [Hr Hout]. pose proof (lo_index _ _ Hi) as Hlt.
    change LOGSIZE with 30 in *. cbn [length seq for_each at_blocks].
    eapply runs_bind.
    { eapply (write_one_ok s f0 d ws D (length hs1) h (ls + 1 + Z.of_nat (length hs1)));
        [done|done|apply Hlog|by apply lo_at|rewrite (lo_start _ _ _ _ Hlog); lia|lia..|
         apply HD; lia|done|exact Hv]. }
    cbv beta. intros _ f1 S1.
    specialize (IH vs (hs1 ++ [h]) (set_fs f1 s) _ _ ltac:(by rewrite <- app_assoc) Hvs
      (idle_set_fs _ _ Hidle) ltac:(by rewrite length_insert) S1).
    rewrite length_app in IH. simpl in IH. rewrite Nat.add_1_r in IH.
    eapply runs_mono; [exact IH|]. cbv beta zeta. intros _ f'.
    replace (ls + 1 + Z.of_nat (S (length hs1))) with (ls + 1 + Z.of_nat (length hs1) + 1) by lia.
    cbn [rev]. rewrite <- app_assoc. done.
Qed.

(** Room in the cache for [install_trans]: nothing waits, or what waits are the
    blocks that are installed. *)
Definition room (D : gmap Z (list byte)) (hs2 : list Z) : Prop :=
  D = ∅ \/ (NoDup hs2 /\ (forall h, h ∈ hs2 -> is_Some (D !! h)) /\ (size D < NBUF)%nat).

Lemma room_cons D h hs2 : room D (h :: hs2) ->
  (size D < NBUF)%nat /\ (is_Some (D !! h) \/ (size D + 1 < NBUF)%nat) /\ room (delete h D) hs2.
Proof.
  intros [->|(Hn & Hin & Hsz)].
  - rewrite map_size_empty. split_and!; [unfold NBUF; lia|right; unfold NBUF; lia|].
    left. apply delete_empty.
  - apply NoDup_cons in Hn as [Hh Hn].
    assert (is_Some (D !! h)) as Hd by (apply Hin; set_solver).
    split_and!; [done|by left|]. right. split_and!; [done| |].
    + intros x Hx. rewrite lookup_delete_ne by set_solver. apply Hin. set_solver.
    + rewrite map_size_delete_Some by done. lia.
Qed.

Definition removed (D : gmap Z (list byte)) (l : list Z) : gmap Z (list byte) :=
  foldl (fun D h => delete h D) D l.

Lemma install_loop : forall hs2 us2 hs1 s d ws D, hs = hs1 ++ hs2 -> length us2 = length hs2 ->
  (forall i u, us2 !! i = Some u ->
     d !! Z.to_nat (ls + 1 + Z.of_nat (length hs1) + Z.of_nat i) = Some u) ->
  (forall m, ls <= m < ls + LOGSIZE -> D !! m = None) -> room D hs2 ->
  idle s -> length d = nd -> st f0 d ws D [] (fs s) ->
  runs (for_each (seq (length hs1) (length hs2)) install_one) s (fun _ f' =>
    st f0 (apply_writes (zip hs2 us2) d) (rev (zip hs2 us2) ++ ws) (removed D hs2) [] f').
Proof.
  destruct (lo_area _ _ _ _ Hlog) as [Hls Hnd].
  induction hs2 as [|h hs2 IH]; intros us2 hs1 s d ws D Ehs Hl Hus HD Hroom Hidle Hd Hst.
  - by apply runs_ret.
  - destruct us2 as [|u us2]; [done|]. simpl in Hl. apply room_cons in Hroom as (Hsz & Hsp & Hroom).
    assert (Hi : hs !! length hs1 = Some h) by (subst hs; by apply list_lookup_middle).
    destruct (lo_home_at _ _ Hi) as [Hr Hout]. pose proof (lo_index _ _ Hi) as Hlt.
    change LOGSIZE with 30 in *. cbn [length seq for_each zip zip_with].
    eapply runs_bind.
    { eapply (install_one_ok s f0 d ws D (length hs1) h (ls + 1 + Z.of_nat (length hs1)));
        [done|done|apply Hlog|by apply lo_at|rewrite (lo_start _ _ _ _ Hlog); lia|lia..|
         apply HD; lia|done| |exact Hsp].
      rewrite <- (Hus 0%nat u eq_refl). do 2 f_equal. lia. }
    cbv beta. intros _ f1 S1.
    specialize (IH us2 (hs1 ++ [h]) (set_fs f1 s) (<[Z.to_nat h := u]> d) ((h, u) :: ws)
      (delete h D) ltac:(by rewrite <- app_assoc) ltac:(lia)).
    rewrite length_app in IH. simpl in IH. rewrite Nat.add_1_r in IH.
    assert (Hn : length hs = (length hs1 + S (length hs2))%nat)
      by (rewrite Ehs, length_app; done).
    pose proof (lo_max _ _ _ _ Hlog) as Hmax.
    eapply runs_mono; [apply IH|].
    + intros i u' Hu'. rewrite list_lookup_insert_ne by (apply lookup_lt_Some in Hu'; lia).
      rewrite <- (Hus (S i) u' Hu'). do 2 f_equal. lia.
    + intros m Hm. rewrite lookup_delete_ne by lia. by apply HD.
    + done.
    + by apply idle_set_fs.
    + by rewrite length_insert.
    + done.
    + cbv beta. intros _ f'. cbn [rev]. rewrite <- app_assoc. done.
Qed.

End Loops.

(** ** The header *)

Section Head.
Context (f0 : fsys) (ls : Z) (nd : nat) (d : list (list byte)) (ws : list (Z * list byte)).
Context (D : gmap Z (list byte)) (old : list byte) (s : kstate).
Hypothesis Hidle : idle s.
Hypothesis Hst : st f0 d ws D [] (fs s).
Hypothesis Hd : length d = nd.
Hypothesis Hold : d !! Z.to_nat ls = Some old.
Hypothesis HD : D !! ls = None.
Hypothesis Hsz : (size D < NBUF)%nat.

Lemma write_head_loop hs (Hlog : log_ok f0 ls hs nd) b : forall hs2 hs1 v f1,
  hs = hs1 ++ hs2 -> st f0 d ws D [mk_handle b ls v false] f1 ->
  runs (for_each (seq (length hs1) (length hs2)) (fun i =>
      u <- lh_at (logst f0) i ;;
      upd_buf b (fun x => set_data (put_word 4 (4 + 4 * i) u (b_data x)) x))) (set_fs f1 s)
    (fun _ f' => st f0 d ws D [mk_handle b ls (put_blocks (length hs1) hs2 v) false] f').
Proof.
  induction hs2 as [|h hs2 IH]; intros hs1 v f1 Ehs S1; cbn [length seq for_each put_blocks].
  - by apply runs_ret.
  - assert (Hi : hs !! length hs1 = Some h) by (subst hs; by apply list_lookup_middle).
    eapply runs_bind.
    { eapply runs_lh_at; [by eapply lo_at|].
      apply (R_upd (set_fs f1 s) f0 d ws D [] b ls v false _
        (put_word 4 (4 + 4 * length hs1) h v) false S1).
      intros x Hx Hf. unfold set_data. by rewrite Hx, Hf. }
    cbv beta. intros _ f2 S2.
    specialize (IH (hs1 ++ [h]) _ f2 ltac:(by rewrite <- app_assoc) S2).
    rewrite length_app in IH. simpl in IH. rewrite Nat.add_1_r in IH. exact IH.
Qed.

Lemma log_block_range hs (Hlog : log_ok f0 ls hs nd) : 0 <= ls < Z.of_nat (length d) /\ u32 ls = ls.
Proof.
  destruct (lo_area _ _ _ _ Hlog) as [H1 H2]. change LOGSIZE with 30 in H2.
  split; [lia|]. apply u32_small. lia.
Qed.

Lemma write_head_ok hs :
  log_ok f0 ls hs nd ->
  runs write_head s (fun _ f' =>
    st f0 (<[Z.to_nat ls := header hs old]> d) ((ls, header hs old) :: ws) D [] f').
Proof.
  intros Hlog. destruct (log_block_range hs Hlog) as [Hr Hu].
  unfold write_head, get_log. apply runs_gets. rewrite (same_log s f0 d ws D Hst).
  rewrite (lo_dev _ _ _ _ Hlog), (lo_start _ _ _ _ Hlog), (lo_n _ _ _ _ Hlog), Hu, Nat2Z.id.
  change (u32 1) with 1.
  eapply runs_bind; [apply (R_bread s f0 d ws D [] Hidle ls Hst);
    [lia|apply not_elem_of_nil|right; simpl; lia]|].
  cbv beta. intros b f1 S1.
  rewrite (delete_id D ls HD), (blk_disk d D ls old HD Hold), HD, bool_decide_false in S1
    by (by intros [? ?]).
  eapply runs_bind.
  { apply (R_upd (set_fs f1 s) f0 d ws D [] b ls old false _
        (put_word 4 0 (Z.of_nat (length hs)) old) false S1).
    intros x Hx Hf. unfold set_data. by rewrite Hx, Hf. }
  cbv beta. intros _ f2 S2.
  eapply runs_bind; [apply (write_head_loop hs Hlog b hs [] _ f2 eq_refl S2)|].
  cbv beta. intros _ f3 S3. change (put_blocks _ _ _) with (header hs old) in S3.
  eapply runs_bind; [eapply (R_bwrite (set_fs f3 s) f0 d ws _ _ (idle_set_fs s f3 Hidle)); exact S3|].
  cbv beta. intros _ f4 S4.
  eapply runs_mono; [eapply (R_brelse (set_fs f4 s) f0 _ _ _ _ (idle_set_fs s f4 Hidle)); [exact S4|]|done].
  intros _. apply list_lookup_insert_eq. lia.
Qed.

End Head.

(** [lh] in memory as [read_head] leaves it. *)
Definition with_lh (f0 : fsys) (n : Z) (bl : list Z) : fsys :=
  set_logst (set_lh (mk_logheader n bl) (logst f0)) f0.

Lemma put_lh_ok s f0 d ws D H n pre x post v :
  st (with_lh f0 n (pre ++ x :: post)) d ws D H (fs s) ->
  runs (put_lh (length pre) v) s (fun _ f' => st (with_lh f0 n (pre ++ v :: post)) d ws D H f').
Proof.
  intros Hst. unfold put_lh, get_log. apply runs_gets.
  assert (logst (fs s) = logst (with_lh f0 n (pre ++ x :: post))) as El by (by destruct Hst as ([] & _)).
  rewrite El. cbn [log_lh logst with_lh set_logst set_lh lh_block].
  rewrite bool_decide_true by (rewrite length_app; simpl; lia).
  rewrite insert_app_r_alt, Nat.sub_diag by lia. cbn [insert list_insert].
  eapply runs_mono; [by apply R_put_log|]. intros ? f'. done.
Qed.

Lemma put_lh_loop s f0 d ws D H n g (Hidle : idle s) : forall k pre post f1,
  (k <= length post)%nat -> st (with_lh f0 n (pre ++ post)) d ws D H f1 ->
  runs (for_each (seq (length pre) k) (fun i => put_lh i (g i))) (set_fs f1 s) (fun _ f' =>
    st (with_lh f0 n (pre ++ map g (seq (length pre) k) ++ drop k post)) d ws D H f').
Proof.
  induction k as [|k IH]; intros pre post f1 Hk S1; cbn [seq for_each map].
  - by apply runs_ret.
  - destruct post as [|x post]; [simpl in Hk; lia|].
    eapply runs_bind; [apply (put_lh_ok (set_fs f1 s) _ _ _ _ _ _ _ _ _ (g (length pre)) S1)|].
    cbv beta. intros _ f2 S2.
    specialize (IH (pre ++ [g (length pre)]) post f2 ltac:(simpl in Hk; lia)).
    rewrite <- !app_assoc in IH. specialize (IH S2).
    rewrite length_app in IH. simpl in IH. rewrite Nat.add_1_r in IH. exact IH.
Qed.

(** ** Where the log is, and what a header on the disk names *)

Record log_cfg (f0 : fsys) (ls : Z) (nd : nat) : Prop := mk_log_cfg {
  lc_start : log_start (logst f0) = ls;
  lc_dev : log_dev (logst f0) = 1;
  lc_len : length (lh_block (log_lh (logst f0))) = 30%nat;
  lc_area : 0 <= ls /\ ls + LOGSIZE <= Z.of_nat nd <= 2 ^ 31;
}.

Definition homes (ls : Z) (nd : nat) (hs : list Z) : Prop :=
  (length hs <= 29)%nat /\
  Forall (fun h => 0 <= h < Z.of_nat nd /\ ~ (ls <= h < ls + LOGSIZE)) hs.

Definition names (hd : list byte) (hs : list Z) : Prop :=
  word 4 hd 0 = Z.of_nat (length hs) /\
  forall i h, hs !! i = Some h -> s32 (word 4 hd (4 + 4 * i)) = h.

Lemma log_ok_with f0 ls nd hs rest :
  log_cfg f0 ls nd -> homes ls nd hs -> length (hs ++ rest) = 30%nat ->
  log_ok (with_lh f0 (Z.of_nat (length hs)) (hs ++ rest)) ls hs nd.
Proof. intros [] [? ?] ?. constructor; try done. by exists rest. Qed.

Lemma log_ok_cfg f0 ls nd hs : log_ok f0 ls hs nd -> log_cfg f0 ls nd /\ homes ls nd hs.
Proof. intros []. split; by constructor. Qed.

Lemma s32_word n : 0 <= n <= 29 -> s32 n = n.
Proof. intros. unfold s32. rewrite Z.mod_small by lia. rewrite (proj2 (Z.ltb_lt _ _)); lia. Qed.

Lemma header_names hs nd ls old :
  length old = BLK -> homes ls nd hs -> Z.of_nat nd <= 2 ^ 31 -> names (header hs old) hs.
Proof.
  intros Hold [Hl Hh] Hnd. split; [apply header_n; [done|lia]|].
  intros i h Hi. rewrite (header_block hs old Hold ltac:(lia) i h Hi).
  rewrite Forall_lookup in Hh. destruct (Hh i h Hi) as [Hr _].
  rewrite u32_small by lia. unfold s32. rewrite Z.mod_small by lia.
  rewrite (proj2 (Z.ltb_lt _ _)); lia.
Qed.

Lemma header_nil_names old : (4 <= length old)%nat -> names (header [] old) [].
Proof.
  intros Hold. split; [|done]. unfold header. cbn [put_blocks length].
  by rewrite word_put_same by lia.
Qed.

Lemma names_words hd hs :
  names hd hs -> map (fun i => s32 (word 4 hd (4 + 4 * i))) (seq 0 (length hs)) = hs.
Proof.
  intros [_ Hn]. apply list_eq. intros i. rewrite list_lookup_fmap.
  destruct (hs !! i) as [h|] eqn:E.
  - rewrite lookup_seq_lt by (by eapply lookup_lt_Some). simpl. f_equal. by apply Hn.
  - rewrite lookup_seq_ge by (by apply lookup_ge_None). done.
Qed.

Lemma read_head_ok s f0 ls nd d ws hd hs :
  idle s -> st f0 d ws ∅ [] (fs s) -> log_cfg f0 ls nd -> length d = nd ->
  d !! Z.to_nat ls = Some hd -> names hd hs -> homes ls nd hs ->
  runs read_head s (fun _ f' => exists rest, length (hs ++ rest) = 30%nat /\
    st (with_lh f0 (Z.of_nat (length hs)) (hs ++ rest)) d ws ∅ [] f').
Proof.
  intros Hidle Hst Hc Hd Hhd Hn [Hl Hh]. destruct (lc_area _ _ _ Hc) as [H1 H2].
  change LOGSIZE with 30 in H2. unfold read_head, get_log. apply runs_gets.
  rewrite (same_log s f0 d ws ∅ Hst), (lc_dev _ _ _ Hc), (lc_start _ _ _ Hc).
  change (u32 1) with 1. rewrite (u32_small ls) by lia.
  eapply runs_bind; [apply (R_bread s f0 d ws ∅ [] Hidle ls Hst);
    [lia|apply not_elem_of_nil|right; rewrite map_size_empty; simpl; unfold NBUF; lia]|].
  cbv beta. intros b f1 S1.
  rewrite delete_empty, (blk_disk d ∅ ls hd (lookup_empty _) Hhd), lookup_empty, bool_decide_false
    in S1 by (by intros [? ?]).
  destruct (R_get (set_fs f1 s) _ _ _ _ _ _ S1 ltac:(by left)) as (x & Ex & Dx & _).
  eapply runs_get_buf; [exact Ex|]. simpl in Dx. rewrite Dx. cbv zeta.
  destruct Hn as [Hn0 Hni]. rewrite Hn0, (s32_word (Z.of_nat (length hs))), Nat2Z.id by lia.
  eapply runs_bind; [by apply (R_put_log (set_fs f1 s) f0)|]. cbv beta. intros _ f2 S2.
  eapply runs_bind.
  { eapply (put_lh_loop s f0 d ws ∅ _ (Z.of_nat (length hs))
      (fun i => s32 (word 4 hd (4 + 4 * i))) Hidle (length hs) []
      (lh_block (log_lh (logst f0))) f2); [rewrite (lc_len _ _ _ Hc); lia|exact S2]. }
  cbv beta. intros _ f3 S3. cbn [app length] in S3. rewrite (names_words hd hs (conj Hn0 Hni)) in S3.
  eapply runs_mono; [eapply (R_brelse (set_fs f3 s) _ _ _ _ _ (idle_set_fs s f3 Hidle)); [exact S3|done]|].
  cbv beta iota. intros _ f' S'. eexists. split; [|exact S'].
  rewrite length_app, length_drop, (lc_len _ _ _ Hc). lia.
Qed.

(** ** Recovery *)

Lemma removed_empty l : removed ∅ l = ∅.
Proof. induction l as [|h l IH]; [done|]. unfold removed in *. cbn. by rewrite delete_empty. Qed.

Lemma zip_out ls nd hs (us : list (list byte)) m :
  homes ls nd hs -> 0 <= ls -> ls <= m < ls + LOGSIZE ->
  Z.to_nat m ∉ map (fun w => Z.to_nat (fst w)) (zip hs us).
Proof.
  intros [_ Hh] Hls Hm (w & Ew & Hw)%list_elem_of_fmap. destruct w as [h u].
  apply elem_of_zip_l in Hw. rewrite Forall_forall in Hh. destruct (Hh h Hw) as [Hr Hout].
  apply Hout. simpl in Ew. lia.
Qed.

(** The header in memory after [log.lh.n = 0]. *)
Lemma log_ok_clear f0 ls nd :
  log_cfg f0 ls nd -> log_ok (set_logst (set_n 0 (logst f0)) f0) ls [] nd.
Proof.
  intros []. constructor; try done; [by exists (lh_block (log_lh (logst f0)))|simpl; lia].
Qed.

(** Installing the log and clearing its header. *)
Lemma install_clear s f0 ls nd d ws D hd hs us :
  idle s -> st f0 d ws D [] (fs s) -> log_ok f0 ls hs nd -> length d = nd ->
  d !! Z.to_nat ls = Some hd -> length us = length hs ->
  (forall i u, us !! i = Some u -> d !! Z.to_nat (ls + 1 + Z.of_nat i) = Some u) ->
  (forall m, ls <= m < ls + LOGSIZE -> D !! m = None) -> room D hs -> removed D hs = ∅ ->
  runs (install_trans ;; put_log (set_n 0) ;; write_head) s (fun _ f' =>
    let w := zip hs us ++ [(ls, header [] hd)] in
    st (set_logst (set_n 0 (logst f0)) f0) (apply_writes w d) (rev w ++ ws) ∅ [] f').
Proof.
  intros Hidle Hst Hlog Hd Hhd Hl Hus HD Hroom Hrem.
  pose proof (log_ok_cfg _ _ _ _ Hlog) as [Hc Hhs]. destruct (lc_area _ _ _ Hc) as [H1 H2].
  change LOGSIZE with 30 in H2.
  unfold install_trans, get_log.
  eapply runs_bind.
  { apply runs_gets. rewrite (same_log s f0 d ws D Hst), (lo_n _ _ _ _ Hlog), Nat2Z.id.
    apply (install_loop f0 ls hs nd Hlog hs us [] s d ws D eq_refl Hl); try done.
    intros i u Hu. rewrite <- (Hus i u Hu). do 2 f_equal. simpl. lia. }
  cbv beta. intros _ f1 S1. rewrite Hrem in S1.
  eapply runs_bind; [by apply (R_put_log (set_fs f1 s) f0)|]. cbv beta. intros _ f2 S2.
  set (d1 := apply_writes _ _) in *.
  assert (E1 : length d1 = nd) by (unfold d1; by rewrite length_apply_writes).
  assert (E2 : d1 !! Z.to_nat ls = Some hd).
  { unfold d1. rewrite apply_writes_other; [done|].
    apply (zip_out ls nd); [done|lia|]. change LOGSIZE with 30. lia. }
  eapply runs_mono.
  { eapply (write_head_ok _ ls nd d1 _ ∅ hd (set_fs f2 s) (idle_set_fs _ _ Hidle) S2 E1 E2
      (lookup_empty _)); [rewrite map_size_empty; unfold NBUF; lia|by apply log_ok_clear]. }
  cbv beta zeta. intros _ f'. rewrite apply_writes_app, rev_app_distr. done.
Qed.

Lemma recover_ok s f0 ls nd d ws hd hs us :
  idle s -> st f0 d ws ∅ [] (fs s) -> log_cfg f0 ls nd -> length d = nd ->
  d !! Z.to_nat ls = Some hd -> names hd hs -> homes ls nd hs -> length us = length hs ->
  (forall i u, us !! i = Some u -> d !! Z.to_nat (ls + 1 + Z.of_nat i) = Some u) ->
  runs recover_from_log s (fun _ f' => exists f1,
    let w := zip hs us ++ [(ls, header [] hd)] in
    lh_n (log_lh (logst f1)) = 0 /\ st f1 (apply_writes w d) (rev w ++ ws) ∅ [] f').
Proof.
  intros Hidle Hst Hc Hd Hhd Hn Hh Hl Hus. unfold recover_from_log.
  eapply runs_bind; [by eapply read_head_ok|]. cbv beta. intros _ f1 (rest & Hrest & S1).
  eapply runs_mono.
  { eapply (install_clear (set_fs f1 s) _ ls nd d ws ∅ hd hs us); try done.
    - by apply idle_set_fs.
    - by apply log_ok_with.
    - by left.
    - apply removed_empty. }
  cbv beta zeta. intros _ f' S'. eexists. by split; [|exact S'].
Qed.

(** ** Commit *)

Lemma removed_lookup l : forall (E : gmap Z (list byte)) m,
  m ∈ l \/ E !! m = None -> removed E l !! m = None.
Proof.
  induction l as [|h l IH]; intros E m Hm; [destruct Hm as [[]%not_elem_of_nil|]; done|].
  cbn. apply IH. destruct (decide (m = h)) as [->|Hne]; [right; apply lookup_delete_eq|].
  rewrite lookup_delete_ne by done. destruct Hm as [[?|?]%elem_of_cons|?]; auto. done.
Qed.

Lemma at_blocks_fst a : forall us m, 0 <= a ->
  m ∈ map (fun w => Z.to_nat (fst w)) (at_blocks a us) ->
  a <= Z.of_nat m < a + Z.of_nat (length us).
Proof.
  intros us. revert a. induction us as [|u us IH]; intros a m Ha; cbn; [by intros ?%not_elem_of_nil|].
  intros [->|Hm]%elem_of_cons; [lia|]. apply IH in Hm; lia.
Qed.

Lemma at_blocks_lookup : forall us a e i u, 0 <= a -> a + Z.of_nat (length us) <= Z.of_nat (length e) ->
  us !! i = Some u -> apply_writes (at_blocks a us) e !! Z.to_nat (a + Z.of_nat i) = Some u.
Proof.
  induction us as [|u0 us IH]; intros a e i u Ha He Hi; [done|]. cbn [at_blocks length] in *.
  change (apply_writes ((a, u0) :: at_blocks (a + 1) us) e)
    with (apply_writes (at_blocks (a + 1) us) (<[Z.to_nat a := u0]> e)).
  destruct i as [|i]; simpl in Hi.
  - simplify_eq. rewrite apply_writes_other.
    + replace (a + Z.of_nat 0) with a by lia. apply list_lookup_insert_eq. lia.
    + intros Hin%at_blocks_fst; lia.
  - replace (a + Z.of_nat (S i)) with (a + 1 + Z.of_nat i) by lia.
    apply IH; [lia|rewrite length_insert; lia|done].
Qed.

Section Commit.
Context (f0 : fsys) (ls : Z) (nd : nat) (hs : list Z) (vs : list (list byte)).
Context (d : list (list byte)) (ws : list (Z * list byte)) (D : gmap Z (list byte)).
Context (old : list byte).
Hypothesis Hlog : log_ok f0 ls hs nd.
Hypothesis Hd : length d = nd.
Hypothesis Hold : d !! Z.to_nat ls = Some old.
Hypothesis Hnd : NoDup hs.
Hypothesis Hvs : Forall2 (fun h v => D !! h = Some v) hs vs.
Hypothesis HD : forall m v, D !! m = Some v -> m ∈ hs.

(** The writes of [commit], in order. *)
Definition commit_writes : list (Z * list byte) :=
  at_blocks (ls + 1) vs ++ (ls, header hs old) ::
  zip hs vs ++ [(ls, header [] (header hs old))].

Lemma pending_size : (size D <= length hs)%nat.
Proof.
  rewrite <- length_map_to_list, <- (length_fmap fst). apply submseteq_length, NoDup_submseteq.
  - apply NoDup_fst_map_to_list.
  - intros m ([m' v] & -> & Hm%elem_of_map_to_list)%list_elem_of_fmap. by eapply HD.
Qed.

Lemma pending_not_log m : ls <= m < ls + LOGSIZE -> D !! m = None.
Proof.
  intros Hm. destruct (D !! m) as [v|] eqn:E; [|done]. apply HD in E.
  pose proof (lo_home _ _ _ _ Hlog) as Hh. rewrite Forall_forall in Hh.
  by destruct (Hh m E) as [_ ?].
Qed.

Lemma removed_all : removed D hs = ∅.
Proof.
  apply map_empty. intros m. apply removed_lookup.
  destruct (D !! m) as [v|] eqn:E; [left; by eapply HD|by right].
Qed.

Lemma pending_room : room D hs.
Proof.
  right. split_and!; [done| |].
  - intros h [i Hi]%list_elem_of_lookup. destruct (Forall2_lookup_l _ _ _ _ _ Hvs Hi) as (v & _ & Hv).
    by exists v.
  - pose proof pending_size. pose proof (lo_max _ _ _ _ Hlog). unfold NBUF. lia.
Qed.

Lemma vs_length : length vs = length hs.
Proof. symmetry. by eapply Forall2_length. Qed.

Lemma commit_ok s :
  idle s -> st f0 d ws D [] (fs s) -> hs <> [] ->
  runs commit s (fun _ f' =>
    st (set_logst (set_n 0 (logst f0)) f0) (apply_writes commit_writes d)
      (rev commit_writes ++ ws) ∅ [] f').
Proof.
  intros Hidle Hst Hne. pose proof (log_ok_cfg _ _ _ _ Hlog) as [Hc Hhs].
  destruct (lc_area _ _ _ Hc) as [H1 H2]. pose proof (lo_max _ _ _ _ Hlog) as Hmax.
  pose proof pending_size as Hps. pose proof vs_length as Hvl. change LOGSIZE with 30 in *.
  unfold commit, get_log. apply runs_gets. rewrite (same_log s f0 d ws D Hst), (lo_n _ _ _ _ Hlog).
  rewrite (proj2 (Z.ltb_lt _ _)) by (destruct hs; [done|simpl; lia]).
  eapply runs_bind.
  { unfold write_log, get_log. apply runs_gets.
    rewrite (same_log s f0 d ws D Hst), (lo_n _ _ _ _ Hlog), Nat2Z.id.
    eapply (write_loop f0 ls hs nd Hlog D ltac:(unfold NBUF; lia) pending_not_log hs vs []); done. }
  cbv beta zeta. intros _ f1 S1. simpl in S1. rewrite Z.add_0_r in S1.
  set (d1 := apply_writes (at_blocks (ls + 1) vs) d) in *.
  assert (L1 : length d1 = nd) by (unfold d1; by rewrite length_apply_writes).
  assert (O1 : d1 !! Z.to_nat ls = Some old).
  { unfold d1. rewrite apply_writes_other; [done|]. intros Hin%at_blocks_fst; lia. }
  eapply runs_bind.
  { eapply (write_head_ok f0 ls nd d1 _ D old (set_fs f1 s) (idle_set_fs _ _ Hidle) S1 L1 O1);
      [apply pending_not_log; change LOGSIZE with 30; lia|unfold NBUF; lia|done]. }
  cbv beta. intros _ f2 S2.
  eapply runs_mono.
  { eapply (install_clear (set_fs f2 s) f0 ls nd _ _ D (header hs old) hs vs); try done.
    - by apply idle_set_fs.
    - by rewrite length_insert.
    - apply list_lookup_insert_eq. lia.
    - intros i u Hu. rewrite list_lookup_insert_ne by lia.
      apply at_blocks_lookup; [lia|rewrite Hvl; lia|done].
    - exact pending_not_log.
    - exact pending_room.
    - exact removed_all. }
  cbv beta zeta. intros _ f'. unfold commit_writes. set (w := zip hs vs ++ _).
  rewrite apply_writes_app, (rev_app_distr (at_blocks _ _)). cbn [rev]. rewrite <- !app_assoc. done.
Qed.

End Commit.
