(* ===== verification/LogCrash.v ===== *)
(** * Crashes and recovery

    The two theorems about the lower half of the file system: the buffer cache
    refines a disk with pending writes, and a crash at any point of [commit]
    leaves, after recovery, either all or none of the transaction's blocks. *)

From stdpp Require Import gmap.
From S2P Require Import Prelude Memory FsState Machine Spinlock Kalloc Proc Sleeplock Bio Lru.
From S2P Require Import BioSpec Blocks Log LogSpec Demo DemoFs CacheInit.
Local Open Scope Z_scope.
Local Open Scope kernel_scope.

(** ** The disk after a crash *)

Definition in_log (ls : Z) (m : nat) : Prop := ls <= Z.of_nat m < ls + LOGSIZE.

Lemma zip_fst (l : list Z) (us : list (list byte)) m :
  (forall h, h ∈ l -> 0 <= h) -> Z.of_nat m ∉ l ->
  m ∉ map (fun w => Z.to_nat (fst w)) (zip l us).
Proof.
  intros Hn Hm (w & Ew & Hw)%list_elem_of_fmap. destruct w as [h u].
  apply elem_of_zip_l in Hw. apply Hm. simpl in Ew. specialize (Hn h Hw).
  replace (Z.of_nat m) with h by lia. done.
Qed.

(** Installing a list of blocks without repetitions. *)
Lemma zip_lookup : forall l us e i h u, NoDup l ->
  (forall h, h ∈ l -> 0 <= h < Z.of_nat (length e)) ->
  l !! i = Some h -> us !! i = Some u -> apply_writes (zip l us) e !! Z.to_nat h = Some u.
Proof.
  induction l as [|h0 l IH]; intros us e i h u Hn Hr Hh Hu; [done|].
  destruct us as [|u0 us]; [done|]. apply NoDup_cons in Hn as [Hh0 Hn].
  change (apply_writes (zip (h0 :: l) (u0 :: us)) e)
    with (apply_writes (zip l us) (<[Z.to_nat h0 := u0]> e)).
  destruct i as [|i]; simpl in Hh, Hu.
  - simplify_eq. rewrite apply_writes_other.
    + apply list_lookup_insert_eq. specialize (Hr h ltac:(left)). lia.
    + apply zip_fst; [intros x Hx; apply Hr; set_solver|].
      rewrite Z2Nat.id by (apply Hr; left). done.
  - eapply IH; eauto. intros x Hx. rewrite length_insert. apply Hr. set_solver.
Qed.

Lemma take_at_blocks k : forall a us, take k (at_blocks a us) = at_blocks a (take k us).
Proof. induction k as [|k IH]; intros a [|u us]; simpl; [done..|]. by rewrite IH. Qed.

Lemma length_at_blocks us : forall a, length (at_blocks a us) = length us.
Proof. induction us as [|u us IH]; intros a; simpl; [done|]. by rewrite IH. Qed.

Section Crash.
Context (f0 : fsys) (ls : Z) (nd : nat) (hs : list Z) (vs : list (list byte)).
Context (d : list (list byte)) (D : gmap Z (list byte)) (old : list byte).
Hypothesis Hcfg : homes ls nd hs.
Hypothesis Harea : 0 <= ls /\ ls + LOGSIZE <= Z.of_nat nd <= 2 ^ 31.
Hypothesis Hd : length d = nd.
Hypothesis Hold : d !! Z.to_nat ls = Some old.
Hypothesis Hblk : length old = BLK.
Hypothesis Hempty : word 4 old 0 = 0.
Hypothesis Hnd : NoDup hs.
Hypothesis Hvs : Forall2 (fun h v => D !! h = Some v) hs vs.
Hypothesis HD : forall m v, D !! m = Some v -> m ∈ hs.

(** The contents the transaction gives to block [m]. *)
Definition new_block (m : nat) : option (list byte) :=
  match D !! Z.of_nat m with Some v => Some v | None => d !! m end.

Lemma home_nonneg h : h ∈ hs -> 0 <= h < Z.of_nat nd /\ ~ in_log ls (Z.to_nat h).
Proof.
  intros Hh. destruct Hcfg as [_ Hf]. rewrite Forall_forall in Hf.
  destruct (Hf h Hh) as [Hr Ho]. unfold in_log. split; [done|]. by rewrite Z2Nat.id by lia.
Qed.

(** Whatever part of the transaction was installed already. *)
Lemma install_new e m :
  length e = nd -> (forall m, ~ in_log ls m -> Z.of_nat m ∉ hs -> e !! m = d !! m) ->
  ~ in_log ls m -> apply_writes (zip hs vs) e !! m = new_block m.
Proof.
  intros He Hsame Hm. unfold new_block. destruct (D !! Z.of_nat m) as [v|] eqn:E.
  - pose proof (HD _ _ E) as Hin. apply list_elem_of_lookup in Hin as [i Hi].
    destruct (Forall2_lookup_l _ _ _ _ _ Hvs Hi) as (v' & Hv' & Hv). rewrite E in Hv. injection Hv as <-.
    rewrite <- (Nat2Z.id m). eapply zip_lookup; eauto.
    intros h Hh. apply home_nonneg in Hh as [? _]. lia.
  - assert (Hno : Z.of_nat m ∉ hs).
    { intros [i Hi]%list_elem_of_lookup. destruct (Forall2_lookup_l _ _ _ _ _ Hvs Hi) as (v & _ & Hv).
      congruence. }
    rewrite apply_writes_other; [by apply Hsame|].
    apply zip_fst; [|done]. intros h Hh. by apply home_nonneg.
Qed.

Lemma hdr_out (e : list (list byte)) m v : ~ in_log ls m -> <[Z.to_nat ls := v]> e !! m = e !! m.
Proof.
  intros Hm. unfold in_log in Hm. change LOGSIZE with 30 in *.
  rewrite list_lookup_insert_ne by lia. done.
Qed.

Lemma at_blocks_out us e m :
  (length us <= 29)%nat -> ~ in_log ls m -> apply_writes (at_blocks (ls + 1) us) e !! m = e !! m.
Proof.
  intros Hl Hm. unfold in_log in Hm. change LOGSIZE with 30 in *.
  apply apply_writes_other. intros Hin%at_blocks_fst; lia.
Qed.

Lemma at_blocks_head us e : apply_writes (at_blocks (ls + 1) us) e !! Z.to_nat ls = e !! Z.to_nat ls.
Proof. apply apply_writes_other. intros Hin%at_blocks_fst; lia. Qed.

Notation W := (commit_writes ls hs vs old).

Lemma vs_len : length vs = length hs.
Proof. symmetry. by eapply Forall2_length. Qed.

(** A disk on which recovery finds the list [hs'] in the header, with its log
    blocks, and ends with the contents [c] outside the log. *)
Definition recovers (e : list (list byte)) (c : nat -> option (list byte)) : Prop :=
  exists hd hs' us', e !! Z.to_nat ls = Some hd /\ (4 <= length hd)%nat /\ names hd hs' /\
    homes ls nd hs' /\ length us' = length hs' /\
    (forall i u, us' !! i = Some u -> e !! Z.to_nat (ls + 1 + Z.of_nat i) = Some u) /\
    forall m, ~ in_log ls m -> apply_writes (zip hs' us') e !! m = c m.

Lemma homes_nil : homes ls nd [].
Proof. split; [simpl; lia|constructor]. Qed.

Lemma recovers_empty e hd c :
  e !! Z.to_nat ls = Some hd -> (4 <= length hd)%nat -> names hd [] ->
  (forall m, ~ in_log ls m -> e !! m = c m) -> recovers e c.
Proof.
  intros. exists hd, [], []. split_and!; try done. apply homes_nil.
Qed.

(** The crash comes before the header is written. *)
Lemma crash_before k : (k <= length hs)%nat -> recovers (apply_writes (take k W) d) (fun m => d !! m).
Proof.
  intros Hk. pose proof vs_len as Hvl. destruct Hcfg as [Hl _]. unfold commit_writes.
  rewrite take_app_le by (rewrite length_at_blocks; lia). rewrite take_at_blocks.
  apply (recovers_empty _ old).
  - by rewrite at_blocks_head.
  - rewrite Hblk, BLK_512. lia.
  - split; [done|]. intros i h Hi. by rewrite lookup_nil in Hi.
  - intros m Hm. apply at_blocks_out; [rewrite length_take; lia|done].
Qed.

(** The state of the disk when the header is written. *)
Definition logged : list (list byte) :=
  <[Z.to_nat ls := header hs old]> (apply_writes (at_blocks (ls + 1) vs) d).

Lemma logged_facts :
  length logged = nd /\ logged !! Z.to_nat ls = Some (header hs old) /\
  (forall i u, vs !! i = Some u -> logged !! Z.to_nat (ls + 1 + Z.of_nat i) = Some u) /\
  (forall m, ~ in_log ls m -> logged !! m = d !! m).
Proof.
  pose proof vs_len as Hvl. destruct Hcfg as [Hl _]. destruct Harea as [H1 H2].
  change LOGSIZE with 30 in H2. unfold logged. split_and!.
  - by rewrite length_insert, length_apply_writes.
  - apply list_lookup_insert_eq. rewrite length_apply_writes. lia.
  - intros i u Hu. rewrite list_lookup_insert_ne by lia.
    apply at_blocks_lookup; [lia|rewrite Hvl; lia|done].
  - intros m Hm. rewrite hdr_out by done. apply at_blocks_out; [lia|done].
Qed.

(** The crash comes when the log is committed and [j] blocks are installed. *)
Lemma crash_installing j : recovers (apply_writes (take j (zip hs vs)) logged) new_block.
Proof.
  destruct logged_facts as (L1 & L2 & L3 & L4). destruct Harea as [H1 H2].
  assert (Hin : forall m, in_log ls m ->
    apply_writes (take j (zip hs vs)) logged !! m = logged !! m).
  { intros m Hm. apply apply_writes_other. intros Hx.
    assert (Hz : m ∈ map (fun w => Z.to_nat (fst w)) (zip hs vs)).
    { apply list_elem_of_fmap in Hx as (w & -> & Hw). apply list_elem_of_fmap.
      exists w. split; [done|]. by eapply elem_of_take in Hw as (? & ? & _);
        eapply list_elem_of_lookup_2. }
    revert Hz. rewrite <- (Nat2Z.id m). apply (zip_out ls nd); [done|lia|done]. }
  assert (Hz : forall i, (i < 30)%nat -> in_log ls (Z.to_nat (ls + Z.of_nat i))).
  { intros i Hi. unfold in_log. change LOGSIZE with 30. lia. }
  exists (header hs old), hs, vs. destruct Hcfg as [Hl _]. split_and!; try done.
  - replace ls with (ls + Z.of_nat 0) by lia. rewrite Hin by (apply Hz; lia).
    by rewrite Z.add_0_r.
  - rewrite header_length by (done || lia). rewrite BLK_512. lia.
  - apply (header_names hs nd ls); [done|done|lia].
  - apply vs_len.
  - intros i u Hu. rewrite <- (L3 i u Hu). apply Hin.
    replace (ls + 1 + Z.of_nat i) with (ls + Z.of_nat (S i)) by lia. apply Hz.
    apply lookup_lt_Some in Hu. rewrite vs_len in Hu. lia.
  - intros m Hm. apply install_new; [by rewrite length_apply_writes| |done].
    intros m' Hm' Hno. rewrite apply_writes_other; [by apply L4|].
    intros (w & -> & Hw)%list_elem_of_fmap. apply Hno.
    apply elem_of_take in Hw as (i & Hw & _). apply list_elem_of_lookup_2 in Hw.
    destruct w as [h u]. apply elem_of_zip_l in Hw. simpl.
    rewrite Z2Nat.id by by apply home_nonneg. done.
Qed.

Lemma committed_disk :
  apply_writes W d =
  <[Z.to_nat ls := header [] (header hs old)]> (apply_writes (zip hs vs) logged).
Proof.
  unfold commit_writes. rewrite apply_writes_app.
  change (apply_writes ((ls, header hs old) :: ?w) ?e)
    with (apply_writes w (<[Z.to_nat ls := header hs old]> e)).
  fold logged. by rewrite apply_writes_app.
Qed.

Lemma committed_block m : ~ in_log ls m -> apply_writes W d !! m = new_block m.
Proof.
  destruct logged_facts as (L1 & _ & _ & L4). intros Hm. rewrite committed_disk, hdr_out by done.
  apply install_new; [done| |done]. intros. by apply L4.
Qed.

Lemma crash_after : recovers (apply_writes W d) new_block.
Proof.
  destruct logged_facts as (L1 & _ & _ & _). destruct Harea as [H1 H2]. destruct Hcfg as [Hl _].
  change LOGSIZE with 30 in H2.
  assert (Hh : length (header hs old) = 512%nat) by (rewrite header_length by (done || lia); done).
  apply (recovers_empty _ (header [] (header hs old))).
  - rewrite committed_disk. apply list_lookup_insert_eq. rewrite length_apply_writes. lia.
  - unfold header at 1. cbn [put_blocks]. rewrite length_put_word; lia.
  - apply header_nil_names. lia.
  - exact committed_block.
Qed.

(** A crash after [k] of the writes. *)
Lemma crash_any k :
  recovers (apply_writes (take k W) d)
    (fun m => if bool_decide (k <= length hs)%nat then d !! m else new_block m).
Proof.
  case_bool_decide as Hk; [by apply crash_before|].
  pose proof vs_len as Hvl. destruct (decide (k <= 2 * length hs + 1)%nat) as [Hk2|Hk2].
  - unfold commit_writes. rewrite take_app, length_at_blocks, Hvl.
    rewrite (take_ge (at_blocks _ _)) by (rewrite length_at_blocks; lia).
    replace (k - length hs)%nat with (S (k - length hs - 1)) by lia. cbn [take].
    rewrite take_app_le by (rewrite length_zip_with; lia).
    rewrite apply_writes_app. apply crash_installing.
  - rewrite take_ge; [apply crash_after|]. unfold commit_writes.
    rewrite length_app, length_at_blocks, Hvl. simpl.
    rewrite length_app, length_zip_with, Hvl. simpl. lia.
Qed.

End Crash.

(** ** The theorems *)

Lemma recovers_run s2 ls nd c :
  recovers ls nd (disk (fs s2)) c -> idle s2 -> crep (fs s2) ∅ [] -> log_cfg (fs s2) ls nd ->
  length (disk (fs s2)) = nd ->
  exists f2 hd, recover_from_log s2 = Ok tt (set_fs f2 s2) /\ crep f2 ∅ [] /\
    disk f2 !! Z.to_nat ls = Some hd /\ word 4 hd 0 = 0 /\ lh_n (log_lh (logst f2)) = 0 /\
    forall m, ~ in_log ls m -> disk f2 !! m = c m.
Proof.
  intros (hd & hs & us & Hhd & Hh4 & Hn & Hh & Hl & Hus & Hc) Hi Hcr Hcfg Hd.
  destruct (lc_area _ _ _ Hcfg) as [H1 H2]. change LOGSIZE with 30 in H2.
  destruct (recover_ok s2 (fs s2) ls nd (disk (fs s2)) (dwrites (fs s2)) hd hs us Hi)
    as (r & f2 & E & f1 & En & Fr & Ed & Ew & Hcr'); try done.
  destruct r. exists f2, (header [] hd). rewrite apply_writes_app in Ed.
  change (apply_writes [(ls, ?v)] ?e) with (<[Z.to_nat ls := v]> e) in Ed.
  split_and!; [done|done| | | |].
  - rewrite Ed. apply list_lookup_insert_eq. rewrite length_apply_writes. lia.
  - by apply header_nil_names.
  - by rewrite (fr_log _ _ Fr).
  - intros m Hm. rewrite Ed, list_lookup_insert_ne; [by apply Hc|].
    unfold in_log in Hm. change LOGSIZE with 30 in Hm. lia.
Qed.

(** A transaction that is ready to commit: it changed the blocks [hs], their new
    contents wait in the cache, and the log on the disk is empty. *)
Record txn (s : kstate) (ls : Z) (hs : list Z) (D : gmap Z (list byte)) : Prop := mk_txn {
  tx_idle : idle s;
  tx_cache : crep (fs s) D [];
  tx_log : log_ok (fs s) ls hs (length (disk (fs s)));
  tx_nodup : NoDup hs;
  tx_pending : forall m, is_Some (D !! m) <-> m ∈ hs;
  tx_clean : exists old, disk (fs s) !! Z.to_nat ls = Some old /\ length old = BLK /\ word 4 old 0 = 0;
  tx_some : hs <> [];
}.

(** C1: a transaction is atomic.  [commit] writes the changed blocks to their
    places and leaves an empty log; and if the machine stops after any number [k]
    of the block writes it makes, recovery at the next boot ends with an empty
    log and a disk that holds, outside the log, the old contents if the header
    of the log was not written yet, and all of the new contents otherwise. *)
Theorem commit_atomic s ls hs D :
  txn s ls hs D ->
  exists f' W, commit s = Ok tt (set_fs f' s) /\ crep f' ∅ [] /\ lh_n (log_lh (logst f')) = 0 /\
    dwrites f' = rev W ++ dwrites (fs s) /\ disk f' = apply_writes W (disk (fs s)) /\
    (forall m, ~ in_log ls m -> disk f' !! m = new_block (disk (fs s)) D m) /\
    forall k s2, idle s2 -> crep (fs s2) ∅ [] -> log_cfg (fs s2) ls (length (disk (fs s))) ->
      disk (fs s2) = apply_writes (take k W) (disk (fs s)) ->
      exists f2 hd, recover_from_log s2 = Ok tt (set_fs f2 s2) /\ crep f2 ∅ [] /\
        disk f2 !! Z.to_nat ls = Some hd /\ word 4 hd 0 = 0 /\ lh_n (log_lh (logst f2)) = 0 /\
        forall m, ~ in_log ls m ->
          disk f2 !! m = if bool_decide (k <= length hs)%nat then disk (fs s) !! m
                         else new_block (disk (fs s)) D m.
Proof.
  intros []. destruct tx_clean0 as (old & Hold & Hblk & H0).
  destruct (log_ok_cfg _ _ _ _ tx_log0) as [Hcfg Hhomes]. pose proof (lc_area _ _ _ Hcfg) as Harea.
  set (vs := (fun h => default [] (D !! h)) <$> hs).
  assert (Hvs : Forall2 (fun h v => D !! h = Some v) hs vs).
  { unfold vs. apply Forall2_fmap_r, Forall_Forall2_diag, Forall_forall. intros h Hh.
    apply tx_pending0 in Hh as [v Hv]. simpl. by rewrite Hv. }
  assert (HD : forall m v, D !! m = Some v -> m ∈ hs) by (intros m v Hm; apply tx_pending0; by eexists).
  destruct (commit_ok (fs s) ls _ hs vs (disk (fs s)) (dwrites (fs s)) D old tx_log0 eq_refl Hold
    tx_nodup0 Hvs HD s tx_idle0) as (r & f' & E & Fr & Ed & Ew & Hc); [|done|].
  { by apply st_refl. }
  destruct r. exists f', (commit_writes ls hs vs old). split_and!; try done.
  - by rewrite (fr_log _ _ Fr).
  - intros m Hm. rewrite Ed. by eapply committed_block.
  - intros k s2 Hi2 Hc2 Hcfg2 Hd2. eapply recovers_run; [|done|done|done|].
    + rewrite Hd2. by apply (crash_any ls _ hs vs).
    + by rewrite Hd2, length_apply_writes.
Qed.

(** ** A transaction of one block on the demonstration disk *)

Module LogDemo.

Definition text : list byte := replicate BLK Byte.x5a.

(** Block 36, the root directory, changed in buffer 0 and named in the log. *)
Definition changed (f : fsys) : buf :=
  mk_buf (dirty_flags true) 1 36 0 (b_prev (bufs f !!! 0%nat)) (b_next (bufs f !!! 0%nat)) text.
Definition log_of (committing n : Z) (bl : list Z) : log :=
  mk_log 2 30 0 committing 1 (mk_logheader n bl).
Definition change_root (s : kstate) : kstate :=
  set_fs (set_logst (log_of 1 1 (36 :: replicate 29 0))
            (with_buf (fs s) 0 (changed (fs s)) (mk_sleeplock 0 "buffer" 0))) s.
Definition state : kstate := change_root (CacheDemo.kernel DemoFs.image).
Definition pending : gmap Z (list byte) := {[36 := text]}.

(** The kernel that boots on the disk [d], once it knows where the log is. *)
Definition know_log (s : kstate) : kstate := set_fs (set_logst (log_of 0 0 (replicate 30 0)) (fs s)) s.
Definition reboot (d : list (list byte)) : kstate := know_log (CacheDemo.kernel d).

Lemma change_root_cache s :
  arep (fs s) (replicate NBUF Unused) -> disk (fs s) = DemoFs.image ->
  crep (fs (change_root s)) pending [].
Proof.
  intros Har Hd. apply crep_logst. exists (<[0%nat := Dirty 36 text]> (replicate NBUF Unused)).
  destruct (lookup_lt_is_Some_2 (bufs (fs s)) 0) as [x Hx];
    [rewrite (ar_bufs _ _ Har); unfold NBUF; lia|].
  split; [|split_and!].
  - eapply (arep_change_same (fs s) _ _ 0 Unused _ x (changed (fs s)) (mk_sleeplock 0 "buffer" 0) Har);
      try done.
    + unfold changed. by rewrite (list_lookup_total_correct _ _ _ Hx).
    + unfold changed. by rewrite (list_lookup_total_correct _ _ _ Hx).
    + cbn. rewrite Hd. split_and!; try done; vm_compute; done.
    + intros n _. right. intros b a Ha. apply lookup_replicate in Ha as [-> _]. done.
  - intros n v. unfold pending. rewrite lookup_singleton_Some.
    setoid_rewrite (lookup_change (replicate NBUF Unused) 0 Unused _ _ _ eq_refl). split.
    + intros [<- <-]. exists 0%nat. by left.
    + intros [b [[_ E]|[_ E]]]; [by simplify_eq|]. by apply lookup_replicate in E as [? _].
  - intros b n v w. split; [by intros ?%not_elem_of_nil|].
    rewrite (lookup_change (replicate NBUF Unused) 0 Unused _ _ _ eq_refl).
    intros [[_ ?]|[_ E]]; [done|]. by apply lookup_replicate in E as [? _].
  - constructor.
Qed.

Lemma change_root_ready s :
  idle s -> arep (fs s) (replicate NBUF Unused) -> disk (fs s) = DemoFs.image ->
  txn (change_root s) 2 [36] pending.
Proof.
  intros Hi Har Hd. assert (Hd' : disk (fs (change_root s)) = DemoFs.image) by exact Hd.
  constructor.
  - by apply idle_set_fs.
  - by apply change_root_cache.
  - rewrite Hd'. constructor; try done.
    + by exists (replicate 29 0).
    + simpl. lia.
    + apply Forall_singleton. change LOGSIZE with 30. change (length DemoFs.image) with 120%nat. lia.
  - apply NoDup_singleton.
  - intros m. unfold pending. rewrite list_elem_of_singleton. split.
    + intros [v [<- _]%lookup_singleton_Some]. done.
    + intros ->. by eexists; apply lookup_singleton_eq.
  - exists DemoFs.blank. rewrite Hd'. split_and!; vm_compute; done.
  - done.
Qed.

Lemma ready : txn state 2 [36] pending.
Proof.
  apply change_root_ready; [apply CacheDemo.idle_kernel| |apply CacheDemo.disk_kernel].
  eapply inited_arep, CacheDemo.inited_kernel.
Qed.

Lemma change_root_disk s : disk (fs (change_root s)) = disk (fs s).
Proof. reflexivity. Qed.

Lemma state_disk : disk (fs state) = DemoFs.image.
Proof. unfold state. rewrite change_root_disk. apply CacheDemo.disk_kernel. Qed.

Lemma know_log_ok s d :
  idle s -> crep (fs s) ∅ [] -> disk (fs s) = d -> length d = length DemoFs.image ->
  idle (know_log s) /\ crep (fs (know_log s)) ∅ [] /\
  log_cfg (fs (know_log s)) 2 (length DemoFs.image) /\ disk (fs (know_log s)) = d.
Proof.
  intros Hi Hc Hd Hl. split_and!; [by apply idle_set_fs|by apply crep_logst| |done].
  by constructor.
Qed.

Lemma reboot_ok d :
  length d = length DemoFs.image ->
  idle (reboot d) /\ crep (fs (reboot d)) ∅ [] /\
  log_cfg (fs (reboot d)) 2 (length DemoFs.image) /\ disk (fs (reboot d)) = d.
Proof.
  intros Hd. apply know_log_ok; [apply CacheDemo.idle_kernel| |apply CacheDemo.disk_kernel|done].
  eapply inited_crep, CacheDemo.inited_kernel.
Qed.

End LogDemo.

(** The crash after the second write, when the header is on the disk and the
    block is not installed yet: recovery installs it. *)
Lemma commit_atomic_witness : exists f' W f2,
  commit LogDemo.state = Ok tt (set_fs f' LogDemo.state) /\
  recover_from_log (LogDemo.reboot (apply_writes (take 2 W) DemoFs.image)) =
    Ok tt (set_fs f2 (LogDemo.reboot (apply_writes (take 2 W) DemoFs.image))) /\
  disk f2 !! 36%nat = Some LogDemo.text.
Proof.
  destruct (commit_atomic LogDemo.state 2 [36] LogDemo.pending LogDemo.ready)
    as (f' & W & E & _ & _ & _ & _ & _ & Hcrash).
  rewrite LogDemo.state_disk in Hcrash.
  destruct (LogDemo.reboot_ok (apply_writes (take 2 W) DemoFs.image)) as (H1 & H2 & H3 & H4);
    [apply length_apply_writes|].
  destruct (Hcrash 2%nat _ H1 H2 H3 H4) as (f2 & hd & E2 & _ & _ & _ & _ & Hb).
  exists f', W, f2. split_and!; [exact E|exact E2|].
  rewrite (Hb 36%nat); [reflexivity|]. unfold in_log. change LOGSIZE with 30. lia.
Defined.

(** C5: the buffer cache is a disk with pending writes.  In a state where the
    running process holds the blocks [H] and the blocks [D] wait for the log,
    [bread] of a block that it does not hold returns, locked, the pending
    contents if there are any and those of the disk otherwise, as long as less
    than [NBUF] blocks are in use; [bwrite] puts the data of a held block on the
    disk; [brelse] makes it available again, pending if it was logged.  None of
    them loses a pending block or touches anything else in the kernel. *)
Theorem bcache_refines_blocks s D H :
  idle s -> crep (fs s) D H ->
  (forall n, 0 <= n < Z.of_nat (length (disk (fs s))) -> n ∉ map h_no H ->
     is_Some (D !! n) \/ (size D + length H < NBUF)%nat ->
     exists b f', bread 1 n s = Ok b (set_fs f' s) /\ frame (fs s) f' /\ disk f' = disk (fs s) /\
       crep f' (delete n D)
         (mk_handle b n (blk (disk (fs s)) D n) (bool_decide (is_Some (D !! n))) :: H)) /\
  (forall b n v w H', H ≡ₚ mk_handle b n v w :: H' ->
     exists f', bwrite b s = Ok tt (set_fs f' s) /\ frame (fs s) f' /\
       disk f' = <[Z.to_nat n := v]> (disk (fs s)) /\ crep f' D (mk_handle b n v false :: H')) /\
  (forall b n v w H', H ≡ₚ mk_handle b n v w :: H' ->
     (w = false -> disk (fs s) !! Z.to_nat n = Some v) ->
     exists f', brelse b s = Ok tt (set_fs f' s) /\ frame (fs s) f' /\ disk f' = disk (fs s) /\
       crep f' (if w then <[n := v]> D else D) H').
Proof.
  intros Hi Hc. split_and!.
  - intros n Hn Hh Hsp. destruct (crep_bread s D H Hi n Hc Hn Hh Hsp) as (b & f' & ? & ? & ? & _ & ?).
    eauto 8.
  - intros b n v w H' E. rewrite E in Hc.
    destruct (crep_bwrite s D H' b n v w Hi Hc) as (f' & ? & ? & ? & _ & ?). eauto 8.
  - intros b n v w H' E Hv. rewrite E in Hc.
    destruct (crep_brelse s D H' b n v w Hi Hc Hv) as (f' & ? & ? & ? & _ & ?). eauto 8.
Qed.

(** The pending root directory of the transaction above. *)
Lemma bcache_refines_blocks_witness : exists b f',
  bread 1 36 LogDemo.state = Ok b (set_fs f' LogDemo.state) /\
  crep f' ∅ [mk_handle b 36 LogDemo.text true].
Proof.
  destruct (bcache_refines_blocks LogDemo.state LogDemo.pending [] (tx_idle _ _ _ _ LogDemo.ready)
    (tx_cache _ _ _ _ LogDemo.ready)) as [Hb _].
  destruct (Hb 36) as (b & f' & E & _ & _ & Hc).
  - rewrite LogDemo.state_disk. cbn. lia.
  - apply not_elem_of_nil.
  - left. by eexists.
  - exists b, f'. split; [exact E|]. exact Hc.
Defined.
