(* ===== verification/Txn.v ===== *)
(** * Transactions

    [begin_op], [log_write] and [end_op] around the updates of a system call:
    the reservation of log space, the absorption of repeated writes, and the
    commit at the end of the last operation. *)

From stdpp Require Import gmap.
From S2P Require Import Prelude Memory FsState Machine Spinlock Kalloc Proc Sleeplock Bio Lru.
From S2P Require Import BioSpec Blocks Log LogSpec Demo DemoFs CacheInit LogCrash Resume.
Local Open Scope Z_scope.
Local Open Scope kernel_scope.

(** ** Code that runs with a lock held and releases it *)

Definition locked_runs {R} (lk : Z) (m : K R) (s : kstate) (Q : R -> fsys -> Prop) : Prop :=
  exists r f', m (locked_state lk s) = Ok r (set_fs f' s) /\ Q r f'.

Section Locked.
Context (lk : Z) (s : kstate).
Hypothesis Hidle : idle s.
Hypothesis Hfree : lock_free lk s.

Lemma runs_acquire {R} (k : K R) Q : locked_runs lk k s Q -> runs (acquire lk ;; k) s Q.
Proof.
  intros (r & f' & E & HQ). exists r, f'. split; [|done].
  by rewrite (bind_ok _ _ _ _ _ (acquire_free _ _ Hfree)).
Qed.

Lemma locked_bind {R T} (m : K R) (k : R -> K T) P Q :
  runs m (locked_state lk s) P ->
  (forall r f', P r f' -> locked_runs lk (k r) (set_fs f' s) Q) -> locked_runs lk (bind m k) s Q.
Proof.
  intros (r & f' & E & HP) Hk. destruct (Hk r f' HP) as (r2 & f2 & E2 & HQ).
  exists r2, f2. split; [|done]. by rewrite (bind_ok _ _ _ _ _ E).
Qed.

Lemma locked_gets {R T} (g : kstate -> R) (k : R -> K T) Q :
  locked_runs lk (k (g (locked_state lk s))) s Q -> locked_runs lk (bind (gets g) k) s Q.
Proof. intros (r & f' & E & HQ). exists r, f'. split; [|done]. by rewrite bind_gets. Qed.

Lemma locked_release (Q : unit -> fsys -> Prop) : Q tt (fs s) -> locked_runs lk (release lk) s Q.
Proof.
  intros HQ. exists tt, (fs s). split; [|done].
  exact (release_idle lk s (fs s) Hfree (idle_cpu _ Hidle) (idle_norm _ Hidle)).
Qed.

(** The last critical section before more code. *)
Lemma locked_release_then {R} (k : K R) Q : runs k s Q -> locked_runs lk (release lk ;; k) s Q.
Proof.
  intros (r & f' & E & HQ). exists r, f'. split; [|done].
  rewrite (bind_ok _ _ _ _ _ (release_idle lk s (fs s) Hfree (idle_cpu _ Hidle) (idle_norm _ Hidle))).
  by replace (set_fs (fs s) s) with s by by destruct s.
Qed.

End Locked.

Lemma runs_put_log g s :
  runs (put_log g) s (fun _ f' => f' = set_logst (g (logst (fs s))) (fs s)).
Proof. by eexists _, _. Qed.

(** ** begin_op *)

Lemma begin_op_ok s :
  idle s -> log_committing (logst (fs s)) = 0 ->
  lh_n (log_lh (logst (fs s))) + (log_outstanding (logst (fs s)) + 1) * MAXOPBLOCKS <= LOGSIZE ->
  runs begin_op s (fun _ f' => f' =
    set_logst (set_outstanding (log_outstanding (logst (fs s)) + 1) (logst (fs s))) (fs s)).
Proof.
  intros Hi H0 Hroom. unfold begin_op. apply runs_acquire; [apply (idle_log _ Hi)|].
  unfold wait_limit. cbn [begin_op_loop]. apply locked_gets. cbn [fs locked_state set_locks set_cpu].
  rewrite H0. change (negb (0 =? 0)) with false. cbn [orb].
  rewrite (proj2 (Z.ltb_ge _ _)) by lia.
  eapply locked_bind; [apply runs_put_log|]. cbv beta. intros _ f' ->.
  apply locked_release; [by apply idle_set_fs|apply (idle_log _ Hi)|done].
Qed.

(** ** log_write *)

Lemma log_index_spec n : forall hs rest, (forall h, h ∈ hs -> u32 h = h) ->
  log_index (hs ++ rest) (length hs) n =
  match list_find (fun h => h = n) hs with Some (i, _) => i | None => length hs end.
Proof.
  induction hs as [|h hs IH]; intros rest Hr; cbn [app length log_index list_find].
  - by destruct rest.
  - rewrite (Hr h) by set_solver. destruct (Z.eqb_spec h n) as [E|E].
    + by rewrite decide_True.
    + rewrite decide_False by done. rewrite IH by set_solver.
      by destruct (list_find _ hs) as [[i x]|].
Qed.

(** The header after block [n] was logged. *)
Definition logged_in (hs : list Z) (n : Z) : list Z :=
  if bool_decide (n ∈ hs) then hs else hs ++ [n].

Lemma logged_in_elem hs n m : m ∈ logged_in hs n <-> m = n \/ m ∈ hs.
Proof. unfold logged_in. case_bool_decide; set_solver. Qed.

Lemma logged_in_NoDup hs n : NoDup hs -> NoDup (logged_in hs n).
Proof.
  intros Hn. unfold logged_in. case_bool_decide; [done|].
  apply NoDup_app. split_and!; [done|set_solver|apply NoDup_singleton].
Qed.

Lemma logged_in_length hs n : (length (logged_in hs n) <= S (length hs))%nat.
Proof. unfold logged_in. case_bool_decide; [lia|]. rewrite length_app. simpl. lia. Qed.

Lemma home_u32 f0 ls hs nd h : log_ok f0 ls hs nd -> h ∈ hs -> u32 h = h.
Proof.
  intros Hl Hh. pose proof (lo_home _ _ _ _ Hl) as Hf. rewrite Forall_forall in Hf.
  destruct (Hf h Hh) as [Hr _]. destruct (lo_area _ _ _ _ Hl). apply u32_small. lia.
Qed.

Lemma find_at (n : Z) hs i h : list_find (fun h => h = n) hs = Some (i, h) -> hs !! i = Some n /\ n ∈ hs.
Proof.
  intros (Hi & -> & _)%list_find_Some. split; [done|]. by eapply list_elem_of_lookup_2.
Qed.

Lemma locked_get_buf {T} lk b x (k : buf -> K T) s Q :
  get_buf b (locked_state lk s) = Ok x (locked_state lk s) ->
  locked_runs lk (k x) s Q -> locked_runs lk (bind (get_buf b) k) s Q.
Proof. intros E (r & f' & E' & HQ). exists r, f'. split; [|done]. by rewrite (bind_ok _ _ _ _ _ E). Qed.

Lemma R_put_lh s f0 d ws D H i v :
  st f0 d ws D H (fs s) -> (i < length (lh_block (log_lh (logst f0))))%nat ->
  runs (put_lh i v) s (fun _ f' =>
    st (with_lh f0 (lh_n (log_lh (logst f0))) (<[i := v]> (lh_block (log_lh (logst f0))))) d ws D H f').
Proof.
  intros Hst Hi. unfold put_lh, get_log. apply runs_gets.
  assert (logst (fs s) = logst f0) as -> by (by destruct Hst as ([] & _)).
  rewrite bool_decide_true by done. eapply runs_mono; [by apply R_put_log|]. intros ? f'. done.
Qed.

Section LogWrite.
Context (f0 : fsys) (ls : Z) (hs : list Z) (nd : nat) (n : Z).
Hypothesis Hlog : log_ok f0 ls hs nd.
Hypothesis Hn : 0 <= n < Z.of_nat nd /\ ~ (ls <= n < ls + LOGSIZE).
Hypothesis Hroom : (length hs < 29)%nat.

Lemma n_small : u32 n = n /\ s32 n = n.
Proof.
  destruct (lo_area _ _ _ _ Hlog) as [_ [_ H]]. split; [apply u32_small; lia|].
  unfold s32. rewrite Z.mod_small by lia. rewrite (proj2 (Z.ltb_lt _ _)); lia.
Qed.

(** What the header in memory becomes: an entry is reused or appended. *)
Lemma logged_ok :
  exists rest i, lh_block (log_lh (logst f0)) = hs ++ rest /\
    log_index (lh_block (log_lh (logst f0))) (length hs) n = i /\
    (i < length (hs ++ rest))%nat /\
    let bl := <[i := n]> (hs ++ rest) in
    let k := if Z.of_nat i =? Z.of_nat (length hs) then Z.of_nat (length hs) + 1
             else Z.of_nat (length hs) in
    log_ok (with_lh f0 k bl) ls (logged_in hs n) nd.
Proof.
  destruct (lo_blocks _ _ _ _ Hlog) as [rest Er]. pose proof (lo_len _ _ _ _ Hlog) as Hl.
  pose proof (log_ok_cfg _ _ _ _ Hlog) as [Hc [_ Hh]].
  exists rest, (log_index (hs ++ rest) (length hs) n). rewrite Er in *.
  rewrite log_index_spec by (intros h; by eapply home_u32).
  split; [done|]. split; [done|]. rewrite length_app in Hl. unfold logged_in.
  destruct (list_find (fun h => h = n) hs) as [[i h]|] eqn:Ef.
  - apply find_at in Ef as [Hi Hin]. pose proof (lookup_lt_Some _ _ _ Hi) as Hlt.
    rewrite bool_decide_true by done. rewrite length_app. split; [lia|]. cbv zeta.
    rewrite (proj2 (Z.eqb_neq _ _)) by lia.
    rewrite list_insert_id by (by rewrite lookup_app_l).
    apply log_ok_with; [done|split; [lia|done]|by rewrite length_app].
  - assert (Hin : n ∉ hs).
    { intros Hin. rewrite list_find_None, Forall_forall in Ef. by apply (Ef n Hin). }
    rewrite bool_decide_false by done. rewrite length_app. split; [lia|]. cbv zeta.
    rewrite Z.eqb_refl. destruct rest as [|x rest]; [simpl in Hl; lia|].
    rewrite insert_app_r_alt, Nat.sub_diag by lia. cbn [insert list_insert].
    replace (Z.of_nat (length hs) + 1) with (Z.of_nat (length (hs ++ [n])))
      by (rewrite length_app; simpl; lia).
    change (n :: rest) with ([n] ++ rest). rewrite app_assoc.
    apply log_ok_with; [done| |rewrite !length_app; simpl in *; lia].
    split; [rewrite length_app; simpl; lia|]. apply Forall_app. by split; [|apply Forall_singleton].
Qed.

Context (s : kstate) (d : list (list byte)) (ws : list (Z * list byte)).
Context (D : gmap Z (list byte)) (H : list handle) (b : nat) (v : list byte) (w : bool).
Hypothesis Hidle : idle s.
Hypothesis Hst : st f0 d ws D (mk_handle b n v w :: H) (fs s).
Hypothesis Hsize : Z.of_nat (length hs) < log_size (logst f0) - 1.
Hypothesis Hout : 1 <= log_outstanding (logst f0).

Lemma log_write_ok :
  runs (log_write b) s (fun _ f' => exists k bl,
    st (with_lh f0 k bl) d ws D (mk_handle b n v true :: H) f' /\
    log_ok (with_lh f0 k bl) ls (logged_in hs n) nd).
Proof.
  assert (Hl : logst (fs s) = logst f0) by (destruct Hst as ([] & _); done).
  destruct n_small as [Hu32 Hs32].
  unfold log_write, get_log. apply runs_gets. rewrite Hl, (lo_n _ _ _ _ Hlog).
  change LOGSIZE with 30. rewrite (proj2 (Z.leb_gt 30 _)) by lia.
  rewrite (proj2 (Z.leb_gt (_ - 1) _)) by lia. cbn [orb].
  rewrite (proj2 (Z.ltb_ge _ _)) by lia.
  apply runs_acquire; [apply (idle_log _ Hidle)|]. apply locked_gets. cbn [fs locked_state set_locks set_cpu].
  destruct (R_get (locked_state log_lock s) _ _ _ _ _ _ Hst ltac:(by left)) as (x & Ex & Dx & Nx & Fx).
  cbn [h_buf h_data h_no h_dirty] in *.
  eapply locked_get_buf; [exact Ex|]. rewrite Hl, (lo_n _ _ _ _ Hlog), Nat2Z.id, Nx, Hs32.
  destruct logged_ok as (rest & i & Er & -> & Hi & Hok). cbv zeta in Hok.
  rewrite <- Er in Hi, Hok.
  eapply locked_bind; [apply (R_put_lh (locked_state log_lock s) _ _ _ _ _ i n Hst Hi)|].
  cbv beta. intros _ f1 S1. rewrite (lo_n _ _ _ _ Hlog) in S1.
  set (bl := <[i := n]> _) in *. set (k := if Z.of_nat i =? _ then _ else _ : Z) in Hok.
  eapply (locked_bind _ _ _ _ (fun _ f' => st (with_lh f0 k bl) d ws D (mk_handle b n v w :: H) f')).
  { unfold k. destruct (Z.of_nat i =? Z.of_nat (length hs)).
    - eapply runs_mono; [apply (R_put_log (locked_state log_lock (set_fs f1 s)) _ _ _ _ _ _ S1)|].
      intros ? f'. done.
    - by apply runs_ret. }
  cbv beta. intros _ f2 S2.
  eapply locked_bind.
  { apply (R_upd (locked_state log_lock (set_fs f2 s)) _ _ _ _ _ b n v w _ v true S2).
    intros y Hy Fy. unfold set_flags. rewrite Hy, Fx. by destruct w. }
  cbv beta. intros _ f3 S3. apply locked_release; [by repeat apply idle_set_fs|apply (idle_log _ Hidle)|].
  exists k, bl. done.
Qed.

End LogWrite.

(** ** One update of a system call *)

Definition update_block (n : Z) (v : list byte) : K unit :=
  b <- bread 1 n ;;
  upd_buf b (set_data v) ;;
  log_write b ;;
  brelse b.

(** The only operation in progress, which changed the blocks [hs]. *)
Record active (f0 : fsys) (ls : Z) (hs : list Z) (nd : nat) (D : gmap Z (list byte)) : Prop := mk_active {
  ac_log : log_ok f0 ls hs nd;
  ac_nodup : NoDup hs;
  ac_pending : forall m, is_Some (D !! m) <-> m ∈ hs;
  ac_size : log_size (logst f0) = LOGSIZE;
  ac_out : log_outstanding (logst f0) = 1;
  ac_committing : log_committing (logst f0) = 0;
}.

Lemma active_size f0 ls hs nd D : active f0 ls hs nd D -> (size D <= length hs)%nat.
Proof.
  intros Ha. eapply pending_size. intros m v Hm. apply (ac_pending _ _ _ _ _ Ha). by eexists.
Qed.

Lemma update_ok s f0 ls hs nd d ws D n v :
  idle s -> st f0 d ws D [] (fs s) -> active f0 ls hs nd D -> length d = nd -> (length hs < 29)%nat ->
  0 <= n < Z.of_nat nd /\ ~ (ls <= n < ls + LOGSIZE) ->
  runs (update_block n v) s (fun _ f' => exists f1,
    st f1 d ws (<[n := v]> D) [] f' /\ active f1 ls (logged_in hs n) nd (<[n := v]> D)).
Proof.
  intros Hidle Hst Ha Hd Hroom Hn. pose proof (active_size _ _ _ _ _ Ha) as Hsz.
  unfold update_block.
  eapply runs_bind; [apply (R_bread s f0 d ws D [] Hidle n Hst);
    [lia|apply not_elem_of_nil|right; simpl; unfold NBUF; lia]|].
  cbv beta. intros b f1 S1.
  eapply runs_bind; [eapply (R_set_data (set_fs f1 s) f0 d ws _ _); exact S1|].
  cbv beta. intros _ f2 S2.
  eapply runs_bind.
  { eapply (log_write_ok f0 ls hs nd n (ac_log _ _ _ _ _ Ha) Hn Hroom (set_fs f2 s) d ws);
      [by apply idle_set_fs|exact S2| |].
    - rewrite (ac_size _ _ _ _ _ Ha). change LOGSIZE with 30. lia.
    - rewrite (ac_out _ _ _ _ _ Ha). lia. }
  cbv beta. intros _ f3 (k & bl & S3 & Hok).
  eapply runs_mono; [eapply (R_brelse (set_fs f3 s) _ _ _ _ _ (idle_set_fs s f3 Hidle)); [exact S3|done]|].
  cbv beta iota. intros _ f4 S4. rewrite insert_delete_eq in S4. exists (with_lh f0 k bl).
  split; [done|]. destruct Ha. constructor; try done; [by apply logged_in_NoDup|].
  intros m. rewrite logged_in_elem, <- ac_pending0. destruct (decide (m = n)) as [->|Hne].
  - rewrite lookup_insert_eq. split; [by left|]. intros _. by eexists.
  - rewrite lookup_insert_ne by done. split; [by right|]. by intros [?|?].
Qed.

(** The updates of a system call. *)
Definition pending_of (ups : list (Z * list byte)) (D : gmap Z (list byte)) : gmap Z (list byte) :=
  foldl (fun D u => <[fst u := snd u]> D) D ups.

Lemma updates_ok ls nd d ws ups : forall s f0 hs D,
  idle s -> st f0 d ws D [] (fs s) -> active f0 ls hs nd D -> length d = nd ->
  (length hs + length ups <= 29)%nat ->
  Forall (fun u => 0 <= fst u < Z.of_nat nd /\ ~ (ls <= fst u < ls + LOGSIZE)) ups ->
  runs (for_each ups (fun u => update_block (fst u) (snd u))) s (fun _ f' => exists f1 hs',
    st f1 d ws (pending_of ups D) [] f' /\ active f1 ls hs' nd (pending_of ups D)).
Proof.
  induction ups as [|[n v] ups IH]; intros s f0 hs D Hidle Hst Ha Hd Hroom Hups; cbn [for_each].
  - apply runs_ret. eauto.
  - apply Forall_cons in Hups as [Hn Hups]. cbn [fst snd] in *. simpl in Hroom.
    eapply runs_bind; [eapply (update_ok s); [done|exact Hst|exact Ha|done|lia|exact Hn]|].
    cbv beta. intros _ f1 (f2 & S1 & Ha1).
    apply (IH (set_fs f1 s) f2 (logged_in hs n)); [by apply idle_set_fs|done..| |done].
    pose proof (logged_in_length hs n). lia.
Qed.

(** ** end_op *)

Lemma wakeup_log s : idle s ->
  runs (wakeup log_chan) (locked_state log_lock s) (fun _ f' => f' = fs s).
Proof.
  intros Hi. exists tt, (fs s). split; [|done].
  change (set_fs (fs s) (locked_state log_lock s)) with (locked_state log_lock s).
  apply wakeup_nobody.
  - destruct (idle_ptable _ Hi) as [x Hx]. exists x. cbn. by rewrite lookup_alter_ne.
  - apply cpu_wf_pushcli, Hi.
  - apply cpu_norm_pushcli, Hi.
  - intros p Hp Hs. by apply (idle_sleep _ Hi p Hp Hs).
Qed.

(** A log that is empty on the disk. *)
Definition clean_log (ls : Z) (d : list (list byte)) : Prop :=
  exists hd, d !! Z.to_nat ls = Some hd /\ length hd = BLK /\ word 4 hd 0 = 0.

Lemma clear_empty f0 ls nd :
  log_ok f0 ls [] nd -> set_logst (set_n 0 (logst f0)) f0 = f0.
Proof.
  intros H. pose proof (lo_n _ _ _ _ H) as Hn. destruct f0 as [? ? ? ? l]. cbn in *.
  destruct l as [? ? ? ? ? [n bl]]. cbn in Hn. unfold set_n, set_logst, set_lh. cbn.
  by rewrite Hn.
Qed.

Lemma commit_active s f0 ls hs nd d ws D :
  idle s -> st f0 d ws D [] (fs s) -> log_ok f0 ls hs nd -> NoDup hs ->
  (forall m, is_Some (D !! m) <-> m ∈ hs) -> length d = nd -> clean_log ls d ->
  runs commit s (fun _ f' => exists d' ws',
    st (set_logst (set_n 0 (logst f0)) f0) d' ws' ∅ [] f' /\ clean_log ls d' /\
    forall m, ~ in_log ls m -> d' !! m = new_block d D m).
Proof.
  intros Hidle Hst Hlog Hnd HD Hd (old & Hold & Hblk & H0).
  assert (HD' : forall m v, D !! m = Some v -> m ∈ hs) by (intros m v Hm; apply HD; by eexists).
  destruct (decide (hs = [])) as [->|Hne].
  - assert (D = ∅) as ->.
    { apply map_empty. intros m. destruct (D !! m) eqn:E; [|done]. apply HD' in E. set_solver. }
    unfold commit, get_log. apply runs_gets. rewrite (same_log s f0 d ws ∅ Hst), (lo_n _ _ _ _ Hlog).
    change (0 <? Z.of_nat (length (@nil Z))) with false. cbv iota. apply runs_ret.
    exists d, ws. rewrite (clear_empty _ _ _ Hlog). split_and!; [done|by exists old|].
    intros m _. unfold new_block. by rewrite lookup_empty.
  - destruct (log_ok_cfg _ _ _ _ Hlog) as [Hcfg Hhomes]. pose proof (lc_area _ _ _ Hcfg) as Harea.
    set (vs := (fun h => default [] (D !! h)) <$> hs).
    assert (Hvs : Forall2 (fun h v => D !! h = Some v) hs vs).
    { unfold vs. apply Forall2_fmap_r, Forall_Forall2_diag, Forall_forall. intros h Hh.
      apply HD in Hh as [v Hv]. simpl. by rewrite Hv. }
    eapply runs_mono; [by eapply (commit_ok f0 ls nd hs vs d ws D old)|].
    cbv beta. intros _ f' S'. do 2 eexists. split; [exact S'|]. split; [|intros; by eapply committed_block].
    exists (header [] (header hs old)). destruct Hhomes as [Hl Hh]. change LOGSIZE with 30 in *.
    assert (Lh : length (header hs old) = BLK) by (apply header_length; [done|lia]).
    split_and!.
    + rewrite committed_disk. apply list_lookup_insert_eq. unfold logged.
      rewrite length_apply_writes, length_insert, length_apply_writes. lia.
    + apply header_length; [done|simpl; lia].
    + apply header_nil_names. rewrite Lh, BLK_512. lia.
Qed.

Lemma end_op_ok s f0 ls hs nd d ws D :
  idle s -> st f0 d ws D [] (fs s) -> active f0 ls hs nd D -> length d = nd -> clean_log ls d ->
  runs end_op s (fun _ f' => exists f1 d' ws', st f1 d' ws' ∅ [] f' /\ icache f1 = icache f0 /\
    clean_log ls d' /\ log_ok f1 ls [] nd /\ log_outstanding (logst f1) = 0 /\ log_committing (logst f1) = 0 /\
    forall m, ~ in_log ls m -> d' !! m = new_block d D m).
Proof.
  intros Hidle Hst Ha Hd Hclean. assert (Hl : logst (fs s) = logst f0) by (by destruct Hst as ([] & _)).
  unfold end_op. apply runs_acquire; [apply (idle_log _ Hidle)|]. apply locked_gets.
  cbn [fs locked_state set_locks set_cpu]. rewrite Hl, (ac_out _ _ _ _ _ Ha), (ac_committing _ _ _ _ _ Ha).
  change (1 - 1 =? 0) with true. change (negb (0 =? 0)) with false. cbv iota zeta.
  eapply locked_bind; [apply (R_put_log (locked_state log_lock s) _ _ _ _ _ _ Hst)|]. cbv beta. intros _ f1 S1.
  eapply locked_bind; [apply (R_put_log (locked_state log_lock (set_fs f1 s)) _ _ _ _ _ _ S1)|].
  cbv beta. intros _ f2 S2. cbn [logst set_logst] in S2.
  apply locked_release_then; [by repeat apply idle_set_fs|apply (idle_log _ Hidle)|].
  set (g := set_logst _ _) in S2.
  assert (Hg : log_ok g ls hs nd) by (destruct (ac_log _ _ _ _ _ Ha); by constructor).
  eapply runs_bind.
  { eapply (commit_active (set_fs f2 s) g ls hs nd d ws D); [by apply idle_set_fs|done|done|
      apply (ac_nodup _ _ _ _ _ Ha)|apply (ac_pending _ _ _ _ _ Ha)|done|done]. }
  cbv beta. intros _ f3 (d' & ws' & S3 & Hcl & Hnew).
  apply runs_acquire; [apply (idle_log _ Hidle)|].
  eapply locked_bind; [apply (R_put_log (locked_state log_lock (set_fs f3 s)) _ _ _ _ _ _ S3)|].
  cbv beta. intros _ f4 S4.
  eapply locked_bind; [apply (wakeup_log (set_fs f4 s)); by apply idle_set_fs|]. cbv beta. intros _ f5 ->.
  apply locked_release; [by repeat apply idle_set_fs|apply (idle_log _ Hidle)|].
  do 3 eexists. split; [exact S4|]. split; [done|]. split; [done|]. split_and!; [|done..].
  apply log_ok_cfg in Hg as [[] _]. constructor; try done.
  - by eexists.
  - simpl. lia.
Qed.

(** ** The theorems *)

Lemma begin_op_loop_reserves fuel : forall s u s',
  returns (begin_op_loop fuel s) u s' ->
  lh_n (log_lh (logst (fs s'))) + log_outstanding (logst (fs s')) * MAXOPBLOCKS <= LOGSIZE /\
  log_committing (logst (fs s')) = 0.
Proof.
  induction fuel as [|fuel IH]; intros s u s'; cbn [begin_op_loop];
    intros (l & s1 & [-> ->]%returns_ok_inv & H2)%returns_bind.
  all: destruct (negb _ || _) eqn:E in H2.
  - inversion H2.
  - apply orb_false_iff in E as [Ec En]. apply Z.ltb_ge in En.
    apply negb_false_iff, Z.eqb_eq in Ec.
    apply returns_bind in H2 as (u1 & s2 & [_ ->]%returns_ok_inv & (lo & c & ->)%returns_release).
    done.
  - apply returns_bind in H2 as (u1 & s2 & _ & H3). by eapply IH.
  - apply orb_false_iff in E as [Ec En]. apply Z.ltb_ge in En.
    apply negb_false_iff, Z.eqb_eq in Ec.
    apply returns_bind in H2 as (u1 & s2 & [_ ->]%returns_ok_inv & (lo & c & ->)%returns_release).
    done.
Qed.

(** C28: [begin_op] reserves log space.  However often it has to sleep, and
    whatever other processes do to the log meanwhile, when [begin_op] returns no
    commit is in progress, and the blocks in the log together with
    [MAXOPBLOCKS] blocks for every operation in progress, the new one included,
    fit the log. *)
Theorem begin_op_reserves s s' :
  returns (begin_op s) tt s' ->
  lh_n (log_lh (logst (fs s'))) + log_outstanding (logst (fs s')) * MAXOPBLOCKS <= LOGSIZE /\
  log_committing (logst (fs s')) = 0.
Proof. intros (u & s1 & _ & H)%returns_bind. by eapply begin_op_loop_reserves. Qed.

(** C9: a system call's updates are applied.  From a file system at rest,
    [begin_op], up to [MAXOPBLOCKS] updates of blocks through the cache with
    [log_write], and [end_op] return; afterwards every block outside the log
    has the contents of its last update, or its old contents if it was not
    updated, on the disk, the log is empty and no operation is in progress. *)
Theorem transaction_applies s ls ups :
  idle s -> crep (fs s) ∅ [] -> log_ok (fs s) ls [] (length (disk (fs s))) ->
  log_size (logst (fs s)) = LOGSIZE -> log_outstanding (logst (fs s)) = 0 ->
  log_committing (logst (fs s)) = 0 -> clean_log ls (disk (fs s)) ->
  Z.of_nat (length ups) <= MAXOPBLOCKS ->
  Forall (fun u => 0 <= fst u < Z.of_nat (length (disk (fs s))) /\
                   ~ (ls <= fst u < ls + LOGSIZE)) ups ->
  exists f', (begin_op ;; for_each ups (fun u => update_block (fst u) (snd u)) ;; end_op) s =
      Ok tt (set_fs f' s) /\
    crep f' ∅ [] /\ log_ok f' ls [] (length (disk (fs s))) /\ clean_log ls (disk f') /\
    log_outstanding (logst f') = 0 /\ log_committing (logst f') = 0 /\
    forall m, ~ in_log ls m -> disk f' !! m = new_block (disk (fs s)) (pending_of ups ∅) m.
Proof.
  intros Hidle Hc Hlog Hsize Hout Hcom Hclean Hlen Hups. change MAXOPBLOCKS with 10 in Hlen.
  assert (HR : runs (begin_op ;; for_each ups (fun u => update_block (fst u) (snd u)) ;; end_op) s
    (fun _ f' => exists f1 d' ws', st f1 d' ws' ∅ [] f' /\ clean_log ls d' /\
      log_ok f1 ls [] (length (disk (fs s))) /\ log_outstanding (logst f1) = 0 /\
      log_committing (logst f1) = 0 /\
      forall m, ~ in_log ls m -> d' !! m = new_block (disk (fs s)) (pending_of ups ∅) m)).
  { eapply runs_bind; [apply begin_op_ok; [done..|]|].
    { rewrite Hout, (lo_n _ _ _ _ Hlog). done. }
    cbv beta. intros _ f1 ->. rewrite Hout. set (f1 := set_logst _ _).
    eapply runs_bind.
    { eapply (updates_ok ls _ _ _ ups (set_fs f1 s) f1 [] ∅); [by apply idle_set_fs|
        apply st_refl, crep_logst, Hc| |reflexivity|simpl; lia|done].
      constructor; try done; [destruct Hlog; by constructor|constructor|].
      intros m. rewrite lookup_empty. split; [by intros [? ?]|set_solver]. }
    cbv beta. intros _ f2 (f3 & hs & S2 & Ha).
    eapply runs_mono; [by eapply (end_op_ok (set_fs f2 s)); [apply idle_set_fs|..]|].
    cbv beta. intros _ f4 (f5 & d' & ws' & S5 & _ & Hrest). by exists f5, d', ws'. }
  destruct HR as ([] & f' & E & f1 & d' & ws' & (Fr & <- & _ & Hc') & Hcl & Hlog' & Ho & Hcm & Hm).
  exists f'. rewrite (fr_log _ _ Fr). split_and!; try done.
  destruct Hlog'. constructor; rewrite ?(fr_log _ _ Fr); done.
Qed.

Module TxnDemo.

(** The demonstration kernel at rest, and a call that writes two blocks, the
    first of them twice. *)
Definition kernel : kstate := LogDemo.reboot DemoFs.image.
Definition ups : list (Z * list byte) :=
  [(50, replicate BLK Byte.x41); (51, replicate BLK Byte.x42); (50, LogDemo.text)].

Lemma facts :
  idle kernel /\ crep (fs kernel) ∅ [] /\ log_cfg (fs kernel) 2 (length DemoFs.image) /\
  disk (fs kernel) = DemoFs.image.
Proof. by apply LogDemo.reboot_ok. Qed.

Lemma know_log_log s nd :
  log_cfg (fs (LogDemo.know_log s)) 2 nd ->
  log_ok (fs (LogDemo.know_log s)) 2 [] nd /\
  log_size (logst (fs (LogDemo.know_log s))) = LOGSIZE /\
  log_outstanding (logst (fs (LogDemo.know_log s))) = 0 /\
  log_committing (logst (fs (LogDemo.know_log s))) = 0.
Proof.
  intros []. split_and!; [|done..]. constructor; try done; [by exists (replicate 30 0)|].
  simpl. lia.
Qed.

End TxnDemo.

Lemma transaction_applies_witness : exists f',
  (begin_op ;; for_each TxnDemo.ups (fun u => update_block (fst u) (snd u)) ;; end_op)
    TxnDemo.kernel = Ok tt (set_fs f' TxnDemo.kernel) /\
  disk f' !! 50%nat = Some LogDemo.text.
Proof.
  destruct TxnDemo.facts as (H1 & H2 & H3 & H4).
  destruct (TxnDemo.know_log_log _ _ H3) as (L1 & L2 & L3 & L4).
  rewrite <- H4 in L1.
  destruct (transaction_applies TxnDemo.kernel 2 TxnDemo.ups H1 H2 L1 L2 L3 L4)
    as (f' & E & _ & _ & _ & _ & _ & Hm).
  - exists DemoFs.blank. rewrite H4. split_and!; vm_compute; reflexivity.
  - vm_compute. discriminate.
  - rewrite H4. change (length DemoFs.image) with 120%nat. change LOGSIZE with 30.
    unfold TxnDemo.ups. repeat constructor; cbn [fst]; lia.
  - exists f'. split; [exact E|]. rewrite (Hm 50%nat); [reflexivity|].
    unfold in_log. change LOGSIZE with 30. lia.
Defined.

Lemma begin_op_reserves_witness : exists s',
  returns (begin_op TxnDemo.kernel) tt s' /\
  lh_n (log_lh (logst (fs s'))) + log_outstanding (logst (fs s')) * MAXOPBLOCKS <= LOGSIZE.
Proof.
  destruct TxnDemo.facts as (H1 & _ & H3 & _).
  destruct (TxnDemo.know_log_log _ _ H3) as (L1 & _ & L3 & L4).
  destruct (begin_op_ok TxnDemo.kernel H1 L4) as ([] & f' & E & _).
  - unfold TxnDemo.kernel, LogDemo.reboot in *. rewrite L3, (lo_n _ _ _ _ L1).
    vm_compute. discriminate.
  - assert (HR : returns (begin_op TxnDemo.kernel) tt (set_fs f' TxnDemo.kernel))
      by (rewrite E; constructor).
    eexists. split; [exact HR|]. exact (proj1 (begin_op_reserves _ _ HR)).
Defined.
