(* ===== verification/FileSpec.v ===== *)
(** * Reading and writing a file

    The contents of a file as one list of bytes, over the blocks that its inode
    names, direct and indirect: [readi] returns a part of it and [writei], inside
    a transaction, replaces a part of it. *)

From stdpp Require Import gmap.
From S2P Require Import Prelude Memory FsState Machine Spinlock Kalloc Proc Sleeplock Bio Lru.
From S2P Require Import BioSpec Blocks Log LogSpec Demo DemoFs CacheInit LogCrash Txn Fs.
Local Open Scope Z_scope.
Local Open Scope kernel_scope.

(** ** Lists of blocks *)

Lemma drop_concat (cs : list (list byte)) q c o :
  Forall (fun c => length c = BLK) cs -> cs !! q = Some c -> (o <= BLK)%nat ->
  drop (BLK * q + o) (concat cs) = drop o c ++ concat (drop (S q) cs).
Proof.
  revert q. induction cs as [|c0 cs IH]; intros q Hf Hq Ho; [done|].
  apply Forall_cons in Hf as [H0 Hf]. cbn [concat]. destruct q as [|q]; simpl in Hq.
  - simplify_eq. rewrite Nat.mul_0_r. cbn [Nat.add drop]. rewrite drop_app.
    replace (o - length c)%nat with 0%nat by lia. by rewrite drop_0.
  - rewrite drop_app, drop_ge by lia. rewrite app_nil_l.
    replace (BLK * S q + o - length c0)%nat with (BLK * q + o)%nat by lia.
    rewrite (IH q) by done. done.
Qed.

Lemma take_drop_concat (cs : list (list byte)) q c o m :
  Forall (fun c => length c = BLK) cs -> cs !! q = Some c -> (o + m <= BLK)%nat ->
  take m (drop (BLK * q + o) (concat cs)) = take m (drop o c).
Proof.
  intros Hf Hq Ho. rewrite (drop_concat cs q c o) by (done || lia).
  assert (length c = BLK) by (rewrite Forall_lookup in Hf; eauto).
  rewrite take_app_le; [done|]. rewrite length_drop. lia.
Qed.

Lemma length_concat_blocks (cs : list (list byte)) :
  Forall (fun c => length c = BLK) cs -> length (concat cs) = (BLK * length cs)%nat.
Proof.
  induction cs as [|c cs IH]; intros Hf; [done|]. apply Forall_cons in Hf as [H Hf].
  cbn [concat length]. rewrite length_app, IH, H by done. lia.
Qed.

(** Changing a part of one block. *)
Lemma splice_concat (cs : list (list byte)) q c o l :
  Forall (fun c => length c = BLK) cs -> cs !! q = Some c -> (o + length l <= BLK)%nat ->
  concat (<[q := splice o l c]> cs) = splice (BLK * q + o) l (concat cs).
Proof.
  intros Hf Hq Ho. pose proof (proj1 (Forall_lookup _ _) Hf _ _ Hq) as Hc. simpl in Hc.
  unfold splice at 2. rewrite <- Nat.add_assoc, (drop_concat cs q c (o + length l)) by done.
  assert (Ht : take (BLK * q + o) (concat cs) = concat (take q cs) ++ take o c).
  { rewrite <- (take_drop_middle cs q c Hq) at 1. rewrite concat_app. cbn [concat].
    assert (Hl : length (concat (take q cs)) = (BLK * q)%nat).
    { rewrite length_concat_blocks by (by apply Forall_take).
      apply lookup_lt_Some in Hq. rewrite length_take. f_equal. lia. }
    rewrite take_app, Hl, take_ge by lia. f_equal.
    replace (BLK * q + o - BLK * q)%nat with o by lia. rewrite take_app_le by lia. done. }
  rewrite Ht. rewrite insert_take_drop by (by eapply lookup_lt_Some).
  rewrite concat_app. cbn [concat]. unfold splice. by rewrite <- !app_assoc.
Qed.

(** ** The blocks of a file *)

(** The inode [i] names the blocks [fm], the later ones through its indirect
    block [ind]; [d] and [D] are the disk and the blocks that wait for the log. *)
Record maps (i : inode) (fm : list Z) (ind : Z) (d : list (list byte)) (D : gmap Z (list byte)) : Prop :=
  mk_maps {
  mp_dev : i_dev i = 1;
  mp_max : (length fm <= Z.to_nat MAXFILE)%nat;
  mp_range : Forall (fun a => 0 < a < Z.of_nat (length d)) fm;
  mp_direct : forall q a, fm !! q = Some a -> (q < 12)%nat -> i_addrs i !! q = Some a;
  mp_ind : i_addrs i !! 12%nat = Some ind;
  mp_ind_range : (12 < length fm)%nat -> 0 < ind < Z.of_nat (length d);
  mp_indirect : forall q a, fm !! q = Some a -> (12 <= q)%nat ->
    word 4 (blk d D ind) (4 * (q - 12)) = a;
  mp_nodup : NoDup fm;
  mp_apart : (12 < length fm)%nat -> ind ∉ fm;
  mp_len : Forall (fun a => length (blk d D a) = BLK) fm;
}.

Definition contents (fm : list Z) (d : list (list byte)) (D : gmap Z (list byte)) : list byte :=
  concat (map (blk d D) fm).

(** ** Reading a block and giving it back *)

Lemma unread (d : list (list byte)) (D : gmap Z (list byte)) n :
  (if bool_decide (is_Some (D !! n)) then <[n := blk d D n]> (delete n D) else delete n D) = D.
Proof.
  case_bool_decide as H.
  - destruct H as [v Hv]. rewrite (blk_pending d D n v Hv), insert_delete_eq. by apply insert_id.
  - apply delete_id. by apply eq_None_not_Some.
Qed.

Lemma read_clean (d : list (list byte)) (D : gmap Z (list byte)) n :
  0 <= n < Z.of_nat (length d) ->
  bool_decide (is_Some (D !! n)) = false -> d !! Z.to_nat n = Some (blk d D n).
Proof.
  intros Hn H%bool_decide_eq_false. unfold blk. rewrite (proj2 (eq_None_not_Some _) H).
  apply list_lookup_lookup_total_lt. lia.
Qed.

Lemma get_ip_ok s f0 d ws D H ip i :
  st f0 d ws D H (fs s) -> icache f0 !! ip = Some i -> get_ip ip s = Ok i s.
Proof. intros ([] & _) Hi. unfold get_ip. by rewrite fr_icache, Hi. Qed.

Lemma runs_get_ip {T} ip i (k : inode -> K T) s Q :
  get_ip ip s = Ok i s -> runs (k i) s Q -> runs (bind (get_ip ip) k) s Q.
Proof. intros E (r & f' & E' & HQ). exists r, f'. split; [|done]. by rewrite (bind_ok _ _ _ _ _ E). Qed.

Section Read.
Context (f0 : fsys) (d : list (list byte)) (ws : list (Z * list byte)) (D : gmap Z (list byte)).
Context (ip : nat) (i : inode) (fm : list Z) (ind : Z).
Hypothesis Hi : icache f0 !! ip = Some i.
Hypothesis Hm : maps i fm ind d D.
Hypothesis Hsz : (size D < NBUF)%nat.

Lemma bmap_direct_ok s k a :
  st f0 d ws D [] (fs s) -> i_addrs i !! k = Some a -> a <> 0 ->
  runs (bmap_direct ip k) s (fun r f' => r = a /\ st f0 d ws D [] f').
Proof.
  intros Hst Ha Hne. unfold bmap_direct.
  eapply runs_get_ip; [by eapply get_ip_ok|]. unfold addr_at. rewrite Ha. unfold runs. rewrite bind_ret.
  rewrite (proj2 (Z.eqb_neq _ _) Hne). by apply runs_ret.
Qed.

Lemma map_range q a : fm !! q = Some a -> 0 < a < Z.of_nat (length d).
Proof. intros Hq. pose proof (mp_range _ _ _ _ _ Hm) as H. rewrite Forall_lookup in H. eauto. Qed.

Lemma bmap_ok s q a :
  idle s -> st f0 d ws D [] (fs s) -> fm !! q = Some a ->
  runs (bmap ip (Z.of_nat q)) s (fun r f' => r = a /\ st f0 d ws D [] f').
Proof.
  intros Hidle Hst Hq. pose proof (map_range _ _ Hq) as Hr.
  pose proof (lookup_lt_Some _ _ _ Hq) as Hlt. pose proof (mp_max _ _ _ _ _ Hm) as Hmax.
  change (Z.to_nat MAXFILE) with 140%nat in Hmax.
  unfold bmap. change NDIRECT with 12. change NINDIRECT with 128.
  destruct (Z.ltb_spec (Z.of_nat q) 12) as [H12|H12].
  - rewrite Nat2Z.id. apply bmap_direct_ok; [done| |lia]. apply (mp_direct _ _ _ _ _ Hm); [done|lia].
  - rewrite (proj2 (Z.ltb_lt _ _)) by lia.
    pose proof (mp_ind_range _ _ _ _ _ Hm ltac:(lia)) as Hir.
    eapply runs_bind; [apply (bmap_direct_ok s 12 ind Hst (mp_ind _ _ _ _ _ Hm)); lia|].
    cbv beta. intros r f1 [-> S1].
    eapply runs_get_ip; [by eapply (get_ip_ok (set_fs f1 s))|]. rewrite (mp_dev _ _ _ _ _ Hm).
    eapply runs_bind; [apply (R_bread (set_fs f1 s) f0 d ws D [] (idle_set_fs _ _ Hidle) ind S1);
      [lia|apply not_elem_of_nil|right; simpl; lia]|].
    cbv beta. intros bp f2 S2.
    destruct (R_get (set_fs f2 s) _ _ _ _ _ _ S2 ltac:(by left)) as (x & Ex & Dx & _).
    eapply runs_get_buf; [exact Ex|]. cbn [h_data] in Dx. rewrite Dx. cbv zeta.
    replace (Z.to_nat (4 * (Z.of_nat q - 12))) with (4 * (q - 12))%nat by lia.
    rewrite (mp_indirect _ _ _ _ _ Hm q a Hq) by lia. rewrite (proj2 (Z.eqb_neq a 0)) by lia.
    unfold runs. rewrite bind_ret. fold (runs (brelse bp ;; ret a) (set_fs f2 s)).
    eapply runs_bind; [eapply (R_brelse (set_fs f2 s) _ _ _ _ _ (idle_set_fs s f2 Hidle));
      [exact S2|apply read_clean; lia]|].
    cbv beta. intros _ f3 S3. rewrite unread in S3. by apply runs_ret.
Qed.

Lemma contents_blocks : Forall (fun c => length c = BLK) (map (blk d D) fm).
Proof. pose proof (mp_len _ _ _ _ _ Hm) as H. by rewrite Forall_map. Qed.

Lemma contents_length : length (contents fm d D) = (BLK * length fm)%nat.
Proof. unfold contents. rewrite length_concat_blocks by apply contents_blocks. by rewrite length_map. Qed.

Lemma contents_chunk off m a :
  0 <= off -> fm !! Z.to_nat (off / 512) = Some a -> 0 <= m <= 512 - off mod 512 ->
  take (Z.to_nat m) (drop (Z.to_nat (off mod 512)) (blk d D a)) =
  take (Z.to_nat m) (drop (Z.to_nat off) (contents fm d D)).
Proof.
  intros Hoff Ha Hmm. symmetry. unfold contents.
  replace (Z.to_nat off) with (BLK * Z.to_nat (off / 512) + Z.to_nat (off mod 512))%nat
    by (rewrite BLK_512; lia_mod).
  apply take_drop_concat; [apply contents_blocks|by rewrite list_lookup_fmap, Ha|].
  rewrite BLK_512. lia_mod.
Qed.

Lemma take_split (l : list byte) a b : take (a + b) l = take a l ++ take b (drop a l).
Proof. revert l. induction a as [|a IH]; intros [|x l]; cbn; rewrite ?take_nil; [done..|]. by rewrite IH. Qed.

Lemma readi_loop_ok : forall fuel tot off n s,
  idle s -> st f0 d ws D [] (fs s) -> 0 <= tot <= n -> 0 <= off ->
  off + (n - tot) <= 512 * Z.of_nat (length fm) -> (tot < n -> (blocks_of off (n - tot) <= fuel)%nat) ->
  runs (readi_loop fuel ip ToVar tot off n) s (fun l f' =>
    l = take (Z.to_nat (n - tot)) (drop (Z.to_nat off) (contents fm d D)) /\ st f0 d ws D [] f').
Proof.
  unfold blocks_of. change BSIZE with 512.
  induction fuel as [|fuel IH]; intros tot off n s Hidle Hst Ht Ho Hend Hf; cbn [readi_loop].
  - assert (tot = n) as -> by (destruct (decide (tot = n)); [done|]; specialize (Hf ltac:(lia)); lia_mod).
    rewrite Z.ltb_irrefl. apply runs_ret. by rewrite Z.sub_diag.
  - destruct (Z.ltb_spec tot n) as [Hlt|Hge]; [|assert (tot = n) as -> by lia; apply runs_ret;
      by rewrite Z.sub_diag].
    change BSIZE with 512.
    destruct (lookup_lt_is_Some_2 fm (Z.to_nat (off / 512))) as [a Ha]; [revert Hend; lia_mod|].
    pose proof (map_range _ _ Ha) as Hr.
    replace (off / 512) with (Z.of_nat (Z.to_nat (off / 512))) by lia_mod.
    eapply runs_bind; [by apply (bmap_ok s (Z.to_nat (off / 512)) a)|]. cbv beta. intros r f1 [-> S1].
    eapply runs_get_ip; [by eapply (get_ip_ok (set_fs f1 s))|]. rewrite (mp_dev _ _ _ _ _ Hm).
    eapply runs_bind; [apply (R_bread (set_fs f1 s) f0 d ws D [] (idle_set_fs _ _ Hidle) a S1);
      [lia|apply not_elem_of_nil|right; simpl; lia]|].
    cbv beta. intros bp f2 S2.
    destruct (R_get (set_fs f2 s) _ _ _ _ _ _ S2 ltac:(by left)) as (x & Ex & Dx & _).
    eapply runs_get_buf; [exact Ex|]. cbn [h_data] in Dx. rewrite Dx. cbv zeta.
    set (m := Z.min (n - tot) (512 - off mod 512)).
    assert (Hm' : 0 < m <= 512 - off mod 512 /\ m <= n - tot) by (unfold m; lia_mod).
    unfold copy_to, runs. rewrite bind_ret.
    change (runs (brelse bp ;; r <- readi_loop fuel ip ToVar (tot + m) (off + m) n ;;
      ret (take (Z.to_nat m) (drop (Z.to_nat (off mod 512)) (blk d D a)) ++ r)) (set_fs f2 s)
      (fun l f' => l = take (Z.to_nat (n - tot)) (drop (Z.to_nat off) (contents fm d D)) /\
                   st f0 d ws D [] f')).
    eapply runs_bind; [eapply (R_brelse (set_fs f2 s) _ _ _ _ _ (idle_set_fs s f2 Hidle));
      [exact S2|apply read_clean; lia]|].
    cbv beta. intros _ f3 S3. rewrite unread in S3.
    eapply runs_bind.
    { apply (IH (tot + m) (off + m) n (set_fs f3 s)); [by apply idle_set_fs|done|lia|lia|lia|].
      intros Hmore. specialize (Hf Hlt). assert (m = 512 - off mod 512) as -> by (unfold m in *; lia).
      lia_mod. }
    cbv beta. intros l f4 [-> S4]. apply runs_ret. split; [|done].
    rewrite (contents_chunk off m a) by (done || lia).
    replace (Z.to_nat (n - tot)) with (Z.to_nat m + Z.to_nat (n - (tot + m)))%nat by lia.
    rewrite take_split, drop_drop. do 2 f_equal. f_equal. lia.
Qed.

End Read.

(** ** Writing *)

Lemma blk_insert d D a v m : blk d (<[a := v]> D) m = if decide (m = a) then v else blk d D m.
Proof.
  unfold blk. case_decide as E; [subst m; by rewrite lookup_insert_eq|by rewrite lookup_insert_ne].
Qed.

Lemma maps_update i fm ind d D q a v :
  maps i fm ind d D -> fm !! q = Some a -> length v = BLK ->
  maps i fm ind d (<[a := v]> D) /\
  contents fm d (<[a := v]> D) = concat (<[q := v]> (map (blk d D) fm)).
Proof.
  intros [] Hq Hv. split.
  - constructor; try done.
    + intros q' a' Hq' H12. rewrite blk_insert, decide_False; [by apply mp_indirect0|].
      intros <-. apply lookup_lt_Some in Hq'. apply mp_apart0; [lia|]. by eapply list_elem_of_lookup_2.
    + rewrite Forall_forall in *. intros a' Ha'. rewrite blk_insert. case_decide; auto.
  - unfold contents. f_equal. apply list_eq. intros j. rewrite list_lookup_fmap.
    destruct (decide (j = q)) as [->|Hne].
    + rewrite Hq, list_lookup_insert_eq by (rewrite length_map; by eapply lookup_lt_Some).
      simpl. by rewrite blk_insert, decide_True.
    + rewrite list_lookup_insert_ne by done. rewrite list_lookup_fmap.
      destruct (fm !! j) as [b|] eqn:Hj; [|done]. simpl. f_equal. rewrite blk_insert.
      rewrite decide_False; [done|]. intros ->. by apply Hne, (NoDup_lookup fm j q a).
Qed.

Lemma splice_splice (x : list byte) k l1 l2 :
  (k + length l1 + length l2 <= length x)%nat ->
  splice (k + length l1) l2 (splice k l1 x) = splice k (l1 ++ l2) x.
Proof.
  intros Hl. apply list_eq. intros j.
  assert (L1 : length (splice k l1 x) = length x) by (apply length_splice; lia).
  rewrite !lookup_splice by (rewrite ?length_app; lia). rewrite length_app.
  repeat case_decide; try lia; try done.
  - rewrite lookup_app_r by lia. f_equal. lia.
  - by rewrite lookup_app_l by lia.
Qed.

Lemma splice_nil k (x : list byte) : splice k [] x = x.
Proof. unfold splice. rewrite Nat.add_0_r. apply take_drop. Qed.

Section Write.
Context (ls : Z) (d : list (list byte)) (ws : list (Z * list byte)).
Context (ip : nat) (i : inode) (fm : list Z) (ind : Z) (data : list byte).
Hypothesis Hlog : Forall (fun a => ~ (ls <= a < ls + LOGSIZE)) fm.

(** The state between two blocks: the transaction is open. *)
Definition writing (f0 : fsys) (hs : list Z) (D : gmap Z (list byte)) (f : fsys) : Prop :=
  st f0 d ws D [] f /\ active f0 ls hs (length d) D /\ icache f0 !! ip = Some i /\ maps i fm ind d D /\
  forall m, is_Some (D !! m) -> m ∈ fm.

(** One block. *)
Lemma write_block {T} s f0 hs D off chunk a (k : K T) Q :
  idle s -> writing f0 hs D (fs s) -> (length hs < 29)%nat -> 0 <= off ->
  fm !! Z.to_nat (off / 512) = Some a -> (Z.to_nat (off mod 512) + length chunk <= BLK)%nat ->
  (forall f1 hs' D' f', writing f1 hs' D' f' -> (length hs' <= S (length hs))%nat ->
     contents fm d D' = splice (Z.to_nat off) chunk (contents fm d D) -> runs k (set_fs f' s) Q) ->
  runs (bp <- bread 1 a ;; upd_data bp (splice (Z.to_nat (off mod 512)) chunk) ;;
        log_write bp ;; brelse bp ;; k) s Q.
Proof.
  intros Hidle (Hst & Ha & Hi & Hm & Hdom) Hroom Hoff Haq Hch Hk.
  pose proof (active_size _ _ _ _ _ Ha) as Hsz. pose proof (map_range d D i fm ind Hm _ _ Haq) as Hr.
  assert (Hla : ~ (ls <= a < ls + LOGSIZE)) by (rewrite Forall_lookup in Hlog; eauto).
  assert (Hba : length (blk d D a) = BLK).
  { pose proof (mp_len _ _ _ _ _ Hm) as Hl. rewrite Forall_lookup in Hl. eauto. }
  eapply runs_bind; [apply (R_bread s f0 d ws D [] Hidle a Hst);
    [lia|apply not_elem_of_nil|right; simpl; unfold NBUF; lia]|].
  cbv beta. intros bp f1 S1. set (v := splice (Z.to_nat (off mod 512)) chunk (blk d D a)).
  eapply runs_bind.
  { apply (R_upd (set_fs f1 s) f0 d ws _ [] bp a (blk d D a) _ _ v (bool_decide (is_Some (D !! a))) S1).
    intros x Hx Hf. unfold set_data. by rewrite Hx, Hf. }
  cbv beta. intros _ f2 S2.
  eapply runs_bind.
  { eapply (log_write_ok f0 ls hs (length d) a (ac_log _ _ _ _ _ Ha) ltac:(split; [lia|done]) Hroom
      (set_fs f2 s) d ws); [by apply idle_set_fs|exact S2| |].
    - rewrite (ac_size _ _ _ _ _ Ha). change LOGSIZE with 30. lia.
    - rewrite (ac_out _ _ _ _ _ Ha). lia. }
  cbv beta. intros _ f3 (k' & bl & S3 & Hok).
  eapply runs_bind; [eapply (R_brelse (set_fs f3 s) _ _ _ _ _ (idle_set_fs s f3 Hidle)); [exact S3|done]|].
  cbv beta iota. intros _ f4 S4. rewrite insert_delete_eq in S4.
  assert (Hv : length v = BLK) by (unfold v; rewrite length_splice; lia).
  destruct (maps_update i fm ind d D _ a v Hm Haq Hv) as [Hm' Hcont].
  apply (Hk (with_lh f0 k' bl) (logged_in hs a) (<[a := v]> D)); [|apply logged_in_length|].
  - split; [done|]. split; [|split; [done|split; [done|]]]; cycle 1.
    { intros m. destruct (decide (m = a)) as [->|Hne]; [intros _; by eapply list_elem_of_lookup_2|].
      rewrite lookup_insert_ne by done. apply Hdom. }
    constructor; try by destruct Ha.
    { by apply logged_in_NoDup, (ac_nodup _ _ _ _ _ Ha). }
    intros m. rewrite logged_in_elem, <- (ac_pending _ _ _ _ _ Ha). destruct (decide (m = a)) as [->|Hne].
    + rewrite lookup_insert_eq. split; [by left|]. intros _. by eexists.
    + rewrite lookup_insert_ne by done. split; [by right|]. by intros [?|?].
  - rewrite Hcont. unfold v, contents.
    rewrite (splice_concat _ _ (blk d D a)); [|by apply (contents_blocks d D i fm ind)|by rewrite list_lookup_fmap, Haq|done].
    f_equal. rewrite BLK_512. lia_mod.
Qed.

Lemma writei_loop_ok n : n = Z.of_nat (length data) -> forall fuel tot off s f0 hs D,
  idle s -> writing f0 hs D (fs s) -> 0 <= tot <= n -> 0 <= off ->
  off + (n - tot) <= 512 * Z.of_nat (length fm) ->
  (tot < n -> (blocks_of off (n - tot) <= fuel /\ length hs + blocks_of off (n - tot) <= 29)%nat) ->
  runs (writei_loop fuel ip (OfVar data) tot off n) s (fun r f' => exists f1 hs' D',
    r = off + (n - tot) /\ writing f1 hs' D' f' /\
    contents fm d D' = splice (Z.to_nat off) (drop (Z.to_nat tot) data) (contents fm d D)).
Proof.
  unfold blocks_of. change BSIZE with 512. intros Hn.
  induction fuel as [|fuel IH]; intros tot off s f0 hs D Hidle Hw Ht Ho Hend Hf; cbn [writei_loop].
  - assert (tot = n) as -> by (destruct (decide (tot = n)); [done|]; specialize (Hf ltac:(lia)); lia_mod).
    rewrite Z.ltb_irrefl. apply runs_ret. exists f0, hs, D. split; [lia|]. split; [done|].
    rewrite drop_ge by lia. symmetry. apply splice_nil.
  - destruct (Z.ltb_spec tot n) as [Hlt|Hge].
    2: { assert (tot = n) as -> by lia. apply runs_ret. exists f0, hs, D. split; [lia|]. split; [done|].
         rewrite drop_ge by lia. symmetry. apply splice_nil. }
    change BSIZE with 512. destruct (Hf Hlt) as [Hf1 Hf2].
    destruct Hw as (Hst & Ha & Hi & Hm & Hdom).
    assert (Hsz : (size D < NBUF)%nat) by (pose proof (active_size _ _ _ _ _ Ha); unfold NBUF; revert Hf2; lia_mod).
    destruct (lookup_lt_is_Some_2 fm (Z.to_nat (off / 512))) as [a Haq]; [revert Hend; lia_mod|].
    replace (off / 512) with (Z.of_nat (Z.to_nat (off / 512))) by lia_mod.
    eapply runs_bind; [by apply (bmap_ok f0 d ws D ip i fm ind Hi Hm Hsz s (Z.to_nat (off / 512)) a)|].
    cbv beta. intros r f1 [-> S1].
    eapply runs_get_ip; [by eapply (get_ip_ok (set_fs f1 s))|]. rewrite (mp_dev _ _ _ _ _ Hm). cbv zeta.
    set (m := Z.min (n - tot) (512 - off mod 512)).
    assert (Hm' : 0 < m <= 512 - off mod 512 /\ m <= n - tot) by (unfold m; lia_mod).
    set (chunk := take (Z.to_nat m) (drop (Z.to_nat tot) data)).
    assert (Hch : Z.of_nat (length chunk) = m) by (unfold chunk; rewrite length_take, length_drop; lia).
    eapply (write_block (set_fs f1 s) f0 hs D off chunk a);
      [by apply idle_set_fs|done|revert Hf2; lia_mod|lia|done|rewrite BLK_512; lia_mod|].
    intros f2 hs' D' f' Hw' Hl' Hc'.
    eapply runs_mono.
    { apply (IH (tot + m) (off + m) (set_fs f' (set_fs f1 s)) f2 hs' D'); [by repeat apply idle_set_fs|done|lia|lia|lia|].
      intros Hmore. assert (m = 512 - off mod 512) as -> by (unfold m in *; lia).
      revert Hf1 Hf2; lia_mod. }
    cbv beta. intros r f3 (f4 & hs4 & D4 & -> & Hw4 & Hc4).
    exists f4, hs4, D4. split; [lia|]. split; [done|]. rewrite Hc4, Hc'.
    replace (Z.to_nat (off + m)) with (Z.to_nat off + length chunk)%nat by lia.
    rewrite splice_splice.
    + f_equal. unfold chunk. replace (Z.to_nat (tot + m)) with (Z.to_nat tot + Z.to_nat m)%nat by lia.
      rewrite <- drop_drop. apply take_drop.
    + rewrite length_drop. rewrite (contents_length d D i fm ind Hm). revert Hend. rewrite BLK_512. lia.
Qed.

End Write.

(** ** The theorem *)

(** A mapping survives a step that keeps the blocks it is made of. *)
Lemma maps_transfer i fm ind d D d' D' :
  maps i fm ind d D -> Forall (fun a => a < Z.of_nat (length d')) fm ->
  ((12 < length fm)%nat -> ind < Z.of_nat (length d') /\ blk d' D' ind = blk d D ind) ->
  Forall (fun a => length (blk d' D' a) = BLK) fm ->
  maps i fm ind d' D'.
Proof.
  intros [] Hr Hi Hl. constructor; try done.
  - rewrite Forall_forall in *. intros a Ha. specialize (mp_range0 a Ha). specialize (Hr a Ha). lia.
  - intros H. destruct (Hi H). specialize (mp_ind_range0 H). lia.
  - intros q a Hq H12. pose proof (lookup_lt_Some _ _ _ Hq). rewrite (proj2 (Hi ltac:(lia))). eauto.
Qed.

Section Wrappers.
Context (devsw : Z -> devops) (ip : nat) (i : inode) (fm : list Z) (ind : Z).
Hypothesis Htype : i_type i <> T_DEV.
Hypothesis Hsize : i_size i <= 512 * Z.of_nat (length fm).

Lemma readi_ok s f0 d ws D off n :
  idle s -> st f0 d ws D [] (fs s) -> icache f0 !! ip = Some i -> maps i fm ind d D -> (size D < NBUF)%nat ->
  0 <= off -> 0 <= n -> off + n <= i_size i ->
  runs (readi devsw ip ToVar off n) s (fun r f' =>
    r = (n, take (Z.to_nat n) (drop (Z.to_nat off) (contents fm d D))) /\ st f0 d ws D [] f').
Proof.
  intros Hidle Hst Hi Hm Hsz Ho Hn Hend. pose proof (mp_max _ _ _ _ _ Hm) as Hmax.
  change (Z.to_nat MAXFILE) with 140%nat in Hmax.
  unfold readi. eapply runs_get_ip; [by eapply get_ip_ok|].
  rewrite (proj2 (Z.eqb_neq _ _) Htype). unfold u32. rewrite Z.mod_small by lia.
  rewrite (proj2 (Z.ltb_ge (i_size i) off)), (proj2 (Z.ltb_ge (off + n) off)),
    (proj2 (Z.ltb_ge (i_size i) (off + n))) by lia. cbn [orb]. cbv zeta.
  eapply runs_bind; [apply (readi_loop_ok f0 d ws D ip i fm ind Hi Hm Hsz _ 0 off n s); try done; try lia|].
  { intros _. by rewrite Z.sub_0_r. }
  cbv beta. intros l f' [-> S']. apply runs_ret. rewrite Z.sub_0_r, s32_small by lia. done.
Qed.

Lemma writei_ok s ls f0 hs d ws D off data :
  let n := Z.of_nat (length data) in
  idle s -> writing ls d ws ip i fm ind f0 hs D (fs s) ->
  Forall (fun a => ~ (ls <= a < ls + LOGSIZE)) fm -> 0 <= off -> off + n <= i_size i ->
  (length hs + blocks_of off n <= 29)%nat ->
  runs (writei devsw ip (OfVar data) off n) s (fun r f' => exists f1 hs' D',
    r = n /\ writing ls d ws ip i fm ind f1 hs' D' f' /\
    contents fm d D' = splice (Z.to_nat off) data (contents fm d D)).
Proof.
  intros n Hidle Hw Hlog Ho Hend Hroom. pose proof Hw as (Hst & _ & Hi & Hm & _).
  pose proof (mp_max _ _ _ _ _ Hm) as Hmax. change (Z.to_nat MAXFILE) with 140%nat in Hmax.
  assert (Hn : 0 <= n) by (unfold n; lia). unfold writei. eapply runs_get_ip; [by eapply get_ip_ok|].
  rewrite (proj2 (Z.eqb_neq _ _) Htype). unfold u32. rewrite Z.mod_small by lia.
  change (MAXFILE * BSIZE) with 71680.
  rewrite (proj2 (Z.ltb_ge (i_size i) off)), (proj2 (Z.ltb_ge (off + n) off)),
    (proj2 (Z.ltb_ge 71680 (off + n))) by lia. cbn [orb].
  eapply runs_bind.
  { apply (writei_loop_ok ls d ws ip i fm ind data Hlog n eq_refl _ 0 off s f0 hs D); try done; try lia.
    intros _. rewrite Z.sub_0_r. lia. }
  cbv beta. intros r f1 (f2 & hs' & D' & -> & Hw' & Hc'). pose proof Hw' as (Hst' & _ & Hi' & _).
  eapply runs_get_ip; [by eapply (get_ip_ok (set_fs f1 s))|].
  rewrite (proj2 (Z.ltb_ge (i_size i) (off + (n - 0)))), andb_false_r by lia. unfold runs.
  rewrite bind_ret. apply (runs_ret (s32 n) (set_fs f1 s)). exists f2, hs', D'.
  rewrite s32_small by lia. split; [done|]. split; [done|]. by rewrite Hc', drop_0.
Qed.

End Wrappers.

(** The file system between two system calls: nothing is locked, every cached
    block agrees with the disk and the log is empty. *)
Record at_rest (ls : Z) (s : kstate) : Prop := mk_at_rest {
  re_idle : idle s;
  re_cache : crep (fs s) ∅ [];
  re_log : log_ok (fs s) ls [] (length (disk (fs s)));
  re_size : log_size (logst (fs s)) = LOGSIZE;
  re_out : log_outstanding (logst (fs s)) = 0;
  re_committing : log_committing (logst (fs s)) = 0;
  re_clean : clean_log ls (disk (fs s));
}.

(** [begin_op] opens the transaction of a file system at rest. *)
Lemma begin_writing ls ip i fm ind s :
  at_rest ls s -> icache (fs s) !! ip = Some i -> maps i fm ind (disk (fs s)) ∅ ->
  runs begin_op s (fun _ f' => exists f1,
    writing ls (disk (fs s)) (dwrites (fs s)) ip i fm ind f1 [] ∅ f').
Proof.
  intros [Hidle Hc Hlog Hsize Hout Hcom _] Hi Hm. eapply runs_mono.
  { apply begin_op_ok; [done..|]. rewrite Hout, (lo_n _ _ _ _ Hlog). done. }
  cbv beta. intros _ f1 ->. rewrite Hout. set (f1 := set_logst _ _). exists f1.
  split; [apply (st_refl f1), crep_logst, Hc|]. split; [|split; [done|split; [done|]]].
  - constructor; try done; [destruct Hlog; by constructor|constructor|].
    intros m. rewrite lookup_empty. split; [by intros [? ?]|set_solver].
  - intros m. rewrite lookup_empty. by intros [? ?].
Qed.

(** What [end_op] leaves on the disk. *)
Lemma committed_contents ls fm ind i d D d' :
  maps i fm ind d D -> (forall m, is_Some (D !! m) -> m ∈ fm) ->
  Forall (fun a => ~ (ls <= a < ls + LOGSIZE)) (ind :: fm) ->
  (forall m, ~ in_log ls m -> d' !! m = new_block d D m) ->
  maps i fm ind d' ∅ /\ contents fm d' ∅ = contents fm d D.
Proof.
  intros Hm Hdom Hlog Hd'.
  assert (Hb : forall a, 0 < a < Z.of_nat (length d) -> a ∈ ind :: fm ->
            a < Z.of_nat (length d') /\ blk d' ∅ a = blk d D a).
  { intros a Ha Hin. rewrite Forall_forall in Hlog. specialize (Hlog a Hin).
    assert (Hl : d' !! Z.to_nat a = Some (blk d D a)).
    { rewrite Hd' by (unfold in_log; lia). unfold new_block, blk. rewrite Z2Nat.id by lia.
      destruct (D !! a); [done|]. apply list_lookup_lookup_total_lt. lia. }
    split; [apply lookup_lt_Some in Hl; lia|]. unfold blk at 1. rewrite lookup_empty.
    by apply list_lookup_total_correct. }
  pose proof (mp_range _ _ _ _ _ Hm) as Hr. rewrite Forall_forall in Hr.
  pose proof (mp_len _ _ _ _ _ Hm) as Hlen. rewrite Forall_forall in Hlen.
  split.
  - apply (maps_transfer i fm ind d D); [done|apply Forall_forall..| |apply Forall_forall].
    + intros a Ha. apply Hb; [by apply Hr|by right].
    + intros H12. apply Hb; [by apply (mp_ind_range _ _ _ _ _ Hm)|by left].
    + intros a Ha. rewrite (proj2 (Hb a (Hr a Ha) ltac:(by right))). by apply Hlen.
  - unfold contents. f_equal. apply list_fmap_ext. intros k a Hk. apply list_elem_of_lookup_2 in Hk.
    apply Hb; [by apply Hr|by right].
Qed.


Lemma crep_icache f l D H : crep f D H -> crep (set_icache l f) D H.
Proof. intros (A & [] & ?). exists A. split; [|done]. by constructor. Qed.

Module FileDemo.

(** A file of fourteen blocks, the last two behind its indirect block 62. *)
Definition blocks : list Z := [50; 51; 52; 53; 54; 55; 56; 57; 58; 59; 60; 61; 63; 64].
Definition the_file : inode := mk_inode 1 2 1 I_VALID T_FILE 0 0 1 7000 (take 12 blocks ++ [62]).
Definition image : list (list byte) :=
  <[62%nat := splice 0 (le_split 4 63 ++ le_split 4 64) DemoFs.blank]> DemoFs.image.

(** A kernel whose inode cache holds the file. *)
Definition with_file (s : kstate) : kstate := set_fs (set_icache [the_file] (fs s)) s.
Definition kernel : kstate := with_file (LogDemo.reboot image).

(** Twenty bytes across the end of the last direct block. *)
Definition data : list byte := replicate 20 Byte.x41.

Lemma with_file_rest s :
  idle s -> crep (fs s) ∅ [] -> log_ok (fs s) 2 [] (length (disk (fs s))) ->
  log_size (logst (fs s)) = LOGSIZE -> log_outstanding (logst (fs s)) = 0 ->
  log_committing (logst (fs s)) = 0 -> clean_log 2 (disk (fs s)) -> at_rest 2 (with_file s).
Proof.
  intros H1 H2 [] H4 H5 H6 H7. constructor; try done; [by apply idle_set_fs|by apply crep_icache].
Qed.

Lemma with_file_fs s :
  disk (fs (with_file s)) = disk (fs s) /\ icache (fs (with_file s)) !! 0%nat = Some the_file.
Proof. done. Qed.

Lemma kernel_rest : at_rest 2 kernel /\ disk (fs kernel) = image.
Proof.
  destruct (LogDemo.reboot_ok image) as (H1 & H2 & H3 & H4); [apply length_insert|].
  destruct (TxnDemo.know_log_log _ _ H3) as (L1 & L2 & L3 & L4).
  split; [|exact (eq_trans (proj1 (with_file_fs (LogDemo.reboot image))) H4)].
  assert (Hl : length image = length DemoFs.image) by apply length_insert.
  apply with_file_rest; [exact H1|exact H2|rewrite H4, Hl; exact L1|exact L2|exact L3|exact L4|].
  exists DemoFs.blank. rewrite H4. split_and!; vm_compute; reflexivity.
Qed.

Lemma file_maps : maps the_file blocks 62 image ∅.
Proof.
  constructor.
  - done.
  - vm_compute. lia.
  - change (length image) with 120%nat. unfold blocks. repeat constructor; lia.
  - intros q a Hq H12. unfold the_file. cbn [i_addrs]. rewrite lookup_app_l by (vm_compute; lia).
    by rewrite lookup_take_lt by lia.
  - done.
  - change (length image) with 120%nat. lia.
  - intros q a Hq H12. do 12 (destruct q as [|q]; [lia|]). destruct q as [|[|q]]; [..|done];
      injection Hq as <-; vm_compute; reflexivity.
  - apply (bool_decide_unpack (NoDup blocks)). vm_compute. exact I.
  - intros _. apply (bool_decide_unpack (62 ∉ blocks)). vm_compute. exact I.
  - unfold blocks. repeat constructor; vm_compute; reflexivity.
Qed.

End FileDemo.

