(* ===== verification/InodeSpec.v ===== *)
(** * The inode cache

    The cache as a count of the references to each inode of the disk: [iget]
    adds one and [iput] takes one away, [ilock] makes the cached copy that of
    the disk. *)

From stdpp Require Import gmap.
From S2P Require Import Prelude Memory CString FsState Machine Spinlock Kalloc Proc Sleeplock Bio BioSpec.
From S2P Require Import Blocks Log LogSpec Txn Fs FileSpec Demo DemoFs CacheInit.
Local Open Scope Z_scope.
Local Open Scope kernel_scope.

(** ** Kernel and cache *)

(** Nobody else uses the file layers, down to the locks of the inodes. *)
Record inodes_idle (s : kstate) : Prop := mk_inodes_idle {
  ii_idle : idle s;
  ii_icache : lock_free icache_lock s;
  ii_slk i : (i < NINODE)%nat -> lock_free (slk (inode_lock i)) s;
  ii_sleep p i : p ∈ procs s -> state p = SLEEPING -> (i < NINODE)%nat -> chan p <> inode_lock i;
}.

Lemma inodes_idle_set_fs s f : inodes_idle s -> inodes_idle (set_fs f s).
Proof. intros []. constructor; try done. by apply idle_set_fs. Qed.

(** The inode that [ilock] reads from the disk. *)
Definition loaded (d : list (list byte)) (inum : Z) : inode :=
  let b := d !!! Z.to_nat (IBLOCK inum (sb_of (d !!! 1%nat))) in
  let o := dinode_off inum in
  mk_inode ROOTDEV inum 1 I_VALID (s16 (word 2 b o)) (s16 (word 2 b (o + 2))) (s16 (word 2 b (o + 4)))
    (s16 (word 2 b (o + 6))) (word 4 b (o + 8)) (addrs_of b o).

(** The inode is in use, linked, and in a block of the disk. *)
Record inode_ok (d : list (list byte)) (inum : Z) : Prop := mk_inode_ok {
  io_type : i_type (loaded d inum) <> 0;
  io_nlink : i_nlink (loaded d inum) <> 0;
  io_block : 0 <= IBLOCK inum (sb_of (d !!! 1%nat)) < Z.of_nat (length d);
}.

(** A slot is free, or has a copy of the inode of the disk or none yet. *)
Definition copied (d : list (list byte)) (x : inode) : Prop := x = set_iref (i_ref x) (loaded d (i_inum x)).
Definition entry_ok (d : list (list byte)) (x : inode) : Prop :=
  0 <= i_ref x /\ (0 < i_ref x -> i_dev x = ROOTDEV /\ (copied d x \/ i_flags x = 0)).

(** [R] has the number of references to each inode that has some; [held] are the
    slots that are locked. *)
Record cache (d : list (list byte)) (R : gmap Z Z) (held : list nat) (f : fsys) : Prop := mk_cache {
  c_blocks : crep f ∅ [];
  c_disk : disk f = d;
  c_sb : sb f = sb_of (d !!! 1%nat);
  c_len : length (icache f) = NINODE;
  c_slots : Forall (entry_ok d) (icache f);
  c_refs inum r : R !! inum = Some r <->
    0 < r /\ exists i x, icache f !! i = Some x /\ i_ref x = r /\ i_inum x = inum;
  c_apart i j x y : icache f !! i = Some x -> icache f !! j = Some y ->
    0 < i_ref x -> 0 < i_ref y -> i_inum x = i_inum y -> i = j;
  c_locks i : (i < NINODE)%nat -> exists l, slocks f !! inode_lock i = Some l /\
    sl_locked l = if bool_decide (i ∈ held) then 1 else 0;
  c_held i : i ∈ held -> exists x, icache f !! i = Some x /\ 0 < i_ref x /\ copied d x;
}.

(** The slot [ip] has a reference to the inode [inum]. *)
Definition refers (f : fsys) (ip : nat) (inum : Z) : Prop :=
  exists x, icache f !! ip = Some x /\ 0 < i_ref x /\ i_inum x = inum.

Definition get_ref (inum : Z) (R : gmap Z Z) : gmap Z Z := <[inum := 1 + default 0 (R !! inum)]> R.
Definition put_ref (inum : Z) (R : gmap Z Z) : gmap Z Z :=
  match R !! inum with
  | Some r => if r =? 1 then delete inum R else <[inum := r - 1]> R
  | None => R
  end.

(** ** Changing a slot *)

Definition drop_slot (x : inode) (R : gmap Z Z) : gmap Z Z := if 0 <? i_ref x then delete (i_inum x) R else R.
Definition add_slot (x : inode) (R : gmap Z Z) : gmap Z Z := if 0 <? i_ref x then <[i_inum x := i_ref x]> R else R.

Lemma drop_slot_lookup d R held f ip x inum r : cache d R held f -> icache f !! ip = Some x ->
  drop_slot x R !! inum = Some r <->
  0 < r /\ exists j z, j <> ip /\ icache f !! j = Some z /\ i_ref z = r /\ i_inum z = inum.
Proof.
  intros [_ _ _ _ _ Hr Ha _ _] Hx. unfold drop_slot. destruct (Z.ltb_spec 0 (i_ref x)) as [Hp|Hp].
  - rewrite lookup_delete_Some, Hr. split.
    + intros (Hne & H0 & j & z & Hz & Hzr & Hzi). split; [done|]. exists j, z. split_and!; try done. intros ->. congruence.
    + intros (H0 & j & z & Hj & Hz & Hzr & Hzi). split; [|eauto 10]. intros E. apply Hj. eapply Ha; eauto; [lia|congruence].
  - rewrite Hr. split; intros (H0 & j & z & Hz); (split; [done|]); exists j, z; [|tauto].
    destruct Hz as (Hz & Hzr & Hzi). split_and!; try done. intros ->. assert (z = x) by congruence. subst. lia.
Qed.

Lemma cache_put d R held f ip x y : cache d R held f -> icache f !! ip = Some x -> entry_ok d y ->
  (ip ∈ held -> 0 < i_ref y /\ copied d y) ->
  (0 < i_ref y -> forall j z, j <> ip -> icache f !! j = Some z -> 0 < i_ref z -> i_inum z <> i_inum y) ->
  cache d (add_slot y (drop_slot x R)) held (set_icache (<[ip := y]> (icache f)) f).
Proof.
  intros Hc Hx Hy Hyh Hya. pose proof (fun n r => drop_slot_lookup d R held f ip x n r Hc Hx) as Hdrop.
  destruct Hc as [Hb Hd Hsb Hl Hs Hr Ha Hk Hh]. pose proof (lookup_lt_Some _ _ _ Hx) as Hlt.
  assert (Hlook : forall j z, <[ip := y]> (icache f) !! j = Some z <-> (j = ip /\ z = y) \/ (j <> ip /\ icache f !! j = Some z)).
  { intros j z. destruct (decide (j = ip)) as [->|Hne].
    - rewrite list_lookup_insert_eq by done. split; [intros [= <-]; by left|]. by intros [[_ ->]|[]].
    - rewrite list_lookup_insert_ne by done. split; [by right|]. by intros [[]|[]]. }
  constructor; cbn [set_icache disk sb icache slocks bufs]; try done.
  - by apply crep_icache.
  - by rewrite length_insert.
  - by apply Forall_insert.
  - intros inum r. unfold add_slot. destruct (Z.ltb_spec 0 (i_ref y)) as [Hp|Hp].
    + rewrite lookup_insert_Some, Hdrop. split.
      * intros [[<- <-]|(Hne & H0 & j & z & Hj & Hz & Hrest)]; (split; [lia|]).
        -- exists ip, y. split; [apply Hlook; by left|done].
        -- exists j, z. split; [apply Hlook; by right|done].
      * intros (H0 & j & z & [[-> ->]|[Hj Hz]]%Hlook & <- & <-); [by left|right].
        split; [intros E; by destruct (Hya Hp j z)|]. split; [done|]. by exists j, z.
    + rewrite Hdrop. split; intros (H0 & j & z & H); (split; [done|]); exists j, z.
      * destruct H as (Hj & Hz & Hrest). split; [apply Hlook; by right|done].
      * destruct H as ([[-> ->]|[Hj Hz]]%Hlook & <- & <-); [lia|done].
  - intros i j u v Hi Hj Hu Hv E. apply Hlook in Hi as [[-> ->]|[Hi1 Hi]]; apply Hlook in Hj as [[-> ->]|[Hj1 Hj]].
    + done.
    + by destruct (Hya Hu j v).
    + by destruct (Hya Hv i u).
    + by eapply Ha.
  - intros i Hi. destruct (decide (i = ip)) as [->|Hne].
    + exists y. split; [apply Hlook; by left|by apply Hyh].
    + destruct (Hh i Hi) as (z & Hz & ?). exists z. split; [apply Hlook; by right|done].
Qed.

(** ** iget *)

Lemma iget_scan_spec l : forall i dev inum e,
  match iget_scan l i dev inum e with
  | (Some k, _) => exists j x, k = (i + j)%nat /\ l !! j = Some x /\ 0 < i_ref x /\ i_dev x = dev /\ i_inum x = inum
  | (None, r) =>
      (forall j x, l !! j = Some x -> 0 < i_ref x -> i_dev x = dev -> i_inum x <> inum) /\
      (r = e /\ is_Some e \/ e = None /\
        match r with
        | Some k => exists j x, k = (i + j)%nat /\ l !! j = Some x /\ i_ref x = 0
        | None => Forall (fun x => i_ref x <> 0) l
        end)
  end.
Proof.
  induction l as [|x l IH]; intros i dev inum e; cbn [iget_scan].
  - split; [done|]. destruct e; [by left; eauto|by right].
  - destruct ((0 <? i_ref x) && (i_dev x =? dev) && (i_inum x =? inum)) eqn:E.
    { exists 0%nat, x. rewrite !andb_true_iff, Z.ltb_lt, !Z.eqb_eq in E. rewrite Nat.add_0_r. naive_solver. }
    assert (Hx : 0 < i_ref x -> i_dev x = dev -> i_inum x <> inum).
    { intros H1 H2 H3. rewrite (proj2 (Z.ltb_lt _ _) H1), H2, H3, !Z.eqb_refl in E. done. }
    set (e' := match e with Some e0 => Some e0 | None => _ end).
    specialize (IH (S i) dev inum e'). destruct (iget_scan l (S i) dev inum e') as [[k|] r].
    + destruct IH as (j & y & -> & Hy & ?). exists (S j), y. split; [lia|done].
    + destruct IH as [Hno Hr]. split.
      { intros [|j] y Hy; [by injection Hy as <-|by apply (Hno j)]. }
      unfold e' in Hr. destruct e as [e0|].
      * left. destruct Hr as [[-> _]|[? _]]; [eauto|done].
      * right. split; [done|]. destruct (Z.eqb_spec (i_ref x) 0) as [H0|H0].
        -- destruct Hr as [[-> _]|[? _]]; [|done]. exists 0%nat, x. split; [lia|done].
        -- destruct Hr as [[_ []]|[_ Hr]]; [done|]. destruct r as [k|]; [|by constructor].
           destruct Hr as (j & y & -> & Hy & ?). exists (S j), y. split; [lia|done].
Qed.

(** With fewer inodes in use than slots there is a free one. *)
Lemma free_slot d R held f : cache d R held f -> (size R < NINODE)%nat -> ~ Forall (fun x => i_ref x <> 0) (icache f).
Proof.
  intros [_ _ _ Hl Hs Hr Ha _ _] Hsz Hall.
  assert (Hpos : forall i x, icache f !! i = Some x -> 0 < i_ref x).
  { intros i x Hx. rewrite Forall_lookup in Hall, Hs. specialize (Hall i x Hx). destruct (Hs i x Hx). lia. }
  assert (Hn : NoDup (map i_inum (icache f))).
  { apply NoDup_alt. intros i j n Hi Hj. rewrite list_lookup_fmap in Hi, Hj.
    destruct (icache f !! i) as [x|] eqn:Ei; [|done]. destruct (icache f !! j) as [y|] eqn:Ej; [|done].
    simpl in Hi, Hj. simplify_eq. by eapply (Ha i j x y); eauto. }
  assert (Hsub : map i_inum (icache f) ⊆+ elements (dom R)).
  { apply NoDup_submseteq; [done|]. intros n Hin. apply list_elem_of_fmap in Hin as (x & -> & Hin).
    apply list_elem_of_lookup in Hin as [i Hi]. apply elem_of_elements, elem_of_dom. exists (i_ref x). apply Hr.
    split; [by eapply Hpos|]. by exists i, x. }
  apply submseteq_length in Hsub. rewrite length_map, Hl in Hsub.
  assert (length (elements (dom R)) = size R) by (rewrite <- (size_dom R); done). lia.
Qed.

Lemma alter_slot {A} (g : A -> A) (l : list A) i x : l !! i = Some x -> alter g i l = <[i := g x]> l.
Proof.
  intros Hx. apply list_eq. intros j. destruct (decide (j = i)) as [->|Hne].
  - rewrite list_lookup_alter_eq, Hx, list_lookup_insert_eq; [done|]. by eapply lookup_lt_Some.
  - by rewrite list_lookup_alter_ne, list_lookup_insert_ne.
Qed.

Lemma runs_upd_ip s ip x g : icache (fs s) !! ip = Some x ->
  runs (upd_ip ip g) s (fun _ f' => f' = set_icache (<[ip := g x]> (icache (fs s))) (fs s)).
Proof. intros Hx. eexists _, _. split; [reflexivity|]. by rewrite (alter_slot _ _ _ _ Hx). Qed.

Lemma cache_ref d R held f ip x : cache d R held f -> icache f !! ip = Some x -> 0 < i_ref x -> R !! i_inum x = Some (i_ref x).
Proof. intros Hc Hx Hp. apply (c_refs _ _ _ _ Hc). eauto 10. Qed.

Lemma cache_entry d R held f ip x : cache d R held f -> icache f !! ip = Some x -> entry_ok d x.
Proof. intros Hc Hx. pose proof (c_slots _ _ _ _ Hc) as Hs. rewrite Forall_lookup in Hs. eauto. Qed.

Lemma entry_ref d x r : entry_ok d x -> 0 < i_ref x -> 0 <= r -> entry_ok d (set_iref r x).
Proof.
  intros [_ Hx] H0 Hr. split; [done|]. intros _. destruct (Hx H0) as [Hdev [Hcp|Hfl]]; (split; [done|]); [left|by right].
  unfold copied in *. cbn [set_iref i_ref i_inum]. by rewrite Hcp.
Qed.

Lemma copied_ref d x r : copied d x -> copied d (set_iref r x).
Proof. unfold copied. intros H. cbn [set_iref i_ref i_inum]. by rewrite H. Qed.

Lemma refers_put f ip y j n : refers f j n -> (j = ip -> 0 < i_ref y /\ i_inum y = n) ->
  refers (set_icache (<[ip := y]> (icache f)) f) j n.
Proof.
  intros (x & Hx & Hp & Hn) Hy. unfold refers. cbn [set_icache icache]. destruct (decide (j = ip)) as [->|Hne].
  - exists y. split; [apply list_lookup_insert_eq; by eapply lookup_lt_Some|by apply Hy].
  - exists x. by rewrite list_lookup_insert_ne.
Qed.

(** A slot whose count of references changes, not from or to zero. *)
Lemma cache_count d R held f ip x r : cache d R held f -> icache f !! ip = Some x -> 0 < i_ref x -> 0 < r ->
  cache d (<[i_inum x := r]> R) held (set_icache (<[ip := set_iref r x]> (icache f)) f).
Proof.
  intros Hc Hx Hp Hr.
  pose proof (cache_put d R held f ip x (set_iref r x) Hc Hx) as Hput.
  unfold add_slot, drop_slot in Hput. cbn [set_iref i_ref i_inum] in Hput.
  rewrite (proj2 (Z.ltb_lt 0 _) Hp), (proj2 (Z.ltb_lt 0 _) Hr), insert_delete_eq in Hput. apply Hput.
  - apply entry_ref; [by eapply cache_entry|done|lia].
  - intros Hin. split; [done|]. destruct (c_held _ _ _ _ Hc _ Hin) as (x' & Hx' & _ & Hcp).
    apply copied_ref. congruence.
  - intros _ j z Hj Hz Hz0 E. apply Hj. by eapply (c_apart _ _ _ _ Hc).
Qed.

(** A slot changed and returned under the lock of the cache. *)
Lemma slot_update s ip x y (Q : nat -> fsys -> Prop) : inodes_idle s -> icache (fs s) !! ip = Some x ->
  Q ip (set_icache (<[ip := y x]> (icache (fs s))) (fs s)) ->
  locked_runs icache_lock (upd_ip ip y ;; release icache_lock ;; ret ip) s Q.
Proof.
  intros Hii Hx HQ. eapply locked_bind; [by apply (runs_upd_ip (locked_state icache_lock s) ip x)|].
  cbv beta. intros _ f' ->. apply locked_release_then; [apply idle_set_fs, Hii|apply Hii|]. by apply runs_ret.
Qed.

(** One more reference. *)
Lemma count_up d R held f ip x : cache d R held f -> icache f !! ip = Some x -> 0 < i_ref x ->
  let f' := set_icache (<[ip := set_iref (i_ref x + 1) x]> (icache f)) f in
  cache d (get_ref (i_inum x) R) held f' /\ refers f' ip (i_inum x) /\ forall j n, refers f j n -> refers f' j n.
Proof.
  intros Hc Hx Hp. cbv zeta. split_and!.
  - unfold get_ref. rewrite (cache_ref _ _ _ _ _ _ Hc Hx Hp), Z.add_comm. apply cache_count; [done|done|done|simpl; lia].
  - apply refers_put; [by exists x|]. intros _. cbn [set_iref i_ref i_inum]. split; [lia|done].
  - intros j n Hj. apply refers_put; [done|]. intros ->. destruct Hj as (x' & Hx' & _ & <-).
    cbn [set_iref i_ref i_inum]. split; [lia|congruence].
Qed.

Lemma idup_ok s d R held ip inum : inodes_idle s -> cache d R held (fs s) -> refers (fs s) ip inum ->
  runs (idup ip) s (fun r f' => r = ip /\ cache d (get_ref inum R) held f' /\ refers f' ip inum /\
    forall j n, refers (fs s) j n -> refers f' j n).
Proof.
  intros Hii Hc (x & Hx & Hp & <-). unfold idup. apply runs_acquire; [apply Hii|].
  apply (slot_update s ip x); [done|done|]. split; [done|]. by apply count_up.
Qed.

Lemma iget_ok s d R held inum :
  inodes_idle s -> cache d R held (fs s) -> is_Some (R !! inum) \/ (size R < NINODE)%nat ->
  runs (iget ROOTDEV inum) s (fun ip f' => cache d (get_ref inum R) held f' /\ refers f' ip inum /\
    forall j n, refers (fs s) j n -> refers f' j n).
Proof.
  intros Hii Hc Hroom. pose proof (ii_idle _ Hii) as Hid. pose proof (ii_icache _ Hii) as Hlk.
  unfold iget. apply runs_acquire; [done|]. apply locked_gets. cbn [fs locked_state set_locks set_cpu].
  pose proof (iget_scan_spec (icache (fs s)) 0 ROOTDEV inum None) as Hsc.
  destruct (iget_scan _ _ _ _ _) as [[ip|] r].
  - destruct Hsc as (? & x & -> & Hx & Hp & Hdev & <-). cbn [Nat.add] in *. eapply slot_update; [done|done|]. by apply count_up.
  - destruct Hsc as [Hno [[_ []]|[_ Hr]]]; [done|].
    assert (HR : R !! inum = None).
    { destruct (R !! inum) as [c|] eqn:E; [|done]. apply (c_refs _ _ _ _ Hc) in E as (H0 & i & x & Hx & <- & <-).
      destruct (Hno i x Hx H0); [|done]. by apply (cache_entry _ _ _ _ _ _ Hc Hx). }
    destruct Hroom as [[? ?]|Hroom]; [congruence|].
    destruct r as [ip|]; [|by destruct (free_slot d R held (fs s) Hc Hroom)].
    destruct Hr as (? & x & -> & Hx & H0). cbn [Nat.add] in *. eapply slot_update; [done|done|]. cbv beta.
    set (y := mk_inode _ _ _ _ _ _ _ _ _ _). split_and!.
    + pose proof (cache_put d R held (fs s) _ x y Hc Hx) as Hput. unfold add_slot, drop_slot in Hput. rewrite H0 in Hput.
      unfold get_ref. rewrite HR. apply Hput.
      * split; [done|]. intros _. split; [done|by right].
      * intros Hin. destruct (c_held _ _ _ _ Hc _ Hin) as (x' & Hx' & Hp & _). assert (x' = x) by congruence. subst. lia.
      * intros _ j z _ Hz Hz0. apply (Hno j z Hz Hz0). by apply (cache_entry _ _ _ _ _ _ Hc Hz).
    + exists y. cbn [set_icache icache]. rewrite list_lookup_insert_eq by (by eapply lookup_lt_Some). done.
    + intros j n Hj. apply refers_put; [done|]. intros ->. destruct Hj as (x' & Hx' & Hp & _).
      assert (x' = x) by congruence. subst. lia.
Qed.

(** ** iput *)

(** The slot after its last reference is gone. *)
Lemma cache_drop d R held f ip x : cache d R held f -> icache f !! ip = Some x -> 0 < i_ref x -> ip ∉ held ->
  cache d (delete (i_inum x) R) held (set_icache (<[ip := set_iref 0 x]> (icache f)) f).
Proof.
  intros Hc Hx Hp Hh. pose proof (cache_put d R held f ip x (set_iref 0 x) Hc Hx) as Hput.
  unfold add_slot, drop_slot in Hput. cbn [set_iref i_ref i_inum] in Hput.
  rewrite (proj2 (Z.ltb_lt 0 _) Hp), Z.ltb_irrefl in Hput. apply Hput; [|done|lia].
  split; [done|]. cbn [set_iref i_ref]. lia.
Qed.

(** An inode that the disk says is linked is not removed. *)
Lemma not_removed d x : entry_ok d x -> 0 < i_ref x -> i_nlink (loaded d (i_inum x)) <> 0 ->
  (i_ref x =? 1) && flag_set (i_flags x) I_VALID && (i_nlink x =? 0) = false.
Proof.
  intros [_ Hx] Hp Hn. destruct (Hx Hp) as [_ [Hcp|Hfl]].
  - assert (i_nlink x = i_nlink (loaded d (i_inum x))) as -> by by rewrite Hcp at 1.
    by rewrite (proj2 (Z.eqb_neq _ _) Hn), andb_false_r.
  - rewrite Hfl. change (flag_set 0 I_VALID) with false. by rewrite andb_false_r.
Qed.

Lemma iput_ok s d R held ip inum :
  inodes_idle s -> cache d R held (fs s) -> refers (fs s) ip inum -> ip ∉ held -> i_nlink (loaded d inum) <> 0 ->
  runs (iput ip) s (fun _ f' => cache d (put_ref inum R) held f' /\
    forall j n, refers (fs s) j n -> is_Some (put_ref inum R !! n) -> refers f' j n).
Proof.
  intros Hii Hc (x & Hx & Hp & <-) Hh Hn. pose proof (ii_idle _ Hii) as Hid. pose proof (ii_icache _ Hii) as Hlk.
  unfold iput. apply runs_acquire; [done|].
  eapply locked_bind; [exists x, (fs s); split; [unfold get_ip; cbn; by rewrite Hx|by instantiate (1 := fun r f => r = x /\ f = fs s)]|].
  cbv beta. intros ? ? [-> ->]. rewrite set_fs_id, (not_removed d) by (done || by eapply cache_entry).
  eapply locked_bind; [by apply (runs_ret tt (locked_state icache_lock s) (fun _ f => f = fs s))|].
  cbv beta. intros _ ? ->. rewrite set_fs_id.
  eapply locked_bind; [by apply (runs_upd_ip (locked_state icache_lock s) ip x)|]. cbv beta. intros _ ? ->.
  cbn [fs locked_state set_locks set_cpu].
  apply locked_release; [by apply idle_set_fs|done|]. cbn [fs set_fs].
  unfold put_ref. rewrite (cache_ref _ _ _ _ _ _ Hc Hx Hp). destruct (Z.eqb_spec (i_ref x) 1) as [E|E].
  - rewrite E, Z.sub_diag. split; [by apply cache_drop|].
    intros j n Hj [c Hn']. apply lookup_delete_Some in Hn' as [Hne _]. apply refers_put; [done|]. intros ->.
    destruct Hj as (x' & Hx' & _ & <-). congruence.
  - split; [apply cache_count; [done..|lia]|]. intros j n Hj _. apply refers_put; [done|]. intros ->.
    destruct Hj as (x' & Hx' & _ & <-). cbn [set_iref i_ref i_inum]. split; [lia|congruence].
Qed.

(** ** ilock and iunlock *)

Lemma inode_lock_not_buf i b : (b < NBUF)%nat -> inode_lock i <> buf_lock b.
Proof. change NBUF with 30%nat. unfold inode_lock, buf_lock. lia. Qed.

Lemma crep_slock f i v D H : crep f D H -> crep (slock_set f (inode_lock i) v) D H.
Proof.
  intros (A & [] & ?). exists A. split; [|done]. constructor; try done.
  intros b a Ha. destruct (ar_slot b a Ha) as (x & k & Hb & Hl & Hok). exists x, k. split; [done|]. split; [|done].
  cbn [slock_set set_slocks slocks]. rewrite lookup_insert_ne; [done|]. apply inode_lock_not_buf.
  apply lookup_lt_Some in Ha. congruence.
Qed.

Lemma cache_slock d R held held' f ip v : cache d R held f -> sl_locked v = (if bool_decide (ip ∈ held') then 1 else 0) ->
  (forall j, j <> ip -> j ∈ held' <-> j ∈ held) ->
  (ip ∈ held' -> exists x, icache f !! ip = Some x /\ 0 < i_ref x /\ copied d x) ->
  cache d R held' (slock_set f (inode_lock ip) v).
Proof.
  intros [Hb Hd Hsb Hl Hs Hr Ha Hk Hh] Hv Hiff Hcp. constructor; try done; [by apply crep_slock| |].
  - intros i Hi. cbn [slock_set set_slocks slocks]. destruct (decide (i = ip)) as [->|Hne].
    + rewrite lookup_insert_eq. eauto.
    + rewrite lookup_insert_ne by (unfold inode_lock; lia). destruct (Hk i Hi) as (l & El & Ll). exists l. split; [done|].
      rewrite Ll. by rewrite (bool_decide_ext _ _ (Hiff i Hne)).
  - intros i Hi. destruct (decide (i = ip)) as [->|Hne]; [by apply Hcp|]. apply Hh, Hiff; done.
Qed.

(** The block layer worked between, and gave its blocks back. *)
Lemma cache_frame d R held f f' : cache d R held f -> frame f f' -> disk f' = disk f -> crep f' ∅ [] -> cache d R held f'.
Proof.
  intros [Hb Hd Hsb Hl Hs Hr Ha Hk Hh] [] Ed Hc. constructor; try congruence; rewrite ?fr_icache; try done.
  intros i Hi. rewrite fr_slocks; [by apply Hk|]. intros b. apply inode_lock_not_buf.
Qed.

Lemma st_icache f0 d ws D H f l : st f0 d ws D H f -> st (set_icache l f0) d ws D H (set_icache l f).
Proof.
  intros ([] & Hd & Hw & Hc). split; [by constructor|]. split; [done|]. split; [done|]. by apply crep_icache.
Qed.

Section Ilock.
Context (s : kstate) (d : list (list byte)) (R : gmap Z Z) (held : list nat) (ip : nat) (x : inode).
Hypothesis Hii : inodes_idle s.
Hypothesis Hc : cache d R held (fs s).
Hypothesis Hx : icache (fs s) !! ip = Some x.
Hypothesis Hp : 0 < i_ref x.

Lemma slot_lt : (ip < NINODE)%nat.
Proof using Hc Hx. rewrite <- (c_len _ _ _ _ Hc). by eapply lookup_lt_Some. Qed.

Lemma runs_acquiresleep : ip ∉ held ->
  runs (acquiresleep (inode_lock ip)) s (fun _ f' => exists v, sl_locked v = 1 /\ f' = slock_set (fs s) (inode_lock ip) v).
Proof using Hii Hc Hx.
  intros Hh. destruct (c_locks _ _ _ _ Hc ip slot_lt) as (l & El & Hl). rewrite bool_decide_false in Hl by done.
  eexists _, _. split; [apply (acquiresleep_free s (inode_lock ip) (ii_idle _ Hii) (ii_slk _ Hii ip slot_lt) l El Hl)|].
  eexists. split; [|reflexivity]. done.
Qed.

Lemma iunlock_ok held' : held = ip :: held' -> ip ∉ held' ->
  runs (iunlock ip) s (fun _ f' => cache d R held' f' /\ icache f' = icache (fs s)).
Proof using All.
  intros Eh Hh. destruct (c_locks _ _ _ _ Hc ip slot_lt) as (l & El & Hl).
  rewrite Eh, bool_decide_true in Hl by apply list_elem_of_here. pose proof (ii_slk _ Hii ip slot_lt) as Hlk.
  unfold iunlock, runs. rewrite (bind_ok _ _ _ _ _ (holdingsleep_free s _ (ii_idle _ Hii) Hlk l El)), Hl.
  rewrite (bind_ok (get_ip ip) _ _ x s) by (unfold get_ip; by rewrite Hx).
  rewrite (proj2 (Z.ltb_ge _ 1)) by lia. cbn [negb Z.eqb orb].
  rewrite (releasesleep_free s _ (ii_idle _ Hii) Hlk) with (l := l); [|unfold slk, inode_lock, ptable_lock; lia| |done].
  - eexists _, _. split; [reflexivity|]. split; [|done]. eapply cache_slock; [done| | |done].
    + by rewrite bool_decide_false.
    + intros j Hj. rewrite Eh, elem_of_cons. tauto.
  - intros p Hin Hs. by apply (ii_sleep _ Hii p ip Hin Hs slot_lt).
Qed.

Hypothesis Hh : ip ∉ held.

(** The copy that [ilock] leaves. *)
Definition fresh : inode := set_iref (i_ref x) (loaded d (i_inum x)).

Lemma cache_locked v : sl_locked v = 1 ->
  cache d R (ip :: held) (set_icache (<[ip := fresh]> (icache (fs s))) (slock_set (fs s) (inode_lock ip) v)).
Proof using Hc Hx Hp Hh.
  intros Hv. change (cache d R (ip :: held) (slock_set (set_icache (<[ip := fresh]> (icache (fs s))) (fs s)) (inode_lock ip) v)).
  assert (Hcp : copied d fresh) by done. eapply cache_slock.
  - replace R with (add_slot fresh (drop_slot x R)); [apply cache_put; [done|done| | |]|].
    + split; [simpl; lia|]. intros _. split; [done|by left].
    + done.
    + intros _ j z Hj Hz Hz0 E. apply Hj. by eapply (c_apart _ _ _ _ Hc).
    + unfold add_slot, drop_slot. cbn [fresh set_iref i_ref i_inum loaded]. rewrite (proj2 (Z.ltb_lt 0 _) Hp), insert_delete_eq.
      apply insert_id. by eapply cache_ref.
  - rewrite bool_decide_true; [done|apply list_elem_of_here].
  - intros j Hj. rewrite elem_of_cons. tauto.
  - intros _. exists fresh. cbn [set_icache icache]. rewrite list_lookup_insert_eq by (by eapply lookup_lt_Some). done.
Qed.

Hypothesis Htype : i_type (loaded d (i_inum x)) <> 0.
Hypothesis Hrange : 0 <= IBLOCK (i_inum x) (sb_of (d !!! 1%nat)) < Z.of_nat (length d).

Lemma fresh_type : i_type fresh = i_type (loaded d (i_inum x)).
Proof using. done. Qed.

(** The inode is read from its block. *)
Lemma ilock_load v : sl_locked v = 1 -> i_flags x = 0 -> i_dev x = ROOTDEV ->
  runs (q <- get_sb ;;
    bp <- bread (i_dev x) (IBLOCK (i_inum x) q) ;;
    b <- get_buf bp ;;
    let o := dinode_off (i_inum x) in
    let d := b_data b in
    upd_ip ip (fun i => mk_inode (i_dev i) (i_inum i) (i_ref i) (i_flags i)
      (s16 (word 2 d o)) (s16 (word 2 d (o + 2))) (s16 (word 2 d (o + 4)))
      (s16 (word 2 d (o + 6))) (word 4 d (o + 8)) (addrs_of d o)) ;;
    brelse bp ;;
    upd_ip ip (fun i => set_iflags (Z.lor (i_flags i) I_VALID) i) ;;
    i <- get_ip ip ;;
    when (i_type i =? 0) do panic "ilock: no type") (set_fs (slock_set (fs s) (inode_lock ip) v) s)
  (fun _ f' => cache d R (ip :: held) f' /\ icache f' = <[ip := fresh]> (icache (fs s))).
Proof.
  intros Hv Hfl Hdev. pose proof (ii_idle _ Hii) as Hid. set (f1 := slock_set (fs s) (inode_lock ip) v).
  assert (S1 : st f1 d (dwrites f1) ∅ [] f1).
  { pose proof (st_refl f1 ∅ [] (crep_slock _ ip v _ _ (c_blocks _ _ _ _ Hc))) as S1.
    change (disk f1) with (disk (fs s)) in S1. by rewrite (c_disk _ _ _ _ Hc) in S1. }
  apply runs_gets. cbn [fs set_fs]. change (sb f1) with (sb (fs s)). rewrite (c_sb _ _ _ _ Hc), Hdev.
  eapply runs_bind; [apply (R_bread (set_fs f1 s) f1 d _ ∅ [] (idle_set_fs _ _ Hid) _ S1);
    [done|apply not_elem_of_nil|right; rewrite map_size_empty; change NBUF with 30%nat; simpl; lia]|].
  cbv beta. intros bp f2 S2.
  destruct (R_get (set_fs f2 s) _ _ _ _ _ _ S2 ltac:(by left)) as (y & Ey & Dy & _).
  eapply runs_get_buf; [exact Ey|]. cbn [h_data] in Dy. rewrite Dy. cbv zeta.
  assert (I2 : icache f2 = icache (fs s)) by (destruct S2 as ([] & _); done).
  eapply runs_bind; [apply (runs_upd_ip (set_fs f2 s) ip x); cbn [fs set_fs]; by rewrite I2|]. cbv beta. intros _ f3 ->.
  cbn [fs set_fs]. rewrite I2. set (z := mk_inode _ _ _ _ _ _ _ _ _ _).
  assert (Ez : set_iflags (Z.lor (i_flags z) I_VALID) z = fresh).
  { subst z. unfold fresh, loaded, blk. rewrite lookup_empty. cbn. by rewrite Hfl, Hdev. }
  eapply runs_bind; [eapply (R_brelse (set_fs _ s) _ _ _ _ _ (idle_set_fs s _ Hid)); [apply st_icache, S2|apply read_clean; lia]|].
  cbv beta. intros _ f4 S4. rewrite unread in S4.
  assert (I4 : icache f4 = <[ip := z]> (icache (fs s))) by (destruct S4 as ([] & _); done).
  eapply runs_bind; [apply (runs_upd_ip (set_fs f4 s) ip z); cbn [fs set_fs]; rewrite I4; apply list_lookup_insert_eq;
    by eapply lookup_lt_Some|]. cbv beta. intros _ f5 ->. cbn [fs set_fs]. rewrite I4, Ez, list_insert_insert_eq.
  eapply runs_get_ip; [unfold get_ip; cbn [fs set_fs set_icache icache]; rewrite list_lookup_insert_eq; [done|by eapply lookup_lt_Some]|].
  rewrite fresh_type, (proj2 (Z.eqb_neq _ _) Htype). apply runs_ret. cbn [fs set_fs]. split; [|done].
  pose proof (st_icache _ _ _ _ _ _ (<[ip := fresh]> (icache (fs s))) S4) as (F5 & D5 & _ & C5).
  eapply cache_frame; [apply (cache_locked v Hv)|exact F5| |exact C5].
  rewrite D5. cbn. by rewrite (c_disk _ _ _ _ Hc).
Qed.

Lemma ilock_ok : runs (ilock ip) s (fun _ f' => cache d R (ip :: held) f' /\ icache f' = <[ip := fresh]> (icache (fs s))).
Proof.
  unfold ilock. eapply runs_get_ip; [unfold get_ip; by rewrite Hx|]. rewrite (proj2 (Z.ltb_ge _ 1)) by lia.
  eapply runs_bind; [by apply runs_acquiresleep|]. cbv beta. intros _ f1 (v & Hv & ->).
  eapply runs_get_ip; [unfold get_ip; cbn [fs set_fs slock_set set_slocks icache]; by rewrite Hx|].
  destruct (cache_entry _ _ _ _ _ _ Hc Hx) as [_ He]. destruct (He Hp) as [Hdev [Hcp|Hfl]].
  - assert (i_flags x = I_VALID) as -> by by rewrite Hcp. apply runs_ret. cbn [fs set_fs].
    assert (Ex : <[ip := fresh]> (icache (fs s)) = icache (fs s)).
    { apply list_insert_id. rewrite Hx. f_equal. exact Hcp. }
    split; [|by rewrite Ex]. pose proof (cache_locked v Hv) as Hl. by rewrite Ex in Hl.
  - rewrite Hfl. change (negb (flag_set 0 I_VALID)) with true. by apply ilock_load.
Qed.

End Ilock.

(** ** iinit *)

(** The locks of the first [k] inodes are there; [s0] is the state before. *)
Record locks_up (s0 : kstate) (k : nat) (s : kstate) : Prop := mk_locks_up {
  lu_slk i : (i < k)%nat -> lock_free (slk (inode_lock i)) s;
  lu_slocks i : (i < k)%nat -> exists l, slocks (fs s) !! inode_lock i = Some l /\ sl_locked l = 0;
  lu_icache : lock_free icache_lock s;
  lu_other lk : lk <> icache_lock -> (forall i, lk <> slk (inode_lock i)) -> locks s !! lk = locks s0 !! lk;
  lu_crep : crep (fs s) ∅ [];
  lu_frame : disk (fs s) = disk (fs s0) /\ icache (fs s) = icache (fs s0);
  lu_rest : this_cpu s = this_cpu s0 /\ procs s = procs s0 /\ cur s = cur s0;
}.

Lemma locks_up_turn s0 k s : locks_up s0 k s ->
  exists s', initsleeplock (inode_lock k) "inode" s = Ok tt s' /\ locks_up s0 (S k) s'.
Proof.
  intros [Hs Hl Hi Ho Hc Hf Hr]. eexists. split; [reflexivity|]. constructor; try done.
  - intros i Hik. unfold lock_free. cbn. destruct (decide (i = k)) as [->|Hne].
    + rewrite lookup_insert_eq. by eexists.
    + rewrite lookup_insert_ne by (unfold slk, inode_lock; lia). apply Hs. lia.
  - intros i Hik. cbn. destruct (decide (i = k)) as [->|Hne].
    + rewrite lookup_insert_eq. by eexists.
    + rewrite lookup_insert_ne by (unfold inode_lock; lia). apply Hl. lia.
  - destruct Hi as [n Hn]. exists n. cbn. rewrite lookup_insert_ne; [done|]. unfold slk, inode_lock, icache_lock. lia.
  - intros lk H1 H2. cbn. rewrite lookup_insert_ne by (symmetry; apply H2). by apply Ho.
  - by apply crep_slock.
Qed.

Lemma locks_up_loop s0 : forall n k s, locks_up s0 k s ->
  exists s', for_each (seq k n) (fun i => initsleeplock (inode_lock i) "inode") s = Ok tt s' /\ locks_up s0 (k + n) s'.
Proof.
  induction n as [|n IH]; intros k s Hk; cbn [seq for_each].
  - exists s. by rewrite Nat.add_0_r.
  - destruct (locks_up_turn s0 k s Hk) as (s1 & E1 & H1). rewrite (bind_ok _ _ _ _ _ E1).
    destruct (IH (S k) s1 H1) as (s' & E & H'). exists s'. split; [done|]. by rewrite Nat.add_succ_r.
Qed.

Lemma locks_up_idle s0 s : locks_up s0 NINODE s -> idle s0 ->
  (forall p i, p ∈ procs s0 -> state p = SLEEPING -> (i < NINODE)%nat -> chan p <> inode_lock i) -> inodes_idle s.
Proof.
  intros [Hs Hl Hi Ho Hc Hf (Ecpu & Eprocs & Ecur)] [] Hsl.
  assert (Hfree : forall lk, lk <> icache_lock -> (forall i, lk <> slk (inode_lock i)) -> lock_free lk s0 -> lock_free lk s)
    by (intros lk H1 H2 [n Hn]; exists n; by rewrite Ho).
  constructor; [|done|done|by rewrite Eprocs]. constructor; rewrite ?Ecpu, ?Ecur, ?Eprocs; try done.
  1-3: apply Hfree; [done| |done]; intros i; unfold ptable_lock, bcache_lock, log_lock, slk, inode_lock; lia.
  intros b Hb. apply Hfree; [unfold slk, buf_lock, icache_lock; lia| |by apply idle_slk]. intros i.
  unfold slk. intros E. apply (inode_lock_not_buf i b Hb). lia.
Qed.

(** [iinit] starts the cache, with no references. *)
Lemma iinit_ok s d : idle s -> crep (fs s) ∅ [] -> disk (fs s) = d -> (1 < length d)%nat ->
  length (icache (fs s)) = NINODE -> Forall (fun x => i_ref x = 0) (icache (fs s)) ->
  (forall p i, p ∈ procs s -> state p = SLEEPING -> (i < NINODE)%nat -> chan p <> inode_lock i) ->
  exists s', iinit ROOTDEV s = Ok tt s' /\ inodes_idle s' /\ cache d ∅ [] (fs s') /\ procs s' = procs s /\ cur s' = cur s.
Proof.
  intros Hid Hc Hd Hd1 Hlen Href Hsl. unfold iinit, initlock. rewrite bind_modify.
  destruct (locks_up_loop s NINODE 0 (set_locks (<[icache_lock := mk_spinlock 0 "icache" None]> (locks s)) s)) as (s1 & E1 & H1).
  { constructor; try done; [lia|lia|exists "icache"%string; apply lookup_insert_eq|].
    intros lk Hlk _. cbn. by rewrite lookup_insert_ne. }
  rewrite (bind_ok _ _ _ _ _ E1). pose proof (locks_up_idle _ _ H1 Hid Hsl) as Hii. destruct H1 as [_ Hl _ _ Hc1 [Ed Ei] (_ & Ep & Ec)].
  pose proof (st_refl _ _ _ Hc1) as S1. rewrite Ed, Hd in S1.
  assert (Hrd : runs (readsb ROOTDEV) s1 (fun r f' => r = sb_of (d !!! 1%nat) /\ st (fs s1) d (dwrites (fs s1)) ∅ [] f')).
  { unfold readsb. eapply runs_bind; [apply (R_bread s1 (fs s1) d _ ∅ [] (ii_idle _ Hii) 1 S1);
      [lia|apply not_elem_of_nil|right; rewrite map_size_empty; change NBUF with 30%nat; simpl; lia]|].
    cbv beta. intros bp f2 S2. destruct (R_get (set_fs f2 s1) _ _ _ _ _ _ S2 ltac:(by left)) as (y & Ey & Dy & _).
    eapply runs_get_buf; [exact Ey|]. cbn [h_data] in Dy.
    eapply runs_bind; [eapply (R_brelse (set_fs f2 s1) _ _ _ _ _ (idle_set_fs s1 f2 (ii_idle _ Hii))); [exact S2|apply read_clean; lia]|].
    cbv beta. intros _ f3 S3. rewrite unread in S3. apply runs_ret. split; [|done]. rewrite Dy. unfold blk. by rewrite lookup_empty. }
  destruct Hrd as (r & f2 & E2 & -> & (F2 & Hd2 & _ & Hc2)). rewrite (bind_ok _ _ _ _ _ E2).
  eexists. split; [reflexivity|]. split; [by do 2 apply inodes_idle_set_fs|]. split; [|done]. cbn [fs set_fs].
  assert (Ei2 : icache f2 = icache (fs s)) by (destruct F2; congruence).
  constructor; cbn [set_sb disk icache sb slocks]; rewrite ?Ei2; try done.
  - destruct Hc2 as (A & [] & ?). exists A. split; [|done]. by constructor.
  - eapply Forall_impl; [exact Href|]. intros x E. cbv beta in E. split; lia.
  - intros inum r. rewrite lookup_empty. split; [done|]. intros (H0 & i & x & Hx & <- & _).
    rewrite Forall_lookup in Href. specialize (Href i x Hx). cbv beta in Href. lia.
  - intros i j x y Hx _ H0. rewrite Forall_lookup in Href. specialize (Href i x Hx). cbv beta in Href. lia.
  - intros i Hi. destruct F2. rewrite fr_slocks; [|intros b; apply inode_lock_not_buf]. apply Hl. done.
  - intros i Hi%not_elem_of_nil. done.
Qed.

(** ** The cache as counts of references *)

(** With all the slots in use there is none for another inode. *)
Lemma full_cache d R held f : cache d R held f -> (NINODE <= size R)%nat -> Forall (fun x => i_ref x <> 0) (icache f).
Proof.
  intros [_ _ _ Hl Hs Hr _ _ _] Hsz. set (used := filter (fun x => 0 < i_ref x) (icache f)).
  assert (Hsub : elements (dom R) ⊆+ map i_inum used).
  { apply NoDup_submseteq; [apply NoDup_elements|]. intros n [r Hn]%elem_of_elements%elem_of_dom.
    apply Hr in Hn as (H0 & i & x & Hx & <- & <-). apply list_elem_of_fmap. exists x. split; [done|].
    apply list_elem_of_filter. split; [done|]. by eapply list_elem_of_lookup_2. }
  apply submseteq_length in Hsub. rewrite length_map in Hsub.
  assert (length (elements (dom R)) = size R) by (rewrite <- (size_dom R); done).
  apply Forall_forall. intros x Hx H0.
  pose proof (length_filter_lt (fun x => 0 < i_ref x) (icache f) x Hx) as Hlt. specialize (Hlt ltac:(cbv beta; lia)). unfold used in *. lia.
Qed.

Lemma iget_full s d R held inum : inodes_idle s -> cache d R held (fs s) -> (NINODE <= size R)%nat -> R !! inum = None ->
  iget ROOTDEV inum s = Panic "iget: no inodes".
Proof.
  intros Hii Hc Hsz HR. unfold iget. rewrite (bind_ok _ _ _ _ _ (acquire_free _ _ (ii_icache _ Hii))), bind_gets.
  cbn [fs locked_state set_locks set_cpu]. pose proof (iget_scan_spec (icache (fs s)) 0 ROOTDEV inum None) as Hsc.
  pose proof (full_cache _ _ _ _ Hc Hsz) as Hall. destruct (iget_scan _ _ _ _ _) as [[ip|] r].
  - destruct Hsc as (j & x & -> & Hx & Hp & _ & <-). by rewrite (cache_ref _ _ _ _ _ _ Hc Hx Hp) in HR.
  - destruct Hsc as [_ [[_ []]|[_ Hr]]]; [done|]. destruct r as [ip|]; [|done].
    destruct Hr as (j & x & -> & Hx & H0). rewrite Forall_lookup in Hall. by destruct (Hall j x Hx).
Qed.

Module InodeDemo.

(** The kernel of CacheInit.v on the disk [d], after [iinit]. *)
Definition up (s : kstate) : kstate := DemoFs.final (iinit ROOTDEV s) s.
Definition kernel (d : list (list byte)) : kstate := up (CacheDemo.kernel d).

Lemma up_ok s d : idle s -> crep (fs s) ∅ [] -> disk (fs s) = d -> (1 < length d)%nat ->
  icache (fs s) = replicate NINODE inode0 ->
  (forall p i, p ∈ procs s -> state p = SLEEPING -> (i < NINODE)%nat -> chan p <> inode_lock i) ->
  inodes_idle (up s) /\ cache d ∅ [] (fs (up s)).
Proof.
  intros Hid Hc Hd Hlen Hic Hsl. destruct (iinit_ok s d) as (s' & E & Hii & Hc' & _); try done.
  - by rewrite Hic, length_replicate.
  - rewrite Hic. by apply Forall_replicate.
  - unfold up. rewrite E. done.
Qed.

Lemma inited_up s0 s : inited s0 NBUF s -> icache (fs s0) = replicate NINODE inode0 ->
  Forall (fun p => state p <> SLEEPING) (procs s0) ->
  icache (fs s) = replicate NINODE inode0 /\
  forall p i, p ∈ procs s -> state p = SLEEPING -> (i < NINODE)%nat -> chan p <> inode_lock i.
Proof.
  intros Hi Hic Hsl. destruct (in_frame _ _ _ Hi) as ([] & _). destruct (in_rest _ _ _ Hi) as (_ & -> & _).
  split; [congruence|]. intros p i Hp Hs. rewrite Forall_forall in Hsl. by destruct (Hsl p Hp).
Qed.

Lemma icache_kernel_ok d : (1 < length d)%nat -> inodes_idle (kernel d) /\ cache d ∅ [] (fs (kernel d)).
Proof.
  intros Hd. pose proof (CacheDemo.inited_kernel d) as Hi. destruct (inited_up _ _ Hi) as [H1 H2].
  - reflexivity.
  - change (procs (CacheDemo.before d)) with (procs (DemoFs.start [])). apply (bool_decide_unpack _). by vm_compute.
  - apply (up_ok (CacheDemo.kernel d) d); [apply CacheDemo.idle_kernel|by eapply inited_crep|apply CacheDemo.disk_kernel|done|exact H1|exact H2].
Qed.

End InodeDemo.


