(* ===== verification/PathSpec.v ===== *)
(** * Path names

    [skipelem] against the definition of a path as the non-empty strings
    between its slashes, and [namex] against the lookup by recursion on these
    strings. *)

From Stdlib Require Import FunctionalExtensionality.
From S2P Require Import Prelude Memory CString FsState Machine Spinlock Kalloc Proc Sleeplock Bio Log.
From S2P Require Import Fs.
Local Open Scope Z_scope.
Local Open Scope kernel_scope.

(** ** Specification *)

(** The strings between the slashes; never an empty list. *)
Fixpoint split_slash (p : list byte) : list (list byte) :=
  match p with
  | [] => [[]]
  | b :: q =>
      if bool_decide (b = slash) then [] :: split_slash q
      else match split_slash q with
           | e :: l => (b :: e) :: l
           | [] => [[b]]
           end
  end.

Definition components (p : list byte) : list (list byte) :=
  filter (fun e => e <> []) (split_slash p).

(** ** skipelem *)

Lemma components_slash q : components (slash :: q) = components q.
Proof. unfold components. cbn [split_slash]. rewrite bool_decide_true by done. done. Qed.

Lemma components_skip p : components (skip_slashes p) = components p.
Proof.
  induction p as [|b p IH]; [done|]. cbn [skip_slashes]. case_bool_decide as E; [|done].
  subst b. by rewrite IH, components_slash.
Qed.

Lemma skip_slashes_length p : (length (skip_slashes p) <= length p)%nat.
Proof. induction p as [|b p IH]; [done|]. cbn [skip_slashes]. case_bool_decide; simpl; lia. Qed.

Lemma skip_slashes_head p b q : skip_slashes p = b :: q -> b <> slash.
Proof.
  induction p as [|c p IH]; [done|]. cbn [skip_slashes]. case_bool_decide as E; [done|].
  intros [= <- _]. done.
Qed.

Lemma take_elem_split p e r :
  take_elem p = (e, r) ->
  p = e ++ r /\ slash ∉ e /\
  split_slash p = e :: match r with [] => [] | _ :: r' => split_slash r' end /\
  (r = [] \/ exists r', r = slash :: r').
Proof.
  revert e r. induction p as [|b p IH]; intros e r; cbn [take_elem split_slash].
  - intros [= <- <-]. split_and!; [done|apply not_elem_of_nil|done|by left].
  - case_bool_decide as E.
    + intros [= <- <-]. subst b. split_and!; [done|apply not_elem_of_nil|done|right; eauto].
    + destruct (take_elem p) as [e' r'] eqn:Et. intros [= <- <-].
      destruct (IH e' r' eq_refl) as (-> & Hn & -> & Hr).
      split_and!; [done|rewrite not_elem_of_cons; auto|done|done].
Qed.

Lemma cstr_app e l : Byte.x00 ∉ e -> cstr (e ++ Byte.x00 :: l) = e.
Proof.
  induction e as [|b e IH]; intros Hn; cbn [app cstr].
  - by rewrite decide_True.
  - apply not_elem_of_cons in Hn as [Hb Hn]. rewrite decide_False by congruence. by rewrite IH.
Qed.

Lemma cstr_id e : Byte.x00 ∉ e -> cstr e = e.
Proof.
  induction e as [|b e IH]; intros Hn; cbn [cstr]; [done|].
  apply not_elem_of_cons in Hn as [Hb Hn]. rewrite decide_False by congruence. by rewrite IH.
Qed.

(** The copy of an element to a buffer of [DIRSIZ] bytes. *)
Definition copy_elem (e name : list byte) : list byte :=
  if (DIRSIZ <=? length e)%nat then take DIRSIZ e else splice 0 (e ++ [Byte.x00]) name.

Lemma copy_elem_ok e name :
  Byte.x00 ∉ e -> length name = DIRSIZ ->
  cstr (copy_elem e name) = take DIRSIZ e /\ length (copy_elem e name) = DIRSIZ.
Proof.
  intros Hz Hname. unfold copy_elem. destruct (Nat.leb_spec DIRSIZ (length e)) as [Hd|Hd].
  - split; [|rewrite length_take; lia]. apply cstr_id. intros Hin.
    apply elem_of_take in Hin as (i & Hi & _). apply Hz. by eapply list_elem_of_lookup_2.
  - split; [|rewrite length_splice; [done|rewrite length_app; simpl; lia]].
    unfold splice. rewrite take_0, app_nil_l, <- app_assoc.
    change ([Byte.x00] ++ ?l) with (Byte.x00 :: l). rewrite cstr_app by done. by rewrite take_ge by lia.
Qed.

Lemma skip_slashes_elem c p : c ∉ p -> c ∉ skip_slashes p.
Proof.
  induction p as [|b p IH]; [done|]. cbn [skip_slashes]. intros [? ?]%not_elem_of_cons.
  case_bool_decide; [auto|]. by apply not_elem_of_cons.
Qed.

Lemma skipelem_none p name : skipelem p name = None <-> components p = [].
Proof.
  unfold skipelem. rewrite <- (components_skip p).
  destruct (skip_slashes p) as [|b q] eqn:Es; [done|]. pose proof (skip_slashes_head _ _ _ Es) as Hb.
  destruct (take_elem (b :: q)) as [e r] eqn:Et. split; [done|]. intros Hc. exfalso. revert Hc.
  destruct (take_elem_split _ _ _ Et) as (_ & _ & Hs & _). unfold components. rewrite Hs.
  cbn [take_elem] in Et. rewrite bool_decide_false in Et by done. destruct (take_elem q).
  injection Et as <- _. rewrite filter_cons_True by done. done.
Qed.

Lemma skipelem_some p name rest name' :
  skipelem p name = Some (rest, name') -> Byte.x00 ∉ p ->
  exists e, components p = e :: components rest /\ name' = copy_elem e name /\ Byte.x00 ∉ e /\
    (length rest < length p)%nat /\ Byte.x00 ∉ rest /\ (components rest = [] -> rest = []).
Proof.
  unfold skipelem. pose proof (skip_slashes_length p) as Hl. intros E Hz.
  rewrite <- (components_skip p). apply skip_slashes_elem in Hz.
  destruct (skip_slashes p) as [|b q] eqn:Es; [done|]. pose proof (skip_slashes_head _ _ _ Es) as Hb.
  destruct (take_elem (b :: q)) as [e r] eqn:Et.
  destruct (take_elem_split _ _ _ Et) as (Hp & _ & Hs & Hr).
  assert (He : e <> []).
  { cbn [take_elem] in Et. rewrite bool_decide_false in Et by done. destruct (take_elem q).
    by injection Et as <- _. }
  rewrite Hp in Hz, Hl. apply not_elem_of_app in Hz as [Hze Hzr]. rewrite length_app in Hl.
  assert (0 < length e)%nat by (destruct e; [done|simpl; lia]).
  fold (copy_elem e name) in E. injection E as <- <-. exists e. pose proof (skip_slashes_length r).
  split_and!; [|done|done|lia|by apply skip_slashes_elem|].
  2: { rewrite components_skip. intros Hc. apply (skipelem_none r name) in Hc. revert Hc. unfold skipelem.
       destruct (skip_slashes r) as [|b0 l]; [done|]. by destruct (take_elem (b0 :: l)). }
  rewrite components_skip. unfold components at 1. rewrite Hs, filter_cons_True by done.
  f_equal. destruct Hr as [->|[r' ->]]; [done|]. symmetry. apply components_slash.
Qed.

(** ** The loop of namex *)

Section Devices.
Context (devsw : Z -> devops).

(** The lookup by recursion on the components: it has no bound to run out of. *)
Fixpoint lookup_path (es : list (list byte)) (ip : nat) (nameiparent : bool) (name : list byte) :
    K (option nat * list byte) :=
  match es with
  | [] => if nameiparent then iput ip ;; ret (None, name) else ret (Some ip, name)
  | e :: es =>
      let name := copy_elem e name in
      ilock ip ;;
      i <- get_ip ip ;;
      if negb (i_type i =? T_DIR) then iunlockput ip ;; ret (None, name)
      else if nameiparent && bool_decide (es = []) then iunlock ip ;; ret (Some ip, name)
      else
        r <- dirlookup devsw ip name ;;
        match r with
        | None => iunlockput ip ;; ret (None, name)
        | Some (next, _) => iunlockput ip ;; lookup_path es next nameiparent name
        end
  end.

Lemma namex_loop_walk np : forall k path ip name,
  (length path <= k)%nat -> Byte.x00 ∉ path ->
  namex_loop devsw k ip path np name = lookup_path (components path) ip np name.
Proof.
  induction k as [k IH] using lt_wf_ind. intros path ip name Hk Hz.
  destruct (skipelem path name) as [[rest name']|] eqn:E.
  - destruct (skipelem_some _ _ _ _ E Hz) as (e & Hc & -> & _ & Hl & Hz' & Hnil).
    destruct k as [|k]; [lia|].
    assert (Er : forall next, namex_loop devsw k next rest np (copy_elem e name) =
      lookup_path (components rest) next np (copy_elem e name)) by (intros next; apply IH; [lia|lia|done]).
    assert (Hlast : bool_decide (rest = []) = bool_decide (components rest = [])).
    { apply bool_decide_ext. split; [by intros ->|done]. }
    rewrite Hc. cbn [namex_loop lookup_path]. rewrite E, Hlast. cbv zeta.
    f_equal. apply functional_extensionality. intros _. f_equal.
    apply functional_extensionality. intros i.
    destruct (negb _); [done|]. destruct (np && _); [done|]. f_equal.
    apply functional_extensionality. intros [[next off]|]; [|done]. by rewrite Er.
  - apply skipelem_none in E as Hc. rewrite Hc. destruct k; cbn [namex_loop lookup_path]; by rewrite E.
Qed.

End Devices.

(** [skipelem] walks through the components of a path.  The components are
    the non-empty strings between slashes.  [skipelem] returns 0 exactly when
    there are none; otherwise it leaves the first one in [name], cut off at
    [DIRSIZ] bytes, and returns a path with the others. *)
Theorem skipelem_walks_components path name :
  Byte.x00 ∉ path -> length name = DIRSIZ ->
  match skipelem path name with
  | None => components path = []
  | Some (rest, name') => exists e, components path = e :: components rest /\ e <> [] /\
      cstr name' = take DIRSIZ e /\ length name' = DIRSIZ
  end.
Proof.
  intros Hz Hn. destruct (skipelem path name) as [[rest name']|] eqn:E.
  - destruct (skipelem_some _ _ _ _ E Hz) as (e & Hc & -> & Hze & _). exists e.
    destruct (copy_elem_ok e name Hze Hn) as [Hs Hl].
    split_and!; [done| |done|done]. assert (He : e ∈ components path) by (rewrite Hc; left).
    by apply list_elem_of_filter in He as [? _].
  - by apply skipelem_none in E.
Qed.

(** "a//bb/" *)
Lemma skipelem_walks_components_witness : exists rest name',
  skipelem [Byte.x61; slash; slash; Byte.x62; Byte.x62; slash] (replicate DIRSIZ Byte.x2e) =
    Some (rest, name') /\ components rest = [[Byte.x62; Byte.x62]] /\ cstr name' = [Byte.x61].
Proof.
  pose proof (skipelem_walks_components [Byte.x61; slash; slash; Byte.x62; Byte.x62; slash]
    (replicate DIRSIZ Byte.x2e) ltac:(apply (bool_decide_unpack _); vm_compute; exact I) eq_refl) as H.
  cbn [skipelem] in H. destruct H as (e & He & _ & Hc & _).
  vm_compute in He. injection He as <-.
  do 2 eexists. split; [reflexivity|]. split; [reflexivity|exact Hc].
Defined.

(** The lookup of a path ends.  The loop of [namex] makes one turn for each
    component of the path: [namex] is the lookup that recurs on the list of the
    components, from the root directory for a path that starts with a slash and
    from the current directory otherwise, whatever the directories hold. *)
Theorem namex_terminates devsw path np :
  Byte.x00 ∉ path ->
  namex devsw path np =
    (ip <- (if bool_decide (path !! 0%nat = Some slash) then iget ROOTDEV ROOTINO
            else i <- myproc ;; p <- get_proc i ;;
                 match cwd p with Some c => idup c | None => fault end) ;;
     lookup_path devsw (components path) ip np (replicate DIRSIZ Byte.x00)).
Proof.
  intros Hz. unfold namex. f_equal. apply functional_extensionality. intros ip.
  by apply namex_loop_walk.
Qed.

Lemma namex_terminates_witness :
  namex (fun _ => mk_devops None None) [slash; slash; Byte.x61; slash] false =
    (ip <- iget ROOTDEV ROOTINO ;;
     lookup_path (fun _ => mk_devops None None) [[Byte.x61]] ip false (replicate DIRSIZ Byte.x00)).
Proof.
  apply (namex_terminates (fun _ => mk_devops None None) [slash; slash; Byte.x61; slash] false).
  apply (bool_decide_unpack _). vm_compute. exact I.
Defined.
