(* ===== verification/NameSpec.v ===== *)
(** * Path lookup over the directories of a disk

    What a path means is read off the blocks of the disk ([resolves]): from
    directory to directory, through the first entry with the name.  [namei] finds
    that inode, with [iget], [ilock], [dirlookup] and [iput] on the way, and
    leaves one reference to it in the inode cache and no lock. *)

From stdpp Require Import gmap.
From S2P Require Import Prelude Memory CString FsState Machine Spinlock Kalloc Proc Sleeplock Bio BioSpec.
From S2P Require Import Blocks Log LogSpec Txn Fs FileSpec InodeSpec PathSpec Demo DemoFs CacheInit.
Local Open Scope Z_scope.
Local Open Scope kernel_scope.

(** ** Names *)

Lemma byte_zero b : (byte.unsigned b =? 0) = bool_decide (b = Byte.x00).
Proof. by destruct b. Qed.

Lemma byte_eqb a b : (byte.unsigned a =? byte.unsigned b) = bool_decide (a = b).
Proof.
  apply eq_true_iff_eq. rewrite Z.eqb_eq, bool_decide_eq_true. split; [|by intros ->].
  intros E. rewrite <- (byte.of_Z_unsigned a), <- (byte.of_Z_unsigned b). by rewrite E.
Qed.

(** [strncmp] compares the strings in two arrays of [n] characters. *)
Lemma strncmp_chars_eq n : forall p q, strncmp_chars n p q = 0 <-> cstr (take n p) = cstr (take n q).
Proof.
  assert (Hz : forall b, b <> Byte.x00 -> byte.unsigned b <> 0).
  { intros b Hb. pose proof (byte_zero b) as E. rewrite bool_decide_false in E by done. by apply Z.eqb_neq. }
  induction n as [|n IH]; intros p q; [done|]. cbn [strncmp_chars]. rewrite byte_zero, byte_eqb.
  destruct p as [|a p], q as [|b q]; cbn [lookup list_lookup default take cstr drop from_option id].
  - done.
  - case_decide as Hb; [by subst b|]. specialize (Hz b Hb). rewrite bool_decide_true by done. cbn [negb andb].
    change (byte.unsigned Byte.x00) with 0. split; [lia|done].
  - case_decide as Ha; [by subst a|]. specialize (Hz a Ha). rewrite !bool_decide_false by done.
    cbn [negb andb]. change (byte.unsigned Byte.x00) with 0.
    split; [lia|done].
  - case_decide as Ha; [subst a|].
    + rewrite bool_decide_true by done. cbn [negb andb]. case_decide as Hb; [by subst b|].
      specialize (Hz b Hb). change (byte.unsigned Byte.x00) with 0. split; [lia|done].
    + rewrite (bool_decide_false (a = Byte.x00)) by done. cbn [negb andb]. case_bool_decide as E.
      * subst b. rewrite decide_False, IH, !drop_0 by done. split; [by intros ->|by intros [= ->]].
      * assert (byte.unsigned a <> byte.unsigned b) by (intros Eu; pose proof (byte_eqb a b) as Eb;
          rewrite Eu, Z.eqb_refl, bool_decide_false in Eb by done; done).
        split; [lia|]. case_decide; [done|]. congruence.
Qed.

Lemma namecmp_entry name b : (namecmp name (de_name b) =? 0) = bool_decide (cstr (de_name b) = cstr (take DIRSIZ name)).
Proof.
  apply eq_true_iff_eq. rewrite Z.eqb_eq, bool_decide_eq_true. unfold namecmp. rewrite strncmp_chars_eq.
  unfold de_name at 1. rewrite take_take, Nat.min_id. fold (de_name b). split; intros E; by rewrite E.
Qed.

(** ** Files and directories of a disk *)

(** A file with the contents [c]. *)
Definition file_has (d : list (list byte)) (inum : Z) (c : list byte) : Prop :=
  let i := loaded d inum in
  inode_ok d inum /\ i_type i <> T_DEV /\ i_size i = Z.of_nat (length c) /\
  exists fm ind, maps i fm ind d ∅ /\ (length c <= 512 * length fm)%nat /\ c = take (length c) (contents fm d ∅).

(** The entries of a directory: inode number, 0 for an unused entry, and name. *)
Definition dirents (c : list byte) (n : nat) : list (Z * list byte) :=
  map (fun k => let e := take 16 (drop (16 * k) c) in (de_inum e, cstr (de_name e))) (seq 0 n).

Definition is_dir (d : list (list byte)) (inum : Z) (l : list (Z * list byte)) : Prop :=
  i_type (loaded d inum) = T_DIR /\
  exists c, file_has d inum c /\ length c = (16 * length l)%nat /\ l = dirents c (length l).

Fixpoint find_entry (name : list byte) (l : list (Z * list byte)) : option Z :=
  match l with
  | [] => None
  | (inum, nm) :: l => if (inum =? 0) || negb (bool_decide (nm = name)) then find_entry name l else Some inum
  end.

(** What the path with the components [es] means from the inode [inum]. *)
Inductive resolves (d : list (list byte)) : Z -> list (list byte) -> option Z -> Prop :=
| resolves_here inum : resolves d inum [] (Some inum)
| resolves_no_dir inum e es : inode_ok d inum -> i_type (loaded d inum) <> T_DIR -> resolves d inum (e :: es) None
| resolves_missing inum e es l : is_dir d inum l -> find_entry (take DIRSIZ e) l = None -> resolves d inum (e :: es) None
| resolves_entry inum e es l next r : is_dir d inum l -> find_entry (take DIRSIZ e) l = Some next ->
    resolves d next es r -> resolves d inum (e :: es) r.

(** ** Counting references *)

Section Counts.
Context (R : gmap Z Z).
Hypothesis Hpos : forall n r, R !! n = Some r -> 0 < r.

Lemma put_get a : put_ref a (get_ref a R) = R.
Proof.
  unfold put_ref, get_ref. rewrite lookup_insert_eq. destruct (R !! a) as [r|] eqn:E; cbn [default from_option id].
  - specialize (Hpos a r E). rewrite (proj2 (Z.eqb_neq _ _)) by lia. rewrite insert_insert_eq.
    replace (1 + r - 1) with r by lia. by apply insert_id.
  - rewrite Z.add_0_r. cbn [Z.eqb]. rewrite delete_insert_id; done.
Qed.

Lemma put_get_other a b : put_ref a (get_ref b (get_ref a R)) = get_ref b R.
Proof.
  destruct (decide (a = b)) as [<-|Hne].
  - unfold put_ref, get_ref. rewrite !lookup_insert_eq. cbn [default from_option id].
    destruct (R !! a) as [r|] eqn:E; cbn [default from_option id].
    + specialize (Hpos a r E). rewrite (proj2 (Z.eqb_neq _ _)) by lia. rewrite !insert_insert_eq. f_equal. lia.
    + cbn. by rewrite !insert_insert_eq.
  - transitivity (get_ref b (put_ref a (get_ref a R))); [|by rewrite put_get].
    unfold put_ref, get_ref. rewrite lookup_insert_ne, !lookup_insert_eq by done. case_match.
    + by rewrite delete_insert_ne, lookup_delete_ne.
    + rewrite !lookup_insert_ne by done. by rewrite insert_insert_ne.
Qed.

Lemma get_ref_size a : (size (get_ref a R) <= S (size R))%nat.
Proof.
  unfold get_ref. destruct (R !! a) as [r|] eqn:E.
  - rewrite map_size_insert_Some by eauto. lia.
  - by rewrite map_size_insert_None.
Qed.

End Counts.

(** ** Reading through the cache *)

Lemma maps_ref i fm ind d D r : maps i fm ind d D -> maps (set_iref r i) fm ind d D.
Proof. intros []. by constructor. Qed.

Lemma cache_pos d R held f : cache d R held f -> forall n r, R !! n = Some r -> 0 < r.
Proof. intros Hc n r Hn. by apply (c_refs _ _ _ _ Hc) in Hn as [? _]. Qed.

Section Lookup.
Context (devsw : Z -> devops) (d : list (list byte)) (R : gmap Z Z) (held : list nat).

Lemma read_file_ok s ip x c off n :
  inodes_idle s -> cache d R held (fs s) -> icache (fs s) !! ip = Some x -> copied d x -> file_has d (i_inum x) c ->
  0 <= off -> 0 <= n -> off + n <= Z.of_nat (length c) ->
  runs (readi devsw ip ToVar off n) s (fun r f' => r = (n, take (Z.to_nat n) (drop (Z.to_nat off) c)) /\
    cache d R held f' /\ icache f' = icache (fs s)).
Proof.
  intros Hii Hc Hx Hcp (_ & Hty & Hsz & fm & ind & Hm & Hlen & Hcont) Ho Hn Hend.
  assert (Hx2 : i_type x = i_type (loaded d (i_inum x)) /\ i_size x = i_size (loaded d (i_inum x)))
    by (rewrite Hcp at 1 3; done). destruct Hx2 as [Ht2 Hs2].
  assert (Hst : st (fs s) d (dwrites (fs s)) ∅ [] (fs s)).
  { pose proof (st_refl (fs s) ∅ [] (c_blocks _ _ _ _ Hc)) as H. by rewrite (c_disk _ _ _ _ Hc) in H. }
  eapply runs_mono; [eapply (readi_ok devsw ip x fm ind); try exact Hst|].
  - congruence.
  - lia.
  - apply Hii.
  - exact Hx.
  - rewrite Hcp. by apply maps_ref.
  - rewrite map_size_empty. change NBUF with 30%nat. lia.
  - done.
  - done.
  - lia.
  - cbv beta. intros r f' [-> (Fr & Hd & _ & Hcr)]. split; [|split; [|by destruct Fr]].
    + f_equal. rewrite Hcont. rewrite skipn_firstn_comm, take_take. f_equal. lia.
    + eapply cache_frame; [done|done| |done]. by rewrite Hd, (c_disk _ _ _ _ Hc).
Qed.

(** ** dirlookup *)

Definition looked_up (f : fsys) (o : option Z) (r : option (nat * Z)) (f' : fsys) : Prop :=
  match o with
  | None => r = None /\ cache d R held f' /\ icache f' = icache f
  | Some inum => exists next off, r = Some (next, off) /\ cache d (get_ref inum R) held f' /\ refers f' next inum /\
      forall j n, refers f j n -> refers f' j n
  end.

Section Directory.
Context (ip : nat) (x : inode) (l : list (Z * list byte)) (c name : list byte).
Hypothesis Hcp : copied d x.
Hypothesis Hfile : file_has d (i_inum x) c.
Hypothesis Hlen : length c = (16 * length l)%nat.
Hypothesis Hl : l = dirents c (length l).
Hypothesis Hroom : (size R < NINODE)%nat.

Lemma dirent_at k e : l !! k = Some e ->
  e = (de_inum (take 16 (drop (16 * k) c)), cstr (de_name (take 16 (drop (16 * k) c)))).
Proof using Hl.
  intros He. rewrite Hl in He. unfold dirents in He. rewrite list_lookup_fmap in He.
  destruct (seq 0 (length l) !! k) as [k'|] eqn:Ek; [|done]. apply lookup_seq in Ek as [-> _]. by injection He as <-.
Qed.

Lemma dirlookup_loop_ok : forall fuel k s f0,
  inodes_idle s -> cache d R held (fs s) -> icache (fs s) = icache f0 -> icache f0 !! ip = Some x ->
  (k <= length l)%nat -> (length l <= k + fuel)%nat ->
  runs (dirlookup_loop devsw fuel ip name (16 * Z.of_nat k)) s
    (looked_up f0 (find_entry (cstr (take DIRSIZ name)) (drop k l))).
Proof.
  assert (Hsz : i_size x = 16 * Z.of_nat (length l)).
  { destruct Hfile as (_ & _ & Hs & _). assert (i_size x = i_size (loaded d (i_inum x))) as -> by by rewrite Hcp at 1. lia. }
  induction fuel as [|fuel IH]; intros k s f0 Hii Hc Hic Hx Hk Hf; cbn [dirlookup_loop];
    (eapply runs_get_ip; [unfold get_ip; by rewrite Hic, Hx|]); rewrite Hsz.
  - rewrite (proj2 (Z.ltb_ge _ _)) by lia. rewrite drop_ge by lia. by apply runs_ret.
  - destruct (Z.ltb_spec (16 * Z.of_nat k) (16 * Z.of_nat (length l))) as [Hlt|Hge].
    2: { rewrite drop_ge by lia. by apply runs_ret. }
    destruct (lookup_lt_is_Some_2 l k) as [e He]; [lia|]. rewrite (drop_S _ _ _ He), (dirent_at k e He).
    set (b := take 16 (drop (16 * k) c)) in *. cbn [find_entry].
    eapply runs_bind.
    { unfold read_dirent. eapply runs_bind; [apply (read_file_ok s ip x c _ _ Hii Hc); [congruence|done|done|lia|done|
        change sizeof_dirent with 16; lia]|]. cbv beta. intros r f1 (-> & H1). cbn [fst snd]. rewrite Z.eqb_refl. cbn [negb].
      apply (runs_ret _ _ (fun r f' => r = b /\ cache d R held f' /\ icache f' = icache f0)).
      split; [|by rewrite <- Hic]. unfold b. change (Z.to_nat sizeof_dirent) with 16%nat. f_equal. f_equal. lia. }
    cbv beta. intros r f1 (-> & Hc1 & Hic1).
    assert (Hnext : runs (dirlookup_loop devsw fuel ip name (16 * Z.of_nat k + sizeof_dirent)) (set_fs f1 s)
      (looked_up f0 (find_entry (cstr (take DIRSIZ name)) (drop (S k) l)))).
    { replace (16 * Z.of_nat k + sizeof_dirent) with (16 * Z.of_nat (S k)) by (change sizeof_dirent with 16; lia).
      apply IH; [by apply inodes_idle_set_fs|done|done|done|lia|lia]. }
    destruct (Z.eqb_spec (de_inum b) 0) as [H0|H0]; [exact Hnext|]. cbn [orb].
    rewrite namecmp_entry. case_bool_decide as Hnm; cbn [negb]; [|exact Hnext].
    eapply runs_get_ip; [unfold get_ip; cbn [fs set_fs]; by rewrite Hic1, Hx|].
    assert (i_dev x = ROOTDEV) as -> by by rewrite Hcp.
    eapply runs_bind; [apply (iget_ok (set_fs f1 s) d R held (de_inum b)); [by apply inodes_idle_set_fs|done|by right]|].
    cbv beta. intros next f2 (Hc2 & Hr2 & Hk2). apply runs_ret. exists next, (16 * Z.of_nat k). split_and!; try done.
    intros j n (y & Hy & Hrest). apply Hk2. exists y. cbn [fs set_fs]. rewrite Hic1. done.
Qed.

End Directory.

Lemma dirlookup_ok s ip x l name :
  inodes_idle s -> cache d R held (fs s) -> icache (fs s) !! ip = Some x -> copied d x -> is_dir d (i_inum x) l ->
  (size R < NINODE)%nat ->
  runs (dirlookup devsw ip name) s (looked_up (fs s) (find_entry (cstr (take DIRSIZ name)) l)).
Proof.
  intros Hii Hc Hx Hcp (Hty & c & Hfile & Hlen & Hl) Hroom. unfold dirlookup.
  eapply runs_get_ip; [unfold get_ip; by rewrite Hx|].
  assert (i_type x = T_DIR) as -> by (rewrite <- Hty; by rewrite Hcp at 1). cbn [Z.eqb negb T_DIR Pos.eqb].
  rewrite <- (drop_0 l). apply (dirlookup_loop_ok ip x l c name Hcp Hfile Hlen Hl Hroom _ 0); try done; [lia|].
  assert (i_size x = i_size (loaded d (i_inum x))) as -> by by rewrite Hcp at 1.
  destruct Hfile as (_ & _ & -> & _). unfold dir_entries. change sizeof_dirent with 16. lia_mod.
Qed.

End Lookup.

(** ** The walk *)

Lemma refers_icache f f' j n : icache f' = icache f -> refers f j n -> refers f' j n.
Proof. unfold refers. by intros ->. Qed.

Lemma ilock_refers s d R ip inum :
  inodes_idle s -> cache d R [] (fs s) -> refers (fs s) ip inum -> inode_ok d inum ->
  runs (ilock ip) s (fun _ f' => cache d R [ip] f' /\ (exists x, icache f' !! ip = Some x /\ copied d x /\ i_inum x = inum) /\
    forall j n, refers (fs s) j n -> refers f' j n).
Proof.
  intros Hii Hc (x & Hx & Hp & <-) [Hty _ Hb]. eapply runs_mono; [apply (ilock_ok s d R [] ip x); try done; apply not_elem_of_nil|].
  cbv beta. intros _ f' [Hc' Hic]. split; [done|]. split.
  - exists (fresh d x). rewrite Hic, list_lookup_insert_eq by (by eapply lookup_lt_Some). done.
  - intros j n Hj. apply (refers_icache (set_icache (<[ip := fresh d x]> (icache (fs s))) (fs s))); [done|].
    apply refers_put; [done|]. intros ->. destruct Hj as (x' & Hx' & _ & <-). cbn. split; [done|congruence].
Qed.

Lemma iunlockput_ok s d R ip inum :
  inodes_idle s -> cache d R [ip] (fs s) -> refers (fs s) ip inum -> i_nlink (loaded d inum) <> 0 ->
  runs (iunlockput ip) s (fun _ f' => cache d (put_ref inum R) [] f' /\
    forall j n, refers (fs s) j n -> is_Some (put_ref inum R !! n) -> refers f' j n).
Proof.
  intros Hii Hc Hr Hn. unfold iunlockput. pose proof Hr as (x & Hx & Hp & Hin).
  eapply runs_bind; [apply (iunlock_ok s d R [ip] ip x Hii Hc Hx Hp []); [done|apply not_elem_of_nil]|].
  cbv beta. intros _ f1 [Hc1 Hic]. eapply runs_mono; [eapply (iput_ok (set_fs f1 s)); [by apply inodes_idle_set_fs|done| |apply not_elem_of_nil|done]|].
  { by eapply (refers_icache (fs s)). }
  cbv beta. intros _ f2 [Hc2 Hk]. split; [done|]. intros j n Hj. apply Hk. by eapply (refers_icache (fs s)).
Qed.

(** The result of a lookup: one more reference to what the path means. *)
Definition found (d : list (list byte)) (R : gmap Z Z) (f : fsys) (r : option Z) (o : option nat) (f' : fsys) : Prop :=
  match r with
  | Some n => exists ip, o = Some ip /\ cache d (get_ref n R) [] f' /\ refers f' ip n
  | None => o = None /\ cache d R [] f'
  end /\ forall j n, refers f j n -> is_Some (R !! n) -> refers f' j n.

Section Walk.
Context (devsw : Z -> devops) (d : list (list byte)) (R : gmap Z Z) (inum : Z) (ip : nat) (s : kstate).
Hypothesis Hii : inodes_idle s.
Hypothesis Hc : cache d (get_ref inum R) [] (fs s).
Hypothesis Hr : refers (fs s) ip inum.
Hypothesis Hpos : forall n c, R !! n = Some c -> 0 < c.

Lemma walk_no_dir np e es name : inode_ok d inum -> i_type (loaded d inum) <> T_DIR ->
  runs (lookup_path devsw (e :: es) ip np name) s (fun res f' => found d R (fs s) None (res.1) f').
Proof.
  intros Hok Hty. cbn [lookup_path]. eapply runs_bind; [by apply (ilock_refers s d (get_ref inum R) ip inum)|].
  cbv beta. intros _ f1 (Hc1 & (x & Hx & Hcp & Hin) & Hk1).
  eapply runs_get_ip; [unfold get_ip; cbn [fs set_fs]; by rewrite Hx|].
  assert (i_type x <> T_DIR) as Hne by (rewrite Hcp, Hin; done). rewrite (proj2 (Z.eqb_neq _ _) Hne). cbn [negb].
  eapply runs_bind; [apply (iunlockput_ok (set_fs f1 s) d (get_ref inum R) ip inum);
    [by apply inodes_idle_set_fs|done|by apply Hk1|apply Hok]|].
  cbv beta. intros _ f2 (Hc2 & Hk2). apply runs_ret. rewrite put_get in * by done. split; [done|]. intros j n Hj. by apply Hk2, Hk1.
Qed.

(** One directory of the path: its entry is found, or is not there. *)
Lemma walk_dir np e es name l (Q : option nat * list byte -> fsys -> Prop) :
  np && bool_decide (es = []) = false -> is_dir d inum l -> (size R + 2 <= NINODE)%nat -> Byte.x00 ∉ e -> length name = DIRSIZ ->
  match find_entry (take DIRSIZ e) l with
  | None => forall f' nm, found d R (fs s) None None f' -> Q (None, nm) f'
  | Some next => forall f' ip' nm, length nm = DIRSIZ -> cache d (get_ref next R) [] f' -> refers f' ip' next ->
      (forall j n, refers (fs s) j n -> is_Some (R !! n) -> refers f' j n) ->
      runs (lookup_path devsw es ip' np nm) (set_fs f' s) Q
  end -> runs (lookup_path devsw (e :: es) ip np name) s Q.
Proof.
  intros Hnp Hdir Hroom Hz Hname HQ. pose proof Hdir as (Hty & c & (Hok & _) & _). cbn [lookup_path].
  eapply runs_bind; [by apply (ilock_refers s d (get_ref inum R) ip inum)|].
  cbv beta. intros _ f1 (Hc1 & (x & Hx & Hcp & Hin) & Hk1).
  eapply runs_get_ip; [unfold get_ip; cbn [fs set_fs]; by rewrite Hx|].
  assert (i_type x = T_DIR) as -> by (rewrite Hcp, Hin; done). cbn [Z.eqb negb T_DIR Pos.eqb]. rewrite Hnp.
  pose proof (get_ref_size R inum) as Hsz. rewrite <- Hin in Hdir.
  destruct (copy_elem_ok e name Hz Hname) as [Hnm Hnl].
  eapply runs_bind; [apply (dirlookup_ok devsw d (get_ref inum R) [ip] (set_fs f1 s) ip x l);
    [by apply inodes_idle_set_fs|done|done|done|done|lia]|].
  rewrite (take_ge (copy_elem e name)), Hnm by lia. intros r f2 Hlook.
  destruct (find_entry (take DIRSIZ e) l) as [next|].
  - destruct Hlook as (ip' & off & -> & Hc2 & Hr2 & Hk2). cbn [fs set_fs] in Hk2.
    eapply runs_bind; [apply (iunlockput_ok (set_fs f2 s) d (get_ref next (get_ref inum R)) ip inum); [by apply inodes_idle_set_fs|done|by apply Hk2, Hk1|apply Hok]|].
    cbv beta. intros _ f3 (Hc3 & Hk3). rewrite put_get_other in * by done. cbn [fs set_fs] in Hk3.
    apply HQ; [done|done| |].
    + apply Hk3; [done|]. unfold get_ref. rewrite lookup_insert_eq. by eexists.
    + intros j n Hj Hn. apply Hk3; [by apply Hk2, Hk1|]. unfold get_ref.
      destruct (decide (n = next)) as [->|Hne]; [rewrite lookup_insert_eq; by eexists|by rewrite lookup_insert_ne].
  - destruct Hlook as (-> & Hc2 & Hic2). cbn [fs set_fs] in Hic2.
    assert (Hk2 : forall j n, refers (fs s) j n -> refers f2 j n)
      by (intros j n Hj; apply (refers_icache f1); [done|by apply Hk1]).
    eapply runs_bind; [apply (iunlockput_ok (set_fs f2 s) d (get_ref inum R) ip inum);
      [by apply inodes_idle_set_fs|done|by apply Hk2|apply Hok]|].
    cbv beta. intros _ f3 (Hc3 & Hk3). rewrite put_get in * by done. apply runs_ret. apply HQ. split; [done|].
    intros j n Hj. by apply Hk3, Hk2.
Qed.

End Walk.

Lemma lookup_path_ok devsw d inum es r : resolves d inum es r -> Forall (fun e => Byte.x00 ∉ e) es ->
  forall s ip name R, inodes_idle s -> cache d (get_ref inum R) [] (fs s) -> refers (fs s) ip inum ->
  (forall n c, R !! n = Some c -> 0 < c) -> (size R + 2 <= NINODE)%nat -> length name = DIRSIZ ->
  runs (lookup_path devsw es ip false name) s (fun res f' => found d R (fs s) r (res.1) f').
Proof.
  induction 1 as [inum|inum e es Hok Hty|inum e es l Hdir Hfind|inum e es l next r Hdir Hfind Hres IH];
    intros Hz s ip name R Hii Hc Hr Hpos Hroom Hname.
  - apply runs_ret. split; [by exists ip|done].
  - by apply (walk_no_dir devsw d R inum).
  - apply Forall_cons in Hz as [Hz _]. apply (walk_dir devsw d R inum ip s Hii Hc Hr Hpos false e es name l); try done.
    by rewrite Hfind.
  - apply Forall_cons in Hz as [Hz Hzs]. apply (walk_dir devsw d R inum ip s Hii Hc Hr Hpos false e es name l); try done.
    rewrite Hfind. intros f' ip' nm Hnm Hc' Hr' Hk. eapply runs_mono.
    + apply (IH Hzs (set_fs f' s) ip' nm R); try done. by apply inodes_idle_set_fs.
    + cbv beta. intros res f2 [Hf Hk2]. split; [done|]. intros j n Hj Hn. apply Hk2; [by apply Hk|done].
Qed.

(** The walk of [nameiparent] stops at the last directory, unlocked. *)
Definition parent (d : list (list byte)) (r : option Z) : option Z :=
  match r with Some p => if i_type (loaded d p) =? T_DIR then Some p else None | None => None end.

Definition found_parent (d : list (list byte)) (R : gmap Z Z) (f : fsys) (r : option Z) (e : list byte)
    (res : option nat * list byte) (f' : fsys) : Prop :=
  found d R f r (res.1) f' /\ (r <> None -> cstr (res.2) = take DIRSIZ e).

Lemma found_none d R f e res f' : found d R f None (res.1) f' -> found_parent d R f None e res f'.
Proof. by split. Qed.

Lemma walk_stop devsw d R p ip s e name : inodes_idle s -> cache d (get_ref p R) [] (fs s) -> refers (fs s) ip p ->
  inode_ok d p -> i_type (loaded d p) = T_DIR -> Byte.x00 ∉ e -> length name = DIRSIZ ->
  runs (lookup_path devsw [e] ip true name) s (found_parent d R (fs s) (Some p) e).
Proof.
  intros Hii Hc Hr Hok Hty Hz Hname. cbn [lookup_path]. eapply runs_bind; [by apply (ilock_refers s d (get_ref p R) ip p)|].
  cbv beta. intros _ f1 (Hc1 & (x & Hx & Hcp & Hin) & Hk1).
  eapply runs_get_ip; [unfold get_ip; cbn [fs set_fs]; by rewrite Hx|].
  assert (i_type x = T_DIR) as -> by (rewrite Hcp, Hin; done). rewrite bool_decide_true by done. cbn [Z.eqb negb T_DIR Pos.eqb andb].
  destruct (Hk1 ip p Hr) as (x' & Hx' & Hp & _). assert (x' = x) as -> by congruence.
  eapply runs_bind; [apply (iunlock_ok (set_fs f1 s) d _ [ip] ip x (inodes_idle_set_fs _ _ Hii) Hc1 Hx Hp []);
    [done|apply not_elem_of_nil]|].
  cbv beta. intros _ f2 [Hc2 Hic2]. cbn [fs set_fs] in Hic2. apply runs_ret. split; [|intros _; by apply copy_elem_ok].
  assert (Hk2 : forall j n, refers (fs s) j n -> refers f2 j n) by (intros j n Hj; by apply (refers_icache f1), Hk1).
  split; [|by auto]. exists ip. split; [done|]. split; [done|]. by apply Hk2.
Qed.

Lemma lookup_parent_ok devsw d e inum es r : resolves d inum es r -> Forall (fun e => Byte.x00 ∉ e) (es ++ [e]) ->
  (forall p, r = Some p -> inode_ok d p) ->
  forall s ip name R, inodes_idle s -> cache d (get_ref inum R) [] (fs s) -> refers (fs s) ip inum ->
  (forall n c, R !! n = Some c -> 0 < c) -> (size R + 2 <= NINODE)%nat -> length name = DIRSIZ ->
  runs (lookup_path devsw (es ++ [e]) ip true name) s (found_parent d R (fs s) (parent d r) e).
Proof.
  assert (Hlast : forall es : list (list byte), true && bool_decide (es ++ [e] = []) = false)
    by (intros []; by rewrite bool_decide_false).
  induction 1 as [inum|inum e1 es Hok Hty|inum e1 es l Hdir Hfind|inum e1 es l next r Hdir Hfind Hres IH];
    intros Hz Hp s ip name R Hii Hc Hr Hpos Hroom Hname.
  - apply Forall_cons in Hz as [Hz _]. cbn [parent]. destruct (Z.eqb_spec (i_type (loaded d inum)) T_DIR) as [Hty|Hty].
    + apply (walk_stop devsw d R inum ip s e); auto.
    + eapply runs_mono; [apply (walk_no_dir devsw d R inum ip s Hii Hc Hr Hpos true); auto|]. intros res f'. apply found_none.
  - eapply runs_mono; [by apply (walk_no_dir devsw d R inum)|]. intros res f'. apply found_none.
  - apply Forall_cons in Hz as [Hz _]. apply (walk_dir devsw d R inum ip s Hii Hc Hr Hpos true e1 (es ++ [e]) name l); auto.
    rewrite Hfind. intros f' nm Hf. by apply found_none.
  - apply Forall_cons in Hz as [Hz Hzs]. apply (walk_dir devsw d R inum ip s Hii Hc Hr Hpos true e1 (es ++ [e]) name l); auto.
    rewrite Hfind. intros f' ip' nm Hnm Hc' Hr' Hk. eapply runs_mono.
    + apply (IH Hzs Hp (set_fs f' s) ip' nm R); try done. by apply inodes_idle_set_fs.
    + intros res f2 [[Hf Hk2] Hnm2]. split; [|done]. split; [done|]. intros j n Hj Hn. apply Hk2; [by apply Hk|done].
Qed.

(** ** namei *)

Lemma split_slash_clean p : Byte.x00 ∉ p -> Forall (fun e => Byte.x00 ∉ e) (split_slash p).
Proof.
  induction p as [|b p IH]; intros Hz; cbn [split_slash]; [repeat constructor; apply not_elem_of_nil|].
  apply not_elem_of_cons in Hz as [Hb Hz]. specialize (IH Hz). case_bool_decide.
  - constructor; [apply not_elem_of_nil|done].
  - destruct (split_slash p) as [|e l].
    + apply Forall_singleton, not_elem_of_cons. split; [done|apply not_elem_of_nil].
    + apply Forall_cons in IH as [He Hl]. constructor; [|done]. by apply not_elem_of_cons.
Qed.

Lemma components_clean p : Byte.x00 ∉ p -> Forall (fun e => Byte.x00 ∉ e) (components p).
Proof.
  intros Hz. pose proof (split_slash_clean p Hz) as H. rewrite Forall_forall in *. intros e [_ He]%list_elem_of_filter. by apply H.
Qed.

(** The inode where the lookup of the path starts. *)
Definition starts (s : kstate) (path : list byte) (inum : Z) : Prop :=
  if bool_decide (path !! 0%nat = Some slash) then inum = ROOTINO
  else exists i p c, cur s = Some i /\ procs s !! i = Some p /\ cwd p = Some c /\ refers (fs s) c inum.

Section Namei.
Context (devsw : Z -> devops) (s : kstate) (d : list (list byte)) (R : gmap Z Z) (path : list byte) (inum : Z).
Hypothesis Hz : Byte.x00 ∉ path.
Hypothesis Hii : inodes_idle s.
Hypothesis Hc : cache d R [] (fs s).
Hypothesis Hroom : (size R + 2 <= NINODE)%nat.
Hypothesis Hst : starts s path inum.

(** The first inode has a new reference when the walk begins. *)
Lemma namex_start np (Q : option nat * list byte -> fsys -> Prop) :
  (forall ip f', cache d (get_ref inum R) [] f' -> refers f' ip inum -> (forall j n, refers (fs s) j n -> refers f' j n) ->
    runs (lookup_path devsw (components path) ip np (replicate DIRSIZ Byte.x00)) (set_fs f' s) Q) ->
  runs (namex devsw path np) s Q.
Proof.
  intros Hk. unfold namex. apply (runs_bind _ _ s (fun ip f' => cache d (get_ref inum R) [] f' /\ refers f' ip inum /\
    forall j n, refers (fs s) j n -> refers f' j n)).
  - unfold starts in Hst. case_bool_decide.
    + subst inum. apply iget_ok; [done|done|]. right. lia.
    + destruct Hst as (i & p & c & Hi & Hp & Hcw & Hr). unfold runs.
      rewrite (bind_ok myproc _ _ i s) by (unfold myproc; by rewrite Hi).
      rewrite (bind_ok (get_proc i) _ _ p s) by (unfold get_proc; by rewrite Hp). rewrite Hcw.
      eapply runs_mono; [by apply (idup_ok s d R [] c inum)|]. by intros ? f' [-> ?].
  - cbv beta. intros ip f1 (Hc1 & Hr1 & Hk1). rewrite namex_loop_walk by done. by apply Hk.
Qed.

Lemma namei_ok r : resolves d inum (components path) r -> runs (namei devsw path) s (found d R (fs s) r).
Proof.
  intros Hres. unfold namei. eapply runs_bind.
  - apply namex_start. intros ip f1 Hc1 Hr1 Hk1.
    eapply runs_mono; [apply (lookup_path_ok devsw d inum (components path) r Hres) with (R := R); try done|].
    + by apply components_clean.
    + by apply inodes_idle_set_fs.
    + by eapply cache_pos.
    + intros res f2 [Hf Hk2]. instantiate (1 := fun res f' => found d R (fs s) r (res.1) f'). split; [done|].
      intros j n Hj. by apply Hk2, Hk1.
  - cbv beta. intros res f2 Hf. by apply runs_ret.
Qed.

Lemma nameiparent_ok es e r : components path = es ++ [e] -> resolves d inum es r -> (forall p, r = Some p -> inode_ok d p) ->
  runs (nameiparent devsw path) s (found_parent d R (fs s) (parent d r) e).
Proof.
  intros Hcomp Hres Hp. unfold nameiparent. apply namex_start. intros ip f1 Hc1 Hr1 Hk1. rewrite Hcomp.
  eapply runs_mono; [apply (lookup_parent_ok devsw d e inum es r Hres) with (R := R); try done|].
  - rewrite <- Hcomp. by apply components_clean.
  - by apply inodes_idle_set_fs.
  - by eapply cache_pos.
  - intros res f2 [[Hf Hk2] Hnm]. split; [|done]. split; [done|]. intros j n Hj. by apply Hk2, Hk1.
Qed.

End Namei.

(** C11: a path is looked up as the directories on the disk say.  From the root
    for a path that starts with a slash, and from the current directory of the
    process otherwise, [namei] finds the inode that the components of the path
    lead to ([resolves]), or fails where a component is not there or is not in a
    directory; [nameiparent] finds the directory that has the last component,
    and copies this component.  Either way the cache of inodes has one more
    reference to what was found and is otherwise as before: the references
    taken on the way are given back, and no inode stays locked. *)
Theorem namei_resolves devsw s d R path inum r :
  Byte.x00 ∉ path -> inodes_idle s -> cache d R [] (fs s) -> (size R + 2 <= NINODE)%nat -> starts s path inum ->
  (resolves d inum (components path) r -> runs (namei devsw path) s (found d R (fs s) r)) /\
  (forall es e, components path = es ++ [e] -> resolves d inum es r -> (forall p, r = Some p -> inode_ok d p) ->
    runs (nameiparent devsw path) s (found_parent d R (fs s) (parent d r) e)).
Proof.
  intros Hz Hii Hc Hroom Hst. split; [by apply namei_ok|]. intros es e. by apply nameiparent_ok with (inum := inum).
Qed.

Module NameDemo.

(** The root directory of the image. *)
Definition root : list (Z * list byte) :=
  [(1, [Byte.x2e]); (1, [Byte.x2e; Byte.x2e]); (2, DemoFs.name_a); (3, DemoFs.name_b); (4, DemoFs.name_x)].

Lemma root_ok : is_dir DemoFs.image ROOTINO root.
Proof.
  split; [by vm_compute|]. exists (take 80 DemoFs.root_dir). split; [|split; by vm_compute].
  split; [constructor; by vm_compute|]. split; [by vm_compute|]. split; [by vm_compute|]. exists [36], 0. split; [constructor|].
  - by vm_compute.
  - vm_compute. lia.
  - apply Forall_singleton. split; [lia|by vm_compute].
  - intros [|q] a Hq _; [injection Hq as <-; by vm_compute|done].
  - by vm_compute.
  - cbn. lia.
  - intros [|q] a Hq; [lia|done].
  - apply NoDup_singleton.
  - cbn. lia.
  - apply Forall_singleton. by vm_compute.
  - split; [vm_compute; lia|by vm_compute].
Qed.

Lemma b_resolves : resolves DemoFs.image ROOTINO (components (slash :: DemoFs.name_b)) (Some 3).
Proof.
  replace (components (slash :: DemoFs.name_b)) with [DemoFs.name_b] by by vm_compute.
  apply (resolves_entry _ _ _ _ root 3); [exact root_ok|by vm_compute|apply resolves_here].
Qed.

End NameDemo.

(** "/b" is the inode 3. *)
Lemma namei_resolves_witness : exists ip f,
  namei DemoFs.no_devices (slash :: DemoFs.name_b) (InodeDemo.kernel DemoFs.image) =
    Ok (Some ip) (set_fs f (InodeDemo.kernel DemoFs.image)) /\ refers f ip 3.
Proof.
  destruct (InodeDemo.icache_kernel_ok DemoFs.image) as [Hii Hc]; [vm_compute; lia|].
  destruct (namei_resolves DemoFs.no_devices _ _ _ (slash :: DemoFs.name_b) ROOTINO (Some 3)
    ltac:(apply (bool_decide_unpack _); vm_compute; exact I) Hii Hc ltac:(rewrite map_size_empty; change NINODE with 50%nat; lia) eq_refl) as [H _].
  destruct (H NameDemo.b_resolves) as (r & f & E & (ip & -> & _ & Hr) & _). exists ip, f. split; [exact E|exact Hr].
Defined.
