(* ===== verification/ProcSpec.v ===== *)
(** * The process table

    [allocproc] keeps the process table well formed (the processes in use have
    identifiers of their own) and builds the kernel stack that a new process
    starts on. *)

From S2P Require Import Prelude Memory CString FsState Machine Spinlock Kalloc Proc Pages.
Local Open Scope Z_scope.
Local Open Scope kernel_scope.

(** ** The search for a slot *)

Lemma find_proc_some f ps : forall k i,
  find_proc f ps k = Some i ->
  exists j p, i = (k + j)%nat /\ ps !! j = Some p /\ f p = true /\
    forall j' p', (j' < j)%nat -> ps !! j' = Some p' -> f p' = false.
Proof.
  induction ps as [|p ps IH]; intros k i; simpl; [done|].
  destruct (f p) eqn:E.
  - intros [= <-]. exists 0%nat, p. split_and!; [lia|done|done|lia].
  - intros (j & q & -> & Hj & Hq & Hfirst)%IH. exists (S j), q. split_and!; [lia|done|done|].
    intros [|j'] p' Hlt; simpl; [by intros [= <-]|]. apply Hfirst. lia.
Qed.

Lemma find_proc_none f ps : forall k, find_proc f ps k = None -> Forall (fun p => f p = false) ps.
Proof.
  induction ps as [|p ps IH]; intros k; simpl; [constructor|].
  destruct (f p) eqn:E; [done|]. intros H. constructor; eauto.
Qed.

(** ** The invariant *)

(** Every identifier was given out, and no two processes in use share one. *)
Record ptable_ok (s : kstate) : Prop := mk_ptable_ok {
  pt_length : length (procs s) = NPROC;
  pt_given : forall i p, procs s !! i = Some p -> pid p < nextpid s;
  pt_unique : forall i j p q, procs s !! i = Some p -> procs s !! j = Some q ->
    state p <> UNUSED -> state q <> UNUSED -> pid p = pid q -> i = j;
}.

(** A slot that is taken with the next identifier. *)
Lemma ptable_ok_take s s' i p :
  ptable_ok s -> procs s' = <[i := p]> (procs s) -> nextpid s' = nextpid s + 1 ->
  pid p = nextpid s -> ptable_ok s'.
Proof.
  intros [Hl Hg Hu] Hp Hn Hpid. constructor; rewrite Hp.
  - by rewrite length_insert.
  - intros j q. rewrite Hn. intros [(-> & <- & _)|(_ & Hq)]%list_lookup_insert_Some; [lia|].
    specialize (Hg j q Hq). lia.
  - intros j k q r.
    intros [(-> & <- & _)|(Hj & Hq)]%list_lookup_insert_Some [(-> & <- & _)|(Hk & Hr)]%list_lookup_insert_Some;
      intros H1 H2 H3; [done|..|by eapply Hu].
    + specialize (Hg _ _ Hr). lia.
    + specialize (Hg _ _ Hq). lia.
Qed.

(** ** allocproc *)

Definition unused (p : proc) : bool := bool_decide (state p = UNUSED).

(** The slot [i] taken: what [allocproc] does under the lock. *)
Definition taken (i : nat) (s : kstate) : kstate :=
  set_cpu (cpu_norm (this_cpu s)) (set_nextpid (s32 (nextpid s + 1))
    (set_procs (alter (set_pid (nextpid s)) i (alter (set_state EMBRYO) i (procs s))) s)).

Lemma allocproc_slot s i trapret fk :
  lock_free ptable_lock s -> cpu_wf (this_cpu s) -> find_proc unused (procs s) 0 = Some i ->
  allocproc trapret fk s =
    (ks <- kalloc ;;
     upd_proc i (set_kstack ks) ;;
     if ks =? 0 then upd_proc i (set_state UNUSED) ;; ret None
     else
       upd_proc i (set_tf (ks + KSTACKSIZE - sizeof_trapframe)) ;;
       kstore 8 (ks + KSTACKSIZE - sizeof_trapframe - 8) trapret ;;
       upd_proc i (set_context (ks + KSTACKSIZE - sizeof_trapframe - 8 - sizeof_context)) ;;
       kmem_op [(ks + KSTACKSIZE - sizeof_trapframe - 8 - sizeof_context, sizeof_context)]
         (fun m => memset m (ks + KSTACKSIZE - sizeof_trapframe - 8 - sizeof_context) 0 sizeof_context) ;;
       kstore 8 (ks + KSTACKSIZE - sizeof_trapframe - 8 - sizeof_context + ctx_rip) fk ;;
       ret (Some i)) (taken i s).
Proof.
  intros Hl Hc Hf. unfold allocproc. rewrite (bind_ok _ _ _ _ _ (acquire_free _ _ Hl)), bind_gets.
  change (procs (locked_state ptable_lock s)) with (procs s). unfold unused in Hf. rewrite Hf.
  unfold upd_proc. rewrite bind_modify, bind_gets, !bind_modify.
  erewrite bind_ok; [|apply (release_held ptable_lock _ s); done]. reflexivity.
Qed.

(** The memory with the start of the stack at [ks] built: the address that
    [forkret] returns to, and below it the context, zero but for its [rip]. *)
Definition stack_mem (m : memory) (ks trapret fk : Z) : memory :=
  storeZ 8 (memset (storeZ 8 m (ks + 3912) trapret) (ks + 3856) 0 56) (ks + 3904) fk.

Lemma stack_mem_loads m ks trapret fk :
  0 <= trapret < 2 ^ 64 -> 0 <= fk < 2 ^ 64 ->
  loadZ 8 (stack_mem m ks trapret fk) (ks + 3912) = trapret /\
  loadZ 8 (stack_mem m ks trapret fk) (ks + 3904) = fk /\
  load_bytes (stack_mem m ks trapret fk) (ks + 3856) 48 = replicate 48 Byte.x00.
Proof.
  intros Ht Hf. unfold stack_mem. rewrite memset_block by lia. split_and!.
  - rewrite loadZ_storeZ_disjoint, loadZ_store_disjoint by (rewrite ?length_replicate; lia).
    rewrite loadZ_store_same. apply Z.mod_small. exact Ht.
  - rewrite loadZ_store_same. apply Z.mod_small. exact Hf.
  - rewrite load_bytes_storeZ_disjoint by lia.
    rewrite <- (take_load_bytes _ _ 56 48), load_store_same by (done || lia). reflexivity.
Qed.

Lemma stack_mem_page e m ks p trapret fk :
  kpage e ks -> kpage e p -> p <> ks -> page_agree m (stack_mem m ks trapret fk) p.
Proof.
  intros Hk Hp Hne. unfold stack_mem. rewrite memset_block by lia.
  eapply page_agree_trans; [by eapply (page_agree_storeZ e m p ks 3912 8); unfold PGSIZE; try lia|].
  eapply page_agree_trans;
    [apply (page_agree_store e _ p ks 3856 (replicate (Z.to_nat 56) (byte.of_Z 0)) Hp Hk Hne); done|].
  by eapply (page_agree_storeZ e _ p ks 3904 8); unfold PGSIZE; try lia.
Qed.

(** The part of [allocproc] after the allocation, on the page [ks]. *)
Lemma build_stack e s i ks trapret fk :
  kpage e ks ->
  (upd_proc i (set_tf (ks + KSTACKSIZE - sizeof_trapframe)) ;;
   kstore 8 (ks + KSTACKSIZE - sizeof_trapframe - 8) trapret ;;
   upd_proc i (set_context (ks + KSTACKSIZE - sizeof_trapframe - 8 - sizeof_context)) ;;
   kmem_op [(ks + KSTACKSIZE - sizeof_trapframe - 8 - sizeof_context, sizeof_context)]
     (fun m => memset m (ks + KSTACKSIZE - sizeof_trapframe - 8 - sizeof_context) 0 sizeof_context) ;;
   kstore 8 (ks + KSTACKSIZE - sizeof_trapframe - 8 - sizeof_context + ctx_rip) fk ;;
   ret (Some i)) s =
  Ok (Some i) (set_mem (stack_mem (mem s) ks trapret fk)
    (set_procs (alter (set_context (ks + 3856)) i (alter (set_tf (ks + 3920)) i (procs s))) s)).
Proof.
  intros Hk. change KSTACKSIZE with 4096. change sizeof_trapframe with 176.
  change sizeof_context with 56. change ctx_rip with 48.
  replace (ks + 4096 - 176 - 8 - 56 + 48) with (ks + 3904) by lia.
  replace (ks + 4096 - 176 - 8 - 56) with (ks + 3856) by lia.
  replace (ks + 4096 - 176 - 8) with (ks + 3912) by lia.
  replace (ks + 4096 - 176) with (ks + 3920) by lia.
  unfold upd_proc. rewrite bind_modify.
  rewrite (bind_ok _ _ _ _ _ (kstore_page e ks 3912 8 _ _ Hk ltac:(lia) ltac:(done))), bind_modify.
  erewrite bind_ok.
  2: { unfold kmem_op. cbn [forallb fst snd].
       rewrite (kmapped_in_page e ks 3856 56 Hk) by (unfold PGSIZE; lia). reflexivity. }
  rewrite (bind_ok _ _ _ _ _ (kstore_page e ks 3904 8 _ _ Hk ltac:(lia) ltac:(done))).
  by destruct s.
Qed.

Lemma alter_as_insert {A} (f : A -> A) i (l : list A) x : l !! i = Some x -> alter f i l = <[i := f x]> l.
Proof.
  revert i. induction l as [|y l IH]; intros [|i] H; simpl in *; [done..|by injection H as ->|].
  unfold alter in IH. by rewrite IH.
Qed.

Lemma alter_alter {A} (f g : A -> A) i (l : list A) :
  alter f i (alter g i l) = alter (fun x => f (g x)) i l.
Proof. revert i. induction l as [|y l IH]; intros [|i]; simpl; [done..|]. unfold alter in IH. by rewrite IH. Qed.

(** The new process: what the fields of its slot hold when [allocproc] returns. *)
Definition new_proc (s : kstate) (ks : Z) (p : proc) : proc :=
  set_context (ks + 3856) (set_tf (ks + 3920) (set_kstack ks (set_pid (nextpid s) (set_state EMBRYO p)))).

(** [allocproc] with a free slot and a free page. *)
Lemma allocproc_ok s i p ks fl own trapret fk :
  lock_free ptable_lock s -> kmem_ready s -> owned s (ks :: fl) own ->
  find_proc unused (procs s) 0 = Some i -> procs s !! i = Some p ->
  exists s', allocproc trapret fk s = Ok (Some i) s' /\ procs s' = <[i := new_proc s ks p]> (procs s) /\
    nextpid s' = s32 (nextpid s + 1) /\ mem s' = stack_mem (mem s) ks trapret fk /\
    owned s' fl (ks :: own) /\ Forall (page_agree (mem s) (mem s')) own.
Proof.
  intros Hl [Hc Hm] Ho Hf Hp. rewrite (allocproc_slot s i) by done.
  assert (Hr1 : kmem_ready (taken i s)) by (split; [by apply cpu_wf_norm|done]).
  destruct (owned_kalloc (taken i s) ks fl own Hr1 Ho) as [Ek Ho1].
  assert (Hk : kpage (kend s) ks) by (apply (owned_page _ _ _ ks Ho1); by left).
  rewrite (bind_ok _ _ _ _ _ Ek). unfold upd_proc at 1. rewrite bind_modify.
  rewrite (proj2 (Z.eqb_neq ks 0)) by (by eapply kpage_nonzero).
  rewrite (build_stack (kend s)) by done. eexists. split; [reflexivity|]. cbn [procs nextpid mem set_mem
    set_procs set_freelist kmem_norm set_cpu taken set_nextpid].
  assert (Hother : forall q, kpage (kend s) q -> q <> ks ->
    page_agree (mem s) (stack_mem (mem s) ks trapret fk) q) by (intros; by eapply stack_mem_page).
  split_and!; [|done|done|..].
  - rewrite !alter_alter. by rewrite (alter_as_insert _ _ _ _ Hp).
  - apply (owned_mem _ _ fl (ks :: own)); [|exact Ho1]. apply Forall_forall. intros q Hq.
    apply Hother; [|by eapply (owned_ne _ _ _ q ks Ho1); [|left]].
    destruct Ho1 as ((_ & _ & Hfl) & _). rewrite Forall_forall in Hfl. by apply Hfl.
  - apply Forall_forall. intros q Hq. apply Hother; [by apply (owned_page _ _ _ q Ho1); right|].
    destruct Ho as (_ & Hnd & _). intros ->. rewrite <- app_comm_cons in Hnd. apply NoDup_cons in Hnd as [Hin _]. set_solver.
Qed.

(** [allocproc] with a free slot and no free page. *)
Lemma allocproc_no_page s i p own trapret fk :
  lock_free ptable_lock s -> kmem_ready s -> owned s [] own ->
  find_proc unused (procs s) 0 = Some i -> procs s !! i = Some p ->
  exists s', allocproc trapret fk s = Ok None s' /\
    procs s' = <[i := set_state UNUSED (set_kstack 0 (set_pid (nextpid s) (set_state EMBRYO p)))]> (procs s) /\
    nextpid s' = s32 (nextpid s + 1) /\ owned s' [] own /\ mem s' = mem s.
Proof.
  intros Hl [Hc Hm] Ho Hf Hp. rewrite (allocproc_slot s i) by done.
  assert (Hr1 : kmem_ready (taken i s)) by (split; [by apply cpu_wf_norm|done]).
  destruct (owned_kalloc_none (taken i s) own Hr1 Ho) as [Ek Ho1].
  rewrite (bind_ok _ _ _ _ _ Ek). unfold upd_proc. rewrite bind_modify. cbn [Z.eqb].
  rewrite bind_modify. eexists. split; [reflexivity|]. cbn [procs nextpid mem set_mem
    set_procs kmem_norm set_cpu taken set_nextpid].
  split_and!; [|done..].
  rewrite !alter_alter. by rewrite (alter_as_insert _ _ _ _ Hp).
Qed.

(** [allocproc] keeps the process table well formed.  Either every slot is
    in use and it returns no process, or it takes the first unused slot: with no
    free page for the kernel stack the slot is unused again; otherwise the new
    process is an embryo with an identifier that no other process has, its
    kernel stack is the first free page, its saved context starts in [forkret]
    with all other registers zero, and [forkret] returns to [syscall_trapret]. *)
Theorem allocproc_keeps_table s fl own trapret fk :
  lock_free ptable_lock s -> kmem_ready s -> owned s fl own -> ptable_ok s ->
  0 <= nextpid s < 2 ^ 31 - 1 -> 0 <= trapret < 2 ^ 64 -> 0 <= fk < 2 ^ 64 ->
  (Forall (fun p => state p <> UNUSED) (procs s) /\
   allocproc trapret fk s = Ok None (set_cpu (cpu_norm (this_cpu s)) s)) \/
  exists i s' p, procs s' = <[i := p]> (procs s) /\ ptable_ok s' /\
    (exists p0, procs s !! i = Some p0 /\ state p0 = UNUSED) /\
    (forall j q, (j < i)%nat -> procs s !! j = Some q -> state q <> UNUSED) /\
    match fl with
    | [] => allocproc trapret fk s = Ok None s' /\ state p = UNUSED /\ owned s' [] own
    | ks :: fl' =>
        allocproc trapret fk s = Ok (Some i) s' /\ state p = EMBRYO /\ pid p = nextpid s /\
        kstack p = ks /\ tf p = ks + KSTACKSIZE - sizeof_trapframe /\
        loadZ 8 (mem s') (context p + ctx_rip) = fk /\
        load_bytes (mem s') (context p) 48 = replicate 48 Byte.x00 /\
        loadZ 8 (mem s') (context p + sizeof_context) = trapret /\
        owned s' fl' (ks :: own) /\ Forall (page_agree (mem s) (mem s')) own
    end.
Proof.
  intros Hl Hr Ho Hpt Hn Ht Hfk.
  destruct (find_proc unused (procs s) 0) as [i|] eqn:Hf; [right|left].
  - pose proof (find_proc_some _ _ _ _ Hf) as (j & p0 & E & Hp0 & Hu & Hfirst).
    simpl in E. subst j. apply bool_decide_eq_true in Hu.
    assert (Hfirst' : forall j q, (j < i)%nat -> procs s !! j = Some q -> state q <> UNUSED)
      by (intros j q Hj Hq; by apply (bool_decide_eq_false (state q = UNUSED)), (Hfirst j q)).
    assert (Hs : s32 (nextpid s + 1) = nextpid s + 1) by (apply s32_small; lia).
    exists i. destruct fl as [|ks fl].
    + destruct (allocproc_no_page s i p0 own trapret fk) as (s' & E & Ep & En & Ho' & _); try done.
      exists s'. eexists. split; [exact Ep|]. split; [|split_and!; eauto].
      eapply ptable_ok_take; [done|exact Ep|congruence|done].
    + destruct (allocproc_ok s i p0 ks fl own trapret fk) as (s' & E & Ep & En & Em & Ho' & Hpg); try done.
      exists s'. eexists. split; [exact Ep|]. split; [|split; [eauto|split; [done|]]].
      { eapply ptable_ok_take; [done|exact Ep|congruence|done]. }
      destruct (stack_mem_loads (mem s) ks trapret fk Ht Hfk) as (L1 & L2 & L3).
      rewrite Em. unfold new_proc. cbn [state pid kstack tf context set_context set_tf set_kstack set_pid set_state].
      change KSTACKSIZE with 4096. change sizeof_trapframe with 176.
      change sizeof_context with 56. change ctx_rip with 48.
      replace (ks + 3856 + 48) with (ks + 3904) by lia. replace (ks + 3856 + 56) with (ks + 3912) by lia.
      rewrite Em in Hpg. split_and!; try done. lia.
  - split.
    + eapply Forall_impl; [by eapply find_proc_none|]. cbv beta. intros p Hp.
      by apply bool_decide_eq_false in Hp.
    + unfold allocproc. rewrite (bind_ok _ _ _ _ _ (acquire_free _ _ Hl)), bind_gets.
      change (procs (locked_state ptable_lock s)) with (procs s). unfold unused in Hf. rewrite Hf.
      erewrite bind_ok; [|apply (release_held ptable_lock _ s); [done|apply Hr|done..]].
      by destruct s.
Qed.

Module TableDemo.

(** An empty process table, and one free page. *)
Definition kernel : kstate :=
  set_locks {[ptable_lock := mk_spinlock 0 "ptable" None]} one_page.

Lemma table : ptable_ok kernel.
Proof.
  constructor.
  - apply length_replicate.
  - intros i p [-> _]%lookup_replicate. reflexivity.
  - intros i j p q [-> _]%lookup_replicate _ H. by destruct H.
Qed.

Lemma page : kmem_ready kernel /\ owned kernel [KERNBASE + 0x200000] [].
Proof.
  destruct one_page_ok as [[? Hu] Hk]. split; [split; [done|]|].
  - intros Hz. by destruct Hz.
  - split_and!; [exact Hk|rewrite app_nil_r; apply NoDup_singleton|constructor].
Qed.

End TableDemo.

Lemma allocproc_keeps_table_witness : exists s' p,
  allocproc 0x1000 0x2000 TableDemo.kernel = Ok (Some 0%nat) s' /\ ptable_ok s' /\
  procs s' !! 0%nat = Some p /\ pid p = 1 /\ loadZ 8 (mem s') (context p + ctx_rip) = 0x2000.
Proof.
  destruct TableDemo.page as [H1 H2].
  destruct (allocproc_keeps_table TableDemo.kernel _ _ 0x1000 0x2000 ltac:(by exists "ptable"%string) H1 H2
    TableDemo.table) as [[Hall _]|(i & s' & p & Ep & Hok & _ & Hfirst & E & _ & Hpid & _ & _ & Hrip & _)];
    [vm_compute; split; congruence|lia|lia|..].
  - apply (Forall_lookup_1 _ _ 0%nat proc0) in Hall; [by destruct Hall|done].
  - assert (i = 0%nat) as ->.
    { destruct i; [done|]. by destruct (Hfirst 0%nat proc0 ltac:(lia) ltac:(done)). }
    exists s', p. split_and!; [exact E|exact Hok|by rewrite Ep|exact Hpid|exact Hrip].
Defined.
