(* ===== verification/ExitSpec.v ===== *)
(** * exit

    A process that exits wakes its parent, passes its children to the first
    process and leaves a zombie; it never runs again. *)

From S2P Require Import Prelude Memory CString FsState Machine Spinlock Kalloc Proc Vm Sysarg.
From S2P Require Import Sleeplock Bio Log Fs Pipe File Sysfile Exec Process Pages ProcSpec Demo DemoFs.
Local Open Scope Z_scope.
Local Open Scope kernel_scope.

(** ** Waking *)

Lemma wakeup1_parent c p : parent (wakeup1_proc c p) = parent p.
Proof. unfold wakeup1_proc. by case_match. Qed.

Lemma wakeup1_zombie c p : state (wakeup1_proc c p) = ZOMBIE <-> state p = ZOMBIE.
Proof.
  unfold wakeup1_proc. destruct (bool_decide _ && _) eqn:E; [|done].
  apply andb_true_iff in E as [E _]. apply bool_decide_eq_true in E. cbn. by rewrite E.
Qed.

Lemma wakeup1_idem c p : wakeup1_proc c (wakeup1_proc c p) = wakeup1_proc c p.
Proof.
  unfold wakeup1_proc. destruct (bool_decide _ && (chan p =? c)) eqn:E; [done|by rewrite E].
Qed.

Lemma wakeup1_set_parent c o p : wakeup1_proc c (set_parent o p) = set_parent o (wakeup1_proc c p).
Proof. unfold wakeup1_proc. cbn. by case_match. Qed.

(** ** Passing the children on *)

Section Reparent.
Context (me ini : nat) (ps : list proc).

(** A child of [me], and what happens to it. *)
Definition orphan (p : proc) : bool := bool_decide (parent p = Some me).
Definition hand_over (p : proc) : proc := if orphan p then set_parent (Some ini) p else p.

(** Some child of [me] among the first [n] slots is a zombie. *)
Definition zombie_child (n : nat) : bool :=
  existsb (fun p => orphan p && bool_decide (state p = ZOMBIE)) (take n ps).

(** The process at slot [j] after the first [n] slots were passed. *)
Definition passed (n j : nat) (p : proc) : proc :=
  let q := if (j <? n)%nat then hand_over p else p in
  if zombie_child n then wakeup1_proc (proc_addr ini) q else q.

Definition passed_all (n : nat) (ps' : list proc) : Prop :=
  length ps' = length ps /\ forall j p, ps !! j = Some p -> ps' !! j = Some (passed n j p).

Lemma passed_parent n p : parent (passed n n p) = parent p.
Proof. unfold passed. rewrite Nat.ltb_irrefl. case_match; [apply wakeup1_parent|done]. Qed.

Lemma passed_zombie n p : bool_decide (state (passed n n p) = ZOMBIE) = bool_decide (state p = ZOMBIE).
Proof.
  apply bool_decide_ext. unfold passed. rewrite Nat.ltb_irrefl. case_match; [apply wakeup1_zombie|done].
Qed.

Lemma zombie_child_S n p :
  ps !! n = Some p -> zombie_child (S n) = zombie_child n || (orphan p && bool_decide (state p = ZOMBIE)).
Proof.
  intros Hp. unfold zombie_child. rewrite (take_S_r _ _ _ Hp), existsb_app. cbn [existsb].
  by rewrite orb_false_r.
Qed.

(** What the body of the loop does to the table at slot [n]. *)
Definition pass_slot (n : nat) (p : proc) (l : list proc) : list proc :=
  if orphan p then
    let l := alter (set_parent (Some ini)) n l in
    if bool_decide (state p = ZOMBIE) then map (wakeup1_proc (proc_addr ini)) l else l
  else l.

Lemma passed_step n p ps' :
  passed_all n ps' -> ps !! n = Some p -> passed_all (S n) (pass_slot n p ps').
Proof.
  intros [Hl Hps] Hp. split.
  { unfold pass_slot. repeat case_match; rewrite ?length_map, ?length_alter; done. }
  intros j q Hq. specialize (Hps j q Hq).
  assert (Hz : zombie_child (S n) = zombie_child n || (orphan p && bool_decide (state p = ZOMBIE)))
    by (by apply zombie_child_S).
  destruct (decide (j = n)) as [->|Hne].
  - assert (q = p) as -> by congruence. unfold passed in *. rewrite Hz.
    rewrite Nat.ltb_irrefl in Hps. rewrite (proj2 (Nat.ltb_lt n (S n))) by lia.
    unfold pass_slot, hand_over.
    destruct (orphan p), (bool_decide (state p = ZOMBIE)), (zombie_child n); cbn [orb andb];
      rewrite ?list_lookup_fmap, ?list_lookup_alter_eq, Hps; cbn [fmap option_fmap option_map];
      rewrite ?wakeup1_set_parent, ?wakeup1_idem; done.
  - assert (Hlt : (j <? S n)%nat = (j <? n)%nat).
    { destruct (Nat.ltb_spec j n), (Nat.ltb_spec j (S n)); lia || done. }
    unfold passed in *. rewrite Hz, Hlt. unfold pass_slot.
    destruct (orphan p), (bool_decide (state p = ZOMBIE)), (zombie_child n); cbn [orb andb];
      rewrite ?list_lookup_fmap, ?list_lookup_alter_ne by done; rewrite Hps; cbn [fmap option_fmap option_map];
      rewrite ?wakeup1_idem; done.
Qed.

Lemma reparent_loop s k : forall n ps',
  initproc (fs s) = Some ini -> (n + k <= length ps)%nat -> passed_all n ps' ->
  exists ps'', for_each (seq n k) (fun i =>
      p <- get_proc i ;;
      when (bool_decide (parent p = Some me)) do (
        ini <- gets (fun s => initproc (fs s)) ;;
        upd_proc i (set_parent ini) ;;
        when (bool_decide (state p = ZOMBIE)) do wakeup1 (proc_chan ini))) (set_procs ps' s) =
    Ok tt (set_procs ps'' s) /\ passed_all (n + k) ps''.
Proof.
  induction k as [|k IH]; intros n ps' Hini Hlen Hpass; cbn [seq for_each].
  { exists ps'. by rewrite Nat.add_0_r. }
  destruct (lookup_lt_is_Some_2 ps n) as [p Hp]; [lia|].
  pose proof (proj2 Hpass n p Hp) as Hn.
  destruct (IH (S n) (pass_slot n p ps') Hini ltac:(lia) (passed_step n p ps' Hpass Hp)) as (ps'' & E & H).
  exists ps''. rewrite Nat.add_succ_r, <- Nat.add_succ_l. split; [|done].
  erewrite bind_ok; [exact E|]. erewrite bind_ok; [|unfold get_proc; cbn [procs set_procs]; by rewrite Hn].
  rewrite passed_parent, passed_zombie. unfold pass_slot, orphan.
  case_match; [|done]. rewrite bind_gets. cbn [fs set_procs]. rewrite Hini. unfold upd_proc.
  rewrite bind_modify. by case_match.
Qed.

Lemma reparent_ok s :
  initproc (fs s) = Some ini -> procs s = ps -> length ps = NPROC ->
  exists ps', reparent me s = Ok tt (set_procs ps' s) /\ passed_all NPROC ps'.
Proof.
  intros Hini Hps Hl. destruct (reparent_loop s NPROC 0 ps Hini) as (ps' & E & H); [lia| |].
  - split; [done|]. intros j p Hp. unfold passed, zombie_child. by rewrite take_0.
  - exists ps'. split; [|done]. unfold reparent. rewrite <- E. f_equal. rewrite <- Hps. by destruct s.
Qed.

End Reparent.

(** ** The theorem *)

(** What [exit] does with the files of the process. *)
Definition exit_files (me : nat) : K unit :=
  close_files me ;;
  begin_op ;;
  p <- get_proc me ;;
  c <- deref_ip (cwd p) ;;
  iput c ;;
  end_op.

Lemma exit_eq s s1 me ini :
  cur s = Some me -> initproc (fs s) = Some ini -> me <> ini -> exit_files me s = Ok tt s1 ->
  exit s =
    (upd_proc me (set_cwd None) ;;
     acquire ptable_lock ;;
     p <- get_proc me ;;
     wakeup1 (proc_chan (parent p)) ;;
     reparent me ;;
     upd_proc me (set_state ZOMBIE) ;;
     sched ;;
     panic "zombie exit") s1.
Proof.
  intros Hc Hi Hne E. unfold exit. rewrite !bind_gets, Hc, Hi.
  rewrite bool_decide_eq_false_2 by congruence.
  erewrite bind_ok; [|unfold myproc; by rewrite Hc].
  match goal with |- _ = ?r s1 => rewrite <- (bind_ok _ (fun _ => r) _ _ _ E) end. unfold exit_files. rewrite bind_assoc.
  apply bind_cong; [done|]. intros _ s2. rewrite bind_assoc.
  apply bind_cong; [done|]. intros _ s3. rewrite bind_assoc.
  apply bind_cong; [done|]. intros p s4. rewrite bind_assoc.
  apply bind_cong; [done|]. intros c s5. by rewrite bind_assoc.
Qed.

(** [sched] from a process that may leave: it holds the lock of the table only. *)
Lemma sched_leaves s0 s me p :
  lock_free ptable_lock s0 -> ncli (this_cpu s0) = 0 ->
  locks s = locks (locked_state ptable_lock s0) -> this_cpu s = pushcli_cpu (this_cpu s0) ->
  cur s = Some me -> procs s !! me = Some p -> state p <> RUNNING ->
  exists k, sched s = Swtch s k /\ forall s', exists s'', k s' = Ok tt s''.
Proof.
  intros [name Hl] Hn Hlk Hcpu Hc Hp Hs. unfold sched.
  assert (Hh : holding ptable_lock s = Ok true s).
  { unfold holding. rewrite Hlk, Hcpu. cbn [locks locked_state set_locks]. rewrite lookup_alter_eq, Hl.
    cbn. by rewrite bool_decide_eq_true_2. }
  rewrite (bind_ok _ _ _ _ _ Hh). cbn [negb]. rewrite bind_gets, Hcpu. cbn [pushcli_cpu ncli eflags_IF].
  rewrite Hn. change (0 + 1 =? 1) with true. cbn [negb].
  erewrite bind_ok; [|unfold myproc; by rewrite Hc].
  erewrite bind_ok; [|unfold get_proc; by rewrite Hp].
  rewrite bool_decide_eq_false_2 by done.
  eexists. split; [reflexivity|]. intros s'. eexists. reflexivity.
Qed.

(** A zombie child of [me]. *)
Definition zombie_of (me : nat) (p : proc) : bool :=
  bool_decide (parent p = Some me) && bool_decide (state p = ZOMBIE).

Lemma existsb_map_same {A} (P : A -> bool) f l :
  (forall x, P (f x) = P x) -> existsb P (map f l) = existsb P l.
Proof. intros H. induction l as [|x l IH]; simpl; [done|]. by rewrite H, IH. Qed.

Lemma existsb_alter_same {A} (P : A -> bool) f i (l : list A) :
  (forall x, P (f x) = P x) -> existsb P (alter f i l) = existsb P l.
Proof.
  intros H. revert i. induction l as [|x l IH]; intros [|i]; simpl; [done..|by rewrite H|].
  unfold alter in IH. by rewrite IH.
Qed.

Lemma zombie_child_moved me i c (ps : list proc) :
  length ps = NPROC ->
  zombie_child me (map (wakeup1_proc c) (alter (set_cwd None) i ps)) NPROC = existsb (zombie_of me) ps.
Proof.
  intros Hl. unfold zombie_child. rewrite take_ge by (rewrite length_map, length_alter; lia).
  rewrite existsb_map_same; [by apply existsb_alter_same|].
  intros p. unfold orphan. by rewrite wakeup1_parent, (bool_decide_ext _ _ (wakeup1_zombie c p)).
Qed.

(** What passing on and waking keep. *)
Lemma passed_same p me ini ps n j c :
  let q := passed me ini ps n j (wakeup1_proc c p) in
  pid q = pid p /\ cwd q = cwd p /\ kstack q = kstack p /\ pgdir q = pgdir p.
Proof. unfold passed, hand_over, wakeup1_proc. repeat case_match; done. Qed.

Lemma passed_fields q me ini ps n j c :
  (j < n)%nat ->
  let q' := passed me ini ps n j (wakeup1_proc c q) in
  pid q' = pid q /\
  parent q' = (if bool_decide (parent q = Some me) then Some ini else parent q) /\
  state q' = (if bool_decide (state q = SLEEPING) &&
                 ((chan q =? c) || (chan q =? proc_addr ini) && zombie_child me ps n)
              then RUNNABLE else state q).
Proof.
  intros Hj q'. unfold q', passed, hand_over, orphan. rewrite (proj2 (Nat.ltb_lt _ _) Hj), wakeup1_parent.
  unfold wakeup1_proc.
  destruct (bool_decide (state q = SLEEPING)) eqn:Es, (chan q =? c) eqn:Ec, (zombie_child me ps n),
    (bool_decide (parent q = Some me)) eqn:Ep; cbn; rewrite ?andb_false_r, ?Es, ?Ec, ?Ep; cbn;
    repeat case_match; split_and!; try done.
Qed.


Module ExitDemo.

(** Process 1 runs; its parent, the first process, waits for children, and
    process 2 is its child. *)
Definition waiting (p : proc) : proc := set_state SLEEPING (set_chan (proc_addr 0) p).
Definition family (s : kstate) : kstate :=
  set_fs (set_initproc (Some 0%nat) (fs s)) (set_cur (Some 1%nat)
    (set_procs (alter (set_parent (Some 1%nat)) 2%nat
      (alter (set_parent (Some 0%nat)) 1%nat (alter waiting 0%nat (procs s)))) s)).
Definition kernel : kstate := family (DemoFs.booted []).

Lemma final_ok o s : DemoFs.value o = Some tt -> o = Ok tt (DemoFs.final o s).
Proof. destruct o as [[]| | | | |]; done. Qed.

Lemma closed : exists s1, exit_files 1 kernel = Ok tt s1 /\ cur s1 = Some 1%nat /\
  initproc (fs s1) = Some 0%nat /\ length (procs s1) = NPROC /\
  parent <$> procs s1 !! 1%nat = Some (Some 0%nat) /\
  (fun q => (state q, chan q)) <$> procs s1 !! 0%nat = Some (SLEEPING, proc_addr 0) /\
  parent <$> procs s1 !! 2%nat = Some (Some 1%nat) /\
  locks s1 !! ptable_lock = Some (mk_spinlock 0 "ptable" None) /\ ncli (this_cpu s1) = 0.
Proof.
  exists (DemoFs.final (exit_files 1 kernel) kernel).
  split; [apply final_ok; vm_compute; reflexivity|]. split_and!; vm_compute; reflexivity.
Qed.

Lemma running : cur kernel = Some 1%nat /\ initproc (fs kernel) = Some 0%nat.
Proof. split; vm_compute; reflexivity. Qed.

End ExitDemo.

