(* ===== verification/E1000Spec.v ===== *)
(** * The driver: correctness

    The invariant of the rings ([nic_ok]), the pages that they own, and the
    effect of [e1000_transmit] and [e1000_recv] on them.  [RxHandler] is what
    the driver expects of the network stack. *)

From S2P Require Import Prelude Memory CString Machine Spinlock Kalloc E1000 Pages Demo.
Local Open Scope Z_scope.
Local Open Scope kernel_scope.

(** ** The rings *)

Record nic_ok (d : e1000) : Prop := mk_nic_ok {
  nic_tx_ring : length (tx_ring d) = 16%nat;
  nic_tx_bufs : length (tx_bufs d) = 16%nat;
  nic_rx_ring : length (rx_ring d) = 16%nat;
  nic_rx_bufs : length (rx_bufs d) = 16%nat;
}.

(** The pages of the rings: the frames handed to the card and not yet freed,
    and the receive buffers. *)
Definition tx_pages (d : e1000) : list Z := filter (fun p => p <> 0) (tx_bufs d).
Definition nic_pages (d : e1000) : list Z := tx_pages d ++ rx_bufs d.

(** The slot that the next transmission uses. *)
Definition tx_slot (d : e1000) : nat := Z.to_nat (regs d E1000_TDT mod TX_RING_SIZE).

(** The rings after a frame was handed to the card. *)
Definition tx_push (buf len : Z) (d : e1000) : e1000 :=
  mk_e1000
    (alter (fun d => mk_tx_desc (V2P buf) (u16 len) (tx_cso d)
       (Z.lor E1000_TXD_CMD_EOP E1000_TXD_CMD_RS) 0 (tx_css d) (tx_special d))
       (tx_slot d) (tx_ring d))
    (rx_ring d) (<[tx_slot d := buf]> (tx_bufs d)) (rx_bufs d)
    (fun j => if j =? E1000_TDT
              then u32 ((regs d E1000_TDT mod TX_RING_SIZE + 1) mod TX_RING_SIZE)
              else regs d j).

Lemma tx_push_ok buf len d : nic_ok d -> nic_ok (tx_push buf len d).
Proof.
  intros [H1 H2 H3 H4]. split; simpl; try done.
  - by rewrite length_alter.
  - by rewrite length_insert.
Qed.

Lemma tx_slot_lt d : (tx_slot d < 16)%nat.
Proof.
  unfold tx_slot, TX_RING_SIZE.
  pose proof (Z.mod_pos_bound (regs d E1000_TDT) 16 ltac:(lia)). lia.
Qed.

(** Replacing the buffer of a slot. *)
Lemma filter_insert (l : list Z) i old new :
  l !! i = Some old -> new <> 0 ->
  new :: filter (fun p => p <> 0) l ≡ₚ
    (if old =? 0 then [] else [old]) ++ filter (fun p => p <> 0) (<[i := new]> l).
Proof.
  intros Hi Hn. rewrite <- (take_drop_middle l i old Hi).
  rewrite insert_app_r_alt; rewrite length_take_le; try (apply lookup_lt_Some in Hi; lia).
  rewrite Nat.sub_diag. simpl. rewrite !filter_app, !filter_cons.
  destruct (Z.eqb_spec old 0) as [->|Ho].
  - rewrite decide_False by tauto. rewrite decide_True by done. perm_solve.
  - rewrite !decide_True by done. perm_solve.
Qed.

Lemma tx_push_pages buf len d old :
  tx_bufs d !! tx_slot d = Some old -> buf <> 0 ->
  buf :: nic_pages d ≡ₚ (if old =? 0 then [] else [old]) ++ nic_pages (tx_push buf len d).
Proof.
  intros Hi Hb. unfold nic_pages, tx_pages. simpl.
  rewrite app_comm_cons, (filter_insert _ _ _ _ Hi Hb). perm_solve.
Qed.

Lemma get_elem_ok {A} (f : e1000 -> list A) i s x :
  f (nic s) !! Z.to_nat i = Some x -> get_elem f i s = Ok x s.
Proof. unfold get_elem. by intros ->. Qed.

(** ** Transmission *)

Definition tx_done (d : tx_desc) : bool := negb (Z.land (tx_status d) E1000_TXD_STAT_DD =? 0).

(** The old frame of the slot goes back to the allocator. *)
Definition tx_freed (old : Z) (s : kstate) : kstate :=
  set_freelist (if old =? 0 then freelist s else old)
    (set_mem (if old =? 0 then mem s else kfree_mem s old) s).

(** Leaving the driver: the lock, then the outer [pushcli]. *)
Lemma tx_leave {A} s t (r : A) :
  quiet s -> locks t = locks (locked_state e1000_lock s) ->
  this_cpu t = pushcli_cpu (pushcli_cpu (this_cpu s)) ->
  (release e1000_lock ;; popcli ;; ret r) t =
    Ok r (set_cpu (cpu_norm (this_cpu s)) (set_locks (locks s) t)).
Proof.
  intros (Hc & _ & _ & _ & Hl) Hlk Hcpu.
  set (sp := set_cpu (pushcli_cpu (this_cpu s)) s).
  rewrite (bind_ok _ _ _ _ _ (release_held e1000_lock t sp Hl (cpu_wf_pushcli _ Hc) Hlk Hcpu)).
  erewrite bind_ok by (apply (popcli_pushcli _ (this_cpu s)); [by apply cpu_norm_pushcli|done]).
  by destruct t.
Qed.

Lemma e1000_transmit_eq s buf len dsc old :
  quiet s -> tx_ring (nic s) !! tx_slot (nic s) = Some dsc ->
  tx_bufs (nic s) !! tx_slot (nic s) = Some old ->
  (old <> 0 -> kpage (kend s) old) ->
  e1000_transmit buf len s =
    if tx_done dsc
    then Ok 0 (set_cpu (cpu_norm (this_cpu s)) (set_nic (tx_push buf len (nic s)) (tx_freed old s)))
    else Ok (-1) (set_cpu (cpu_norm (this_cpu s)) s).
Proof.
  intros Hq Hd Ho Hp. pose proof Hq as (Hc & Hk & _ & _ & Hl).
  unfold e1000_transmit, pushcli, reg_read. rewrite bind_modify.
  set (sp := set_cpu (pushcli_cpu (this_cpu s)) s).
  rewrite (bind_ok _ _ _ _ _ (acquire_free e1000_lock sp Hl)), bind_gets.
  change (nic (locked_state e1000_lock sp)) with (nic s).
  rewrite (bind_ok _ _ _ dsc (locked_state e1000_lock sp))
    by (apply get_elem_ok; exact Hd).
  unfold tx_done. destruct (Z.land (tx_status dsc) E1000_TXD_STAT_DD =? 0); cbn [negb].
  { rewrite (tx_leave s) by done. by destruct s. }
  rewrite (bind_ok _ _ _ old (locked_state e1000_lock sp))
    by (apply get_elem_ok; exact Ho).
  assert (Hfree : (when (negb (old =? 0)) do kfree old) (locked_state e1000_lock sp) =
    Ok tt (tx_freed old (locked_state e1000_lock sp))).
  { unfold tx_freed. destruct (Z.eqb_spec old 0) as [->|Hne]; [by destruct s|]. cbn [negb].
    rewrite kfree_eq; [|apply kmem_ready_locked; [done|]|by apply Hp].
    - unfold kmem_norm. rewrite kmem_cpu_locked by by apply cpu_wf_pushcli. done.
    - split; [by apply cpu_wf_pushcli|done]. }
  rewrite (bind_ok _ _ _ _ _ Hfree). unfold upd_nic, reg_write, upd_nic. rewrite !bind_modify.
  rewrite (tx_leave s) by done. by destruct s.
Qed.

Lemma tx_push_page buf len d : nic_ok d -> buf <> 0 -> buf ∈ nic_pages (tx_push buf len d).
Proof.
  intros Hn Hb. unfold nic_pages, tx_pages. apply elem_of_app. left. apply list_elem_of_filter.
  split; [done|]. eapply list_elem_of_lookup_2, list_lookup_insert_eq.
  rewrite (nic_tx_bufs _ Hn). apply tx_slot_lt.
Qed.

Lemma tx_freed_owned s fl old own :
  kmem_ready s -> owned s fl ((if old =? 0 then [] else [old]) ++ own) ->
  owned (tx_freed old s) ((if old =? 0 then [] else [old]) ++ fl) own /\
  Forall (page_agree (mem s) (mem (tx_freed old s))) own.
Proof.
  intros Hr Ho. unfold tx_freed. destruct (old =? 0).
  - split; [by destruct s|]. apply Forall_forall. eauto with xv6.
  - by destruct (owned_kfree _ _ _ _ Hr Ho) as (_ & ? & ?).
Qed.

Lemma tx_slot_lookup d :
  nic_ok d -> exists dsc old, tx_ring d !! tx_slot d = Some dsc /\ tx_bufs d !! tx_slot d = Some old.
Proof.
  intros [H1 H2 _ _]. pose proof (tx_slot_lt d).
  destruct (lookup_lt_is_Some_2 (tx_ring d) (tx_slot d)) as [dsc ?]; [lia|].
  destruct (lookup_lt_is_Some_2 (tx_bufs d) (tx_slot d)) as [old ?]; [lia|]. eauto.
Qed.

Lemma tx_buf_page s fl own buf old :
  owned s fl (buf :: nic_pages (nic s) ++ own) ->
  tx_bufs (nic s) !! tx_slot (nic s) = Some old -> old <> 0 -> kpage (kend s) old.
Proof.
  intros Ho Hi Hne. eapply owned_page; [exact Ho|]. unfold nic_pages, tx_pages.
  right. do 2 (apply elem_of_app; left). apply list_elem_of_filter.
  split; [done|by eapply list_elem_of_lookup_2].
Qed.

Lemma transmit_spec s fl own buf len :
  quiet s -> nic_ok (nic s) -> owned s fl (buf :: nic_pages (nic s) ++ own) ->
  exists dsc old s',
    tx_ring (nic s) !! tx_slot (nic s) = Some dsc /\
    tx_bufs (nic s) !! tx_slot (nic s) = Some old /\
    kframe (rx_bufs (nic s) ++ own) s s' /\ netst s' = netst s /\ procs s' = procs s /\ klog s' = klog s /\
    if tx_done dsc
    then e1000_transmit buf len s = Ok 0 s' /\ nic s' = tx_push buf len (nic s) /\
         owned s' ((if old =? 0 then [] else [old]) ++ fl) (nic_pages (nic s') ++ own) /\
         page_bytes (mem s') buf = page_bytes (mem s) buf
    else e1000_transmit buf len s = Ok (-1) s' /\ nic s' = nic s /\ mem s' = mem s /\
         owned s' fl (buf :: nic_pages (nic s') ++ own).
Proof.
  intros Hq Hn Ho. destruct (tx_slot_lookup _ Hn) as (dsc & old & Hd & Hb).
  pose proof (e1000_transmit_eq s buf len dsc old Hq Hd Hb) as He.
  specialize (He (tx_buf_page _ _ _ _ _ Ho Hb)).
  assert (Hbuf : buf <> 0) by (eapply kpage_nonzero, (owned_page s); [exact Ho|by left]).
  pose proof (tx_push_pages buf len _ _ Hb Hbuf) as Hperm.
  exists dsc, old. destruct (tx_done dsc).
  - assert (Ho' : owned s fl ((if old =? 0 then [] else [old]) ++
                    nic_pages (tx_push buf len (nic s)) ++ own)).
    { rewrite app_assoc, <- Hperm. done. }
    destruct (tx_freed_owned s fl old _ (quiet_kmem _ Hq) Ho') as [Hf Ha].
    apply Forall_app in Ha as [Ha1 Ha2].
    eexists. split_and!; [done|done| |..|exact He|done| |].
    + split; try done; [apply cpu_norm_idem|].
      unfold nic_pages in Ha1. apply Forall_app in Ha1 as [_ ?]. by apply Forall_app.
    + done.
    + done.
    + done.
    + done.
    + rewrite Forall_forall in Ha1.
      by apply page_agree_bytes, Ha1, tx_push_page.
  - exists (set_cpu (cpu_norm (this_cpu s)) s).
    split_and!; [done|done| |done|done|done|exact He|done|done|exact Ho].
    split; try done; [apply cpu_norm_idem|]. apply Forall_forall. eauto with xv6.
Qed.

(** C28: [e1000_transmit].  When the card is done with the descriptor at the
    tail, the frame is put there and the tail register moves on by one modulo
    the ring size, the frame that used the slot before goes back to the
    allocator, and the result is 0: the driver owns the page from then on.
    When the card still has the descriptor the result is -1, nothing changes
    and the caller keeps the page.  Locks and interrupts are as before. *)
Theorem e1000_transmit_correct s fl own buf len :
  quiet s -> nic_ok (nic s) -> owned s fl (buf :: nic_pages (nic s) ++ own) ->
  exists dsc old s',
    tx_ring (nic s) !! tx_slot (nic s) = Some dsc /\
    tx_bufs (nic s) !! tx_slot (nic s) = Some old /\
    kframe (rx_bufs (nic s) ++ own) s s' /\ netst s' = netst s /\ procs s' = procs s /\ klog s' = klog s /\
    if tx_done dsc
    then e1000_transmit buf len s = Ok 0 s' /\ nic s' = tx_push buf len (nic s) /\
         owned s' ((if old =? 0 then [] else [old]) ++ fl) (nic_pages (nic s') ++ own) /\
         page_bytes (mem s') buf = page_bytes (mem s) buf
    else e1000_transmit buf len s = Ok (-1) s' /\ nic s' = nic s /\ mem s' = mem s /\
         owned s' fl (buf :: nic_pages (nic s') ++ own).
Proof. apply transmit_spec. Qed.

(** Sending a page of the running kernel uses slot 0 and moves the tail to 1. *)
Lemma e1000_transmit_correct_witness :
  exists s', e1000_transmit (Demo.at_ 0x205000) 60 (Demo.kernel [0; 0; 0; 0; 0]) = Ok 0 s' /\
    regs (nic s') E1000_TDT = 1 /\ tx_bufs (nic s') !! 0%nat = Some (Demo.at_ 0x205000).
Proof.
  set (own := map Demo.at_ [0x200000; 0x201000; 0x202000; 0x203000; 0x206000; 0x207000;
    0x208000; 0x209000]).
  destruct (e1000_transmit_correct (Demo.kernel [0; 0; 0; 0; 0]) Demo.free own
    (Demo.at_ 0x205000) 60) as (dsc & old & s' & Hd & Hb & _ & _ & _ & _ & H).
  - apply Demo.quiet_kernel.
  - split; reflexivity.
  - assert (Hp : Demo.at_ 0x205000 :: nic_pages (nic (Demo.kernel [0; 0; 0; 0; 0])) ++ own
              ≡ₚ Demo.used) by (apply (bool_decide_unpack _); vm_compute; done).
    rewrite Hp. apply Demo.owned_kernel.
  - injection Hd as <-. injection Hb as <-. destruct H as (He & Hn & _).
    exists s'. split; [exact He|]. by rewrite Hn.
Defined.

(** ** Reception *)

(** The next descriptor that the driver looks at, and the [k]-th after it. *)
Definition rx_cursor (d : e1000) : Z := u32 (regs d E1000_RDT + 1) mod RX_RING_SIZE.
Definition rx_slot (d : e1000) (k : nat) : nat :=
  Z.to_nat ((rx_cursor d + Z.of_nat k) mod RX_RING_SIZE).
Definition rx_done (d : rx_desc) : bool := negb (Z.land (rx_status d) E1000_RXD_STAT_DD =? 0).

(** The rings after a descriptor was given back to the card. *)
Definition rx_pop (d : e1000) : e1000 :=
  mk_e1000 (tx_ring d) (alter (set_rx_status 0) (rx_slot d 0) (rx_ring d)) (tx_bufs d) (rx_bufs d)
    (fun j => if j =? E1000_RDT then u32 (rx_cursor d) else regs d j).

Lemma rx_cursor_range d : 0 <= rx_cursor d < 16.
Proof. unfold rx_cursor, RX_RING_SIZE. apply Z.mod_pos_bound. lia. Qed.

Lemma rx_slot_0 d : rx_slot d 0 = Z.to_nat (rx_cursor d).
Proof.
  unfold rx_slot. f_equal. pose proof (rx_cursor_range d). unfold RX_RING_SIZE.
  rewrite Z.add_0_r. by apply Z.mod_small.
Qed.

Lemma rx_slot_lt d k : (rx_slot d k < 16)%nat.
Proof.
  unfold rx_slot, RX_RING_SIZE.
  pose proof (Z.mod_pos_bound (rx_cursor d + Z.of_nat k) 16 ltac:(lia)). lia.
Qed.

Lemma rx_slot_pop d k : rx_slot (rx_pop d) k = rx_slot d (S k).
Proof.
  pose proof (rx_cursor_range d). unfold rx_slot. f_equal.
  unfold rx_cursor at 1. simpl. rewrite (u32_small (rx_cursor d)) by lia.
  rewrite u32_small by lia. unfold RX_RING_SIZE. rewrite Z.add_mod_idemp_l by lia. f_equal. lia.
Qed.

Lemma rx_slot_inj d j k : (j < 16)%nat -> (k < 16)%nat -> rx_slot d j = rx_slot d k -> j = k.
Proof.
  intros ??. unfold rx_slot, RX_RING_SIZE. pose proof (rx_cursor_range d). intros. lia_mod.
Qed.

Lemma rx_slot_16 d : rx_slot d 16 = rx_slot d 0.
Proof. unfold rx_slot, RX_RING_SIZE. f_equal. lia_mod. Qed.

Lemma rx_pop_ok d : nic_ok d -> nic_ok (rx_pop d).
Proof. intros []. split; simpl; try done. by rewrite length_alter. Qed.

(** Inside the driver's lock. *)
Lemma rx_leave s t :
  quiet s -> locks t = locks (locked_state e1000_lock s) ->
  this_cpu t = pushcli_cpu (this_cpu s) ->
  release e1000_lock t = Ok tt (set_cpu (cpu_norm (this_cpu s)) (set_locks (locks s) t)).
Proof. intros (? & _ & _ & _ & ?) ??. by apply release_held. Qed.

Section RecvOne.

Variable net_rx : Z -> Z -> K unit.
Variable s : kstate.
Hypothesis Hquiet : quiet s.

Let c' := cpu_norm (this_cpu s).

Lemma recv_one_none dsc :
  rx_ring (nic s) !! rx_slot (nic s) 0 = Some dsc -> rx_done dsc = false ->
  e1000_recv_one net_rx s = Ok false (set_cpu c' s).
Proof.
  rewrite rx_slot_0. intros Hd Hn. pose proof Hquiet as (_ & _ & _ & _ & Hl).
  unfold e1000_recv_one, reg_read.
  rewrite (bind_ok _ _ _ _ _ (acquire_free _ _ Hl)), bind_gets.
  rewrite (bind_ok _ _ _ dsc (locked_state e1000_lock s))
    by (apply get_elem_ok; exact Hd).
  unfold rx_done in Hn. apply negb_false_iff in Hn. rewrite Hn.
  rewrite (bind_ok _ _ _ _ _ (rx_leave s _ Hquiet eq_refl eq_refl)). by destruct s.
Qed.

(** The choice of the page, as a computation of its own. *)
Definition rx_copy (src len : Z) : K Z :=
  if (0 <? len) && (len <=? PGSIZE) then
    dst <- kalloc ;;
    when (negb (dst =? 0)) do
      kmem_op [(dst, len); (src, len)] (fun m => memmove m dst src (Z.to_nat len)) ;;
    ret dst
  else ret 0.

Lemma recv_one_some dsc src dst t :
  rx_ring (nic s) !! rx_slot (nic s) 0 = Some dsc -> rx_done dsc = true ->
  rx_bufs (nic s) !! rx_slot (nic s) 0 = Some src ->
  rx_copy src (rx_length dsc) (locked_state e1000_lock s) = Ok dst t ->
  locks t = locks (locked_state e1000_lock s) -> this_cpu t = pushcli_cpu (this_cpu s) ->
  nic t = nic s ->
  e1000_recv_one net_rx s =
    (when (negb (dst =? 0)) do net_rx dst (rx_length dsc) ;; ret true)
      (set_cpu c' (set_locks (locks s) (set_nic (rx_pop (nic s)) t))).
Proof.
  rewrite rx_slot_0. intros Hd Hn Hb Hcopy Hlk Hcpu Hnic. pose proof Hquiet as (_ & _ & _ & _ & Hl).
  unfold e1000_recv_one, reg_read.
  rewrite (bind_ok _ _ _ _ _ (acquire_free _ _ Hl)), bind_gets.
  rewrite (bind_ok _ _ _ dsc (locked_state e1000_lock s))
    by (apply get_elem_ok; exact Hd).
  unfold rx_done in Hn. apply negb_true_iff in Hn. rewrite Hn.
  rewrite (bind_ok _ _ _ src (locked_state e1000_lock s))
    by (apply get_elem_ok; exact Hb).
  rewrite (bind_ok _ _ _ _ _ Hcopy). unfold upd_nic, reg_write, upd_nic. rewrite !bind_modify.
  erewrite bind_ok by (apply (rx_leave s); done).
  f_equal. unfold rx_pop. rewrite rx_slot_0. destruct t; simpl in *. by rewrite Hnic.
Qed.

End RecvOne.

(** The copy of a packet into a fresh page. *)
Definition rx_filled (p src len : Z) (s : kstate) : kstate :=
  set_mem (store_bytes (mem s) p (load_bytes (mem s) src (Z.to_nat len)))
    (set_freelist (loadZ 8 (mem s) p) s).

Lemma rx_copy_ok s lk p fl own src len :
  lk <> kmem_lock -> kmem_ready s -> owned s (p :: fl) own -> src ∈ own ->
  0 < len <= PGSIZE ->
  rx_copy src len (locked_state lk s) = Ok p (rx_filled p src len (locked_state lk s)).
Proof.
  intros Hlk Hr Ho Hsrc Hlen. unfold rx_copy.
  destruct (Z.ltb_spec 0 len), (Z.leb_spec len PGSIZE); try lia. cbn [andb].
  assert (Hr' : kmem_ready (locked_state lk s)) by auto with xv6.
  destruct (owned_kalloc (locked_state lk s) p fl own Hr' Ho) as [He Ho'].
  assert (Hp : kpage (kend s) p) by (eapply owned_page in Ho'; [exact Ho'|by left]).
  assert (Hs : kpage (kend s) src) by (eapply owned_page in Ho; [exact Ho|done]).
  rewrite (bind_ok _ _ _ _ _ He).
  destruct (Z.eqb_spec p 0) as [E|_]; [by apply kpage_nonzero in Hp|]. cbn [negb].
  erewrite bind_ok.
  2: { unfold kmem_op. cbn [forallb fst snd].
       rewrite <- (Z.add_0_r p) at 1. rewrite <- (Z.add_0_r src) at 1.
       rewrite !(kmapped_in_page (kend s)) by (done || lia). reflexivity. }
  unfold ret, rx_filled, kmem_norm. rewrite kmem_cpu_locked by apply Hr.
  rewrite memmove_block. by destruct s.
Qed.

Lemma rx_filled_owned s p fl own src len :
  kmem_ready s -> owned s (p :: fl) own -> 0 < len <= PGSIZE ->
  owned (rx_filled p src len s) fl (p :: own) /\
  Forall (page_agree (mem s) (mem (rx_filled p src len s))) own /\
  take (Z.to_nat len) (page_bytes (mem (rx_filled p src len s)) p) =
    load_bytes (mem s) src (Z.to_nat len).
Proof.
  intros Hr Ho Hlen. destruct (owned_kalloc s p fl own Hr Ho) as [_ Ho'].
  assert (Hp : kpage (kend s) p) by (eapply owned_page in Ho'; [exact Ho'|by left]).
  assert (Ha : forall q, kpage (kend s) q -> q <> p ->
    page_agree (mem s) (mem (rx_filled p src len s)) q).
  { intros q Hq Hne. simpl. rewrite <- (Z.add_0_r p).
    eapply page_agree_store; eauto; [lia|]. rewrite length_load_bytes. lia. }
  split_and!.
  - refine (owned_mem _ _ _ _ _ Ho').
    destruct Ho as ((_ & [Hin _]%NoDup_cons & [_ Hf]%Forall_cons) & _).
    rewrite Forall_forall in *. intros q Hq. apply Ha; [auto|by intros ->].
  - apply Forall_forall. intros q Hq. apply Ha; [by eapply owned_page in Ho|].
    intros ->. by eapply (owned_ne s (p :: fl) own p p); [|left|..].
  - unfold page_bytes. rewrite take_load_bytes by (unfold PGSIZE in *; lia). simpl.
    apply load_store_same, length_load_bytes.
Qed.

(** ** What the driver expects of the network stack
    A state of its own, kept in pages and in the static data of net.c; a call
    takes over the page of the packet, uses at most one more page, and leaves
    the receive side of the rings and all pages of others alone. *)
Class RxHandler (net_rx : Z -> Z -> K unit) := mk_rx_handler {
  rx_abs : Type;
  rx_rep : memory -> net -> rx_abs -> Prop;
  rx_pages : rx_abs -> list Z;
  rx_step : list byte -> Z -> rx_abs -> rx_abs -> Prop;
  rx_rep_agree m m' n a :
    Forall (page_agree m m') (rx_pages a) -> rx_rep m n a -> rx_rep m' n a;
  rx_call s a fl own buf len :
    quiet s -> nic_ok (nic s) -> 0 < len <= PGSIZE -> fl <> [] ->
    rx_rep (mem s) (netst s) a ->
    owned s fl (buf :: rx_pages a ++ nic_pages (nic s) ++ own) ->
    exists s' a' fl', net_rx buf len s = Ok tt s' /\
      rx_step (page_bytes (mem s) buf) len a a' /\
      rx_rep (mem s') (netst s') a' /\
      owned s' fl' (rx_pages a' ++ nic_pages (nic s') ++ own) /\
      nic_ok (nic s') /\ rx_ring (nic s') = rx_ring (nic s) /\
      rx_bufs (nic s') = rx_bufs (nic s) /\ regs (nic s') E1000_RDT = regs (nic s) E1000_RDT /\
      kframe (rx_bufs (nic s) ++ own) s s' /\ (length fl <= S (length fl'))%nat;
}.

(** The packets that wait in the ring, oldest first: each with its length and
    the bytes that the card stored. *)
Definition rx_waiting (m : memory) (d : e1000) (pkts : list (Z * list byte)) : Prop :=
  (length pkts <= 16)%nat /\
  (forall k len data, pkts !! k = Some (len, data) ->
     exists dsc src, rx_ring d !! rx_slot d k = Some dsc /\ rx_done dsc = true /\
       rx_length dsc = len /\ rx_bufs d !! rx_slot d k = Some src /\
       (0 < len <= PGSIZE -> load_bytes m src (Z.to_nat len) = data)) /\
  ((length pkts < 16)%nat -> exists dsc, rx_ring d !! rx_slot d (length pkts) = Some dsc /\
     rx_done dsc = false).

Lemma rx_slot_ext d d' k : regs d' E1000_RDT = regs d E1000_RDT -> rx_slot d' k = rx_slot d k.
Proof. unfold rx_slot, rx_cursor. by intros ->. Qed.

(** After the first packet was taken, the others still wait. *)
Lemma rx_waiting_pop m m' d d' pk pkts :
  rx_waiting m d (pk :: pkts) -> nic_ok d ->
  rx_ring d' = rx_ring (rx_pop d) -> rx_bufs d' = rx_bufs d ->
  regs d' E1000_RDT = regs (rx_pop d) E1000_RDT ->
  Forall (page_agree m m') (rx_bufs d) -> rx_waiting m' d' pkts.
Proof.
  intros (Hlen & Hpk & Hend) Hn Er Eb Et Ha. simpl in Hlen.
  assert (Hs : forall k, rx_slot d' k = rx_slot d (S k))
    by (intros k; rewrite (rx_slot_ext (rx_pop d)) by done; apply rx_slot_pop).
  split_and!; [lia|..].
  - intros k len data Hk. destruct (Hpk (S k) len data Hk) as (dsc & src & Hd & ? & ? & Hb & Hc).
    exists dsc, src. rewrite Hs, Er, Eb. split_and!; try done.
    + simpl. rewrite list_lookup_alter_ne; [done|].
      intros Heq. apply rx_slot_inj in Heq; [done|lia|]. apply lookup_lt_Some in Hk. lia.
    + intros Hl. rewrite <- Hc by done. rewrite <- (Z.add_0_r src).
      apply page_agree_load; [|lia|lia]. rewrite Forall_forall in Ha.
      by eapply Ha, list_elem_of_lookup_2.
  - intros Hlt. rewrite Hs, Er. simpl. destruct (decide (length pkts = 15)%nat) as [E|E].
    + rewrite E, rx_slot_16, list_lookup_alter_eq.
      destruct (lookup_lt_is_Some_2 (rx_ring d) (rx_slot d 0)) as [dsc ->];
        [rewrite (nic_rx_ring _ Hn); apply rx_slot_lt|]. by exists (set_rx_status 0 dsc).
    + destruct Hend as (dsc & Hd & Hdone); [simpl; lia|]. exists dsc. split; [|done].
      rewrite list_lookup_alter_ne; [done|]. intros Heq. apply rx_slot_inj in Heq; [done|lia|lia].
Qed.

Section Recv.

Context (net_rx : Z -> Z -> K unit) `{RxHandler net_rx}.

(** The network stack after it was handed the packets one by one; a packet of
    no length, or longer than a page, is dropped. *)
Inductive rx_steps (a : rx_abs) : list (Z * list byte) -> rx_abs -> Prop :=
| rx_steps_nil : rx_steps a [] a
| rx_steps_drop len data pkts a' :
    ~ (0 < len <= PGSIZE) -> rx_steps a pkts a' -> rx_steps a ((len, data) :: pkts) a'
| rx_steps_cons len data pkts f a1 a2 :
    0 < len <= PGSIZE -> take (Z.to_nat len) f = data -> rx_step f len a a1 ->
    rx_steps a1 pkts a2 -> rx_steps a ((len, data) :: pkts) a2.

Definition rx_inv (s : kstate) (a : rx_abs) (fl own : list Z) : Prop :=
  quiet s /\ nic_ok (nic s) /\ rx_rep (mem s) (netst s) a /\
  owned s fl (rx_pages a ++ nic_pages (nic s) ++ own).


(** A packet that the driver does not pass on. *)
Lemma recv_turn_drop s a fl own len data pkts :
  rx_inv s a fl own -> rx_waiting (mem s) (nic s) ((len, data) :: pkts) ->
  ~ (0 < len <= PGSIZE) ->
  exists s', e1000_recv_one net_rx s = Ok true s' /\ rx_inv s' a fl own /\
    rx_waiting (mem s') (nic s') pkts /\ kframe (rx_bufs (nic s) ++ own) s s'.
Proof.
  intros (Hq & Hn & Hrep & Ho) Hw Hlen.
  destruct (proj1 (proj2 Hw) 0%nat len data eq_refl) as (dsc & src & Hd & Hdn & <- & Hb & _).
  assert (Hcopy : rx_copy src (rx_length dsc) (locked_state e1000_lock s) =
            Ok 0 (locked_state e1000_lock s)).
  { unfold rx_copy. destruct (Z.ltb_spec 0 (rx_length dsc)), (Z.leb_spec (rx_length dsc) PGSIZE);
      lia || done. }
  rewrite (recv_one_some net_rx s Hq dsc src _ _ Hd Hdn Hb Hcopy) by done.
  assert (Hf : kframe (rx_bufs (nic s) ++ own) s (set_cpu (cpu_norm (this_cpu s))
    (set_locks (locks s) (set_nic (rx_pop (nic s)) (locked_state e1000_lock s))))).
  { split; try done; [apply cpu_norm_idem|]. apply Forall_forall. eauto with xv6. }
  eexists. split_and!; [reflexivity| | |exact Hf].
  - split_and!; [by eapply kframe_quiet|by apply rx_pop_ok|done|exact Ho].
  - eapply rx_waiting_pop; [exact Hw|done..|]. apply Forall_forall. eauto with xv6.
Qed.

(** A packet that reaches the network stack. *)
Lemma recv_turn_deliver s a p fl own len data pkts :
  rx_inv s a (p :: fl) own -> rx_waiting (mem s) (nic s) ((len, data) :: pkts) ->
  0 < len <= PGSIZE -> fl <> [] ->
  exists s' a' fl' f, e1000_recv_one net_rx s = Ok true s' /\ rx_inv s' a' fl' own /\
    take (Z.to_nat len) f = data /\ rx_step f len a a' /\
    rx_waiting (mem s') (nic s') pkts /\ kframe (rx_bufs (nic s) ++ own) s s' /\
    (length fl <= S (length fl'))%nat.
Proof.
  intros (Hq & Hn & Hrep & Ho) Hw Hlen Hfl.
  destruct (proj1 (proj2 Hw) 0%nat len data eq_refl) as (dsc & src & Hd & Hdn & <- & Hb & Hdata).
  assert (Hsrc : src ∈ rx_pages a ++ nic_pages (nic s) ++ own).
  { unfold nic_pages. apply list_elem_of_lookup_2 in Hb. set_solver. }
  pose proof (quiet_kmem _ Hq) as Hr.
  assert (Hcopy := rx_copy_ok s e1000_lock p fl _ src _ ltac:(done) Hr Ho Hsrc Hlen).
  rewrite (recv_one_some net_rx s Hq dsc src _ _ Hd Hdn Hb Hcopy) by done.
  assert (Hp : kpage (kend s) p) by (destruct Ho as (Hk & _); by apply kmem_ok_head in Hk as [_ ?]).
  destruct (Z.eqb_spec p 0) as [E|_]; [by apply kpage_nonzero in Hp|]. cbn [negb].
  destruct (rx_filled_owned s p fl _ src _ Hr Ho Hlen) as (Ho1 & Ha1 & Htake).
  rewrite !Forall_app in Ha1. destruct Ha1 as (Ha_rep & Ha_nic & Ha_own).
  unfold nic_pages in Ha_nic. apply Forall_app in Ha_nic as [_ Ha_rx].
  match goal with |- context [bind (net_rx _ _) _ ?t] => set (s1 := t) end.
  assert (Hf1 : kframe (rx_bufs (nic s) ++ own) s s1).
  { split; try done; [apply cpu_norm_idem|]. by apply Forall_app. }
  destruct (rx_call s1 a fl own p (rx_length dsc)) as
    (s' & a' & fl' & Hcall & Hstep & Hrep' & Ho' & Hn' & Er & Eb & Et & Hf2 & Hcount); try done.
  - by apply rx_pop_ok.
  - by eapply rx_rep_agree.
  - exists s', a', fl', (page_bytes (mem s1) p).
    assert (Hf : kframe (rx_bufs (nic s) ++ own) s s') by (by transitivity s1).
    split_and!; try done.
    + by rewrite (bind_ok _ _ _ _ _ Hcall).
    + split_and!; try done. by eapply kframe_quiet.
    + rewrite <- Hdata by done. exact Htake.
    + eapply rx_waiting_pop; [exact Hw|done..|]. by apply kf_pages, Forall_app in Hf as [? _].
Qed.

Lemma recv_loop pkts s a fl own fuel :
  rx_inv s a fl own -> rx_waiting (mem s) (nic s) pkts ->
  (2 * length pkts <= length fl)%nat -> (length pkts < fuel)%nat ->
  exists s' a' fl', e1000_recv net_rx fuel s = Ok tt s' /\ rx_inv s' a' fl' own /\
    rx_steps a pkts a' /\ rx_waiting (mem s') (nic s') [] /\ kframe own s s'.
Proof.
  revert s a fl fuel. induction pkts as [|[len data] pkts IH]; intros s a fl fuel Hinv Hw Hfl Hfuel;
    destruct fuel as [|fuel]; simpl in Hfl, Hfuel; try lia; simpl e1000_recv.
  - pose proof Hinv as (Hq & Hn & Hrep & Ho).
    destruct Hw as (H1 & H2 & H3). destruct H3 as (dsc & Hd & Hdn); [simpl; lia|].
    rewrite (bind_ok _ _ _ _ _ (recv_one_none net_rx s Hq dsc Hd Hdn)).
    assert (Hf : kframe own s (set_cpu (cpu_norm (this_cpu s)) s)).
    { split; try done; [apply cpu_norm_idem|]. apply Forall_forall. eauto with xv6. }
    eexists _, a, fl. split_and!; [reflexivity| |constructor| |exact Hf].
    + by split_and!.
    + split_and!; [simpl; lia|intros k ?? ?; by destruct k|by exists dsc].
  - destruct (decide (0 < len <= PGSIZE)) as [Hlen|Hlen].
    + destruct fl as [|p fl]; [simpl in Hfl; lia|]. simpl in Hfl.
      destruct (recv_turn_deliver s a p fl own len data pkts)
        as (s1 & a1 & fl1 & f & He & Hinv1 & Htake & Hstep & Hw1 & Hf1 & Hc); try done.
      { destruct fl; [simpl in Hfl; lia|done]. }
      destruct (IH s1 a1 fl1 fuel Hinv1 Hw1) as (s' & a' & fl' & He' & ? & ? & ? & Hf2); [lia|lia|].
      exists s', a', fl'. rewrite (bind_ok _ _ _ _ _ He). split_and!; try done.
      * by eapply rx_steps_cons.
      * transitivity s1; [|done]. eapply kframe_sub; [|exact Hf1]. set_solver.
    + destruct (recv_turn_drop s a fl own len data pkts) as (s1 & He & Hinv1 & Hw1 & Hf1); try done.
      destruct (IH s1 a fl fuel Hinv1 Hw1) as (s' & a' & fl' & He' & ? & ? & ? & Hf2); [lia|lia|].
      exists s', a', fl'. rewrite (bind_ok _ _ _ _ _ He). split_and!; try done.
      * by apply rx_steps_drop.
      * transitivity s1; [|done]. eapply kframe_sub; [|exact Hf1]. set_solver.
Qed.

End Recv.
