(* ===== verification/E1000Init.v ===== *)
(** * e1000_init establishes the invariant of the rings

    The state of the card and of the driver after [e1000_init], which is what
    the theorems of E1000Spec.v and of the network stack start from. *)

From Stdlib Require Import FunctionalExtensionality.
From S2P Require Import Prelude Memory CString Machine Spinlock Kalloc E1000 Pages Demo E1000Spec.
Local Open Scope Z_scope.
Local Open Scope kernel_scope.

(** ** Sequences of updates of the rings and registers *)

Lemma for_each_upd (g : nat -> e1000 -> e1000) l : forall s,
  for_each l (fun i => upd_nic (g i)) s = Ok tt (set_nic (foldl (fun d i => g i d) (nic s) l) s).
Proof.
  induction l as [|i l IH]; intros s; cbn [for_each foldl].
  - unfold ret. by destruct s.
  - unfold upd_nic at 1. rewrite bind_modify, IH. done.
Qed.

Lemma for_each_upd3 (a b c : nat -> e1000 -> e1000) l : forall s,
  for_each l (fun i => upd_nic (a i) ;; upd_nic (b i) ;; upd_nic (c i)) s =
  Ok tt (set_nic (foldl (fun d i => c i (b i (a i d))) (nic s) l) s).
Proof.
  induction l as [|i l IH]; intros s; cbn [for_each foldl].
  - unfold ret. by destruct s.
  - rewrite !bind_assoc. unfold upd_nic at 1 2 3. rewrite !bind_modify, bind_assoc, !bind_modify, IH. done.
Qed.

Lemma for_each_app_ok {S A} (m : A -> M S unit) l1 l2 : forall s s1,
  for_each l1 m s = Ok tt s1 -> for_each (l1 ++ l2) m s = for_each l2 m s1.
Proof.
  induction l1 as [|x l1 IH]; intros s s1; cbn [app for_each]; [by intros [= ->]|].
  unfold bind. destruct (m x s) as [[] s2|s2 k|lk s2 k| | |]; cbn [obind]; try done. apply IH.
Qed.

(** ** The receive buffers *)

Definition rx_of (p : Z) : rx_desc := mk_rx_desc (V2P p) 0 0 0 0 0.

(** The rings after the pages [ps] were given to the next descriptors; [R], [B],
    [R'] and [B'] are the parts of the arrays before and after them. *)
Record rx_filled (s : kstate) (ps rest own : list Z) (R R' : list rx_desc) (B B' : list Z)
    (s' : kstate) : Prop := mk_rx_filled {
  rf_ring : rx_ring (nic s') = R ++ map rx_of ps ++ R';
  rf_bufs : rx_bufs (nic s') = B ++ ps ++ B';
  rf_tx_ring : tx_ring (nic s') = tx_ring (nic s);
  rf_tx_bufs : tx_bufs (nic s') = tx_bufs (nic s);
  rf_regs : regs (nic s') = regs (nic s);
  rf_owned : owned s' rest (ps ++ own);
  rf_ready : kmem_ready s';
  rf_locks : locks s' = locks s;
  rf_mem : mem s' = mem s;
}.

Lemma rx_fill_one k p s fl own R B old oldr :
  owned s (p :: fl) own -> kmem_ready s -> length R = k -> length B = k ->
  rx_ring (nic s) = R ++ rx_desc0 :: oldr -> rx_bufs (nic s) = B ++ old ->
  (exists o old', old = o :: old') ->
  exists s', rx_fill k s = Ok tt s' /\ owned s' fl (p :: own) /\ kmem_ready s' /\
    rx_ring (nic s') = (R ++ [rx_of p]) ++ oldr /\ rx_bufs (nic s') = (B ++ [p]) ++ tail old /\
    tx_ring (nic s') = tx_ring (nic s) /\ tx_bufs (nic s') = tx_bufs (nic s) /\
    regs (nic s') = regs (nic s) /\ locks s' = locks s /\ mem s' = mem s.
Proof.
  intros Ho Hr HR HB Er Eb (o & old' & ->). destruct (owned_kalloc s p fl own Hr Ho) as [Ek Ho'].
  assert (Hp : p <> 0).
  { destruct Ho as (Hk & _). apply kmem_ok_head in Hk as [_ Hk]. by eapply kpage_nonzero. }
  unfold rx_fill. rewrite (bind_ok _ _ _ _ _ Ek). rewrite (proj2 (Z.eqb_neq _ _) Hp).
  unfold upd_nic. rewrite !bind_modify. unfold modify. eexists. split; [done|].
  cbn [nic set_nic rx_ring rx_bufs set_rx_ring set_rx_bufs tx_ring tx_bufs regs locks mem set_freelist
    kmem_norm set_cpu].
  split_and!; try done.
  - by apply kmem_norm_ready.
  - rewrite Er, <- HR, !alter_app_r_alt, !Nat.sub_diag by lia. cbn [alter list_alter].
    by rewrite <- app_assoc.
  - rewrite Eb, <- HB, insert_app_r_alt, Nat.sub_diag by lia. cbn [insert list_insert tail].
    by rewrite <- app_assoc.
Qed.

Lemma rx_fill_loop R' B' : forall ps k s fl own R B old,
  owned s (ps ++ fl) own -> kmem_ready s -> length R = k -> length B = k ->
  rx_ring (nic s) = R ++ replicate (length ps) rx_desc0 ++ R' ->
  rx_bufs (nic s) = B ++ old ++ B' -> length old = length ps ->
  exists s', for_each (seq k (length ps)) rx_fill s = Ok tt s' /\ rx_filled s ps fl own R R' B B' s'.
Proof.
  induction ps as [|p ps IH]; intros k s fl own R B old Ho Hr HR HB Er Eb Hl.
  - exists s. split; [done|]. destruct old; [|done]. by constructor.
  - destruct old as [|o old]; [done|]. simpl in Hl.
    destruct (rx_fill_one k p s (ps ++ fl) own R B (o :: old ++ B') (replicate (length ps) rx_desc0 ++ R')
      Ho Hr HR HB Er Eb ltac:(eauto)) as (s1 & E1 & Ho1 & Hr1 & Er1 & Eb1 & T1 & T2 & T3 & L1 & M1).
    destruct (IH (S k) s1 fl (p :: own) (R ++ [rx_of p]) (B ++ [p]) old)
      as (s2 & E2 & []); [done|done|rewrite length_app; simpl; lia|rewrite length_app; simpl; lia|
      done|done|lia|].
    exists s2. cbn [length seq for_each]. rewrite (bind_ok _ _ _ _ _ E1). split; [done|].
    constructor; try congruence.
    + by rewrite rf_ring0, <- app_assoc.
    + by rewrite rf_bufs0, <- app_assoc.
    + revert rf_owned0. apply owned_proper; [done|]. simpl. by rewrite Permutation_middle.
Qed.

(** ** Register writes *)

Definition wr (i v : Z) (d : e1000) : e1000 :=
  set_regs (fun j => if j =? i then u32 v else regs d j) d.

Section Step.
Context {R : Type} (k : unit -> K R) (d : e1000) (s : kstate).

Lemma step_wr i v : bind (reg_write i v) k (set_nic d s) = k tt (set_nic (wr i v d) s).
Proof. reflexivity. Qed.

Lemma step_upd g : bind (upd_nic g) k (set_nic d s) = k tt (set_nic (g d) s).
Proof. reflexivity. Qed.

Lemma step_rd i (k' : Z -> K R) : bind (reg_read i) k' (set_nic d s) = k' (regs d i) (set_nic d s).
Proof. reflexivity. Qed.

Lemma step_print msg : bind (cprintf msg) k (set_nic d s) = k tt (set_nic d (set_klog (msg :: klog s) s)).
Proof. reflexivity. Qed.

End Step.

Ltac init_steps := repeat first [rewrite step_wr | rewrite step_rd | rewrite step_print | rewrite step_upd].

(** ** The transmit ring *)

Definition tx_idle (d : tx_desc) : tx_desc := set_tx_addr 0 (set_tx_status E1000_TXD_STAT_DD d).

Definition tx_ready_desc : tx_desc := mk_tx_desc 0 0 0 0 E1000_TXD_STAT_DD 0 0.

(** What the loop over the transmit descriptors does. *)
Definition tx_clear (d : e1000) : e1000 :=
  foldl (fun d i =>
    set_tx_bufs (<[i := 0]> (tx_bufs d))
      (set_tx_ring (alter (set_tx_addr 0) i (alter (set_tx_status E1000_TXD_STAT_DD) i (tx_ring d))) d))
    (set_tx_ring (replicate 16 tx_desc0) d) (seq 0 16).

Lemma tx_clear_fields d :
  length (tx_bufs d) = 16%nat ->
  tx_ring (tx_clear d) = replicate 16 tx_ready_desc /\ tx_bufs (tx_clear d) = replicate 16 0 /\
  rx_ring (tx_clear d) = rx_ring d /\ rx_bufs (tx_clear d) = rx_bufs d /\ regs (tx_clear d) = regs d.
Proof.
  intros Hl. destruct d as [tr rr tb rb rg]. cbn in Hl.
  do 17 (destruct tb as [|? tb]; try (simpl in Hl; lia)). done.
Qed.

(** The registers after the receive ring was set up. *)
Definition regs_after (rx_ring_va : Z) (d : e1000) : e1000 :=
  wr E1000_IMS (Z.shiftl 1 7) (wr E1000_RADV 0 (wr E1000_RDTR 0 (wr E1000_RCTL
    (Z.lor (Z.lor (Z.lor E1000_RCTL_EN E1000_RCTL_BAM) E1000_RCTL_SZ_2048) E1000_RCTL_SECRC)
    (wr E1000_TIPG (Z.lor (Z.lor 10 (Z.shiftl 8 10)) (Z.shiftl 6 20))
    (wr E1000_TCTL (Z.lor (Z.lor (Z.lor E1000_TCTL_EN E1000_TCTL_PSP)
      (Z.shiftl 0x10 E1000_TCTL_CT_SHIFT)) (Z.shiftl 0x40 E1000_TCTL_COLD_SHIFT))
    (foldl (fun d i => wr (E1000_MTA + Z.of_nat i) 0 d)
      (wr (E1000_RA + 1) (Z.lor 0x5634 (s32 (Z.shiftl 1 31))) (wr E1000_RA 0x12005452
        (wr E1000_RDT (RX_RING_SIZE - 1) (wr E1000_RDH 0 (wr E1000_RDLEN sizeof_rx_ring
          (wr E1000_RDBAH (u32 (Z.shiftr (V2P rx_ring_va) 32))
            (wr E1000_RDBAL (u32 (V2P rx_ring_va)) d)))))))
      (seq 0 128))))))).

Lemma regs_after_fields va d :
  tx_ring (regs_after va d) = tx_ring d /\ rx_ring (regs_after va d) = rx_ring d /\
  tx_bufs (regs_after va d) = tx_bufs d /\ rx_bufs (regs_after va d) = rx_bufs d /\
  regs (regs_after va d) E1000_TDT = regs d E1000_TDT /\
  regs (regs_after va d) E1000_TDH = regs d E1000_TDH /\
  regs (regs_after va d) E1000_RDT = RX_RING_SIZE - 1 /\ regs (regs_after va d) E1000_RDH = 0 /\
  regs (regs_after va d) E1000_IMS = 128.
Proof. destruct d. split_and!; reflexivity. Qed.

Definition regs_before (tx_ring_va : Z) (d : e1000) : e1000 :=
  wr E1000_TDH 0 (wr E1000_TDT 0 (wr E1000_TDLEN sizeof_tx_ring
    (wr E1000_TDBAH (u32 (Z.shiftr (V2P tx_ring_va) 32)) (wr E1000_TDBAL (u32 (V2P tx_ring_va)) d)))).

Definition reset (d : e1000) : e1000 :=
  wr E1000_IMS 0 (wr E1000_CTL (Z.lor (regs (wr E1000_IMS 0 d) E1000_CTL) E1000_CTL_RST) (wr E1000_IMS 0 d)).

(** The card and the kernel when the receive ring is about to be filled. *)
Definition before_rx (va : Z) (d : e1000) : e1000 :=
  set_rx_ring (replicate 16 rx_desc0) (regs_before va (tx_clear (reset d))).
Definition init_state (s : kstate) : kstate :=
  set_locks (<[e1000_lock := mk_spinlock 0 "e1000" None]> (locks s))
    (set_klog ("e1000_init: ENTER xregs"%string :: klog s) s).

Lemma e1000_init_eq va1 va2 s :
  e1000_init va1 va2 s =
  (for_each (seq 0 16) rx_fill ;;
   (fun s1 => Ok tt (set_nic (regs_after va2 (nic s1))
     (set_klog ("e1000_init: STATUS"%string :: klog s1) s1))))
  (set_nic (before_rx va1 (nic s)) (init_state s)).
Proof.
  unfold e1000_init. unfold cprintf at 1, initlock. rewrite !bind_modify.
  set (s0 := set_locks _ _). replace s0 with (set_nic (nic s) (init_state s)) by by destruct s.
  init_steps. rewrite (bind_ok _ _ _ _ _ (for_each_upd3 _ _ _ _ _)).
  change (set_nic ?d (set_nic _ ?s)) with (set_nic d s). init_steps.
  apply bind_cong; [reflexivity|]. intros [] s1.
  replace s1 with (set_nic (nic s1) s1) at 1 by by destruct s1. init_steps.
  rewrite (bind_ok _ _ _ _ _ (for_each_upd (fun i => wr (E1000_MTA + Z.of_nat i) 0) _ _)).
  change (set_nic ?d (set_nic _ ?s)) with (set_nic d s). init_steps. done.
Qed.

(** ** The theorem *)

Lemma regs_before_fields va d :
  tx_ring (regs_before va d) = tx_ring d /\ rx_ring (regs_before va d) = rx_ring d /\
  tx_bufs (regs_before va d) = tx_bufs d /\ rx_bufs (regs_before va d) = rx_bufs d /\
  regs (regs_before va d) E1000_TDT = 0 /\ regs (regs_before va d) E1000_TDH = 0.
Proof. destruct d. split_and!; reflexivity. Qed.

Lemma before_rx_fields va d :
  length (tx_bufs d) = 16%nat ->
  tx_ring (before_rx va d) = replicate 16 tx_ready_desc /\ tx_bufs (before_rx va d) = replicate 16 0 /\
  rx_ring (before_rx va d) = replicate 16 rx_desc0 /\ rx_bufs (before_rx va d) = rx_bufs d /\
  regs (before_rx va d) E1000_TDT = 0 /\ regs (before_rx va d) E1000_TDH = 0.
Proof.
  intros Hl. unfold before_rx. pose proof (tx_clear_fields (reset d) Hl) as H.
  change (rx_bufs (reset d)) with (rx_bufs d) in H. revert H.
  generalize (tx_clear (reset d)). intros e (H1 & H2 & _ & H4 & _).
  destruct (regs_before_fields va e) as (F1 & _ & F3 & F4 & F5 & F6). revert F1 F3 F4 F5 F6.
  generalize (regs_before va e). intros g F1 F3 F4 F5 F6.
  cbn [set_rx_ring tx_ring tx_bufs rx_ring rx_bufs regs]. split_and!; congruence.
Qed.

Lemma init_ready s d : kmem_ready s -> kmem_ready (set_nic d (init_state s)).
Proof.
  intros [Hc Hl]. split; [done|]. intros Hu. destruct (Hl Hu) as [n Hn]. exists n. cbn.
  by rewrite lookup_insert_ne.
Qed.

(** The loop when only the pages [ps] are free. *)
Lemma rx_fill_short s ps own k :
  owned s ps own -> kmem_ready s -> rx_ring (nic s) = replicate 16 rx_desc0 ->
  length (rx_bufs (nic s)) = 16%nat -> (length ps + S k)%nat = 16%nat ->
  for_each (seq 0 16) rx_fill s = Panic "e1000 rx kalloc".
Proof.
  intros Ho Hr Er Eb Hl. rewrite <- Hl, seq_app.
  destruct (rx_fill_loop (replicate (S k) rx_desc0) (drop (length ps) (rx_bufs (nic s))) ps 0%nat s [] own [] []
    (take (length ps) (rx_bufs (nic s)))) as (s1 & E1 & []); try done.
  - by rewrite app_nil_r.
  - by rewrite Er, <- Hl, replicate_add.
  - by rewrite app_nil_l, take_drop.
  - rewrite length_take. lia.
  - rewrite (for_each_app_ok _ _ _ _ _ E1). cbn [seq for_each].
    destruct (owned_kalloc_none s1 _ rf_ready0 rf_owned0) as [Ek _].
    unfold rx_fill at 1. unfold bind at 1. by rewrite (bind_ok _ _ _ _ _ Ek).
Qed.


Module InitDemo.

(** Twenty free pages, linked. *)
Definition pages : list Z := map (fun i => Demo.at_ (0x300000 + 4096 * Z.of_nat i)) (seq 0 20).
Definition kernel : kstate :=
  set_mem (Demo.memory_of (zip pages (tail pages ++ [0]))) (Demo.kernel []).

Lemma owned_start : owned kernel pages [].
Proof.
  assert (Hn : NoDup pages) by (apply (bool_decide_unpack _); vm_compute; done).
  assert (Hp : Forall (kpage (Demo.at_ 0x100000)) pages)
    by (apply (bool_decide_unpack _); vm_compute; done).
  split_and!; [split_and!; [|done|done]|by rewrite app_nil_r|constructor].
  vm_compute. repeat split.
Qed.

End InitDemo.

