(* ===== verification/NetInv.v ===== *)
(** * The network stack's data structures

    The abstract view of net.c: the bound ports with their queues of packets.
    [net_inv s fl qs own] ties it to the pages in kernel memory: the list of
    ports and each queue are linked as the code expects, no page is used twice,
    and [own] are the pages in use by the rest of the kernel.  The invariant is
    kept by every change of pages in [own]. *)

From S2P Require Import Prelude Memory CString Machine Spinlock Kalloc Proc Vm.
From S2P Require Import NetHdr E1000 Sysarg Net Pages.
Local Open Scope Z_scope.
Local Open Scope kernel_scope.

(** ** Frames as lists of bytes *)

Definition fb (f : list byte) (i : Z) : Z := byte.unsigned (nth (Z.to_nat i) f Byte.x00).
Definition fb16 (f : list byte) (i : Z) : Z := fb f i * 256 + fb f (i + 1).
Definition fb32 (f : list byte) (i : Z) : Z := fb16 f i * 65536 + fb16 f (i + 2).

Lemma fb_range f i : 0 <= fb f i < 256.
Proof. apply byte.unsigned_range. Qed.

Lemma fb16_range f i : 0 <= fb16 f i < 65536.
Proof. unfold fb16. pose proof (fb_range f i). pose proof (fb_range f (i + 1)). lia. Qed.

Lemma fb32_range f i : 0 <= fb32 f i < 4294967296.
Proof. unfold fb32. pose proof (fb16_range f i). pose proof (fb16_range f (i + 2)). lia. Qed.

Lemma load_page_1 m p k :
  0 <= k -> k + 1 <= PGSIZE -> loadZ 1 m (p + k) = fb (page_bytes m p) k.
Proof.
  intros. unfold fb. rewrite nth_page_bytes by lia.
  unfold loadZ. rewrite load_bytes_cons. apply Z.lor_0_r.
Qed.

Lemma load_page_2 m p k :
  0 <= k -> k + 2 <= PGSIZE -> ntohs (loadZ 2 m (p + k)) = fb16 (page_bytes m p) k.
Proof.
  intros. unfold fb16, fb. rewrite !nth_page_bytes by lia.
  unfold loadZ. rewrite !load_bytes_cons, ntohs_bytes. by rewrite Z.add_assoc.
Qed.

Lemma load_page_4 m p k :
  0 <= k -> k + 4 <= PGSIZE -> ntohl (loadZ 4 m (p + k)) = fb32 (page_bytes m p) k.
Proof.
  intros. unfold fb32, fb16, fb. rewrite !nth_page_bytes by lia.
  unfold loadZ. rewrite !load_bytes_cons.
  replace (p + (k + 1)) with (p + k + 1) by lia.
  replace (p + (k + 2)) with (p + k + 1 + 1) by lia.
  replace (p + (k + 2 + 1)) with (p + k + 1 + 1 + 1) by lia.
  apply ntohl_bytes.
Qed.

(** The UDP datagram in an IP frame, as [ip_rx] finds it: the header length of
    the IP header says where the UDP header starts. *)
Record udp_view := mk_udp_view {
  uv_src : Z; uv_sport : Z; uv_dport : Z; uv_off : Z; uv_len : Z;
}.

Definition udp_off (f : list byte) : Z := 14 + 4 * (fb f 14 mod 16).

Definition parse_udp (f : list byte) : option udp_view :=
  if fb f 23 =? 17 then
    Some (mk_udp_view (fb32 f 26) (fb16 f (udp_off f)) (fb16 f (udp_off f + 2))
            (udp_off f + 8) (fb16 f (udp_off f + 4) - 8))
  else None.

(** ** Queues *)

Record apkt := mk_apkt {
  ap_node : Z;             (* the page of the [udp_pkt] *)
  ap_buf : Z;              (* the page of the frame *)
  ap_frame : list byte;    (* its contents *)
  ap_view : udp_view;
}.

Record aqueue := mk_aqueue { aq_page : Z; aq_port : Z; aq_pkts : list apkt }.

Definition pkt_pages (p : apkt) : list Z := [ap_node p; ap_buf p].
Definition queue_pages (q : aqueue) : list Z := aq_page q :: concat (map pkt_pages (aq_pkts q)).
Definition qs_pages (qs : list aqueue) : list Z := concat (map queue_pages qs).

Definition pkt_rep (m : memory) (p : apkt) : Prop :=
  loadZ 8 m (ap_node p + pkt_fullbuf) = ap_buf p /\
  loadZ 8 m (ap_node p + pkt_payload) = ap_buf p + uv_off (ap_view p) /\
  s32 (loadZ 4 m (ap_node p + pkt_payload_len)) = uv_len (ap_view p) /\
  loadZ 4 m (ap_node p + pkt_src_ip) = uv_src (ap_view p) /\
  loadZ 2 m (ap_node p + pkt_src_port) = uv_sport (ap_view p) /\
  page_bytes m (ap_buf p) = ap_frame p /\
  parse_udp (ap_frame p) = Some (ap_view p).

Definition queue_rep (m : memory) (q : aqueue) : Prop :=
  loadZ 2 m (aq_page q + pq_port) = aq_port q /\
  links m pkt_next (loadZ 8 m (aq_page q + pq_head)) (map ap_node (aq_pkts q)) /\
  loadZ 8 m (aq_page q + pq_tail) = last_page (map ap_node (aq_pkts q)) /\
  loadZ 4 m (aq_page q + pq_count) = Z.of_nat (length (aq_pkts q)) /\
  Z.of_nat (length (aq_pkts q)) <= MAX_QUEUED_PER_PORT /\
  Forall (pkt_rep m) (aq_pkts q) /\
  Forall (fun p => uv_dport (ap_view p) = aq_port q) (aq_pkts q).

Definition net_rep (m : memory) (a : Z) (qs : list aqueue) : Prop :=
  links m pq_next a (map aq_page qs) /\ Forall (queue_rep m) qs /\ NoDup (map aq_port qs).

Definition net_inv (s : kstate) (fl : list Z) (qs : list aqueue) (own : list Z) : Prop :=
  net_rep (mem s) (port_list (netst s)) qs /\ owned s fl (qs_pages qs ++ own).

#[export] Instance net_inv_proper s fl qs : Proper ((≡ₚ) ==> iff) (net_inv s fl qs).
Proof. intros own own' Hp. unfold net_inv. by rewrite Hp. Qed.

Lemma net_inv_drop s fl qs p own : net_inv s fl qs (p :: own) -> net_inv s fl qs own.
Proof.
  intros [Hrep (Hk & Hn & Hp)]. split; [done|].
  assert (E : qs_pages qs ++ p :: own ≡ₚ p :: (qs_pages qs ++ own)) by perm_solve.
  rewrite E in Hn, Hp. apply Forall_cons in Hp as [_ Hp]. split_and!; [done| |done].
  assert (E' : fl ++ p :: (qs_pages qs ++ own) ≡ₚ p :: (fl ++ qs_pages qs ++ own)) by perm_solve.
  apply (NoDup_perm _ _ E'), NoDup_cons in Hn as [_ ?]. done.
Qed.

(** ** Frame lemmas: only the pages of a structure matter to it *)

Lemma pkt_rep_agree m m' p :
  Forall (page_agree m m') (pkt_pages p) -> pkt_rep m p -> pkt_rep m' p.
Proof.
  intros [Hn [Hb _]%Forall_cons]%Forall_cons.
  unfold pkt_rep, pkt_fullbuf, pkt_payload, pkt_payload_len, pkt_src_ip, pkt_src_port.
  rewrite !(page_agree_loadZ m m') by (done || unfold PGSIZE; lia).
  by rewrite (page_agree_bytes m m').
Qed.

Lemma queue_rep_agree m m' q :
  Forall (page_agree m m') (queue_pages q) -> queue_rep m q -> queue_rep m' q.
Proof.
  intros Ha (H1 & H2 & H3 & H4 & H5 & H6 & H7). apply Forall_cons in Ha as [Hp Ha].
  unfold queue_rep, pq_port, pq_head, pq_tail, pq_count in *.
  rewrite !(page_agree_loadZ m m') by (done || unfold PGSIZE; lia).
  split_and!; try done.
  - apply (links_agree m); try (unfold pkt_next, PGSIZE; lia); [|done].
    apply Forall_map, Forall_forall. intros p Hin. rewrite Forall_concat in Ha.
    rewrite Forall_map, Forall_forall in Ha. by apply Ha, Forall_cons in Hin as [? _].
  - rewrite Forall_concat, Forall_map in Ha. rewrite Forall_forall in *.
    intros p Hin. eapply pkt_rep_agree; eauto.
Qed.

Lemma qs_pages_heads m m' qs :
  Forall (page_agree m m') (qs_pages qs) -> Forall (page_agree m m') (map aq_page qs).
Proof.
  unfold qs_pages. rewrite Forall_concat, !Forall_map. intros H.
  eapply Forall_impl; [exact H|]. intros q [? _]%Forall_cons. done.
Qed.

Lemma net_rep_agree m m' a qs :
  Forall (page_agree m m') (qs_pages qs) -> net_rep m a qs -> net_rep m' a qs.
Proof.
  intros Ha (Hl & Hq & Hn). split_and!; [|..|done].
  - apply (links_agree m); try (unfold pq_next, PGSIZE; lia); [|done].
    by apply qs_pages_heads.
  - unfold qs_pages in Ha. rewrite Forall_concat, Forall_map in Ha.
    rewrite Forall_forall in *. intros q Hin. eapply queue_rep_agree; eauto.
Qed.

Lemma qs_pages_app q1 q2 : qs_pages (q1 ++ q2) = qs_pages q1 ++ qs_pages q2.
Proof. unfold qs_pages. by rewrite map_app, concat_app. Qed.

Lemma qs_pages_cons q qs : qs_pages (q :: qs) = queue_pages q ++ qs_pages qs.
Proof. done. Qed.

Lemma qs_heads_sublist qs : map aq_page qs `sublist_of` qs_pages qs.
Proof.
  induction qs as [|q qs IH]; [constructor|]. rewrite qs_pages_cons. simpl.
  apply sublist_skip. by apply sublist_inserts_l.
Qed.

(** A change of one queue: its own page keeps the link to the next port. *)
Lemma net_rep_update m m' a q1 q q' q2 :
  net_rep m a (q1 ++ q :: q2) ->
  aq_page q' = aq_page q -> aq_port q' = aq_port q ->
  Forall (page_agree m m') (qs_pages (q1 ++ q2)) ->
  loadZ 8 m' (aq_page q + pq_next) = loadZ 8 m (aq_page q + pq_next) ->
  queue_rep m' q' -> net_rep m' a (q1 ++ q' :: q2).
Proof.
  intros (Hl & Hq & Hn) Epg Ept Ha Hlink Hq'.
  rewrite qs_pages_app, Forall_app in Ha. destruct Ha as [Ha1 Ha2].
  pose proof (qs_pages_heads _ _ _ Ha1) as Hh1. pose proof (qs_pages_heads _ _ _ Ha2) as Hh2.
  assert (He : forall p, page_agree m m' p -> loadZ 8 m' (p + pq_next) = loadZ 8 m (p + pq_next))
    by (intros p Hp; apply page_agree_loadZ; [done|unfold pq_next, PGSIZE; lia..]).
  split_and!.
  - rewrite map_app in *. simpl in *. rewrite Epg. eapply links_ext; [|exact Hl].
    apply Forall_app. split; [by eapply Forall_impl|].
    constructor; [done|by eapply Forall_impl].
  - rewrite Forall_app, Forall_cons in *. destruct Hq as (Hq1 & _ & Hq2).
    unfold qs_pages in Ha1, Ha2. rewrite Forall_concat, Forall_map in Ha1, Ha2.
    split_and!; [|done|]; rewrite Forall_forall in *; eauto using queue_rep_agree.
  - rewrite map_app in *. simpl in *. by rewrite Ept.
Qed.

(** ** Looking for a port *)

Fixpoint afind (port : Z) (qs : list aqueue) : option aqueue :=
  match qs with
  | [] => None
  | q :: qs => if aq_port q =? port then Some q else afind port qs
  end.

Fixpoint aupd (port : Z) (f : aqueue -> aqueue) (qs : list aqueue) : list aqueue :=
  match qs with
  | [] => []
  | q :: qs => if aq_port q =? port then f q :: qs else q :: aupd port f qs
  end.

Lemma afind_split port qs q :
  afind port qs = Some q ->
  aq_port q = port /\
  exists q1 q2, qs = q1 ++ q :: q2 /\ forall f, aupd port f qs = q1 ++ f q :: q2.
Proof.
  induction qs as [|q0 qs IH]; simpl; [done|].
  destruct (Z.eqb_spec (aq_port q0) port) as [E|E].
  - intros [= ->]. split; [done|]. by exists [], qs.
  - intros H. destruct (IH H) as (Hp & q1 & q2 & Hqs & Hu). split; [done|].
    exists (q0 :: q1), q2. split; [by rewrite Hqs|]. intros f. by rewrite Hu.
Qed.

Lemma afind_none port qs : afind port qs = None -> port ∉ map aq_port qs.
Proof.
  induction qs as [|q qs IH]; simpl; [set_solver|].
  destruct (Z.eqb_spec (aq_port q) port); [done|]. set_solver.
Qed.

(** The page of the queue, or 0. *)
Definition queue_addr (o : option aqueue) : Z := from_option aq_page 0 o.

Lemma find_loop_spec fuel port a qs s :
  links (mem s) pq_next a (map aq_page qs) -> Forall (queue_rep (mem s)) qs ->
  Forall (kpage (kend s)) (map aq_page qs) -> (length qs <= fuel)%nat ->
  find_loop fuel a port s = Ok (queue_addr (afind port qs)) s.
Proof.
  revert fuel a. induction qs as [|q qs IH]; intros fuel a.
  { simpl. intros -> _ _ _. by destruct fuel. }
  simpl map. rewrite !Forall_cons. intros [-> Hl] [Hq Hqs] [Hp Hps] Hf.
  destruct fuel as [|fuel]; [simpl in Hf; lia|]. simpl find_loop.
  destruct (Z.eqb_spec (aq_page q) 0) as [E|_]; [by apply kpage_nonzero in Hp|].
  assert (Hmap : forall k n, 0 <= k -> k + Z.of_nat n <= PGSIZE ->
            kmapped (aq_page q + k) (Z.of_nat n) = true)
    by (intros; eapply kmapped_in_page; eauto; lia).
  unfold queue_rep in Hq. destruct Hq as (Hport & _).
  rewrite (bind_ok _ _ _ _ _ (kload_ok 2 _ _ (Hmap pq_port 2%nat ltac:(unfold pq_port; lia)
    ltac:(unfold pq_port, PGSIZE; lia)))), Hport.
  simpl afind. destruct (Z.eqb_spec (aq_port q) port) as [E|E]; [done|].
  rewrite (bind_ok _ _ _ _ _ (kload_ok 8 _ _ (Hmap pq_next 8%nat ltac:(unfold pq_next; lia)
    ltac:(unfold pq_next, PGSIZE; lia)))).
  apply IH; try done. simpl in Hf. lia.
Qed.
