(* ===== verification/UserMem.v ===== *)
(** * The memory of a user process

    [aspace tables upages m pml4]: a page table whose own pages are [tables]
    and which maps the user half to [upages] only.  Copies to and from the user
    half return 0 or -1, mapped or not, and write no page of the kernel but
    [upages]. *)

From S2P Require Import Prelude Memory CString Machine Spinlock Kalloc Proc Vm.
From S2P Require Import E1000 Pages Net.
Local Open Scope Z_scope.
Local Open Scope kernel_scope.

(** The kernel address of the page of [va], 0 when user code cannot access it. *)
Definition upage (m : memory) (pml4 va : Z) : Z := default 0 (uxlate m pml4 va).

(** The end of the user half of the address space. *)
Definition UHALF : Z := 2 ^ 47.

Record aspace (tables upages : list Z) (m : memory) (pml4 : Z) : Prop := mk_aspace {
  as_walk : forall s va, Forall (page_agree m (mem s)) tables -> 0 <= va < UHALF ->
    uva2ka pml4 va s = Ok (upage m pml4 va) s;
  as_pages : forall va k, 0 <= va < UHALF -> uxlate m pml4 va = Some k -> k ∈ upages;
  as_stable : forall m' va, Forall (page_agree m m') tables -> 0 <= va < UHALF ->
    uxlate m' pml4 va = uxlate m pml4 va;
}.

Lemma aspace_agree tables upages m m' pml4 :
  Forall (page_agree m m') tables -> aspace tables upages m pml4 -> aspace tables upages m' pml4.
Proof.
  intros Ha [Hw Hp Hs]. split.
  - intros s va Hs' Hva. unfold upage. rewrite Hs by done. apply Hw; [|done].
    rewrite Forall_forall in *. eauto using page_agree_trans.
  - intros va k Hva. rewrite Hs by done. by apply Hp.
  - intros m'' va Hm'' Hva. rewrite (Hs m') by done. apply Hs; [|done].
    rewrite Forall_forall in *. eauto using page_agree_trans.
Qed.

(** ** Address spaces from their tables

    Four levels of tables: every present entry of a level points to a table of
    the next one, the user entries of the last level to [upages].  Of the first
    table only the half for user addresses counts: the other half leads to the
    large pages of the kernel. *)

Definition level_ok (m : memory) (n t : Z) (next : list Z) : Prop :=
  forall i, 0 <= i < n -> forall t', entry_target m (t + 8 * i) = Some t' -> t' ∈ next.

Definition leaf_ok (m : memory) (t : Z) (upages : list Z) : Prop :=
  forall i, 0 <= i < 512 -> let x := loadZ 8 m (t + 8 * i) in
    has x PTE_P && has x PTE_U && (PTE_ADDR x <? PHYSTOP) = true -> P2V (PTE_ADDR x) ∈ upages.

Lemma index_range va n : 0 <= Z.land (Z.shiftr va n) PXMASK < 512.
Proof.
  change PXMASK with (Z.ones 9). rewrite Z.land_ones by lia.
  change (2 ^ 9) with 512. by apply Z.mod_pos_bound.
Qed.

Lemma PMX_user va : 0 <= va < UHALF -> 0 <= PMX va < 256.
Proof.
  intros Hva. unfold PMX. change PXMASK with (Z.ones 9).
  rewrite Z.land_ones, Z.shiftr_div_pow2 by lia. unfold UHALF in *.
  change (2 ^ 39) with 549755813888. change (2 ^ 9) with 512.
  change (2 ^ 47) with (256 * 549755813888) in Hva.
  assert (0 <= va / 549755813888 < 256) by (split; [apply Z.div_pos; lia|apply Z.div_lt_upper_bound; lia]).
  rewrite Z.mod_small; lia.
Qed.

Lemma entry_mapped e t i : kpage e t -> 0 <= i < 512 -> kmapped (t + 8 * i) 8 = true.
Proof. intros Ht Hi. eapply kmapped_in_page; [exact Ht|unfold PGSIZE; lia..]. Qed.

Lemma walk_level_absent e s :
  kmapped e 8 = true -> entry_target (mem s) e = None -> walk_level e false s = Ok None s.
Proof.
  intros Hk. unfold entry_target, walk_level. rewrite Hk. simpl.
  rewrite (bind_ok _ _ _ _ _ (kload_ok 8 _ _ Hk)). by destruct (has _ PTE_P).
Qed.

Lemma entry_agree e m m' t i :
  kpage e t -> page_agree m m' t -> 0 <= i < 512 ->
  entry_target m' (t + 8 * i) = entry_target m (t + 8 * i).
Proof.
  intros Ht Ha Hi. unfold entry_target.
  by rewrite (page_agree_loadZ m m') by (done || unfold PGSIZE; lia).
Qed.

Section Tree.

Context (e : Z) (m : memory) (pml4 : Z) (pdps pds pts upages : list Z).
Let tables := pml4 :: pdps ++ pds ++ pts.
Hypothesis Hpages : Forall (kpage e) tables.
Hypothesis Hroot : level_ok m 256 pml4 pdps.
Hypothesis Hpdp : Forall (fun t => level_ok m 512 t pds) pdps.
Hypothesis Hpd : Forall (fun t => level_ok m 512 t pts) pds.
Hypothesis Hleaf : Forall (fun t => leaf_ok m t upages) pts.

(** A level, in a memory that agrees with [m] on the tables. *)
Lemma tree_level s t i n next :
  t ∈ tables -> level_ok m n t next -> 0 <= i < n -> n <= 512 ->
  Forall (page_agree m (mem s)) tables ->
  entry_target (mem s) (t + 8 * i) = entry_target m (t + 8 * i) /\
  walk_level (t + 8 * i) false s = Ok (entry_target m (t + 8 * i)) s /\
  forall t', entry_target m (t + 8 * i) = Some t' -> t' ∈ next.
Proof.
  intros Ht Hl Hi Hn Ha. rewrite Forall_forall in Hpages, Ha.
  pose proof (Hpages t Ht) as Hk. pose proof (entry_mapped e t i Hk ltac:(lia)) as Hm.
  pose proof (entry_agree e m (mem s) t i Hk (Ha t Ht) ltac:(lia)) as He.
  split_and!; [done| |by apply Hl]. rewrite <- He.
  destruct (entry_target (mem s) (t + 8 * i)) as [t'|] eqn:E.
  - by apply (walk_level_present (mem s)).
  - by apply walk_level_absent.
Qed.

Lemma tree_walk s va :
  Forall (page_agree m (mem s)) tables -> 0 <= va < UHALF ->
  pte_at (mem s) pml4 va = pte_at m pml4 va /\
  walkpgdir pml4 va false s = Ok (default 0 (pte_at m pml4 va)) s /\
  forall pte, pte_at m pml4 va = Some pte -> exists t, t ∈ pts /\ pte = t + 8 * PTX va.
Proof.
  intros Ha Hva. rewrite Forall_forall in Hpdp, Hpd. unfold pte_at, walkpgdir.
  destruct (tree_level s pml4 (PMX va) 256 pdps) as (E1 & W1 & N1);
    [by left|done|by apply PMX_user|lia|done|].
  rewrite E1, (bind_ok _ _ _ _ _ W1).
  destruct (entry_target m (pml4 + _)) as [t1|]; [|done]. specialize (N1 t1 eq_refl).
  destruct (tree_level s t1 (PDPX va) 512 pds) as (E2 & W2 & N2);
    [unfold tables; set_solver|by apply Hpdp|apply (index_range va 30)|lia|done|].
  rewrite E2, (bind_ok _ _ _ _ _ W2).
  destruct (entry_target m (t1 + _)) as [t2|]; [|done]. specialize (N2 t2 eq_refl).
  destruct (tree_level s t2 (PDX va) 512 pts) as (E3 & W3 & N3);
    [unfold tables; set_solver|by apply Hpd|apply (index_range va 21)|lia|done|].
  rewrite E3, (bind_ok _ _ _ _ _ W3).
  destruct (entry_target m (t2 + _)) as [t3|]; [|done]. specialize (N3 t3 eq_refl).
  split_and!; [done..|]. intros pte [= <-]. eauto.
Qed.

Lemma tree_stable s va :
  Forall (page_agree m (mem s)) tables -> 0 <= va < UHALF ->
  uxlate (mem s) pml4 va = uxlate m pml4 va.
Proof.
  intros Ha Hva. destruct (tree_walk s va Ha Hva) as (E & _ & N). unfold uxlate. rewrite E.
  destruct (pte_at m pml4 va) as [pte|]; [|done]. destruct (N pte eq_refl) as (t & Ht & ->).
  pose proof (index_range va 12). rewrite Forall_forall in Ha.
  rewrite (page_agree_loadZ m (mem s));
    [done|apply Ha; unfold tables; set_solver|unfold PTX; lia|unfold PTX, PGSIZE; lia].
Qed.

Lemma aspace_tree : aspace tables upages m pml4.
Proof.
  split.
  - intros s va Ha Hva. unfold upage. rewrite <- (tree_stable s) by done.
    destruct (uxlate (mem s) pml4 va) as [k|] eqn:Ek; [by apply uva2ka_ok|].
    destruct (tree_walk s va Ha Hva) as (E & Hw & N).
    unfold uva2ka. rewrite (bind_ok _ _ _ _ _ Hw).
    unfold uxlate in Ek. rewrite E in Ek. destruct (pte_at m pml4 va) as [pte|]; [|done].
    destruct (N pte eq_refl) as (t & Ht & ->). rewrite Forall_forall in Hpages.
    assert (Hk : kmapped (t + 8 * PTX va) 8 = true)
      by (apply (entry_mapped e); [apply Hpages; unfold tables; set_solver|apply index_range]).
    rewrite Hk in Ek. cbn [from_option id]. rewrite (kmapped_nonzero _ _ Hk).
    rewrite (bind_ok _ _ _ _ _ (kload_ok 8 _ _ Hk)). simpl in Ek.
    destruct (has _ PTE_P); [|done]. destruct (has _ PTE_U); [|done]. simpl in *.
    destruct (Z.ltb_spec (PTE_ADDR (loadZ 8 (mem s) (t + 8 * PTX va))) PHYSTOP); [done|].
    destruct (Z.leb_spec PHYSTOP (PTE_ADDR (loadZ 8 (mem s) (t + 8 * PTX va)))); [done|lia].
  - intros va k Hva. set (s := set_mem m (entry_state e [])).
    destruct (tree_walk s va) as (_ & _ & N);
      [apply Forall_forall; intros ? _; apply page_agree_refl|done|].
    unfold uxlate. destruct (pte_at m pml4 va) as [pte|]; [|done].
    destruct (N pte eq_refl) as (t & Ht & ->). rewrite <- !andb_assoc.
    destruct (kmapped _ 8); [|done]. rewrite andb_true_l, andb_assoc.
    destruct (has _ PTE_P && _ && _) eqn:Hc; [|done]. intros [= <-].
    rewrite Forall_forall in Hleaf. apply (Hleaf t Ht); [apply (index_range va 12)|done].
  - intros m' va Ha Hva. by apply (tree_stable (set_mem m' (entry_state e []))).
Qed.

End Tree.

(** The pages of a list that a memory may change. *)
Definition only_pages (upages : list Z) (m m' : memory) : Prop :=
  forall x, (forall p, p ∈ upages -> ~ (p <= x < p + PGSIZE)) -> m' x = m x.

Lemma only_pages_refl upages m : only_pages upages m m.
Proof. by intros x _. Qed.

Lemma only_pages_trans upages m1 m2 m3 :
  only_pages upages m1 m2 -> only_pages upages m2 m3 -> only_pages upages m1 m3.
Proof. intros H1 H2 x Hx. by rewrite H2, H1. Qed.

Lemma only_pages_agree e upages m m' p :
  only_pages upages m m' -> Forall (kpage e) upages -> kpage e p -> p ∉ upages ->
  page_agree m m' p.
Proof.
  intros H Hu Hp Hin x Hx. apply H. intros q Hq. rewrite Forall_forall in Hu.
  destruct (kpage_disjoint e p q Hp (Hu q Hq)); [by intros ->|lia|lia].
Qed.

Lemma only_pages_store upages m p k l :
  p ∈ upages -> 0 <= k -> k + Z.of_nat (length l) <= PGSIZE ->
  only_pages upages m (store_bytes m (p + k) l).
Proof.
  intros Hp Hk Hl x Hx. specialize (Hx p Hp). apply store_bytes_ne. lia.
Qed.

Section Copies.

Context (e : Z) (tables upages : list Z) (m0 : memory) (pml4 : Z).
Hypothesis Has : aspace tables upages m0 pml4.
Hypothesis Hup : Forall (kpage e) upages.
Hypothesis Htb : Forall (kpage e) tables.
Hypothesis Hsep : forall p, p ∈ tables -> p ∉ upages.

Lemma only_tables m m' :
  only_pages upages m m' -> Forall (page_agree m0 m) tables -> Forall (page_agree m0 m') tables.
Proof.
  intros Ho Ha. rewrite Forall_forall in *. intros p Hp.
  eapply page_agree_trans; [by apply Ha|].
  eapply only_pages_agree; eauto. by apply Forall_forall.
Qed.

Lemma upage_cases va :
  0 <= va < UHALF -> upage m0 pml4 va = 0 \/ upage m0 pml4 va ∈ upages.
Proof.
  intros Hva. unfold upage. destruct (uxlate m0 pml4 va) as [k|] eqn:E; [right|by left].
  by eapply as_pages.
Qed.

Lemma copyout_loop_safe fuel va buf len s :
  Forall (page_agree m0 (mem s)) tables -> 0 <= va -> (0 < len -> va + len <= UHALF) ->
  0 <= len ->
  kmapped buf len = true -> len + va mod PGSIZE <= PGSIZE * Z.of_nat fuel ->
  exists r m', copyout_loop fuel pml4 va buf len s = Ok r (set_mem m' s) /\
    (r = 0 \/ r = -1) /\ only_pages upages (mem s) m'.
Proof.
  revert va buf len s. induction fuel as [|fuel IH]; intros va buf len s Ht Hva Hend Hlen Hb Hfuel.
  { assert (len = 0) as -> by (pose proof (Z.mod_pos_bound va PGSIZE eq_refl); lia).
    exists 0, (mem s). split_and!; [by destruct s|by left|apply only_pages_refl]. }
  unfold copyout_loop; fold copyout_loop. destruct (Z.ltb_spec 0 len) as [Hpos|Hz].
  2: { exists 0, (mem s). split_and!; [by destruct s|by left|apply only_pages_refl]. }
  rewrite PGROUNDDOWN_spec by (unfold UHALF in *; lia).
  assert (Hva0 : 0 <= PGSIZE * (va / PGSIZE) < UHALF) by (unfold PGSIZE in *; lia_mod).
  rewrite (bind_ok _ _ _ _ _ (as_walk _ _ _ _ Has s _ Ht Hva0)).
  destruct (upage_cases (PGSIZE * (va / PGSIZE)) Hva0) as [->|Hin].
  { exists (-1), (mem s). split_and!; [by destruct s|by right|apply only_pages_refl]. }
  set (k := upage m0 pml4 (PGSIZE * (va / PGSIZE))) in *.
  assert (Hk : kpage e k) by (rewrite Forall_forall in Hup; auto).
  destruct (Z.eqb_spec k 0) as [E|_]; [by apply kpage_nonzero in Hk|].
  set (off := va mod PGSIZE) in *.
  assert (Hoff : 0 <= off < PGSIZE) by (apply Z.mod_pos_bound; done).
  assert (Hb0 : va - PGSIZE * (va / PGSIZE) = off)
    by (unfold off; pose proof (Z.div_mod va PGSIZE); unfold PGSIZE in *; lia).
  rewrite Hb0. set (c := if len <? PGSIZE - off then len else PGSIZE - off).
  assert (Hc : 0 < c /\ c <= len /\ c <= PGSIZE - off /\ (c = len \/ c = PGSIZE - off))
    by (unfold c; destruct (Z.ltb_spec len (PGSIZE - off)); lia).
  erewrite bind_ok.
  2: { unfold kmem_op. simpl. rewrite (kmapped_in_page e k off c) by (done || lia).
       assert (kmapped buf c = true) as ->; [|reflexivity].
       unfold kmapped in *. rewrite andb_true_iff in *. lia. }
  rewrite memmove_block. set (m1 := store_bytes _ _ _).
  assert (Ho : only_pages upages (mem s) m1).
  { apply only_pages_store; [done|lia|]. rewrite length_load_bytes. lia. }
  destruct (IH (u64 (PGSIZE * (va / PGSIZE) + PGSIZE)) (buf + c) (len - c) (set_mem m1 s))
    as (r & m' & He & Hr & Ho').
  - by apply (only_tables (mem s)).
  - apply u64_range.
  - intros Hl. rewrite u64_small; unfold UHALF, off, PGSIZE in *; lia_mod.
  - lia.
  - unfold kmapped in *. rewrite andb_true_iff in *. lia.
  - replace (u64 (PGSIZE * (va / PGSIZE) + PGSIZE) mod PGSIZE) with 0
      by (unfold u64, PGSIZE; lia_mod).
    rewrite Nat2Z.inj_succ in Hfuel. unfold PGSIZE in *. lia.
  - exists r, m'. split_and!; [exact He|done|]. by eapply only_pages_trans.
Qed.

Lemma copyout_safe va buf len s :
  Forall (page_agree m0 (mem s)) tables -> 0 <= va -> (0 < len -> va + len <= UHALF) ->
  0 <= len ->
  kmapped buf len = true ->
  exists r m', copyout pml4 va buf len s = Ok r (set_mem m' s) /\
    (r = 0 \/ r = -1) /\ only_pages upages (mem s) m'.
Proof.
  intros Ht Hva Hend Hlen Hb. apply copyout_loop_safe; try done.
  rewrite !Nat2Z.inj_succ, Z2Nat.id by (apply Z.div_pos; unfold PGSIZE; lia).
  unfold PGSIZE. lia_mod.
Qed.

(** A range of user addresses that is mapped, no two of them to one byte. *)
Definition umapped (va n : Z) (T : Z -> Z) : Prop :=
  0 <= va /\ va + n <= UHALF /\
  (forall i j, 0 <= i < n -> 0 <= j < n -> T i = T j -> i = j) /\
  (forall i, 0 <= i < n -> uaddr m0 pml4 (va + i) = Some (T i)).

Lemma umapped_page va n T i :
  umapped va n T -> 0 <= i < n -> exists p, p ∈ upages /\ p <= T i < p + PGSIZE.
Proof.
  intros (H1 & H2 & _ & Hx) Hi. specialize (Hx i Hi). unfold uaddr in Hx.
  destruct (uxlate m0 pml4 (va + i)) as [k|] eqn:E; [|done]. injection Hx as <-.
  exists k. split; [eapply as_pages; [done| |done]; lia|].
  pose proof (Z.mod_pos_bound (va + i) PGSIZE eq_refl). lia.
Qed.

Lemma umapped_window va n T m :
  umapped va n T -> Forall (page_agree m0 m) tables -> user_window m pml4 va n T.
Proof.
  intros Hu Ha. pose proof Hu as (H1 & H2 & H3 & H4). split; [unfold UHALF in *; lia|done|].
  intros m' Hm' i Hi. unfold uaddr. rewrite (as_stable _ _ _ _ Has); [..|lia].
  { by apply H4. }
  apply (only_tables m); [|done]. intros x Hx. apply Hm'. intros j Hj ->.
  destruct (umapped_page va n T j Hu Hj) as (p & Hp & Hr). by eapply Hx.
Qed.

(** [copyout] to a mapped range succeeds. *)
Lemma copyout_mapped va buf len T s :
  umapped va len T -> 0 <= len -> Forall (page_agree m0 (mem s)) tables ->
  kmapped buf len = true -> (forall i, 0 <= i < len -> outside T len (buf + i)) ->
  exists m', copyout pml4 va buf len s = Ok 0 (set_mem m' s) /\
    (forall i, 0 <= i < len -> m' (T i) = mem s (buf + i)) /\
    (forall x, outside T len x -> m' x = mem s x) /\ only_pages upages (mem s) m'.
Proof.
  intros Hu Hlen Ha Hb Ho.
  destruct (copyout_spec pml4 va buf len T s) as (m' & He & Hc & Hx); try done.
  { by apply umapped_window. }
  exists m'. split_and!; [done| |done|].
  - intros i Hi. by apply Hc.
  - intros x Hout. apply Hx. intros i Hi ->.
    destruct (umapped_page va len T i Hu Hi) as (p & Hp & Hr). by eapply Hout.
Qed.

(** ** Copies from the user *)

Lemma umapped_shift va n T c :
  umapped va n T -> 0 <= c <= n -> umapped (va + c) (n - c) (fun i => T (c + i)).
Proof.
  intros (H1 & H2 & H3 & H4) Hc. split_and!; [lia|lia| |].
  - intros i j Hi Hj E. apply H3 in E; lia.
  - intros i Hi. rewrite <- Z.add_assoc. apply H4. lia.
Qed.

Lemma map_seq_add {A} (f : nat -> A) n k :
  map f (seq n k) = map (fun i => f (n + i)%nat) (seq 0 k).
Proof.
  revert n f. induction k as [|k IH]; intros n f; simpl; [done|]. f_equal; [f_equal; lia|].
  rewrite (IH (S n)), (IH 1%nat). apply map_ext. intros i. f_equal. lia.
Qed.

Lemma copyin_loop_done fuel d va s : copyin_loop fuel pml4 d va 0 s = Ok 0 s.
Proof. by destruct fuel. Qed.

(** The bytes of a mapped range. *)
Definition ubytes (m : memory) (T : Z -> Z) (n : Z) : list byte :=
  map (fun i => m (T (Z.of_nat i))) (seq 0 (Z.to_nat n)).

Lemma ubytes_app m T n c :
  0 <= c <= n -> ubytes m T n = ubytes m T c ++ ubytes m (fun i => T (c + i)) (n - c).
Proof.
  intros Hc. unfold ubytes. replace (Z.to_nat n) with (Z.to_nat c + Z.to_nat (n - c))%nat by lia.
  rewrite seq_app, map_app. f_equal. rewrite map_seq_add. apply map_ext. intros i.
  do 2 f_equal. lia.
Qed.

(** One page's worth of a mapped range. *)
Lemma ubytes_chunk m T va n c k :
  umapped va n T -> uxlate m0 pml4 va = Some k ->
  0 <= c <= n -> c <= PGSIZE - va mod PGSIZE ->
  ubytes m T c = load_bytes m (k + va mod PGSIZE) (Z.to_nat c).
Proof.
  intros (H1 & H2 & H3 & H4) Hk Hc Hp. unfold ubytes, load_bytes. apply map_ext_in.
  intros i [_ Hi]%in_seq. f_equal. specialize (H4 (Z.of_nat i) ltac:(lia)). unfold uaddr in H4.
  rewrite <- (uxlate_page_base _ _ (va + Z.of_nat i)) in H4.
  assert ((va + Z.of_nat i) / PGSIZE = va / PGSIZE) as Hd by (unfold PGSIZE in *; lia_mod).
  rewrite Hd, uxlate_page_base, Hk in H4. injection H4 as <-. unfold PGSIZE in *. lia_mod.
Qed.

Context (g : Z).
Hypothesis Hg : kpage e g.
Hypothesis Hgt : g ∉ tables.
Hypothesis Hgu : g ∉ upages.

(** One turn of the loop: the walk fails, or the rest of a page is copied. *)
Lemma copyin_turn fuel d va len s :
  Forall (page_agree m0 (mem s)) tables -> 0 <= va -> va + len <= UHALF -> 0 < len < 2 ^ 32 ->
  g <= d -> d + len <= g + PGSIZE ->
  (copyin_loop (S fuel) pml4 d va len s = Ok (-1) s /\ forall T, ~ umapped va len T) \/
  exists c l, 0 < c <= len /\ (c = len \/ c = PGSIZE - va mod PGSIZE) /\ Z.of_nat (length l) = c /\
    copyin_loop (S fuel) pml4 d va len s =
      copyin_loop fuel pml4 (d + c) (u64 (va + c)) (u64 (len - c)) (set_mem (store_bytes (mem s) d l) s) /\
    forall T, umapped va len T -> l = ubytes (mem s) T c.
Proof.
  intros Ht Hva Hend Hlen Hd Hdl. unfold copyin_loop at 1 2; fold copyin_loop.
  rewrite (proj2 (Z.ltb_lt 0 len)) by lia. assert (Hva' : 0 <= va < UHALF) by lia.
  rewrite (bind_ok _ _ _ _ _ (as_walk _ _ _ _ Has s va Ht Hva')).
  destruct (upage_cases va Hva') as [Hu|Hin].
  { rewrite Hu. left. split; [done|]. intros T (_ & _ & _ & HT).
    specialize (HT 0 ltac:(lia)). rewrite Z.add_0_r in HT. unfold uaddr in HT. unfold upage in Hu.
    destruct (uxlate m0 pml4 va) as [k|] eqn:Ek; [|done]. simpl in Hu. subst k.
    apply (as_pages _ _ _ _ Has) in Ek; [|done]. rewrite Forall_forall in Hup.
    by apply Hup, kpage_nonzero in Ek. }
  right. set (k := upage m0 pml4 va) in *.
  assert (Hk : kpage e k) by (rewrite Forall_forall in Hup; auto).
  destruct (Z.eqb_spec k 0) as [E|_]; [by apply kpage_nonzero in Hk|].
  change (PGSIZE - 1) with (Z.ones 12). rewrite Z.land_ones by lia. change (2 ^ 12) with PGSIZE.
  set (off := va mod PGSIZE) in *.
  assert (Hoff : 0 <= off < PGSIZE) by (apply Z.mod_pos_bound; done).
  rewrite (u32_small off), (u32_small (PGSIZE - off)) by (unfold PGSIZE in *; lia).
  set (c := if len <? PGSIZE - off then u32 len else PGSIZE - off).
  assert (Hc : 0 < c /\ c <= len /\ c <= PGSIZE - off /\ (c = len \/ c = PGSIZE - off)).
  { unfold c. destruct (Z.ltb_spec len (PGSIZE - off)); [rewrite u32_small by lia|]; lia. }
  exists c, (load_bytes (mem s) (k + off) (Z.to_nat c)). split_and!; try lia; [rewrite length_load_bytes; lia| |].
  - erewrite bind_ok; [reflexivity|]. unfold kmem_op. simpl. rewrite (kmapped_in_page e k off c) by (done || lia).
    replace d with (g + (d - g)) at 1 by lia. rewrite (kmapped_in_page e g (d - g) c) by (done || lia).
    rewrite memmove_block. reflexivity.
  - intros T HT. symmetry. apply (ubytes_chunk (mem s) T va len c k); [done| |lia|lia].
    unfold k, upage in *. destruct (uxlate m0 pml4 va) as [k'|] eqn:Ek; [done|]. by apply kpage_nonzero in Hk.
Qed.

(** Bytes of the user's pages do not change when the page [g] is written. *)
Lemma ubytes_store va len T c d l m n : umapped va len T -> 0 <= c -> c + n <= len -> g <= d -> d + Z.of_nat (length l) <= g + PGSIZE ->
  ubytes (store_bytes m d l) (fun i => T (c + i)) n = ubytes m (fun i => T (c + i)) n.
Proof.
  intros HT Hc Hn Hd Hdl. unfold ubytes. apply map_ext_in. intros i [_ Hi]%in_seq. apply store_bytes_ne.
  destruct (umapped_page va len T (c + Z.of_nat i)) as (p & Hp & Hr'); [done|lia|].
  rewrite Forall_forall in Hup. destruct (kpage_disjoint e p g (Hup p Hp) Hg); [by intros ->|lia|lia].
Qed.

Lemma copyin_loop_spec fuel d va len s :
  Forall (page_agree m0 (mem s)) tables -> 0 <= va -> (0 < len -> va + len <= UHALF) ->
  0 <= len < 2 ^ 32 ->
  g <= d -> d + len <= g + PGSIZE -> len + va mod PGSIZE <= PGSIZE * Z.of_nat fuel ->
  exists r l, copyin_loop fuel pml4 d va len s = Ok r (set_mem (store_bytes (mem s) d l) s) /\
    (r = 0 /\ Z.of_nat (length l) = len \/ r = -1 /\ Z.of_nat (length l) < len) /\
    forall T, umapped va len T -> r = 0 /\ l = ubytes (mem s) T len.
Proof.
  revert d va len s. induction fuel as [|fuel IH]; intros d va len s Ht Hva Hend Hlen Hd Hdl Hfuel;
    pose proof (Z.mod_pos_bound va PGSIZE eq_refl) as Hmod.
  { assert (len = 0) as -> by lia. exists 0, []. rewrite store_bytes_nil. split_and!; [by destruct s|by left|done]. }
  destruct (decide (len = 0)) as [->|Hpos].
  { exists 0, []. rewrite store_bytes_nil, copyin_loop_done. split_and!; [by destruct s|by left|done]. }
  destruct (copyin_turn fuel d va len s) as [[E Hno]|(c & l1 & Hc & Hc4 & Hl1 & E & HTk)]; try done; try lia; rewrite E; clear E.
  { exists (-1), []. rewrite store_bytes_nil. split_and!; [by destruct s|right; simpl; lia|]. intros T HT. by destruct (Hno T). }
  set (s1 := set_mem (store_bytes (mem s) d l1) s).
  destruct (decide (c = len)) as [Ec|Hne].
  { rewrite Ec, Z.sub_diag. exists 0, l1. split_and!; [by rewrite copyin_loop_done|left; lia|].
    intros T HT. split; [done|]. rewrite <- Ec. by apply HTk. }
  assert (Ht1 : Forall (page_agree m0 (mem s1)) tables).
  { rewrite Forall_forall in *. intros p Hp. eapply page_agree_trans; [by apply Ht|]. simpl. replace d with (g + (d - g)) by lia.
    eapply page_agree_store; eauto; [by intros ->|lia..]. }
  rewrite (u64_small (len - c)) by lia.
  destruct (IH (d + c) (u64 (va + c)) (len - c) s1) as (r & l & He & Hr & HT); try done; try lia; [apply u64_range| | |].
  { intros Hl. rewrite u64_small; unfold UHALF in *; lia. }
  { replace (u64 (va + c) mod PGSIZE) with 0 by (unfold u64, PGSIZE in *; lia_mod).
    rewrite Nat2Z.inj_succ in Hfuel. lia. }
  exists r, (l1 ++ l). rewrite store_bytes_app, Hl1. split_and!; [exact He|rewrite length_app; lia|].
  intros T HTm. destruct (HT (fun i => T (c + i))) as [-> ->].
  { pose proof HTm as (_ & ? & _). rewrite u64_small by (unfold UHALF in *; lia). by apply umapped_shift; [|lia]. }
  split; [done|]. rewrite (ubytes_app _ T len c) by lia. rewrite <- HTk by done. f_equal.
  apply (ubytes_store va len); [done|lia..].
Qed.

Lemma copyin_user_spec d va len s :
  Forall (page_agree m0 (mem s)) tables -> 0 <= va -> (0 < len -> va + len <= UHALF) ->
  0 <= len < 2 ^ 32 ->
  g <= d -> d + len <= g + PGSIZE ->
  exists r l, copyin_user pml4 d va len s = Ok r (set_mem (store_bytes (mem s) d l) s) /\
    (r = 0 /\ Z.of_nat (length l) = len \/ r = -1 /\ Z.of_nat (length l) < len) /\
    forall T, umapped va len T -> r = 0 /\ l = ubytes (mem s) T len.
Proof.
  intros. apply copyin_loop_spec; try done.
  rewrite !Nat2Z.inj_succ, Z2Nat.id by (apply Z.div_pos; unfold PGSIZE; lia).
  unfold PGSIZE. lia_mod.
Qed.

End Copies.
