(* ===== verification/UserBuf.v ===== *)
(** * Buffers in user memory

    What the kernel relies on when it uses a user pointer directly, as pipe.c,
    fs.c and console.c do: [user_buf] says that the [n] addresses from [va] on
    can be loaded and stored through the page table in use, that they are the
    bytes [T 0], [T 1], ... of physical memory, and that this holds as long as
    the page table's own pages do not change. *)

From S2P Require Import Prelude Memory CString Machine Spinlock Kalloc Proc Vm Sysarg Pages.
Local Open Scope Z_scope.
Local Open Scope kernel_scope.

(** The page table in use, whose pages are [tables], is the one of [s0]. *)
Definition same_space (tables : list Z) (s0 s : kstate) : Prop :=
  cr3 (this_cpu s) = cr3 (this_cpu s0) /\ Forall (page_agree (mem s0) (mem s)) tables.

Record user_buf (tables : list Z) (s0 : kstate) (va n : Z) (T : Z -> Z) : Prop := mk_user_buf {
  ub_get : forall s i, same_space tables s0 s -> 0 <= i < n ->
    kuser_byte (va + i) s = Ok (mem s (T i)) s;
  ub_put : forall s i b, same_space tables s0 s -> 0 <= i < n ->
    kuser_put (va + i) b s = Ok tt (set_mem (store_bytes (mem s) (T i) [b]) s);
  ub_inj : forall i j, 0 <= i < n -> 0 <= j < n -> T i = T j -> i = j;
  ub_out : forall i t, 0 <= i < n -> t ∈ tables -> ~ (t <= T i < t + PGSIZE);
}.

Lemma user_buf_shift tables s0 va n T k :
  user_buf tables s0 va n T -> 0 <= k <= n -> user_buf tables s0 (va + k) (n - k) (fun i => T (k + i)).
Proof.
  intros [H1 H2 H3 H4] Hk. split.
  - intros s i Hs Hi. rewrite <- Z.add_assoc. apply H1; [done|lia].
  - intros s i b Hs Hi. rewrite <- Z.add_assoc. apply H2; [done|lia].
  - intros i j Hi Hj E. apply H3 in E; lia.
  - intros i t Hi Ht. apply H4; [lia|done].
Qed.

Lemma same_space_refl tables s : same_space tables s s.
Proof. split; [done|]. apply Forall_forall. eauto with xv6. Qed.

(** A change of memory outside the tables keeps the address space. *)
Lemma same_space_mem tables s0 s m :
  same_space tables s0 s -> Forall (page_agree (mem s) m) tables ->
  same_space tables s0 (set_mem m s).
Proof.
  intros [H1 H2] Hm. split; [done|]. rewrite Forall_forall in *. intros t Ht.
  eapply page_agree_trans; [by apply H2|by apply Hm].
Qed.

(** ** Buffers from the entries of the page table *)

Lemma pte_agree m m' pml4 va :
  (forall e, e ∈ walk_cells m pml4 va -> loadZ 8 m' e = loadZ 8 m e) ->
  pte_at m' pml4 va = pte_at m pml4 va.
Proof.
  unfold walk_cells, pte_at. intros H.
  rewrite (entry_target_agree m m') by (apply H; set_solver).
  destruct (entry_target m (pml4 + 8 * PMX va)) as [pdp|]; [|done].
  rewrite (entry_target_agree m m') by (apply H; set_solver).
  destruct (entry_target m (pdp + 8 * PDPX va)) as [pd|]; [|done].
  by rewrite (entry_target_agree m m') by (apply H; set_solver).
Qed.

Lemma pte_cell m pml4 va pte : pte_at m pml4 va = Some pte -> pte ∈ walk_cells m pml4 va.
Proof.
  unfold walk_cells, pte_at.
  destruct (entry_target m _) as [pdp|]; [|done].
  destruct (entry_target m _) as [pd|]; [|done].
  destruct (entry_target m _) as [pt|]; [|done]. intros [= <-]. set_solver.
Qed.

(** The entry for [va] lies in the tables, as do those that lead to it; it is
    present and writable, and its page is in the direct map. *)
Definition entry_ok (tables : list Z) (m : memory) (pml4 va t : Z) : Prop :=
  (forall e, e ∈ walk_cells m pml4 va -> exists p, p ∈ tables /\ p <= e /\ e + 8 <= p + PGSIZE) /\
  exists pte, pte_at m pml4 va = Some pte /\ kmapped pte 8 = true /\
    has (loadZ 8 m pte) PTE_P = true /\ has (loadZ 8 m pte) PTE_W = true /\
    t = P2V (PTE_ADDR (loadZ 8 m pte)) + va mod PGSIZE /\ kmapped t 1 = true.

Lemma entry_ok_stable tables m m' pml4 va t :
  Forall (page_agree m m') tables -> entry_ok tables m pml4 va t ->
  exists pte, pte_at m' pml4 va = Some pte /\ kmapped pte 8 = true /\
    has (loadZ 8 m' pte) PTE_P = true /\ has (loadZ 8 m' pte) PTE_W = true /\
    t = P2V (PTE_ADDR (loadZ 8 m' pte)) + va mod PGSIZE /\ kmapped t 1 = true.
Proof.
  intros Ha (Hc & pte & Hp & H). exists pte.
  assert (Hl : forall e, e ∈ walk_cells m pml4 va -> loadZ 8 m' e = loadZ 8 m e).
  { intros e He. destruct (Hc e He) as (p & Hp' & ? & ?). rewrite Forall_forall in Ha.
    replace e with (p + (e - p)) by lia. apply page_agree_loadZ; [by apply Ha|lia|lia]. }
  rewrite (pte_agree m m') by done. rewrite (Hl pte) by (by apply pte_cell). done.
Qed.

Lemma store_byte m a b : storeZ 1 m a (byte.unsigned b) = store_bytes m a [b].
Proof.
  unfold storeZ. change (le_split 1 (byte.unsigned b)) with [byte.of_Z (byte.unsigned b)].
  by rewrite byte.of_Z_unsigned.
Qed.

Lemma load_byte m a : byte.of_Z (loadZ 1 m a) = m a.
Proof.
  unfold loadZ. change (load_bytes m a 1) with [m (a + 0)]. rewrite Z.add_0_r.
  change (le_combine [m a]) with (Z.lor (byte.unsigned (m a)) (Z.shiftl 0 8)).
  rewrite Z.shiftl_0_l, Z.lor_0_r. apply byte.of_Z_unsigned.
Qed.

Lemma user_buf_intro tables s0 va n T :
  (forall i, 0 <= i < n -> entry_ok tables (mem s0) (P2V (cr3 (this_cpu s0))) (va + i) (T i)) ->
  (forall i j, 0 <= i < n -> 0 <= j < n -> T i = T j -> i = j) ->
  (forall i t, 0 <= i < n -> t ∈ tables -> ~ (t <= T i < t + PGSIZE)) ->
  user_buf tables s0 va n T.
Proof.
  intros He Hinj Hout. split; [| |done|done].
  - intros s i [Hc Ha] Hi.
    destruct (entry_ok_stable _ _ (mem s) _ _ _ Ha (He i Hi)) as (pte & H1 & H2 & H3 & H4 & H5 & H6).
    unfold kuser_byte. rewrite bind_gets, Hc.
    rewrite (bind_ok _ _ _ _ _ (walkpgdir_present _ _ false _ _ H1)), (kmapped_nonzero _ _ H2).
    rewrite (bind_ok _ _ _ _ _ (kload_ok 8 _ _ H2)), H3. cbn [negb]. rewrite <- H5.
    rewrite (bind_ok _ _ _ _ _ (kload_ok 1 _ _ H6)). unfold ret. by rewrite load_byte.
  - intros s i b [Hc Ha] Hi.
    destruct (entry_ok_stable _ _ (mem s) _ _ _ Ha (He i Hi)) as (pte & H1 & H2 & H3 & H4 & H5 & H6).
    unfold kuser_put. rewrite bind_gets, Hc.
    rewrite (bind_ok _ _ _ _ _ (walkpgdir_present _ _ false _ _ H1)), (kmapped_nonzero _ _ H2).
    rewrite (bind_ok _ _ _ _ _ (kload_ok 8 _ _ H2)), H3, H4. cbn [negb orb]. rewrite <- H5.
    rewrite (kstore_ok 1 _ _ _ H6). by rewrite store_byte.
Qed.
