(* ===== verification/NetDemo.v ===== *)
(** * A running kernel with a bound port, for the examples

    Port 2000 is bound; in [queued] one packet waits on it, in [bound] none
    does, and the same packet is in the page [Demo.at_ 0x205000]. *)

From S2P Require Import Prelude Memory CString Machine Spinlock Kalloc Proc Vm.
From S2P Require Import NetHdr E1000 Sysarg Net Pages Demo NetInv UserMem.
Local Open Scope Z_scope.

Module NetDemo.

Definition qpage : Z := Demo.at_ 0x500000.
Definition node : Z := Demo.at_ 0x501000.
Definition buf : Z := Demo.at_ 0x502000.

(** A datagram from 10.0.2.2, port 53, to port 2000, with the payload [abcd]. *)
Definition frame : list byte :=
  host_mac ++ local_mac ++ be16 ETHTYPE_IP ++
  [Byte.x45; Byte.x00; Byte.x00; Byte.x20; Byte.x00; Byte.x00; Byte.x00; Byte.x00; Byte.x64;
   Byte.x11; Byte.x00; Byte.x00; Byte.x0a; Byte.x00; Byte.x02; Byte.x02; Byte.x0a; Byte.x00;
   Byte.x02; Byte.x0f] ++
  be16 53 ++ be16 2000 ++ be16 12 ++ be16 0 ++ [Byte.x61; Byte.x62; Byte.x63; Byte.x64].

Definition bound_mem (args : list Z) : memory :=
  store_bytes (Demo.memory_of ((qpage, 2000) :: Demo.words args)) buf frame.

Definition bound (args : list Z) : kstate :=
  set_net (mk_net qpage 0 0) (set_mem (bound_mem args) (Demo.kernel args)).

Definition queued_words (args : list Z) : list (Z * Z) :=
  [(qpage, 2000); (qpage + pq_head, node); (qpage + pq_tail, node);
    (qpage + pq_count, 1); (node + pkt_fullbuf, buf); (node + pkt_payload, buf + 42);
    (node + pkt_payload_len, 4 + 2 ^ 32 * 0x0a000202); (node + pkt_src_port, 53)] ++
    Demo.words args.

Definition queued_mem (args : list Z) : memory :=
  store_bytes (Demo.memory_of (queued_words args)) buf frame.

Definition queued (args : list Z) : kstate :=
  set_net (mk_net qpage 0 0) (set_mem (queued_mem args) (Demo.kernel args)).

Definition view : udp_view := mk_udp_view 0x0a000202 53 2000 42 4.
Definition packet (f : list byte) : apkt := mk_apkt node buf f view.

Lemma parse_frame l : parse_udp (frame ++ l) = Some view.
Proof. reflexivity. Qed.

Lemma page_frame_bytes m p :
  exists l, page_bytes (store_bytes m p frame) p = frame ++ l.
Proof.
  exists (load_bytes (store_bytes m p frame) (p + 46) (Z.to_nat (PGSIZE - 46))).
  unfold page_bytes. replace (Z.to_nat PGSIZE) with (46 + Z.to_nat (PGSIZE - 46))%nat
    by (unfold PGSIZE; lia).
  rewrite load_bytes_app. f_equal. by apply load_store_same.
Qed.

Lemma bound_inv a b c d e :
  net_inv (bound [a; b; c; d; e]) Demo.free [mk_aqueue qpage 2000 []] (buf :: Demo.used).
Proof.
  split.
  - split_and!; [by vm_compute|constructor; [|constructor]|apply NoDup_singleton].
    split_and!; [by vm_compute|by vm_compute|by vm_compute|by vm_compute|done|constructor..].
  - split_and!; [split_and!|..].
    + vm_compute. repeat split.
    + apply (bool_decide_unpack _). vm_compute. done.
    + apply (bool_decide_unpack _). vm_compute. done.
    + apply (bool_decide_unpack _). vm_compute. done.
    + apply (bool_decide_unpack _). vm_compute. done.
Qed.

Lemma queued_inv a b c d e f :
  page_bytes (queued_mem [a; b; c; d; e]) buf = f ->
  net_inv (queued [a; b; c; d; e]) Demo.free [mk_aqueue qpage 2000 [packet f]] Demo.used.
Proof.
  intros Hf.
  assert (Hv : parse_udp f = Some view).
  { rewrite <- Hf. destruct (page_frame_bytes (Demo.memory_of (queued_words [a; b; c; d; e])) buf)
      as [l E]. unfold queued_mem. rewrite E. apply parse_frame. }
  split.
  - split_and!; [by vm_compute|constructor; [|constructor]|apply NoDup_singleton].
    assert (Hp : pkt_rep (mem (queued [a; b; c; d; e])) (packet f)).
    { unfold pkt_rep. cbn [packet ap_node ap_buf ap_frame ap_view].
      split_and!; [by vm_compute|by vm_compute|by vm_compute|by vm_compute|by vm_compute|done|done]. }
    clear Hf Hv.
    split_and!; [by vm_compute|by vm_compute|by vm_compute|by vm_compute|done|..].
    + by constructor.
    + by constructor.
  - clear Hf Hv. split_and!; [split_and!|..].
    + vm_compute. repeat split.
    + apply (bool_decide_unpack _). vm_compute. done.
    + apply (bool_decide_unpack _). vm_compute. done.
    + apply (bool_decide_unpack _). vm_compute. done.
    + apply (bool_decide_unpack _). vm_compute. done.
Qed.

(** The address space of the process: user pages at 0x1000 and 0x2000. *)
Definition tables : list Z := map Demo.at_ [0x200000; 0x201000; 0x202000; 0x203000].
Definition upages : list Z := map Demo.at_ [0x206000; 0x205000].

Definition entry_in (m : memory) (next : list Z) (e : Z) : bool :=
  match entry_target m e with None => true | Some t => bool_decide (t ∈ next) end.

Lemma level_in m n t next :
  forallb (entry_in m next) (map (fun i => t + 8 * Z.of_nat i) (seq 0 n)) = true ->
  level_ok m (Z.of_nat n) t next.
Proof.
  rewrite forallb_forall. intros H i Hi t' Ht'. specialize (H (t + 8 * i)).
  unfold entry_in in H. rewrite Ht' in H. apply (bool_decide_eq_true_1 _), H, in_map_iff.
  exists (Z.to_nat i). split; [lia|]. apply in_seq. lia.
Qed.

Lemma leaf_in m t next :
  forallb (entry_in m next) (map (fun i => t + 8 * Z.of_nat i) (seq 0 512)) = true ->
  (forall i, 0 <= i < 512 -> kmapped (t + 8 * i) 8 = true) -> leaf_ok m t next.
Proof.
  intros H Hk i Hi x Hx. apply level_in in H. apply (H i Hi). unfold entry_target.
  rewrite Hk by done. subst x. destruct (has _ PTE_P); [done|]. done.
Qed.

Lemma space m :
  forallb (entry_in m (map Demo.at_ [0x201000]))
    (map (fun i => Demo.pml4 + 8 * Z.of_nat i) (seq 0 256)) &&
  forallb (entry_in m (map Demo.at_ [0x202000]))
    (map (fun i => Demo.at_ 0x201000 + 8 * Z.of_nat i) (seq 0 512)) &&
  forallb (entry_in m (map Demo.at_ [0x203000]))
    (map (fun i => Demo.at_ 0x202000 + 8 * Z.of_nat i) (seq 0 512)) &&
  forallb (entry_in m upages)
    (map (fun i => Demo.at_ 0x203000 + 8 * Z.of_nat i) (seq 0 512)) = true ->
  aspace tables upages m Demo.pml4.
Proof.
  intros [[[H1 H2]%andb_true_iff H3]%andb_true_iff H4]%andb_true_iff.
  apply (aspace_tree (Demo.at_ 0x100000) m Demo.pml4 [Demo.at_ 0x201000] [Demo.at_ 0x202000]
    [Demo.at_ 0x203000]).
  - apply (bool_decide_unpack _). vm_compute. done.
  - exact (level_in m 256 _ _ H1).
  - constructor; [exact (level_in m 512 _ _ H2)|constructor].
  - constructor; [exact (level_in m 512 _ _ H3)|constructor].
  - constructor; [apply leaf_in; [done|]|constructor]. intros i Hi.
    apply (entry_mapped (Demo.at_ 0x100000)); [|done]. apply (bool_decide_unpack _).
    vm_compute. done.
Qed.

(** Arguments of system calls, read from the trap frame. *)
Definition arg_reg (n : Z) : Z := nth (Z.to_nat n) [tf_rdi; tf_rsi; tf_rdx; tf_r10; tf_r8] 0.

Lemma fetch n s :
  0 <= n < 5 -> cur s = Some 0%nat -> procs s !! 0%nat = Some Demo.process ->
  fetcharg n s = Ok (loadZ 8 (mem s) (Demo.trapframe + arg_reg n)) s.
Proof.
  intros Hn Hc Hp. unfold fetcharg. rewrite (bind_ok _ _ s 0%nat s)
    by (unfold myproc; by rewrite Hc).
  rewrite (bind_ok _ _ s Demo.process s) by (unfold get_proc; by rewrite Hp).
  assert (n = 0 \/ n = 1 \/ n = 2 \/ n = 3 \/ n = 4) as [->|[->|[->|[->| ->]]]] by lia;
    (apply kload_ok; vm_compute; done).
Qed.

Definition running (s : kstate) : Prop :=
  cur s = Some 0%nat /\ procs s !! 0%nat = Some Demo.process.

Lemma arg_addr n s v :
  running s -> 0 <= n < 5 -> loadZ 8 (mem s) (Demo.trapframe + arg_reg n) = v ->
  argaddr n s = Ok v s.
Proof. intros [Hc Hp] Hn <-. by apply fetch. Qed.

Lemma arg_int n s v :
  running s -> 0 <= n < 5 -> s32 (loadZ 8 (mem s) (Demo.trapframe + arg_reg n)) = v ->
  argint n s = Ok v s.
Proof.
  intros [Hc Hp] Hn <-. unfold argint. by rewrite (bind_ok _ _ _ _ _ (fetch n s Hn Hc Hp)).
Qed.

(** The first user page. *)
Lemma user_range m k n :
  uxlate m Demo.pml4 0x1000 = Some (Demo.at_ 0x206000) -> 0 <= k -> k + n <= PGSIZE ->
  umapped m Demo.pml4 (0x1000 + k) n (fun i => Demo.at_ 0x206000 + k + i).
Proof.
  unfold PGSIZE. intros Hx Hk Hn. split_and!; [lia|unfold UHALF; lia|intros; lia|].
  intros i Hi. unfold uaddr. rewrite <- uxlate_page_base.
  replace (0x1000 + k + i) with (k + i + 1 * PGSIZE) by (unfold PGSIZE; lia).
  rewrite Z.div_add, Z.mod_add, Z.div_small, Z.mod_small by (unfold PGSIZE; lia).
  change (PGSIZE * (0 + 1)) with 0x1000. rewrite Hx. f_equal. lia.
Qed.

Lemma quiet_bound args : quiet (bound args).
Proof. exact (Demo.quiet_kernel args). Qed.

Lemma quiet_queued args : quiet (queued args).
Proof. exact (Demo.quiet_kernel args). Qed.

Lemma used_split :
  Demo.used ≡ₚ tables ++ upages ++ Demo.kstack :: Demo.rx_pages ++ map Demo.at_ [0x208000; 0x209000].
Proof. apply (bool_decide_unpack _). vm_compute. done. Qed.

End NetDemo.
