(* ===== verification/NetSpec.v ===== *)
(** * The system calls of net.c: correctness

    Each operation of the network stack refines an operation on the abstract
    ports and queues of NetInv.v. *)

From S2P Require Import Prelude Memory CString Machine Spinlock Kalloc Proc Vm.
From S2P Require Import NetHdr E1000 Sysarg Net Pages Demo NetInv NetDemo.
Local Open Scope Z_scope.
Local Open Scope kernel_scope.

Ltac off_lia :=
  unfold pq_port, pq_head, pq_tail, pq_count, pq_next, pkt_fullbuf, pkt_payload,
    pkt_payload_len, pkt_src_ip, pkt_src_port, pkt_next, PGSIZE; lia.

(** One access to a field of a page. *)
Ltac field_step :=
  first
    [ erewrite bind_ok by (eapply kload_page; [eassumption|off_lia|off_lia])
    | erewrite bind_ok by (eapply kstore_page; [eassumption|off_lia|off_lia])
    | erewrite bind_ok by (eapply kmem_op_page; eassumption) ].

(** Loads of fields after stores of other fields of the same page. *)
Ltac field_load :=
  repeat first
    [ rewrite loadZ_store_same
    | rewrite loadZ_storeZ_disjoint by off_lia ].

(** A page that none of the stores of a memory expression touches. *)
Ltac page_frame :=
  repeat match goal with
  | |- page_agree _ (storeZ _ _ _ _) _ =>
      eapply page_agree_trans; [|eapply page_agree_storeZ; [eassumption..|off_lia|off_lia]]
  | |- page_agree _ (memset _ _ _ _) _ =>
      eapply page_agree_trans; [|eapply page_agree_memset; eassumption]
  end; eauto with xv6.

Lemma find_port_queue_spec s fl qs own port :
  net_inv s fl qs own ->
  find_port_queue port s = Ok (queue_addr (afind port qs)) s.
Proof.
  intros [(Hl & Hq & Hn) (Hk & Hnd & Hpg)]. unfold find_port_queue. rewrite bind_gets.
  assert (Hpages : Forall (kpage (kend s)) (map aq_page qs) /\ NoDup (map aq_page qs)).
  { pose proof (qs_heads_sublist qs) as Hs. apply Forall_app in Hpg as [Hpg _].
    apply NoDup_app in Hnd as (_ & _ & (Hnd & _ & _)%NoDup_app).
    split; [by eapply Forall_sublist|by eapply sublist_NoDup]. }
  apply find_loop_spec; try done; [apply Hpages|].
  rewrite <- (length_map aq_page). eapply kpages_length; apply Hpages.
Qed.

(** ** bind *)

Definition abind (port : Z) (fl : list Z) (qs : list aqueue) : Z * list Z * list aqueue :=
  if (port <? 0) || (0xFFFF <? port) then (u64 (-1), fl, qs)
  else match afind port qs, fl with
       | None, pg :: fl' => (0, fl', mk_aqueue pg port [] :: qs)
       | _, _ => (u64 (-1), fl, qs)
       end.

(** The memory after the stores of [sys_bind] into the new page. *)
Definition bind_mem (m : memory) (pg port next : Z) : memory :=
  let m := memset m pg 0 PGSIZE in
  let m := storeZ 2 m (pg + pq_port) port in
  let m := storeZ 8 m (pg + pq_tail) 0 in
  let m := storeZ 8 m (pg + pq_head) 0 in
  let m := storeZ 4 m (pg + pq_count) 0 in
  storeZ 8 m (pg + pq_next) next.

Lemma bind_mem_agree e m pg port next p :
  kpage e p -> kpage e pg -> p <> pg -> page_agree m (bind_mem m pg port next) p.
Proof.
  intros Hp Hg Hne. unfold bind_mem.
  page_frame.
Qed.

Lemma bind_mem_queue m pg port next :
  0 <= port <= 0xFFFF -> 0 <= next < 2 ^ 64 ->
  queue_rep (bind_mem m pg port next) (mk_aqueue pg port []) /\
  loadZ 8 (bind_mem m pg port next) (pg + pq_next) = next.
Proof.
  intros Hp Hn. unfold queue_rep, bind_mem. simpl. split; [split_and!|].
  - field_load. apply Z.mod_small. lia.
  - by field_load.
  - by field_load.
  - by field_load.
  - unfold MAX_QUEUED_PER_PORT. lia.
  - constructor.
  - constructor.
  - field_load. apply Z.mod_small. lia.
Qed.

Lemma links_head_range m off a l e : links m off a l -> Forall (kpage e) l -> 0 <= a < 2 ^ 64.
Proof.
  destruct l as [|p l]; simpl; [intros -> _; lia|]. intros [-> _] [H _]%Forall_cons.
  by eapply kpage_word.
Qed.

(** Leaving the critical section of [netlock]. *)
Lemma net_release s t :
  quiet s -> locks t = locks (locked_state netlock s) ->
  this_cpu t = pushcli_cpu (this_cpu s) ->
  release netlock t = Ok tt (set_cpu (cpu_norm (this_cpu s)) (set_locks (locks s) t)).
Proof. intros (? & _ & _ & ? & _) ??. by apply release_held. Qed.

Lemma net_acquire s : quiet s -> acquire netlock s = Ok tt (locked_state netlock s).
Proof. intros (_ & _ & _ & ? & _). by apply acquire_free. Qed.

Lemma qs_ne s fl qs own p q :
  net_inv s fl qs own -> p ∈ fl -> q ∈ qs_pages qs ++ own -> p <> q /\ kpage (kend s) q.
Proof. intros [_ Ho] Hp Hq. split; [by eapply owned_ne|by eapply owned_page]. Qed.

(** A new port at the head of the list, in a page taken from the free list. *)
Lemma bind_inv s fl qs own pg port n :
  net_inv s (pg :: fl) qs own -> kmem_ready s -> 0 <= port <= 0xFFFF ->
  afind port qs = None ->
  n = loadZ 8 (mem s) pg ->
  let m' := bind_mem (mem s) pg port (port_list (netst s)) in
  let t := set_net (set_port_list pg (netst s)) (set_mem m' (set_freelist n (kmem_norm s))) in
  net_inv t fl (mk_aqueue pg port [] :: qs) own /\ Forall (page_agree (mem s) m') own.
Proof.
  intros Hinv Hr Hport Hf -> m' t. pose proof Hinv as [(Hl & Hq & Hn) Ho].
  destruct (owned_kalloc _ _ _ _ Hr Ho) as [_ Ho'].
  assert (Hpg : kpage (kend s) pg) by (eapply owned_page in Ho'; [exact Ho'|by left]).
  assert (Ha : forall p, p ∈ qs_pages qs ++ own -> page_agree (mem s) m' p).
  { intros p Hp. destruct (qs_ne _ _ _ _ pg p Hinv) as [? ?]; [by left|done|].
    by eapply bind_mem_agree. }
  assert (Hfl : Forall (page_agree (mem s) m') fl).
  { destruct Ho as ((_ & [Hin _]%NoDup_cons & [_ Hkp]%Forall_cons) & _).
    rewrite Forall_forall in *. intros p Hp. eapply bind_mem_agree; eauto. by intros ->. }
  destruct (bind_mem_queue (mem s) pg port (port_list (netst s))) as [Hqr Hnx]; [done| |].
  { destruct Ho as (_ & _ & Hk). apply Forall_app in Hk as [Hk _].
    eapply links_head_range, Forall_sublist; eauto using qs_heads_sublist. }
  fold m' in Hqr, Hnx. split; [|apply Forall_forall; set_solver].
  split; [split_and!|].
  - split; [done|]. simpl. rewrite Hnx. eapply links_agree; [off_lia|off_lia| |exact Hl].
    apply qs_pages_heads, Forall_forall. set_solver.
  - constructor; [done|]. eapply (net_rep_agree (mem s)); [|done].
    apply Forall_forall. set_solver.
  - simpl. constructor; [by apply afind_none|done].
  - eapply owned_mem in Ho'; [exact Ho'|exact Hfl].
Qed.

(** [sys_bind] refines [abind].  A port out of range, a port that is bound
    already and an exhausted allocator give -1 and change nothing; otherwise
    the port is bound with an empty queue in a fresh page and the result is 0.
    In every case the locks are given back, and no other page, process or
    device register changes. *)
Theorem sys_bind_refines s fl qs own port :
  net_inv s fl qs own -> quiet s -> argint 0 s = Ok port s ->
  let '(r, fl', qs') := abind port fl qs in
  exists s', sys_bind s = Ok r s' /\ net_inv s' fl' qs' own /\ kframe own s s' /\
    procs s' = procs s /\ nic s' = nic s.
Proof.
  intros Hinv Hq Harg. unfold sys_bind, abind. rewrite (bind_ok _ _ _ _ _ Harg).
  destruct ((port <? 0) || (0xFFFF <? port)) eqn:Hr.
  { exists s. split_and!; done || reflexivity. }
  apply orb_false_iff in Hr as [Hr1 Hr2].
  rewrite (bind_ok _ _ _ _ _ (net_acquire s Hq)).
  rewrite u16_small by lia.
  rewrite (bind_ok _ _ _ _ _ (find_port_queue_spec (locked_state netlock s) _ _ _ port Hinv)).
  assert (Hback : kframe own s (set_cpu (cpu_norm (this_cpu s)) (set_locks (locks s)
                    (locked_state netlock s)))).
  { split; try done; simpl; [apply cpu_norm_idem|]. apply Forall_forall. eauto with xv6. }
  destruct (afind port qs) as [q|] eqn:Hf; cbn [queue_addr from_option].
  - destruct (afind_split _ _ _ Hf) as (_ & q1 & q2 & -> & _).
    assert (Hpg : kpage (kend s) (aq_page q)).
    { eapply owned_page; [apply Hinv|]. rewrite qs_pages_app, qs_pages_cons. set_solver. }
    destruct (Z.eqb_spec (aq_page q) 0) as [E|_]; [by apply kpage_nonzero in Hpg|].
    cbn [negb].
    rewrite (bind_ok _ _ _ _ _ (net_release s (locked_state netlock s) Hq eq_refl eq_refl)).
    eexists. split_and!; [done|exact Hinv|done..].
  - cbn [Z.eqb negb]. destruct fl as [|pg fl].
    + destruct Hinv as [Hrep Ho].
      destruct (owned_kalloc_none (locked_state netlock s) _ ltac:(eauto with xv6) Ho) as [He _].
      rewrite (bind_ok _ _ _ _ _ He). cbn [Z.eqb].
      erewrite bind_ok by (apply (net_release s); [done|done|apply kmem_cpu_locked, Hq]).
      eexists. split_and!; [done|exact (conj Hrep Ho)|exact Hback|done|done].
    + set (s1 := locked_state netlock s).
      assert (Hr : kmem_ready s1) by (unfold s1; eauto with xv6).
      destruct (bind_inv s1 fl qs own pg port _ Hinv Hr ltac:(lia) Hf eq_refl) as [Ht Hown].
      destruct (owned_kalloc s1 pg fl _ Hr (proj2 Hinv)) as [He Ho].
      assert (Hpg : kpage (kend s) pg) by (eapply owned_page in Ho; [exact Ho|by left]).
      rewrite (bind_ok _ _ _ _ _ He).
      destruct (Z.eqb_spec pg 0) as [E|_]; [by apply kpage_nonzero in Hpg|].
      do 5 field_step. rewrite bind_gets. field_step. unfold upd_net. rewrite bind_modify.
      erewrite bind_ok by (apply (net_release s); [done|done|apply kmem_cpu_locked, Hq]).
      eexists. split_and!; [done|exact Ht| |done..].
      split; try done. simpl. apply cpu_norm_idem.
Qed.

(** Port 5000 is bound in a kernel where port 2000 is. *)
Lemma sys_bind_refines_witness :
  exists s', sys_bind (NetDemo.bound [5000; 0; 0; 0; 0]) = Ok 0 s' /\
    net_inv s' (map Demo.at_ [0x301000; 0x302000; 0x303000])
      [mk_aqueue (Demo.at_ 0x300000) 5000 []; mk_aqueue NetDemo.qpage 2000 []]
      (NetDemo.buf :: Demo.used).
Proof.
  assert (Harg : argint 0 (NetDemo.bound [5000; 0; 0; 0; 0]) =
                   Ok 5000 (NetDemo.bound [5000; 0; 0; 0; 0])).
  { apply NetDemo.arg_int; [done|lia|]. by vm_compute. }
  destruct (sys_bind_refines _ _ _ _ 5000 (NetDemo.bound_inv 5000 0 0 0 0)
    (NetDemo.quiet_bound _) Harg) as (s' & He & Hi & _).
  exists s'. split; [exact He|exact Hi].
Defined.

(** ** Incoming packets *)

(** Appending a packet to a queue. *)
Definition apush (p : apkt) (q : aqueue) : aqueue :=
  mk_aqueue (aq_page q) (aq_port q) (aq_pkts q ++ [p]).

(** What [ip_rx] does with the frame [f] in page [buf]. *)
Definition aip_rx (buf : Z) (f : list byte) (fl : list Z) (qs : list aqueue) :
    list Z * list aqueue :=
  match parse_udp f with
  | None => (buf :: fl, qs)
  | Some v =>
      match afind (uv_dport v) qs with
      | None => (buf :: fl, qs)
      | Some q =>
          if MAX_QUEUED_PER_PORT <=? Z.of_nat (length (aq_pkts q)) then (buf :: fl, qs)
          else match fl with
               | [] => ([buf], qs)
               | node :: fl' => (fl', aupd (uv_dport v) (apush (mk_apkt node buf f v)) qs)
               end
      end
  end.

(** The memory after the stores into the new node. *)
Definition node_mem (m : memory) (node buf : Z) (v : udp_view) : memory :=
  let m := memset m node 0 PGSIZE in
  let m := storeZ 8 m (node + pkt_fullbuf) buf in
  let m := storeZ 8 m (node + pkt_payload) (buf + uv_off v) in
  let m := storeZ 4 m (node + pkt_payload_len) (uv_len v) in
  let m := storeZ 4 m (node + pkt_src_ip) (uv_src v) in
  let m := storeZ 2 m (node + pkt_src_port) (uv_sport v) in
  storeZ 8 m (node + pkt_next) 0.

Lemma node_mem_agree e m node buf v p :
  kpage e p -> kpage e node -> p <> node -> page_agree m (node_mem m node buf v) p.
Proof. intros. unfold node_mem. page_frame. Qed.

Lemma s32_u32 x : s32 (x mod 2 ^ 32) = s32 x.
Proof. unfold s32. by rewrite Z.mod_mod by lia. Qed.

(** The view of a datagram stays inside its frame's page. *)
Lemma parse_udp_range f v :
  parse_udp f = Some v ->
  0 <= uv_src v < 2 ^ 32 /\ 0 <= uv_sport v < 2 ^ 16 /\ 0 <= uv_dport v < 2 ^ 16 /\
  22 <= uv_off v <= 82 /\ -8 <= uv_len v < 2 ^ 16.
Proof.
  unfold parse_udp. destruct (fb f 23 =? 17); [|done]. intros [= <-]. simpl.
  pose proof (fb32_range f 26). pose proof (fb16_range f (udp_off f)).
  pose proof (fb16_range f (udp_off f + 2)). pose proof (fb16_range f (udp_off f + 4)).
  assert (14 <= udp_off f <= 74)
    by (unfold udp_off; pose proof (Z.mod_pos_bound (fb f 14) 16 ltac:(lia)); lia).
  lia.
Qed.

Lemma node_mem_rep e m node buf f v :
  kpage e node -> kpage e buf -> buf <> node -> page_bytes m buf = f -> parse_udp f = Some v ->
  pkt_rep (node_mem m node buf v) (mk_apkt node buf f v) /\
  loadZ 8 (node_mem m node buf v) (node + pkt_next) = 0.
Proof.
  intros Hn Hb Hne Hf Hv. pose proof (parse_udp_range f v Hv) as (?&?&?&?&?).
  assert (KERNBASE <= buf < KERNBASE + PHYSTOP) as Hr by apply Hb.
  unfold KERNBASE, PHYSTOP in Hr.
  split; [|by unfold node_mem; field_load]. unfold pkt_rep. simpl.
  rewrite (page_agree_bytes m) by (by eapply node_mem_agree).
  unfold node_mem. split_and!; try done; field_load; try (apply Z.mod_small; lia).
  change (2 ^ (8 * Z.of_nat 4)) with (2 ^ 32). rewrite s32_u32. apply s32_small. lia.
Qed.

(** [enqueue], as a change of memory. *)
Definition enq_mem (m : memory) (pg tail node cnt : Z) : memory :=
  let m := if tail =? 0
           then storeZ 8 (storeZ 8 m (pg + pq_tail) node) (pg + pq_head) node
           else storeZ 8 (storeZ 8 m (tail + pkt_next) node) (pg + pq_tail) node in
  storeZ 4 m (pg + pq_count) (cnt + 1).

(** The last node of a queue, when there is one. *)
Lemma queue_tail e q :
  Forall (kpage e) (queue_pages q) -> NoDup (queue_pages q) ->
  let tail := last_page (map ap_node (aq_pkts q)) in
  (aq_pkts q = [] /\ tail = 0) \/
  (exists l p, aq_pkts q = l ++ [p] /\ tail = ap_node p /\ kpage e tail /\ tail <> aq_page q /\
     tail ∉ map ap_node l).
Proof.
  intros Hk Hn tail. destruct (aq_pkts q) as [|p l _] eqn:E using rev_ind; [by left|right].
  exists l, p. unfold queue_pages in *. rewrite E in Hk, Hn. unfold tail.
  rewrite map_app. simpl map. rewrite last_page_snoc. rewrite map_app, concat_app in Hk, Hn. simpl in *.
  apply Forall_cons in Hk as [_ Hk]. apply Forall_app in Hk as [_ Hk].
  apply Forall_cons in Hk as [Hp _]. apply NoDup_cons in Hn as [Hin Hn].
  split_and!; try done.
  - intros Heq. apply Hin. rewrite <- Heq. set_solver.
  - apply NoDup_app in Hn as (_ & Hd & _). intros (x & Ex & Hx)%list_elem_of_fmap.
    apply (Hd (ap_node p)); [|set_solver]. rewrite Ex.
    apply list_elem_of_In, in_concat. exists (pkt_pages x).
    split; [by apply in_map, list_elem_of_In|by left].
Qed.

Lemma loadZ_other_page e m p q k n j k' v :
  kpage e p -> kpage e q -> p <> q -> 0 <= k -> k + Z.of_nat n <= PGSIZE ->
  0 <= j -> j + Z.of_nat k' <= PGSIZE ->
  loadZ n (storeZ k' m (q + j) v) (p + k) = loadZ n m (p + k).
Proof.
  intros. apply page_agree_loadZ; [|done|done]. by eapply page_agree_storeZ.
Qed.

(** Loads of fields after stores of fields of two different pages. *)
Ltac field_load2 :=
  repeat first
    [ rewrite loadZ_store_same
    | rewrite loadZ_storeZ_disjoint by off_lia
    | erewrite loadZ_other_page by (eassumption || (apply not_eq_sym; eassumption) || off_lia) ].

Lemma enqueue_eq e s node q :
  Forall (kpage e) (queue_pages q) -> NoDup (queue_pages q) -> queue_rep (mem s) q ->
  enqueue (aq_page q) node s =
    Ok tt (set_mem (enq_mem (mem s) (aq_page q) (last_page (map ap_node (aq_pkts q))) node
                      (Z.of_nat (length (aq_pkts q)))) s).
Proof.
  intros Hk Hn (_ & _ & Ht & Hc & Hlen & _). unfold enqueue.
  assert (Hpg : kpage e (aq_page q)) by (by apply Forall_cons in Hk as [? _]).
  assert (Hs : s32 (Z.of_nat (length (aq_pkts q))) = Z.of_nat (length (aq_pkts q)))
    by (apply s32_small; unfold MAX_QUEUED_PER_PORT in *; lia).
  field_step. rewrite Ht. unfold enq_mem.
  destruct (queue_tail e q Hk Hn) as [[_ ->]|(l & p & _ & _ & Htl & Hne & _)].
  - cbn [Z.eqb negb]. rewrite bind_assoc. do 3 field_step.
    erewrite kstore_page by (eassumption || off_lia). simpl. field_load. by rewrite Hc, Hs.
  - set (tail := last_page _) in *.
    destruct (Z.eqb_spec tail 0) as [E|_]; [by apply kpage_nonzero in Htl|]. cbn [negb].
    rewrite bind_assoc. do 3 field_step.
    erewrite kstore_page by (eassumption || off_lia). simpl. field_load2. by rewrite Hc, Hs.
Qed.

Lemma pkt_pages_perm l : concat (map pkt_pages l) ≡ₚ map ap_node l ++ map ap_buf l.
Proof.
  induction l as [|p l IH]; [done|]. simpl. rewrite IH. perm_solve.
Qed.

Lemma queue_pages_perm q :
  queue_pages q ≡ₚ aq_page q :: map ap_node (aq_pkts q) ++ map ap_buf (aq_pkts q).
Proof. unfold queue_pages. by rewrite pkt_pages_perm. Qed.

(** A packet survives a store into the link of its node. *)
Lemma pkt_rep_ext m m' p :
  (forall k n, 0 <= k -> k + Z.of_nat n <= pkt_next ->
     loadZ n m' (ap_node p + k) = loadZ n m (ap_node p + k)) ->
  page_agree m m' (ap_buf p) -> pkt_rep m p -> pkt_rep m' p.
Proof.
  intros Hn Hb. unfold pkt_rep.
  rewrite (page_agree_bytes m m') by done. rewrite !Hn by off_lia. done.
Qed.

Section EnqMem.

Context (e : Z) (m : memory) (q : aqueue) (node n : Z).
Hypothesis Hk : Forall (kpage e) (queue_pages q).
Hypothesis Hn : NoDup (queue_pages q).
Let tail := last_page (map ap_node (aq_pkts q)).
Let m' := enq_mem m (aq_page q) tail node n.

Let Hpg : kpage e (aq_page q).
Proof. by apply Forall_cons in Hk as [? _]. Qed.

Lemma enq_mem_agree p : kpage e p -> p <> aq_page q -> p <> tail -> page_agree m m' p.
Proof.
  intros Hp Hne Hnt. unfold m', enq_mem.
  pose proof (queue_tail e q Hk Hn) as HT. cbv zeta in HT. fold tail in HT.
  destruct HT as [[_ Et]|(l & x & _ & _ & Htl & _)].
  - rewrite Et. cbn [Z.eqb]. page_frame.
  - destruct (Z.eqb_spec tail 0) as [E|_]; [by apply kpage_nonzero in Htl|]. page_frame.
Qed.

(** The fields of a node other than its link are kept. *)
Lemma enq_mem_fields p k i :
  kpage e p -> p <> aq_page q -> 0 <= k -> k + Z.of_nat i <= pkt_next ->
  loadZ i m' (p + k) = loadZ i m (p + k).
Proof.
  intros Hp Hne Hk0 Hki. destruct (decide (p = tail)) as [->|Hnt].
  - unfold m', enq_mem.
    destruct (Z.eqb_spec tail 0) as [E|_]; [by apply kpage_nonzero in Hp|].
    unfold pkt_next in Hki. field_load2. done.
  - apply page_agree_loadZ; [by apply enq_mem_agree|done|]. unfold pkt_next, PGSIZE in *. lia.
Qed.

Lemma enq_mem_queue :
  loadZ 2 m' (aq_page q + pq_port) = loadZ 2 m (aq_page q + pq_port) /\
  loadZ 8 m' (aq_page q + pq_tail) = node mod 2 ^ 64 /\
  loadZ 4 m' (aq_page q + pq_count) = (n + 1) mod 2 ^ 32 /\
  loadZ 8 m' (aq_page q + pq_next) = loadZ 8 m (aq_page q + pq_next) /\
  loadZ 8 m' (aq_page q + pq_head) =
    (if tail =? 0 then node mod 2 ^ 64 else loadZ 8 m (aq_page q + pq_head)).
Proof.
  unfold m', enq_mem.
  pose proof (queue_tail e q Hk Hn) as HT. cbv zeta in HT. fold tail in HT.
  destruct HT as [[_ Et]|(l & x & _ & _ & Htl & Hne & _)].
  - rewrite Et. cbn [Z.eqb]. split_and!; by field_load2.
  - destruct (Z.eqb_spec tail 0) as [E|_]; [by apply kpage_nonzero in Htl|].
    split_and!; by field_load2.
Qed.

(** The link of the old last node. *)
Lemma enq_mem_link : tail <> 0 -> loadZ 8 m' (tail + pkt_next) = node mod 2 ^ 64.
Proof.
  intros Ht. unfold m', enq_mem.
  pose proof (queue_tail e q Hk Hn) as HT. cbv zeta in HT. fold tail in HT.
  destruct HT as [[_ Et]|(l & x & _ & _ & Htl & Hne & _)];
    [done|].
  destruct (Z.eqb_spec tail 0) as [E|_]; [done|]. by field_load2.
Qed.

Lemma tail_ne p : p <> 0 -> p ∉ map ap_node (aq_pkts q) -> p <> tail.
Proof.
  intros H0 Hp. unfold tail, last_page. destruct (last (map ap_node (aq_pkts q))) as [x|] eqn:E;
    simpl; [|done]. apply last_Some_elem_of in E. by intros ->.
Qed.

(** The packets that were there before. *)
Lemma enq_mem_pkts : Forall (pkt_rep m) (aq_pkts q) -> Forall (pkt_rep m') (aq_pkts q).
Proof.
  rewrite !Forall_forall. intros H x Hx. pose proof Hk as Hk'. pose proof Hn as Hn'.
  rewrite queue_pages_perm in Hk', Hn'. apply NoDup_cons in Hn' as [Hin (_ & Hd & _)%NoDup_app].
  apply Forall_cons in Hk' as [_ [Hk1 Hk2]%Forall_app]. rewrite Forall_forall in Hk1, Hk2.
  assert (Hx1 : ap_node x ∈ map ap_node (aq_pkts q)) by (by apply list_elem_of_fmap_2).
  assert (Hx2 : ap_buf x ∈ map ap_buf (aq_pkts q)) by (by apply list_elem_of_fmap_2).
  eapply pkt_rep_ext; [| |by apply H].
  - intros. apply enq_mem_fields; [by apply Hk1|set_solver|done|done].
  - apply enq_mem_agree; [by apply Hk2|set_solver|].
    apply tail_ne; [by eapply kpage_nonzero, Hk2|]. intros Hn'. by apply (Hd (ap_buf x)).
Qed.

Lemma enq_mem_links a :
  kpage e node -> node ∉ queue_pages q ->
  links m pkt_next a (map ap_node (aq_pkts q)) -> loadZ 8 m (node + pkt_next) = 0 ->
  links m' pkt_next (if tail =? 0 then node else a) (map ap_node (aq_pkts q) ++ [node]).
Proof.
  intros Hnode Hin Hl H0. rewrite queue_pages_perm in Hin.
  assert (H0' : loadZ 8 m' (node + pkt_next) = 0).
  { rewrite <- H0. apply page_agree_loadZ; [|off_lia|off_lia].
    apply enq_mem_agree; [done|set_solver|].
    apply tail_ne; [by eapply kpage_nonzero|set_solver]. }
  pose proof (queue_tail e q Hk Hn) as HT. cbv zeta in HT. fold tail in HT.
  destruct HT as [[El Et]|(l & x & El & Et & Htl & Hne & Hx)].
  - rewrite Et, El. simpl. done.
  - assert (Ht0 : tail <> 0) by (by eapply kpage_nonzero).
    rewrite (proj2 (Z.eqb_neq _ _) Ht0).
    pose proof (enq_mem_link Ht0) as Hlk. rewrite Z.mod_small in Hlk by (by eapply kpage_word).
    pose proof Hk as Hk'. pose proof Hn as Hn'.
    rewrite queue_pages_perm, El, map_app in Hk', Hn'. rewrite El, map_app in Hl |- *. simpl in *.
    rewrite <- app_assoc. simpl. rewrite <- Et in *.
    apply links_snoc with m; try off_lia; try done.
    apply Forall_forall. intros p Hp. apply Forall_cons in Hk' as [_ Hk'].
    rewrite Forall_forall in Hk'. apply NoDup_cons in Hn' as [Hpg' _].
    apply enq_mem_agree; [apply Hk'; set_solver|set_solver|by intros ->].
Qed.

End EnqMem.

(** [enqueue] appends. *)
Lemma enq_mem_rep e m q p :
  let q' := apush p q in
  let m' := enq_mem m (aq_page q) (last_page (map ap_node (aq_pkts q))) (ap_node p)
              (Z.of_nat (length (aq_pkts q))) in
  Forall (kpage e) (queue_pages q') -> NoDup (queue_pages q') ->
  queue_rep m q -> pkt_rep m p -> loadZ 8 m (ap_node p + pkt_next) = 0 ->
  uv_dport (ap_view p) = aq_port q ->
  Z.of_nat (length (aq_pkts q)) < MAX_QUEUED_PER_PORT ->
  queue_rep m' q' /\ loadZ 8 m' (aq_page q + pq_next) = loadZ 8 m (aq_page q + pq_next).
Proof.
  intros q' m' Hk' Hn' (H1 & H2 & H3 & H4 & H5 & H6 & H7) Hp H0 Hport Hlt.
  assert (Hperm : queue_pages q' ≡ₚ ap_node p :: ap_buf p :: queue_pages q).
  { rewrite !queue_pages_perm. unfold q'. simpl. rewrite !map_app. simpl. perm_solve. }
  rewrite Hperm in Hk', Hn'. apply Forall_cons in Hk' as [Hnode Hk'].
  apply Forall_cons in Hk' as [Hbuf Hk]. apply NoDup_cons in Hn' as [Hin1 Hn'].
  apply NoDup_cons in Hn' as [Hin2 Hn].
  destruct (enq_mem_queue e m q (ap_node p) (Z.of_nat (length (aq_pkts q))) Hk Hn)
    as (E1 & E2 & E3 & E4 & E5).
  pose proof (enq_mem_agree e m q (ap_node p) (Z.of_nat (length (aq_pkts q))) Hk Hn) as Hag.
  pose proof (enq_mem_fields e m q (ap_node p) (Z.of_nat (length (aq_pkts q))) Hk Hn) as Hfld.
  fold m' in E1, E2, E3, E4, E5, Hag, Hfld.
  rewrite Z.mod_small in E2, E5 by (by eapply kpage_word).
  rewrite Z.mod_small in E3 by (unfold MAX_QUEUED_PER_PORT in *; lia).
  split; [|done].
  unfold queue_rep, q'. simpl. rewrite map_app, length_app. simpl. split_and!.
  - by rewrite E1.
  - rewrite E5. apply enq_mem_links with e; try done. set_solver.
  - by rewrite E2, last_page_snoc.
  - rewrite E3. lia.
  - lia.
  - apply Forall_app. split; [by apply enq_mem_pkts with e|]. constructor; [|constructor].
    rewrite queue_pages_perm in Hin1, Hin2. eapply pkt_rep_ext; [| |exact Hp].
    + intros. apply Hfld; [done|set_solver|done|done].
    + apply Hag; [done|set_solver|]. apply tail_ne; [by eapply kpage_nonzero|set_solver].
  - apply Forall_app. split; [done|]. by constructor.
Qed.

Lemma kload_at e p a n s :
  kpage e p -> p <= a -> a + Z.of_nat n <= p + PGSIZE ->
  kload n a s = Ok (loadZ n (mem s) a) s.
Proof.
  intros. replace a with (p + (a - p)) by lia. eapply kload_page; [eassumption|lia|lia].
Qed.

(** The static variable [seen_ip], and what is printed with it. *)
Definition ip_seen (s : kstate) : kstate :=
  set_net (set_seen_ip 1 (netst s))
    (set_klog (if seen_ip (netst s) =? 0 then "ip_rx: received an IP packet"%string :: klog s
               else klog s) s).

Lemma udp_off_range f : 14 <= udp_off f <= 74.
Proof. unfold udp_off. pose proof (Z.mod_pos_bound (fb f 14) 16 ltac:(lia)). lia. Qed.

(** The headers of a frame. *)
Lemma ip_rx_parse e s buf len f :
  kpage e buf -> page_bytes (mem s) buf = f ->
  ip_rx buf len s =
    match parse_udp f with
    | None => kfree buf (ip_seen s)
    | Some v => ip_queue buf (buf + sizeof_eth) (buf + uv_off v) (uv_len v) (uv_dport v)
                  (uv_sport v) (ip_seen s)
    end.
Proof.
  intros Hb Hf. unfold ip_rx. rewrite bind_gets.
  assert (Hseen : forall k : M kstate unit,
    ((when (seen_ip (netst s) =? 0) do cprintf "ip_rx: received an IP packet") ;;
     upd_net (set_seen_ip 1) ;; k) s = k (ip_seen s)).
  { intros k. unfold ip_seen. destruct (seen_ip (netst s) =? 0); [done|].
    unfold upd_net. rewrite bind_ret, bind_modify. by destruct s. }
  rewrite Hseen.
  assert (Hld : forall k n, 0 <= k -> k + Z.of_nat n <= PGSIZE ->
    kload n (buf + k) (ip_seen s) = Ok (loadZ n (mem s) (buf + k)) (ip_seen s))
    by (intros; by apply (kload_page e _ _ _ (ip_seen s))).
  pose proof (udp_off_range f) as Ho.
  replace (buf + sizeof_eth + ip_p) with (buf + 23) by (unfold sizeof_eth, ip_p; lia).
  rewrite (bind_ok _ _ _ _ _ (Hld 23 1%nat ltac:(lia) ltac:(unfold PGSIZE; lia))).
  rewrite load_page_1, Hf by (unfold PGSIZE; lia). unfold parse_udp, IPPROTO_UDP.
  destruct (fb f 23 =? 17); [|done]. cbn [negb].
  replace (buf + sizeof_eth + ip_vhl) with (buf + 14) by (unfold sizeof_eth, ip_vhl; lia).
  rewrite (bind_ok _ _ _ _ _ (Hld 14 1%nat ltac:(lia) ltac:(unfold PGSIZE; lia))).
  rewrite load_page_1, Hf by (unfold PGSIZE; lia).
  change 0x0f with (Z.ones 4). rewrite Z.land_ones by lia. change (2 ^ 4) with 16.
  replace (buf + sizeof_eth + fb f 14 mod 16 * 4) with (buf + udp_off f)
    by (unfold sizeof_eth, udp_off; lia).
  unfold udp_ulen, udp_dport, udp_sport, sizeof_udp.
  rewrite <- !Z.add_assoc.
  rewrite (bind_ok _ _ _ _ _ (Hld (udp_off f + 4) 2%nat ltac:(lia) ltac:(unfold PGSIZE; lia))).
  rewrite (bind_ok _ _ _ _ _ (Hld (udp_off f + 2) 2%nat ltac:(lia) ltac:(unfold PGSIZE; lia))).
  rewrite (bind_ok _ _ _ _ _ (Hld (udp_off f + 0) 2%nat ltac:(lia) ltac:(unfold PGSIZE; lia))).
  rewrite !load_page_2, Hf by (unfold PGSIZE; lia). simpl.
  rewrite Z.add_0_r, s32_small; [done|]. pose proof (fb16_range f (udp_off f + 4)). lia.
Qed.

Lemma kmem_norm_locked lk s :
  cpu_wf (this_cpu s) -> kmem_norm (locked_state lk s) = locked_state lk s.
Proof. intros. unfold kmem_norm. by rewrite kmem_cpu_locked. Qed.

(** Dropping a page. *)
Lemma net_kfree s fl qs own buf :
  net_inv s fl qs (buf :: own) -> kmem_ready s ->
  kfree buf s = Ok tt (freed buf s) /\ net_inv (freed buf s) (buf :: fl) qs own /\
  kframe own s (freed buf s).
Proof.
  intros [Hrep Ho] Hr. rewrite <- Permutation_middle in Ho.
  destruct (owned_kfree s buf fl _ Hr Ho) as (He & Ho' & Ha). apply Forall_app in Ha as [Ha1 Ha2].
  split_and!; [done| |].
  - split; [|done]. by eapply (net_rep_agree (mem s)).
  - split; try done. simpl. apply kmem_cpu_norm.
Qed.

(** Leaving the lock and dropping the page. *)
Lemma ip_drop s fl qs own buf :
  net_inv s fl qs (buf :: own) -> quiet s ->
  exists s', (release netlock ;; kfree buf) (locked_state netlock s) = Ok tt s' /\
    net_inv s' (buf :: fl) qs own /\ kframe own s s' /\ nic s' = nic s /\ procs s' = procs s.
Proof.
  intros Hinv Hq. rewrite (bind_ok _ _ _ _ _ (net_release s _ Hq eq_refl eq_refl)).
  set (s1 := set_cpu _ _).
  assert (Hf : kframe own s s1).
  { split; try done; [apply cpu_norm_idem|]. apply Forall_forall. eauto with xv6. }
  destruct (net_kfree s1 fl qs own buf) as (He & Hi & Hf'); [exact Hinv| |].
  { eapply quiet_kmem, kframe_quiet; eauto. }
  eexists. split_and!; [exact He|done|by transitivity s1|done|done].
Qed.

Lemma queue_pages_in q1 q q2 own s fl :
  net_inv s fl (q1 ++ q :: q2) own ->
  Forall (kpage (kend s)) (queue_pages q) /\ NoDup (queue_pages q).
Proof.
  intros [_ (_ & Hn & Hp)]. rewrite qs_pages_app, qs_pages_cons in Hn, Hp.
  rewrite !Forall_app in Hp. apply NoDup_app in Hn as (_ & _ & Hn).
  apply NoDup_app in Hn as (Hn & _ & _). apply NoDup_app in Hn as (_ & _ & Hn).
  apply NoDup_app in Hn as (Hn & _ & _). split; [apply Hp|done].
Qed.

(** One queue among the others: its pages are apart from all other pages. *)
Lemma queue_apart s fl q1 q q2 own :
  owned s fl (qs_pages (q1 ++ q :: q2) ++ own) ->
  Forall (kpage (kend s)) (queue_pages q) /\ NoDup (queue_pages q) /\
  Forall (fun r => kpage (kend s) r /\ r ∉ queue_pages q) (fl ++ qs_pages (q1 ++ q2) ++ own).
Proof.
  intros (Hk & Hn & Hp).
  assert (Hkp : Forall (kpage (kend s)) (fl ++ qs_pages (q1 ++ q :: q2) ++ own))
    by (apply Forall_app; split; [apply Hk|done]).
  assert (E : fl ++ qs_pages (q1 ++ q :: q2) ++ own ≡ₚ
              queue_pages q ++ (fl ++ qs_pages (q1 ++ q2) ++ own))
    by (rewrite !qs_pages_app, !qs_pages_cons; perm_solve).
  rewrite E in Hn, Hkp. apply Forall_app in Hkp as [? Hr]. apply NoDup_app in Hn as (? & Hd & _).
  split_and!; try done. rewrite Forall_forall in *. intros r Hin. split; [auto|].
  intros Hq. by eapply Hd.
Qed.

Lemma apush_pages p q : queue_pages (apush p q) ≡ₚ ap_node p :: ap_buf p :: queue_pages q.
Proof. rewrite !queue_pages_perm. simpl. rewrite !map_app. simpl. perm_solve. Qed.

(** The invariant after a packet was queued in a fresh node. *)
Lemma queue_inv s node fl q1 q q2 own buf f v :
  net_inv s (node :: fl) (q1 ++ q :: q2) (buf :: own) -> kmem_ready s ->
  page_bytes (mem s) buf = f -> parse_udp f = Some v -> uv_dport v = aq_port q ->
  Z.of_nat (length (aq_pkts q)) < MAX_QUEUED_PER_PORT ->
  let m1 := node_mem (mem s) node buf v in
  let m' := enq_mem m1 (aq_page q) (last_page (map ap_node (aq_pkts q))) node
              (Z.of_nat (length (aq_pkts q))) in
  let q' := apush (mk_apkt node buf f v) q in
  let t := set_mem m' (set_freelist (loadZ 8 (mem s) node) s) in
  queue_rep m1 q /\ page_agree (mem s) m1 buf /\
  net_inv t fl (q1 ++ q' :: q2) own /\ Forall (page_agree (mem s) m') own.
Proof.
  intros Hinv Hr Hf Hv Hport Hlen m1 m' q' t. pose proof Hinv as [Hrep Ho].
  destruct (owned_kalloc _ _ _ _ Hr Ho) as [_ Ho'].
  assert (Hperm : node :: qs_pages (q1 ++ q :: q2) ++ buf :: own ≡ₚ
                  qs_pages (q1 ++ q' :: q2) ++ own).
  { rewrite !qs_pages_app, !qs_pages_cons. unfold q'. rewrite apush_pages. simpl. perm_solve. }
  rewrite Hperm in Ho'. destruct (queue_apart _ _ _ _ _ _ Ho') as (Hk' & Hn' & Hrest).
  pose proof Hk' as Hk. pose proof Hn' as Hn. unfold q' in Hk, Hn, Hrest.
  rewrite apush_pages in Hk, Hn. setoid_rewrite apush_pages in Hrest. simpl in Hk, Hn, Hrest.
  apply Forall_cons in Hk as [Hnode Hk]. apply Forall_cons in Hk as [Hbuf Hk].
  apply NoDup_cons in Hn as [[Hnb Hnq]%not_elem_of_cons Hn]. apply NoDup_cons in Hn as [Hbq Hn].
  assert (H1 : forall r, kpage (kend s) r -> r <> node -> page_agree (mem s) m1 r)
    by (intros; by eapply node_mem_agree).
  assert (Hag : Forall (page_agree (mem s) m') (fl ++ qs_pages (q1 ++ q2) ++ own)).
  { eapply Forall_impl; [exact Hrest|]. intros r [Hkr Hr'].
    apply not_elem_of_cons in Hr' as [Hr1 Hr']. apply not_elem_of_cons in Hr' as [_ Hr'].
    eapply page_agree_trans; [by apply H1|]. rewrite queue_pages_perm in Hr'.
    apply not_elem_of_cons in Hr' as [Hr2 Hr']. eapply enq_mem_agree; eauto.
    apply tail_ne; [by eapply kpage_nonzero|]. intros ?. apply Hr', elem_of_app. by left. }
  rewrite !Forall_app in Hag. destruct Hag as (Hag1 & Hag2 & Hag3).
  assert (Hq1 : queue_rep m1 q).
  { destruct Hrep as (_ & Hq & _). rewrite Forall_app, Forall_cons in Hq.
    eapply queue_rep_agree; [|apply Hq]. rewrite Forall_forall in *. intros r Hr'.
    apply H1; [auto|by intros ->]. }
  destruct (node_mem_rep (kend s) (mem s) node buf f v) as [Hp Hp0]; try done.
  destruct (enq_mem_rep (kend s) m1 q (mk_apkt node buf f v)) as [Hq' Hlink]; try done.
  cbn [ap_node] in Hlink. split_and!; [done|by apply H1| |done].
  split.
  - eapply net_rep_update; [exact Hrep|done|done|done| |exact Hq'].
    etrans; [exact Hlink|]. apply page_agree_loadZ; [|off_lia|off_lia].
    apply H1; [by apply Forall_cons in Hk as [? _]|]. intros E. apply Hnq. rewrite <- E. by left.
  - assert (Ht : owned (set_freelist (loadZ 8 (mem s) node) s) fl
                   (qs_pages (q1 ++ q' :: q2) ++ own)) by exact Ho'.
    exact (owned_mem (set_freelist (loadZ 8 (mem s) node) s) m' _ _ Hag1 Ht).
Qed.

Definition aenqueued (f : list byte) (fl : list Z) (qs : list aqueue) : option aqueue :=
  match parse_udp f with
  | None => None
  | Some v =>
      match afind (uv_dport v) qs with
      | Some q =>
          if MAX_QUEUED_PER_PORT <=? Z.of_nat (length (aq_pkts q)) then None
          else match fl with [] => None | _ => Some q end
      | None => None
      end
  end.

(** The processes after [ip_rx]: a queued packet wakes the sleepers on its port. *)
Definition woken (o : option aqueue) (ps : list proc) : list proc :=
  match o with None => ps | Some q => map (wakeup1_proc (aq_page q)) ps end.

Lemma fill_pkt_eq e s node buf f v :
  kpage e node -> kpage e buf -> buf <> node -> page_bytes (mem s) buf = f ->
  parse_udp f = Some v ->
  fill_pkt node buf (buf + sizeof_eth) (buf + uv_off v) (uv_len v) (uv_sport v) s =
    Ok tt (set_mem (node_mem (mem s) node buf v) s).
Proof.
  intros Hn Hb Hne Hf Hv. unfold fill_pkt. do 4 field_step.
  replace (buf + sizeof_eth + ip_src) with (buf + 26) by (unfold sizeof_eth, ip_src; lia).
  erewrite bind_ok by (eapply kload_page; [exact Hb|lia|unfold PGSIZE; lia]).
  do 2 field_step. erewrite kstore_page by (eassumption || off_lia).
  assert (Hsrc : forall m, page_agree (mem s) m buf -> ntohl (loadZ 4 m (buf + 26)) = uv_src v).
  { intros m Hm. rewrite load_page_4 by (unfold PGSIZE; lia).
    rewrite (page_agree_bytes _ _ _ Hm), Hf. unfold parse_udp in Hv.
    destruct (fb f 23 =? 17); [|done]. by injection Hv as <-. }
  rewrite Hsrc; [by destruct s|]. cbn [mem set_mem]. page_frame.
Qed.

Lemma ip_queue_spec s fl qs own buf f v :
  net_inv s fl qs (buf :: own) -> quiet s -> page_bytes (mem s) buf = f ->
  parse_udp f = Some v ->
  let '(fl', qs') := aip_rx buf f fl qs in
  exists s', ip_queue buf (buf + sizeof_eth) (buf + uv_off v) (uv_len v) (uv_dport v)
               (uv_sport v) s = Ok tt s' /\
    net_inv s' fl' qs' own /\ kframe own s s' /\ nic s' = nic s /\
    procs s' = woken (aenqueued f fl qs) (procs s).
Proof.
  intros Hinv Hq Hf Hv. unfold aip_rx, aenqueued. rewrite Hv. unfold ip_queue.
  pose proof (ip_drop s fl qs own buf Hinv Hq) as Hdrop.
  rewrite (bind_ok _ _ _ _ _ (net_acquire s Hq)).
  rewrite (bind_ok _ _ _ _ _ (find_port_queue_spec (locked_state netlock s) _ _ _ _ Hinv)).
  destruct (afind (uv_dport v) qs) as [q|] eqn:Hfind; cbn [queue_addr from_option].
  2: { cbn [Z.eqb]. exact Hdrop. }
  destruct (afind_split _ _ _ Hfind) as (Hport & q1 & q2 & -> & Hupd).
  destruct (queue_pages_in _ _ _ _ _ _ Hinv) as [Hqk Hqn].
  assert (Hpg : kpage (kend s) (aq_page q)) by (by apply Forall_cons in Hqk as [? _]).
  destruct (Z.eqb_spec (aq_page q) 0) as [E|_]; [by apply kpage_nonzero in Hpg|].
  assert (Hqr : queue_rep (mem s) q).
  { destruct Hinv as [(_ & Hqs & _) _]. rewrite Forall_app, Forall_cons in Hqs. apply Hqs. }
  field_step. destruct Hqr as (_ & _ & _ & Hc & Hlen & _).
  change (mem (locked_state netlock s)) with (mem s). rewrite Hc, s32_small
    by (unfold MAX_QUEUED_PER_PORT in *; lia).
  destruct (Z.leb_spec MAX_QUEUED_PER_PORT (Z.of_nat (length (aq_pkts q)))) as [Hfull|Hfull];
    [exact Hdrop|].
  assert (Hr : kmem_ready (locked_state netlock s)) by eauto with xv6.
  destruct fl as [|node fl].
  { destruct (owned_kalloc_none _ _ Hr (proj2 Hinv)) as [He _]. rewrite (bind_ok _ _ _ _ _ He).
    rewrite kmem_norm_locked by apply Hq. exact Hdrop. }
  destruct (owned_kalloc _ _ _ _ Hr (proj2 Hinv)) as [He Ho'].
  assert (Hnode : kpage (kend s) node) by (eapply owned_page in Ho'; [exact Ho'|by left]).
  assert (Hbuf : kpage (kend s) buf)
    by (eapply owned_page in Ho'; [exact Ho'|right; apply elem_of_app; right; by left]).
  rewrite (bind_ok _ _ _ _ _ He), kmem_norm_locked by apply Hq.
  destruct (Z.eqb_spec node 0) as [E|_]; [by apply kpage_nonzero in Hnode|].
  assert (Hne : buf <> node).
  { eapply not_eq_sym, (owned_ne s (node :: fl)); [apply Hinv|by left|].
    apply elem_of_app. right. by left. }
  set (s1 := locked_state netlock s) in *.
  destruct (queue_inv s1 node fl q1 q q2 own buf f v Hinv Hr Hf Hv (eq_sym Hport) Hfull)
    as (Hq1 & _ & Hinv' & Hown).
  erewrite bind_ok by (by eapply (fill_pkt_eq (kend s) (set_freelist _ s1))).
  erewrite bind_ok by (by eapply (enqueue_eq (kend s) (set_mem _ (set_freelist _ s1)))).
  erewrite bind_ok by (apply wakeup_eq;
    [apply lock_free_locked; [done|apply Hq]|apply cpu_wf_pushcli, Hq]).
  rewrite (net_release s) by (done || apply cpu_norm_pushcli, Hq).
  eexists. rewrite Hupd. split_and!; [reflexivity|exact Hinv'| |done|done].
  split; try done. simpl. apply cpu_norm_idem.
Qed.

Lemma ip_rx_spec s fl qs own buf len f :
  net_inv s fl qs (buf :: own) -> quiet s -> page_bytes (mem s) buf = f ->
  let '(fl', qs') := aip_rx buf f fl qs in
  exists s', ip_rx buf len s = Ok tt s' /\ net_inv s' fl' qs' own /\ kframe own s s' /\
    nic s' = nic s /\ procs s' = woken (aenqueued f fl qs) (procs s).
Proof.
  intros Hinv Hq Hpg.
  assert (Hbuf : kpage (kend s) buf)
    by (eapply owned_page; [apply Hinv|apply elem_of_app; right; by left]).
  rewrite (ip_rx_parse (kend s) s buf len f Hbuf Hpg).
  assert (Hf : kframe own s (ip_seen s)).
  { split; try done. apply Forall_forall. eauto with xv6. }
  assert (Hq' : quiet (ip_seen s)) by (by eapply kframe_quiet).
  destruct (parse_udp f) as [v|] eqn:Hv.
  - pose proof (ip_queue_spec (ip_seen s) fl qs own buf f v Hinv Hq' Hpg Hv) as H.
    destruct (aip_rx buf f fl qs) as [fl' qs']. destruct H as (s' & He & Hi & Hf' & Hn & Hp).
    exists s'. split_and!; try done. by transitivity (ip_seen s).
  - unfold aip_rx, aenqueued. rewrite Hv.
    destruct (net_kfree (ip_seen s) fl qs own buf Hinv (quiet_kmem _ Hq')) as (He & Hi & Hf').
    eexists. split_and!; [exact He|exact Hi|by transitivity (ip_seen s)|done|done].
Qed.

(** C7: [ip_rx] on a frame, whatever the length that the driver reports.  The
    packet's page is freed unless the frame is a UDP datagram for a bound port
    whose queue is not full; then it becomes the last packet of that queue, with
    the sender and the payload as the datagram says, and the processes that
    sleep on the queue are woken. *)
Theorem ip_rx_refines s fl qs own buf len f :
  net_inv s fl qs (buf :: own) -> quiet s -> page_bytes (mem s) buf = f ->
  let '(fl', qs') := aip_rx buf f fl qs in
  exists s', ip_rx buf len s = Ok tt s' /\ net_inv s' fl' qs' own /\ kframe own s s' /\
    nic s' = nic s /\ procs s' = woken (aenqueued f fl qs) (procs s).
Proof. apply ip_rx_spec. Qed.

(** A datagram for port 2000 is queued. *)
Lemma ip_rx_refines_witness :
  exists s' f, ip_rx NetDemo.buf 46 (NetDemo.bound [0; 0; 0; 0; 0]) = Ok tt s' /\
    net_inv s' (map Demo.at_ [0x301000; 0x302000; 0x303000])
      [mk_aqueue NetDemo.qpage 2000 [mk_apkt (Demo.at_ 0x300000) NetDemo.buf f NetDemo.view]]
      Demo.used.
Proof.
  destruct (NetDemo.page_frame_bytes
    (Demo.memory_of ((NetDemo.qpage, 2000) :: Demo.words [0; 0; 0; 0; 0])) NetDemo.buf) as [l El].
  remember (NetDemo.frame ++ l) as f eqn:Ef.
  assert (Hv : parse_udp f = Some NetDemo.view) by (rewrite Ef; apply NetDemo.parse_frame).
  pose proof (ip_rx_refines _ _ _ _ NetDemo.buf 46 f (NetDemo.bound_inv 0 0 0 0 0)
    (NetDemo.quiet_bound _) El) as H.
  unfold aip_rx in H. rewrite Hv in H. destruct H as (s' & He & Hi & _).
  exists s', f. split; [exact He|exact Hi].
Defined.
