(* ===== verification/NetRecv.v ===== *)
(** * sys_recv: correctness

    Taking a packet off its queue, copying it to the user and freeing its two
    pages; and the wait for a packet: a process that sleeps on an empty queue
    is woken by the arrival of a packet and then receives it. *)

From S2P Require Import Prelude Memory CString Machine Spinlock Kalloc Proc Vm.
From S2P Require Import NetHdr E1000 Sysarg Net Pages Demo NetInv NetDemo NetSpec UserMem.
Local Open Scope Z_scope.
Local Open Scope kernel_scope.

(** ** Taking the first packet *)

Definition apop (q : aqueue) : aqueue := mk_aqueue (aq_page q) (aq_port q) (tl (aq_pkts q)).

Definition pop_mem (m : memory) (pg next n : Z) : memory :=
  let m := storeZ 8 m (pg + pq_head) next in
  let m := if next =? 0 then storeZ 8 m (pg + pq_tail) 0 else m in
  storeZ 4 m (pg + pq_count) (n - 1).

Lemma pop_mem_agree e m pg next n p :
  kpage e p -> kpage e pg -> p <> pg -> page_agree m (pop_mem m pg next n) p.
Proof. intros. unfold pop_mem. destruct (next =? 0); page_frame. Qed.

(** The first node of a list of packets. *)
Definition head_node (l : list apkt) : Z := from_option ap_node 0 (head l).

Lemma links_head m a l : links m pkt_next a (map ap_node l) -> a = head_node l.
Proof. destruct l as [|p l]; simpl; [done|]. by intros [-> _]. Qed.

Lemma head_node_cases e q p l :
  Forall (kpage e) (queue_pages q) -> aq_pkts q = p :: l ->
  (l = [] /\ head_node l = 0) \/ (l <> [] /\ kpage e (head_node l)).
Proof.
  intros Hk E. rewrite queue_pages_perm, E in Hk. destruct l as [|p2 l]; [by left|right].
  split; [done|]. simpl in *. apply Forall_cons in Hk as [_ Hk]. apply Forall_cons in Hk as [_ Hk].
  by apply Forall_cons in Hk as [? _].
Qed.

Lemma recv_pop_eq e s q p l :
  Forall (kpage e) (queue_pages q) -> queue_rep (mem s) q -> aq_pkts q = p :: l ->
  recv_pop (aq_page q) s =
    Ok (ap_node p) (set_mem (pop_mem (mem s) (aq_page q) (head_node l)
                               (Z.of_nat (length (aq_pkts q)))) s).
Proof.
  intros Hk (_ & Hl & _ & Hc & Hlen & _) E.
  assert (Hpg : kpage e (aq_page q)) by (by apply Forall_cons in Hk as [? _]).
  assert (Hp : kpage e (ap_node p)).
  { rewrite queue_pages_perm, E in Hk. simpl in Hk. apply Forall_cons in Hk as [_ Hk].
    by apply Forall_cons in Hk as [? _]. }
  rewrite E in Hl. simpl in Hl. destruct Hl as [Hhead Hl].
  pose proof (links_head _ _ _ Hl) as Hnext.
  assert (Hword : 0 <= head_node l < 2 ^ 64)
    by (rewrite <- Hnext; apply (loadZ_range 8)).
  unfold recv_pop. field_step. rewrite Hhead. do 3 field_step. cbn [mem set_mem].
  rewrite Hnext, loadZ_store_same, Z.mod_small by done. unfold pop_mem.
  assert (Hs : s32 (Z.of_nat (length (aq_pkts q))) = Z.of_nat (length (aq_pkts q)))
    by (apply s32_small; unfold MAX_QUEUED_PER_PORT in *; lia).
  destruct (head_node l =? 0).
  - do 2 field_step. cbn [mem set_mem]. field_load. rewrite Hc, Hs. field_step. by destruct s.
  - rewrite bind_ret. field_step. cbn [mem set_mem]. field_load. rewrite Hc, Hs. field_step.
    by destruct s.
Qed.

Lemma pop_mem_rep e m q p l :
  Forall (kpage e) (queue_pages q) -> NoDup (queue_pages q) -> queue_rep m q ->
  aq_pkts q = p :: l ->
  let m' := pop_mem m (aq_page q) (head_node l) (Z.of_nat (length (aq_pkts q))) in
  queue_rep m' (apop q) /\ pkt_rep m' p /\
  loadZ 8 m' (aq_page q + pq_next) = loadZ 8 m (aq_page q + pq_next).
Proof.
  intros Hk Hn (H1 & H2 & H3 & H4 & H5 & H6 & H7) E m'.
  assert (Hpg : kpage e (aq_page q)) by (by apply Forall_cons in Hk as [? _]).
  assert (Hag : Forall (page_agree m m') (concat (map pkt_pages (aq_pkts q)))).
  { apply Forall_cons in Hk as [_ Hk]. apply NoDup_cons in Hn as [Hin _].
    rewrite Forall_forall in *. intros r Hr. eapply pop_mem_agree; eauto. by intros ->. }
  assert (Hreps : Forall (pkt_rep m') (aq_pkts q)).
  { rewrite Forall_concat, Forall_map in Hag. rewrite Forall_forall in *.
    eauto using pkt_rep_agree. }
  assert (Hnodes : Forall (page_agree m m') (map ap_node (aq_pkts q)))
    by (rewrite pkt_pages_perm in Hag; by apply Forall_app in Hag as [? _]).
  rewrite E in H2, H3, H4, H5, H7, Hreps, Hnodes. simpl in *.
  destruct H2 as [Hhead Hl]. pose proof (links_head _ _ _ Hl) as Hnext.
  assert (Hword : 0 <= head_node l < 2 ^ 64) by (rewrite <- Hnext; apply (loadZ_range 8)).
  apply Forall_cons in Hreps as [Hp Hreps]. apply Forall_cons in Hnodes as [_ Hnodes].
  split_and!; [|done|].
  - unfold queue_rep, apop. simpl. rewrite E. simpl. apply Forall_cons in H7 as [_ H7].
    assert (Hhd : loadZ 8 m' (aq_page q + pq_head) = head_node l).
    { unfold m', pop_mem. destruct (head_node l =? 0); field_load; by apply Z.mod_small. }
    split_and!; try done.
    + unfold m', pop_mem. destruct (head_node l =? 0); by field_load.
    + rewrite Hhd, <- Hnext. by eapply links_agree; [off_lia|off_lia| |].
    + destruct (head_node_cases e q p l Hk E) as [[-> E0]|[Hne Hkp]].
      * unfold m', pop_mem. rewrite E0. cbn [Z.eqb]. by field_load.
      * unfold m', pop_mem. destruct (Z.eqb_spec (head_node l) 0) as [Ez|_];
          [by apply kpage_nonzero in Hkp|]. field_load. rewrite H3.
        destruct l; [done|]. unfold last_page. simpl. done.
    + unfold m', pop_mem. rewrite E. destruct (head_node l =? 0); field_load;
        rewrite Z.mod_small; unfold MAX_QUEUED_PER_PORT in *; simpl length in *; lia.
    + lia.
  - unfold m', pop_mem. destruct (head_node l =? 0); by field_load.
Qed.

Lemma apop_pages q p l :
  aq_pkts q = p :: l -> queue_pages q ≡ₚ ap_node p :: ap_buf p :: queue_pages (apop q).
Proof. intros E. rewrite !queue_pages_perm. unfold apop. rewrite E. simpl. perm_solve. Qed.

(** The packet's two pages leave the queue. *)
Lemma pop_inv s fl q1 q q2 own p l :
  net_inv s fl (q1 ++ q :: q2) own -> aq_pkts q = p :: l ->
  let m' := pop_mem (mem s) (aq_page q) (head_node l) (Z.of_nat (length (aq_pkts q))) in
  net_inv (set_mem m' s) fl (q1 ++ apop q :: q2) (ap_node p :: ap_buf p :: own) /\
  Forall (page_agree (mem s) m') own /\ pkt_rep m' p.
Proof.
  intros [Hrep Ho] E m'. destruct (queue_apart _ _ _ _ _ _ Ho) as (Hk & Hn & Hr).
  assert (Hpg : kpage (kend s) (aq_page q)) by (by apply Forall_cons in Hk as [? _]).
  assert (Hq : queue_rep (mem s) q).
  { destruct Hrep as (_ & Hq & _). rewrite Forall_app, Forall_cons in Hq. apply Hq. }
  destruct (pop_mem_rep _ _ _ _ _ Hk Hn Hq E) as (Hq' & Hp & Hlink). fold m' in Hq', Hp, Hlink.
  assert (Hag : Forall (page_agree (mem s) m') (fl ++ qs_pages (q1 ++ q2) ++ own)).
  { eapply Forall_impl; [exact Hr|]. intros r [Hkr Hin]. eapply pop_mem_agree; eauto.
    intros ->. apply Hin. by left. }
  rewrite !Forall_app in Hag. destruct Hag as (Hag1 & Hag2 & Hag3).
  split_and!; [|done|done]. split.
  - eapply net_rep_update; [exact Hrep|done|done|done|exact Hlink|exact Hq'].
  - apply owned_mem; [done|].
    assert (Hperm : qs_pages (q1 ++ q :: q2) ++ own ≡ₚ
              qs_pages (q1 ++ apop q :: q2) ++ ap_node p :: ap_buf p :: own).
    { rewrite !qs_pages_app, !qs_pages_cons, (apop_pages q p l E). perm_solve. }
    by rewrite <- Hperm.
Qed.

(** ** Delivery *)

(** A change of pages in use by others. *)
Lemma net_inv_only s m' fl qs own w :
  w ⊆ own -> only_pages w (mem s) m' -> net_inv s fl qs own ->
  net_inv (set_mem m' s) fl qs own /\
  forall r, r ∈ own -> r ∉ w -> page_agree (mem s) m' r.
Proof.
  intros Hw Hm [Hrep Ho]. pose proof Ho as (Hk & Hn & Hp).
  rewrite Forall_app in Hp. destruct Hp as [Hp1 Hp2].
  assert (Hkw : Forall (kpage (kend s)) w).
  { rewrite Forall_forall in *. auto. }
  assert (Hag : forall r, kpage (kend s) r -> r ∉ w -> page_agree (mem s) m' r)
    by (intros; by eapply only_pages_agree).
  apply NoDup_app in Hn as (_ & Hd1 & (_ & Hd2 & _)%NoDup_app).
  split; [split|].
  - eapply (net_rep_agree (mem s)); [|done]. rewrite Forall_forall in *. intros r Hr.
    apply Hag; [auto|]. intros ?. apply (Hd2 r); auto.
  - apply owned_mem; [|done]. destruct Hk as (_ & _ & Hf). rewrite Forall_forall in *.
    intros r Hr. apply Hag; [auto|]. intros Hrw. apply (Hd1 r); [done|].
    apply elem_of_app. right. auto.
  - intros r Hr Hrw. apply Hag; [|done]. rewrite Forall_forall in Hp2. auto.
Qed.

Definition pkt_freed (p : apkt) (s : kstate) : kstate := freed (ap_node p) (freed (ap_buf p) s).

Lemma free_pkt_spec s fl qs own p :
  net_inv s fl qs (ap_node p :: ap_buf p :: own) -> kmem_ready s ->
  loadZ 8 (mem s) (ap_node p + pkt_fullbuf) = ap_buf p ->
  free_pkt (ap_node p) s = Ok tt (pkt_freed p s) /\
  net_inv (pkt_freed p s) (ap_node p :: ap_buf p :: fl) qs own /\
  kframe own s (pkt_freed p s).
Proof.
  intros Hinv Hr Hb. unfold free_pkt.
  assert (Hnode : kpage (kend s) (ap_node p))
    by (eapply owned_page; [apply Hinv|apply elem_of_app; right; by left]).
  field_step. rewrite Hb.
  assert (Hinv' : net_inv s fl qs (ap_buf p :: ap_node p :: own)).
  { destruct Hinv as [? Ho]. split; [done|]. eapply owned_proper; [done| |exact Ho].
    perm_solve. }
  destruct (net_kfree s fl qs _ _ Hinv' Hr) as (He1 & Hi1 & Hf1).
  assert (Hr1 : kmem_ready (freed (ap_buf p) s)).
  { destruct Hr as [? ?]. split; [by eapply kframe_cpu_wf|done]. }
  destruct (net_kfree _ _ qs _ _ Hi1 Hr1) as (He2 & Hi2 & Hf2).
  rewrite (bind_ok _ _ _ _ _ He1). split_and!; [exact He2|exact Hi2|].
  transitivity (freed (ap_buf p) s); [|done]. eapply kframe_sub; [|exact Hf1]. set_solver.
Qed.

(** The user reads the source address and port, and [n] bytes of payload. *)
Definition delivered (m : memory) (p : apkt) (T1 T2 T3 : Z -> Z) (n : Z) : Prop :=
  (forall i, 0 <= i < 4 -> m (T1 i) = nth (Z.to_nat i) (le_split 4 (uv_src (ap_view p))) Byte.x00) /\
  (forall i, 0 <= i < 2 -> m (T2 i) = nth (Z.to_nat i) (le_split 2 (uv_sport (ap_view p))) Byte.x00) /\
  (forall i, 0 <= i < n ->
     m (T3 i) = nth (Z.to_nat (uv_off (ap_view p) + i)) (ap_frame p) Byte.x00).

(** Two windows without a common byte. *)
Definition apart (T : Z -> Z) (n : Z) (T' : Z -> Z) (n' : Z) : Prop :=
  forall i j, 0 <= i < n -> 0 <= j < n' -> T i <> T' j.

(** Three user buffers that are mapped and do not overlap. *)
Definition recv_buffers (m : memory) (pml4 a1 a2 a3 n : Z) (T1 T2 T3 : Z -> Z) : Prop :=
  umapped m pml4 a1 4 T1 /\ umapped m pml4 a2 2 T2 /\ umapped m pml4 a3 n T3 /\
  apart T1 4 T2 2 /\ apart T1 4 T3 n /\ apart T2 2 T3 n.

(** The addresses of the three buffers are in the user half; they need not be
    mapped. *)
Definition user_ptrs (src_uaddr sport_uaddr bufaddr : Z) : Prop :=
  0 <= src_uaddr /\ src_uaddr + 4 <= UHALF /\ 0 <= sport_uaddr /\ sport_uaddr + 2 <= UHALF /\
  0 <= bufaddr /\ bufaddr + 1500 <= UHALF.

Section Deliver.

Context (s : kstate) (fl : list Z) (qs : list aqueue) (tables upages rest : list Z).
Context (kst lip lport pml4 : Z) (p : apkt).
Let own := tables ++ upages ++ kst :: rest.
Hypothesis Hinv : net_inv s fl qs (ap_node p :: ap_buf p :: own).
Hypothesis Hr : kmem_ready s.
Hypothesis Hp : pkt_rep (mem s) p.
Hypothesis Has : aspace tables upages (mem s) pml4.
Hypothesis Hlip : kst <= lip /\ lip + 4 <= kst + PGSIZE.
Hypothesis Hlport : kst <= lport /\ lport + 2 <= kst + PGSIZE.
Hypothesis Hlocals : lip + 4 <= lport \/ lport + 2 <= lip.

Let w := kst :: upages.

Let Hpages : Forall (kpage (kend s)) (ap_node p :: ap_buf p :: own) /\
  NoDup (ap_node p :: ap_buf p :: own).
Proof.
  destruct Hinv as [_ (_ & Hn & Hk)]. rewrite Forall_app in Hk.
  apply NoDup_app in Hn as (_ & _ & Hn). apply NoDup_app in Hn as (_ & _ & Hn). tauto.
Qed.

Let Hkst : kpage (kend s) kst.
Proof.
  destruct Hpages as [Hk _]. rewrite Forall_forall in Hk. apply Hk. unfold own. set_solver.
Qed.

Let Hseparate :
  Forall (kpage (kend s)) upages /\ Forall (kpage (kend s)) tables /\
  (forall r, r ∈ tables -> r ∉ w) /\ (forall r, r ∈ rest -> r ∉ w) /\
  ap_node p ∉ w /\ ap_buf p ∉ w /\ kst ∉ upages.
Proof.
  destruct Hpages as [Hk Hn]. unfold own, w in *.
  apply NoDup_cons in Hn as [Hn1 Hn]. apply NoDup_cons in Hn as [Hn2 Hn].
  apply Forall_cons in Hk as [_ Hk]. apply Forall_cons in Hk as [_ Hk].
  rewrite !Forall_app, !Forall_cons in Hk. destruct Hk as (Hk1 & Hk2 & Hk3 & Hk4).
  apply NoDup_app in Hn as (_ & Hd1 & Hn). apply NoDup_app in Hn as (_ & Hd2 & Hn).
  apply NoDup_cons in Hn as [Hn3 _].
  split_and!; try done; set_solver.
Qed.

(** The memories that the delivery goes through. *)
Let W (m : memory) : Prop := only_pages w (mem s) m.

Lemma W_agree m r : W m -> r ∈ ap_node p :: ap_buf p :: own -> r ∉ w -> page_agree (mem s) m r.
Proof.
  intros Hm Hin Hw. destruct Hpages as [Hk _]. rewrite Forall_forall in Hk.
  eapply (only_pages_agree (kend s) w); eauto. constructor; [done|apply Hseparate].
Qed.

Lemma W_tables m : W m -> Forall (page_agree (mem s) m) tables.
Proof.
  intros Hm. apply Forall_forall. intros r Hin. destruct Hseparate as (_ & _ & Ht & _).
  apply W_agree; [done|unfold own; set_solver|by apply Ht].
Qed.

Lemma W_copy m m' : W m -> only_pages upages m m' -> W m'.
Proof.
  intros Hm Ho x Hx. rewrite Ho; [by apply Hm|]. intros q Hq. apply Hx. unfold w. by right.
Qed.

Lemma W_local m a l :
  W m -> kst <= a -> a + Z.of_nat (length l) <= kst + PGSIZE -> W (store_bytes m a l).
Proof.
  intros Hm Ha Hl x Hx. specialize (Hx kst) as Hk. unfold w in Hk.
  rewrite store_bytes_ne; [by apply Hm|]. assert (kst ∈ kst :: upages) by set_solver.
  specialize (Hk H). lia.
Qed.

Lemma local_store n a v m t :
  kst <= a -> a + Z.of_nat n <= kst + PGSIZE ->
  kstore n a v (set_mem m t) = Ok tt (set_mem (storeZ n m a v) t).
Proof.
  intros. rewrite kstore_ok; [done|]. replace a with (kst + (a - kst)) by lia.
  eapply kmapped_in_page; [exact Hkst|lia..].
Qed.

Lemma node_load m k n :
  W m -> 0 <= k -> k + Z.of_nat n <= PGSIZE ->
  kload n (ap_node p + k) (set_mem m s) = Ok (loadZ n (mem s) (ap_node p + k)) (set_mem m s).
Proof.
  intros Hm ??. destruct Hpages as [Hk _]. apply Forall_cons in Hk as [Hnode _].
  rewrite (kload_page (kend s)) by done. f_equal. apply page_agree_loadZ; try done.
  apply W_agree; [done|by left|apply Hseparate].
Qed.

(** Freeing the packet at the end. *)
Lemma W_free {A} m (r : A) :
  W m -> (free_pkt (ap_node p) ;; ret r) (set_mem m s) = Ok r (pkt_freed p (set_mem m s)) /\
  net_inv (pkt_freed p (set_mem m s)) (ap_node p :: ap_buf p :: fl) qs own /\
  kframe (tables ++ rest) s (pkt_freed p (set_mem m s)) /\
  Forall (page_agree m (mem (pkt_freed p (set_mem m s)))) own.
Proof.
  intros Hm. assert (Hsub : w ⊆ ap_node p :: ap_buf p :: own) by (unfold w, own; set_solver).
  destruct (net_inv_only s m fl qs _ w Hsub Hm Hinv) as [Hi Hag].
  destruct (free_pkt_spec (set_mem m s) fl qs own p Hi Hr) as (He & Hi' & Hf).
  { simpl. rewrite <- (proj1 Hp). apply page_agree_loadZ; [|off_lia|off_lia].
    apply Hag; [by left|apply Hseparate]. }
  rewrite (bind_ok _ _ _ _ _ He). split_and!; [done|done| |exact (kf_pages _ _ _ Hf)].
  transitivity (set_mem m s).
  - split; try done. apply Forall_forall. intros r' Hr'. apply W_agree; [done| |].
    + unfold own. set_solver.
    + destruct Hseparate as (_ & _ & H1 & H2 & _).
      apply elem_of_app in Hr' as [?|?]; auto.
  - eapply kframe_sub; [|exact Hf]. unfold own. set_solver.
Qed.

Lemma recv_deliver_locals src_uaddr sport_uaddr bufaddr maxlen :
  let m2 := storeZ 2 (storeZ 4 (mem s) lip (uv_src (ap_view p))) lport (uv_sport (ap_view p)) in
  W m2 /\
  recv_deliver lip lport pml4 (ap_node p) src_uaddr sport_uaddr bufaddr maxlen s =
    (r <- copyout pml4 src_uaddr lip 4 ;;
     if r <? 0 then free_pkt (ap_node p) ;; ret (u64 (-1)) else
     r <- copyout pml4 sport_uaddr lport 2 ;;
     if r <? 0 then free_pkt (ap_node p) ;; ret (u64 (-1)) else
     plen <- kload 4 (ap_node p + pkt_payload_len) ;;
     let tocpy := recv_len (s32 plen) maxlen in
     r <- (if 0 <? tocpy then
             pay <- kload 8 (ap_node p + pkt_payload) ;;
             copyout pml4 bufaddr pay tocpy
           else ret 0) ;;
     if r <? 0 then free_pkt (ap_node p) ;; ret (u64 (-1)) else
     free_pkt (ap_node p) ;;
     ret tocpy) (set_mem m2 s).
Proof.
  intros m2. destruct Hp as (_ & _ & _ & Hsrc & Hsport & _).
  assert (W (mem s)) as H0 by apply only_pages_refl.
  assert (W (storeZ 4 (mem s) lip (uv_src (ap_view p)))) as H1
    by (apply W_local; [done|lia|rewrite length_le_split; lia]).
  assert (W m2) as H2 by (apply W_local; [done|lia|rewrite length_le_split; lia]).
  split; [done|]. unfold recv_deliver.
  assert (Es : s = set_mem (mem s) s) by by destruct s.
  rewrite Es at 1.
  rewrite (bind_ok _ _ _ _ _ (node_load _ pkt_src_ip 4 H0 ltac:(off_lia) ltac:(off_lia))), Hsrc.
  rewrite (bind_ok _ _ _ _ _ (local_store 4 lip _ _ _ ltac:(lia) ltac:(lia))).
  rewrite (bind_ok _ _ _ _ _ (node_load _ pkt_src_port 2 H1 ltac:(off_lia) ltac:(off_lia))), Hsport.
  by rewrite (bind_ok _ _ _ _ _ (local_store 2 lport _ _ _ ltac:(lia) ltac:(lia))).
Qed.

Lemma recv_len_range plen maxlen : 0 <= recv_len plen maxlen <= 1500.
Proof.
  unfold recv_len. destruct (maxlen <? plen), (Z.ltb_spec maxlen 0), (Z.ltb_spec plen 0);
    destruct (Z.ltb_spec 1500 maxlen), (Z.ltb_spec 1500 plen); simpl; try lia.
Qed.

Let tocpy maxlen := recv_len (uv_len (ap_view p)) maxlen.

Lemma W_exit maxlen m r :
  W m -> r = u64 (-1) \/ r = tocpy maxlen ->
  exists r' m', (free_pkt (ap_node p) ;; ret r) (set_mem m s) = Ok r' (pkt_freed p (set_mem m' s)) /\
    W m' /\ (r' = u64 (-1) \/ r' = tocpy maxlen).
Proof. intros Hm Hr'. exists r, m. split_and!; [by apply W_free|done|done]. Qed.

Lemma payload_mapped n :
  0 <= n <= 1500 -> kmapped (ap_buf p + uv_off (ap_view p)) n = true.
Proof.
  intros Hn. destruct Hp as (_ & _ & _ & _ & _ & _ & Hv). apply parse_udp_range in Hv.
  destruct Hpages as [Hk _]. apply Forall_cons in Hk as [_ Hk]. apply Forall_cons in Hk as [Hb _].
  eapply kmapped_in_page; [exact Hb|..]; unfold PGSIZE; lia.
Qed.

(** Whatever the user addresses are, the packet's pages are freed and no page
    of the kernel is written. *)
Lemma recv_deliver_safe src_uaddr sport_uaddr bufaddr maxlen :
  user_ptrs src_uaddr sport_uaddr bufaddr ->
  exists r m, recv_deliver lip lport pml4 (ap_node p) src_uaddr sport_uaddr bufaddr maxlen s =
      Ok r (pkt_freed p (set_mem m s)) /\ W m /\ (r = u64 (-1) \/ r = tocpy maxlen).
Proof.
  intros (P1 & P2 & P3 & P4 & P5 & P6). destruct (recv_deliver_locals src_uaddr sport_uaddr bufaddr maxlen) as [H2 E2].
  rewrite E2. clear E2.
  set (m2 := storeZ 2 _ _ _) in *. destruct Hseparate as (Hup & Htb & Hst & _).
  assert (Hsep : forall q, q ∈ tables -> q ∉ upages)
    by (intros q Hq Hq'; apply (Hst q Hq); unfold w; by right).
  pose proof (copyout_safe (kend s) tables upages (mem s) pml4 Has Hup Htb Hsep) as Hsafe.
  assert (Hlm : forall a n, kst <= a -> 0 <= n -> a + n <= kst + PGSIZE -> kmapped a n = true).
  { intros a n ???. replace a with (kst + (a - kst)) by lia.
    eapply kmapped_in_page; [exact Hkst|lia..]. }
  destruct (Hsafe src_uaddr lip 4 (set_mem m2 s)) as (r1 & m3 & He1 & Hr1 & Ho1);
    [by apply W_tables|done|lia|lia|apply Hlm; lia|].
  rewrite (bind_ok _ _ _ _ _ He1). assert (H3 : W m3) by (by eapply W_copy).
  destruct Hr1 as [->| ->]; cbn [Z.ltb Z.compare].
  2: { apply W_exit; [done|by left]. }
  destruct (Hsafe sport_uaddr lport 2 (set_mem m3 s)) as (r2 & m4 & He2 & Hr2 & Ho2);
    [by apply W_tables|done|lia|lia|apply Hlm; lia|].
  change (set_mem m3 (set_mem m2 s)) with (set_mem m3 s).
  rewrite (bind_ok _ _ _ _ _ He2). assert (H4 : W m4) by (by eapply W_copy).
  change (set_mem m4 (set_mem m3 s)) with (set_mem m4 s).
  destruct Hr2 as [->| ->]; cbn [Z.ltb Z.compare].
  2: { apply W_exit; [done|by left]. }
  rewrite (bind_ok _ _ _ _ _ (node_load _ pkt_payload_len 4 H4 ltac:(off_lia) ltac:(off_lia))).
  destruct Hp as (_ & Hpay & Hlen & _). rewrite Hlen. cbv zeta. fold (tocpy maxlen).
  pose proof (recv_len_range (uv_len (ap_view p)) maxlen) as Hrange. fold (tocpy maxlen) in Hrange.
  destruct (Z.ltb_spec 0 (tocpy maxlen)) as [Hpos|Hz].
  - rewrite bind_assoc,
      (bind_ok _ _ _ _ _ (node_load _ pkt_payload 8 H4 ltac:(off_lia) ltac:(off_lia))), Hpay.
    destruct (Hsafe bufaddr (ap_buf p + uv_off (ap_view p)) (tocpy maxlen) (set_mem m4 s))
      as (r3 & m5 & He3 & Hr3 & Ho3); [by apply W_tables|done|lia|lia|by apply payload_mapped|].
    rewrite (bind_ok _ _ _ _ _ He3). assert (H5 : W m5) by (by eapply W_copy).
    change (set_mem m5 (set_mem m4 s)) with (set_mem m5 s).
    destruct Hr3 as [->| ->]; cbn [Z.ltb Z.compare].
    + apply W_exit; [done|by right].
    + apply W_exit; [done|by left].
  - rewrite bind_ret. cbn [Z.ltb Z.compare]. apply W_exit; [done|by right].
Qed.

(** ** The bytes that the user sees *)

Lemma window_outside va n T a r :
  umapped (mem s) pml4 va n T -> r ∈ ap_node p :: ap_buf p :: own -> r ∉ upages ->
  r <= a < r + PGSIZE -> outside T n a.
Proof.
  intros Hu Hin Hnu Ha i Hi ->. destruct Hpages as [Hk _]. rewrite Forall_forall in Hk.
  destruct Hseparate as (Hup & _). rewrite Forall_forall in Hup.
  destruct (umapped_page tables upages (mem s) pml4 Has va n T i Hu Hi) as (q & Hq & Hr').
  destruct (kpage_disjoint _ r q (Hk r Hin) (Hup q Hq)); [by intros ->|lia|lia].
Qed.

(** The copies of [recv_deliver] go to mapped windows. *)
Lemma deliver_copy va q n T m : umapped (mem s) pml4 va n T -> 0 <= n -> W m -> kmapped q n = true ->
  (forall i, 0 <= i < n -> outside T n (q + i)) ->
  exists m', copyout pml4 va q n (set_mem m s) = Ok 0 (set_mem m' s) /\ W m' /\
    (forall i, 0 <= i < n -> m' (T i) = m (q + i)) /\ forall x, outside T n x -> m' x = m x.
Proof.
  intros Hu Hn Hm Hq Hout. destruct Hseparate as (Hup & Htb & Hst & _ & Hnw & Hbw & Hku).
  assert (Hsep : forall q, q ∈ tables -> q ∉ upages) by (intros t Ht Ht'; apply (Hst t Ht); unfold w; by right).
  destruct (copyout_mapped (kend s) tables upages (mem s) pml4 Has Hup Htb Hsep va q n T (set_mem m s))
    as (m' & He & Hc & Hx & Ho); [done|lia|by apply W_tables|done|done|].
  exists m'. split_and!; [exact He|by eapply W_copy|done|done].
Qed.

(** The payload, and the end of the call. *)
Lemma deliver_payload bufaddr maxlen T3 m4 :
  let n := tocpy maxlen in umapped (mem s) pml4 bufaddr n T3 -> W m4 ->
  exists m, (plen <- kload 4 (ap_node p + pkt_payload_len) ;;
     let tocpy := recv_len (s32 plen) maxlen in
     r <- (if 0 <? tocpy then
             pay <- kload 8 (ap_node p + pkt_payload) ;;
             copyout pml4 bufaddr pay tocpy
           else ret 0) ;;
     if r <? 0 then free_pkt (ap_node p) ;; ret (u64 (-1)) else
     free_pkt (ap_node p) ;;
     ret tocpy) (set_mem m4 s) = Ok n (pkt_freed p (set_mem m s)) /\ W m /\
    (forall x, outside T3 n x -> m x = m4 x) /\
    forall i, 0 <= i < n -> m (T3 i) = nth (Z.to_nat (uv_off (ap_view p) + i)) (ap_frame p) Byte.x00.
Proof.
  intros n U3 H4.
  rewrite (bind_ok _ _ _ _ _ (node_load _ pkt_payload_len 4 H4 ltac:(off_lia) ltac:(off_lia))).
  destruct Hp as (_ & Hpay & Hlen & _ & _ & Hframe & Hv). rewrite Hlen. cbv zeta. fold (tocpy maxlen). fold n.
  pose proof (recv_len_range (uv_len (ap_view p)) maxlen) as Hrange. fold (tocpy maxlen) in Hrange. fold n in Hrange.
  destruct Hseparate as (_ & _ & _ & _ & _ & Hbw & _). assert (Hbu : ap_buf p ∉ upages) by (unfold w in Hbw; set_solver).
  destruct (Z.ltb_spec 0 n) as [Hpos|Hz].
  - rewrite bind_assoc,
      (bind_ok _ _ _ _ _ (node_load _ pkt_payload 8 H4 ltac:(off_lia) ltac:(off_lia))), Hpay.
    pose proof (parse_udp_range _ _ Hv) as (_ & _ & _ & Hoff & _).
    destruct (deliver_copy bufaddr (ap_buf p + uv_off (ap_view p)) n T3 m4) as (m5 & He3 & H5 & Hc3 & Hx3);
      [done|lia|done|by apply payload_mapped| |].
    { intros i Hi. eapply (window_outside _ _ _ _ (ap_buf p)); [done|set_solver|done|unfold PGSIZE; lia]. }
    rewrite (bind_ok _ _ _ _ _ He3). cbn [Z.ltb Z.compare].
    exists m5. split_and!; [by apply W_free|done|done|].
    intros i Hi. rewrite Hc3 by done. rewrite <- Hframe, nth_page_bytes by (unfold PGSIZE; lia). rewrite Z.add_assoc.
    apply (W_agree m4 (ap_buf p) H4); [set_solver|done|unfold PGSIZE; lia].
  - rewrite bind_ret. cbn [Z.ltb Z.compare]. exists m4.
    assert (n = 0) as -> by lia. split_and!; [by apply W_free|done|done|lia].
Qed.

Lemma recv_deliver_mapped src_uaddr sport_uaddr bufaddr maxlen T1 T2 T3 :
  let n := tocpy maxlen in
  recv_buffers (mem s) pml4 src_uaddr sport_uaddr bufaddr n T1 T2 T3 ->
  exists m, recv_deliver lip lport pml4 (ap_node p) src_uaddr sport_uaddr bufaddr maxlen s =
      Ok n (pkt_freed p (set_mem m s)) /\ W m /\ delivered m p T1 T2 T3 n.
Proof.
  intros n (U1 & U2 & U3 & A12 & A13 & A23).
  destruct (recv_deliver_locals src_uaddr sport_uaddr bufaddr maxlen) as [H2 E2].
  rewrite E2. clear E2. set (m2 := storeZ 2 _ _ _) in *.
  assert (Hlm : forall a n, kst <= a -> 0 <= n -> a + n <= kst + PGSIZE -> kmapped a n = true).
  { intros a k ???. replace a with (kst + (a - kst)) by lia.
    eapply kmapped_in_page; [exact Hkst|lia..]. }
  assert (Hkin : kst ∈ ap_node p :: ap_buf p :: own).
  { right. right. unfold own. do 2 (apply elem_of_app; right). by left. }
  destruct Hseparate as (_ & _ & _ & _ & _ & _ & Hku).
  destruct (deliver_copy src_uaddr lip 4 T1 m2) as (m3 & He1 & H3 & Hc1 & Hx1); [done|lia|done|apply Hlm; lia| |].
  { intros i Hi. eapply window_outside; [done|exact Hkin|done|lia]. }
  rewrite (bind_ok _ _ _ _ _ He1). cbn [Z.ltb Z.compare].
  destruct (deliver_copy sport_uaddr lport 2 T2 m3) as (m4 & He2 & H4 & Hc2 & Hx2); [done|lia|done|apply Hlm; lia| |].
  { intros i Hi. eapply window_outside; [done|exact Hkin|done|lia]. }
  rewrite (bind_ok _ _ _ _ _ He2). cbn [Z.ltb Z.compare].
  destruct (deliver_payload bufaddr maxlen T3 m4 U3 H4) as (m & Em & Hm & Hx3 & Hc3). fold n in Hx3, Hc3.
  exists m. split; [exact Em|]. split; [done|]. unfold delivered. split_and!; [..|exact Hc3].
  - intros i Hi. rewrite Hx3 by (intros j Hj; by apply A13). rewrite Hx2 by (intros j Hj; by apply A12). rewrite Hc1 by done.
    unfold m2, storeZ. rewrite store_bytes_ne, store_bytes_at by (rewrite length_le_split; lia). do 2 f_equal. lia.
  - intros i Hi. rewrite Hx3 by (intros j Hj; by apply A23). rewrite Hc2 by done.
    rewrite Hx1 by (eapply window_outside; [done|exact Hkin|done|lia]).
    unfold m2, storeZ. rewrite store_bytes_at by (rewrite length_le_split; lia). do 2 f_equal. lia.
Qed.

End Deliver.

(** ** The system call *)

(** The arguments of the call, in the trap frame of the caller. *)
Definition recv_args (s : kstate) (dport src_uaddr sport_uaddr bufaddr maxlen : Z) : Prop :=
  argint 0 s = Ok dport s /\ argaddr 1 s = Ok src_uaddr s /\ argaddr 2 s = Ok sport_uaddr s /\
  argaddr 3 s = Ok bufaddr s /\ argint 4 s = Ok maxlen s /\
  user_ptrs src_uaddr sport_uaddr bufaddr.

Lemma argaddr_range n s a s' : argaddr n s = Ok a s' -> 0 <= a < 2 ^ 64.
Proof.
  assert (H : forall x, kload 8 x s = Ok a s' -> 0 <= a < 2 ^ 64).
  { intros x. unfold kload. destruct (kmapped x _); [|done]. intros [= <- _].
    apply (loadZ_range 8). }
  unfold argaddr, fetcharg, myproc, get_proc, bind.
  destruct (cur s) as [i|]; [|done]. simpl. destruct (procs s !! i) as [pr|]; [|done]. simpl.
  repeat case_match; try done; apply H.
Qed.

(** What a caller of [sys_recv] brings: its process, its address space
    ([tables], [upages]) and its kernel stack page [kst], where the locals are. *)
Record recv_caller (s : kstate) (i : nat) (pr : proc) (tables upages : list Z)
    (kst lip lport : Z) : Prop := mk_recv_caller {
  rc_cur : cur s = Some i;
  rc_proc : procs s !! i = Some pr;
  rc_space : aspace tables upages (mem s) (pgdir pr);
  rc_lip : kst <= lip /\ lip + 4 <= kst + PGSIZE;
  rc_lport : kst <= lport /\ lport + 2 <= kst + PGSIZE;
  rc_locals : lip + 4 <= lport \/ lport + 2 <= lip;
}.

Lemma recv_wait_ready fuel e s q :
  kpage e (aq_page q) -> queue_rep (mem s) q -> aq_pkts q <> [] ->
  recv_wait fuel (aq_page q) s = Ok tt s.
Proof.
  intros Hpg (_ & _ & _ & Hc & _) Hne. destruct fuel; simpl recv_wait; field_step; rewrite Hc;
    (destruct (Z.eqb_spec (Z.of_nat (length (aq_pkts q))) 0) as [E|_]; [|done]);
    destruct (aq_pkts q); simpl in E; done || lia.
Qed.

(** The queue's lock is held: take the packet, give the lock back. *)
Lemma recv_body_eq fuel lip lport i pr s q1 q q2 fl own p l a b c d :
  net_inv s fl (q1 ++ q :: q2) own -> quiet s -> procs s !! i = Some pr ->
  aq_pkts q = p :: l ->
  recv_body fuel lip lport i (aq_page q) a b c d (locked_state netlock s) =
    recv_deliver lip lport (pgdir pr) (ap_node p) a b c d
      (set_cpu (cpu_norm (this_cpu s))
        (set_mem (pop_mem (mem s) (aq_page q) (head_node l) (Z.of_nat (length (aq_pkts q)))) s)).
Proof.
  intros Hinv Hq Hpr E. destruct (queue_pages_in _ _ _ _ _ _ Hinv) as [Hk Hn].
  assert (Hpg : kpage (kend s) (aq_page q)) by (by apply Forall_cons in Hk as [? _]).
  assert (Hqr : queue_rep (mem s) q).
  { destruct Hinv as [(_ & Hqs & _) _]. rewrite Forall_app, Forall_cons in Hqs. apply Hqs. }
  unfold recv_body.
  rewrite (bind_ok _ _ _ tt (locked_state netlock s))
    by (eapply recv_wait_ready; [exact Hpg|exact Hqr|by rewrite E]).
  erewrite bind_ok by (by eapply (recv_pop_eq (kend s) (locked_state netlock s))).
  erewrite bind_ok by (by apply (net_release s)).
  erewrite bind_ok by (apply get_proc_ok; exact Hpr). by destruct s.
Qed.

Definition recv_post (s s' : kstate) (r : Z) (fl : list Z) (port : Z) (qs : list aqueue)
    (tables upages rest : list Z) (kst pml4 a1 a2 a3 maxlen : Z) (p : apkt) : Prop :=
  let n := recv_len (uv_len (ap_view p)) maxlen in
  net_inv s' (ap_node p :: ap_buf p :: fl) (aupd port apop qs)
    (tables ++ upages ++ kst :: rest) /\
  kframe (tables ++ rest) s s' /\ nic s' = nic s /\ procs s' = procs s /\
  (r = u64 (-1) \/ r = n) /\
  (forall T1 T2 T3, recv_buffers (mem s) pml4 a1 a2 a3 n T1 T2 T3 ->
     r = n /\ delivered (mem s') p T1 T2 T3 n).

Lemma umapped_agree tables upages m m' pml4 va n T :
  aspace tables upages m pml4 -> Forall (page_agree m m') tables ->
  umapped m pml4 va n T -> umapped m' pml4 va n T.
Proof.
  intros Has Ha (H1 & H2 & H3 & H4). split_and!; try done.
  intros i Hi. unfold uaddr. rewrite (as_stable _ _ _ _ Has) by (done || lia). by apply H4.
Qed.

Lemma delivered_agree tables upages m0 pml4 m m' p a1 a2 a3 n T1 T2 T3 :
  aspace tables upages m0 pml4 -> recv_buffers m0 pml4 a1 a2 a3 n T1 T2 T3 ->
  Forall (page_agree m m') upages -> delivered m p T1 T2 T3 n -> delivered m' p T1 T2 T3 n.
Proof.
  intros Has (U1 & U2 & U3 & _) Ha (H1 & H2 & H3).
  assert (Hx : forall va k T i, umapped m0 pml4 va k T -> 0 <= i < k -> m' (T i) = m (T i)).
  { intros va k T i Hu Hi.
    destruct (umapped_page tables upages m0 pml4 Has va k T i Hu Hi) as (q & Hq & Hr).
    rewrite Forall_forall in Ha. by apply (Ha q Hq). }
  unfold delivered. split_and!; intros i Hi; erewrite Hx by eassumption; auto.
Qed.

Lemma recv_body_spec fuel lip lport i pr s q1 q q2 fl tables upages rest kst p l a1 a2 a3 maxlen :
  let own := tables ++ upages ++ kst :: rest in
  net_inv s fl (q1 ++ q :: q2) own -> quiet s ->
  (forall f, aupd (aq_port q) f (q1 ++ q :: q2) = q1 ++ f q :: q2) ->
  recv_caller s i pr tables upages kst lip lport ->
  aq_pkts q = p :: l ->
  user_ptrs a1 a2 a3 ->
  exists r s', recv_body fuel lip lport i (aq_page q) a1 a2 a3 maxlen (locked_state netlock s) =
      Ok r s' /\
    recv_post s s' r fl (aq_port q) (q1 ++ q :: q2) tables upages rest kst (pgdir pr)
      a1 a2 a3 maxlen p.
Proof.
  intros own Hinv Hq Hupd [Hcur Hpr Has Hlip Hlport Hloc] E Hptrs.
  rewrite (recv_body_eq fuel lip lport i pr s q1 q q2 fl own p l) by done.
  destruct (pop_inv s fl q1 q q2 own p l Hinv E) as (Hinv1 & Hag & Hp).
  set (m' := pop_mem _ _ _ _) in *. set (t := set_cpu _ _).
  assert (Hagt : Forall (page_agree (mem s) (mem t)) tables)
    by (unfold own in Hag; by apply Forall_app in Hag as [? _]).
  pose proof (aspace_agree _ _ _ (mem t) _ Hagt Has) as Hast.
  assert (Hrt : kmem_ready t) by (apply quiet_kmem; eapply (kframe_quiet []); [|exact Hq];
    split; try done; apply cpu_norm_idem).
  destruct (recv_deliver_safe t fl _ tables upages rest kst lip lport (pgdir pr) p Hinv1 Hrt Hp
    Hast Hlip Hlport Hloc a1 a2 a3 maxlen) as (r & m & He & HW & Hr); try done.
  destruct (W_free t fl _ tables upages rest kst lip lport (pgdir pr) p Hinv1 Hrt Hp Hast
    Hlip Hlport Hloc m tt HW)
    as (_ & Hinv2 & Hf & Hag2).
  exists r, (pkt_freed p (set_mem m t)). split; [exact He|].
  split_and!; [by rewrite Hupd| |done|done|done|].
  - transitivity t; [|exact Hf]. split; try done; [apply cpu_norm_idem|].
    unfold own in Hag. rewrite !Forall_app, Forall_cons in Hag. rewrite Forall_app. tauto.
  - intros T1 T2 T3 Hbufs.
    assert (Hbt : recv_buffers (mem t) (pgdir pr) a1 a2 a3
              (recv_len (uv_len (ap_view p)) maxlen) T1 T2 T3).
    { destruct Hbufs as (U1 & U2 & U3 & ? & ? & ?).
      split_and!; try done; by eapply (umapped_agree tables upages (mem s)). }
    destruct (recv_deliver_mapped t fl _ tables upages rest kst lip lport (pgdir pr) p Hinv1 Hrt Hp
      Hast Hlip Hlport Hloc a1 a2 a3 maxlen T1 T2 T3 Hbt) as (m2 & He2 & HW2 & Hd).
    rewrite He in He2. assert (Er : r = recv_len (uv_len (ap_view p)) maxlen) by congruence.
    split; [done|].
    assert (Em : mem (pkt_freed p (set_mem m t)) = mem (pkt_freed p (set_mem m2 t))) by congruence.
    rewrite Em. destruct (W_free t fl _ tables upages rest kst lip lport (pgdir pr) p Hinv1 Hrt
      Hp Hast Hlip Hlport Hloc m2 tt HW2)
      as (_ & _ & _ & Hag3).
    eapply delivered_agree; [exact Hast|exact Hbt| |exact Hd].
    rewrite !Forall_app in Hag3. tauto.
Qed.

(** C2: [sys_recv] on a bound port with a queued packet.  The oldest packet is
    taken off the queue and its two pages go back to the allocator, whether or
    not the copies to the user succeed; only user pages and the caller's kernel
    stack are written.  When the three user buffers are mapped, the result is
    the length of the payload cut to [maxlen] and to 1500, and the user reads
    the sender's address and port and the bytes of the datagram. *)
Theorem sys_recv_delivers fuel lip lport i pr s fl qs tables upages rest kst
    dport a1 a2 a3 maxlen q p l :
  net_inv s fl qs (tables ++ upages ++ kst :: rest) -> quiet s ->
  recv_caller s i pr tables upages kst lip lport ->
  recv_args s dport a1 a2 a3 maxlen ->
  afind (u16 dport) qs = Some q -> aq_pkts q = p :: l ->
  exists r s', sys_recv fuel lip lport s = Ok r s' /\
    recv_post s s' r fl (u16 dport) qs tables upages rest kst (pgdir pr) a1 a2 a3 maxlen p.
Proof.
  intros Hinv Hq Hc (A0 & A1 & A2 & A3 & A4 & Hptrs) Hf E.
  destruct (afind_split _ _ _ Hf) as (<- & q1 & q2 & -> & Hupd).
  destruct (queue_pages_in _ _ _ _ _ _ Hinv) as [Hk _]. apply Forall_cons in Hk as [Hpg _].
  unfold sys_recv.
  rewrite (bind_ok _ _ s i s) by (unfold myproc; by rewrite (rc_cur _ _ _ _ _ _ _ _ Hc)).
  rewrite (bind_ok _ _ _ _ _ A0), (bind_ok _ _ _ _ _ A1), (bind_ok _ _ _ _ _ A2),
    (bind_ok _ _ _ _ _ A3), (bind_ok _ _ _ _ _ A4), (bind_ok _ _ _ _ _ (net_acquire s Hq)).
  rewrite (bind_ok _ _ _ _ _ (find_port_queue_spec (locked_state netlock s) _ _ _ _ Hinv)), Hf.
  cbn [queue_addr from_option].
  destruct (Z.eqb_spec (aq_page q) 0) as [E0|_]; [by apply kpage_nonzero in Hpg|].
  by apply (recv_body_spec fuel lip lport i pr s q1 q q2 fl tables upages rest kst p l).
Qed.

(** The locals of the call, on the demo process's kernel stack. *)
Definition demo_lip : Z := Demo.kstack + 0x100.
Definition demo_lport : Z := Demo.kstack + 0x108.

Lemma demo_recv_caller s :
  NetDemo.running s -> aspace NetDemo.tables NetDemo.upages (mem s) Demo.pml4 ->
  recv_caller s 0 Demo.process NetDemo.tables NetDemo.upages Demo.kstack demo_lip demo_lport.
Proof. intros [Hc Hp] Has. split; try done; unfold demo_lip, demo_lport, PGSIZE; lia. Qed.

Lemma demo_recv_args s :
  NetDemo.running s -> s32 (loadZ 8 (mem s) (Demo.trapframe + tf_rdi)) = 2000 ->
  loadZ 8 (mem s) (Demo.trapframe + tf_rsi) = 0x1000 ->
  loadZ 8 (mem s) (Demo.trapframe + tf_rdx) = 0x1010 ->
  loadZ 8 (mem s) (Demo.trapframe + tf_r10) = 0x1020 ->
  s32 (loadZ 8 (mem s) (Demo.trapframe + tf_r8)) = 100 ->
  recv_args s 2000 0x1000 0x1010 0x1020 100.
Proof.
  intros Hr H0 H1 H2 H3 H4.
  split_and!; [by apply NetDemo.arg_int|by apply NetDemo.arg_addr|by apply NetDemo.arg_addr|
    by apply NetDemo.arg_addr|by apply NetDemo.arg_int|unfold user_ptrs, UHALF; lia].
Qed.

(** The process reads the datagram that waits on port 2000. *)
Lemma sys_recv_delivers_witness :
  exists s', sys_recv 0 demo_lip demo_lport (NetDemo.queued [2000; 0x1000; 0x1010; 0x1020; 100]) =
      Ok 4 s' /\
    forall i, 0 <= i < 4 -> mem s' (Demo.at_ 0x206000 + 0x20 + i) =
      nth (Z.to_nat i) [Byte.x61; Byte.x62; Byte.x63; Byte.x64] Byte.x00.
Proof.
  set (s := NetDemo.queued [2000; 0x1000; 0x1010; 0x1020; 100]).
  remember (page_bytes (NetDemo.queued_mem [2000; 0x1000; 0x1010; 0x1020; 100]) NetDemo.buf)
    as f eqn:Hf.
  pose proof (NetDemo.queued_inv _ _ _ _ _ f (eq_sym Hf)) as Hinv.
  rewrite NetDemo.used_split in Hinv. fold s in Hinv.
  assert (Hx : uxlate (mem s) Demo.pml4 0x1000 = Some (Demo.at_ 0x206000)) by by vm_compute.
  assert (Has : aspace NetDemo.tables NetDemo.upages (mem s) Demo.pml4)
    by (apply NetDemo.space; by vm_compute).
  assert (Ha : recv_args s 2000 0x1000 0x1010 0x1020 100).
  { apply demo_recv_args; [exact (conj eq_refl eq_refl)|by vm_compute..]. }
  destruct (sys_recv_delivers 0 demo_lip demo_lport 0 Demo.process s _ _ _ _ _ _
    2000 0x1000 0x1010 0x1020 100 (mk_aqueue NetDemo.qpage 2000 [NetDemo.packet f])
    (NetDemo.packet f) [] Hinv (NetDemo.quiet_queued _) (demo_recv_caller s (conj eq_refl eq_refl) Has)
    Ha eq_refl eq_refl) as (r & s' & He & _ & _ & _ & _ & _ & Hd).
  destruct (Hd (fun i => Demo.at_ 0x206000 + 0 + i) (fun i => Demo.at_ 0x206000 + 0x10 + i)
    (fun i => Demo.at_ 0x206000 + 0x20 + i)) as (Er & _ & _ & H3).
  { split_and!; [apply (NetDemo.user_range _ 0 4 Hx)|apply (NetDemo.user_range _ 0x10 2 Hx)|
      apply (NetDemo.user_range _ 0x20 4 Hx)|unfold apart; lia..]; unfold PGSIZE; lia. }
  exists s'. split; [by rewrite He, Er|]. intros i Hi. rewrite H3 by done.
  destruct (NetDemo.page_frame_bytes
    (Demo.memory_of (NetDemo.queued_words [2000; 0x1000; 0x1010; 0x1020; 100])) NetDemo.buf)
    as [l El].
  rewrite Hf. unfold NetDemo.queued_mem. cbn [NetDemo.packet ap_frame ap_view NetDemo.view uv_off].
  rewrite El.
  assert (i = 0 \/ i = 1 \/ i = 2 \/ i = 3) as [->|[->|[->| ->]]] by lia; reflexivity.
Defined.
