(* ===== verification/NetBlock.v ===== *)
(** * Waiting for a packet

    [sleep] as [sys_recv] uses it, with the lock of the queue. *)

From S2P Require Import Prelude Memory CString Machine Spinlock Kalloc Proc Vm.
From S2P Require Import NetHdr E1000 Sysarg Net Pages Demo NetInv NetDemo NetSpec UserMem.
From S2P Require Import NetRecv Resume.
Local Open Scope Z_scope.
Local Open Scope kernel_scope.

(** An empty queue: the process sleeps, and starts over when it is run again. *)
Lemma recv_body_blocks fuel lip lport s i pr q e a1 a2 a3 maxlen :
  quiet s -> ncli (this_cpu s) = 0 -> cur s = Some i -> procs s !! i = Some pr ->
  kpage e (aq_page q) -> queue_rep (mem s) q -> aq_pkts q = [] ->
  exists k, recv_body (S fuel) lip lport i (aq_page q) a1 a2 a3 maxlen (locked_state netlock s) =
      Swtch (asleep (aq_page q) i (locked_state ptable_lock s)) k /\
    forall t, quiet t -> ncli (this_cpu t) = 0 -> cur t = Some i ->
      k (locked_state ptable_lock t) =
        recv_body fuel lip lport i (aq_page q) a1 a2 a3 maxlen
          (locked_state netlock (awake (eflags_IF (this_cpu s)) i t)).
Proof.
  intros Hq Hn Hcur Hpr Hpg (_ & _ & _ & Hc & _) E. rewrite E in Hc. simpl in Hc.
  assert (Hw : recv_wait (S fuel) (aq_page q) (locked_state netlock s) =
    Swtch (asleep (aq_page q) i (locked_state ptable_lock s))
      (fun s' => obind (after_sched netlock (eflags_IF (this_cpu s)) s')
                   (fun _ => recv_wait fuel (aq_page q)))).
  { simpl recv_wait. field_step. change (mem (locked_state netlock s)) with (mem s).
    rewrite Hc. cbn [Z.eqb]. apply bind_swtch.
    apply (sleep_eq netlock (aq_page q) s i pr); done || apply Hq. }
  eexists. split; [apply bind_swtch, Hw|]. intros t Hqt Hnt Hct. cbv beta.
  rewrite (after_sched_eq netlock _ t i) by (done || apply Hqt). reflexivity.
Qed.

Lemma awake_caller ie i t pr tables upages kst lip lport :
  recv_caller t i pr tables upages kst lip lport ->
  recv_caller (awake ie i t) i (set_chan 0 pr) tables upages kst lip lport.
Proof.
  intros []. split; try done. simpl. by rewrite list_lookup_alter_eq, rc_proc.
Qed.

Lemma awake_quiet ie i t : quiet t -> quiet (awake ie i t).
Proof. intros (? & ? & ? & ? & ?). split_and!; done. Qed.

(** C22: [sys_recv] on a port whose queue is empty.  The caller is put to sleep
    on the queue, with the queue's lock free again and only the process table
    locked for the scheduler.  When it is run again with a packet on the queue,
    the call returns as it does for a queue that was not empty: the packet is
    delivered and freed. *)
Theorem sys_recv_blocks_then_delivers fuel lip lport i pr s fl qs tables upages rest kst
    dport a1 a2 a3 maxlen q :
  net_inv s fl qs (tables ++ upages ++ kst :: rest) -> quiet s -> ncli (this_cpu s) = 0 ->
  recv_caller s i pr tables upages kst lip lport ->
  recv_args s dport a1 a2 a3 maxlen ->
  afind (u16 dport) qs = Some q -> aq_pkts q = [] ->
  exists k, sys_recv (S fuel) lip lport s =
      Swtch (asleep (aq_page q) i (locked_state ptable_lock s)) k /\
    forall t fl' qs' pr' q' p l,
      net_inv t fl' qs' (tables ++ upages ++ kst :: rest) -> quiet t -> ncli (this_cpu t) = 0 ->
      recv_caller t i pr' tables upages kst lip lport ->
      afind (u16 dport) qs' = Some q' -> aq_page q' = aq_page q -> aq_pkts q' = p :: l ->
      exists r s', k (locked_state ptable_lock t) = Ok r s' /\
        recv_post (awake (eflags_IF (this_cpu s)) i t) s' r fl' (u16 dport) qs' tables upages rest
          kst (pgdir pr') a1 a2 a3 maxlen p.
Proof.
  intros Hinv Hq Hn Hc (A0 & A1 & A2 & A3 & A4 & Hptrs) Hf E.
  destruct (afind_split _ _ _ Hf) as (Hport & q1 & q2 & -> & _).
  destruct (queue_pages_in _ _ _ _ _ _ Hinv) as [Hk _]. apply Forall_cons in Hk as [Hpg _].
  assert (Hqr : queue_rep (mem s) q).
  { destruct Hinv as [(_ & Hqs & _) _]. rewrite Forall_app, Forall_cons in Hqs. apply Hqs. }
  destruct (recv_body_blocks fuel lip lport s i pr q (kend s) a1 a2 a3 maxlen) as (k & He & Hk);
    try done; [apply Hc|apply Hc|].
  exists k. split.
  - unfold sys_recv.
    rewrite (bind_ok _ _ s i s) by (unfold myproc; by rewrite (rc_cur _ _ _ _ _ _ _ _ Hc)).
    rewrite (bind_ok _ _ _ _ _ A0), (bind_ok _ _ _ _ _ A1), (bind_ok _ _ _ _ _ A2),
      (bind_ok _ _ _ _ _ A3), (bind_ok _ _ _ _ _ A4), (bind_ok _ _ _ _ _ (net_acquire s Hq)).
    rewrite (bind_ok _ _ _ _ _ (find_port_queue_spec (locked_state netlock s) _ _ _ _ Hinv)), Hf.
    cbn [queue_addr from_option].
    by destruct (Z.eqb_spec (aq_page q) 0) as [E0|_]; [by apply kpage_nonzero in Hpg|].
  - intros t fl' qs' pr' q' p l Hinv' Hq' Hn' Hc' Hf' Epg Ep.
    rewrite Hk by (done || apply Hc'). rewrite <- Epg.
    destruct (afind_split _ _ _ Hf') as (Hport' & r1 & r2 & -> & Hupd').
    rewrite <- Hport' in Hupd' |- *.
    apply (recv_body_spec fuel lip lport i (set_chan 0 pr')
      (awake (eflags_IF (this_cpu s)) i t) r1 q' r2 fl' tables upages rest kst p l); try done.
    + by apply awake_quiet.
    + by apply awake_caller.
Qed.

(** The process waits on port 2000 and finds the datagram when it wakes. *)
Lemma sys_recv_blocks_then_delivers_witness :
  exists k,
    sys_recv 1 demo_lip demo_lport (NetDemo.bound [2000; 0x1000; 0x1010; 0x1020; 100]) =
      Swtch (asleep NetDemo.qpage 0 (locked_state ptable_lock
               (NetDemo.bound [2000; 0x1000; 0x1010; 0x1020; 100]))) k /\
    exists r s', k (locked_state ptable_lock
                      (NetDemo.queued [2000; 0x1000; 0x1010; 0x1020; 100])) = Ok r s'.
Proof.
  set (s := NetDemo.bound [2000; 0x1000; 0x1010; 0x1020; 100]).
  set (t := NetDemo.queued [2000; 0x1000; 0x1010; 0x1020; 100]).
  remember (page_bytes (NetDemo.queued_mem [2000; 0x1000; 0x1010; 0x1020; 100]) NetDemo.buf)
    as f eqn:Hf.
  pose proof (NetDemo.queued_inv _ _ _ _ _ f (eq_sym Hf)) as Ht.
  pose proof (net_inv_drop _ _ _ _ _ (NetDemo.bound_inv 2000 0x1000 0x1010 0x1020 100)) as Hs.
  rewrite NetDemo.used_split in Hs, Ht. fold s in Hs. fold t in Ht.
  assert (Has : aspace NetDemo.tables NetDemo.upages (mem s) Demo.pml4)
    by (apply NetDemo.space; by vm_compute).
  assert (Hat : aspace NetDemo.tables NetDemo.upages (mem t) Demo.pml4)
    by (apply NetDemo.space; by vm_compute).
  assert (Ha : recv_args s 2000 0x1000 0x1010 0x1020 100).
  { apply demo_recv_args; [exact (conj eq_refl eq_refl)|by vm_compute..]. }
  destruct (sys_recv_blocks_then_delivers 0 demo_lip demo_lport 0 Demo.process s _ _ _ _ _ _
    2000 0x1000 0x1010 0x1020 100 (mk_aqueue NetDemo.qpage 2000 [])
    Hs (NetDemo.quiet_bound _) eq_refl (demo_recv_caller s (conj eq_refl eq_refl) Has)
    Ha eq_refl eq_refl) as (k & He & Hk).
  exists k. split; [exact He|].
  destruct (Hk t _ _ Demo.process (mk_aqueue NetDemo.qpage 2000 [NetDemo.packet f])
    (NetDemo.packet f) [] Ht (NetDemo.quiet_queued _) eq_refl
    (demo_recv_caller t (conj eq_refl eq_refl) Hat) eq_refl eq_refl eq_refl) as (r & s' & Hr & _).
  exists r, s'. exact Hr.
Defined.
