(* ===== verification/NetSend.v ===== *)
(** * sys_send: correctness

    The frame that [sys_send] builds, byte by byte, and what [ip_rx] reads out
    of it again; the system call on every branch. *)

From S2P Require Import Prelude Memory CString Machine Spinlock Kalloc Proc Vm.
From S2P Require Import NetHdr E1000 Sysarg Net Pages Demo E1000Spec NetInv NetDemo NetSpec.
From S2P Require Import UserMem NetRecv.
Local Open Scope Z_scope.
Local Open Scope kernel_scope.

(** ** The frame *)

Definition eth_hdr : list byte := host_mac ++ local_mac ++ be16 ETHTYPE_IP.

(** The IP header with the two bytes [sum] in the place of the checksum. *)
Definition ip_hdr (len dst : Z) (sum : list byte) : list byte :=
  [Byte.x45; Byte.x00] ++ be16 (sizeof_ip + sizeof_udp + len) ++
  [Byte.x00; Byte.x00; Byte.x00; Byte.x00; Byte.x64; Byte.x11] ++ sum ++
  be32 local_ip ++ be32 dst.

Definition udp_hdr (sport dport len : Z) : list byte :=
  be16 sport ++ be16 dport ++ be16 (len + sizeof_udp) ++ [Byte.x00; Byte.x00].

(** The checksum of the header, computed with zeros in its place. *)
Definition ip_cksum (len dst : Z) : Z :=
  in_cksum (store_bytes (fun _ => Byte.x00) 0 (ip_hdr len dst [Byte.x00; Byte.x00])) 0 sizeof_ip.

Definition frame_hdr (sport dst dport len : Z) : list byte :=
  eth_hdr ++ ip_hdr len dst (le_split 2 (ip_cksum len dst)) ++ udp_hdr sport dport len.

(** The checksum looks only at the bytes it sums. *)
Lemma wsum_ext k m m' a a' :
  load_bytes m a (2 * k) = load_bytes m' a' (2 * k) -> wsum k m a = wsum k m' a'.
Proof.
  revert a a'. induction k as [|k IH]; intros a a' H; simpl wsum; [done|].
  replace (2 * S k)%nat with (2 + 2 * k)%nat in H by lia. rewrite !load_bytes_app in H.
  apply app_inj_1 in H as [H1 H2]; [|by rewrite !length_load_bytes].
  unfold loadZ. rewrite H1. f_equal. by apply IH.
Qed.

Lemma in_cksum_ext m m' a a' :
  load_bytes m a 20 = load_bytes m' a' 20 -> in_cksum m a 20 = in_cksum m' a' 20.
Proof.
  intros H. assert (Hw : forall m a, csum m a 20 = wsum 10 m a)
    by (intros; unfold csum; simpl; apply Z.add_0_r).
  rewrite !in_cksum_csum; rewrite ?Hw; try lia.
  - by rewrite (wsum_ext 10 m m' a a').
  - pose proof (wsum_range 10 m' a'). lia.
  - pose proof (wsum_range 10 m a). lia.
Qed.

(** ** Building the headers *)

(** A store inside the 42 bytes of headers. *)
Lemma hdr_store m buf k l :
  (k + length l <= 42)%nat ->
  load_bytes (store_bytes m (buf + Z.of_nat k) l) buf 42 = splice k l (load_bytes m buf 42).
Proof. apply load_store_splice. Qed.

Lemma kstore_hdr e buf a k n v m s :
  kpage e buf -> a = buf + Z.of_nat k -> (k + n <= 42)%nat ->
  kstore n a v (set_mem m s) =
    Ok tt (set_mem (store_bytes m (buf + Z.of_nat k) (le_split n v)) s).
Proof. intros Hb -> ?. rewrite (kstore_page e) by (done || unfold PGSIZE; lia). done. Qed.

Lemma kstore_bytes_hdr e buf a k l m s :
  kpage e buf -> a = buf + Z.of_nat k -> (k + length l <= 42)%nat ->
  kstore_bytes a l (set_mem m s) = Ok tt (set_mem (store_bytes m (buf + Z.of_nat k) l) s).
Proof.
  intros Hb -> ?. unfold kstore_bytes, kmem_op. simpl.
  rewrite (kmapped_in_page e) by (done || unfold PGSIZE; lia). done.
Qed.

(** The memory up to the checksum, and after it. *)
Definition hdr_mem1 (m : memory) (buf dst len : Z) : memory :=
  let m := memset m buf 0 PGSIZE in
  let m := store_bytes m (buf + Z.of_nat 0) host_mac in
  let m := store_bytes m (buf + Z.of_nat 6) local_mac in
  let m := store_bytes m (buf + Z.of_nat 12) (le_split 2 (htons ETHTYPE_IP)) in
  let m := store_bytes m (buf + Z.of_nat 14) (le_split 1 0x45) in
  let m := store_bytes m (buf + Z.of_nat 15) (le_split 1 0) in
  let m := store_bytes m (buf + Z.of_nat 16) (le_split 2 (htons (u16 (sizeof_ip + sizeof_udp + len)))) in
  let m := store_bytes m (buf + Z.of_nat 18) (le_split 2 0) in
  let m := store_bytes m (buf + Z.of_nat 20) (le_split 2 0) in
  let m := store_bytes m (buf + Z.of_nat 22) (le_split 1 100) in
  let m := store_bytes m (buf + Z.of_nat 23) (le_split 1 IPPROTO_UDP) in
  let m := store_bytes m (buf + Z.of_nat 26) (le_split 4 (htonl local_ip)) in
  store_bytes m (buf + Z.of_nat 30) (le_split 4 (htonl (u32 dst))).

Definition hdr_mem (m : memory) (buf sport dst dport len : Z) : memory :=
  let m := hdr_mem1 m buf dst len in
  let m := store_bytes m (buf + Z.of_nat 24) (le_split 2 (in_cksum m (buf + sizeof_eth) sizeof_ip)) in
  let m := store_bytes m (buf + Z.of_nat 34) (le_split 2 (htons (u16 sport))) in
  let m := store_bytes m (buf + Z.of_nat 36) (le_split 2 (htons (u16 dport))) in
  store_bytes m (buf + Z.of_nat 38) (le_split 2 (htons (u16 (len + sizeof_udp)))).

Ltac hdr_addr :=
  unfold eth_dhost, eth_shost, eth_type, sizeof_eth, ip_vhl, ip_tos, ip_len, ip_id, ip_off,
    ip_ttl, ip_p, ip_sum, ip_src, ip_dst, sizeof_ip, udp_sport, udp_dport, udp_ulen; lia.
Ltac hdr_step e buf k :=
  first
    [ erewrite bind_ok by (apply (kstore_hdr e buf _ k); [assumption|hdr_addr|lia])
    | erewrite bind_ok by (apply (kstore_bytes_hdr e buf _ k); [assumption|hdr_addr|by apply Nat.leb_le]) ].

Lemma build_headers_eq e s buf sport dst dport len :
  kpage e buf ->
  build_headers buf sport dst dport len s =
    Ok tt (set_mem (hdr_mem (mem s) buf sport dst dport len) s).
Proof.
  intros Hb. unfold build_headers. field_step.
  hdr_step e buf 0%nat. hdr_step e buf 6%nat. hdr_step e buf 12%nat. hdr_step e buf 14%nat. hdr_step e buf 15%nat.
  hdr_step e buf 16%nat. hdr_step e buf 18%nat. hdr_step e buf 20%nat. hdr_step e buf 22%nat. hdr_step e buf 23%nat.
  hdr_step e buf 26%nat. hdr_step e buf 30%nat. rewrite bind_gets.
  hdr_step e buf 24%nat. hdr_step e buf 34%nat. hdr_step e buf 36%nat.
  rewrite (kstore_hdr e buf _ 38%nat) by (done || hdr_addr || lia). done.
Qed.

Lemma memset_page m buf : load_bytes (memset m buf 0 PGSIZE) buf 42 = replicate 42 Byte.x00.
Proof.
  rewrite memset_block by (unfold PGSIZE; lia).
  rewrite <- (take_load_bytes _ _ (Z.to_nat PGSIZE)) by (unfold PGSIZE; lia).
  rewrite load_store_same by apply length_replicate. rewrite take_replicate. f_equal.
Qed.

Ltac hdr_loads :=
  repeat (rewrite hdr_store by (rewrite ?length_le_split; apply Nat.leb_le; reflexivity)).

Lemma hdr_mem1_load m buf dst len :
  0 <= len < 65000 ->
  load_bytes (hdr_mem1 m buf dst len) buf 42 =
    eth_hdr ++ ip_hdr len (u32 dst) [Byte.x00; Byte.x00] ++ replicate 8 Byte.x00.
Proof.
  intros Hl. unfold hdr_mem1. hdr_loads. rewrite memset_page.
  rewrite !le_split_htons, !le_split_htonl, u16_small by (unfold sizeof_ip, sizeof_udp; lia).
  reflexivity.
Qed.

Lemma hdr_mem_load m buf sport dst dport len :
  0 <= len < 65000 ->
  load_bytes (hdr_mem m buf sport dst dport len) buf 42 =
    frame_hdr (u16 sport) (u32 dst) (u16 dport) len.
Proof.
  intros Hl. unfold hdr_mem. hdr_loads. rewrite hdr_mem1_load by done.
  assert (Hck : in_cksum (hdr_mem1 m buf dst len) (buf + sizeof_eth) sizeof_ip =
    ip_cksum len (u32 dst)).
  { unfold ip_cksum, sizeof_ip. apply in_cksum_ext.
    rewrite load_store_same by reflexivity.
    change (buf + sizeof_eth) with (buf + Z.of_nat 14).
    assert (H := hdr_mem1_load m buf dst len Hl).
    change 42%nat with (14 + (20 + 8))%nat in H. rewrite !load_bytes_app in H.
    apply app_inj_1 in H as [_ H]; [|by rewrite length_load_bytes].
    by apply app_inj_1 in H as [H _]; [|by rewrite length_load_bytes]. }
  rewrite Hck, !le_split_htons, (u16_small (len + sizeof_udp)) by (unfold sizeof_udp; lia).
  unfold frame_hdr. rewrite (le_split_2 (ip_cksum len (u32 dst))). reflexivity.
Qed.

Lemma hdr_mem_outside m buf sport dst dport len x :
  x < buf \/ buf + 42 <= x ->
  hdr_mem m buf sport dst dport len x = memset m buf 0 PGSIZE x.
Proof.
  intros Hx. unfold hdr_mem, hdr_mem1.
  repeat (rewrite store_bytes_ne by (rewrite ?length_le_split; simpl length; lia)). done.
Qed.

(** The page of the whole frame. *)
Lemma frame_page m buf sport dst dport len l :
  Z.of_nat (length l) = len -> len + 42 <= PGSIZE ->
  page_bytes (store_bytes (hdr_mem m buf sport dst dport len) (buf + 42) l) buf =
    frame_hdr (u16 sport) (u32 dst) (u16 dport) len ++ l ++
    replicate (Z.to_nat (PGSIZE - 42 - len)) Byte.x00.
Proof.
  intros Hl Hlen. unfold page_bytes.
  replace (Z.to_nat PGSIZE) with (42 + (length l + Z.to_nat (PGSIZE - 42 - len)))%nat
    by (unfold PGSIZE in *; lia).
  rewrite !load_bytes_app. change (Z.of_nat 42) with 42. f_equal; [|f_equal].
  - rewrite load_store_disjoint by lia. apply hdr_mem_load; unfold PGSIZE in *; lia.
  - by apply load_store_same.
  - apply list_eq. intros i. destruct (decide (i < Z.to_nat (PGSIZE - 42 - len))%nat).
    + rewrite lookup_load_bytes, lookup_replicate_2 by done. f_equal.
      rewrite store_bytes_ne, hdr_mem_outside, memset_block by (unfold PGSIZE in *; lia).
      rewrite store_bytes_at by (rewrite length_replicate; unfold PGSIZE in *; lia).
      apply nth_lookup_Some, lookup_replicate_2. unfold PGSIZE in *. lia.
    + rewrite !lookup_ge_None_2; [done|rewrite length_replicate; lia|rewrite length_load_bytes; lia].
Qed.

Lemma send_mem_agree e m buf sport dst dport len l p :
  kpage e p -> kpage e buf -> p <> buf -> Z.of_nat (length l) + 42 <= PGSIZE ->
  page_agree m (store_bytes (hdr_mem m buf sport dst dport len) (buf + 42) l) p.
Proof.
  intros Hp Hb Hne Hl x Hx. destruct (kpage_disjoint e p buf Hp Hb Hne) as [?|?].
  all: rewrite store_bytes_ne, hdr_mem_outside by (unfold PGSIZE in *; lia).
  all: by apply (page_agree_memset e m p buf 0 Hp Hb Hne).
Qed.

(** ** The system call *)

Definition send_args (s : kstate) (sport dst dport bufaddr len : Z) : Prop :=
  argint 0 s = Ok sport s /\ argint 1 s = Ok dst s /\ argint 2 s = Ok dport s /\
  argaddr 3 s = Ok bufaddr s /\ argint 4 s = Ok len s /\ bufaddr + len <= UHALF.

(** The page of the frame, filled, before it is handed to the driver. *)
Definition filled (buf : Z) (m : memory) (s : kstate) : kstate :=
  set_mem m (set_freelist (loadZ 8 (mem s) buf) (kmem_norm s)).

Lemma filled_inv s buf fl qs own m :
  net_inv s (buf :: fl) qs own -> quiet s ->
  (forall p, kpage (kend s) p -> p <> buf -> page_agree (mem s) m p) ->
  kalloc s = Ok buf (set_freelist (loadZ 8 (mem s) buf) (kmem_norm s)) /\
  kpage (kend s) buf /\ net_inv (filled buf m s) fl qs (buf :: own) /\
  kframe own s (filled buf m s) /\ quiet (filled buf m s).
Proof.
  intros [Hrep Ho] Hq Hm. destruct (owned_kalloc _ _ _ _ (quiet_kmem _ Hq) Ho) as [He Ho'].
  assert (Hb : kpage (kend s) buf) by (eapply owned_page in Ho'; [exact Ho'|by left]).
  assert (Hag : Forall (page_agree (mem s) m) (fl ++ qs_pages qs ++ own)).
  { destruct Ho as (Hk & Hn & Hp). simpl in Hn. apply NoDup_cons in Hn as [Hin _].
    destruct Hk as (_ & _ & Hf). apply Forall_cons in Hf as [_ Hf].
    assert (Hall : Forall (kpage (kend s)) (fl ++ qs_pages qs ++ own))
      by (apply Forall_app; done).
    rewrite Forall_forall in *. intros p Hp'. apply Hm; [auto|by intros ->]. }
  rewrite !Forall_app in Hag. destruct Hag as (Hag1 & Hag2 & Hag3).
  assert (Hfr : kframe own s (filled buf m s)) by (split; try done; apply kmem_cpu_norm).
  split_and!; [done|done| |done|by eapply kframe_quiet].
  split; [by eapply (net_rep_agree (mem s))|].
  rewrite <- Permutation_middle.
  exact (owned_mem (set_freelist (loadZ 8 (mem s) buf) (kmem_norm s)) m _ _ Hag1 Ho').
Qed.

(** The caller of [sys_send]: its process and its address space. *)
Record send_caller (s : kstate) (i : nat) (pr : proc) (tables upages : list Z) : Prop :=
  mk_send_caller {
  sc_cur : cur s = Some i;
  sc_proc : procs s !! i = Some pr;
  sc_space : aspace tables upages (mem s) (pgdir pr);
}.

(** The frame in the page [buf], handed to the card. *)
Definition sent (s s' : kstate) (buf : Z) (fl : list Z) (qs : list aqueue) (own : list Z)
    (sport dst dport len : Z) (payload : list byte) : Prop :=
  exists fl0 old dsc, fl = buf :: fl0 /\
    tx_ring (nic s) !! tx_slot (nic s) = Some dsc /\ tx_done dsc = true /\
    tx_bufs (nic s) !! tx_slot (nic s) = Some old /\
    nic s' = tx_push buf (len + 42) (nic s) /\
    net_inv s' ((if old =? 0 then [] else [old]) ++ fl0) qs (nic_pages (nic s') ++ own) /\
    Z.of_nat (length payload) = len /\
    page_bytes (mem s') buf =
      frame_hdr (u16 sport) (u32 dst) (u16 dport) len ++ payload ++
      replicate (Z.to_nat (PGSIZE - 42 - len)) Byte.x00.

(** Giving the page back after a failure. *)
Lemma send_give_back s buf fl qs own2 own t :
  net_inv t fl qs (buf :: own2 ++ own) -> quiet t -> kframe own s t ->
  exists s', kfree buf t = Ok tt s' /\ net_inv s' (buf :: fl) qs (own2 ++ own) /\
    kframe own s s' /\ nic s' = nic t /\ procs s' = procs t.
Proof.
  intros Hi Hq Hf. destruct (net_kfree t fl qs _ buf Hi (quiet_kmem _ Hq)) as (He & Hi' & Hf').
  eexists. split_and!; [exact He|done| |done|done].
  transitivity t; [done|]. eapply kframe_sub; [apply app_subseteq_r|exact Hf'].
Qed.

(** Handing the filled page to the driver. *)
Lemma send_transmit t fl qs own buf len :
  net_inv t fl qs (buf :: nic_pages (nic t) ++ own) -> quiet t -> nic_ok (nic t) ->
  exists dsc old t', tx_ring (nic t) !! tx_slot (nic t) = Some dsc /\
    tx_bufs (nic t) !! tx_slot (nic t) = Some old /\
    kframe (rx_bufs (nic t) ++ own) t t' /\ netst t' = netst t /\ procs t' = procs t /\
    if tx_done dsc
    then e1000_transmit buf len t = Ok 0 t' /\ nic t' = tx_push buf len (nic t) /\
         net_inv t' ((if old =? 0 then [] else [old]) ++ fl) qs (nic_pages (nic t') ++ own) /\
         page_bytes (mem t') buf = page_bytes (mem t) buf
    else e1000_transmit buf len t = Ok (-1) t' /\ nic t' = nic t /\
         net_inv t' fl qs (buf :: nic_pages (nic t') ++ own).
Proof.
  intros [Hrep Ho] Hq Hn.
  assert (Ho' : owned t fl (buf :: nic_pages (nic t) ++ qs_pages qs ++ own)).
  { eapply owned_proper; [done| |exact Ho]. perm_solve. }
  destruct (transmit_spec t fl _ buf len Hq Hn Ho') as
    (dsc & old & t' & Hd & Hb & Hf & Hnet & Hp & Hl & H).
  exists dsc, old, t'.
  assert (Hrep' : net_rep (mem t') (port_list (netst t')) qs).
  { rewrite Hnet. eapply (net_rep_agree (mem t)); [|done].
    apply kf_pages, Forall_app in Hf as [_ [? _]%Forall_app]. done. }
  assert (Hf' : kframe (rx_bufs (nic t) ++ own) t t').
  { eapply kframe_sub; [|exact Hf]. intros x [Hx|Hx]%elem_of_app; apply elem_of_app;
      [by left|right; apply elem_of_app; by right]. }
  split_and!; [exact Hd|exact Hb|exact Hf'|exact Hnet|exact Hp|]. destruct (tx_done dsc).
  - destruct H as (He & Hnic & Hown & Hpg).
    split_and!; [exact He|exact Hnic| |exact Hpg]. split; [done|].
    eapply owned_proper; [done| |exact Hown]. perm_solve.
  - destruct H as (He & Hnic & _ & Hown).
    split_and!; [exact He|exact Hnic|]. split; [done|].
    eapply owned_proper; [done| |exact Hown]. perm_solve.
Qed.

Lemma list_cases {A} (l : list A) : l = [] \/ exists x r, l = x :: r.
Proof. destruct l; eauto. Qed.

Section Send.

Context (s : kstate) (fl : list Z) (qs : list aqueue) (tables upages rest : list Z).
Context (i : nat) (pr : proc) (sport dst dport bufaddr len : Z).
Let own := tables ++ upages ++ rest.
Hypothesis Hinv : net_inv s fl qs (nic_pages (nic s) ++ own).
Hypothesis Hq : quiet s.
Hypothesis Hnic : nic_ok (nic s).
Hypothesis Hcaller : send_caller s i pr tables upages.
Hypothesis Hargs : send_args s sport dst dport bufaddr len.
Hypothesis Hlen : 0 <= len.
Hypothesis Hfit : len + 42 <= PGSIZE.

Lemma send_args_eq : sys_send s = send_body i sport dst dport bufaddr len s.
Proof.
  destruct Hargs as (A0 & A1 & A2 & A3 & A4 & _). unfold sys_send.
  rewrite (bind_ok _ _ s i s) by (unfold myproc; by rewrite (sc_cur _ _ _ _ _ Hcaller)).
  by rewrite (bind_ok _ _ _ _ _ A0), (bind_ok _ _ _ _ _ A1), (bind_ok _ _ _ _ _ A2),
    (bind_ok _ _ _ _ _ A3), (bind_ok _ _ _ _ _ A4).
Qed.

(** [sys_send] from the page on. *)
Lemma send_start buf fl0 :
  fl = buf :: fl0 ->
  let m1 := hdr_mem (mem s) buf sport dst dport len in
  sys_send s =
    (r <- copyin_user (pgdir pr) (buf + 42) bufaddr len ;;
     if r <? 0 then kfree buf ;; cprintf "send: copyin failed" ;; ret (u64 (-1)) else
     txret <- e1000_transmit buf (len + 42) ;;
     if txret <? 0 then kfree buf ;; ret (u64 (-1)) else
     ret 0) (filled buf m1 s).
Proof.
  intros Hfl m1. pose proof (sc_proc _ _ _ _ _ Hcaller) as Hpr.
  rewrite send_args_eq. unfold send_body.
  change (sizeof_eth + sizeof_ip + sizeof_udp) with 42.
  rewrite s32_small by (unfold PGSIZE in *; lia).
  destruct (Z.ltb_spec PGSIZE (len + 42)); [lia|].
  assert (Hi := Hinv). rewrite Hfl in Hi.
  destruct (owned_kalloc _ _ _ _ (quiet_kmem _ Hq) (proj2 Hi)) as [He Ho].
  assert (Hb : kpage (kend s) buf) by (eapply owned_page in Ho; [exact Ho|by left]).
  rewrite (bind_ok _ _ _ _ _ He).
  destruct (Z.eqb_spec buf 0) as [E|_]; [by apply kpage_nonzero in Hb|].
  rewrite (bind_ok _ _ _ _ _ (build_headers_eq (kend s) _ _ _ _ _ _ Hb)).
  erewrite bind_ok by (apply get_proc_ok; exact Hpr).
  replace (buf + sizeof_eth + sizeof_ip + sizeof_udp) with (buf + 42)
    by (unfold sizeof_eth, sizeof_ip, sizeof_udp; lia).
  rewrite u64_small by (unfold PGSIZE in *; lia). done.
Qed.

Lemma send_separate buf fl0 :
  fl = buf :: fl0 ->
  Forall (kpage (kend s)) upages /\ Forall (kpage (kend s)) tables /\
  (forall p, p ∈ tables -> p ∉ upages) /\ buf ∉ tables /\ buf ∉ upages.
Proof.
  intros Hfl. assert (Hi := Hinv). rewrite Hfl in Hi. destruct Hi as [_ (_ & Hn & Hp)].
  unfold own in Hn, Hp. simpl in Hn. apply NoDup_cons in Hn as [Hb Hn].
  apply NoDup_app in Hn as (_ & _ & Hn). apply NoDup_app in Hn as (_ & _ & Hn).
  apply NoDup_app in Hn as (_ & _ & Hn). apply NoDup_app in Hn as (_ & Hd & _).
  rewrite !Forall_app in Hp. split_and!; try tauto.
  - intros p Ht Hu. apply (Hd p Ht). apply elem_of_app. by left.
  - intros Ht. apply Hb. do 3 (apply elem_of_app; right). apply elem_of_app. by left.
  - intros Hu. apply Hb. do 4 (apply elem_of_app; right). apply elem_of_app. by left.
Qed.

(** The result on every branch. *)
Definition send_result (r : Z) (s' : kstate) : Prop :=
  kframe own s s' /\ procs s' = procs s /\
  ((r = u64 (-1) /\ nic s' = nic s /\ net_inv s' fl qs (nic_pages (nic s) ++ own)) \/
   (r = 0 /\ exists buf payload, sent s s' buf fl qs own sport dst dport len payload /\
      forall T, umapped (mem s) (pgdir pr) bufaddr len T -> payload = ubytes (mem s) T len)) /\
  (forall T dsc, fl <> [] -> umapped (mem s) (pgdir pr) bufaddr len T ->
     tx_ring (nic s) !! tx_slot (nic s) = Some dsc -> tx_done dsc = true -> r = 0).

Lemma send_no_page : fl = [] -> exists r s', sys_send s = Ok r s' /\ send_result r s'.
Proof.
  intros Hfl. rewrite send_args_eq. unfold send_body.
  change (sizeof_eth + sizeof_ip + sizeof_udp) with 42.
  rewrite s32_small by (unfold PGSIZE in *; lia).
  destruct (Z.ltb_spec PGSIZE (len + 42)); [lia|].
  assert (Hi := Hinv). rewrite Hfl in Hi.
  destruct (owned_kalloc_none _ _ (quiet_kmem _ Hq) (proj2 Hi)) as [He _].
  rewrite (bind_ok _ _ _ _ _ He). cbn [Z.eqb]. unfold cprintf. rewrite bind_modify.
  eexists _, _. split; [reflexivity|]. split_and!.
  - split; try done; [apply kmem_cpu_norm|]. apply Forall_forall. eauto with xv6.
  - done.
  - left. rewrite Hfl. split_and!; [done|done|exact Hi].
  - by intros.
Qed.

Lemma send_page buf fl0 :
  fl = buf :: fl0 -> exists r s', sys_send s = Ok r s' /\ send_result r s'.
Proof.
  intros Hfl. destruct (send_separate buf fl0 Hfl) as (Hup & Htb & Hsep & Hgt & Hgu).
  rewrite (send_start buf fl0 Hfl). set (m1 := hdr_mem _ _ _ _ _ _).
  assert (Hi : net_inv s (buf :: fl0) qs (nic_pages (nic s) ++ own)) by (by rewrite <- Hfl).
  pose proof (sc_space _ _ _ _ _ Hcaller) as Has.
  destruct (filled_inv s buf fl0 qs _ (mem s) Hi Hq ltac:(eauto with xv6)) as (_ & Hb & _).
  assert (Hm : forall l p, Z.of_nat (length l) + 42 <= PGSIZE -> kpage (kend s) p -> p <> buf ->
    page_agree (mem s) (store_bytes m1 (buf + 42) l) p) by (intros; by eapply send_mem_agree).
  assert (Hm1 : Forall (page_agree (mem s) (mem (filled buf m1 s))) tables).
  { rewrite Forall_forall in *. intros p Hp. simpl. rewrite <- (store_bytes_nil m1 (buf + 42)).
    apply Hm; [simpl; unfold PGSIZE; lia|auto|by intros ->]. }
  destruct (copyin_user_spec (kend s) tables upages (mem s) (pgdir pr) Has Hup Htb
    buf Hb Hgt Hgu (buf + 42) bufaddr len (filled buf m1 s)) as (r & l & He & Hr & HT);
    [done|by eapply argaddr_range, Hargs|intros _; apply Hargs|unfold PGSIZE in *; lia|lia|lia|].
  rewrite (bind_ok _ _ _ _ _ He). clear He.
  destruct (filled_inv s buf fl0 qs _ (store_bytes m1 (buf + 42) l) Hi Hq) as (_ & _ & Ht & Hft & Hqt).
  { intros p Hp Hne. apply Hm; [lia|done|done]. }
  set (t := set_mem _ _). change (filled buf (store_bytes m1 (buf + 42) l) s) with t in Ht, Hft, Hqt.
  assert (Hft' : kframe own s t) by (eapply kframe_sub; [apply app_subseteq_r|exact Hft]).
  assert (Hub : forall T, umapped (mem s) (pgdir pr) bufaddr len T ->
    ubytes (mem (filled buf m1 s)) T len = ubytes (mem s) T len).
  { intros T HTm. unfold ubytes. apply map_ext_in. intros k [_ Hk]%in_seq.
    destruct (umapped_page tables upages (mem s) (pgdir pr) Has bufaddr len T (Z.of_nat k) HTm)
      as (p & Hp & Hr'); [lia|]. rewrite Forall_forall in Hup.
    simpl. rewrite <- (store_bytes_nil m1 (buf + 42)).
    apply (Hm [] p); [simpl; unfold PGSIZE; lia|auto|by intros ->|done]. }
  destruct Hr as [[-> Hl]|[-> Hl]]; cbn [Z.ltb Z.compare].
  - destruct (send_transmit t fl0 qs own buf (len + 42) Ht Hqt Hnic)
      as (dsc & old & t' & Hd & Hold & Hf & _ & Hp & H).
    assert (Hf' : kframe own s t')
      by (transitivity t; [done|eapply kframe_sub; [apply app_subseteq_r|exact Hf]]).
    destruct (tx_done dsc) eqn:Hdone.
    + destruct H as (He & Hn & Hinv' & Hpg). rewrite (bind_ok _ _ _ _ _ He). cbn [Z.ltb Z.compare].
      exists 0, t'. split; [done|]. split_and!; [done|done|right|done].
      split; [done|]. exists buf, l. split.
      * exists fl0, old, dsc. split_and!; try done. rewrite Hpg.
        by apply frame_page.
      * intros T HTm. destruct (HT T HTm) as [_ ->]. apply Hub, HTm.
    + destruct H as (He & Hn & Hinv'). rewrite (bind_ok _ _ _ _ _ He). cbn [Z.ltb Z.compare].
      rewrite Hn in Hinv'.
      destruct (send_give_back s buf fl0 qs _ own t' Hinv' (kframe_quiet _ _ _ Hf Hqt) Hf')
        as (s' & He' & Hi' & Hf2 & Hn' & Hp').
      rewrite (bind_ok _ _ _ _ _ He'). exists (u64 (-1)), s'. split; [done|].
      split_and!; [done|by rewrite Hp', Hp| |].
      * left. rewrite Hn', Hn, Hfl. done.
      * intros T dsc' _ _ Hd' Hdone'. change (nic t) with (nic s) in Hd. congruence.
  - destruct (send_give_back s buf fl0 qs _ own t Ht Hqt Hft')
      as (s' & He' & Hi' & Hf2 & Hn' & Hp').
    rewrite (bind_ok _ _ _ _ _ He'). unfold cprintf. rewrite bind_modify.
    eexists (u64 (-1)), _. split; [reflexivity|]. split_and!.
    + split; apply Hf2.
    + exact Hp'.
    + left. rewrite Hfl. split_and!; [done|exact Hn'|exact Hi'].
    + intros T dsc' _ HTm _ _. destruct (HT T HTm) as [? _]. done.
Qed.

Lemma send_spec : exists r s', sys_send s = Ok r s' /\ send_result r s'.
Proof.
  destruct (list_cases fl) as [Hfl|(buf & fl0 & Hfl)]; [by apply send_no_page|].
  by apply (send_page buf fl0).
Qed.

End Send.

(** C6: [sys_send] of a payload that fits in a page with its headers.  Either
    the result is -1, the page goes back to the allocator and neither the card
    nor the queues change; or the result is 0 and the card is handed one frame
    in a fresh page: the Ethernet, IP and UDP headers for the given ports and
    destination, with the header checksum, followed by the [len] bytes that the
    user passed.  With a free page, a mapped buffer and a free descriptor the
    result is 0. *)
Theorem sys_send_correct s fl qs tables upages rest i pr sport dst dport bufaddr len :
  net_inv s fl qs (nic_pages (nic s) ++ tables ++ upages ++ rest) -> quiet s -> nic_ok (nic s) ->
  send_caller s i pr tables upages -> send_args s sport dst dport bufaddr len ->
  0 <= len -> len + 42 <= PGSIZE ->
  exists r s', sys_send s = Ok r s' /\
    send_result s fl qs tables upages rest pr sport dst dport bufaddr len r s'.
Proof. apply send_spec. Qed.

(** Four bytes sent from port 2000 to port 53 of 10.0.2.2. *)
Lemma sys_send_correct_witness :
  exists s', sys_send (NetDemo.bound [2000; 0x0a000202; 53; 0x1000; 4]) = Ok 0 s' /\
    nic s' = tx_push (Demo.at_ 0x300000) 46 Demo.card.
Proof.
  set (s := NetDemo.bound [2000; 0x0a000202; 53; 0x1000; 4]).
  pose proof (net_inv_drop _ _ _ _ _ (NetDemo.bound_inv 2000 0x0a000202 53 0x1000 4)) as Hinv.
  fold s in Hinv.
  assert (Hp : Demo.used ≡ₚ nic_pages (nic s) ++ NetDemo.tables ++ NetDemo.upages ++
            map Demo.at_ [0x207000; 0x208000; 0x209000])
    by (apply (bool_decide_unpack _); vm_compute; exact I).
  rewrite Hp in Hinv.
  assert (Has : aspace NetDemo.tables NetDemo.upages (mem s) Demo.pml4)
    by (apply NetDemo.space; by vm_compute).
  assert (Hx : uxlate (mem s) Demo.pml4 0x1000 = Some (Demo.at_ 0x206000)) by by vm_compute.
  assert (Ha : send_args s 2000 0x0a000202 53 0x1000 4).
  { assert (Hr : NetDemo.running s) by exact (conj eq_refl eq_refl).
    split_and!; [apply NetDemo.arg_int|apply NetDemo.arg_int|apply NetDemo.arg_int|
      apply NetDemo.arg_addr|apply NetDemo.arg_int|unfold UHALF; lia];
      first [exact Hr|lia|by vm_compute]. }
  destruct (sys_send_correct s _ _ _ _ _ 0 Demo.process 2000 0x0a000202 53 0x1000 4
    Hinv (NetDemo.quiet_bound _) ltac:(split; reflexivity)
    (mk_send_caller s 0 Demo.process _ _ eq_refl eq_refl Has) Ha ltac:(lia) ltac:(unfold PGSIZE; lia))
    as (r & s' & He & _ & _ & Hc & Hok).
  assert (Er : r = 0).
  { exact (Hok _ _ ltac:(discriminate) (NetDemo.user_range _ 0 4 Hx ltac:(lia)
      ltac:(unfold PGSIZE; lia)) eq_refl eq_refl). }
  rewrite Er in He. exists s'. split; [exact He|].
  destruct Hc as [[E _]|(_ & buf & payload & (fl0 & old & dsc & Efl & _ & _ & _ & Hn & _) & _)].
  - rewrite Er in E. discriminate.
  - injection Efl as <- _. exact Hn.
Defined.
