(* ===== verification/NetRx.v ===== *)
(** * net_rx and arp_rx: correctness

    The ARP reply, the dispatch of incoming frames, and the proof that the
    network stack is what the driver expects ([RxHandler]). *)

From S2P Require Import Prelude Memory CString Machine Spinlock Kalloc Proc Vm.
From S2P Require Import NetHdr E1000 Sysarg Net Pages Demo E1000Spec NetInv NetDemo NetSpec.
From S2P Require Import UserMem NetRecv NetSend.
Local Open Scope Z_scope.
Local Open Scope kernel_scope.

(** ** The ARP reply *)

(** The 42 bytes of the reply to a request from [mac], [ip]. *)
Definition arp_reply (mac ip : list byte) : list byte :=
  mac ++ local_mac ++ be16 ETHTYPE_ARP ++
  be16 ARP_HRD_ETHER ++ be16 ETHTYPE_IP ++ [Byte.x06; Byte.x04] ++ be16 ARP_OP_REPLY ++
  local_mac ++ be32 local_ip ++ mac ++ ip.

(** The sender's addresses in a request. *)
Definition arp_sender_mac (f : list byte) : list byte := take 6 (drop 6 f).
Definition arp_sender_ip (f : list byte) : list byte := take 4 (drop 28 f).

Definition arp_mem (m : memory) (buf : Z) (mac ip : list byte) : memory :=
  let m := store_bytes m (buf + Z.of_nat 0) mac in
  let m := store_bytes m (buf + Z.of_nat 6) local_mac in
  let m := store_bytes m (buf + Z.of_nat 12) (le_split 2 (htons ETHTYPE_ARP)) in
  let m := store_bytes m (buf + Z.of_nat 14) (le_split 2 (htons ARP_HRD_ETHER)) in
  let m := store_bytes m (buf + Z.of_nat 16) (le_split 2 (htons ETHTYPE_IP)) in
  let m := store_bytes m (buf + Z.of_nat 18) (le_split 1 ETHADDR_LEN) in
  let m := store_bytes m (buf + Z.of_nat 19) (le_split 1 4) in
  let m := store_bytes m (buf + Z.of_nat 20) (le_split 2 (htons ARP_OP_REPLY)) in
  let m := store_bytes m (buf + Z.of_nat 22) local_mac in
  let m := store_bytes m (buf + Z.of_nat 28) (le_split 4 (htonl local_ip)) in
  let m := store_bytes m (buf + Z.of_nat 32) mac in
  store_bytes m (buf + Z.of_nat 38) ip.

Lemma arp_mem_outside m buf mac ip x :
  length mac = 6%nat -> length ip = 4%nat -> x < buf \/ buf + 42 <= x ->
  arp_mem m buf mac ip x = m x.
Proof.
  intros Hm Hi Hx. unfold arp_mem.
  repeat (rewrite store_bytes_ne by (rewrite ?length_le_split, ?Hm, ?Hi; simpl length; lia)). done.
Qed.

Lemma arp_mem_load m buf mac ip :
  length mac = 6%nat -> length ip = 4%nat ->
  load_bytes (arp_mem m buf mac ip) buf 42 = arp_reply mac ip.
Proof.
  intros Hm Hi. unfold arp_mem.
  destruct mac as [|a0 [|a1 [|a2 [|a3 [|a4 [|a5 [|]]]]]]]; try done.
  destruct ip as [|b0 [|b1 [|b2 [|b3 [|]]]]]; try done.
  hdr_loads. rewrite !le_split_htons, !le_split_htonl.
  assert (Hl : length (load_bytes m buf 42) = 42%nat) by apply length_load_bytes.
  destruct (load_bytes m buf 42) as [|c l]; [done|].
  do 41 (destruct l as [|? l]; [discriminate Hl|]). destruct l; [reflexivity|discriminate Hl].
Qed.

Section ArpFill.

Context (e : Z) (s : kstate) (m0 : memory) (buf inbuf : Z).
Hypothesis Hb : kpage e buf.
Hypothesis Hin : kpage e inbuf.
Hypothesis Hne : inbuf <> buf.
Let mac := load_bytes m0 (inbuf + 6) 6.
Let ip := load_bytes m0 (inbuf + 28) 4.

Lemma reply_store m k l :
  page_agree m0 m inbuf -> (k + length l <= 42)%nat ->
  page_agree m0 (store_bytes m (buf + Z.of_nat k) l) inbuf.
Proof.
  intros Hm Hk. eapply page_agree_trans; [exact Hm|].
  eapply page_agree_store; eauto; unfold PGSIZE; lia.
Qed.

Lemma mac_copy_eq k a m :
  page_agree m0 m inbuf -> a = buf + Z.of_nat k -> (k + 6 <= 42)%nat ->
  mac_copy a (inbuf + eth_shost) (set_mem m s) =
    Ok tt (set_mem (store_bytes m (buf + Z.of_nat k) mac) s).
Proof.
  intros Hm -> Hk. unfold mac_copy, kmem_op, ETHADDR_LEN, eth_shost. simpl.
  rewrite !(kmapped_in_page e) by (done || unfold PGSIZE; lia). simpl.
  rewrite memmove_block. change (Pos.to_nat 6) with 6%nat.
  by rewrite (page_agree_load m0 m inbuf) by (done || unfold PGSIZE; lia).
Qed.

Ltac arp_agree := repeat (apply reply_store; [|rewrite ?length_le_split; by apply Nat.leb_le]).
Ltac arp_addr :=
  unfold eth_dhost, eth_shost, eth_type, sizeof_eth, arp_hrd, arp_pro, arp_hln, arp_pln, arp_op,
    arp_sha, arp_sip, arp_tha, arp_tip; lia.
Ltac arp_step k :=
  first
    [ erewrite bind_ok by (apply (kstore_hdr e buf _ k); [exact Hb|arp_addr|lia])
    | erewrite bind_ok by (apply (kstore_bytes_hdr e buf _ k);
                             [exact Hb|arp_addr|by apply Nat.leb_le]) ].

Lemma arp_fill_eq :
  arp_fill buf inbuf (set_mem m0 s) = Ok tt (set_mem (arp_mem m0 buf mac ip) s).
Proof.
  unfold arp_fill.
  erewrite bind_ok by (apply (mac_copy_eq 0%nat); [eauto with xv6|arp_addr|lia]).
  arp_step 6%nat. arp_step 12%nat. arp_step 14%nat. arp_step 16%nat. arp_step 18%nat.
  arp_step 19%nat. arp_step 20%nat. arp_step 22%nat. arp_step 28%nat.
  erewrite bind_ok by (apply (mac_copy_eq 32%nat); [arp_agree; eauto with xv6|arp_addr|lia]).
  replace (inbuf + sizeof_eth + arp_sip) with (inbuf + 28) by arp_addr.
  erewrite bind_ok by (eapply (kload_page e inbuf); [done|lia|unfold PGSIZE; lia]).
  rewrite (kstore_hdr e buf _ 38%nat) by (done || arp_addr || lia).
  do 2 f_equal. unfold arp_mem. f_equal. simpl mem. unfold loadZ.
  rewrite split_le_combine' by apply length_load_bytes.
  apply page_agree_load; [|lia|unfold PGSIZE; lia]. arp_agree. eauto with xv6.
Qed.

End ArpFill.

(** ** arp_rx *)

(** The static variable [seen_arp], and what is printed with it. *)
Definition arp_seen (s : kstate) : kstate :=
  set_net (set_seen_arp 1 (netst s)) (set_klog ("arp_rx: received an ARP packet"%string :: klog s) s).

Lemma tx_push_rx buf len d :
  rx_ring (tx_push buf len d) = rx_ring d /\ rx_bufs (tx_push buf len d) = rx_bufs d /\
  regs (tx_push buf len d) E1000_RDT = regs d E1000_RDT.
Proof. done. Qed.

Section Arp.

Context (s : kstate) (fl0 : list Z) (qs : list aqueue) (own : list Z) (buf inbuf : Z).
Hypothesis Hinv : net_inv s (buf :: fl0) qs (inbuf :: nic_pages (nic s) ++ own).
Hypothesis Hq : quiet s.
Hypothesis Hnic : nic_ok (nic s).
Hypothesis Hseen : seen_arp (netst s) = 0.
Let mac := arp_sender_mac (page_bytes (mem s) inbuf).
Let ip := arp_sender_ip (page_bytes (mem s) inbuf).

Lemma page_slice m p k n :
  (k + n <= Z.to_nat PGSIZE)%nat ->
  take n (drop k (page_bytes m p)) = load_bytes m (p + Z.of_nat k) n.
Proof.
  intros Hk. unfold page_bytes. rewrite drop_load_bytes by lia. by rewrite take_load_bytes by lia.
Qed.

(** The first request: the reply is built in a fresh page and handed to the
    driver, then the request's page is freed. *)
Lemma arp_rx_start :
  let m1 := arp_mem (mem s) buf mac ip in
  let t := filled buf m1 (arp_seen s) in
  arp_rx inbuf s = (e1000_transmit buf 42 ;; kfree inbuf) t /\
  net_inv t fl0 qs (buf :: inbuf :: nic_pages (nic s) ++ own) /\ quiet t /\
  kframe (inbuf :: nic_pages (nic s) ++ own) s t /\
  load_bytes (mem t) buf 42 = arp_reply mac ip.
Proof.
  intros m1 t.
  assert (Hfr : kframe (inbuf :: nic_pages (nic s) ++ own) s (arp_seen s)).
  { split; try done. apply Forall_forall. eauto with xv6. }
  pose proof (kframe_quiet _ _ _ Hfr Hq) as Hq1.
  assert (Hmac : length mac = 6%nat /\ length ip = 4%nat).
  { unfold mac, ip, arp_sender_mac, arp_sender_ip.
    rewrite !page_slice by (unfold PGSIZE; lia). by rewrite !length_load_bytes. }
  destruct Hmac as [Hm6 Hi4].
  destruct (filled_inv (arp_seen s) buf fl0 qs _ m1 Hinv Hq1) as (He & Hb & Ht & Hf & Hqt).
  { intros p Hp Hne x Hx. apply arp_mem_outside; [done|done|].
    assert (Hb : kpage (kend s) buf).
    { destruct Hinv as [_ (Hk & _)]. by apply kmem_ok_head in Hk as [_ ?]. }
    destruct (kpage_disjoint _ p buf Hp Hb Hne); unfold PGSIZE in *; lia. }
  assert (Hne : inbuf <> buf).
  { eapply not_eq_sym, (owned_ne s (buf :: fl0)); [apply Hinv|by left|].
    apply elem_of_app. right. by left. }
  assert (Hin : kpage (kend s) inbuf)
    by (eapply owned_page; [apply Hinv|apply elem_of_app; right; by left]).
  split_and!; [|exact Ht|exact Hqt|by transitivity (arp_seen s)|by apply arp_mem_load].
  unfold arp_rx. rewrite bind_gets, Hseen. cbn [Z.eqb negb]. unfold cprintf, upd_net.
  rewrite !bind_modify. fold (arp_seen s). rewrite (bind_ok _ _ _ _ _ He).
  destruct (Z.eqb_spec buf 0) as [E|_]; [by apply kpage_nonzero in Hb|].
  rewrite (bind_ok _ _ _ _ _ (arp_fill_eq (kend s)
    (set_freelist (loadZ 8 (mem (arp_seen s)) buf) (kmem_norm (arp_seen s)))
    (mem s) buf inbuf Hb Hin Hne)).
  unfold t, m1, mac, ip, arp_sender_mac, arp_sender_ip.
  by rewrite !page_slice by (unfold PGSIZE; lia).
Qed.

(** Freeing the request at the end. *)
Lemma arp_free t t' fl :
  net_inv t' fl qs (inbuf :: nic_pages (nic t') ++ own) -> quiet t' ->
  kframe (inbuf :: nic_pages (nic s) ++ own) s t ->
  kframe (rx_bufs (nic s) ++ inbuf :: own) t t' ->
  rx_bufs (nic t') = rx_bufs (nic s) ->
  exists s', kfree inbuf t' = Ok tt s' /\ net_inv s' (inbuf :: fl) qs (nic_pages (nic t') ++ own) /\
    kframe (rx_bufs (nic s) ++ own) s s' /\ nic s' = nic t' /\ procs s' = procs t' /\
    Forall (page_agree (mem t') (mem s')) (nic_pages (nic t') ++ own).
Proof.
  intros Hi Hqt Hf1 Hf2 Erx. destruct (net_kfree t' fl qs _ inbuf Hi (quiet_kmem _ Hqt)) as (He & Hi' & Hf3).
  eexists. split_and!; [exact He|exact Hi'| |done|done|exact (kf_pages _ _ _ Hf3)].
  transitivity t; [|transitivity t'].
  - eapply kframe_sub; [|exact Hf1]. unfold nic_pages. intros x [Hx|Hx]%elem_of_app; right;
      apply elem_of_app; [left; apply elem_of_app; by right|by right].
  - eapply kframe_sub; [|exact Hf2]. intros x [Hx|Hx]%elem_of_app; apply elem_of_app;
      [by left|right; by right].
  - eapply kframe_sub; [|exact Hf3]. unfold nic_pages. rewrite Erx.
    intros x [Hx|Hx]%elem_of_app; apply elem_of_app; [left; apply elem_of_app; by right|by right].
Qed.

(** With a free descriptor the reply is sent. *)
Lemma arp_rx_sent dsc :
  tx_ring (nic s) !! tx_slot (nic s) = Some dsc -> tx_done dsc = true ->
  exists s' old, arp_rx inbuf s = Ok tt s' /\ tx_bufs (nic s) !! tx_slot (nic s) = Some old /\
    nic s' = tx_push buf 42 (nic s) /\
    net_inv s' (inbuf :: (if old =? 0 then [] else [old]) ++ fl0) qs (nic_pages (nic s') ++ own) /\
    kframe (rx_bufs (nic s) ++ own) s s' /\ procs s' = procs s /\
    load_bytes (mem s') buf 42 = arp_reply mac ip.
Proof.
  intros Hd Hdone. destruct arp_rx_start as (-> & Ht & Hqt & Hf & Hld).
  set (t := filled _ _ _) in *.
  assert (Ht' : net_inv t fl0 qs (buf :: nic_pages (nic t) ++ inbuf :: own)).
  { eapply net_inv_proper; [|exact Ht]. change (nic t) with (nic s). perm_solve. }
  destruct (send_transmit t fl0 qs (inbuf :: own) buf 42 Ht' Hqt Hnic)
    as (dsc' & old & t' & Hd' & Hold & Hf' & _ & Hp & H).
  assert (dsc' = dsc) as -> by (change (nic t) with (nic s) in Hd'; congruence).
  rewrite Hdone in H. destruct H as (He & Hn & Hi & Hpg). rewrite (bind_ok _ _ _ _ _ He).
  rewrite <- Permutation_middle in Hi.
  destruct (arp_free t t' _ Hi (kframe_quiet _ _ _ Hf' Hqt) Hf Hf') as (s' & -> & Hi' & Hfs & Hn' & Hp' & Hpgs).
  { by rewrite Hn. }
  exists s', old. split_and!; [done|exact Hold|by rewrite Hn'|by rewrite Hn'|done|by rewrite Hp'|].
  rewrite <- Hld. rewrite <- !take_page_bytes by (unfold PGSIZE; lia).
  rewrite (page_agree_bytes (mem t')).
  - by rewrite Hpg.
  - rewrite Forall_forall in Hpgs. apply Hpgs. apply elem_of_app. left. rewrite Hn.
    apply tx_push_page; [done|].
    eapply kpage_nonzero, (owned_page t); [apply Ht|apply elem_of_app; right; by left].
Qed.

(** With a full ring the reply's page is lost: no structure of the kernel owns
    it afterwards. *)
Lemma arp_rx_full dsc :
  tx_ring (nic s) !! tx_slot (nic s) = Some dsc -> tx_done dsc = false ->
  exists s', arp_rx inbuf s = Ok tt s' /\ nic s' = nic s /\
    net_inv s' (inbuf :: fl0) qs (buf :: nic_pages (nic s) ++ own) /\
    kframe (rx_bufs (nic s) ++ own) s s' /\ procs s' = procs s.
Proof.
  intros Hd Hdone. destruct arp_rx_start as (-> & Ht & Hqt & Hf & _).
  set (t := filled _ _ _) in *.
  assert (Ht' : net_inv t fl0 qs (buf :: nic_pages (nic t) ++ inbuf :: own)).
  { eapply net_inv_proper; [|exact Ht]. change (nic t) with (nic s). perm_solve. }
  destruct (send_transmit t fl0 qs (inbuf :: own) buf 42 Ht' Hqt Hnic)
    as (dsc' & old & t' & Hd' & Hold & Hf' & _ & Hp & H).
  assert (dsc' = dsc) as -> by (change (nic t) with (nic s) in Hd'; congruence).
  rewrite Hdone in H. destruct H as (He & Hn & Hi). rewrite (bind_ok _ _ _ _ _ He).
  change (nic t) with (nic s) in Hn. rewrite Hn in Hi.
  assert (Hi2 : net_inv t' fl0 qs (inbuf :: nic_pages (nic s) ++ buf :: own)).
  { eapply net_inv_proper; [|exact Hi]. perm_solve. }
  destruct (net_kfree t' fl0 qs _ inbuf Hi2 (quiet_kmem _ (kframe_quiet _ _ _ Hf' Hqt)))
    as (He' & Hi' & Hf3).
  eexists. split_and!; [exact He'|exact Hn| | |exact Hp].
  - eapply net_inv_proper; [|exact Hi']. perm_solve.
  - transitivity t; [|transitivity t'].
    + eapply kframe_sub; [|exact Hf]. unfold nic_pages. intros x [Hx|Hx]%elem_of_app; right;
        apply elem_of_app; [left; apply elem_of_app; by right|by right].
    + eapply kframe_sub; [|exact Hf']. intros x [Hx|Hx]%elem_of_app; apply elem_of_app;
        [by left|right; by right].
    + eapply kframe_sub; [|exact Hf3]. unfold nic_pages.
      intros x [Hx|Hx]%elem_of_app; apply elem_of_app;
        [left; apply elem_of_app; by right|right; by right].
Qed.

End Arp.

(** Later requests are dropped. *)
Lemma arp_rx_again s fl qs own inbuf :
  net_inv s fl qs (inbuf :: own) -> quiet s -> seen_arp (netst s) <> 0 ->
  arp_rx inbuf s = Ok tt (freed inbuf s) /\ net_inv (freed inbuf s) (inbuf :: fl) qs own /\
  kframe own s (freed inbuf s).
Proof.
  intros Hi Hq Hs. unfold arp_rx. rewrite bind_gets, (proj2 (Z.eqb_neq _ _) Hs). cbn [negb].
  by apply net_kfree, quiet_kmem.
Qed.

(** ** net_rx *)

(** What the driver hands over: an ARP request, an IP packet, or neither. *)
Inductive frame_kind := FArp | FIp | FOther.

Definition classify (f : list byte) (len : Z) : frame_kind :=
  if (42 <=? len) && (fb16 f 12 =? ETHTYPE_ARP) then FArp
  else if (34 <=? len) && (fb16 f 12 =? ETHTYPE_IP) then FIp
  else FOther.

Lemma net_rx_eq e s buf len :
  kpage e buf ->
  net_rx buf len s =
    match classify (page_bytes (mem s) buf) len with
    | FArp => arp_rx buf s
    | FIp => ip_rx buf len s
    | FOther => kfree buf s
    end.
Proof.
  intros Hb. unfold net_rx, classify. change eth_type with 12. cbv zeta.
  change (sizeof_eth + sizeof_arp) with 42. change (sizeof_eth + sizeof_ip) with 34.
  assert (Hk : kload 2 (buf + 12) s = Ok (loadZ 2 (mem s) (buf + 12)) s)
    by (eapply kload_page; [exact Hb|lia|unfold PGSIZE; lia]).
  assert (Hf : forall min t, (if min <=? len then x <- kload 2 (buf + 12) ;; ret (ntohs x =? t) else ret false) s
    = Ok ((min <=? len) && (fb16 (page_bytes (mem s) buf) 12 =? t)) s).
  { intros min t. destruct (min <=? len); [|done]. rewrite (bind_ok _ _ _ _ _ Hk).
    by rewrite load_page_2 by (unfold PGSIZE; lia). }
  rewrite (bind_ok _ _ _ _ _ (Hf 42 ETHTYPE_ARP)). case_match; [done|].
  rewrite (bind_ok _ _ _ _ _ (Hf 34 ETHTYPE_IP)). by case_match.
Qed.

(** The effect of a frame on the queues. *)
Definition net_step (f : list byte) (len : Z) (qs qs' : list aqueue) : Prop :=
  match classify f len, parse_udp f with
  | FIp, Some v =>
      match afind (uv_dport v) qs with
      | Some q =>
          if MAX_QUEUED_PER_PORT <=? Z.of_nat (length (aq_pkts q)) then qs' = qs
          else exists node buf, qs' = aupd (uv_dport v) (apush (mk_apkt node buf f v)) qs
      | None => qs' = qs
      end
  | _, _ => qs' = qs
  end.

(** What the driver expects of a call, for the network stack. *)
Definition rx_post (s s' : kstate) (qs' : list aqueue) (fl fl' own : list Z) : Prop :=
  net_rep (mem s') (port_list (netst s')) qs' /\
  owned s' fl' (qs_pages qs' ++ nic_pages (nic s') ++ own) /\
  nic_ok (nic s') /\ rx_ring (nic s') = rx_ring (nic s) /\
  rx_bufs (nic s') = rx_bufs (nic s) /\ regs (nic s') E1000_RDT = regs (nic s) E1000_RDT /\
  kframe (rx_bufs (nic s) ++ own) s s' /\ (length fl <= S (length fl'))%nat.

Section NetRx.

Context (s : kstate) (qs : list aqueue) (fl own : list Z) (buf len : Z).
Hypothesis Hq : quiet s.
Hypothesis Hn : nic_ok (nic s).
Hypothesis Hfl : fl <> [].
Hypothesis Hinv : net_inv s fl qs (buf :: nic_pages (nic s) ++ own).
Context (f : list byte).
Hypothesis Hpage : page_bytes (mem s) buf = f.

Lemma rx_sub : rx_bufs (nic s) ++ own ⊆ nic_pages (nic s) ++ own.
Proof.
  unfold nic_pages. intros x [Hx|Hx]%elem_of_app; apply elem_of_app;
    [left; apply elem_of_app; by right|by right].
Qed.

(** A call that does not touch the card. *)
Lemma rx_post_nic s' qs' fl' :
  net_inv s' fl' qs' (nic_pages (nic s) ++ own) -> nic s' = nic s ->
  kframe (nic_pages (nic s) ++ own) s s' -> (length fl <= S (length fl'))%nat ->
  rx_post s s' qs' fl fl' own.
Proof.
  intros [Hr Ho] En Hf Hl. unfold rx_post. rewrite En. split_and!; try done.
  eapply kframe_sub; [apply rx_sub|exact Hf].
Qed.

Lemma ip_call :
  classify f len = FIp ->
  exists s' qs' fl', ip_rx buf len s = Ok tt s' /\ net_step f len qs qs' /\
    rx_post s s' qs' fl fl' own.
Proof.
  intros Hc. pose proof (ip_rx_spec s fl qs _ buf len f Hinv Hq Hpage) as H.
  unfold aip_rx, net_step in *. rewrite Hc.
  assert (Hgo : forall fl' qs', (exists s', ip_rx buf len s = Ok tt s' /\
      net_inv s' fl' qs' (nic_pages (nic s) ++ own) /\ kframe (nic_pages (nic s) ++ own) s s' /\
      nic s' = nic s /\ procs s' = woken (aenqueued f fl qs) (procs s)) ->
    (length fl <= S (length fl'))%nat ->
    exists s', ip_rx buf len s = Ok tt s' /\ rx_post s s' qs' fl fl' own).
  { intros fl' qs' (s' & He & Hi & Hf & En & _) Hl. exists s'. split; [done|].
    by apply rx_post_nic. }
  destruct (parse_udp f) as [v|].
  2: { destruct (Hgo _ _ H) as (s' & ? & ?); [simpl; lia|]. eauto 6. }
  destruct (afind (uv_dport v) qs) as [q|].
  2: { destruct (Hgo _ _ H) as (s' & ? & ?); [simpl; lia|]. eauto 6. }
  destruct (MAX_QUEUED_PER_PORT <=? Z.of_nat (length (aq_pkts q))).
  { destruct (Hgo _ _ H) as (s' & ? & ?); [simpl; lia|]. eauto 6. }
  destruct (list_cases fl) as [E|(node & fl0 & E)]; [done|].
  match type of H with context [match ?l with [] => ?a | x :: r => _ end] =>
    assert (Hm : match l with [] => a
                 | node :: fl' => (fl', aupd (uv_dport v) (apush (mk_apkt node buf f v)) qs) end =
      (fl0, aupd (uv_dport v) (apush (mk_apkt node buf f v)) qs)) by (by rewrite E) end.
  rewrite Hm in H.
  destruct (Hgo _ _ H) as (s' & ? & ?); [rewrite E; simpl; lia|].
  eexists s', _, _. split_and!; [done|by eexists _, _|done].
Qed.

Lemma arp_call :
  exists s' fl', arp_rx buf s = Ok tt s' /\ rx_post s s' qs fl fl' own.
Proof.
  destruct (decide (seen_arp (netst s) = 0)) as [Hs|Hs].
  2: { destruct (arp_rx_again s fl qs _ buf Hinv Hq Hs) as (He & Hi & Hf).
       eexists _, _. split; [exact He|]. apply rx_post_nic; [exact Hi|done|done|simpl; lia]. }
  destruct (list_cases fl) as [E|(reply & fl0 & E)]; [done|].
  assert (Hi := Hinv). rewrite E in Hi.
  destruct (tx_slot_lookup _ Hn) as (dsc & old & Hd & Hb).
  destruct (tx_done dsc) eqn:Hdone.
  - destruct (arp_rx_sent s fl0 qs own reply buf Hi Hq Hn Hs dsc Hd Hdone)
      as (s' & old' & He & _ & Hnic & [Hr Ho] & Hf & _ & _).
    eexists s', _. split; [exact He|]. unfold rx_post.
    split_and!; [done|exact Ho|..|exact Hf|rewrite E; simpl; rewrite length_app; lia];
      rewrite Hnic; try done. by apply tx_push_ok.
  - destruct (arp_rx_full s fl0 qs own reply buf Hi Hq Hn Hs dsc Hd Hdone)
      as (s' & He & Hnic & [Hr (Hk & Hnd & Hp)] & Hf & _).
    exists s', (buf :: fl0). split; [exact He|]. unfold rx_post. rewrite Hnic.
    split_and!; try done; [|rewrite E; simpl; lia].
    rewrite <- Permutation_middle in Hnd, Hp. apply Forall_cons in Hp as [_ Hp].
    split_and!; try done. revert Hnd. rewrite <- Permutation_middle. by intros [_ ?]%NoDup_cons.
Qed.

End NetRx.

(** The law of [RxHandler], for the network stack. *)
Lemma net_rx_call s qs fl own buf len :
  quiet s -> nic_ok (nic s) -> 0 < len <= PGSIZE -> fl <> [] ->
  net_rep (mem s) (port_list (netst s)) qs ->
  owned s fl (buf :: qs_pages qs ++ nic_pages (nic s) ++ own) ->
  exists s' qs' fl', net_rx buf len s = Ok tt s' /\
    net_step (page_bytes (mem s) buf) len qs qs' /\ rx_post s s' qs' fl fl' own.
Proof.
  intros Hq Hn Hlen Hfl Hrep Ho.
  assert (Hinv : net_inv s fl qs (buf :: nic_pages (nic s) ++ own)).
  { split; [done|]. eapply owned_proper; [done| |exact Ho]. perm_solve. }
  assert (Hb : kpage (kend s) buf) by (eapply owned_page; [exact Ho|by left]).
  rewrite (net_rx_eq _ _ _ _ Hb).
  destruct (classify (page_bytes (mem s) buf) len) eqn:Hc.
  - destruct (arp_call s qs fl own buf Hq Hn Hfl Hinv) as (s' & fl' & He & Hp).
    exists s', qs, fl'. split_and!; [done| |done]. unfold net_step. by rewrite Hc.
  - by apply (ip_call s qs fl own buf len Hq Hn Hfl Hinv _ eq_refl).
  - destruct (net_kfree s fl qs _ buf Hinv (quiet_kmem _ Hq)) as (He & Hi & Hf).
    eexists _, qs, _. split_and!; [exact He|unfold net_step; by rewrite Hc|].
    apply rx_post_nic; [exact Hn|exact Hi|done|done|simpl; lia].
Qed.

#[export] Instance net_rx_handler : RxHandler net_rx.
Proof.
  refine (mk_rx_handler net_rx (list aqueue) (fun m n qs => net_rep m (port_list n) qs) qs_pages
    net_step _ _).
  - intros m m' n qs. apply net_rep_agree.
  - intros s qs fl own buf len Hq Hn Hlen Hfl Hrep Ho.
    destruct (net_rx_call s qs fl own buf len Hq Hn Hlen Hfl Hrep Ho)
      as (s' & qs' & fl' & He & Hs & Hp). exists s', qs', fl'. by split; [|split].
Defined.

(** ** The interrupt handler *)

(** The effect on the queues of packets handed over one by one. *)
Definition net_steps : list aqueue -> list (Z * list byte) -> list aqueue -> Prop :=
  @rx_steps net_rx net_rx_handler.

(** C3: one interrupt.  With up to 16 received packets waiting in the ring and
    two free pages for each of them, the handler returns after 17 turns of its
    loop at most; every packet was handed to the network stack, in the order of
    arrival, and its descriptor given back to the card, so that no packet waits
    any more; the invariants of the stack, the driver and the allocator hold,
    and the pages of the rest of the kernel are untouched. *)
Theorem e1000_intr_drains pkts s qs fl own :
  net_inv s fl qs (nic_pages (nic s) ++ own) -> quiet s -> nic_ok (nic s) ->
  rx_waiting (mem s) (nic s) pkts -> (2 * length pkts <= length fl)%nat ->
  exists s' qs' fl', e1000_intr net_rx 17 s = Ok tt s' /\
    net_inv s' fl' qs' (nic_pages (nic s') ++ own) /\ quiet s' /\ nic_ok (nic s') /\
    net_steps qs pkts qs' /\ rx_waiting (mem s') (nic s') [] /\ kframe own s s'.
Proof.
  intros [Hrep Ho] Hq Hn Hw Hfl. unfold e1000_intr, reg_write, upd_nic. rewrite bind_modify.
  set (s1 := set_nic _ s).
  destruct (@recv_loop net_rx net_rx_handler pkts s1 qs fl own 17) as (s' & qs' & fl' & He & Hi & Hs & Hw' & Hf).
  - split_and!; [exact Hq| |exact Hrep|exact Ho]. by destruct Hn; split.
  - exact Hw.
  - exact Hfl.
  - destruct Hw as (? & _). lia.
  - destruct Hi as (Hq' & Hn' & Hrep' & Ho').
    exists s', qs', fl'. split_and!; [done|by split|done|done|done|done|by destruct Hf; split].
Qed.

Lemma net_inv_nic s d fl qs own : net_inv s fl qs own -> net_inv (set_nic d s) fl qs own.
Proof. done. Qed.

Lemma quiet_mem s m : quiet s -> quiet (set_mem m s).
Proof. done. Qed.

Lemma quiet_nic s d : quiet s -> quiet (set_nic d s).
Proof. done. Qed.

(** One datagram has arrived in the first receive buffer of the demo card. *)
Definition demo_card : e1000 :=
  let d := mk_rx_desc (V2P (Demo.at_ 0x400000)) 46 0 1 0 0 in
  mk_e1000 (tx_ring Demo.card) (<[0%nat := d]> (rx_ring Demo.card)) (tx_bufs Demo.card)
    (rx_bufs Demo.card) (regs Demo.card).

Definition demo_arrived_mem : memory :=
  store_bytes (NetDemo.bound_mem [0; 0; 0; 0; 0]) (Demo.at_ 0x400000) NetDemo.frame.

Definition demo_arrived : kstate :=
  set_nic demo_card (set_mem demo_arrived_mem (NetDemo.bound [0; 0; 0; 0; 0])).

Lemma demo_arrived_inv :
  net_inv demo_arrived Demo.free [mk_aqueue NetDemo.qpage 2000 []]
    (nic_pages demo_card ++ Demo.own).
Proof.
  destruct (net_inv_only (NetDemo.bound [0; 0; 0; 0; 0]) demo_arrived_mem
    Demo.free [mk_aqueue NetDemo.qpage 2000 []] Demo.used [Demo.at_ 0x400000]) as [Hi _].
  - intros x Hx%list_elem_of_singleton. subst x. by left.
  - unfold demo_arrived_mem. rewrite <- (Z.add_0_r (Demo.at_ 0x400000)).
    apply only_pages_store; [by left|lia|unfold PGSIZE; simpl; lia].
  - exact (net_inv_drop _ _ _ _ _ (NetDemo.bound_inv 0 0 0 0 0)).
  - replace (nic_pages demo_card ++ Demo.own) with Demo.used by reflexivity.
    by apply net_inv_nic.
Qed.

Lemma demo_arrived_waiting :
  rx_waiting (mem demo_arrived) (nic demo_arrived) [(46, NetDemo.frame)].
Proof.
  split_and!; [simpl; lia|..].
  - intros [|k] len data Hk; [|by destruct k]. injection Hk as <- <-.
    eexists _, (Demo.at_ 0x400000). split_and!; try reflexivity.
    all: intros _; exact (load_store_same _ _ _ _ eq_refl).
  - intros _. eexists. split; reflexivity.
Qed.

Lemma e1000_intr_drains_witness :
  exists s' node buf f, e1000_intr net_rx 17 demo_arrived = Ok tt s' /\
    take 46 f = NetDemo.frame /\
    net_rep (mem s') (port_list (netst s'))
      [mk_aqueue NetDemo.qpage 2000 [mk_apkt node buf f NetDemo.view]].
Proof.
  destruct (e1000_intr_drains [(46, NetDemo.frame)] demo_arrived [mk_aqueue NetDemo.qpage 2000 []]
    Demo.free Demo.own) as (s' & qs' & fl' & He & [Hrep _] & _ & _ & Hs & _).
  - exact demo_arrived_inv.
  - apply quiet_nic, quiet_mem, NetDemo.quiet_bound.
  - split; reflexivity.
  - exact demo_arrived_waiting.
  - simpl. lia.
  - inversion Hs as [|len data pk a' Hbad|len data pk f a1 a2 Hl Htake Hstep Hrest].
    { destruct Hbad. unfold PGSIZE. lia. }
    inversion Hrest as [E3| |]. subst.
    change (Z.to_nat 46) with 46%nat in Htake.
    assert (Ef : f = NetDemo.frame ++ drop 46 f) by (rewrite <- Htake; by rewrite take_drop).
    assert (Hv : parse_udp f = Some NetDemo.view) by (rewrite Ef; apply NetDemo.parse_frame).
    assert (Hc : classify f 46 = FIp) by (rewrite Ef; reflexivity).
    unfold rx_step in Hstep. simpl in Hstep. unfold net_step in Hstep. rewrite Hc, Hv in Hstep.
    destruct Hstep as (node & buf & ->). exists s', node, buf, f.
    split_and!; [exact He|exact Htake|exact Hrep].
Defined.

(** ** From sender to receiver *)

Lemma be16_value v : 0 <= v < 65536 -> exists b1 b0, be16 v = [b1; b0] /\
  byte.unsigned b1 * 256 + byte.unsigned b0 = v.
Proof.
  intros Hv. eexists _, _. split; [reflexivity|]. rewrite !byte.unsigned_of_Z.
  unfold byte.wrap. lia_mod.
Qed.

(** The headers that [sys_send] writes, as [ip_rx] reads them. *)
Lemma frame_hdr_parse sport dst dport len tl :
  0 <= sport < 65536 -> 0 <= dport < 65536 -> 0 <= len -> len + 42 <= PGSIZE ->
  let f := frame_hdr sport dst dport len ++ tl in
  classify f (len + 42) = FIp /\
  parse_udp f = Some (mk_udp_view local_ip sport dport 42 len) /\ drop 42 f = tl.
Proof.
  intros Hs Hd Hl Hp f. unfold f, frame_hdr, udp_hdr, ip_hdr.
  destruct (be16_value sport Hs) as (s1 & s0 & Es & Vs).
  destruct (be16_value dport Hd) as (d1 & d0 & Ed & Vd).
  destruct (be16_value (len + sizeof_udp)) as (l1 & l0 & El & Vl);
    [unfold sizeof_udp, PGSIZE in *; lia|].
  rewrite Es, Ed, El. generalize (le_split 2 (ip_cksum len dst)) (eq_refl : length (le_split 2 (ip_cksum len dst)) = 2%nat).
  intros ck Hck. destruct ck as [|c0 [|c1 [|]]]; try discriminate Hck.
  split_and!; [|unfold parse_udp|reflexivity].
  - unfold classify. change (fb16 _ 12) with ETHTYPE_IP.
    destruct (Z.leb_spec 34 (len + 42)); [|lia].
    rewrite andb_false_r. reflexivity.
  - change (fb _ 23 =? 17) with true. cbv iota. change (udp_off _) with 34. do 2 f_equal.
    + exact Vs.
    + exact Vd.
    + change (fb16 _ (34 + 4)) with (byte.unsigned l1 * 256 + byte.unsigned l0).
      rewrite Vl. unfold sizeof_udp. lia.
Qed.

Lemma ip_hdr_cksum m a len dst :
  load_bytes m a 20 = ip_hdr len dst (le_split 2 (ip_cksum len dst)) -> in_cksum m a 20 = 0.
Proof.
  intros Hm. set (m0 := store_bytes (fun _ => Byte.x00) 0 (ip_hdr len dst [Byte.x00; Byte.x00])).
  assert (H0 : load_bytes m0 0 20 = ip_hdr len dst [Byte.x00; Byte.x00])
    by (apply load_store_same; reflexivity).
  rewrite (in_cksum_ext m (storeZ 2 m0 (0 + 2 * 5) (in_cksum m0 0 20)) a 0).
  - apply cksum_verifies; [lia..|]. unfold loadZ.
    assert (E : load_bytes m0 (0 + 2 * 5) 2 = take 2 (drop 10 (load_bytes m0 0 20)))
      by (rewrite drop_load_bytes, take_load_bytes by lia; reflexivity).
    rewrite E, H0. reflexivity.
  - rewrite Hm. unfold storeZ. change (0 + 2 * 5) with (0 + Z.of_nat 10).
    rewrite load_store_splice, H0 by (rewrite length_le_split; lia).
    replace (in_cksum m0 0 20) with (ip_cksum len dst) by (unfold ip_cksum, sizeof_ip; done).
    generalize (ip_cksum len dst). intros ck. reflexivity.
Qed.


(** A page of the demo kernel that holds a frame sent from port 5000. *)
Definition demo_sent : list byte :=
  frame_hdr 5000 0x0a00020f 2000 4 ++ [Byte.x70; Byte.x69; Byte.x6e; Byte.x67].

Definition demo_loop_mem : memory :=
  store_bytes (NetDemo.bound_mem [0; 0; 0; 0; 0]) NetDemo.buf demo_sent.

Lemma page_prefix m p l :
  (length l <= Z.to_nat PGSIZE)%nat -> exists tl, page_bytes (store_bytes m p l) p = l ++ tl.
Proof.
  intros Hl. exists (load_bytes (store_bytes m p l) (p + Z.of_nat (length l))
    (Z.to_nat PGSIZE - length l)). unfold page_bytes.
  replace (Z.to_nat PGSIZE) with (length l + (Z.to_nat PGSIZE - length l))%nat at 1 by lia.
  rewrite load_bytes_app. f_equal. by apply load_store_same.
Qed.


(** C30: the first ARP request is answered.  With a free descriptor the card is
    handed one frame of 42 bytes: an ARP reply to the sender of the request
    with the local MAC and IP addresses; the page of the request is freed. *)
Theorem arp_rx_answers s reply fl qs own inbuf dsc :
  net_inv s (reply :: fl) qs (inbuf :: nic_pages (nic s) ++ own) -> quiet s -> nic_ok (nic s) ->
  seen_arp (netst s) = 0 ->
  tx_ring (nic s) !! tx_slot (nic s) = Some dsc -> tx_done dsc = true ->
  let f := page_bytes (mem s) inbuf in
  exists s' old, arp_rx inbuf s = Ok tt s' /\ nic s' = tx_push reply 42 (nic s) /\
    load_bytes (mem s') reply 42 = arp_reply (arp_sender_mac f) (arp_sender_ip f) /\
    tx_bufs (nic s) !! tx_slot (nic s) = Some old /\
    net_inv s' (inbuf :: (if old =? 0 then [] else [old]) ++ fl) qs (nic_pages (nic s') ++ own).
Proof.
  intros Hi Hq Hn Hs Hd Hdone f.
  destruct (arp_rx_sent s fl qs own reply inbuf Hi Hq Hn Hs dsc Hd Hdone)
    as (s' & old & He & Ho & En & Hi' & _ & _ & Hl).
  exists s', old. by split_and!.
Qed.

(** The page [NetDemo.buf] as a request. *)
Lemma demo_request_inv :
  net_inv (NetDemo.bound [0; 0; 0; 0; 0]) Demo.free [mk_aqueue NetDemo.qpage 2000 []]
    (NetDemo.buf :: nic_pages Demo.card ++ Demo.own).
Proof.
  replace (nic_pages Demo.card ++ Demo.own) with Demo.used by reflexivity.
  exact (NetDemo.bound_inv 0 0 0 0 0).
Qed.

Lemma arp_rx_answers_witness :
  exists s', arp_rx NetDemo.buf (NetDemo.bound [0; 0; 0; 0; 0]) = Ok tt s' /\
    nic s' = tx_push (Demo.at_ 0x300000) 42 Demo.card.
Proof.
  destruct (arp_rx_answers _ _ _ _ _ NetDemo.buf (mk_tx_desc 0 0 0 0 1 0 0) demo_request_inv
    (NetDemo.quiet_bound _) ltac:(split; reflexivity) eq_refl eq_refl eq_refl)
    as (s' & _ & He & Hn & _).
  exists s'. split; [exact He|exact Hn].
Defined.

(** C38: an ARP request that finds the transmit ring full loses a page.  The page
    allocated for the reply is afterwards neither free nor in use by the
    queues, the rings or the rest of the kernel. *)
Theorem arp_rx_full_ring_leaks s reply fl qs own inbuf dsc :
  net_inv s (reply :: fl) qs (inbuf :: nic_pages (nic s) ++ own) -> quiet s -> nic_ok (nic s) ->
  seen_arp (netst s) = 0 ->
  tx_ring (nic s) !! tx_slot (nic s) = Some dsc -> tx_done dsc = false ->
  exists s', arp_rx inbuf s = Ok tt s' /\ net_inv s' (inbuf :: fl) qs (nic_pages (nic s') ++ own) /\
    reply ∉ (inbuf :: fl) ++ qs_pages qs ++ nic_pages (nic s') ++ own.
Proof.
  intros Hi Hq Hn Hs Hd Hdone.
  destruct (arp_rx_full s fl qs own reply inbuf Hi Hq Hn Hs dsc Hd Hdone)
    as (s' & He & En & Hi' & _).
  exists s'. rewrite En. split_and!; [done|by eapply net_inv_drop|].
  destruct Hi' as [_ (_ & Hnd & _)].
  assert (E : (inbuf :: fl) ++ qs_pages qs ++ reply :: nic_pages (nic s) ++ own ≡ₚ
    reply :: (inbuf :: fl) ++ qs_pages qs ++ nic_pages (nic s) ++ own) by perm_solve.
  apply (NoDup_perm _ _ E), NoDup_cons in Hnd as [? _]. done.
Qed.

(** The demo kernel with a card that has not finished any transmission. *)
Definition demo_busy : kstate :=
  set_nic (mk_e1000 (replicate 16 (mk_tx_desc 0 0 0 0 0 0 0)) (rx_ring Demo.card)
             (tx_bufs Demo.card) (rx_bufs Demo.card) (regs Demo.card))
    (NetDemo.bound [0; 0; 0; 0; 0]).

Lemma arp_rx_full_ring_leaks_witness :
  exists s', arp_rx NetDemo.buf demo_busy = Ok tt s' /\
    Demo.at_ 0x300000 ∉ (NetDemo.buf :: map Demo.at_ [0x301000; 0x302000; 0x303000]) ++
      [NetDemo.qpage] ++ nic_pages (nic s') ++ Demo.own.
Proof.
  destruct (arp_rx_full_ring_leaks demo_busy _ _ _ _ NetDemo.buf (mk_tx_desc 0 0 0 0 0 0 0)
    (net_inv_nic _ _ _ _ _ demo_request_inv) (quiet_nic _ _ (NetDemo.quiet_bound _)) ltac:(split; reflexivity)
    eq_refl eq_refl eq_refl) as (s' & He & _ & Hl).
  exists s'. split; [exact He|exact Hl].
Defined.
