(* ===== verification/ConsoleSpec.v ===== *)
(** * The line editor of the console: what it promises

    The abstract editor keeps the bytes that readers may take, the line that is
    being typed and the history as lists; the ring, its three indices and the
    history arrays of console.c refine it as long as the ring does not fill and
    no [^D] is typed.  With [^D] the indices can pass each other, and the
    console is dead: the last section. *)

From S2P Require Import Prelude Memory CString FsState Machine Spinlock Kalloc Proc Vm Sysarg.
From S2P Require Import Sleeplock Bio Log Fs Console Demo DemoFs.
Local Open Scope Z_scope.
Local Open Scope kernel_scope.

(** ** Output always succeeds *)

Definition crt_ok (x : console) : Prop := 0 <= crt_pos x < 1920.

(** The state with the terminal [x] and the memory [m]. *)
Definition with_tty (s : kstate) (x : console) (m : memory) : kstate :=
  set_fs (set_cons x (fs s)) (set_mem m s).

(** [x'] differs from [x] in what was printed only. *)
Definition printed (x x' : console) : Prop :=
  crt_ok x' /\ exists p l, x' = set_serial l (set_crt_pos p x).

Lemma with_tty_id s : with_tty s (tty (fs s)) (mem s) = s.
Proof. by destruct s as [? ? ? ? ? ? ? ? ? ? ? ? ? ? []]. Qed.

Lemma with_tty_twice s x m x' m' : with_tty (with_tty s x m) x' m' = with_tty s x' m'.
Proof. done. Qed.

Lemma printed_trans x y z : printed x y -> printed y z -> printed x z.
Proof. intros [_ (p & l & ->)] [? (p' & l' & ->)]. split; [done|]. by exists p', l'. Qed.

Lemma put_cons_eq f s x m : put_cons f (with_tty s x m) = Ok tt (with_tty s (f x) m).
Proof. done. Qed.

Lemma get_cons_eq s x m : get_cons (with_tty s x m) = Ok x (with_tty s x m).
Proof. done. Qed.

Lemma crt_mapped k n : 0 <= k -> 0 <= n -> k + n <= 0x1000 -> kmapped (crt + k) n = true.
Proof.
  intros. change crt with 0xFFFF8000000B8000. unfold kmapped, KERNBASE. apply andb_true_intro. lia.
Qed.

Lemma kstore_crt pos v s x m :
  0 <= pos <= 1920 ->
  kstore 2 (crt + 2 * pos) v (with_tty s x m) =
  Ok tt (with_tty s x (storeZ 2 m (crt + 2 * pos) v)).
Proof. intros. rewrite kstore_ok; [done|]. apply crt_mapped; lia. Qed.

Lemma kmem_op_crt rs f s x m :
  forallb (fun r => kmapped (fst r) (snd r)) rs = true ->
  kmem_op rs f (with_tty s x m) = Ok tt (with_tty s x (f m)).
Proof. unfold kmem_op. by intros ->. Qed.

Lemma cgaputc_run c s x m :
  crt_ok x -> exists x' m', cgaputc c (with_tty s x m) = Ok tt (with_tty s x' m') /\ printed x x' /\ serial x' = serial x.
Proof.
  intros Hx. unfold cgaputc. rewrite (bind_ok _ _ _ _ _ (get_cons_eq _ _ _)). unfold crt_ok in Hx.
  set (f := fun pos => _ : K unit).
  assert (Hf : forall pos m, 0 <= pos <= 1920 -> exists x' m',
            f pos (with_tty s x m) = Ok tt (with_tty s x' m') /\ printed x x' /\ serial x' = serial x).
  { clear m. intros pos m Hp. unfold f. set (g := fun pos => _ : K unit).
    assert (Hg : forall pos m, 0 <= pos < 1920 -> exists x' m',
              g pos (with_tty s x m) = Ok tt (with_tty s x' m') /\ printed x x' /\ serial x' = serial x).
    { clear - Hx. intros pos m Hp. unfold g. rewrite (bind_ok _ _ _ _ _ (put_cons_eq _ _ _ _)).
      rewrite kstore_crt by lia. eexists _, _. split; [done|]. split; [|done].
      split; [unfold crt_ok; simpl; rewrite u16_small; lia|]. by exists (u16 pos), (serial x). }
    destruct (Z.leb_spec 24 (pos / 80)) as [H|H].
    - rewrite bind_assoc.
      rewrite (bind_ok _ _ _ _ _ (kmem_op_crt [(crt, 160 * 24)] _ _ _ _ eq_refl)), bind_assoc.
      assert (Hm : forallb (fun r => kmapped (fst r) (snd r))
                [(crt + 2 * (pos - 80), 2 * (24 * 80 - (pos - 80)))] = true).
      { cbn [forallb fst snd]. by rewrite crt_mapped by lia_mod. }
      rewrite (bind_ok _ _ _ _ _ (kmem_op_crt _ _ _ _ _ Hm)), bind_ret. apply Hg. lia_mod.
    - rewrite bind_ret. apply Hg. lia_mod. }
  destruct (c =? 10); [rewrite bind_ret; apply Hf; lia_mod|].
  destruct (c =? BACKSPACE).
  { rewrite bind_ret. apply Hf. destruct (Z.ltb_spec 0 (crt_pos x)); lia. }
  rewrite bind_assoc, (bind_ok _ _ _ _ _ (kstore_crt (crt_pos x) _ _ _ _ ltac:(lia))), bind_ret.
  apply Hf. lia.
Qed.

(** What goes out on the serial line, the last byte first. *)
Definition sent (c : Z) : list Z := if c =? BACKSPACE then [8; 32; 8] else [u8 c].

Lemma consputc_run c s x m :
  crt_ok x -> exists x' m', consputc c (with_tty s x m) = Ok tt (with_tty s x' m') /\ printed x x' /\
    serial x' = sent c ++ serial x.
Proof.
  intros Hx. unfold consputc.
  assert (Hl : (if c =? BACKSPACE then uartputc 8 ;; uartputc 32 ;; uartputc 8 else uartputc c)
            (with_tty s x m) = Ok tt (with_tty s (set_serial (sent c ++ serial x) x) m)).
  { unfold sent. by destruct (c =? BACKSPACE). }
  rewrite (bind_ok _ _ _ _ _ Hl).
  destruct (cgaputc_run c s (set_serial (sent c ++ serial x) x) m Hx) as (x' & m' & -> & [Hp1 (p & l' & ->)] & Hs).
  eexists _, _. split; [done|]. split; [split; [done|by exists p, l']|exact Hs].
Qed.

Lemma consputc_ok c s x m :
  crt_ok x -> exists x' m', consputc c (with_tty s x m) = Ok tt (with_tty s x' m') /\ printed x x'.
Proof. intros Hx. destruct (consputc_run c s x m Hx) as (x' & m' & E & Hp & _). by exists x', m'. Qed.

(** ** The abstract editor *)

Record editor := mk_editor {
  ready : list byte;               (* complete lines, not read yet *)
  pend : list byte;                (* the line being typed *)
  hist : list (list byte);         (* finished lines, oldest first *)
  hpos : option nat;               (* the history entry on display *)
}.

Definition NL : byte := Byte.x0a.

(** A finished line enters the history, which keeps the last sixteen. *)
Definition push_line (l : list byte) (h : list (list byte)) : list (list byte) :=
  if decide (l = []) then h
  else (if decide (length h = 16%nat) then drop 1 h else h) ++ [l].

(** The history entry [k] becomes the line being typed. *)
Definition show_line (k : nat) (a : editor) : editor :=
  mk_editor (ready a) (default [] (hist a !! k)) (hist a) (Some k).

Definition edit (a : editor) (c : Z) : editor :=
  if (c =? 10) || (c =? 13) then
    mk_editor (ready a ++ pend a ++ [NL]) [] (push_line (pend a) (hist a)) None
  else if c =? Ctl 85 then mk_editor (ready a) [] (hist a) (hpos a)
  else if (c =? Ctl 72) || (c =? 0x7f) then
    mk_editor (ready a) (removelast (pend a)) (hist a) (hpos a)
  else if c =? KEY_UP then
    match hist a with
    | [] => a
    | _ => show_line (match hpos a with None => length (hist a) - 1 | Some k => k - 1 end)%nat a
    end
  else if c =? KEY_DN then
    match hpos a with
    | None => a
    | Some k => if decide (k < length (hist a) - 1)%nat then show_line (S k) a
                else mk_editor (ready a) [] (hist a) None
    end
  else mk_editor (ready a) (pend a ++ [byte.of_Z c]) (hist a) (hpos a).

(** The keys of the theorem: no reset, no listing, no [^D]. *)
Definition key_ok (c : Z) : Prop :=
  0 < c < 256 /\ c <> Ctl 90 /\ c <> Ctl 80 /\ c <> Ctl 68.

Definition fits (a : editor) : Prop := (length (ready a) + length (pend a) <= 127)%nat.

(** ** Representation *)

(** The ring holds [l] from index [i] on. *)
Definition ring (x : console) (i : Z) (l : list byte) : Prop :=
  forall k b, l !! k = Some b -> in_at x (i + Z.of_nat k) = b.

Definition nonzero (l : list byte) : Prop := Forall (.≠ Byte.x00) l.

(** An array of [INPUT_BUF] characters that holds the string [l]. *)
Definition line_array (l h : list byte) : Prop :=
  nonzero l /\ length h = 128%nat /\ exists t, h = l ++ Byte.x00 :: t.

(** The arrays of the history hold the lines [h]. *)
Definition hist_arrays (hs : list (list byte)) (h : list (list byte)) : Prop :=
  length hs = 16%nat /\
  forall k l, h !! k = Some l -> exists a, hs !! k = Some a /\ line_array l a.

Definition hpos_ok (p : Z) (n : nat) (o : option nat) : Prop :=
  match o with None => p = -1 | Some k => p = Z.of_nat k /\ (k < n)%nat end.

Record rep (x : console) (a : editor) : Prop := mk_rep {
  rep_buf : length (in_buf x) = 128%nat;
  rep_r : 0 <= in_r x < 2 ^ 32;
  rep_w : in_w x = u32 (in_r x + Z.of_nat (length (ready a)));
  rep_e : in_e x = u32 (in_r x + Z.of_nat (length (ready a) + length (pend a)));
  rep_fits : fits a;
  rep_ring : ring x (in_r x) (ready a ++ pend a);
  rep_line : line_start x = in_w x;
  rep_pend : nonzero (pend a) /\ Forall (.≠ NL) (pend a);
  rep_len : history_len x = Z.of_nat (length (hist a)) /\ (length (hist a) <= 16)%nat;
  rep_hist : hist_arrays (history x) (hist a);
  rep_arr : Forall (fun h => length h = 128%nat) (history x);
  rep_nl : Forall (fun l => Forall (.≠ NL) l) (hist a);
  rep_pos : hpos_ok (history_pos x) (length (hist a)) (hpos a);
  rep_crt : crt_ok x;
}.

Lemma printed_rep x x' a : printed x x' -> rep x a -> rep x' a.
Proof. intros [? (p & l & ->)] []. by constructor. Qed.

Lemma u32_mod128 y : u32 y mod INPUT_BUF = y mod INPUT_BUF.
Proof.
  unfold u32, INPUT_BUF. change (2 ^ 32) with (128 * 33554432).
  apply Z.mod_mod_divide. exists 33554432. lia.
Qed.

Lemma in_at_u32 x y : in_at x (u32 y) = in_at x y.
Proof. unfold in_at. by rewrite u32_mod128. Qed.

Lemma u32_diff r n : 0 <= r -> 0 <= n < 2 ^ 32 -> u32 (u32 (r + n) - r) = n.
Proof.
  intros. unfold u32. rewrite Zminus_mod_idemp_l. replace (r + n - r) with n by lia.
  apply Z.mod_small. lia.
Qed.

Lemma u32_step y k : u32 (u32 y + k) = u32 (y + k).
Proof. unfold u32. apply Zplus_mod_idemp_l. Qed.

Lemma ring_put x r l c :
  length (in_buf x) = 128%nat -> (length l <= 127)%nat -> ring x r l ->
  ring (set_in_buf (<[Z.to_nat ((r + Z.of_nat (length l)) mod INPUT_BUF) := c]> (in_buf x)) x) r
    (l ++ [c]).
Proof.
  intros Hb Hl Hr k b Hk. unfold in_at. simpl. unfold INPUT_BUF in *.
  apply lookup_app_Some in Hk as [Hk|[? Hk]].
  - rewrite list_lookup_total_insert_ne; [by apply Hr|].
    apply lookup_lt_Some in Hk. intros E.
    apply Z2Nat.inj in E; [|lia_mod..]. lia_mod.
  - apply list_lookup_singleton_Some in Hk as [Hk <-].
    replace (Z.of_nat k) with (Z.of_nat (length l)) by lia.
    apply list_lookup_total_insert_eq. rewrite Hb. lia_mod.
Qed.

Section Editing.
Context (s : kstate).

(** ** Typing and erasing *)

Lemma put_char_ok x m c a :
  rep x a -> 0 < c < 256 -> c <> 10 -> (length (ready a) + length (pend a) < 127)%nat ->
  exists x', put_char c (with_tty s x m) = Ok tt (with_tty s x' m) /\
    rep x' (mk_editor (ready a) (pend a ++ [byte.of_Z c]) (hist a) (hpos a)).
Proof.
  intros [] Hc Hn Hl. eexists. split; [apply put_cons_eq|].
  constructor; cbn -[u32]; try done.
  - by rewrite length_insert.
  - rewrite rep_e0, u32_step, length_app. cbn [length]. f_equal. lia.
  - unfold fits in *. cbn [ready pend]. rewrite length_app. cbn [length]. lia.
  - rewrite app_assoc, rep_e0, u32_mod128, <- length_app.
    apply (ring_put x); [done|by rewrite length_app|done].
  - split; (apply Forall_app; split; [apply rep_pend0|]); constructor; try done;
      intros E; apply (f_equal byte.unsigned) in E; rewrite byte.unsigned_of_Z in E;
      unfold byte.wrap in E; rewrite Z.mod_small in E by lia; cbn in E; lia.
Qed.

Lemma erase_char_ok x m a l b :
  rep x a -> pend a = l ++ [b] ->
  exists x' m', erase_char (with_tty s x m) = Ok tt (with_tty s x' m') /\
    rep x' (mk_editor (ready a) l (hist a) (hpos a)).
Proof.
  intros [] Hl. unfold erase_char. rewrite (bind_ok _ _ _ _ _ (put_cons_eq _ _ _ _)).
  destruct (consputc_ok BACKSPACE s (set_in_e (u32 (in_e x - 1)) x) m) as (x' & m' & -> & Hp).
  { done. }
  eexists _, _. split; [done|]. apply (printed_rep _ _ _ Hp).
  rewrite Hl in *. unfold fits in *. rewrite Hl, length_app in *. cbn [length] in *.
  destruct rep_pend0 as [H1%Forall_app H2%Forall_app].
  constructor; cbn -[u32]; try done.
  - rewrite rep_e0. unfold Z.sub. rewrite u32_step. f_equal. lia.
  - unfold fits. cbn [ready pend]. lia.
  - intros k c Hk. apply rep_ring0. rewrite app_assoc. by apply lookup_app_l_Some.
  - by destruct H1, H2.
Qed.

Lemma pend_length x a : rep x a -> u32 (in_e x - line_start x) = Z.of_nat (length (pend a)).
Proof.
  intros []. unfold fits in *. rewrite rep_line0, rep_e0, rep_w0.
  unfold u32. rewrite <- Zminus_mod, Z.mod_small; lia.
Qed.

Lemma pend_empty x a : rep x a -> (in_e x =? in_w x) = bool_decide (pend a = []).
Proof.
  intros H. pose proof (pend_length _ _ H) as Hl. destruct H. rewrite rep_line0 in Hl.
  destruct (Z.eqb_spec (in_e x) (in_w x)) as [E|E]; symmetry.
  - apply bool_decide_eq_true. rewrite E, Z.sub_diag in Hl. change (u32 0) with 0 in Hl.
    destruct (pend a); [done|]. cbn [length] in Hl. lia.
  - apply bool_decide_eq_false. intros Hp. apply E. rewrite rep_e0, rep_w0, Hp. cbn [length].
    f_equal. lia.
Qed.

(** The line is erased from its end. *)
Lemma clear_line_loop_ok l : forall x m a,
  rep x a -> pend a = l ->
  exists x' m', clear_line_loop (length l) (with_tty s x m) = Ok tt (with_tty s x' m') /\
    rep x' (mk_editor (ready a) [] (hist a) (hpos a)).
Proof.
  induction l as [|b l IH] using rev_ind; intros x m a Hr Hl.
  { eexists _, _. split; [done|]. by destruct a; simpl in *; subst. }
  rewrite length_app, Nat.add_comm. cbn [length Nat.add clear_line_loop].
  destruct (erase_char_ok x m a l b Hr Hl) as (x1 & m1 & E & Hr1).
  rewrite (bind_ok _ _ _ _ _ E). by destruct (IH x1 m1 _ Hr1 eq_refl) as (x2 & m2 & ? & ?); eauto.
Qed.

Lemma rep_cursor x a v : rep x a -> rep (set_cursor v x) a.
Proof. intros []. by constructor. Qed.

Lemma clear_line_ok x m a :
  rep x a -> exists x' m', clear_line (with_tty s x m) = Ok tt (with_tty s x' m') /\
    rep x' (mk_editor (ready a) [] (hist a) (hpos a)).
Proof.
  intros Hr. unfold clear_line. rewrite (bind_ok _ _ _ _ _ (get_cons_eq _ _ _)).
  rewrite (pend_length _ _ Hr), Nat2Z.id.
  destruct (clear_line_loop_ok _ x m a Hr eq_refl) as (x1 & m1 & E & Hr1).
  rewrite (bind_ok _ _ _ _ _ E), (bind_ok _ _ _ _ _ (get_cons_eq _ _ _)).
  eexists _, _. split; [apply put_cons_eq|]. by apply rep_cursor.
Qed.

Lemma kill_line_ok l : forall fuel x m a,
  rep x a -> pend a = l -> (length l <= fuel)%nat ->
  exists x' m', kill_line fuel (with_tty s x m) = Ok tt (with_tty s x' m') /\
    rep x' (mk_editor (ready a) [] (hist a) (hpos a)).
Proof.
  induction l as [|b l IH] using rev_ind; intros fuel x m a Hr Hl Hf.
  - exists x, m. assert (in_e x =? in_w x = true) as E.
    { rewrite (pend_empty _ _ Hr), Hl. done. }
    split; [|by destruct a; simpl in *; subst].
    destruct fuel; cbn [kill_line]; rewrite (bind_ok _ _ _ _ _ (get_cons_eq _ _ _)), E; done.
  - rewrite length_app in Hf. cbn [length] in Hf. destruct fuel as [|fuel]; [lia|].
    cbn [kill_line]. rewrite (bind_ok _ _ _ _ _ (get_cons_eq _ _ _)).
    rewrite (pend_empty _ _ Hr), bool_decide_false by (rewrite Hl; by destruct l).
    assert (in_at x (u32 (in_e x - 1)) = b) as ->.
    { destruct Hr. rewrite rep_e0. unfold Z.sub. rewrite u32_step, in_at_u32, Hl, length_app.
      cbn [length]. replace (in_r x + _ + -1) with
        (in_r x + Z.of_nat (length (ready a) + length l)) by lia.
      apply rep_ring0. rewrite Hl, app_assoc. rewrite lookup_app_r by (rewrite length_app; lia).
      by rewrite length_app, Nat.sub_diag. }
    rewrite bool_decide_false.
    2: { destruct (rep_pend _ _ Hr) as [_ Hn]. rewrite Hl, Forall_app in Hn.
         destruct Hn as [_ Hn]. by apply Forall_cons in Hn as [? _]. }
    cbn [negb andb]. destruct (erase_char_ok x m a l b Hr Hl) as (x1 & m1 & E & Hr1).
    rewrite (bind_ok _ _ _ _ _ E).
    destruct (IH fuel x1 m1 _ Hr1 eq_refl ltac:(lia)) as (x2 & m2 & ? & ?). eauto.
Qed.

(** ** The history *)

(** The characters [l] of a stored line are typed again. *)
Lemma load_chars_ok l t : forall x m a,
  rep x a -> nonzero l -> Forall (.≠ NL) l ->
  (length (ready a) + length (pend a) + length l <= 127)%nat ->
  exists x' m', load_chars (l ++ Byte.x00 :: t) (with_tty s x m) = Ok tt (with_tty s x' m') /\
    rep x' (mk_editor (ready a) (pend a ++ l) (hist a) (hpos a)).
Proof.
  induction l as [|b l IH]; intros x m a Hr Hz Hn Hf.
  { exists x, m. rewrite app_nil_r. destruct a. split; [|done].
    cbn [app load_chars]. by rewrite (bind_ok _ _ _ _ _ (get_cons_eq _ _ _)). }
  apply Forall_cons in Hz as [Hb Hz]. apply Forall_cons in Hn as [Hbn Hn].
  cbn [length] in Hf. cbn [app load_chars]. rewrite (bind_ok _ _ _ _ _ (get_cons_eq _ _ _)).
  rewrite bool_decide_false by done.
  rewrite (rep_e _ _ Hr), u32_diff by (destruct Hr; unfold fits in *; lia).
  destruct (Z.ltb_spec (Z.of_nat (length (ready a) + length (pend a))) INPUT_BUF) as [_|?];
    [|unfold INPUT_BUF in *; lia]. cbn [negb orb].
  assert (Hu : 0 < byte.unsigned b < 256 /\ byte.unsigned b <> 10).
  { pose proof (byte.unsigned_range b).
    assert (byte.unsigned b <> 0) by (rewrite unsigned_zero_iff; done).
    split; [lia|]. intros E. apply Hbn. apply byte.unsigned_inj. done. }
  destruct (put_char_ok x m (byte.unsigned b) a Hr) as (x1 & E1 & Hr1); [tauto..|lia|].
  rewrite (bind_ok _ _ _ _ _ E1). rewrite byte.of_Z_unsigned in Hr1.
  destruct (consputc_ok (schar b) s x1 m (rep_crt _ _ Hr1)) as (x2 & m2 & E2 & Hp).
  rewrite (bind_ok _ _ _ _ _ E2).
  destruct (IH x2 m2 _ (printed_rep _ _ _ Hp Hr1) Hz Hn) as (x3 & m3 & E3 & Hr3).
  { cbn [ready pend]. rewrite length_app. cbn [length]. lia. }
  exists x3, m3. split; [done|]. cbn [ready pend hist hpos] in Hr3. by rewrite <- app_assoc in Hr3.
Qed.

Lemma rep_set_pos x a p o :
  rep x a -> hpos_ok p (length (hist a)) o ->
  rep (set_history_pos p x) (mk_editor (ready a) (pend a) (hist a) o).
Proof. intros [] Hp. by constructor. Qed.

Lemma load_history_ok x m a k l :
  rep x a -> hpos a = Some k -> hist a !! k = Some l -> (length (ready a) + length l <= 127)%nat ->
  exists x' m', load_history (Z.of_nat k) (with_tty s x m) = Ok tt (with_tty s x' m') /\
    rep x' (show_line k a).
Proof.
  intros Hr Hk Hl Hf. unfold load_history. rewrite (bind_ok _ _ _ _ _ (get_cons_eq _ _ _)).
  pose proof (lookup_lt_Some _ _ _ Hl) as Hlt.
  destruct (Z.ltb_spec (Z.of_nat k) 0); [lia|].
  destruct (Z.leb_spec (history_len x) (Z.of_nat k)) as [H1|_].
  { destruct (rep_len _ _ Hr). lia. }
  cbn [orb]. rewrite Nat2Z.id.
  destruct (clear_line_ok x m a Hr) as (x1 & m1 & E1 & Hr1). rewrite (bind_ok _ _ _ _ _ E1).
  destruct (proj2 (rep_hist _ _ Hr) _ _ Hl) as (h & Hh & Hz & _ & t & ->).
  rewrite (list_lookup_total_correct _ _ _ Hh).
  destruct (load_chars_ok l t x1 m1 _ Hr1 Hz) as (x2 & m2 & E2 & Hr2).
  { eapply Forall_lookup_1 in Hl; [exact Hl|apply (rep_nl _ _ Hr)]. }
  { cbn [ready pend length]. lia. }
  rewrite (bind_ok _ _ _ _ _ E2), (bind_ok _ _ _ _ _ (get_cons_eq _ _ _)).
  eexists _, _. split; [apply put_cons_eq|]. apply rep_cursor. unfold show_line.
  rewrite Hl. cbn [default]. by rewrite <- Hk.
Qed.

End Editing.

Lemma cstr_line l t : nonzero l -> cstr (l ++ Byte.x00 :: t) = l.
Proof. intros H. induction H; simpl; [done|]. rewrite decide_False by done. by f_equal. Qed.

Lemma put_line_array l h :
  nonzero l -> (length l <= 127)%nat -> length h = 128%nat -> line_array l (put_line l h).
Proof.
  intros Hz Hl Hh. unfold put_line.
  assert (cstr l = l) as ->.
  { rewrite <- (cstr_app_zeros l 0 Hz) at 2. by rewrite app_nil_r. }
  rewrite take_ge by (change (Z.to_nat (INPUT_BUF - 1)) with 127%nat; lia).
  split; [done|]. split; [rewrite length_splice; [done|rewrite length_app; cbn [length]; lia]|].
  eexists. unfold splice. rewrite take_0. cbn [app]. by rewrite <- app_assoc.
Qed.

Lemma put_line_copy l h h' :
  line_array l h -> length h' = 128%nat -> line_array l (put_line h h').
Proof.
  intros (Hz & Hl & t & ->) Hh. rewrite length_app in Hl. cbn [length] in Hl.
  unfold put_line. rewrite cstr_line by done.
  assert (put_line l h' = splice 0 (take (Z.to_nat (INPUT_BUF - 1)) l ++ [Byte.x00]) h') as <-.
  { unfold put_line. do 3 f_equal. rewrite <- (cstr_app_zeros l 0 Hz) at 2. by rewrite app_nil_r. }
  apply put_line_array; [done|lia|done].
Qed.

Lemma lookup_shift_history hs k h1 h2 :
  hs !! k = Some h1 -> hs !! S k = Some h2 -> shift_history hs !! k = Some (put_line h2 h1).
Proof.
  revert k. induction hs as [|a hs IH]; intros k H1 H2; [done|].
  destruct hs as [|b hs]; [by destruct k|]. destruct k as [|k].
  - simpl in *. by simplify_eq.
  - change (shift_history (b :: hs) !! k = Some (put_line h2 h1)). by apply IH.
Qed.

Lemma length_shift_history hs : length (shift_history hs) = length hs.
Proof.
  induction hs as [|a [|b hs] IH]; [done..|].
  change (S (length (shift_history (b :: hs))) = S (length (b :: hs))). by rewrite IH.
Qed.

(** ** The end of a line *)

Definition newline (a : editor) : editor :=
  mk_editor (ready a ++ pend a ++ [NL]) [] (push_line (pend a) (hist a)) None.

(** The terminal once the newline is in the ring. *)
Definition typed_nl (x : console) : console :=
  set_in_e (u32 (in_e x + 1))
    (set_in_buf (<[Z.to_nat (in_e x mod INPUT_BUF) := NL]> (in_buf x)) x).

Lemma typed_nl_ring x a :
  rep x a -> ring (typed_nl x) (in_r x) (ready a ++ pend a ++ [NL]).
Proof.
  intros []. unfold fits in *. rewrite app_assoc. unfold typed_nl.
  rewrite rep_e0, u32_mod128, <- length_app.
  apply (ring_put x); [done|rewrite length_app; lia|done].
Qed.

Lemma finished_line_nl x a y :
  rep x a -> in_buf y = in_buf (typed_nl x) -> in_e y = in_e (typed_nl x) ->
  line_start y = line_start x -> finished_line y = pend a.
Proof.
  intros Hr Hb He Hs. pose proof (typed_nl_ring _ _ Hr) as Hg.
  unfold finished_line. rewrite Hs, He.
  replace (u32 (in_e (typed_nl x) - 1 - line_start x)) with (Z.of_nat (length (pend a))).
  2: { rewrite <- (pend_length _ _ Hr). cbn [in_e typed_nl set_in_e]. unfold u32.
       rewrite <- Z.sub_add_distr, Zminus_mod_idemp_l. f_equal. lia. }
  rewrite Nat2Z.id, Nat.min_l.
  2: { destruct Hr. unfold fits in *. change (Z.to_nat (INPUT_BUF - 1)) with 127%nat. lia. }
  apply list_eq. intros k. rewrite list_lookup_fmap.
  destruct (decide (k < length (pend a))%nat) as [Hk|Hk].
  - rewrite lookup_seq_lt by done. cbn [fmap option_fmap option_map].
    destruct (lookup_lt_is_Some_2 _ _ Hk) as [b Hb']. rewrite Hb'. f_equal.
    rewrite (rep_line _ _ Hr), (rep_w _ _ Hr), u32_step, in_at_u32.
    transitivity (in_at (typed_nl x) (in_r x + Z.of_nat (length (ready a)) + Z.of_nat k));
      [unfold in_at; by rewrite Hb|].
    replace (in_r x + Z.of_nat (length (ready a)) + Z.of_nat k)
      with (in_r x + Z.of_nat (length (ready a) + k)) by lia.
    apply Hg. rewrite lookup_app_r by lia. rewrite lookup_app_l by lia.
    by replace (length (ready a) + k - length (ready a))%nat with k by lia.
  - rewrite (lookup_ge_None_2 (pend a)) by lia.
    by rewrite lookup_seq_ge by lia.
Qed.

Lemma hist_arrays_full hs h :
  hist_arrays hs h -> length h = 16%nat -> hist_arrays (shift_history hs) (drop 1 h).
Proof.
  intros [Hl Hh] Hn. split; [by rewrite length_shift_history|].
  intros k l Hk. rewrite lookup_drop in Hk.
  destruct (Hh _ _ Hk) as (a2 & Ha2 & Hla). pose proof (lookup_lt_Some _ _ _ Hk).
  destruct (lookup_lt_is_Some_2 h k ltac:(lia)) as [l1 Hl1].
  destruct (Hh _ _ Hl1) as (a1 & Ha1 & _ & Hlen & _).
  exists (put_line a2 a1). split; [by apply lookup_shift_history|]. by apply put_line_copy.
Qed.

Lemma hist_arrays_push hs h l :
  hist_arrays hs h -> Forall (fun a => length a = 128%nat) hs ->
  nonzero l -> (length l <= 127)%nat -> (length h < 16)%nat ->
  hist_arrays (alter (put_line l) (length h) hs) (h ++ [l]).
Proof.
  intros [Hl Hh] Ha Hz Hlen Hn. split; [by rewrite length_alter|].
  intros k l' Hk. apply lookup_app_Some in Hk as [Hk|[Hk1 Hk]].
  - destruct (Hh _ _ Hk) as (a & Ha' & Hla). exists a.
    rewrite list_lookup_alter_ne by (apply lookup_lt_Some in Hk; lia). done.
  - apply list_lookup_singleton_Some in Hk as [Hk <-].
    replace k with (length h) by lia.
    destruct (lookup_lt_is_Some_2 hs (length h) ltac:(lia)) as [a Ha'].
    exists (put_line l a). rewrite list_lookup_alter_eq, Ha'. split; [done|].
    apply put_line_array; [done..|]. exact (Forall_lookup_1 _ _ _ _ Ha Ha').
Qed.

Lemma Forall_shift_history hs :
  Forall (fun a => length a = 128%nat) hs ->
  Forall (fun a => length a = 128%nat) (shift_history hs).
Proof.
  induction hs as [|a [|b hs] IH]; intros H; [done..|].
  apply Forall_cons in H as [Ha H].
  change (Forall (fun a => length a = 128%nat) (put_line b a :: shift_history (b :: hs))).
  constructor; [|by apply IH]. unfold put_line. rewrite length_splice; [done|].
  rewrite length_app, length_take, Ha. cbn [length]. unfold INPUT_BUF. lia.
Qed.

(** What [store_history] does with the arrays refines [push_line]. *)
Lemma push_line_arrays hs h l :
  hist_arrays hs h -> Forall (fun a => length a = 128%nat) hs -> (length h <= 16)%nat ->
  nonzero l -> (length l <= 127)%nat -> l <> [] ->
  let p := if Z.of_nat (length h) =? HISTORY_SIZE
           then (shift_history hs, Z.of_nat (length h) - 1) else (hs, Z.of_nat (length h)) in
  let hs' := alter (put_line l) (Z.to_nat (snd p)) (fst p) in
  hist_arrays hs' (push_line l h) /\ Forall (fun a => length a = 128%nat) hs' /\
  snd p + 1 = Z.of_nat (length (push_line l h)) /\ (length (push_line l h) <= 16)%nat.
Proof.
  intros Hh Ha Hn Hz Hl Hne. unfold push_line, HISTORY_SIZE. rewrite decide_False by done.
  assert (Hp : forall hs, Forall (fun a => length a = 128%nat) hs ->
    forall k, Forall (fun a => length a = 128%nat) (alter (put_line l) k hs)).
  { clear - Hz Hl. intros hs Ha k. apply Forall_alter; [done|]. intros x Hx Hlx.
    by destruct (put_line_array l x Hz Hl Hlx) as (_ & ? & _). }
  destruct (Z.eqb_spec (Z.of_nat (length h)) 16) as [E|E]; cbn [fst snd].
  - rewrite decide_True by lia. rewrite length_app, length_drop. cbn [length].
    assert (Hd : Z.to_nat (Z.of_nat (length h) - 1) = length (drop 1 h))
      by (rewrite length_drop; lia).
    rewrite Hd. split_and!; [|by apply Hp, Forall_shift_history|lia|lia].
    apply hist_arrays_push; [apply hist_arrays_full; [done|lia]|by apply Forall_shift_history|done..|].
    rewrite length_drop. lia.
  - rewrite decide_False by lia. rewrite length_app, Nat2Z.id. cbn [length].
    split_and!; [apply hist_arrays_push; [done..|lia]|by apply Hp|lia|lia].
Qed.

Lemma store_history_ok x a y :
  rep x a -> (length (ready a) + length (pend a) < 127)%nat ->
  printed (typed_nl x) y -> rep (store_history (set_in_w (in_e y) y)) (newline a).
Proof.
  intros Hr Hf [Hc (p & ser & ->)]. unfold store_history.
  rewrite (finished_line_nl x a) by done.
  set (y := set_in_w _ _). pose proof (typed_nl_ring _ _ Hr) as Hring.
  destruct Hr as [H1 H2 H3 H4 H5 H6 H7 H8 H9 H10 H11 H12 H13 H14]. unfold fits in *.
  assert (Hw : u32 (in_e x + 1) = u32 (in_r x + Z.of_nat (length (ready a ++ pend a ++ [NL])))).
  { rewrite H4, u32_step, !length_app. cbn [length]. f_equal. lia. }
  assert (He : u32 (in_e x + 1) =
               u32 (in_r x + Z.of_nat (length (ready a ++ pend a ++ [NL]) + 0)))
    by (rewrite Hw; f_equal; lia).
  assert (Hfit : (length (ready a ++ pend a ++ [NL]) + 0 <= 127)%nat)
    by (rewrite !length_app; cbn [length]; lia).
  assert (Hr0 : forall hs n, hist_arrays hs (push_line (pend a) (hist a)) ->
    Forall (fun a => length a = 128%nat) hs -> n = Z.of_nat (length (push_line (pend a) (hist a))) ->
    (length (push_line (pend a) (hist a)) <= 16)%nat ->
    Forall (fun l => Forall (.≠ NL) l) (push_line (pend a) (hist a)) ->
    rep (set_cursor (in_e y) (set_line_start (in_e y) (set_history_pos (-1)
           (set_history hs n y)))) (newline a)).
  { intros hs n Q1 Q2 Q3 Q4 Q5. unfold newline. constructor;
      cbn -[u32 push_line]; rewrite ?app_nil_r, ?length_insert; try done.
    by split; apply Forall_nil_2. }
  destruct H9 as [H9 H9'], H8 as [H8 H8']. unfold push_line in *.
  destruct (decide (pend a = [])) as [E|E].
  - rewrite E. cbn [length Nat.ltb Nat.leb]. by apply (Hr0 (history x) (history_len x)).
  - pose proof (push_line_arrays _ _ _ H10 H11 H9' H8 ltac:(lia) E) as (G1 & G2 & G3 & G4).
    unfold push_line in *. rewrite decide_False in * by done.
    destruct (Nat.ltb_spec 0 (length (pend a))) as [_|?]; [|destruct (pend a); [done|simpl in *; lia]].
    change (history_len y) with (history_len x). change (history y) with (history x). rewrite H9.
    destruct (Z.of_nat (length (hist a)) =? HISTORY_SIZE); apply Hr0; try done;
      (apply Forall_app; split; [|by constructor]); destruct (decide _); try done;
      by apply Forall_drop.
Qed.

(** ** One key *)

(** The processes before and after a key: those that wait for input are woken
    by the end of a line, and by nothing else. *)
Definition is_nl (c : Z) : bool := (c =? 10) || (c =? 13).
Definition wake (nl : bool) (ps : list proc) : list proc :=
  if nl then map (wakeup1_proc input_chan) ps else ps.

Definition tty_env (s : kstate) : Prop :=
  lock_free ptable_lock s /\ cpu_wf (this_cpu s) /\ cpu_norm (this_cpu s) = this_cpu s.

(** [s'] is a state in which the terminal is [a] and the rest of [s] is kept. *)
Definition key_done (s s' : kstate) (nl : bool) (a : editor) : Prop :=
  locks s' = locks s /\ this_cpu s' = this_cpu s /\ procs s' = wake nl (procs s) /\
  rep (tty (fs s')) a.

Lemma key_done_quiet s x m a : rep x a -> key_done s (with_tty s x m) false a.
Proof. done. Qed.

Lemma room x a :
  rep x a -> (length (ready a) + length (pend a) <= 127)%nat ->
  (u32 (in_e x - in_r x) <? INPUT_BUF) = true.
Proof.
  intros [] Hl. rewrite rep_e0, u32_diff by lia. unfold INPUT_BUF. apply Z.ltb_lt. lia.
Qed.

Lemma not_full x a :
  rep x a -> (in_e x =? u32 (in_r x + INPUT_BUF)) = false.
Proof.
  intros []. unfold fits, INPUT_BUF in *. rewrite rep_e0. apply Z.eqb_neq. unfold u32. intros E.
  apply (f_equal (fun z => (z - in_r x) mod 2 ^ 32)) in E. rewrite !Zminus_mod_idemp_l in E.
  replace (in_r x + 128 - in_r x) with 128 in E by lia.
  replace (in_r x + Z.of_nat (length (ready a) + length (pend a)) - in_r x)
    with (Z.of_nat (length (ready a) + length (pend a))) in E by lia.
  rewrite !Z.mod_small in E by lia. lia.
Qed.

Lemma key_char_plain s x m a c :
  rep x a -> 0 < c < 256 -> c <> 10 -> c <> 13 -> c <> Ctl 68 ->
  (length (ready a) + length (pend a) < 127)%nat ->
  exists s', key_char c (with_tty s x m) = Ok tt s' /\
    key_done s s' false (mk_editor (ready a) (pend a ++ [byte.of_Z c]) (hist a) (hpos a)).
Proof.
  intros Hr Hc H10 H13 Hd Hf. unfold key_char.
  rewrite (bind_ok _ _ _ _ _ (get_cons_eq _ _ _)), (room _ a) by (done || lia).
  destruct (Z.eqb_spec c 0); [lia|]. destruct (Z.eqb_spec c 13); [done|]. cbn [negb andb].
  destruct (put_char_ok s x m c a Hr Hc H10 Hf) as (x1 & E1 & Hr1).
  rewrite (bind_ok _ _ _ _ _ E1).
  destruct (consputc_ok c s x1 m (rep_crt _ _ Hr1)) as (x2 & m2 & E2 & Hp).
  rewrite (bind_ok _ _ _ _ _ E2), (bind_ok _ _ _ _ _ (get_cons_eq _ _ _)).
  pose proof (printed_rep _ _ _ Hp Hr1) as Hr2. rewrite (not_full _ _ Hr2).
  destruct (Z.eqb_spec c 10); [done|]. destruct (Z.eqb_spec c (Ctl 68)); [done|]. cbn [orb].
  eexists. split; [done|]. by apply key_done_quiet.
Qed.

Lemma key_char_newline s x m a c :
  tty_env s -> rep x a -> is_nl c = true -> (length (ready a) + length (pend a) < 127)%nat ->
  exists s', key_char c (with_tty s x m) = Ok tt s' /\ key_done s s' true (newline a).
Proof.
  intros (Hl & Hw & Hn) Hr Hc Hf. unfold key_char.
  rewrite (bind_ok _ _ _ _ _ (get_cons_eq _ _ _)), (room _ a) by (done || lia).
  assert (negb (c =? 0) = true /\ (if c =? 13 then 10 else c) = 10) as [-> ->].
  { unfold is_nl in Hc. destruct (Z.eqb_spec c 13), (Z.eqb_spec c 0), (Z.eqb_spec c 10);
      simpl in *; try done; lia. }
  cbn [andb].
  rewrite (bind_ok (put_char 10) _ _ _ _ (put_cons_eq _ _ _ _)). fold NL.
  change (byte.of_Z 10) with NL. fold (typed_nl x).
  destruct (consputc_ok 10 s (typed_nl x) m (rep_crt _ _ Hr)) as (y & m2 & E2 & Hp).
  rewrite (bind_ok _ _ _ _ _ E2), (bind_ok _ _ _ _ _ (get_cons_eq _ _ _)). cbn [Z.eqb Pos.eqb orb].
  rewrite (bind_ok _ _ _ _ _ (put_cons_eq _ _ _ _)).
  rewrite (bind_ok _ _ _ _ _ (wakeup_eq _ (with_tty s (set_in_w (in_e y) y) m2) Hl Hw)).
  eexists. split; [done|]. split_and!; [done..|]. by apply (store_history_ok x).
Qed.

Lemma erase_key s x m a :
  rep x a ->
  exists s', (y <- get_cons ;; when (negb (in_e y =? in_w y)) do erase_char) (with_tty s x m) =
             Ok tt s' /\
    key_done s s' false (mk_editor (ready a) (removelast (pend a)) (hist a) (hpos a)).
Proof.
  intros Hr. rewrite (bind_ok _ _ _ _ _ (get_cons_eq _ _ _)), (pend_empty _ _ Hr).
  case_bool_decide as E; cbn [negb].
  - eexists. split; [done|]. destruct a as [? p ? ?]. cbn in *. subst p. by apply key_done_quiet.
  - destruct (exists_last E) as (l & b & Hl).
    destruct (erase_char_ok s x m a l b Hr Hl) as (x1 & m1 & -> & Hr1).
    eexists. split; [done|]. rewrite Hl, removelast_last. by apply key_done_quiet.
Qed.

(** The entry that [KEY_UP] shows. *)
Definition up_pos (a : editor) : nat :=
  match hpos a with None => length (hist a) - 1 | Some k => k - 1 end.

Lemma show_key s x m a k :
  rep x a -> (k < length (hist a))%nat -> fits (show_line k a) ->
  exists s', (put_cons (set_history_pos (Z.of_nat k)) ;; load_history (Z.of_nat k)) (with_tty s x m) =
             Ok tt s' /\ key_done s s' false (show_line k a).
Proof.
  intros Hr Hk Hf. destruct (lookup_lt_is_Some_2 _ _ Hk) as [l Hl].
  rewrite (bind_ok _ _ _ _ _ (put_cons_eq _ _ _ _)).
  destruct (load_history_ok s (set_history_pos (Z.of_nat k) x) m
    (mk_editor (ready a) (pend a) (hist a) (Some k)) k l) as (x1 & m1 & -> & Hr1).
  - by apply rep_set_pos.
  - done.
  - done.
  - unfold fits, show_line in Hf. cbn [ready pend] in *. rewrite Hl in Hf. done.
  - eexists. split; [done|]. by apply key_done_quiet.
Qed.

Lemma key_up_ok s x m a :
  rep x a -> fits (edit a KEY_UP) ->
  exists s', key_up (with_tty s x m) = Ok tt s' /\ key_done s s' false (edit a KEY_UP).
Proof.
  intros Hr Hf. unfold key_up. rewrite (bind_ok _ _ _ _ _ (get_cons_eq _ _ _)).
  change (edit a KEY_UP) with (match hist a with [] => a | _ => show_line (up_pos a) a end) in *.
  destruct (rep_len _ _ Hr) as [Hl Hl16]. pose proof (rep_pos _ _ Hr) as Hpos.
  destruct (hist a) as [|l0 h] eqn:Eh.
  { rewrite Hl. eexists. split; [done|]. by apply key_done_quiet. }
  rewrite <- Eh in *. assert (0 < length (hist a))%nat by (rewrite Eh; cbn [length]; lia).
  clear l0 h Eh.
  destruct (Z.ltb_spec 0 (history_len x)) as [_|?]; [|lia].
  assert (up_pos a < length (hist a))%nat.
  { unfold up_pos. destruct (hpos a); cbn [hpos_ok] in Hpos; lia. }
  replace (if history_pos x =? -1 then _ else _) with (Z.of_nat (up_pos a)); [by apply show_key|].
  unfold up_pos. destruct (hpos a) as [k|]; cbn [hpos_ok] in Hpos.
  - destruct Hpos as [-> Hk]. destruct (Z.eqb_spec (Z.of_nat k) (-1)); [lia|].
    destruct (Z.ltb_spec 0 (Z.of_nat k)); lia.
  - rewrite Hpos, Hl. cbn [Z.eqb Pos.eqb]. lia.
Qed.

Lemma key_down_ok s x m a :
  rep x a -> fits (edit a KEY_DN) ->
  exists s', key_down (with_tty s x m) = Ok tt s' /\ key_done s s' false (edit a KEY_DN).
Proof.
  intros Hr Hf. unfold key_down. rewrite (bind_ok _ _ _ _ _ (get_cons_eq _ _ _)).
  change (edit a KEY_DN) with
    (match hpos a with
     | None => a
     | Some k => if decide (k < length (hist a) - 1)%nat then show_line (S k) a
                 else mk_editor (ready a) [] (hist a) None
     end) in *.
  destruct (rep_len _ _ Hr) as [Hl _].
  pose proof (rep_pos _ _ Hr) as Hpos. destruct (hpos a) as [k|] eqn:Ek; cbn [hpos_ok] in Hpos.
  2: { rewrite Hpos. eexists. split; [done|]. by apply key_done_quiet. }
  destruct Hpos as [Hk Hkl]. rewrite Hk, Hl.
  destruct (Z.eqb_spec (Z.of_nat k) (-1)); [lia|]. cbn [negb].
  destruct (decide (k < length (hist a) - 1)%nat) as [Hlt|Hge].
  - destruct (Z.ltb_spec (Z.of_nat k) (Z.of_nat (length (hist a)) - 1)) as [_|?]; [|lia].
    replace (Z.of_nat k + 1) with (Z.of_nat (S k)) by lia. apply show_key; [done|lia|done].
  - destruct (Z.ltb_spec (Z.of_nat k) (Z.of_nat (length (hist a)) - 1)) as [?|_]; [lia|].
    rewrite (bind_ok _ _ _ _ _ (put_cons_eq _ _ _ _)).
    destruct (clear_line_ok s (set_history_pos (-1) x) m
      (mk_editor (ready a) (pend a) (hist a) None)) as (x1 & m1 & E & Hr1);
      [by apply rep_set_pos|].
    rewrite E. eexists. split; [done|]. by apply key_done_quiet.
Qed.

Lemma tab_key_ok s x m a :
  rep x a -> fits (edit a 9) ->
  exists s', (y <- get_cons ;; when (u32 (in_e y - in_r y) <? INPUT_BUF) do put_char 9)
               (with_tty s x m) = Ok tt s' /\ key_done s s' false (edit a 9).
Proof.
  intros Hr Hf. rewrite (bind_ok _ _ _ _ _ (get_cons_eq _ _ _)).
  change (edit a 9) with (mk_editor (ready a) (pend a ++ [byte.of_Z 9]) (hist a) (hpos a)) in *.
  unfold fits in Hf. cbn [ready pend] in Hf. rewrite length_app in Hf. cbn [length] in Hf.
  rewrite (room _ a) by (done || lia).
  destruct (put_char_ok s x m 9 a) as (x1 & E1 & Hr1); [done|lia..|].
  eexists. split; [exact E1|]. by apply key_done_quiet.
Qed.

Lemma console_key_ok s x m a c :
  tty_env s -> rep x a -> key_ok c -> fits (edit a c) ->
  exists s', console_key c (with_tty s x m) = Ok tt s' /\ key_done s s' (is_nl c) (edit a c).
Proof.
  intros Henv Hr (Hc & Hz & Hp & Hd) Hf. unfold console_key.
  destruct (Z.eqb_spec c (Ctl 90)); [done|]. destruct (Z.eqb_spec c (Ctl 80)); [done|].
  destruct (is_nl c) eqn:Hnl.
  { assert (c = 10 \/ c = 13) as Hcc by (unfold is_nl in Hnl; lia).
    assert (He : edit a c = newline a) by by destruct Hcc as [->| ->].
    rewrite He in *. destruct (key_char_newline s x m a c) as (s' & E & Hk); [done..| |].
    { unfold fits in Hf. cbn [ready pend newline] in Hf. rewrite !length_app in Hf.
      cbn [length] in Hf. lia. }
    exists s'. split; [|done]. by destruct Hcc as [->| ->]. }
  destruct (Z.eqb_spec c (Ctl 85)) as [->|H85].
  { destruct (kill_line_ok s _ (Z.to_nat INPUT_BUF) x m a Hr eq_refl) as (x1 & m1 & E & Hr1).
    { destruct Hr. unfold fits in *. change (Z.to_nat INPUT_BUF) with 128%nat. lia. }
    rewrite E. eexists. split; [done|]. by apply key_done_quiet. }
  destruct ((c =? Ctl 72) || (c =? 0x7f)) eqn:Hbs.
  { assert (edit a c = mk_editor (ready a) (removelast (pend a)) (hist a) (hpos a)) as ->.
    { assert (c = 8 \/ c = 127) as [->| ->] by (unfold Ctl in Hbs; lia); done. }
    by apply erase_key. }
  destruct (Z.eqb_spec c 9) as [->|H9]; [by apply tab_key_ok|].
  destruct (Z.eqb_spec c KEY_UP) as [->|Hup]; [by apply key_up_ok|].
  destruct (Z.eqb_spec c KEY_DN) as [->|Hdn]; [by apply key_down_ok|].
  assert (He : edit a c = mk_editor (ready a) (pend a ++ [byte.of_Z c]) (hist a) (hpos a)).
  { unfold edit. fold (is_nl c). rewrite Hnl, Hbs. by rewrite !(proj2 (Z.eqb_neq _ _)). }
  rewrite He in *. unfold is_nl in Hnl. apply orb_false_elim in Hnl as [?%Z.eqb_neq ?%Z.eqb_neq].
  apply key_char_plain; try done.
  unfold fits in Hf. cbn [ready pend] in Hf. rewrite length_app in Hf. cbn [length] in Hf. lia.
Qed.

(** ** The interrupt *)

Fixpoint fits_all (a : editor) (cs : list Z) : Prop :=
  match cs with
  | [] => True
  | c :: cs => fits (edit a c) /\ fits_all (edit a c) cs
  end.

#[export] Instance fits_all_dec cs : forall a, Decision (fits_all a cs).
Proof. unfold fits. induction cs; intros a0; simpl; apply _. Defined.

Lemma wake_wake b1 b2 ps : wake b2 (wake b1 ps) = wake (b1 || b2) ps.
Proof.
  destruct b1, b2; try done. unfold wake. cbn [orb]. rewrite map_map. apply map_ext. intros p.
  unfold wakeup1_proc. destruct (bool_decide (state p = SLEEPING) && (chan p =? input_chan)) eqn:E.
  - by rewrite bool_decide_false.
  - by rewrite E.
Qed.

Lemma console_keys_ok cs : forall s a,
  tty_env s -> rep (tty (fs s)) a -> Forall key_ok cs -> fits_all a cs ->
  exists s', for_each cs console_key s = Ok tt s' /\
    key_done s s' (existsb is_nl cs) (fold_left edit cs a).
Proof.
  induction cs as [|c cs IH]; intros s a Henv Hr Hk Hf; [by eexists|].
  apply Forall_cons in Hk as [Hc Hk]. destruct Hf as [Hf1 Hf].
  destruct (console_key_ok s (tty (fs s)) (mem s) a c Henv Hr Hc Hf1) as (s1 & E1 & L1 & C1 & P1 & R1).
  rewrite with_tty_id in E1. cbn [for_each]. rewrite (bind_ok _ _ _ _ _ E1).
  destruct (IH s1 (edit a c)) as (s2 & E2 & L2 & C2 & P2 & R2); [|done..|].
  { destruct Henv as ([n Hn] & ? & ?). unfold tty_env, lock_free. rewrite L1, C1. eauto. }
  exists s2. split; [done|]. split_and!; [by rewrite L2|by rewrite C2| |done].
  rewrite P2, P1. apply wake_wake.
Qed.

Lemma consoleintr_ok s a cs :
  lock_free input_lock s -> lock_free ptable_lock s -> cpu_wf (this_cpu s) ->
  rep (tty (fs s)) a -> Forall key_ok cs -> fits_all a cs ->
  exists s', consoleintr cs s = Ok tt s' /\ rep (tty (fs s')) (fold_left edit cs a) /\
    procs s' = wake (existsb is_nl cs) (procs s).
Proof.
  intros Hi [n Hp] Hw Hr Hk Hf. unfold consoleintr.
  rewrite (bind_ok _ _ _ _ _ (acquire_free _ _ Hi)).
  destruct (console_keys_ok cs (locked_state input_lock s) a) as (s1 & E & L & C & P & R);
    [|done..|].
  { split; [|split; [by apply cpu_wf_pushcli|by apply cpu_norm_pushcli]].
    exists n. cbn [locks locked_state set_locks]. by rewrite lookup_alter_ne. }
  rewrite (bind_ok _ _ _ _ _ E). rewrite (release_held _ _ s); [|done..].
  eexists. split; [done|]. done.
Qed.

(** C26: the console edits lines.  Whatever keys are typed (characters, tab,
    newline, backspace, [^U], and the arrow keys that walk through the history),
    as long as the ring does not fill, the interrupt handler does to the ring
    and the history arrays what the abstract editor does to its lists: readers
    see exactly the finished lines, in order, and every process that waits for
    input is woken when a line ends. *)
Theorem console_edits_lines s a cs :
  lock_free input_lock s -> lock_free ptable_lock s -> cpu_wf (this_cpu s) ->
  rep (tty (fs s)) a -> Forall key_ok cs -> fits_all a cs ->
  exists s', consoleintr cs s = Ok tt s' /\ rep (tty (fs s')) (fold_left edit cs a) /\
    procs s' = wake (existsb is_nl cs) (procs s).
Proof. apply consoleintr_ok. Qed.

(** The terminal at boot. *)
Lemma rep_console0 : rep console0 (mk_editor [] [] [] None).
Proof.
  constructor; [reflexivity|cbn [in_r console0]; lia|reflexivity|reflexivity|unfold fits; cbn; lia|
    |reflexivity|split; apply Forall_nil_2|split; [reflexivity|cbn; lia]|
    |by apply Forall_replicate|apply Forall_nil_2|reflexivity|unfold crt_ok; cbn; lia].
  - intros k b H. by apply lookup_nil_Some in H || done.
  - split; [reflexivity|]. intros k l H. done.
Qed.

Definition demo_tty : kstate :=
  set_locks (<[input_lock := mk_spinlock 0 "input" None]> (locks (Demo.kernel [])))
    (set_fs (fsys0 []) (Demo.kernel [])).

(** [ls], the end of the line, the up arrow and a backspace. *)
Lemma console_edits_lines_witness :
  exists s', consoleintr [0x6c; 0x73; 13; KEY_UP; 8] demo_tty = Ok tt s' /\
    rep (tty (fs s')) (mk_editor [Byte.x6c; Byte.x73; NL] [Byte.x6c] [[Byte.x6c; Byte.x73]]
                         (Some 0%nat)).
Proof.
  destruct (console_edits_lines demo_tty (mk_editor [] [] [] None) [0x6c; 0x73; 13; KEY_UP; 8])
    as (s' & E & R & _).
  - exists "input". vm_compute. reflexivity.
  - exists "ptable". vm_compute. reflexivity.
  - split; cbn; lia.
  - exact rep_console0.
  - unfold key_ok, Ctl, KEY_UP. repeat (apply Forall_cons; split; [lia|]). apply Forall_nil_2.
  - apply (bool_decide_unpack _). vm_compute. exact I.
  - exists s'. split; [exact E|exact R].
Defined.

(** ** A dead console

    [^D] moves [w] without moving [line_start], so that an arrow key erases
    characters that were already handed to the readers. *)

Module DeadConsole.

Definition keys : list Z := [0x6c; 0x73; 13].

(** A process reads the console through an open file: the line [ls], then,
    after [^D], the end of the file; then somebody presses the up arrow. *)
Definition session : K (Z * Z) :=
  consoleinit ;;
  ip <- DemoFs.open_locked DemoFs.name_a ;;
  consoleintr keys ;;
  r1 <- consoleread ip 0 ToVar 10 ;;
  consoleintr [Ctl 68] ;;
  r2 <- consoleread ip 0 ToVar 10 ;;
  consoleintr [KEY_UP] ;;
  ret (fst r1, fst r2).

Definition after : kstate :=
  match session (DemoFs.booted []) with Ok _ s => s | _ => DemoFs.booted [] end.

(** A key that types a character. *)
Definition typing (c : Z) : Prop :=
  c <> Ctl 90 /\ c <> Ctl 80 /\ c <> Ctl 85 /\ c <> Ctl 72 /\ c <> 0x7f /\ c <> KEY_UP /\ c <> KEY_DN.

End DeadConsole.

Lemma key_dead c s :
  DeadConsole.typing c -> (u32 (in_e (tty (fs s)) - in_r (tty (fs s))) <? INPUT_BUF) = false ->
  console_key c s = Ok tt s.
Proof.
  intros (H1 & H2 & H3 & H4 & H5 & H6 & H7) Hf. unfold console_key.
  rewrite !(proj2 (Z.eqb_neq _ _)) by done. cbn [orb].
  destruct (c =? 9); [unfold get_cons; by rewrite bind_gets, Hf|].
  rewrite !(proj2 (Z.eqb_neq _ _)) by done. unfold key_char, get_cons.
  by rewrite bind_gets, Hf, andb_false_r.
Qed.

Lemma keys_dead cs s :
  Forall DeadConsole.typing cs -> (u32 (in_e (tty (fs s)) - in_r (tty (fs s))) <? INPUT_BUF) = false ->
  for_each cs console_key s = Ok tt s.
Proof.
  intros H Hf. induction H as [|c cs Hc _ IH]; [done|]. cbn [for_each].
  by rewrite (bind_ok _ _ _ _ _ (key_dead c s Hc Hf)).
Qed.

