(* ===== verification/PipeSpec.v ===== *)
(** * Pipes are queues of bytes

    [pipe_rep m p l]: the pipe in page [p] holds the bytes [l], oldest first.
    Writing appends to the queue and reading takes from its front; the two
    counters may have wrapped any number of times. *)

From S2P Require Import Prelude Memory CString FsState Machine Spinlock Kalloc Proc Vm Sysarg.
From S2P Require Import Sleeplock Pipe Pages UserMem UserBuf Demo NetDemo.
Local Open Scope Z_scope.
Local Open Scope kernel_scope.

Record pipe_rep (m : memory) (p : Z) (l : list byte) (ro wo : Z) : Prop := mk_pipe_rep {
  pr_fits : (length l <= 512)%nat;
  pr_nwrite : loadZ 4 m (p + p_nwrite) = u32 (loadZ 4 m (p + p_nread) + Z.of_nat (length l));
  pr_ring : forall i b, l !! i = Some b ->
    m (p + p_data + (loadZ 4 m (p + p_nread) + Z.of_nat i) mod PIPESIZE) = b;
  pr_readopen : loadZ 4 m (p + p_readopen) = ro;
  pr_writeopen : loadZ 4 m (p + p_writeopen) = wo;
}.

Lemma u32_mod512 x : u32 x mod PIPESIZE = x mod PIPESIZE.
Proof.
  unfold u32, PIPESIZE. change (2 ^ 32) with (512 * 8388608).
  apply Z.mod_mod_divide. exists 8388608. lia.
Qed.

Lemma u32_add_l x y : u32 (u32 x + y) = u32 (x + y).
Proof. unfold u32. apply Zplus_mod_idemp_l. Qed.

Lemma u32_inj_near x a b : 0 <= a < 2 ^ 32 -> 0 <= b < 2 ^ 32 -> u32 (x + a) = u32 (x + b) -> a = b.
Proof.
  intros Ha Hb E. unfold u32 in E. apply (f_equal (fun z => (z - x) mod 2 ^ 32)) in E.
  rewrite !Zminus_mod_idemp_l in E.
  replace (x + a - x) with a in E by lia. replace (x + b - x) with b in E by lia.
  rewrite !Z.mod_small in E by lia. done.
Qed.

Lemma loadZ4_range m a : 0 <= loadZ 4 m a < 2 ^ 32.
Proof. apply (loadZ_range 4). Qed.

(** ** One byte in, one byte out *)

Definition pushed (m : memory) (p : Z) (c : byte) : memory :=
  let nw := loadZ 4 m (p + p_nwrite) in
  store_bytes (storeZ 4 m (p + p_nwrite) (u32 (nw + 1))) (p + p_data + nw mod PIPESIZE) [c].

Lemma ring_slot x : 0 <= x mod PIPESIZE < 512.
Proof. unfold PIPESIZE. apply Z.mod_pos_bound. lia. Qed.

Lemma pushed_field m p c k :
  k = p_nread \/ k = p_readopen \/ k = p_writeopen -> loadZ 4 (pushed m p c) (p + k) = loadZ 4 m (p + k).
Proof.
  intros Hk. unfold pushed. pose proof (ring_slot (loadZ 4 m (p + p_nwrite))).
  rewrite loadZ_store_disjoint.
  - apply loadZ_storeZ_disjoint.
    unfold p_nread, p_nwrite, p_readopen, p_writeopen in *; cbn; lia.
  - unfold p_nread, p_readopen, p_writeopen, p_data in *; cbn [length Z.of_nat]; lia.
Qed.

Lemma pushed_rep m p l ro wo c :
  pipe_rep m p l ro wo -> (length l < 512)%nat -> pipe_rep (pushed m p c) p (l ++ [c]) ro wo.
Proof.
  intros [H1 H2 H3 H4 H5] Hl. pose proof (ring_slot (loadZ 4 m (p + p_nwrite))) as Hs.
  pose proof (pushed_field m p c p_nread ltac:(tauto)) as Hnr.
  split; rewrite ?Hnr, ?pushed_field by tauto; try done.
  - rewrite length_app. cbn [length]. lia.
  - unfold pushed. rewrite loadZ_store_disjoint
      by (unfold p_nwrite, p_data in *; cbn [length Z.of_nat]; lia).
    rewrite loadZ_store_same, Z.mod_small by apply u32_range.
    rewrite H2, u32_add_l, length_app. apply (f_equal u32). cbn [length]. lia.
  - intros i b Hi. unfold pushed. rewrite H2, u32_mod512 in *.
    set (nr := loadZ 4 m (p + p_nread)) in *. pose proof (ring_slot (nr + Z.of_nat i)).
    apply lookup_app_Some in Hi as [Hi|[Hi1 Hi]].
    + rewrite store_bytes_ne.
      * unfold storeZ. rewrite store_bytes_ne; [by apply H3|].
        rewrite length_le_split. unfold p_data, p_nwrite in *. lia.
      * cbn [length Z.of_nat]. apply lookup_lt_Some in Hi. unfold PIPESIZE in *.
        assert ((nr + Z.of_nat i) mod 512 <> (nr + Z.of_nat (length l)) mod 512) by lia_mod. lia.
    + apply list_lookup_singleton_Some in Hi as [Hi <-].
      replace (Z.of_nat i) with (Z.of_nat (length l)) by lia.
      rewrite (store_bytes_at _ _ _ _); cbn [length Z.of_nat]; [|lia].
      by rewrite Z.sub_diag.
Qed.

Definition popped (m : memory) (p : Z) : memory :=
  storeZ 4 m (p + p_nread) (u32 (loadZ 4 m (p + p_nread) + 1)).

Lemma popped_rep m p b l ro wo :
  pipe_rep m p (b :: l) ro wo ->
  pipe_rep (popped m p) p l ro wo /\
  popped m p (p + p_data + loadZ 4 m (p + p_nread) mod PIPESIZE) = b.
Proof.
  intros [H1 H2 H3 H4 H5]. cbn [length] in *. set (nr := loadZ 4 m (p + p_nread)) in *.
  assert (Hf : forall k, k = p_nwrite \/ k = p_readopen \/ k = p_writeopen ->
            loadZ 4 (popped m p) (p + k) = loadZ 4 m (p + k)).
  { intros k Hk. unfold popped. apply loadZ_storeZ_disjoint.
    unfold p_nread, p_nwrite, p_readopen, p_writeopen in *; cbn; lia. }
  assert (Hn : loadZ 4 (popped m p) (p + p_nread) = u32 (nr + 1)).
  { unfold popped. rewrite loadZ_store_same. apply Z.mod_small. apply u32_range. }
  assert (Hd : forall x, popped m p (p + p_data + x mod PIPESIZE) = m (p + p_data + x mod PIPESIZE)).
  { intros x. pose proof (ring_slot x). unfold popped, storeZ. apply store_bytes_ne.
    rewrite length_le_split. unfold p_data, p_nread in *. lia. }
  split; [split|].
  - lia.
  - rewrite Hf, Hn, u32_add_l, H2 by tauto. f_equal. lia.
  - intros i c Hi. rewrite Hn, Hd. rewrite Zplus_mod, u32_mod512, <- Zplus_mod.
    specialize (H3 (S i) c Hi). rewrite <- H3. do 2 f_equal. f_equal. lia.
  - by rewrite Hf by tauto.
  - by rewrite Hf by tauto.
  - rewrite Hd. specialize (H3 0%nat b eq_refl). by rewrite Z.add_0_r in H3.
Qed.

Lemma pipe_rep_agree m m' p l ro wo :
  page_agree m m' p -> pipe_rep m p l ro wo -> pipe_rep m' p l ro wo.
Proof.
  intros Ha [H1 H2 H3 H4 H5].
  assert (Hf : forall k, 0 <= k <= 1024 -> loadZ 4 m' (p + k) = loadZ 4 m (p + k)).
  { intros k Hk. apply page_agree_loadZ; [done|lia|unfold PGSIZE; cbn; lia]. }
  split; rewrite ?(Hf p_nwrite), ?(Hf p_nread), ?(Hf p_readopen), ?(Hf p_writeopen)
    by (unfold p_nread, p_nwrite, p_readopen, p_writeopen; lia); try done.
  intros i b Hi. rewrite Ha; [by apply H3|].
  pose proof (ring_slot (loadZ 4 m (p + p_nread) + Z.of_nat i)). unfold p_data, PGSIZE in *. lia.
Qed.

(** ** The loops *)

Section Pipe.
Context (p e : Z) (tables : list Z) (s0 : kstate) (ro wo : Z).
Hypothesis Hp : kpage e p.
Hypothesis Ht : Forall (kpage e) tables.
Hypothesis Hpt : p ∉ tables.

(** A user buffer no byte of which is in the pipe. *)
Definition apart (n : Z) (T : Z -> Z) : Prop :=
  forall i, 0 <= i < n -> ~ (p <= T i < p + PGSIZE).

Lemma tables_agree m m' : only_pages [p] m m' -> Forall (page_agree m m') tables.
Proof.
  intros Ho. rewrite Forall_forall in *. intros t Hin.
  eapply only_pages_agree; [exact Ho|by apply Forall_singleton|by apply Ht|].
  intros ->%list_elem_of_singleton. done.
Qed.

Lemma pushed_only m c : only_pages [p] m (pushed m p c).
Proof.
  unfold pushed. pose proof (ring_slot (loadZ 4 m (p + p_nwrite))).
  apply (only_pages_trans _ _ (storeZ 4 m (p + p_nwrite) (u32 (loadZ 4 m (p + p_nwrite) + 1)))).
  - apply (only_pages_store _ _ p p_nwrite); [set_solver|unfold p_nwrite; lia|].
    rewrite length_le_split. unfold p_nwrite, PGSIZE. lia.
  - rewrite <- Z.add_assoc. apply only_pages_store; [set_solver|unfold p_data; lia|].
    unfold p_data, PGSIZE. cbn [length Z.of_nat]. lia.
Qed.

Lemma popped_only m : only_pages [p] m (popped m p).
Proof.
  unfold popped. apply only_pages_store; [set_solver|unfold p_nread; lia|].
  rewrite length_le_split. unfold p_nread, PGSIZE. lia.
Qed.

Lemma kload_field k s :
  0 <= k <= 1024 -> kload 4 (p + k) s = Ok (loadZ 4 (mem s) (p + k)) s.
Proof. intros. apply (kload_page e); [done|lia|unfold PGSIZE; cbn; lia]. Qed.

Lemma not_full_wait s l fuel :
  pipe_rep (mem s) p l ro wo -> (length l < 512)%nat -> pipe_full_wait fuel p s = Ok true s.
Proof.
  intros Hr Hl. destruct fuel; cbn [pipe_full_wait];
    rewrite (bind_ok _ _ _ _ _ (kload_field p_nwrite s ltac:(unfold p_nwrite; lia)));
    rewrite (bind_ok _ _ _ _ _ (kload_field p_nread s ltac:(unfold p_nread; lia)));
    (destruct (Z.eqb_spec (loadZ 4 (mem s) (p + p_nwrite))
        (u32 (loadZ 4 (mem s) (p + p_nread) + PIPESIZE))) as [E|E]; [|done]);
    rewrite (pr_nwrite _ _ _ _ _ Hr) in E; apply u32_inj_near in E; unfold PIPESIZE in *; lia.
Qed.

Lemma pipewrite_loop_ok bs : forall s l addr T,
  user_buf tables s0 addr (Z.of_nat (length bs)) T -> apart (Z.of_nat (length bs)) T ->
  same_space tables s0 s -> (forall i b, bs !! i = Some b -> mem s (T (Z.of_nat i)) = b) ->
  pipe_rep (mem s) p l ro wo -> (length l + length bs <= 512)%nat ->
  exists m', pipewrite_loop (length bs) p addr s = Ok true (set_mem m' s) /\
    pipe_rep m' p (l ++ bs) ro wo /\ only_pages [p] (mem s) m'.
Proof.
  induction bs as [|b bs IH]; intros s l addr T Hu Ha Hs Hb Hr Hl.
  { exists (mem s). rewrite app_nil_r. split_and!; [by destruct s|done|apply only_pages_refl]. }
  cbn [length] in *. cbn [pipewrite_loop].
  rewrite (bind_ok _ _ _ _ _ (not_full_wait s l wait_limit Hr ltac:(lia))). cbn [negb].
  rewrite (bind_ok _ _ _ _ _ (kload_field p_nwrite s ltac:(unfold p_nwrite; lia))).
  rewrite (bind_ok _ _ _ _ _ (kstore_page e p p_nwrite 4 _ s Hp ltac:(unfold p_nwrite; lia)
    ltac:(unfold p_nwrite, PGSIZE; cbn; lia))).
  set (m1 := storeZ 4 _ _ _).
  assert (Ho1 : only_pages [p] (mem s) m1).
  { apply only_pages_store; [set_solver|unfold p_nwrite; lia|].
    rewrite length_le_split. unfold p_nwrite, PGSIZE. lia. }
  pose proof (ub_get _ _ _ _ _ Hu (set_mem m1 s) 0) as Hg. rewrite Z.add_0_r in Hg.
  rewrite (bind_ok _ _ _ _ _ (Hg ltac:(apply same_space_mem; [done|by apply tables_agree])
    ltac:(lia))). cbn [mem set_mem].
  assert (m1 (T 0) = b) as ->.
  { rewrite Ho1; [by apply (Hb 0%nat)|]. intros q ->%list_elem_of_singleton. apply Ha. lia. }
  pose proof (ring_slot (loadZ 4 (mem s) (p + p_nwrite))).
  rewrite <- Z.add_assoc.
  rewrite (bind_ok _ _ _ _ _ (kstore_page e p
    (p_data + loadZ 4 (mem s) (p + p_nwrite) mod PIPESIZE) 1 _ _ Hp ltac:(unfold p_data; lia)
    ltac:(unfold p_data, PGSIZE; cbn [Z.of_nat Pos.of_succ_nat]; lia))).
  rewrite store_byte, Z.add_assoc. cbn [mem set_mem]. fold (pushed (mem s) p b).
  set (s1 := set_mem (pushed (mem s) p b) (set_mem m1 s)).
  pose proof (pushed_only (mem s) b) as Ho2.
  destruct (IH s1 (l ++ [b]) (addr + 1) (fun i => T (1 + i))) as (m' & E & Hr' & Ho').
  - replace (Z.of_nat (length bs)) with (Z.of_nat (S (length bs)) - 1) by lia.
    apply user_buf_shift; [done|lia].
  - intros i Hi. apply Ha. lia.
  - apply (same_space_mem _ _ s); [done|]. by apply tables_agree.
  - intros i c Hi. cbn [mem s1 set_mem]. rewrite Ho2.
    + rewrite <- (Hb (S i) c Hi). do 2 f_equal. lia.
    + intros q ->%list_elem_of_singleton. apply Ha. apply lookup_lt_Some in Hi. lia.
  - apply pushed_rep; [done|lia].
  - rewrite length_app. cbn [length]. lia.
  - exists m'. split_and!; [etransitivity; [exact E|by destruct s]| |by eapply only_pages_trans].
    by rewrite <- app_assoc in Hr'.
Qed.

(** One turn of the loop of [piperead]: the first byte of the ring goes to the
    user. *)
Lemma piperead_turn n s b l addr T :
  user_buf tables s0 addr (Z.of_nat (S n)) T -> same_space tables s0 s -> pipe_rep (mem s) p (b :: l) ro wo ->
  piperead_loop (S n) p addr s =
    (r <- piperead_loop n p (addr + 1) ;; ret (1 + r)) (set_mem (store_bytes (popped (mem s) p) (T 0) [b]) s).
Proof.
  intros Hu Hs Hr. cbn [piperead_loop].
  rewrite (bind_ok _ _ _ _ _ (kload_field p_nread s ltac:(unfold p_nread; lia))).
  rewrite (bind_ok _ _ _ _ _ (kload_field p_nwrite s ltac:(unfold p_nwrite; lia))).
  pose proof (loadZ4_range (mem s) (p + p_nread)) as Hrange.
  destruct (Z.eqb_spec (loadZ 4 (mem s) (p + p_nread)) (loadZ 4 (mem s) (p + p_nwrite))) as [E|_].
  { rewrite (pr_nwrite _ _ _ _ _ Hr) in E. rewrite <- (u32_small _ Hrange) in E at 1.
    rewrite <- (Z.add_0_r (loadZ 4 (mem s) (p + p_nread))) in E at 1.
    apply u32_inj_near in E; pose proof (pr_fits _ _ _ _ _ Hr); cbn [length] in *; lia. }
  rewrite (bind_ok _ _ _ _ _ (kstore_page e p p_nread 4 _ s Hp ltac:(unfold p_nread; lia)
    ltac:(unfold p_nread, PGSIZE; cbn; lia))).
  fold (popped (mem s) p). destruct (popped_rep _ _ _ _ _ _ Hr) as [Hr1 Hb].
  pose proof (ring_slot (loadZ 4 (mem s) (p + p_nread))).
  rewrite <- Z.add_assoc.
  rewrite (bind_ok _ _ _ _ _ (kload_page e p
    (p_data + loadZ 4 (mem s) (p + p_nread) mod PIPESIZE) 1 (set_mem (popped (mem s) p) s) Hp
    ltac:(unfold p_data; lia) ltac:(unfold p_data, PGSIZE; cbn [Z.of_nat Pos.of_succ_nat]; lia))).
  rewrite load_byte, Z.add_assoc. cbn [mem set_mem]. rewrite Hb.
  assert (Hs1 : same_space tables s0 (set_mem (popped (mem s) p) s)).
  { apply same_space_mem; [done|]. apply tables_agree, popped_only. }
  pose proof (ub_put _ _ _ _ _ Hu (set_mem (popped (mem s) p) s) 0 b Hs1 ltac:(lia)) as Hg.
  rewrite Z.add_0_r in Hg. rewrite (bind_ok _ _ _ _ _ Hg). done.
Qed.

Lemma piperead_loop_ok n : forall s l addr T,
  user_buf tables s0 addr (Z.of_nat n) T -> apart (Z.of_nat n) T -> same_space tables s0 s ->
  pipe_rep (mem s) p l ro wo ->
  exists m', piperead_loop n p addr s = Ok (Z.of_nat (length (take n l))) (set_mem m' s) /\
    pipe_rep m' p (drop n l) ro wo /\
    (forall i b, take n l !! i = Some b -> m' (T (Z.of_nat i)) = b) /\
    (forall x, ~ (p <= x < p + PGSIZE) ->
       (forall i, 0 <= i < Z.of_nat (length (take n l)) -> x <> T i) -> m' x = mem s x).
Proof.
  induction n as [|n IH]; intros s l addr T Hu Ha Hs Hr.
  { exists (mem s). rewrite drop_0. split_and!; [by destruct s|done|done|done]. }
  destruct l as [|b l].
  { exists (mem s). split_and!; [|done..]. cbn [piperead_loop].
    rewrite (bind_ok _ _ _ _ _ (kload_field p_nread s ltac:(unfold p_nread; lia))).
    rewrite (bind_ok _ _ _ _ _ (kload_field p_nwrite s ltac:(unfold p_nwrite; lia))).
    rewrite (pr_nwrite _ _ _ _ _ Hr). cbn [length Z.of_nat].
    rewrite Z.add_0_r, u32_small by apply loadZ4_range. rewrite Z.eqb_refl. by destruct s. }
  rewrite (piperead_turn n s b l addr T Hu Hs Hr). destruct (popped_rep _ _ _ _ _ _ Hr) as [Hr1 _].
  set (m2 := store_bytes (popped (mem s) p) (T 0) [b]).
  assert (Hs1 : same_space tables s0 (set_mem (popped (mem s) p) s)).
  { apply same_space_mem; [done|]. apply tables_agree, popped_only. }
  assert (Hm2 : forall x, x <> T 0 -> m2 x = popped (mem s) p x).
  { intros x Hx. apply store_bytes_ne. cbn [length Z.of_nat]. lia. }
  set (s1 := set_mem m2 _).
  destruct (IH s1 l (addr + 1) (fun i => T (1 + i))) as (m' & E & Hr' & Hd & Hx).
  - replace (Z.of_nat n) with (Z.of_nat (S n) - 1) by lia. apply user_buf_shift; [done|lia].
  - intros i Hi. apply Ha. lia.
  - apply (same_space_mem _ _ (set_mem (popped (mem s) p) s)); [done|].
    apply Forall_forall. intros t Hin x Hxt. apply Hm2. intros ->.
    by apply (ub_out _ _ _ _ _ Hu 0 t ltac:(lia) Hin).
  - apply (pipe_rep_agree (popped (mem s) p)); [|done]. intros x Hx. apply Hm2. intros ->.
    by apply (Ha 0); [lia|].
  - exists m'. split_and!.
    + cbn [take length]. rewrite (bind_ok _ _ _ _ _ E). unfold ret. f_equal. lia.
    + done.
    + intros i c Hi. destruct i as [|i].
      * cbn in Hi. injection Hi as ->. change (Z.of_nat 0) with 0. rewrite Hx.
        -- unfold s1, m2. cbn [mem set_mem]. rewrite store_bytes_at by (cbn [length Z.of_nat Pos.of_succ_nat]; lia).
           by rewrite Z.sub_diag.
        -- apply Ha. lia.
        -- intros j Hj E0. apply (ub_inj _ _ _ _ _ Hu) in E0; [lia|lia|].
           rewrite length_take in Hj. lia.
      * cbn in Hi. rewrite <- (Hd i c Hi). f_equal. f_equal. lia.
    + intros x Hxp Hxt. cbn [take length] in Hxt. rewrite Hx.
      * unfold s1. cbn [mem set_mem]. rewrite Hm2.
        -- apply popped_only. by intros q ->%list_elem_of_singleton.
        -- apply Hxt. lia.
      * done.
      * intros i Hi. apply Hxt. lia.
Qed.

End Pipe.

(** ** The calls *)

(** The state after a call: memory [m], the sleepers on [c] woken. *)
Definition pipe_done (s : kstate) (m : memory) (c : Z) : kstate :=
  set_cpu (cpu_norm (this_cpu s))
    (set_procs (map (wakeup1_proc c) (procs s)) (set_mem m s)).

(** The end of both calls: wake the other side and release the lock. *)
Lemma wake_release p s m c :
  lock_free p s -> lock_free ptable_lock s -> cpu_wf (this_cpu s) -> p <> ptable_lock ->
  (wakeup c ;; release p) (set_mem m (locked_state p s)) = Ok tt (pipe_done s m c).
Proof.
  intros Hl Hpt Hc Hne.
  assert (Hpt' : lock_free ptable_lock (set_mem m (locked_state p s))).
  { destruct Hpt as [n Hn]. exists n. cbn. by rewrite lookup_alter_ne. }
  rewrite (bind_ok _ _ _ _ _ (wakeup_eq c _ Hpt' (cpu_wf_pushcli _ Hc))).
  rewrite (release_held _ _ s); [by destruct s|done|done|done|by apply cpu_norm_pushcli].
Qed.

Section Calls.
Context (e p : Z) (tables : list Z) (s : kstate) (l : list byte) (ro wo addr n : Z) (T : Z -> Z).
Hypothesis Hp : kpage e p.
Hypothesis Ht : Forall (kpage e) tables.
Hypothesis Hpt : p ∉ tables.
Hypothesis Hlk : lock_free p s.
Hypothesis Hpl : lock_free ptable_lock s.
Hypothesis Hc : cpu_wf (this_cpu s).
Hypothesis Hr : pipe_rep (mem s) p l ro wo.
Hypothesis Hn : 0 <= n.
Hypothesis Hu : user_buf tables s addr n T.
Hypothesis Ha : apart p n T.

Lemma pipe_not_ptable : p <> ptable_lock.
Proof. destruct Hp as (_ & _ & ?). unfold KERNBASE, ptable_lock in *. lia. Qed.

Lemma locked_same_space : same_space tables s (locked_state p s).
Proof. split; [done|]. apply Forall_forall. eauto with xv6. Qed.

Lemma length_ubytes m : Z.of_nat (length (ubytes m T n)) = n.
Proof. unfold ubytes. rewrite length_map, length_seq. lia. Qed.

Lemma pipewrite_appends :
  Z.of_nat (length l) + n <= 512 ->
  exists m', pipewrite p addr n s = Ok n (pipe_done s m' (p + p_nread)) /\
    pipe_rep m' p (l ++ ubytes (mem s) T n) ro wo /\ only_pages [p] (mem s) m'.
Proof.
  intros Hl. unfold pipewrite. rewrite (bind_ok _ _ _ _ _ (acquire_free _ _ Hlk)).
  pose proof (length_ubytes (mem s)) as Hlen.
  destruct (pipewrite_loop_ok p e tables s ro wo Hp Ht Hpt (ubytes (mem s) T n)
    (locked_state p s) l addr T) as (m' & E & Hr' & Ho); rewrite ?Hlen; try done.
  - apply locked_same_space.
  - intros i b Hi. cbn. unfold ubytes in Hi. rewrite list_lookup_fmap in Hi.
    apply fmap_Some in Hi as (j & Hj & ->). apply lookup_seq in Hj as [-> _]. done.
  - lia.
  - exists m'. split; [|done].
    replace (length (ubytes (mem s) T n)) with (Z.to_nat n) in E by lia.
    rewrite (bind_ok _ _ _ _ _ E). cbn [negb]. rewrite <- bind_assoc.
    by rewrite (bind_ok _ _ _ _ _ (wake_release p s m' _ Hlk Hpl Hc pipe_not_ptable)).
Qed.

Lemma not_empty_wait fuel s' :
  mem s' = mem s -> l <> [] \/ wo = 0 -> pipe_empty_wait fuel p s' = Ok true s'.
Proof.
  intros Hm Hne. pose proof (loadZ4_range (mem s) (p + p_nread)) as Hrange.
  destruct fuel; cbn [pipe_empty_wait];
    rewrite (bind_ok _ _ _ _ _ (kload_field p e Hp p_nread s' ltac:(unfold p_nread; lia)));
    rewrite (bind_ok _ _ _ _ _ (kload_field p e Hp p_nwrite s' ltac:(unfold p_nwrite; lia)));
    rewrite (bind_ok _ _ _ _ _ (kload_field p e Hp p_writeopen s' ltac:(unfold p_writeopen; lia)));
    rewrite Hm, (pr_writeopen _ _ _ _ _ Hr), (pr_nwrite _ _ _ _ _ Hr);
    (destruct Hne as [Hne| ->]; [|by rewrite andb_false_r]);
    (destruct (Z.eqb_spec (loadZ 4 (mem s) (p + p_nread))
       (u32 (loadZ 4 (mem s) (p + p_nread) + Z.of_nat (length l)))) as [E|]; [|done]);
    rewrite <- (u32_small _ Hrange) in E at 1;
    rewrite <- (Z.add_0_r (loadZ 4 (mem s) (p + p_nread))) in E at 1;
    apply u32_inj_near in E; pose proof (pr_fits _ _ _ _ _ Hr); destruct l; cbn [length] in *;
    (done || lia).
Qed.

Lemma piperead_takes :
  l <> [] \/ wo = 0 ->
  exists m', piperead p addr n s =
             Ok (Z.of_nat (length (take (Z.to_nat n) l))) (pipe_done s m' (p + p_nwrite)) /\
    pipe_rep m' p (drop (Z.to_nat n) l) ro wo /\
    (forall i b, take (Z.to_nat n) l !! i = Some b -> m' (T (Z.of_nat i)) = b) /\
    (forall x, ~ (p <= x < p + PGSIZE) ->
       (forall i, 0 <= i < Z.of_nat (length (take (Z.to_nat n) l)) -> x <> T i) -> m' x = mem s x).
Proof.
  intros Hne. unfold piperead. rewrite (bind_ok _ _ _ _ _ (acquire_free _ _ Hlk)).
  rewrite (bind_ok _ _ _ _ _ (not_empty_wait wait_limit (locked_state p s) eq_refl Hne)).
  cbn [negb].
  destruct (piperead_loop_ok p e tables s ro wo Hp Ht Hpt (Z.to_nat n) (locked_state p s) l addr T)
    as (m' & E & Hr' & Hd & Hx); rewrite ?Z2Nat.id by done; try done.
  { apply locked_same_space. }
  exists m'. split; [|done]. rewrite (bind_ok _ _ _ _ _ E). rewrite <- bind_assoc.
  by rewrite (bind_ok _ _ _ _ _ (wake_release p s m' _ Hlk Hpl Hc pipe_not_ptable)).
Qed.

(** Writing to a full pipe that nobody can read any more. *)
Lemma pipewrite_broken i pr :
  length l = 512%nat -> ro = 0 -> 0 < n -> cur s = Some i -> procs s !! i = Some pr ->
  pipewrite p addr n s = Ok (-1) (set_cpu (cpu_norm (this_cpu s)) s).
Proof.
  intros Hl Hro Hn0 Hcur Hpr. unfold pipewrite. rewrite (bind_ok _ _ _ _ _ (acquire_free _ _ Hlk)).
  destruct (Z.to_nat n) as [|k] eqn:E; [lia|]. cbn [pipewrite_loop].
  assert (pipe_full_wait wait_limit p (locked_state p s) =
          Ok false (set_cpu (cpu_norm (this_cpu s)) s)) as Hw.
  { unfold wait_limit. cbn [pipe_full_wait].
    rewrite (bind_ok _ _ _ _ _ (kload_field p e Hp p_nwrite _ ltac:(unfold p_nwrite; lia))).
    rewrite (bind_ok _ _ _ _ _ (kload_field p e Hp p_nread _ ltac:(unfold p_nread; lia))).
    change (mem (locked_state p s)) with (mem s).
    rewrite (pr_nwrite _ _ _ _ _ Hr), Hl. change (Z.of_nat 512) with PIPESIZE. rewrite Z.eqb_refl.
    rewrite (bind_ok _ _ _ _ _ (kload_field p e Hp p_readopen _ ltac:(unfold p_readopen; lia))).
    change (mem (locked_state p s)) with (mem s). rewrite (pr_readopen _ _ _ _ _ Hr), Hro.
    rewrite (bind_ok myproc _ _ i (locked_state p s)) by (unfold myproc; cbn; by rewrite Hcur).
    rewrite (bind_ok (get_proc i) _ _ pr (locked_state p s)) by (unfold get_proc; cbn; by rewrite Hpr).
    cbn [Z.eqb orb]. rewrite (bind_ok _ _ _ _ _ (release_held p (locked_state p s) s Hlk Hc eq_refl eq_refl)).
    unfold ret. by destruct s. }
  rewrite bind_assoc, (bind_ok _ _ _ _ _ Hw). done.
Qed.

End Calls.

(** C25: a pipe is a queue of bytes.  In a state where no lock is held and the
    buffer of the caller is mapped, [pipewrite] of [n] bytes that fit returns
    [n] and appends them to the queue; [piperead] of up to [n] bytes from a pipe
    that is not empty, or that no writer has open, returns how many it took
    from the front of the queue and puts them into the buffer, none at the end
    of the file; both wake the other side and touch nothing else.  Writing to a
    full pipe without readers fails and changes nothing. *)
Theorem pipe_refines_queue e p tables s l ro wo addr n T :
  kpage e p -> Forall (kpage e) tables -> p ∉ tables ->
  lock_free p s -> lock_free ptable_lock s -> cpu_wf (this_cpu s) ->
  pipe_rep (mem s) p l ro wo -> 0 <= n -> user_buf tables s addr n T -> apart p n T ->
  (Z.of_nat (length l) + n <= 512 ->
   exists m', pipewrite p addr n s = Ok n (pipe_done s m' (p + p_nread)) /\
     pipe_rep m' p (l ++ ubytes (mem s) T n) ro wo /\ only_pages [p] (mem s) m') /\
  (l <> [] \/ wo = 0 ->
   exists m', piperead p addr n s =
              Ok (Z.of_nat (length (take (Z.to_nat n) l))) (pipe_done s m' (p + p_nwrite)) /\
     pipe_rep m' p (drop (Z.to_nat n) l) ro wo /\
     (forall i b, take (Z.to_nat n) l !! i = Some b -> m' (T (Z.of_nat i)) = b) /\
     (forall x, ~ (p <= x < p + PGSIZE) ->
        (forall i, 0 <= i < Z.of_nat (length (take (Z.to_nat n) l)) -> x <> T i) ->
        m' x = mem s x)) /\
  (forall i pr, length l = 512%nat -> ro = 0 -> 0 < n -> cur s = Some i -> procs s !! i = Some pr ->
   pipewrite p addr n s = Ok (-1) (set_cpu (cpu_norm (this_cpu s)) s)).
Proof.
  intros. split_and!.
  - by apply (pipewrite_appends e p tables).
  - by apply (piperead_takes e p tables).
  - intros i pr ?????. by eapply (pipewrite_broken e p tables).
Qed.

(** Two bytes in the last and the first slot of the ring, the counters about to
    wrap; the user buffer at 0x1000. *)
Module PipeDemo.

Definition pipe : Z := Demo.at_ 0x600000.

Definition words : list (Z * Z) :=
  [(pipe + p_nread, 0xffffffff + 2 ^ 32 * 1); (pipe + p_readopen, 1 + 2 ^ 32 * 1);
   (pipe + p_data + 504, 2 ^ 56 * 0x61); (pipe + p_data, 0x62)].

Definition state : kstate :=
  set_locks (<[pipe := mk_spinlock 0 "pipe" None]> (locks (Demo.kernel [])))
    (set_mem (Demo.memory_of (words ++ Demo.words [])) (Demo.kernel [])).

Definition T (i : Z) : Z := Demo.at_ 0x206000 + i.

Lemma entry i : 0 <= i < 2 ->
  entry_ok NetDemo.tables (mem state) (P2V (cr3 (this_cpu state))) (0x1000 + i) (T i).
Proof.
  intros Hi. split.
  - intros e He.
    assert (e ∈ [Demo.pml4; Demo.at_ 0x201000; Demo.at_ 0x202000; Demo.at_ 0x203008]) as Hin.
    { assert (i = 0 \/ i = 1) as [->| ->] by lia;
        (match type of He with _ ∈ ?l => let v := eval vm_compute in l in
           change (e ∈ v) in He end); exact He. }
    rewrite !elem_of_cons in Hin.
    destruct Hin as [->|[->|[->|[->|[]%elem_of_nil]]]];
      [exists Demo.pml4|exists (Demo.at_ 0x201000)|exists (Demo.at_ 0x202000)
      |exists (Demo.at_ 0x203000)];
      (split; [apply (bool_decide_unpack _); vm_compute; exact I|vm_compute; split; discriminate]).
  - exists (Demo.at_ 0x203008).
    assert (i = 0 \/ i = 1) as [->| ->] by lia;
      (split_and!; [vm_compute; reflexivity..]).
Qed.

Lemma buffer : user_buf NetDemo.tables state 0x1000 2 T.
Proof.
  apply user_buf_intro; [apply entry|unfold T; intros; lia|].
  intros i t Hi Ht. unfold NetDemo.tables in Ht. cbn [map] in Ht. rewrite !elem_of_cons in Ht.
  unfold T, Demo.at_, PGSIZE.
  destruct Ht as [->|[->|[->|[->|[]%elem_of_nil]]]]; unfold Demo.at_; lia.
Qed.

Lemma rep : pipe_rep (mem state) pipe [Byte.x61; Byte.x62] 1 1.
Proof.
  split; [cbn; lia|vm_compute; reflexivity| |vm_compute; reflexivity|vm_compute; reflexivity].
  intros [|[|i]] b Hb; [injection Hb as <-; vm_compute; reflexivity
    |injection Hb as <-; vm_compute; reflexivity|done].
Qed.

End PipeDemo.

Lemma pipe_refines_queue_witness :
  exists m', piperead PipeDemo.pipe 0x1000 2 PipeDemo.state =
             Ok 2 (pipe_done PipeDemo.state m' (PipeDemo.pipe + p_nwrite)) /\
    pipe_rep m' PipeDemo.pipe [] 1 1 /\ m' (PipeDemo.T 1) = Byte.x62.
Proof.
  destruct (pipe_refines_queue (Demo.at_ 0x100000) PipeDemo.pipe NetDemo.tables PipeDemo.state
    [Byte.x61; Byte.x62] 1 1 0x1000 2 PipeDemo.T) as (_ & Hr & _).
  - apply (bool_decide_unpack _). vm_compute. exact I.
  - apply (bool_decide_unpack _). vm_compute. exact I.
  - apply (bool_decide_unpack _). vm_compute. exact I.
  - exists "pipe". vm_compute. reflexivity.
  - exists "ptable". vm_compute. reflexivity.
  - split; [cbn; lia|done].
  - exact PipeDemo.rep.
  - lia.
  - exact PipeDemo.buffer.
  - intros i Hi. unfold PipeDemo.T, PipeDemo.pipe, Demo.at_, PGSIZE. lia.
  - destruct Hr as (m' & E & R & B & _); [by left|]. exists m'.
    split; [exact E|]. split; [exact R|exact (B 1%nat Byte.x62 eq_refl)].
Defined.
