(* ===== verification/Grep.v ===== *)
(** * grep.c

    The pattern matcher and the loop over the lines of a file.  A C string is
    the list of its bytes without the final zero; a pointer into it is the rest
    of the list.  The matcher is proved equal to the language of the pattern;
    the loop prints the lines that match when each buffer it reads ends one
    line at least, and drops what it has read when a buffer does not. *)

From stdpp Require Import sets.
From S2P Require Import Prelude.
Local Open Scope Z_scope.

(** ** The matcher *)

Definition chr_caret : byte := Byte.x5e.
Definition chr_dollar : byte := Byte.x24.
Definition chr_dot : byte := Byte.x2e.
Definition chr_star : byte := Byte.x2a.
Definition chr_newline : byte := Byte.x0a.

Definition beq (a b : byte) : bool := bool_decide (a = b).

(** [re[0]=='.' || re[0]==*text] *)
Definition atom (c t : byte) : bool := beq c chr_dot || beq c t.

(** The [do]-[while] of [matchstar], with the rest of the pattern as [here]. *)
Fixpoint star_loop (here : list byte -> bool) (c : byte) (text : list byte) : bool :=
  here text ||
  match text with
  | [] => false
  | t :: text => if beq t c || beq c chr_dot then star_loop here c text else false
  end.

Fixpoint matchhere (re text : list byte) : bool :=
  match re with
  | [] => true
  | c :: re1 =>
      match re1 with
      | s :: re2 =>
          if beq s chr_star then star_loop (matchhere re2) c text
          else
            match text with
            | t :: text => if atom c t then matchhere re1 text else false
            | [] => false
            end
      | [] =>
          if beq c chr_dollar then bool_decide (text = [])
          else
            match text with
            | t :: text => if atom c t then matchhere re1 text else false
            | [] => false
            end
      end
  end.

Definition matchstar (c : byte) (re text : list byte) : bool := star_loop (matchhere re) c text.

(** The [do]-[while] of [match]: try every position, the end included. *)
Fixpoint match_loop (re text : list byte) : bool :=
  matchhere re text || match text with [] => false | _ :: text => match_loop re text end.

Definition match_ (re text : list byte) : bool :=
  match re with
  | c :: re1 => if beq c chr_caret then matchhere re1 text else match_loop re text
  | [] => match_loop re text
  end.

(** ** The loop over the lines *)

(** [strchr(p, c)]: the offset of the first [c], before the end of the string. *)
Fixpoint strchr (p : list byte) (c : byte) : option nat :=
  match p with
  | [] => None
  | x :: p =>
      if beq x Byte.x00 then None
      else if beq x c then Some 0%nat
      else match strchr p c with Some q => Some (S q) | None => None end
  end.

(** The inner loop on the bytes from [p] on: what is written, and the final [p]. *)
Fixpoint grep_lines (fuel : nat) (pattern p : list byte) : list byte * list byte :=
  match fuel with
  | O => ([], p)
  | S k =>
      match strchr p chr_newline with
      | None => ([], p)
      | Some q =>
          let out := if match_ pattern (take q p) then take (S q) p else [] in
          let '(rest, p') := grep_lines k pattern (drop (S q) p) in
          (out ++ rest, p')
      end
  end.

Definition sizeof_buf : nat := 1024.

(** One turn of the outer loop: [buf] holds the [m] bytes left over and the
    bytes just read.  The bytes that stay in the buffer are the new ones. *)
Definition grep_turn (pattern buf : list byte) : list byte * list byte :=
  let '(out, p) := grep_lines (length buf) pattern buf in
  (out, if bool_decide (length p = length buf) then [] else p).

(** The file is [input]; the [i]-th call of [read] has at most [sizes !! i]
    bytes for the caller.  The loop ends when [read] returns 0. *)
Fixpoint grep_loop (pattern held input : list byte) (sizes : list nat) : list byte :=
  match sizes with
  | [] => []
  | k :: sizes =>
      let n := Nat.min k (sizeof_buf - length held - 1) in
      let chunk := take n input in
      match chunk with
      | [] => []
      | _ =>
          let '(out, held') := grep_turn pattern (held ++ chunk) in
          out ++ grep_loop pattern held' (drop n input) sizes
      end
  end.

Definition grep (pattern input : list byte) (sizes : list nat) : list byte :=
  grep_loop pattern [] input sizes.

(** ** The language of a pattern *)

Inductive item := One (c : byte) | Many (c : byte) | End_.

Fixpoint items (re : list byte) : list item :=
  match re with
  | [] => []
  | c :: re1 =>
      match re1 with
      | s :: re2 => if beq s chr_star then Many c :: items re2 else One c :: items re1
      | [] => if beq c chr_dollar then [End_] else [One c]
      end
  end.

(** The text starts with a match of the items. *)
Inductive starts : list item -> list byte -> Prop :=
| starts_nil text : starts [] text
| starts_one c its t text :
    atom c t = true -> starts its text -> starts (One c :: its) (t :: text)
| starts_many c its run text :
    Forall (fun t => atom c t = true) run -> starts its text ->
    starts (Many c :: its) (run ++ text)
| starts_end : starts [End_] [].

(** Some part of the text matches; a leading [^] ties the match to the start. *)
Definition matches (re text : list byte) : Prop :=
  match re with
  | c :: re1 =>
      if beq c chr_caret then starts (items re1) text
      else exists pre rest, text = pre ++ rest /\ starts (items re) rest
  | [] => True
  end.

Lemma beq_sym a b : beq a b = beq b a.
Proof. unfold beq. apply bool_decide_ext. naive_solver. Qed.

Lemma star_loop_spec here c text :
  star_loop here c text = true <->
  exists run rest, text = run ++ rest /\ Forall (fun t => atom c t = true) run /\ here rest = true.
Proof.
  induction text as [|t text IH]; simpl; rewrite orb_true_iff.
  - split.
    + intros [H|[=]]. exists [], []. done.
    + intros (run & rest & E & _ & H). symmetry in E. apply app_eq_nil in E as [-> ->]. auto.
  - assert (Ha : beq t c || beq c chr_dot = atom c t)
      by (unfold atom; rewrite orb_comm, (beq_sym t c); done).
    rewrite Ha. split.
    + intros [H|H]; [by exists [], (t :: text)|].
      destruct (atom c t) eqn:Ht; [|done]. apply IH in H as (run & rest & -> & Hr & H).
      exists (t :: run), rest. split_and!; [done|by constructor|done].
    + intros ([|x run] & rest & E & Hr & H); simpl in E; [left; by subst rest|].
      injection E as -> ->. apply Forall_cons in Hr as [Hx Hr]. right. rewrite Hx.
      apply IH. eauto.
Qed.

(** Induction over a pattern that follows the matcher: two bytes at a star,
    one otherwise. *)
Lemma pattern_ind (P : list byte -> Prop) :
  P [] -> (forall c, P [] -> P [c]) ->
  (forall c s re, P re -> P (s :: re) -> P (c :: s :: re)) -> forall re, P re.
Proof.
  intros H0 H1 H2 re. enough (P re /\ forall c, P (c :: re)) by tauto.
  induction re as [|s re [IH1 IH2]]; split; auto.
Qed.

Lemma starts_items_one c its text :
  starts (One c :: its) text <-> exists t rest, text = t :: rest /\ atom c t = true /\ starts its rest.
Proof. split; [inversion 1; subst; eauto|]. intros (t & rest & -> & ? & ?). by constructor. Qed.

Lemma matchhere_spec re : forall text, matchhere re text = true <-> starts (items re) text.
Proof.
  induction re as [|c IH|c s re IH1 IH2] using pattern_ind; intros text.
  - split; [intros _; constructor|done].
  - simpl. destruct (beq c chr_dollar).
    + rewrite bool_decide_eq_true. split; [intros ->; constructor|by inversion 1].
    + rewrite starts_items_one. destruct text as [|t text]; [naive_solver|].
      destruct (atom c t) eqn:Ht; [split; [|done]|naive_solver].
      intros _. exists t, text. split_and!; try done. constructor.
  - change (matchhere (c :: s :: re) text) with
      (if beq s chr_star then star_loop (matchhere re) c text
       else match text with
            | t :: text => if atom c t then matchhere (s :: re) text else false
            | [] => false end).
    change (items (c :: s :: re)) with
      (if beq s chr_star then Many c :: items re else One c :: items (s :: re)).
    destruct (beq s chr_star).
    + rewrite star_loop_spec. split.
      * intros (run & rest & -> & Hr & H). constructor; [done|]. by apply IH1.
      * inversion 1; subst. eexists _, _. split_and!; [done..|]. by apply IH1.
    + rewrite starts_items_one. destruct text as [|t text]; [naive_solver|].
      destruct (atom c t) eqn:Ht; [|naive_solver]. rewrite IH2. naive_solver.
Qed.

Lemma match_loop_spec re text :
  match_loop re text = true <-> exists pre rest, text = pre ++ rest /\ starts (items re) rest.
Proof.
  induction text as [|t text IH]; simpl; rewrite orb_true_iff, matchhere_spec.
  - split.
    + intros [H|[=]]. by exists [], [].
    + intros (pre & rest & E & H). symmetry in E. apply app_eq_nil in E as [-> ->]. auto.
  - rewrite IH. split.
    + intros [H|(pre & rest & -> & H)]; [by exists [], (t :: text)|by exists (t :: pre), rest].
    + intros ([|x pre] & rest & E & H); simpl in E; [left; by subst rest|].
      injection E as -> ->. eauto.
Qed.

Lemma match_spec re text : match_ re text = true <-> matches re text.
Proof.
  destruct re as [|c re]; simpl; [|destruct (beq c chr_caret)].
  - split; [done|intros _]. destruct text; done.
  - apply matchhere_spec.
  - apply match_loop_spec.
Qed.

#[global] Instance matches_dec re text : Decision (matches re text) :=
  match decide (match_ re text = true) with
  | left H => left (proj1 (match_spec re text) H)
  | right H => right (fun Hm => H (proj2 (match_spec re text) Hm))
  end.

(** ** Lines *)

(** The complete lines of a text, without their newlines, and what follows the
    last newline. *)
Fixpoint split_lines (p : list byte) : list (list byte) * list byte :=
  match p with
  | [] => ([], [])
  | x :: p =>
      let '(ls, r) := split_lines p in
      if beq x chr_newline then ([] :: ls, r)
      else match ls with [] => ([], x :: r) | l :: ls => ((x :: l) :: ls, r) end
  end.

Definition complete_lines (p : list byte) : list (list byte) := fst (split_lines p).

(** The matching lines, as they are printed. *)
Definition print_lines (pattern : list byte) (ls : list (list byte)) : list byte :=
  concat (map (fun l => l ++ [chr_newline]) (filter (matches pattern) ls)).

Lemma split_lines_none p : chr_newline ∉ p <-> split_lines p = ([], p).
Proof.
  induction p as [|x p IH]; simpl; [set_solver|].
  rewrite not_elem_of_cons, IH. unfold beq. split.
  - intros [Hx ->]. by rewrite bool_decide_false.
  - destruct (split_lines p) as [ls r]. case_bool_decide; [done|].
    destruct ls; [|done]. intros [= <-]. done.
Qed.

Lemma split_lines_line l p :
  chr_newline ∉ l ->
  split_lines (l ++ chr_newline :: p) =
    (l :: complete_lines p, snd (split_lines p)).
Proof.
  unfold complete_lines. induction l as [|x l IH]; intros Hl; simpl.
  - by destruct (split_lines p).
  - apply not_elem_of_cons in Hl as [Hx Hl]. rewrite IH by done.
    unfold beq. by rewrite bool_decide_false.
Qed.

Lemma in_newline_split p :
  chr_newline ∈ p -> exists l r, p = l ++ chr_newline :: r /\ chr_newline ∉ l.
Proof.
  intros H. apply list_elem_of_split_l in H as (l & r & -> & H). eauto.
Qed.

Lemma strchr_none p : Byte.x00 ∉ p -> chr_newline ∉ p -> strchr p chr_newline = None.
Proof.
  induction p as [|x p IH]; intros H0 Hn; simpl; [done|].
  apply not_elem_of_cons in H0 as [? ?]. apply not_elem_of_cons in Hn as [? ?].
  unfold beq. rewrite !bool_decide_false by done. by rewrite IH.
Qed.

Lemma strchr_line l p :
  Byte.x00 ∉ l -> chr_newline ∉ l -> strchr (l ++ chr_newline :: p) chr_newline = Some (length l).
Proof.
  induction l as [|x l IH]; intros H0 Hn; simpl; [done|].
  apply not_elem_of_cons in H0 as [? ?]. apply not_elem_of_cons in Hn as [? ?].
  unfold beq. rewrite !bool_decide_false by done. by rewrite IH.
Qed.

Lemma print_lines_cons pattern l ls :
  print_lines pattern (l :: ls) =
    (if match_ pattern l then l ++ [chr_newline] else []) ++ print_lines pattern ls.
Proof.
  unfold print_lines. rewrite filter_cons. pose proof (match_spec pattern l) as Hm.
  destruct (match_ pattern l), (decide (matches pattern l)); naive_solver.
Qed.

Lemma print_lines_app pattern ls ls' :
  print_lines pattern (ls ++ ls') = print_lines pattern ls ++ print_lines pattern ls'.
Proof. unfold print_lines. by rewrite filter_app, map_app, concat_app. Qed.

Lemma grep_lines_spec pattern fuel p :
  (length p <= fuel)%nat -> Byte.x00 ∉ p ->
  grep_lines fuel pattern p =
    (print_lines pattern (complete_lines p), snd (split_lines p)).
Proof.
  revert p. induction fuel as [|fuel IH]; intros p Hf H0.
  - by destruct p; simpl in Hf; [|lia].
  - simpl. destruct (decide (chr_newline ∈ p)) as [Hin|Hn].
    + destruct (in_newline_split p Hin) as (l & r & -> & Hl).
      rewrite strchr_line by set_solver.
      rewrite take_app_length, (cons_middle chr_newline l r), app_assoc.
      assert (E : S (length l) = length (l ++ [chr_newline])) by (rewrite length_app; simpl; lia).
      rewrite E, take_app_length, drop_app_length.
      rewrite <- app_assoc. simpl app at 4.
      rewrite length_app in Hf. simpl in Hf.
      rewrite IH by (lia || set_solver).
      unfold complete_lines at 2. rewrite !split_lines_line by done. simpl.
      rewrite print_lines_cons. f_equal. by rewrite split_lines_line.
    + rewrite strchr_none by done. unfold complete_lines.
      by rewrite (proj1 (split_lines_none p) Hn).
Qed.

(** ** The whole loop *)

Lemma split_lines_rest p : chr_newline ∉ snd (split_lines p).
Proof.
  induction p as [|x p IH]; simpl; [set_solver|].
  destruct (split_lines p) as [ls r]. simpl in IH. unfold beq. case_bool_decide; [done|].
  destruct ls; simpl; [|done]. by apply not_elem_of_cons.
Qed.

Lemma split_lines_app p p' :
  split_lines (p ++ p') =
    (complete_lines p ++ complete_lines (snd (split_lines p) ++ p'),
     snd (split_lines (snd (split_lines p) ++ p'))).
Proof.
  unfold complete_lines. induction p as [|x p IH]; simpl; [by destruct (split_lines p')|].
  rewrite IH. clear IH. destruct (split_lines p) as [ls r]. simpl.
  unfold beq. case_bool_decide as Hx; [done|]. destruct ls as [|l ls]; simpl; [|done].
  destruct (split_lines (r ++ p')) as [ls' r']. simpl. unfold beq.
  rewrite bool_decide_false by done. by destruct ls'.
Qed.

Lemma complete_lines_app p p' :
  complete_lines (p ++ p') = complete_lines p ++ complete_lines (snd (split_lines p) ++ p').
Proof. unfold complete_lines at 1. by rewrite split_lines_app. Qed.

Lemma split_lines_rest_sub p x : x ∈ snd (split_lines p) -> x ∈ p.
Proof.
  induction p as [|y p IH]; simpl; [done|]. destruct (split_lines p) as [ls r]. simpl in IH.
  unfold beq. case_bool_decide; simpl; [set_solver|]. destruct ls; simpl; set_solver.
Qed.

Lemma split_lines_rest_short p : chr_newline ∈ p -> (length (snd (split_lines p)) < length p)%nat.
Proof.
  intros (l & r & -> & Hl)%in_newline_split. rewrite split_lines_line by done. simpl.
  rewrite length_app. simpl. enough (length (snd (split_lines r)) <= length r)%nat by lia.
  clear. induction r as [|y r IH]; simpl; [done|]. destruct (split_lines r) as [ls q]. simpl in *.
  destruct (beq y chr_newline); simpl; [lia|]. destruct ls; simpl; lia.
Qed.

Lemma grep_turn_line pattern buf :
  Byte.x00 ∉ buf -> chr_newline ∈ buf ->
  grep_turn pattern buf =
    (print_lines pattern (complete_lines buf), snd (split_lines buf)).
Proof.
  intros H0 Hin. unfold grep_turn. rewrite grep_lines_spec by done.
  pose proof (split_lines_rest_short buf Hin). by rewrite bool_decide_false by lia.
Qed.

Lemma grep_turn_none pattern buf :
  Byte.x00 ∉ buf -> chr_newline ∉ buf -> grep_turn pattern buf = ([], []).
Proof.
  intros H0 Hn. unfold grep_turn. rewrite grep_lines_spec by done. unfold complete_lines.
  rewrite (proj1 (split_lines_none buf) Hn). simpl. by rewrite bool_decide_true.
Qed.

Lemma not_in_parts (x : byte) held n input :
  x ∉ held ++ input -> x ∉ held ++ take n input /\ x ∉ drop n input.
Proof. rewrite <- (take_drop n input) at 1. set_solver. Qed.

(** Without a newline nothing is printed. *)
Lemma grep_loop_none pattern sizes : forall held input,
  Byte.x00 ∉ held ++ input -> chr_newline ∉ held ++ input ->
  grep_loop pattern held input sizes = [].
Proof.
  induction sizes as [|k sizes IH]; intros held input H0 Hn; simpl; [done|].
  set (n := Nat.min _ _). destruct (take n input) as [|c chunk] eqn:E; [done|].
  rewrite <- E. apply (not_in_parts _ _ n) in H0 as [? ?], Hn as [? ?].
  rewrite grep_turn_none by done. by apply IH.
Qed.

(** The first line of a text is short, so a newline is among its first bytes. *)
Lemma newline_early L p :
  Forall (fun l => (length l < L)%nat) (complete_lines p) -> chr_newline ∈ p ->
  chr_newline ∈ take L p.
Proof.
  intros HL (l & r & -> & Hl)%in_newline_split. unfold complete_lines in HL.
  rewrite split_lines_line in HL by done. apply Forall_cons in HL as [HL _].
  rewrite take_app, (take_ge l) by lia.
  destruct (L - length l)%nat eqn:E; [lia|]. simpl. apply elem_of_app. right. by left.
Qed.

Lemma grep_loop_spec pattern L sizes : forall held input,
  (0 < L <= 512)%nat -> Forall (fun k => (L <= k)%nat) sizes ->
  (length input <= length sizes)%nat -> Byte.x00 ∉ held ++ input ->
  Forall (fun l => (length l < L)%nat) (complete_lines (held ++ input)) ->
  chr_newline ∉ held ->
  grep_loop pattern held input sizes = print_lines pattern (complete_lines (held ++ input)).
Proof.
  induction sizes as [|k sizes IH]; intros held input HL Hk Hlen H0 Hshort Hheld.
  { destruct input; [|simpl in Hlen; lia]. rewrite app_nil_r. unfold complete_lines.
    by rewrite (proj1 (split_lines_none held) Hheld). }
  destruct (decide (chr_newline ∈ held ++ input)) as [Hin|Hn].
  2: { rewrite grep_loop_none by done. unfold complete_lines.
       by rewrite (proj1 (split_lines_none _) Hn). }
  apply Forall_cons in Hk as [Hk Hks].
  pose proof (newline_early L _ Hshort Hin) as Hearly.
  assert (Hhl : (length held < L)%nat).
  { destruct (decide (length held < L)%nat) as [|Hge]; [done|].
    rewrite take_app_le in Hearly by lia. destruct Hheld.
    apply elem_of_take in Hearly as (i & Hi & _). by eapply list_elem_of_lookup_2. }
  simpl. set (n := Nat.min k (sizeof_buf - length held - 1)).
  assert (Hn : (L <= n)%nat) by (unfold n, sizeof_buf; lia).
  assert (Hbuf : chr_newline ∈ held ++ take n input).
  { rewrite take_app, (take_ge held) in Hearly by lia. apply elem_of_app in Hearly as [?|Hc];
      [set_solver|]. apply elem_of_app. right. apply elem_of_take in Hc as (i & Hi & Hlt).
    apply elem_of_take. exists i. split; [done|lia]. }
  destruct (take n input) as [|c chunk] eqn:E; [rewrite app_nil_r in Hbuf; done|].
  rewrite <- E in Hbuf |- *. clear E c chunk.
  destruct (not_in_parts _ _ n _ H0) as [H01 H02].
  assert (Ei : held ++ input = (held ++ take n input) ++ drop n input)
    by (by rewrite <- app_assoc, take_drop).
  rewrite Ei in Hshort |- *.
  rewrite grep_turn_line by done.
  rewrite (complete_lines_app (held ++ take n input)) in Hshort |- *.
  apply Forall_app in Hshort as [_ Hshort]. rewrite print_lines_app. f_equal.
  apply IH; try done.
  - rewrite length_drop. destruct input; simpl in *; lia.
  - intros [Hx|?]%elem_of_app; [|done]. by apply H01, split_lines_rest_sub.
  - apply split_lines_rest.
Qed.

(** C35: grep prints exactly the lines of its input that its pattern matches, in
    order, where a pattern is a sequence of items (a byte, the dot, a starred
    byte, a final dollar) and a leading caret ties it to the start of the line.
    The matcher decides this relation.  The output does not depend on how the
    reads cut the input, as long as no line is longer than the smallest
    read and half of the buffer; it ends with the input. *)
Theorem grep_prints_matching_lines pattern input L sizes :
  (0 < L <= 512)%nat -> Forall (fun k => (L <= k)%nat) sizes ->
  (length input <= length sizes)%nat -> Byte.x00 ∉ input ->
  Forall (fun l => (length l < L)%nat) (complete_lines input) ->
  grep pattern input sizes = print_lines pattern (complete_lines input).
Proof. intros. by apply (grep_loop_spec pattern L sizes []); [..|set_solver]. Qed.

(** Two lines, the second of which matches [b*c]. *)
Lemma grep_prints_matching_lines_witness :
  grep [Byte.x62; Byte.x2a; Byte.x63; Byte.x24]
    [Byte.x61; Byte.x0a; Byte.x61; Byte.x62; Byte.x63; Byte.x0a] (replicate 6 512%nat) =
  [Byte.x61; Byte.x62; Byte.x63; Byte.x0a].
Proof.
  rewrite (grep_prints_matching_lines _ _ 512%nat); [reflexivity|lia| |reflexivity| |].
  - apply Forall_replicate. lia.
  - apply (bool_decide_unpack _). vm_compute. done.
  - repeat constructor; simpl; lia.
Defined.

(** A line that arrives in two reads is lost.  When the first buffer holds
    no newline the loop drops it, so that a matching line is not printed. *)
Theorem grep_loses_split_line :
  exists pattern input sizes,
    grep pattern input sizes = [] /\
    print_lines pattern (complete_lines input) = input /\ input <> [] /\
    (length input <= foldr Nat.add 0%nat sizes)%nat /\ Forall (fun k => (0 < k)%nat) sizes.
Proof.
  exists [Byte.x61; Byte.x62], [Byte.x61; Byte.x62; Byte.x0a], [1%nat; 1%nat; 1%nat].
  split_and!; try reflexivity; [done|repeat constructor].
Qed.
