(* ===== verification/Ulib.v ===== *)
(** * ulib.c and printf.c: the library of the user programs

    String routines on the memory of a process, [gets], and formatted output.
    Output is the list of bytes written.  Loops that run to a terminating zero
    take the number of bytes they may inspect and return [None] beyond it. *)

From S2P Require Import Prelude Memory CString.
Local Open Scope Z_scope.

(** ** ulib.c *)

Definition ldc (m : memory) (a : Z) : Z := byte.unsigned (m a).

Fixpoint strcpy (fuel : nat) (m : memory) (s t : Z) : option memory :=
  match fuel with
  | O => None
  | S k =>
      let c := m t in
      let m := store_bytes m s [c] in
      if byte.unsigned c =? 0 then Some m else strcpy k m (s + 1) (t + 1)
  end.

Fixpoint strcmp (fuel : nat) (m : memory) (p q : Z) : option Z :=
  match fuel with
  | O => None
  | S k =>
      if negb (ldc m p =? 0) && (ldc m p =? ldc m q) then strcmp k m (p + 1) (q + 1)
      else Some (ldc m p - ldc m q)
  end.

Fixpoint strlen_loop (fuel : nat) (m : memory) (s n : Z) : option Z :=
  match fuel with
  | O => None
  | S k => if ldc m (s + n) =? 0 then Some n else strlen_loop k m s (n + 1)
  end.

Definition strlen (fuel : nat) (m : memory) (s : Z) : option Z := strlen_loop fuel m s 0.

(** [rep stosb] of x86.h. *)
Fixpoint memset (m : memory) (dst c : Z) (n : nat) : memory :=
  match n with
  | O => m
  | S k => memset (store_bytes m dst [byte.of_Z c]) (dst + 1) c k
  end.

(** 0 when the character is not in the string. *)
Fixpoint strchr (fuel : nat) (m : memory) (s c : Z) : option Z :=
  match fuel with
  | O => None
  | S k =>
      if ldc m s =? 0 then Some 0
      else if ldc m s =? c then Some s
      else strchr k m (s + 1) c
  end.

(** [read(0, &c, 1)] takes the next byte of [input], if there is one. *)
Fixpoint gets_loop (m : memory) (buf max i : Z) (input : list byte) : memory * Z * list byte :=
  if i + 1 <? max then
    match input with
    | [] => (m, i, [])
    | c :: input =>
        let m := store_bytes m (buf + i) [c] in
        if (byte.unsigned c =? 10) || (byte.unsigned c =? 13) then (m, i + 1, input)
        else gets_loop m buf max (i + 1) input
    end
  else (m, i, input).

Definition gets (m : memory) (buf max : Z) (input : list byte) : memory * list byte :=
  let '(m, i, input) := gets_loop m buf max 0 input in
  (store_bytes m (buf + i) [Byte.x00], input).

Fixpoint atoi_loop (fuel : nat) (m : memory) (s n : Z) : option Z :=
  match fuel with
  | O => None
  | S k =>
      if (48 <=? ldc m s) && (ldc m s <=? 57) then
        atoi_loop k m (s + 1) (s32 (n * 10 + ldc m s - 48))
      else Some n
  end.

Definition atoi (fuel : nat) (m : memory) (s : Z) : option Z := atoi_loop fuel m s 0.

Fixpoint memmove (m : memory) (dst src : Z) (n : nat) : memory :=
  match n with
  | O => m
  | S k => memmove (store_bytes m dst [m src]) (dst + 1) (src + 1) k
  end.

(** ** printf.c *)

(** [digits[d]] *)
Definition digit (d : Z) : byte :=
  nth (Z.to_nat d)
    [Byte.x30; Byte.x31; Byte.x32; Byte.x33; Byte.x34; Byte.x35; Byte.x36; Byte.x37;
     Byte.x38; Byte.x39; Byte.x61; Byte.x62; Byte.x63; Byte.x64; Byte.x65; Byte.x66] Byte.x00.

(** [w] is the width of [x] in bits: the top digit is printed and shifted out. *)
Fixpoint print_x (n : nat) (w x : Z) : list byte :=
  match n with
  | O => []
  | S k => digit (Z.shiftr x (w - 4)) :: print_x k w (Z.shiftl x 4 mod 2 ^ w)
  end.

Definition print_x64 (x : Z) : list byte := print_x 16 64 x.
Definition print_x32 (x : Z) : list byte := print_x 8 32 x.

(** The digits of [x], the last one first: a 32-bit value has ten at most. *)
Fixpoint dec_loop (fuel : nat) (x : Z) : list byte :=
  match fuel with
  | O => []
  | S k =>
      let d := digit (x mod 10) in
      let x := x / 10 in
      if x =? 0 then [d] else d :: dec_loop k x
  end.

Definition print_d (v : Z) : list byte :=
  let x := if v <? 0 then - v else v in
  let buf := dec_loop 16 x in
  let buf := if v <? 0 then buf ++ [Byte.x2d] else buf in
  rev buf.

(** The bytes of the string at [s], one [putc] each. *)
Fixpoint put_string (fuel : nat) (m : memory) (s : Z) : option (list byte) :=
  match fuel with
  | O => None
  | S k =>
      if ldc m s =? 0 then Some []
      else match put_string k m (s + 1) with Some l => Some (m s :: l) | None => None end
  end.

Definition null_string : list byte :=
  [Byte.x28; Byte.x6e; Byte.x75; Byte.x6c; Byte.x6c; Byte.x29].

(** What one conversion prints; [args] are the words of the argument list. *)
Definition conversion (fuel : nat) (m : memory) (c : byte) (args : list Z) :
    option (list byte * list Z) :=
  let a := hd 0 args in
  match c with
  | Byte.x63 => Some ([byte.of_Z a], tl args)
  | Byte.x64 => Some (print_d (s32 a), tl args)
  | Byte.x78 => Some (print_x32 (u32 a), tl args)
  | Byte.x70 => Some (print_x64 (u64 a), tl args)
  | Byte.x73 =>
      if a =? 0 then Some (null_string, tl args)
      else match put_string fuel m a with Some l => Some (l, tl args) | None => None end
  | Byte.x25 => Some ([Byte.x25], args)
  | _ => Some ([Byte.x25; c], args)
  end.

(** The format is the list of its bytes. *)
Fixpoint printf (fuel : nat) (m : memory) (fmt : list byte) (args : list Z) : option (list byte) :=
  match fmt with
  | [] => Some []
  | Byte.x25 :: fmt =>
      match fmt with
      | [] => Some []
      | c :: fmt =>
          match conversion fuel m c args with
          | None => None
          | Some (l, args) =>
              match printf fuel m fmt args with Some r => Some (l ++ r) | None => None end
          end
      end
  | c :: fmt => match printf fuel m fmt args with Some r => Some (c :: r) | None => None end
  end.

(** ** Decimal numerals *)

Fixpoint dec_digits (fuel : nat) (x : Z) : list Z :=
  match fuel with
  | O => []
  | S k => x mod 10 :: (if x / 10 =? 0 then [] else dec_digits k (x / 10))
  end.

Lemma dec_loop_digits fuel x : dec_loop fuel x = map digit (dec_digits fuel x).
Proof.
  revert x. induction fuel as [|k IH]; intros x; simpl; [done|].
  destruct (x / 10 =? 0); simpl; [done|]. by rewrite IH.
Qed.

(** The value of a numeral, most significant digit first. *)
Definition numeral (b : Z) (ds : list Z) (n : Z) : Z := fold_left (fun n d => b * n + d) ds n.

Lemma numeral_app b ds ds' n : numeral b (ds ++ ds') n = numeral b ds' (numeral b ds n).
Proof. apply fold_left_app. Qed.

Lemma dec_digits_value fuel x :
  0 <= x < 10 ^ Z.of_nat fuel -> numeral 10 (rev (dec_digits fuel x)) 0 = x.
Proof.
  revert x. induction fuel as [|k IH]; intros x Hx; [simpl in *; lia|].
  rewrite Nat2Z.inj_succ, Z.pow_succ_r in Hx by lia. simpl rev. rewrite numeral_app.
  destruct (Z.eqb_spec (x / 10) 0) as [E|E]; [simpl; lia_mod|].
  rewrite IH by (split; [lia_mod|apply Z.div_lt_upper_bound; lia]). simpl. lia_mod.
Qed.

Lemma dec_digits_range fuel x : 0 <= x -> Forall (fun d => 0 <= d < 10) (dec_digits fuel x).
Proof.
  revert x. induction fuel as [|k IH]; intros x Hx; simpl; [done|].
  constructor; [lia_mod|]. destruct (x / 10 =? 0); [done|]. apply IH. lia_mod.
Qed.

Lemma numeral_ge ds n : Forall (fun d => 0 <= d < 10) ds -> 0 <= n -> n <= numeral 10 ds n.
Proof.
  revert n. induction ds as [|d ds IH]; intros n Hd Hn; simpl; [lia|].
  apply Forall_cons in Hd as [Hd Hds]. specialize (IH (10 * n + d) Hds ltac:(lia)).
  unfold numeral in *. lia.
Qed.

Lemma digit_dec d : 0 <= d < 10 -> byte.unsigned (digit d) = 48 + d.
Proof.
  intros Hd. assert (H : d = 0 \/ d = 1 \/ d = 2 \/ d = 3 \/ d = 4 \/ d = 5 \/ d = 6 \/ d = 7 \/
    d = 8 \/ d = 9) by lia.
  repeat (destruct H as [->|H]; [reflexivity|]). by subst d.
Qed.

Lemma atoi_digits ds : forall fuel m s n,
  Forall (fun d => 0 <= d < 10) ds -> 0 <= n -> numeral 10 ds n < 2147483648 ->
  load_bytes m s (S (length ds)) = map digit ds ++ [Byte.x00] -> (length ds < fuel)%nat ->
  atoi_loop fuel m s n = Some (numeral 10 ds n).
Proof.
  induction ds as [|d ds IH]; intros fuel m s n Hd Hn Hv Hm Hf;
    (destruct fuel as [|fuel]; [simpl in Hf; lia|]); rewrite load_bytes_cons in Hm;
    simpl atoi_loop; unfold ldc.
  - injection Hm as ->. done.
  - injection Hm as -> Hm. apply Forall_cons in Hd as [Hd Hds]. rewrite digit_dec by done.
    destruct (Z.leb_spec 48 (48 + d)), (Z.leb_spec (48 + d) 57); try lia. cbn [andb].
    pose proof (numeral_ge ds (10 * n + d) Hds ltac:(lia)).
    change (numeral 10 (d :: ds) n) with (numeral 10 ds (10 * n + d)) in *.
    rewrite s32_small by lia. replace (n * 10 + (48 + d) - 48) with (10 * n + d) by lia.
    apply IH; try done; [lia|]. simpl in Hf. lia.
Qed.

Lemma print_d_nonneg v : 0 <= v -> print_d v = map digit (rev (dec_digits 16 v)).
Proof.
  intros Hv. unfold print_d. destruct (Z.ltb_spec v 0); [lia|].
  by rewrite dec_loop_digits, map_rev.
Qed.

(** Decimal output and input are inverse.  A string that holds what
    [printf] prints for [%d] of a non-negative [int] is read back by [atoi] as
    that value. *)
Theorem print_atoi_roundtrip v m s fuel :
  0 <= v < 2147483648 ->
  load_bytes m s (S (length (print_d v))) = print_d v ++ [Byte.x00] ->
  (length (print_d v) < fuel)%nat -> atoi fuel m s = Some v.
Proof.
  intros Hv. rewrite print_d_nonneg by lia. rewrite length_map. intros Hm Hf.
  assert (Hval : numeral 10 (rev (dec_digits 16 v)) 0 = v) by (apply dec_digits_value; lia).
  unfold atoi. rewrite (atoi_digits (rev (dec_digits 16 v))); try done.
  - by rewrite Hval.
  - apply Forall_rev, dec_digits_range. lia.
  - lia.
Qed.

Lemma print_atoi_roundtrip_witness :
  atoi 20 (store_bytes (fun _ => Byte.x00) 100 (print_d 2025)) 100 = Some 2025.
Proof. by apply (print_atoi_roundtrip 2025); [lia|reflexivity|simpl; lia]. Defined.

(** ** Hexadecimal numerals *)

Fixpoint hex_digits (n : nat) (w x : Z) : list Z :=
  match n with
  | O => []
  | S k => Z.shiftr x (w - 4) :: hex_digits k w (Z.shiftl x 4 mod 2 ^ w)
  end.

Lemma print_x_digits n w x : print_x n w x = map digit (hex_digits n w x).
Proof. revert x. induction n as [|n IH]; intros x; simpl; [done|]. by rewrite IH. Qed.

(** The top [n] digits of an [x] of width [w]. *)
Lemma hex_digits_value n w x a :
  4 <= w -> 4 * Z.of_nat n <= w -> 0 <= x < 2 ^ w ->
  numeral 16 (hex_digits n w x) a =
    a * 2 ^ (4 * Z.of_nat n) + x / 2 ^ (w - 4 * Z.of_nat n) /\
  Forall (fun d => 0 <= d < 16) (hex_digits n w x).
Proof.
  revert x a. induction n as [|n IH]; intros x a Hw Hn Hx.
  - simpl. rewrite Z.sub_0_r, Z.div_small by lia. split; [lia|done].
  - assert (Hp : 2 ^ w = 16 * 2 ^ (w - 4))
      by (change 16 with (2 ^ 4); rewrite <- Z.pow_add_r by lia; f_equal; lia).
    assert (Hpos : 0 < 2 ^ (w - 4)) by (apply Z.pow_pos_nonneg; lia).
    assert (Hs : Z.shiftl x 4 mod 2 ^ w = 16 * (x mod 2 ^ (w - 4))).
    { rewrite Z.shiftl_mul_pow2 by lia. change (2 ^ 4) with 16. rewrite Hp, Z.mul_comm.
      by rewrite Zmult_mod_distr_l. }
    assert (Hd : Z.shiftr x (w - 4) = x / 2 ^ (w - 4)) by (apply Z.shiftr_div_pow2; lia).
    change (hex_digits (S n) w x) with
      (Z.shiftr x (w - 4) :: hex_digits n w (Z.shiftl x 4 mod 2 ^ w)).
    change (numeral 16 (Z.shiftr x (w - 4) :: ?l) a) with
      (numeral 16 l (16 * a + Z.shiftr x (w - 4))).
    rewrite Hs, Hd.
    pose proof (Z.mod_pos_bound x (2 ^ (w - 4)) Hpos) as Hm.
    destruct (IH (16 * (x mod 2 ^ (w - 4))) (16 * a + x / 2 ^ (w - 4))) as [-> Hf]; [lia..|].
    split.
    + rewrite Nat2Z.inj_succ in *.
      set (q := w - 4 * Z.succ (Z.of_nat n)).
      assert (Hq : 2 ^ (w - 4 * Z.of_nat n) = 16 * 2 ^ q)
        by (change 16 with (2 ^ 4); rewrite <- Z.pow_add_r by lia; f_equal; lia).
      assert (Hq4 : 2 ^ (w - 4) = 2 ^ (4 * Z.of_nat n) * 2 ^ q)
        by (rewrite <- Z.pow_add_r by lia; f_equal; lia).
      assert (H16 : 2 ^ (4 * Z.succ (Z.of_nat n)) = 16 * 2 ^ (4 * Z.of_nat n))
        by (change 16 with (2 ^ 4); rewrite <- Z.pow_add_r by lia; f_equal; lia).
      assert (0 < 2 ^ q) by (apply Z.pow_pos_nonneg; lia).
      assert (0 < 2 ^ (4 * Z.of_nat n)) by (apply Z.pow_pos_nonneg; lia).
      rewrite Hq, H16, Z.div_mul_cancel_l by lia.
      assert (Hx' : x / 2 ^ q =
        2 ^ (4 * Z.of_nat n) * (x / 2 ^ (w - 4)) + x mod 2 ^ (w - 4) / 2 ^ q).
      { rewrite <- Z.div_add_l by lia. f_equal.
        rewrite (Z.div_mod x (2 ^ (w - 4))) at 1 by lia. rewrite Hq4 at 1. ring. }
      rewrite Hx'. ring.
    + constructor; [|done]. split; [apply Z.div_pos; lia|apply Z.div_lt_upper_bound; lia].
Qed.

(** [%x] prints the value.  The eight digits for a [uint], and the sixteen
    for an [addr_t] with [%p], read as a hexadecimal numeral, are the value. *)
Theorem print_hex_value x :
  (exists ds, print_x32 (u32 x) = map digit ds /\ length ds = 8%nat /\
     Forall (fun d => 0 <= d < 16) ds /\ numeral 16 ds 0 = u32 x) /\
  (exists ds, print_x64 (u64 x) = map digit ds /\ length ds = 16%nat /\
     Forall (fun d => 0 <= d < 16) ds /\ numeral 16 ds 0 = u64 x).
Proof.
  pose proof (u32_range x). pose proof (u64_range x).
  split; [exists (hex_digits 8 32 (u32 x))|exists (hex_digits 16 64 (u64 x))].
  - destruct (hex_digits_value 8 32 (u32 x) 0) as [-> Hf]; [lia..|].
    split_and!; [apply print_x_digits|done|done|]. simpl. by rewrite Z.div_1_r.
  - destruct (hex_digits_value 16 64 (u64 x) 0) as [-> Hf]; [lia..|].
    split_and!; [apply print_x_digits|done|done|]. simpl. by rewrite Z.div_1_r.
Qed.

(** ** The copy *)

Lemma memmove_forward m dst src n :
  dst <= src \/ src + Z.of_nat n <= dst ->
  memmove m dst src n = store_bytes m dst (load_bytes m src n).
Proof. apply move_up_block. Qed.

(** The user library's [memmove] copies the block when the destination is
    not inside the source, and only then in general: it copies upwards always,
    and there is a copy to an overlapping higher address that it gets wrong,
    unlike the kernel's [memmove]. *)
Theorem ulib_memmove_overlap :
  (forall m dst src n, dst <= src \/ src + Z.of_nat n <= dst ->
     load_bytes (memmove m dst src n) dst n = load_bytes m src n) /\
  (exists m dst src n, src < dst < src + Z.of_nat n /\
     load_bytes (memmove m dst src n) dst n <> load_bytes m src n).
Proof.
  split.
  - intros m dst src n H. rewrite memmove_forward by done.
    apply load_store_same, length_load_bytes.
  - exists (store_bytes (fun _ => Byte.x00) 0 [Byte.x61; Byte.x62]), 1, 0, 2%nat.
    split; [lia|]. vm_compute. discriminate.
Qed.
