(* ===== verification/Cprintf.v ===== *)
(** * cprintf and panic of console.c

    The formatted output of the kernel, character by character through
    [consputc], and what it sends over the serial line. *)

From Stdlib Require Import Strings.String.
From S2P Require Import Prelude Memory CString FsState Machine Spinlock Kalloc Proc Sleeplock Bio Log Fs Console ConsoleSpec Ulib.
Local Open Scope Z_scope.
Local Open Scope kernel_scope.

Module Cprintf.

(** An argument: a number, or a pointer to a string, which may be null. *)
Inductive carg : Type := Int (z : Z) | Str (l : option (list byte)).

Definition int_arg (args : list carg) : Z := match args with Int z :: _ => z | _ => 0 end.
Definition str_arg (args : list carg) : option (list byte) := match args with Str l :: _ => l | _ => None end.

(** The digits are those of printf.c; [w] is the width of [x] in bits. *)
Fixpoint print_x (n : nat) (w x : Z) : K unit :=
  match n with
  | O => ret tt
  | S k => consputc (byte.unsigned (digit (Z.shiftr x (w - 4)))) ;; print_x k w (Z.shiftl x 4 mod 2 ^ w)
  end.

Definition print_x64 (x : Z) : K unit := print_x 16 64 x.
Definition print_x32 (x : Z) : K unit := print_x 8 32 x.

Definition print_d (v : Z) : K unit :=
  let x := if v <? 0 then - v else v in
  let buf := dec_loop 16 x in
  let buf := if v <? 0 then buf ++ [Byte.x2d] else buf in
  for_each (rev buf) (fun c => consputc (byte.unsigned c)).

Fixpoint cprintf_loop (fmt : list byte) (args : list carg) : K unit :=
  match fmt with
  | [] => ret tt
  | Byte.x25 :: fmt =>
      match fmt with
      | [] => ret tt
      | c :: fmt =>
          match c with
          | Byte.x64 => print_d (s32 (int_arg args)) ;; cprintf_loop fmt (tl args)
          | Byte.x78 => print_x32 (u32 (int_arg args)) ;; cprintf_loop fmt (tl args)
          | Byte.x70 => print_x64 (u64 (int_arg args)) ;; cprintf_loop fmt (tl args)
          | Byte.x73 =>
              for_each (default null_string (str_arg args)) (fun c => consputc (schar c)) ;;
              cprintf_loop fmt (tl args)
          | Byte.x25 => consputc 37 ;; cprintf_loop fmt args
          | _ => consputc 37 ;; consputc (byte.unsigned c) ;; cprintf_loop fmt args
          end
      end
  | c :: fmt => consputc (byte.unsigned c) ;; cprintf_loop fmt args
  end.

(** [locking] is [cons.locking]. *)
Definition cprintf (locking : bool) (fmt : option (list byte)) (args : list carg) : K unit :=
  when locking do acquire cons_lock ;;
  match fmt with
  | None => panic "null fmt"
  | Some fmt =>
      cprintf_loop fmt args ;;
      when locking do release cons_lock
  end.

(** The message of a panic on the processor [id]; [pcs] are the callers that
    [getcallerpcs] finds.  It prints without the lock, since it clears
    [cons.locking], and the processor then halts, which is the outcome; the
    interrupts that it turns off and [panicked], which stops the other
    processors, are not data of the state. *)
Definition panic (id : Z) (s : string) (pcs : list Z) : K unit :=
  cprintf false (Some (list_byte_of_string "cpu%d: panic: ")) [Int id] ;;
  cprintf false (Some (list_byte_of_string s)) [] ;;
  cprintf false (Some [Byte.x0a]) [] ;;
  for_each pcs (fun pc => cprintf false (Some (list_byte_of_string " %p" ++ [Byte.x0a])) [Int pc]) ;;
  Prelude.panic s.

End Cprintf.

Import Cprintf.

(** ** What is printed *)

(** The bytes of a format, with the numerals of printf.c. *)
Fixpoint cformat (fmt : list byte) (args : list carg) : list byte :=
  match fmt with
  | [] => []
  | Byte.x25 :: fmt =>
      match fmt with
      | [] => []
      | c :: fmt =>
          match c with
          | Byte.x64 => Ulib.print_d (s32 (int_arg args)) ++ cformat fmt (tl args)
          | Byte.x78 => Ulib.print_x32 (u32 (int_arg args)) ++ cformat fmt (tl args)
          | Byte.x70 => Ulib.print_x64 (u64 (int_arg args)) ++ cformat fmt (tl args)
          | Byte.x73 => default null_string (str_arg args) ++ cformat fmt (tl args)
          | Byte.x25 => Byte.x25 :: cformat fmt args
          | _ => Byte.x25 :: c :: cformat fmt args
          end
      end
  | c :: fmt => c :: cformat fmt args
  end.

(** [m] sends the bytes [l] over the serial line and changes the screen only. *)
Definition emits (m : K unit) (l : list byte) : Prop := forall s x mm, crt_ok x ->
  exists x' mm', m (with_tty s x mm) = Ok tt (with_tty s x' mm') /\ crt_ok x' /\
    serial x' = rev (map byte.unsigned l) ++ serial x.

Lemma emits_ret : emits (ret tt) [].
Proof. intros s x mm Hx. by exists x, mm. Qed.

Lemma emits_seq m1 m2 l1 l2 : emits m1 l1 -> emits m2 l2 -> emits (m1 ;; m2) (l1 ++ l2).
Proof.
  intros H1 H2 s x mm Hx. destruct (H1 s x mm Hx) as (x1 & mm1 & E1 & Hx1 & S1).
  destruct (H2 s x1 mm1 Hx1) as (x2 & mm2 & E2 & Hx2 & S2). exists x2, mm2. rewrite (bind_ok _ _ _ _ _ E1). split_and!; try done.
  by rewrite S2, S1, map_app, rev_app_distr, app_assoc.
Qed.

Lemma emits_int c b : u8 c = byte.unsigned b -> c <> BACKSPACE -> emits (consputc c) [b].
Proof.
  intros Hu Hb s x mm Hx. destruct (consputc_run c s x mm Hx) as (x' & mm' & E & [Hp _] & Hs). exists x', mm'. split_and!; try done.
  rewrite Hs. unfold sent. rewrite (proj2 (Z.eqb_neq _ _) Hb), Hu. done.
Qed.

Lemma emits_byte b : emits (consputc (byte.unsigned b)) [b].
Proof.
  pose proof (byte.unsigned_range b). apply emits_int; [unfold u8; apply Z.mod_small; lia|unfold BACKSPACE; lia].
Qed.

Lemma emits_schar b : emits (consputc (schar b)) [b].
Proof. apply emits_int; [by destruct b|]. unfold BACKSPACE. by destruct b. Qed.

Lemma emits_list (f : byte -> Z) l : (forall b, emits (consputc (f b)) [b]) -> emits (for_each l (fun c => consputc (f c))) l.
Proof. intros Hf. induction l as [|b l IH]; cbn [for_each]; [apply emits_ret|]. by apply (emits_seq _ _ [b] l). Qed.

Lemma emits_print_x w n : forall x, emits (Cprintf.print_x n w x) (Ulib.print_x n w x).
Proof.
  induction n as [|n IH]; intros x; cbn [Cprintf.print_x Ulib.print_x]; [apply emits_ret|].
  apply (emits_seq _ _ [digit (Z.shiftr x (w - 4))]); [apply emits_byte|apply IH].
Qed.

Lemma emits_print_d v : emits (Cprintf.print_d v) (Ulib.print_d v).
Proof. unfold Cprintf.print_d, Ulib.print_d. apply emits_list, emits_byte. Qed.

Lemma emits_cprintf : forall n fmt args, (length fmt <= n)%nat -> emits (cprintf_loop fmt args) (cformat fmt args).
Proof.
  induction n as [|n IH]; intros fmt args Hn; (destruct fmt as [|c fmt]; [apply emits_ret|]); [simpl in Hn; lia|].
  simpl in Hn. destruct (decide (c = Byte.x25)) as [->|Hc].
  - destruct fmt as [|d fmt]; [apply emits_ret|]. simpl in Hn. cbn [cprintf_loop cformat].
    assert (Hd : emits (consputc 37 ;; consputc (byte.unsigned d) ;; cprintf_loop fmt args) (Byte.x25 :: d :: cformat fmt args)).
    { apply (emits_seq _ _ [Byte.x25]); [apply (emits_byte Byte.x25)|]. apply (emits_seq _ _ [d]); [apply emits_byte|apply IH; lia]. }
    destruct d; try exact Hd; apply (emits_seq _ _ [Byte.x25]) || apply emits_seq; try (apply IH; lia).
    + apply (emits_byte Byte.x25).
    + apply emits_print_d.
    + apply emits_print_x.
    + apply emits_list, emits_schar.
    + apply emits_print_x.
  - assert (E1 : cprintf_loop (c :: fmt) args = (consputc (byte.unsigned c) ;; cprintf_loop fmt args)) by (destruct c; done).
    assert (E2 : cformat (c :: fmt) args = c :: cformat fmt args) by (destruct c; done).
    rewrite E1, E2. apply (emits_seq _ _ [c]); [apply emits_byte|apply IH; lia].
Qed.

(** [cprintf] sends the bytes of its format: numerals are those of printf.c, and
    the lock of the console is taken and given back when [cons.locking] is set. *)
Theorem cprintf_prints locking fmt args s :
  crt_ok (tty (fs s)) -> lock_free cons_lock s -> cpu_wf (this_cpu s) ->
  exists x m, cprintf locking (Some fmt) args s =
      Ok tt (with_tty (if locking then set_cpu (cpu_norm (this_cpu s)) s else s) x m) /\ crt_ok x /\
    serial x = rev (map byte.unsigned (cformat fmt args)) ++ serial (tty (fs s)).
Proof.
  intros Hx Hl Hc. unfold cprintf. pose proof (emits_cprintf (length fmt) fmt args (le_n _)) as He. destruct locking.
  - rewrite (bind_ok _ _ _ _ _ (acquire_free _ _ Hl)). rewrite <- (with_tty_id (locked_state cons_lock s)).
    destruct (He (locked_state cons_lock s) (tty (fs s)) (mem s) Hx) as (x' & m' & E & Hx' & Hs).
    exists x', m'. split; [|done]. rewrite (bind_ok _ _ _ _ _ E). rewrite (release_held _ _ s); [|done..]. by destruct s.
  - destruct (He s (tty (fs s)) (mem s) Hx) as (x' & m' & E & Hx' & Hs). rewrite with_tty_id in E.
    exists x', m'. split; [|done]. rewrite bind_ret. by rewrite (bind_ok _ _ _ _ _ E).
Qed.
