(* ===== verification/Coreutils.v ===== *)
(** * The small user programs

    cat.c, wc.c, ls.c, echo.c, rm.c, mkdir.c, ln.c, kill.c and init.c, over the
    system calls as operations of the class [Unix] on a world of files, open
    files and processes.  A program returns, exits, or runs out of the bound of
    its model; all of them leave a world.  A string is the list of its bytes, and
    [argv] the list of the arguments. *)

From Stdlib Require Import Strings.String.
From S2P Require Import Prelude Memory CString FsState Machine Fs Sysfile Ulib.
Local Open Scope Z_scope.
Local Open Scope kernel_scope.

Record stat := mk_stat { st_type : Z; st_dev : Z; st_ino : Z; st_nlink : Z; st_size : Z }.

(** [read] returns its result and the bytes that it put into the buffer; [exec]
    returns only when it fails. *)
Class Unix (W : Type) := {
  read : Z -> Z -> W -> Z * list byte * W;
  write : Z -> list byte -> W -> Z * W;
  open : list byte -> Z -> W -> Z * W;
  close : Z -> W -> Z * W;
  fstat : Z -> W -> Z * stat * W;
  unlink : list byte -> W -> Z * W;
  mkdir : list byte -> W -> Z * W;
  link : list byte -> list byte -> W -> Z * W;
  kill : Z -> W -> Z * W;
  mknod : list byte -> Z -> Z -> W -> Z * W;
  dup : Z -> W -> Z * W;
  fork : W -> Z * W;
  exec : list byte -> list (list byte) -> W -> option Z * W;
  wait : W -> Z * W;
}.

Module Coreutils.

Inductive result (A : Type) : Type := Done (a : A) | Exited | NoFuel.
Arguments Done {A}.
Arguments Exited {A}.
Arguments NoFuel {A}.

Section Programs.
Context {W : Type} `{Unix W}.

Definition U (A : Type) : Type := W -> result A * W.
Definition done {A} (a : A) : U A := fun w => (Done a, w).
Definition exit {A} : U A := fun w => (Exited, w).
Definition no_fuel {A} : U A := fun w => (NoFuel, w).
Definition andthen {A B} (m : U A) (k : A -> U B) : U B := fun w =>
  match m w with
  | (Done a, w') => k a w'
  | (Exited, w') => (Exited, w')
  | (NoFuel, w') => (NoFuel, w')
  end.
Definition call {A} (f : W -> A * W) : U A := fun w => let '(a, w') := f w in (Done a, w').

Notation "x <~ m ;;; k" := (andthen m (fun x => k)) (at level 100, m at next level, right associativity).
Notation "m ;;; k" := (andthen m (fun _ => k)) (at level 100, right associativity).

Definition text (s : string) : list byte := list_byte_of_string s.

(** An argument of printf: a number or a string. *)
Inductive parg : Type := Int (z : Z) | Str (l : list byte).

(** What printf.c prints for a format with [%d] and [%s] ([format_printf]). *)
Fixpoint format (fmt : list byte) (args : list parg) : list byte :=
  match fmt with
  | Byte.x25 :: Byte.x64 :: fmt =>
      match args with Int z :: args => print_d (s32 z) ++ format fmt args | _ => format fmt (tl args) end
  | Byte.x25 :: Byte.x73 :: fmt =>
      match args with Str l :: args => l ++ format fmt args | _ => format fmt (tl args) end
  | c :: fmt => c :: format fmt args
  | [] => []
  end.

(** One [write] for each character. *)
Fixpoint put (fd : Z) (l : list byte) : U unit :=
  match l with
  | [] => done tt
  | c :: l => call (write fd [c]) ;;; put fd l
  end.

(** [printf(fd, fmt, ...)] of a format that ends in a new line. *)
Definition printf (fd : Z) (fmt : string) (args : list parg) : U unit := put fd (format (text fmt) args ++ [Byte.x0a]).

(** [for(i = 1; i < argc; i++)]: the arguments after the first. *)
Fixpoint for_args (f : list byte -> U bool) (args : list (list byte)) : U unit :=
  match args with
  | [] => done tt
  | a :: args => go <~ f a ;;; if go : bool then for_args f args else done tt
  end.

(** ** cat.c *)

Definition sizeof_buf : Z := 512.

(** The loop of [cat]; it returns the last result of [read]. *)
Fixpoint cat_loop (fuel : nat) (fd : Z) : U Z :=
  match fuel with
  | O => no_fuel
  | S k =>
      r <~ call (read fd sizeof_buf) ;;;
      let '(n, buf) := r in
      if 0 <? n then
        m <~ call (write 1 (take (Z.to_nat n) buf)) ;;;
        if negb (m =? n) then printf 1 "cat: write error" [] ;;; exit else cat_loop k fd
      else done n
  end.

Definition cat (fuel : nat) (fd : Z) : U unit :=
  n <~ cat_loop fuel fd ;;;
  if n <? 0 then printf 1 "cat: read error" [] ;;; exit else done tt.

Definition cat_main (fuel : nat) (argv : list (list byte)) : U unit :=
  match argv with
  | [] | [_] => cat fuel 0 ;;; exit
  | _ :: args =>
      for_args (fun a =>
        fd <~ call (open a 0) ;;;
        if fd <? 0 then printf 1 "cat: cannot open %s" [Str a] ;;; exit else
        cat fuel fd ;;;
        call (close fd) ;;;
        done true) args ;;;
      exit
  end.

(** ** wc.c *)

Record counts := mk_counts { c_l : Z; c_w : Z; c_c : Z; c_inword : bool }.

(** [strchr(" \r\t\n\v", c)] *)
Definition blank (c : byte) : bool := bool_decide (c ∈ [Byte.x20; Byte.x0d; Byte.x09; Byte.x0a; Byte.x0b]).

Definition wc_char (s : counts) (ch : byte) : counts :=
  let c := s32 (c_c s + 1) in
  let l := if bool_decide (ch = Byte.x0a) then s32 (c_l s + 1) else c_l s in
  if blank ch then mk_counts l (c_w s) c false
  else if negb (c_inword s) then mk_counts l (s32 (c_w s + 1)) c true
  else mk_counts l (c_w s) c (c_inword s).

Fixpoint wc_loop (fuel : nat) (fd : Z) (s : counts) : U (Z * counts) :=
  match fuel with
  | O => no_fuel
  | S k =>
      r <~ call (read fd sizeof_buf) ;;;
      let '(n, buf) := r in
      if 0 <? n then wc_loop k fd (foldl wc_char s (take (Z.to_nat n) buf)) else done (n, s)
  end.

Definition wc (fuel : nat) (fd : Z) (name : list byte) : U unit :=
  r <~ wc_loop fuel fd (mk_counts 0 0 0 false) ;;;
  let '(n, s) := r in
  if n <? 0 then printf 1 "wc: read error" [] ;;; exit else
  printf 1 "%d %d %d %s" [Int (c_l s); Int (c_w s); Int (c_c s); Str name].

Definition wc_main (fuel : nat) (argv : list (list byte)) : U unit :=
  match argv with
  | [] | [_] => wc fuel 0 [] ;;; exit
  | _ :: args =>
      for_args (fun a =>
        fd <~ call (open a 0) ;;;
        if fd <? 0 then printf 1 "wc: cannot open %s" [Str a] ;;; exit else
        wc fuel fd a ;;;
        call (close fd) ;;;
        done true) args ;;;
      exit
  end.

(** ** ls.c *)

(** The characters after the last slash. *)
Fixpoint after_slash (path : list byte) : list byte :=
  match path with
  | [] => []
  | c :: q => if bool_decide (slash ∈ path) then after_slash q else path
  end.

Definition fmtname (path : list byte) : list byte :=
  let p := after_slash path in
  if (DIRSIZ <=? length p)%nat then p else p ++ replicate (DIRSIZ - length p) Byte.x20.

(** ulib.c *)
Definition stat_ (n : list byte) : U (Z * stat) :=
  fd <~ call (open n 0) ;;;
  if fd <? 0 then done (-1, mk_stat 0 0 0 0 0) else
  r <~ call (fstat fd) ;;;
  call (close fd) ;;;
  done r.

Definition ls_line (path : list byte) (st : stat) : U unit :=
  printf 1 "%s %d %d %d" [Str (fmtname path); Int (st_type st); Int (st_ino st); Int (st_size st)].

Fixpoint ls_loop (fuel : nat) (fd : Z) (path : list byte) : U unit :=
  match fuel with
  | O => no_fuel
  | S k =>
      r <~ call (read fd sizeof_dirent) ;;;
      let '(n, de) := r in
      if negb (n =? sizeof_dirent) then done tt
      else if de_inum de =? 0 then ls_loop k fd path
      else
        let buf := path ++ [slash] ++ cstr (de_name de) in
        r <~ stat_ buf ;;;
        let '(n, st) := r in
        (if n <? 0 then printf 1 "ls: cannot stat %s" [Str buf] else ls_line buf st) ;;;
        ls_loop k fd path
  end.

Definition ls (fuel : nat) (path : list byte) : U unit :=
  fd <~ call (open path 0) ;;;
  if fd <? 0 then printf 2 "ls: cannot open %s" [Str path] else
  r <~ call (fstat fd) ;;;
  let '(n, st) := r in
  if n <? 0 then printf 2 "ls: cannot stat %s" [Str path] ;;; call (close fd) ;;; done tt else
  (if st_type st =? T_FILE then ls_line path st
   else if st_type st =? T_DIR then
     if (512 <? length path + 1 + DIRSIZ + 1)%nat then printf 1 "ls: path too long" []
     else ls_loop fuel fd path
   else done tt) ;;;
  call (close fd) ;;;
  done tt.

Definition ls_main (fuel : nat) (argv : list (list byte)) : U unit :=
  match argv with
  | [] | [_] => ls fuel (text ".") ;;; exit
  | _ :: args => for_args (fun a => ls fuel a ;;; done true) args ;;; exit
  end.

(** ** echo.c, rm.c, mkdir.c, ln.c and kill.c *)

Fixpoint echo_loop (args : list (list byte)) : U unit :=
  match args with
  | [] => done tt
  | [a] => put 1 (format (text "%s%s") [Str a; Str [Byte.x0a]])
  | a :: args => put 1 (format (text "%s%s") [Str a; Str [Byte.x20]]) ;;; echo_loop args
  end.
Definition echo_main (argv : list (list byte)) : U unit := echo_loop (tl argv) ;;; exit.

Definition rm_main (argv : list (list byte)) : U unit :=
  (if (length argv <? 2)%nat then printf 2 "Usage: rm files..." [] ;;; exit else done tt) ;;;
  for_args (fun a =>
    r <~ call (unlink a) ;;;
    if r <? 0 then printf 2 "rm: %s failed to delete" [Str a] ;;; done false else done true) (tl argv) ;;;
  exit.

Definition mkdir_main (argv : list (list byte)) : U unit :=
  (if (length argv <? 2)%nat then printf 2 "Usage: mkdir files..." [] ;;; exit else done tt) ;;;
  for_args (fun a =>
    r <~ call (mkdir a) ;;;
    if r <? 0 then printf 2 "mkdir: %s failed to create" [Str a] ;;; done false else done true) (tl argv) ;;;
  exit.

Definition ln_main (argv : list (list byte)) : U unit :=
  match argv with
  | [_; old; new] =>
      r <~ call (link old new) ;;;
      (if r <? 0 then printf 2 "link %s %s: failed" [Str old; Str new] else done tt) ;;;
      exit
  | _ => printf 2 "Usage: ln old new" [] ;;; exit
  end.

(** [atoi] of a string in no memory in particular. *)
Definition atoi_of (l : list byte) : Z :=
  default 0 (atoi (S (length l)) (store_bytes (fun _ => Byte.x00) 0 l) 0).

Definition kill_main (argv : list (list byte)) : U unit :=
  (if (length argv <? 2)%nat then printf 2 "usage: kill pid..." [] ;;; exit else done tt) ;;;
  for_args (fun a => call (kill (atoi_of a)) ;;; done true) (tl argv) ;;;
  exit.

(** ** init.c *)

Fixpoint init_wait (fuel : nat) (pid : Z) : U unit :=
  match fuel with
  | O => no_fuel
  | S k =>
      wpid <~ call wait ;;;
      if (0 <=? wpid) && negb (wpid =? pid) then printf 1 "zombie!" [] ;;; init_wait k pid else done tt
  end.

(** [for(;;)]: as many shells as the first bound says. *)
Fixpoint init_loop (shells fuel : nat) : U unit :=
  match shells with
  | O => no_fuel
  | S k =>
      printf 1 "init: starting sh" [] ;;;
      pid <~ call fork ;;;
      if pid <? 0 then printf 1 "init: fork failed" [] ;;; exit
      else if pid =? 0 then
        r <~ call (exec (text "sh") [text "sh"]) ;;;
        match r with
        | None => exit
        | Some _ => printf 1 "init: exec sh failed" [] ;;; exit
        end
      else init_wait fuel pid ;;; init_loop k fuel
  end.

Definition init_main (shells fuel : nat) : U unit :=
  fd <~ call (open (text "console") O_RDWR) ;;;
  (if fd <? 0 then
     call (mknod (text "console") 1 1) ;;;
     call (open (text "console") O_RDWR) ;;;
     done tt
   else done tt) ;;;
  call (dup 0) ;;;
  call (dup 0) ;;;
  init_loop shells fuel.

End Programs.

End Coreutils.
