(* ===== verification/CoreutilsSpec.v ===== *)
(** * What cat and wc print

    The system calls have the documented behaviour of files ([UnixLaws]): [read]
    returns a part of what is left, of any size, and nothing only at the end.
    Then cat prints the files and wc counts their lines, words and characters,
    however the file is cut into reads. *)

From S2P Require Import Prelude Memory CString FsState Machine Fs Ulib Coreutils.
Import Coreutils.
Local Open Scope Z_scope.
Local Open Scope kernel_scope.

(** [left w fd] is what an open file has left to read, [out w fd] what was written
    to a descriptor, [files w] the files that can be opened; [room w] says that a
    descriptor is free. *)
Class UnixLaws (W : Type) `{Unix W} := {
  left : W -> Z -> option (list byte);
  out : W -> Z -> list byte;
  files : W -> list byte -> option (list byte);
  room : W -> Prop;
  law_read w fd n l : left w fd = Some l -> 0 < n -> exists k w', read fd n w = (Z.of_nat k, take k l, w') /\
    (k <= length l)%nat /\ Z.of_nat k <= n /\ (l <> [] -> (0 < k)%nat) /\
    left w' fd = Some (drop k l) /\ out w' = out w /\ files w' = files w;
  law_write w l : exists w', write 1 l w = (Z.of_nat (length l), w') /\ out w' 1 = out w 1 ++ l /\
    left w' = left w /\ files w' = files w;
  law_open w p l : files w p = Some l -> room w -> exists fd w', open p 0 w = (fd, w') /\ 0 <= fd /\
    left w' fd = Some l /\ out w' = out w /\ files w' = files w;
  law_open_none w p : files w p = None -> exists w', open p 0 w = (-1, w') /\ out w' = out w /\ files w' = files w;
  law_close w fd l : left w fd = Some l -> exists r w', close fd w = (r, w') /\ room w' /\ out w' = out w /\ files w' = files w;
}.

(** ** The counts of a text *)

Fixpoint fields (l : list byte) : list (list byte) :=
  match l with
  | [] => [[]]
  | c :: l =>
      if blank c then [] :: fields l
      else match fields l with f :: fs => (c :: f) :: fs | [] => [[c]] end
  end.

Definition lines (l : list byte) : Z := Z.of_nat (length (filter (fun c => c = Byte.x0a) l)).
Definition words (l : list byte) : Z := Z.of_nat (length (filter (fun f => f <> []) (fields l))).

(** A word that goes on at the start of the text is not counted again. *)
Definition goes_on (l : list byte) : Z := match l with c :: _ => if blank c then 0 else 1 | [] => 0 end.

Definition filled (l : list (list byte)) : nat := length (filter (fun f => f <> []) l).

Lemma filled_nil l : filled ([] :: l) = filled l.
Proof. unfold filled. by rewrite filter_cons_False by auto. Qed.

Lemma filled_cons c f l : filled ((c :: f) :: l) = S (filled l).
Proof. unfold filled. by rewrite filter_cons_True. Qed.

Lemma words_cons c l : words (c :: l) = if blank c then words l else words l + 1 - goes_on l.
Proof.
  unfold words. fold (filled (fields (c :: l))). fold (filled (fields l)). cbn [fields].
  destruct (blank c) eqn:E; [by rewrite filled_nil|].
  destruct l as [|d l]; cbn [fields goes_on]; [rewrite filled_cons, !filled_nil; lia|]. destruct (blank d) eqn:E2.
  - rewrite filled_cons, filled_nil. lia.
  - destruct (fields l) as [|f fs]; rewrite !filled_cons; lia.
Qed.

Lemma goes_on_range l : 0 <= goes_on l <= words l.
Proof.
  destruct l as [|c l]; [done|]. cbn [goes_on]. unfold words. fold (filled (fields (c :: l))). cbn [fields].
  destruct (blank c); [lia|]. destruct (fields l); rewrite filled_cons; lia.
Qed.

Lemma words_le l : words l <= Z.of_nat (length l).
Proof.
  induction l as [|c l IH]; [done|]. rewrite words_cons. simpl length. pose proof (goes_on_range l). destruct (blank c); lia.
Qed.

Lemma lines_le l : lines l <= Z.of_nat (length l).
Proof. unfold lines. pose proof (length_filter (fun c => c = Byte.x0a) l). lia. Qed.

Lemma wc_fold l : forall s, 0 <= c_l s -> 0 <= c_w s -> 0 <= c_c s ->
  c_l s + Z.of_nat (length l) < 2 ^ 31 -> c_w s + Z.of_nat (length l) < 2 ^ 31 -> c_c s + Z.of_nat (length l) < 2 ^ 31 ->
  let s' := foldl wc_char s l in
  c_l s' = c_l s + lines l /\ c_w s' = c_w s + words l - (if c_inword s then goes_on l else 0) /\
  c_c s' = c_c s + Z.of_nat (length l).
Proof.
  induction l as [|c l IH]; intros s H1 H2 H3 B1 B2 B3; cbv zeta; cbn [foldl].
  - change (lines []) with 0. change (words []) with 0. cbn [goes_on length]. destruct (c_inword s); lia.
  - simpl length in *. specialize (IH (wc_char s c)). cbv zeta in IH. pose proof (words_cons c l) as Hw. pose proof (goes_on_range l).
    assert (Hl : lines (c :: l) = (if bool_decide (c = Byte.x0a) then 1 else 0) + lines l).
    { unfold lines. rewrite filter_cons. case_bool_decide; [rewrite decide_True by done; simpl length; lia|by rewrite decide_False]. }
    revert IH Hw Hl. cbn [goes_on]. unfold wc_char. rewrite !s32_small by lia.
    destruct (blank c), (c_inword s); cbn [c_l c_w c_c c_inword negb];
      case_bool_decide as Hc; intros IH Hw Hl; (destruct IH as (I1 & I2 & I3); [lia..|]); rewrite I1, I2, I3; split_and!; lia.
Qed.

(** ** printf

    The calls of the programs print what printf.c prints: for a format whose
    conversions are [%d] and [%s], and the words of its arguments, with the
    strings in memory. *)

Inductive typed : list byte -> list parg -> Prop :=
  | typed_nil : typed [] []
  | typed_d fmt z args : typed fmt args -> typed (Byte.x25 :: Byte.x64 :: fmt) (Int z :: args)
  | typed_s fmt l args : typed fmt args -> typed (Byte.x25 :: Byte.x73 :: fmt) (Str l :: args)
  | typed_char c fmt args : c <> Byte.x25 -> typed fmt args -> typed (c :: fmt) args.

Definition word_of (fuel : nat) (m : memory) (a : parg) (v : Z) : Prop :=
  match a with Int z => v = z | Str l => v <> 0 /\ put_string fuel m v = Some l end.

Lemma format_printf fuel m fmt args vs : typed fmt args -> Forall2 (word_of fuel m) args vs ->
  Ulib.printf fuel m fmt vs = Some (format fmt args).
Proof.
  intros Ht. revert vs. induction Ht as [|fmt z args _ IH|fmt l args _ IH|c fmt args Hc _ IH]; intros vs Hv.
  - done.
  - apply Forall2_cons_inv_l in Hv as (v & vs' & Hz & Hv & ->). cbn in Hz |- *. by rewrite (IH vs' Hv), Hz.
  - apply Forall2_cons_inv_l in Hv as (v & vs' & [Hz Hl] & Hv & ->). cbn.
    by rewrite (proj2 (Z.eqb_neq _ _) Hz), Hl, (IH vs' Hv).
  - specialize (IH vs Hv). destruct c; try (cbn [Ulib.printf format]; by rewrite IH). by destruct Hc.
Qed.

(** ** Files *)

Section Spec.
Context {W : Type} `{UnixLaws W}.
Implicit Type w : W.

(** The run of a program leaves these observations. *)
Definition prints (l : list byte) w w' : Prop := out w' 1 = out w 1 ++ l /\ files w' = files w.

Lemma prints_app l1 l2 w1 w2 w3 : prints l1 w1 w2 -> prints l2 w2 w3 -> prints (l1 ++ l2) w1 w3.
Proof. intros [E1 F1] [E2 F2]. split; [by rewrite E2, E1, app_assoc|congruence]. Qed.

Lemma prints_nil w w' : out w' = out w -> files w' = files w -> prints [] w w'.
Proof. intros E F. split; [by rewrite E, app_nil_r|done]. Qed.

Lemma put_prints l : forall w, exists w', put 1 l w = (Done tt, w') /\ prints l w w' /\ left w' = left w.
Proof.
  induction l as [|c l IH]; intros w.
  - exists w. split; [done|]. split; [by apply prints_nil|done].
  - destruct (law_write w [c]) as (w1 & E1 & O1 & L1 & F1). destruct (IH w1) as (w2 & E2 & P2 & L2). exists w2.
    split; [|split; [|congruence]].
    + cbn [put]. unfold andthen, call. by rewrite E1.
    + apply (prints_app [c] l w w1 w2); [|done]. by split.
Qed.

Lemma printf_ok fmt args w : exists w', printf 1 fmt args w = (Done tt, w') /\
  prints (format (text fmt) args ++ [Byte.x0a]) w w' /\ left w' = left w.
Proof. apply put_prints. Qed.

Lemma cat_loop_ok fd : forall fuel l w, left w fd = Some l -> (length l < fuel)%nat ->
  exists w', cat_loop fuel fd w = (Done 0, w') /\ prints l w w' /\ left w' fd = Some [].
Proof.
  induction fuel as [|fuel IH]; intros l w Hl Hf; [lia|]. cbn [cat_loop].
  destruct (law_read w fd sizeof_buf l Hl ltac:(done)) as (k & w1 & E1 & Hk & _ & Hpos & L1 & O1 & F1).
  unfold andthen at 1, call. rewrite E1. destruct l as [|c l].
  - simpl in Hk. assert (k = 0%nat) as -> by lia. exists w1. split; [done|]. split; [by apply prints_nil|done].
  - specialize (Hpos ltac:(done)). rewrite (proj2 (Z.ltb_lt _ _)) by lia. rewrite Nat2Z.id, take_take, Nat.min_id.
    destruct (law_write w1 (take k (c :: l))) as (w2 & E2 & O2 & L2 & F2). unfold andthen. rewrite E2.
    rewrite length_take_le, Z.eqb_refl by done. cbn [negb].
    destruct (IH (drop k (c :: l)) w2) as (w3 & E3 & P3 & L3); [by rewrite L2|rewrite length_drop; simpl in *; lia|].
    exists w3. split; [done|]. split; [|done]. rewrite <- (take_drop k (c :: l)).
    eapply prints_app; [|exact P3]. split; [by rewrite O2, O1|congruence].
Qed.

Lemma cat_ok fuel fd l w : left w fd = Some l -> (length l < fuel)%nat ->
  exists w', cat fuel fd w = (Done tt, w') /\ prints l w w' /\ left w' fd = Some [].
Proof.
  intros Hl Hf. destruct (cat_loop_ok fd fuel l w Hl Hf) as (w' & E & P & L'). exists w'. split; [|done].
  unfold cat, andthen. by rewrite E.
Qed.

Lemma wc_loop_ok fd : forall fuel l w s, left w fd = Some l -> (length l < fuel)%nat ->
  exists w', wc_loop fuel fd s w = (Done (0, foldl wc_char s l), w') /\ prints [] w w' /\ left w' fd = Some [].
Proof.
  induction fuel as [|fuel IH]; intros l w s Hl Hf; [lia|]. cbn [wc_loop].
  destruct (law_read w fd sizeof_buf l Hl ltac:(done)) as (k & w1 & E1 & Hk & _ & Hpos & L1 & O1 & F1).
  unfold andthen, call. rewrite E1. destruct l as [|c l].
  - simpl in Hk. assert (k = 0%nat) as -> by lia. exists w1. split; [done|]. split; [by apply prints_nil|done].
  - specialize (Hpos ltac:(done)). rewrite (proj2 (Z.ltb_lt _ _)) by lia. rewrite Nat2Z.id, take_take, Nat.min_id.
    destruct (IH (drop k (c :: l)) w1 (foldl wc_char s (take k (c :: l)))) as (w2 & E2 & P2 & L2); [done|rewrite length_drop; simpl in *; lia|].
    exists w2. split; [|split; [|done]].
    + rewrite E2, <- foldl_app, take_drop. done.
    + apply (prints_app [] [] w w1 w2); [by apply prints_nil|done].
Qed.

(** The line of a file. *)
Definition wc_line (l name : list byte) : list byte :=
  print_d (lines l) ++ [Byte.x20] ++ print_d (words l) ++ [Byte.x20] ++ print_d (Z.of_nat (length l)) ++ [Byte.x20] ++ name ++ [Byte.x0a].

Lemma wc_ok fuel fd l name w : left w fd = Some l -> (length l < fuel)%nat -> Z.of_nat (length l) < 2 ^ 31 ->
  exists w', wc fuel fd name w = (Done tt, w') /\ prints (wc_line l name) w w' /\ left w' fd = Some [].
Proof.
  intros Hl Hf Hb. destruct (wc_loop_ok fd fuel l w (mk_counts 0 0 0 false) Hl Hf) as (w1 & E1 & P1 & L1).
  destruct (wc_fold l (mk_counts 0 0 0 false)) as (C1 & C2 & C3); [cbn; lia..|]. cbn [c_l c_w c_c c_inword] in *.
  unfold wc, andthen. rewrite E1. set (s := foldl _ _ _) in *. change (0 <? 0) with false. cbv iota.
  destruct (printf_ok "%d %d %d %s" [Int (c_l s); Int (c_w s); Int (c_c s); Str name] w1) as (w2 & E2 & P2 & L2).
  exists w2. split; [exact E2|]. split; [|by rewrite L2].
  assert (Hfmt : format (text "%d %d %d %s") [Int (c_l s); Int (c_w s); Int (c_c s); Str name] ++ [Byte.x0a] = wc_line l name).
  { pose proof (lines_le l). pose proof (words_le l). pose proof (goes_on_range l). rewrite C1, C2, C3.
    unfold wc_line. change (text "%d %d %d %s") with [Byte.x25; Byte.x64; Byte.x20; Byte.x25; Byte.x64; Byte.x20; Byte.x25; Byte.x64; Byte.x20; Byte.x25; Byte.x73].
    cbn [format]. assert (0 <= lines l) by (unfold lines; lia).
    rewrite !s32_small by lia. rewrite Z.sub_0_r, !Z.add_0_l, app_nil_r. repeat (rewrite <- app_assoc; cbn [app]). done. }
  rewrite Hfmt in P2. exact (prints_app [] _ w w1 w2 P1 P2).
Qed.

(** What a program prints that works on its arguments one after the other, and
    stops at one that it cannot open. *)
Fixpoint report (fs : list byte -> option (list byte)) (line : list byte -> list byte -> list byte) (fmt : string)
    (args : list (list byte)) : list byte :=
  match args with
  | [] => []
  | a :: args =>
      match fs a with
      | Some l => line l a ++ report fs line fmt args
      | None => format (text fmt) [Str a] ++ [Byte.x0a]
      end
  end.

Lemma for_files_ok fmt (run : Z -> list byte -> U unit) line (P : list byte -> Prop) :
  (forall fd a l w, left w fd = Some l -> P l -> exists w', run fd a w = (Done tt, w') /\ prints (line l a) w w' /\ left w' fd = Some []) ->
  forall args w, room w -> (forall a l, a ∈ args -> files w a = Some l -> P l) ->
  exists w', andthen (for_args (fun a => andthen (call (open a 0)) (fun fd =>
      if fd <? 0 then andthen (printf 1 fmt [Str a]) (fun _ => exit)
      else andthen (run fd a) (fun _ => andthen (call (close fd)) (fun _ => done true)))) args) (fun _ => exit) w =
    (Exited (A := unit), w') /\ prints (report (files w) line fmt args) w w'.
Proof.
  intros Hrun. induction args as [|a args IH]; intros w Hroom HP; cbn [for_args report].
  - exists w. split; [done|by apply prints_nil].
  - unfold andthen in *. unfold call in *. destruct (files w a) as [l|] eqn:Ea.
    + destruct (law_open w a l Ea Hroom) as (fd & w1 & -> & Hfd & L1 & O1 & F1). rewrite (proj2 (Z.ltb_ge _ _)) by lia.
      destruct (Hrun fd a l w1 L1 ltac:(by apply (HP a l); [left|])) as (w2 & E2 & P2 & L2). rewrite E2.
      destruct (law_close w2 fd [] L2) as (r & w3 & E3 & R3 & O3 & F3). rewrite E3. unfold done.
      assert (F : files w3 = files w) by (rewrite F3, (proj2 P2); done).
      destruct (IH w3 R3) as (w4 & E4 & P4); [intros b c Hb Hc; apply (HP b c); [by right|congruence]|].
      exists w4. split; [exact E4|]. rewrite F in P4. apply (prints_app (line l a) _ w w3 w4); [|exact P4].
      apply (prints_app [] _ w w1 w3); [by apply prints_nil|]. destruct P2 as [P2 P2']. split; [by rewrite O3|congruence].
    + destruct (law_open_none w a Ea) as (w1 & -> & O1 & F1). change (-1 <? 0) with true. cbv iota.
      destruct (printf_ok fmt [Str a] w1) as (w2 & -> & P2 & _). exists w2. split; [done|].
      apply (prints_app [] _ w w1 w2); [by apply prints_nil|exact P2].
Qed.

(** C36: wc counts, and cat copies, what the files hold.  For the files on its
    command line, up to the first that cannot be opened, wc prints the numbers
    of new lines, of words and of characters of the whole file, and cat the file
    itself, in whatever pieces [read] delivers it: a word that is cut by the end of
    a read is counted once. *)
Theorem wc_counts fuel prog args w : args <> [] -> room w ->
  (forall a l, a ∈ args -> files w a = Some l -> (length l < fuel)%nat /\ Z.of_nat (length l) < 2 ^ 31) ->
  (exists w', wc_main fuel (prog :: args) w = (Exited, w') /\ prints (report (files w) wc_line "wc: cannot open %s" args) w w') /\
  exists w', cat_main fuel (prog :: args) w = (Exited, w') /\
    prints (report (files w) (fun l _ => l) "cat: cannot open %s" args) w w'.
Proof.
  intros Hne Hroom HP. destruct args as [|a args]; [done|]. split.
  - apply (for_files_ok "wc: cannot open %s" (wc fuel) wc_line (fun l => (length l < fuel)%nat /\ Z.of_nat (length l) < 2 ^ 31)); [|done|exact HP].
    intros fd b l w1 Hl [H1 H2]. by apply wc_ok.
  - apply (for_files_ok "cat: cannot open %s" (fun fd _ => cat fuel fd) (fun l _ => l) (fun l => (length l < fuel)%nat)); [|done|].
    + intros fd b l w1 Hl H1. by apply cat_ok.
    + intros b l Hb Hl. by apply (HP b l).
Qed.

End Spec.

Module WorldDemo.

(** One descriptor for files, and reads of three bytes at most. *)
Record world := mk_world { w_files : list byte -> option (list byte); w_fd : option (list byte); w_out : list byte }.

#[export] Instance world_unix : Unix world := {
  read fd n w :=
    match w_fd w with
    | Some l => if fd =? 3 then
        let k := Nat.min (Nat.min 3 (Z.to_nat n)) (length l) in
        (Z.of_nat k, take k l, mk_world (w_files w) (Some (drop k l)) (w_out w)) else (-1, [], w)
    | None => (-1, [], w)
    end;
  write fd l w := if fd =? 1 then (Z.of_nat (length l), mk_world (w_files w) (w_fd w) (w_out w ++ l)) else (-1, w);
  open p mode w :=
    match w_files w p with
    | Some l => match w_fd w with None => (3, mk_world (w_files w) (Some l) (w_out w)) | Some _ => (-1, w) end
    | None => (-1, w)
    end;
  close fd w := if fd =? 3 then (0, mk_world (w_files w) None (w_out w)) else (-1, w);
  fstat _ w := (-1, mk_stat 0 0 0 0 0, w);
  unlink _ w := (-1, w);
  mkdir _ w := (-1, w);
  link _ _ w := (-1, w);
  kill _ w := (-1, w);
  mknod _ _ _ w := (-1, w);
  dup _ w := (-1, w);
  fork w := (-1, w);
  exec _ _ w := (Some (-1), w);
  wait w := (-1, w);
}.

#[export] Program Instance world_laws : UnixLaws world := {
  left w fd := if fd =? 3 then w_fd w else None;
  out w fd := w_out w;
  files := w_files;
  room w := w_fd w = None;
}.
Next Obligation.
  intros w fd n l Hl Hn. cbv beta in *. destruct (Z.eqb_spec fd 3) as [->|]; [|done]. cbn [read world_unix]. rewrite Hl, Z.eqb_refl.
  set (k := Nat.min _ _). exists k, (mk_world (w_files w) (Some (drop k l)) (w_out w)).
  split; [done|]. split; [lia|]. split; [lia|]. split; [|done]. intros Hne. destruct l; [done|]. subst k. simpl length. lia.
Qed.
Next Obligation. intros w l. cbn. by eexists. Qed.
Next Obligation. intros w p l Hp Hr. cbn in *. rewrite Hp, Hr. by eexists 3, _. Qed.
Next Obligation. intros w p Hp. cbn in *. rewrite Hp. by eexists. Qed.
Next Obligation. intros w fd l Hl. cbn in *. destruct (Z.eqb_spec fd 3) as [->|]; [|done]. by eexists 0, _. Qed.

Definition poem : list byte := text "ab cdefg  h" ++ [Byte.x0a].
Definition start : world := mk_world (fun p => if bool_decide (p = text "poem") then Some poem else None) None [].

End WorldDemo.

Import WorldDemo.

Lemma wc_counts_witness : exists w1 w2,
  wc_main 100 [text "wc"; text "poem"; text "x"] WorldDemo.start = (Exited, w1) /\
  WorldDemo.w_out w1 = text "1 3 12 poem" ++ [Byte.x0a] ++ text "wc: cannot open x" ++ [Byte.x0a] /\
  cat_main 100 [text "cat"; text "poem"] WorldDemo.start = (Exited, w2) /\ WorldDemo.w_out w2 = WorldDemo.poem.
Proof.
  assert (Hok : forall (args : list (list byte)) a l, a ∈ args -> files WorldDemo.start a = Some l -> (length l < 100)%nat /\ Z.of_nat (length l) < 2 ^ 31).
  { intros args a l _ Hl. cbn in Hl. case_bool_decide; [|done]. injection Hl as <-. vm_compute. split; [lia|done]. }
  destruct (wc_counts 100 (text "wc") [text "poem"; text "x"] WorldDemo.start) as [(w1 & E1 & O1 & _) _]; [done|done|apply Hok|].
  destruct (wc_counts 100 (text "cat") [text "poem"] WorldDemo.start) as [_ (w2 & E2 & O2 & _)]; [done|done|apply Hok|].
  exists w1, w2. split; [exact E1|]. split; [etrans; [exact O1|by vm_compute]|]. split; [exact E2|]. etrans; [exact O2|by vm_compute].
Defined.
