(* ===== verification/Sh.v ===== *)
(** * sh.c: the shell

    The line editor with its completion, the parser and the execution of a
    parsed command.  The parser works on the buffer [buf] of the line: a pointer
    into it is an offset, and [es] is the end of the line.  The structures that
    the constructors allocate are the cells of a heap, because [parseexec] keeps
    filling an [execcmd] to which other structures point already; a pointer to
    one is its index.  What [runcmd] does is a tree of system calls.

    A message is written with one [write].  The prompt, the message of a failed
    [cd] and the rest of the line that a syntax error prints first are left out,
    and [malloc] succeeds. *)

From Stdlib Require Import String.
From S2P Require Import Prelude Memory CString FsState Sysfile.
Local Open Scope Z_scope.
Local Open Scope kernel_scope.

Module Sh.

Definition MAXARGS : nat := 10.

(** [struct cmd] with its five kinds; the arrays hold null pointers after the
    last argument. *)
Inductive cmd :=
| EXEC (argv eargv : list (option nat))
| REDIR (cmd : nat) (file efile : nat) (mode fd : Z)
| PIPE (left right : nat)
| LIST (left right : nat)
| BACK (cmd : nat).

(** The parser's state is the heap of commands. *)
Notation P := (M (list cmd)).

Definition text (s : string) : list byte := list_byte_of_string s.

(** ** Constructors *)

(** [malloc] of a structure that is then filled. *)
Definition alloc (c : cmd) : P nat := fun h => Ok (length h) (h ++ [c]).

Definition execcmd : P nat := alloc (EXEC (replicate MAXARGS None) (replicate MAXARGS None)).
Definition redircmd (subcmd file efile : nat) (mode fd : Z) : P nat :=
  alloc (REDIR subcmd file efile mode fd).
Definition pipecmd (left right : nat) : P nat := alloc (PIPE left right).
Definition listcmd (left right : nat) : P nat := alloc (LIST left right).
Definition backcmd (subcmd : nat) : P nat := alloc (BACK subcmd).

(** [cmd->argv[argc] = q; cmd->eargv[argc] = eq;] *)
Definition set_arg (c argc : nat) (q eq : option nat) : P unit := fun h =>
  match h !! c with
  | Some (EXEC argv eargv) =>
      if (argc <? MAXARGS)%nat then Ok tt (<[c := EXEC (<[argc := q]> argv) (<[argc := eq]> eargv)]> h)
      else Fault
  | _ => Fault
  end.

(** ** Tokens *)

Definition whitespace : list byte := [Byte.x20; Byte.x09; Byte.x0d; Byte.x0a; Byte.x0b].
Definition symbols : list byte := text "<|>&;()".

(** [strchr(s, c) != 0]; the string never contains the byte 0. *)
Definition strchr (s : list byte) (c : byte) : bool := bool_decide (c ∈ s).

Section Parse.
Context (buf : list byte) (es : nat).

Definition ch (s : nat) : byte := nth s buf Byte.x00.

(** [while(s < es && p( *s)) s++], with [n] the distance to [es]. *)
Fixpoint skip_while (p : byte -> bool) (n s : nat) : nat :=
  match n with
  | O => s
  | S k => if p (ch s) then skip_while p k (S s) else s
  end.

Definition skip_white (s : nat) : nat := skip_while (strchr whitespace) (es - s) s.

(** The token, its start and its end, and the new position. *)
Definition gettoken (s : nat) : byte * nat * nat * nat :=
  let q := skip_white s in
  let '(ret, eq) :=
    match ch q with
    | Byte.x00 => (Byte.x00, q)
    | Byte.x7c | Byte.x28 | Byte.x29 | Byte.x3b | Byte.x26 | Byte.x3c => (ch q, S q)
    | Byte.x3e =>
        match ch (S q) with
        | Byte.x3e => (Byte.x2b, S (S q))
        | _ => (Byte.x3e, S q)
        end
    | _ =>
        (Byte.x61,
         skip_while (fun c => negb (strchr whitespace c) && negb (strchr symbols c)) (es - q) q)
    end in
  (ret, q, eq, skip_white eq).

Definition peek (s : nat) (toks : list byte) : bool * nat :=
  let s := skip_white s in
  (negb (bool_decide (ch s = Byte.x00)) && strchr toks (ch s), s).

(** [gettoken(ps, es, 0, 0)] for its effect on the position. *)
Definition eat (s : nat) : nat := let '(_, _, _, s) := gettoken s in s.

(** ** The parser
    Every function returns the command and the new position.  A loop or call
    that consumed a byte has one unit of fuel less. *)

Fixpoint parseredirs (fuel cmd s : nat) : P (nat * nat) :=
  let '(more, s) := peek s (text "<>") in
  if more then
    match fuel with
    | O => out_of_fuel
    | S k =>
        let '(tok, _, _, s) := gettoken s in
        let '(t, q, eq, s) := gettoken s in
        if negb (bool_decide (t = Byte.x61)) then panic "missing file for redirection"
        else
          cmd <- (match tok with
                  | Byte.x3c => redircmd cmd q eq O_RDONLY 0
                  | Byte.x3e => redircmd cmd q eq (Z.lor O_WRONLY O_CREATE) 1
                  | Byte.x2b => redircmd cmd q eq (Z.lor O_WRONLY O_CREATE) 1
                  | _ => ret cmd
                  end) ;;
          parseredirs k cmd s
    end
  else ret (cmd, s).

(** The loop over the arguments: the final [ret], position and [argc]. *)
Fixpoint args_loop (fuel cmd argc r s : nat) : P (nat * nat * nat) :=
  let '(stop, s) := peek s (text "|)&;") in
  if stop then ret (r, s, argc)
  else
    let '(tok, q, eq, s) := gettoken s in
    if bool_decide (tok = Byte.x00) then ret (r, s, argc)
    else if negb (bool_decide (tok = Byte.x61)) then panic "syntax"
    else
      match fuel with
      | O => out_of_fuel
      | S k =>
          set_arg cmd argc (Some q) (Some eq) ;;
          let argc := S argc in
          if (MAXARGS <=? argc)%nat then panic "too many args"
          else
            rs <- parseredirs k r s ;;
            args_loop k cmd argc (rs.1) (rs.2)
      end.

(** [while(peek(ps, es, "&"))] of [parseline]. *)
Fixpoint back_loop (fuel cmd s : nat) : P (nat * nat) :=
  let '(more, s) := peek s (text "&") in
  if more then
    match fuel with
    | O => out_of_fuel
    | S k => cmd <- backcmd cmd ;; back_loop k cmd (eat s)
    end
  else ret (cmd, s).

Fixpoint parseline (fuel s : nat) : P (nat * nat) :=
  match fuel with
  | O => out_of_fuel
  | S k =>
      r <- parsepipe k s ;;
      r <- back_loop k (r.1) (r.2) ;;
      let '(more, s) := peek (r.2) (text ";") in
      if more then
        rest <- parseline k (eat s) ;;
        cmd <- listcmd (r.1) (rest.1) ;;
        ret (cmd, rest.2)
      else ret (r.1, s)
  end
with parsepipe (fuel s : nat) : P (nat * nat) :=
  match fuel with
  | O => out_of_fuel
  | S k =>
      r <- parseexec k s ;;
      let '(more, s) := peek (r.2) (text "|") in
      if more then
        rest <- parsepipe k (eat s) ;;
        cmd <- pipecmd (r.1) (rest.1) ;;
        ret (cmd, rest.2)
      else ret (r.1, s)
  end
with parseblock (fuel s : nat) : P (nat * nat) :=
  match fuel with
  | O => out_of_fuel
  | S k =>
      let '(open, s) := peek s (text "(") in
      if negb open then panic "parseblock"
      else
        r <- parseline k (eat s) ;;
        let '(close, s) := peek (r.2) (text ")") in
        if negb close then panic "syntax - missing )"
        else parseredirs k (r.1) (eat s)
  end
with parseexec (fuel s : nat) : P (nat * nat) :=
  match fuel with
  | O => out_of_fuel
  | S k =>
      let '(block, s) := peek s (text "(") in
      if block then parseblock k s
      else
        cmd <- execcmd ;;
        r <- parseredirs k cmd s ;;
        r <- args_loop k cmd 0 (r.1) (r.2) ;;
        set_arg cmd (r.2) None None ;;
        ret (r.1)
  end.

End Parse.

(** ** NUL-termination *)

(** [for(i=0; ecmd->argv[i]; i++) *ecmd->eargv[i] = 0;] *)
Fixpoint nul_args (argv eargv : list (option nat)) (buf : list byte) : option (list byte) :=
  match argv, eargv with
  | None :: _, _ => Some buf
  | Some _ :: argv, Some e :: eargv => nul_args argv eargv (<[e := Byte.x00]> buf)
  | _, _ => None
  end.

(** A command is allocated after the commands it points to, so that its index
    bounds the depth of the recursion. *)
Fixpoint nulterminate (fuel : nat) (h : list cmd) (c : nat) (buf : list byte) : option (list byte) :=
  match fuel with
  | O => None
  | S k =>
      match h !! c with
      | Some (EXEC argv eargv) => nul_args argv eargv buf
      | Some (REDIR sub _ efile _ _) =>
          match nulterminate k h sub buf with
          | Some buf => Some (<[efile := Byte.x00]> buf)
          | None => None
          end
      | Some (PIPE l r) | Some (LIST l r) =>
          match nulterminate k h l buf with
          | Some buf => nulterminate k h r buf
          | None => None
          end
      | Some (BACK sub) => nulterminate k h sub buf
      | None => None
      end
  end.

(** The fuel of the parser: each byte of the line opens at most one level of
    [parseline], [parsepipe], [parseexec] and [parseblock]. *)
Definition parse_fuel (es : nat) : nat := 4 * S es.

(** The command, and the buffer with the strings of the command terminated. *)
Definition parsecmd (buf : list byte) : P (nat * list byte) :=
  let es := length (cstr buf) in
  r <- parseline buf es (parse_fuel es) 0 ;;
  let s := skip_white buf es (r.2) in        (* peek(&s, es, "") *)
  if negb (s =? es)%nat then panic "syntax"
  else
    h <- gets (fun h => h) ;;
    match nulterminate (length h) h (r.1) buf with
    | Some buf => ret (r.1, buf)
    | None => fault
    end.

(** ** Running a command *)

(** The system calls of the shell with the types of their answers; [pipe]
    answers with its result and the two descriptors. *)
Inductive sys : Type -> Type :=
| Fork : sys Z
| Wait : sys Z
| Exec (path : list byte) (argv : list (list byte)) : sys Z
| Open (path : list byte) (mode : Z) : sys Z
| Close (fd : Z) : sys Z
| Dup (fd : Z) : sys Z
| Pipe : sys (Z * Z * Z)
| Write (fd : Z) (s : list byte) : sys Z.

(** A process: it exits, or makes a call and goes on with the answer. *)
Inductive prog : Type :=
| Exit : prog
| Call {R : Type} (c : sys R) (k : R -> prog) : prog.

Notation "x <-- c ;; k" := (Call c (fun x => k))
  (at level 100, c at next level, right associativity) : kernel_scope.

(** [panic]: print and exit. *)
Definition die (s : list byte) : prog := _ <-- Write 2 (s ++ [Byte.x0a]) ;; Exit.

(** [if(fork1() == 0) child; parent]; the child does not return. *)
Definition fork1 (child parent : prog) : prog :=
  pid <-- Fork ;;
  if pid =? -1 then die (text "fork") else if pid =? 0 then child else parent.

(** The C string at [q], and the strings of an argument vector. *)
Definition str (buf : list byte) (q : nat) : list byte := cstr (drop q buf).
Fixpoint strs (buf : list byte) (argv : list (option nat)) : list (list byte) :=
  match argv with
  | Some q :: argv => str buf q :: strs buf argv
  | _ => []
  end.

Fixpoint runcmd (fuel : nat) (h : list cmd) (buf : list byte) (c : nat) : prog :=
  match fuel with
  | O => Exit
  | S k =>
      match h !! c with
      | None => Exit
      | Some (EXEC argv _) =>
          match strs buf argv with
          | [] => Exit
          | path :: rest =>
              _ <-- Exec path (path :: rest) ;;
              _ <-- Write 2 (text "exec " ++ path ++ text " failed" ++ [Byte.x0a]) ;;
              Exit
          end
      | Some (REDIR sub file _ mode fd) =>
          _ <-- Close fd ;;
          r <-- Open (str buf file) mode ;;
          if r <? 0 then
            _ <-- Write 2 (text "open " ++ str buf file ++ text " failed" ++ [Byte.x0a]) ;;
            Exit
          else runcmd k h buf sub
      | Some (LIST l r) =>
          fork1 (runcmd k h buf l) (
          _ <-- Wait ;;
          runcmd k h buf r)
      | Some (PIPE l r) =>
          p <-- Pipe ;;
          let '(res, p0, p1) := p in
          if res <? 0 then die (text "pipe")
          else
            fork1 (
              _ <-- Close 1 ;;
              _ <-- Dup p1 ;;
              _ <-- Close p0 ;;
              _ <-- Close p1 ;;
              runcmd k h buf l) (
            fork1 (
              _ <-- Close 0 ;;
              _ <-- Dup p0 ;;
              _ <-- Close p0 ;;
              _ <-- Close p1 ;;
              runcmd k h buf r) (
            _ <-- Close p0 ;;
            _ <-- Close p1 ;;
            _ <-- Wait ;;
            _ <-- Wait ;;
            Exit))
      | Some (BACK sub) => fork1 (runcmd k h buf sub) Exit
      end
  end.

(** The child that [main] forks for a line: [runcmd(parsecmd(buf))]. *)
Definition run_line (buf : list byte) : prog :=
  match parsecmd buf [] with
  | Ok (c, buf) h => runcmd (length h) h buf c
  | Panic msg => die (text msg)
  | _ => Exit
  end.

(** ** Reading a line *)

Fixpoint strncmp (n : nat) (p q : list byte) : Z :=
  match n with
  | O => 0
  | S k =>
      let a := hd Byte.x00 p in
      let b := hd Byte.x00 q in
      if negb (bool_decide (a = Byte.x00)) && bool_decide (a = b) then strncmp k (tl p) (tl q)
      else byte.unsigned a - byte.unsigned b
  end.

(** [buf[i] = c], checked against the size of the buffer. *)
Definition put (buf : list byte) (i : nat) (c : byte) : option (list byte) :=
  if (i <? length buf)%nat then Some (<[i := c]> buf) else None.

Section Line.
(** The entries that reading "." delivers, if it can be opened, and the names
    for which [stat] succeeds: the answers of the kernel. *)
Context (dir : option (list (Z * list byte))) (stat_ok : list byte -> bool).

(** [while (start > 0 && buf[start-1] != ' ' && buf[start-1] != '\t') start--;] *)
Fixpoint word_start (buf : list byte) (start : nat) : nat :=
  match start with
  | O => O
  | S k => if strchr [Byte.x20; Byte.x09] (ch buf k) then start else word_start buf k
  end.

(** The first name in the directory that starts with the prefix. *)
Fixpoint find_match (l : list (Z * list byte)) (prefix : list byte) (plen : nat) : option (list byte) :=
  match l with
  | [] => None
  | (inum, de_name) :: l =>
      let name := take DIRSIZ de_name ++ [Byte.x00] in
      if inum =? 0 then find_match l prefix plen
      else if negb (stat_ok (cstr name)) then find_match l prefix plen
      else if strncmp plen name prefix =? 0 then Some name
      else find_match l prefix plen
  end.

(** [while (name[i] && *pn + 1 < nbuf)], from the rest of the name on. *)
Fixpoint append_name (nbuf : nat) (rest buf : list byte) (n : nat) : option (list byte * nat) :=
  match rest with
  | [] => Some (buf, n)
  | c :: rest =>
      if negb (bool_decide (c = Byte.x00)) && (n + 1 <? nbuf)%nat then
        match put buf n c with
        | Some buf => append_name nbuf rest buf (S n)
        | None => None
        end
      else Some (buf, n)
  end.

(** The buffer, the number of characters and what was written. *)
Definition autocomplete (buf : list byte) (n nbuf : nat) : option (list byte * nat * list (Z * list byte)) :=
  let start := word_start buf n in
  let plen := (n - start)%nat in
  if (plen =? 0)%nat then Some (buf, n, [])
  else
    let plen := Nat.min plen DIRSIZ in
    let prefix := take plen (drop start buf) ++ [Byte.x00] in
    match dir with
    | None => Some (buf, n, [])
    | Some l =>
        match find_match l prefix plen with
        | None => Some (buf, n, [])
        | Some name =>
            match append_name nbuf (drop plen name) buf n with
            | None => None
            | Some (buf, n) =>
                match (if (n + 1 <? nbuf)%nat then
                         match put buf n Byte.x20 with Some buf => Some (buf, S n) | None => None end
                       else Some (buf, n)) with
                | None => None
                | Some (buf, n) =>
                    match put buf n Byte.x00 with
                    | None => None
                    | Some buf =>
                        Some (buf, n, [(1, [Byte.x0a; Byte.x24; Byte.x20]); (1, take n buf)])
                    end
                end
            end
        end
    end.

(** The loop of [readline]: the result, the buffer, the rest of the input and
    what was written; [None] is a store outside the buffer. *)
Fixpoint readline_loop (nbuf : nat) (input buf : list byte) (n : nat) (out : list (Z * list byte)) :
    option (Z * list byte * list byte * list (Z * list byte)) :=
  if (n + 1 <? nbuf)%nat then
    match input with
    | [] =>
        match put buf 0 Byte.x00 with
        | Some buf => Some (-1, buf, [], out)
        | None => None
        end
    | c :: input =>
        let c := if bool_decide (c = Byte.x0d) then Byte.x0a else c in
        if bool_decide (c = Byte.x0a) then
          match put buf n c with
          | None => None
          | Some buf =>
              match put buf (S n) Byte.x00 with
              | None => None
              | Some buf => Some (Z.of_nat (S n), buf, input, out ++ [(1, [c])])
              end
          end
        else if bool_decide (c = Byte.x08) || bool_decide (c = Byte.x7f) then
          if (0 <? n)%nat then
            readline_loop nbuf input buf (n - 1) (out ++ [(1, [Byte.x08; Byte.x20; Byte.x08])])
          else readline_loop nbuf input buf n out
        else if bool_decide (c = Byte.x09) then
          match autocomplete buf n nbuf with
          | None => None
          | Some (buf, n, w) => readline_loop nbuf input buf n (out ++ w)
          end
        else
          match put buf n c with
          | None => None
          | Some buf => readline_loop nbuf input buf (S n) (out ++ [(1, [c])])
          end
    end
  else
    match put buf n Byte.x00 with
    | Some buf => Some (Z.of_nat n, buf, input, out)
    | None => None
    end.

Definition readline (buf : list byte) (nbuf : nat) (input : list byte) :=
  readline_loop nbuf input buf 0 [].

(** The line, if there is one, and the rest of the input. *)
Definition getcmd (nbuf : nat) (input : list byte) : option (option (list byte) * list byte) :=
  match readline (replicate nbuf Byte.x00) nbuf input with
  | None => None
  | Some (r, buf, input, _) =>
      if r <? 0 then Some (None, input)
      else if bool_decide (ch buf 0 = Byte.x00) then Some (None, input)
      else Some (Some buf, input)
  end.

(** ** main *)

(** What [main] does with a line: change the directory itself, or fork a child
    that runs the command. *)
Inductive action :=
| Chdir (path : list byte)
| Spawn (child : prog).

(** [static char buf[100]] *)
Definition sizeof_buf : nat := 100.

Definition do_line (buf : list byte) : action :=
  if bool_decide (ch buf 0 = Byte.x63) && bool_decide (ch buf 1 = Byte.x64) &&
     bool_decide (ch buf 2 = Byte.x20)
  then Chdir (str (<[(length (cstr buf) - 1)%nat := Byte.x00]> buf) 3)
  else Spawn (run_line buf).

(** Each turn takes a byte of the input at least. *)
Fixpoint main_loop (fuel : nat) (input : list byte) : option (list action) :=
  match getcmd sizeof_buf input with
  | None => None
  | Some (None, _) => Some []
  | Some (Some buf, input) =>
      match fuel with
      | O => None
      | S k =>
          match main_loop k input with
          | Some l => Some (do_line buf :: l)
          | None => None
          end
      end
  end.

(** [while((fd = open("console", O_RDWR)) >= 0)]: open files until the
    descriptor is at least 3, which is closed again. *)
Fixpoint open_console {F} (fuel : nat) (console : F) (fds : list (option F)) : list (option F) :=
  match fuel with
  | O => fds
  | S k =>
      match fdalloc_scan fds 0 with
      | None => fds
      | Some fd =>
          if (3 <=? fd)%nat then fds
          else open_console k console (<[fd := Some console]> fds)
      end
  end.

(** The descriptors of the shell, and what it does on an input. *)
Definition main {F} (console : F) (fds : list (option F)) (input : list byte) :
    list (option F) * option (list action) :=
  (open_console 4 console fds, main_loop (length input) input).

End Line.

End Sh.
