(* ===== verification/ShSpec.v ===== *)
(** * The parser of the shell

    The grammar of command lines over tokens, and how tokens are spelled with
    white space between them; the parser of sh.c builds the tree of every line
    of the grammar, and its strings are terminated in place.  On every line
    whatever the parser returns or panics. *)

From Stdlib Require Import String.
From S2P Require Import Prelude Memory CString FsState Sysfile Sh.
Import Sh.
Local Open Scope Z_scope.
Local Open Scope kernel_scope.

(** ** Characters *)

Definition white (c : byte) : Prop := c ∈ whitespace.
Definition wordchar (c : byte) : Prop := c <> Byte.x00 /\ c ∉ whitespace /\ c ∉ symbols.

#[export] Instance white_dec c : Decision (white c).
Proof. unfold white. apply _. Defined.
#[export] Instance wordchar_dec c : Decision (wordchar c).
Proof. unfold wordchar. apply _. Defined.

Lemma strchr_white c : strchr whitespace c = bool_decide (white c).
Proof. done. Qed.

(** The test of the loop over a word; the byte 0 ends it at the end of the line. *)
Lemma word_test c : c <> Byte.x00 ->
  negb (strchr whitespace c) && negb (strchr symbols c) = bool_decide (wordchar c).
Proof.
  intros Hc. unfold strchr, wordchar. repeat case_bool_decide; naive_solver.
Qed.

Lemma not_word_zero : ~ wordchar Byte.x00.
Proof. by intros [? _]. Qed.

Lemma white_not_zero c : white c -> c <> Byte.x00.
Proof. intros H ->. revert H. apply (bool_decide_unpack (Byte.x00 ∉ whitespace)). vm_compute. exact I. Qed.

(** ** Tokens *)

Inductive token := Word (w : list byte) | Sym (c : byte).

Definition sym (c : byte) : Prop := c ∈ symbols.

Definition word (w : list byte) : Prop := w <> [] /\ Forall wordchar w.

(** [l] spells the tokens [ts]: white space is free, but two words are kept
    apart by it, and a [>] is not followed by another one. *)
Inductive spells : list token -> list byte -> Prop :=
| sp_end w : Forall white w -> spells [] w
| sp_word w x ts l : Forall white w -> word x -> spells ts l -> ~ wordchar (hd Byte.x00 l) ->
    spells (Word x :: ts) (w ++ x ++ l)
| sp_sym w c ts l : Forall white w -> sym c -> spells ts l ->
    (c = Byte.x3e -> hd Byte.x00 l <> Byte.x3e) ->
    spells (Sym c :: ts) (w ++ c :: l).

(** White space in front does not matter. *)
Lemma spells_strip ts l : spells ts l ->
  exists w l', l = w ++ l' /\ Forall white w /\ ~ white (hd Byte.x00 l') /\ spells ts l'.
Proof.
  assert (Hz : ~ white Byte.x00) by (intros H; by apply white_not_zero in H).
  intros [w Hw|w x ts' l' Hw [Hx Hwx] Hl Hh|w c ts' l' Hw Hc Hl Hh].
  - exists w, []. split_and!; [by rewrite app_nil_r|done|done|by constructor].
  - exists w, (x ++ l'). split_and!; [done|done| |by apply (sp_word [])].
    destruct x as [|c x]; [done|]. simpl. apply Forall_cons in Hwx as [(_ & ? & _) _]. done.
  - exists w, (c :: l'). split_and!; [done|done| |by apply (sp_sym [])].
    simpl. unfold sym, white in *. intros H.
    assert (Hd : Forall (fun c => c ∉ whitespace) symbols) by (vm_compute; repeat constructor;
      by apply (bool_decide_unpack _)). rewrite Forall_forall in Hd. by apply (Hd c).
Qed.

(** ** A position in the buffer *)

Section Positions.
Context (buf : list byte) (es : nat).

(** [l] is the rest of the line from [s] on. *)
Definition view (s : nat) (l : list byte) : Prop :=
  (s + length l = es)%nat /\ Byte.x00 ∉ l /\
  forall i, (i <= length l)%nat -> ch buf (s + i) = nth i l Byte.x00.

Lemma view_app s l l' : view s (l ++ l') -> view (s + length l) l'.
Proof.
  intros (He & Hz & Hc). rewrite length_app in He. split; [lia|]. split.
  - intros H. apply Hz, elem_of_app. by right.
  - intros i Hi. rewrite <- Nat.add_assoc, Hc, app_nth2 by (rewrite ?length_app; lia). f_equal. lia.
Qed.

Lemma view_hd s l : view s l -> ch buf s = hd Byte.x00 l.
Proof. intros (_ & _ & Hc). specialize (Hc 0%nat ltac:(lia)). rewrite Nat.add_0_r in Hc. rewrite Hc. by destruct l. Qed.

(** The loops over characters, on the rest of the line. *)
Lemma skip_while_view p : forall w n s l,
  view s (w ++ l) -> n = (es - s)%nat -> Forall (fun c => p c = true) w ->
  (l <> [] -> p (hd Byte.x00 l) = false) ->
  skip_while buf p n s = (s + length w)%nat.
Proof.
  induction w as [|c w IH]; intros n s l Hv Hn Hw Hl; simpl in *.
  - destruct l as [|c l].
    + destruct Hv as (He & _). simpl in He. replace n with 0%nat by lia. simpl. lia.
    + destruct n as [|n]; simpl; [lia|]. rewrite (view_hd _ _ Hv), Hl by done. lia.
  - apply Forall_cons in Hw as [Hc Hw]. destruct n as [|n].
    + destruct Hv as (He & _). simpl in He. lia.
    + simpl. rewrite (view_hd _ _ Hv). simpl. rewrite Hc.
      rewrite (IH n (S s) l); [lia| |lia|done|done].
      apply (view_app s [c]) in Hv. simpl in Hv. by rewrite Nat.add_1_r in Hv.
Qed.

Lemma skip_white_view s w l :
  view s (w ++ l) -> Forall white w -> ~ white (hd Byte.x00 l) ->
  skip_white buf es s = (s + length w)%nat /\ view (s + length w) l.
Proof.
  intros Hv Hw Hl. split; [|by apply view_app]. unfold skip_white.
  eapply skip_while_view; [exact Hv|done|eapply Forall_impl; [exact Hw|]; intros c; cbv beta|].
  - intros Hc. by rewrite strchr_white, bool_decide_true.
  - intros _. by rewrite strchr_white, bool_decide_false.
Qed.

(** The position [s] has the tokens [ts] in front of it. *)
Definition before (s : nat) (ts : list token) : Prop := exists l, view s l /\ spells ts l.

Lemma before_skip s ts : before s ts ->
  exists l, view (skip_white buf es s) l /\ spells ts l /\ ~ white (hd Byte.x00 l).
Proof.
  intros (l & Hv & Hs). destruct (spells_strip _ _ Hs) as (w & l' & -> & Hw & Hh & Hs').
  destruct (skip_white_view s w l' Hv Hw Hh) as [-> Hv']. eauto.
Qed.

(** The bytes of a word at [q], with the byte that ends it. *)
Definition extent (q : nat) (w : list byte) (e : nat) : Prop :=
  word w /\ e = (q + length w)%nat /\ (e <= es)%nat /\
  (forall i, (i < length w)%nat -> ch buf (q + i) = nth i w Byte.x00) /\ ~ wordchar (ch buf e).

(** The cases of the switch of [gettoken]. *)
Lemma switch_word {A} c (z y g d : A) : wordchar c ->
  match c with
  | Byte.x00 => z
  | Byte.x7c | Byte.x28 | Byte.x29 | Byte.x3b | Byte.x26 | Byte.x3c => y
  | Byte.x3e => g
  | _ => d
  end = d.
Proof.
  intros (H0 & _ & Hs). destruct c; try reflexivity; exfalso;
    solve [by apply H0|apply Hs, (bool_decide_unpack _); vm_compute; exact I].
Qed.

Lemma switch_sym {A} c (z y g d : A) : sym c -> c <> Byte.x3e ->
  match c with
  | Byte.x00 => z
  | Byte.x7c | Byte.x28 | Byte.x29 | Byte.x3b | Byte.x26 | Byte.x3c => y
  | Byte.x3e => g
  | _ => d
  end = y.
Proof.
  intros Hs Hne. assert (H : c ∈ [Byte.x3c; Byte.x7c; Byte.x3e; Byte.x26; Byte.x3b; Byte.x28; Byte.x29])
    by exact Hs. rewrite !elem_of_cons in H. destruct_or!; subst; try done. by apply not_elem_of_nil in H.
Qed.

Lemma gettoken_word s x ts :
  before s (Word x :: ts) ->
  exists q e s', gettoken buf es s = (Byte.x61, q, e, s') /\ extent q x e /\ before s' ts.
Proof.
  intros (l & Hv & Hs & Hh)%before_skip. set (q := skip_white buf es s) in *.
  inversion Hs as [|w x' ts' l' Hw [Hx Hwx] Hl Hh' E1 E2|]; subst.
  destruct w as [|c w]; [|simpl in Hh; by apply Forall_cons in Hw as [? _]]. simpl in *.
  assert (Hc : wordchar (ch buf q)).
  { rewrite (view_hd _ _ Hv). destruct x; [done|]. by apply Forall_cons in Hwx as [? _]. }
  pose proof (view_app _ _ _ Hv) as Hv'.
  assert (Hz : forall c, c ∈ x ++ l' -> c <> Byte.x00) by (destruct Hv as (_ & Hz & _); by intros c Hc0 ->).
  assert (E : skip_while buf (fun c => negb (strchr whitespace c) && negb (strchr symbols c)) (es - q) q
              = (q + length x)%nat).
  { eapply skip_while_view; [exact Hv|done| |].
    - apply Forall_forall. intros c Hin. rewrite word_test by (apply Hz, elem_of_app; by left).
      apply bool_decide_true. rewrite Forall_forall in Hwx. by apply Hwx.
    - intros Hne. rewrite word_test, bool_decide_false; [done|done|].
      apply Hz, elem_of_app. right. destruct l'; [done|left]. }
  unfold gettoken. fold q. rewrite (switch_word (ch buf q)) by done. rewrite E.
  eexists _, _, _. split; [reflexivity|]. split.
  - split; [done|]. split; [done|]. split; [destruct Hv' as (He & _); lia|]. split.
    + intros i Hi. destruct Hv as (_ & _ & Hv). by rewrite Hv, app_nth1 by (rewrite ?length_app; lia).
    + by rewrite (view_hd _ _ Hv').
  - assert (Hb : before (q + length x) ts) by (by exists l').
    apply before_skip in Hb as (l2 & Hv2 & Hs2 & _). by exists l2.
Qed.

Lemma gettoken_sym s c ts :
  before s (Sym c :: ts) -> exists q e s', gettoken buf es s = (c, q, e, s') /\ before s' ts.
Proof.
  intros (l & Hv & Hs & Hh)%before_skip. set (q := skip_white buf es s) in *.
  inversion Hs as [| |w c' ts' l' Hw Hc Hl Hgt E1 E2]; subst.
  destruct w as [|c0 w]; [|simpl in Hh; by apply Forall_cons in Hw as [? _]]. simpl in *.
  pose proof (view_hd _ _ Hv) as Hq. simpl in Hq.
  apply (view_app q [c]) in Hv as Hv'. simpl in Hv'. rewrite Nat.add_1_r in Hv'.
  assert (Hb : before (skip_white buf es (S q)) ts).
  { assert (Hb : before (S q) ts) by (by exists l'). apply before_skip in Hb as (l2 & ? & ? & _). by exists l2. }
  unfold gettoken. fold q. rewrite Hq. destruct (decide (c = Byte.x3e)) as [->|Hne].
  - pose proof (view_hd _ _ Hv') as Hq'. specialize (Hgt eq_refl). rewrite <- Hq' in Hgt.
    destruct (ch buf (S q)); try done; eauto.
  - rewrite (switch_sym c) by done. eauto.
Qed.

Lemma gettoken_end s : before s [] -> exists q e s', gettoken buf es s = (Byte.x00, q, e, s') /\ before s' [].
Proof.
  intros (l & Hv & Hs & Hh)%before_skip. set (q := skip_white buf es s) in *.
  inversion Hs as [w Hw E| |]; subst. destruct l as [|c l]; [|simpl in Hh; by apply Forall_cons in Hw as [? _]].
  pose proof (view_hd _ _ Hv) as Hq. simpl in Hq. unfold gettoken. fold q. rewrite Hq.
  eexists _, _, _. split; [reflexivity|].
  assert (Hb : before q []) by (by exists []). apply before_skip in Hb as (l2 & ? & ? & _). by exists l2.
Qed.

(** What [peek] sees. *)
Definition first_in (toks : list byte) (ts : list token) : bool :=
  match ts with Sym c :: _ => strchr toks c | _ => false end.

Lemma peek_before s toks ts :
  before s ts -> forallb (strchr symbols) toks = true ->
  exists s', peek buf es s toks = (first_in toks ts, s') /\ before s' ts.
Proof.
  intros (l & Hv & Hs & Hh)%before_skip Hall.
  assert (Hsub : toks ⊆ symbols).
  { intros c Hc%list_elem_of_In. rewrite forallb_forall in Hall.
    by apply Hall, bool_decide_eq_true in Hc. }
  unfold peek. set (q := skip_white buf es s) in *.
  exists q. split; [|by exists l]. f_equal. rewrite (view_hd _ _ Hv).
  destruct Hs as [w Hw|w x ts l Hw [Hx Hwx] Hl Hh'|w c ts l Hw Hc Hl Hgt].
  - destruct w as [|c w]; [done|]. simpl in Hh. by apply Forall_cons in Hw as [? _].
  - destruct w as [|c w]; [|simpl in Hh; by apply Forall_cons in Hw as [? _]]. simpl.
    destruct x as [|c x]; [done|]. apply Forall_cons in Hwx as [(_ & _ & Hn) _]. simpl.
    unfold strchr. rewrite (bool_decide_false (c ∈ toks)) by auto. apply andb_false_r.
  - destruct w as [|c0 w]; [|simpl in Hh; by apply Forall_cons in Hw as [? _]]. simpl.
    rewrite bool_decide_false; [done|]. intros ->. revert Hc. unfold sym.
    apply (bool_decide_unpack (Byte.x00 ∉ symbols)). vm_compute. exact I.
Qed.

End Positions.

(** ** Commands and their grammar *)

Inductive tree :=
| TExec (ws : list (list byte))
| TRedir (t : tree) (file : list byte) (mode fd : Z)
| TPipe (l r : tree)
| TList (l r : tree)
| TBack (t : tree).

(** A redirection of the output or of the input, to or from a file. *)
Notation redir := (bool * list byte)%type.
Definition rsym (out : bool) : byte := if out then Byte.x3e else Byte.x3c.
Definition rmode (out : bool) : Z := if out then Z.lor O_WRONLY O_CREATE else O_RDONLY.
Definition rfd (out : bool) : Z := if out then 1 else 0.
Definition rtoks (r : redir) : list token := [Sym (rsym r.1); Word r.2].
Definition wrap (t : tree) (rs : list redir) : tree :=
  fold_left (fun t r => TRedir t r.2 (rmode r.1) (rfd r.1)) rs t.

(** A word with the redirections that follow it. *)
Notation seg := (list byte * list redir)%type.
Definition seg_toks (g : seg) : list token := Word g.1 :: concat (map rtoks g.2).

Inductive level := Line | Pipeline | Command.

Definition amps (n : nat) : list token := replicate n (Sym Byte.x26).
Definition backs (n : nat) (t : tree) : tree := Nat.iter n TBack t.

Inductive gram : level -> tree -> list token -> Prop :=
| g_simple rs segs : (length segs < MAXARGS)%nat ->
    gram Command (wrap (TExec (map fst segs)) (rs ++ concat (map snd segs)))
      (concat (map rtoks rs) ++ concat (map seg_toks segs))
| g_block t ts rs : gram Line t ts ->
    gram Command (wrap t rs) (Sym Byte.x28 :: ts ++ Sym Byte.x29 :: concat (map rtoks rs))
| g_command t ts : gram Command t ts -> gram Pipeline t ts
| g_pipe t1 ts1 t2 ts2 : gram Command t1 ts1 -> gram Pipeline t2 ts2 ->
    gram Pipeline (TPipe t1 t2) (ts1 ++ Sym Byte.x7c :: ts2)
| g_line t ts n : gram Pipeline t ts -> gram Line (backs n t) (ts ++ amps n)
| g_list t1 ts1 n t2 ts2 : gram Pipeline t1 ts1 -> gram Line t2 ts2 ->
    gram Line (TList (backs n t1) t2) (ts1 ++ amps n ++ Sym Byte.x3b :: ts2).

(** ** Commands in the heap *)

(** [h'] has the cells of [h]. *)
Definition ext (h h' : list cmd) : Prop := forall i x, h !! i = Some x -> h' !! i = Some x.

Lemma ext_app h l : ext h (h ++ l).
Proof. intros i x Hx. by apply lookup_app_l_Some. Qed.
Lemma ext_trans h1 h2 h3 : ext h1 h2 -> ext h2 h3 -> ext h1 h3.
Proof. unfold ext. eauto. Qed.
Lemma ext_refl h : ext h h.
Proof. by intros i x. Qed.
#[export] Hint Resolve ext_app ext_trans ext_refl : xv6.

Section Commands.
(** What a pointer to the start and a pointer to the end say of a string. *)
Context (E : nat -> list byte -> nat -> Prop).

(** The argument arrays of the words [ws]. *)
Fixpoint args (argv eargv : list (option nat)) (ws : list (list byte)) : Prop :=
  match ws with
  | [] => exists l, argv = None :: l
  | w :: ws => exists q e argv' eargv', argv = Some q :: argv' /\ eargv = Some e :: eargv' /\
      E q w e /\ args argv' eargv' ws
  end.

(** The cell [c] is the root of the command [t]; it is younger than its parts. *)
Fixpoint reps (h : list cmd) (c : nat) (t : tree) : Prop :=
  match t with
  | TExec ws => exists argv eargv, h !! c = Some (EXEC argv eargv) /\ args argv eargv ws
  | TRedir t f mode fd => exists sub q e, h !! c = Some (REDIR sub q e mode fd) /\ E q f e /\
      (sub < c)%nat /\ reps h sub t
  | TPipe t1 t2 => exists l r, h !! c = Some (PIPE l r) /\ (l < c)%nat /\ (r < c)%nat /\
      reps h l t1 /\ reps h r t2
  | TList t1 t2 => exists l r, h !! c = Some (LIST l r) /\ (l < c)%nat /\ (r < c)%nat /\
      reps h l t1 /\ reps h r t2
  | TBack t => exists sub, h !! c = Some (BACK sub) /\ (sub < c)%nat /\ reps h sub t
  end.

Lemma reps_ext h h' : ext h h' -> forall t c, reps h c t -> reps h' c t.
Proof. intros He. unfold ext in He. induction t; intros c; simpl; naive_solver. Qed.

Lemma reps_app h l t c : reps h c t -> reps (h ++ l) c t.
Proof. apply reps_ext, ext_app. Qed.

Lemma reps_bound h t c : reps h c t -> (c < length h)%nat.
Proof.
  destruct t; simpl; intros H; repeat match goal with
    | H : exists _, _ |- _ => destruct H | H : _ /\ _ |- _ => destruct H end;
    by eapply lookup_lt_Some.
Qed.

End Commands.

Lemma args_mono (E E' : nat -> list byte -> nat -> Prop) :
  (forall q w e, E q w e -> E' q w e) -> forall ws argv eargv, args E argv eargv ws -> args E' argv eargv ws.
Proof. intros He. induction ws; intros argv eargv; simpl; naive_solver. Qed.

Lemma reps_mono (E E' : nat -> list byte -> nat -> Prop) h :
  (forall q w e, E q w e -> E' q w e) -> forall t c, reps E h c t -> reps E' h c t.
Proof.
  intros He. pose proof (args_mono E E' He). induction t; intros c; simpl; naive_solver.
Qed.

Section Heap.
Context (buf : list byte) (es : nat).

Notation extent := (extent buf es).
Notation before := (before buf es).
Notation args := (args extent).
Notation reps := (reps extent).

(** ** Redirections *)

(** [r] is reached from [c] through cells for the redirections [rs]. *)
Inductive wraps (h : list cmd) : nat -> nat -> list redir -> Prop :=
| wr_nil c : wraps h c c []
| wr_snoc r r' c rs out f q e :
    wraps h r' c rs -> h !! r = Some (REDIR r' q e (rmode out) (rfd out)) -> extent q f e ->
    (r' < r)%nat -> wraps h r c (rs ++ [(out, f)]).

Lemma wraps_trans h r c r2 rs rs2 : wraps h r c rs -> wraps h r2 r rs2 -> wraps h r2 c (rs ++ rs2).
Proof.
  intros H1 H2. induction H2; [by rewrite app_nil_r|]. rewrite app_assoc. econstructor; eauto.
Qed.

Lemma wraps_reps h r c rs t : wraps h r c rs -> reps h c t -> reps h r (wrap t rs).
Proof.
  intros H Ht. induction H; [done|]. unfold wrap. rewrite fold_left_app. simpl.
  exists r', q, e. split_and!; [done|done|done|]. by apply IHwraps.
Qed.

Lemma wraps_ext h h' r c rs :
  (forall i sub q e m d, h !! i = Some (REDIR sub q e m d) -> h' !! i = h !! i) ->
  wraps h r c rs -> wraps h' r c rs.
Proof. intros He H. induction H; econstructor; eauto. by erewrite He. Qed.

Lemma parseredirs_ok : forall rs fuel c s h rest,
  before s (concat (map rtoks rs) ++ rest) -> first_in (text "<>") rest = false ->
  (length rs <= fuel)%nat -> (c < length h)%nat ->
  exists r s' l, parseredirs buf es fuel c s h = Ok (r, s') (h ++ l) /\ before s' rest /\
    wraps (h ++ l) r c rs /\ (r < length (h ++ l))%nat.
Proof.
  induction rs as [|[out f] rs IH]; intros fuel c s h rest Hb Hrest Hfuel Hc.
  - simpl in Hb. destruct (peek_before buf es s (text "<>") rest Hb) as (s' & Ep & Hb'); [done|].
    rewrite Hrest in Ep. exists c, s', []. rewrite app_nil_r.
    destruct fuel; cbn [parseredirs]; rewrite Ep; split_and!; try done; constructor.
  - destruct fuel as [|k]; simpl in Hfuel; [lia|]. simpl in Hb.
    destruct (peek_before buf es s (text "<>") _ Hb) as (s1 & Ep & Hb1); [done|].
    assert (Ef : first_in (text "<>") (Sym (rsym out) :: Word f :: concat (map rtoks rs) ++ rest) = true)
      by (by destruct out). rewrite Ef in Ep.
    destruct (gettoken_sym buf es s1 _ _ Hb1) as (q1 & e1 & s2 & E1 & Hb2).
    destruct (gettoken_word buf es s2 _ _ Hb2) as (q & e & s3 & E2 & Hext & Hb3).
    destruct (IH k (length h) s3 (h ++ [REDIR c q e (rmode out) (rfd out)]) rest Hb3 Hrest)
      as (r & s4 & l & E3 & Hb4 & Hw & Hr); [lia|rewrite length_app; simpl; lia|].
    exists r, s4, (REDIR c q e (rmode out) (rfd out) :: l). rewrite <- app_assoc in *.
    split_and!; [|done| |done].
    + cbn [parseredirs]. rewrite Ep, E1, E2. rewrite bool_decide_true by done. cbn [negb].
      erewrite bind_ok; [exact E3|]. by destruct out.
    + apply (wraps_trans _ (length h) c r [(out, f)]); [|done]. apply (wr_snoc _ _ c c []  out f q e).
      * constructor.
      * apply list_lookup_middle. done.
      * done.
      * done.
Qed.

(** ** Arguments *)

(** An array of [MAXARGS] pointers, the first of them set. *)
Definition array (qs : list nat) : list (option nat) := map Some qs ++ replicate (MAXARGS - length qs) None.

Lemma array_push qs q : (length qs < MAXARGS)%nat -> <[length qs := Some q]> (array qs) = array (qs ++ [q]).
Proof.
  intros Hl. unfold array. rewrite insert_app_r_alt by (rewrite length_map; lia).
  rewrite length_map, Nat.sub_diag, map_app, <- app_assoc, length_app. f_equal.
  replace (MAXARGS - length qs)%nat with (S (MAXARGS - (length qs + length [q]))) by (simpl; lia). done.
Qed.

Lemma array_end qs : (length qs < MAXARGS)%nat -> <[length qs := None]> (array qs) = array qs.
Proof.
  intros Hl. unfold array. rewrite insert_app_r_alt by (rewrite length_map; lia).
  rewrite length_map, Nat.sub_diag. destruct (MAXARGS - length qs)%nat eqn:E; [lia|]. done.
Qed.

(** The words [ws] with their extents. *)
Definition words (ps : list (nat * nat)) (ws : list (list byte)) : Prop :=
  Forall2 (fun p w => extent p.1 w p.2) ps ws.

Definition exec_cell (ps : list (nat * nat)) : cmd := EXEC (array (map fst ps)) (array (map snd ps)).

Lemma words_args ps ws : words ps ws -> (length ps < MAXARGS)%nat ->
  args (array (map fst ps)) (array (map snd ps)) ws.
Proof.
  intros Hw. unfold array. rewrite !length_map. intros Hl.
  destruct (MAXARGS - length ps)%nat as [|k] eqn:E; [lia|]. clear E Hl.
  induction Hw as [|[q e] w ps ws Hx Hw IH]; simpl; [eauto|].
  exists q, e. eexists _, _. split_and!; [reflexivity|reflexivity|done|exact IH].
Qed.

Lemma set_arg_push h c ps q e : (length ps < MAXARGS)%nat -> h !! c = Some (exec_cell ps) ->
  set_arg c (length ps) (Some q) (Some e) h = Ok tt (<[c := exec_cell (ps ++ [(q, e)])]> h).
Proof.
  intros Hl Hc. unfold set_arg. rewrite Hc. unfold exec_cell.
  rewrite (proj2 (Nat.ltb_lt _ _) Hl), !map_app. cbn [map fst snd].
  rewrite <- (length_map fst ps), array_push by (by rewrite length_map).
  by rewrite length_map, <- (length_map snd ps), array_push by (by rewrite length_map).
Qed.

Lemma set_arg_end h c ps : (length ps < MAXARGS)%nat -> h !! c = Some (exec_cell ps) ->
  set_arg c (length ps) None None h = Ok tt h.
Proof.
  intros Hl Hc. unfold set_arg. rewrite Hc. unfold exec_cell. rewrite (proj2 (Nat.ltb_lt _ _) Hl).
  rewrite <- (length_map fst ps) at 1. rewrite array_end by (by rewrite length_map).
  rewrite <- (length_map snd ps), array_end by (by rewrite length_map).
  by rewrite list_insert_id.
Qed.

(** The tokens after a command. *)
Definition ends_command (rest : list token) : Prop := rest = [] \/ first_in (text "|)&;") rest = true.

Lemma ends_no_redir rest : ends_command rest -> first_in (text "<>") rest = false.
Proof.
  intros [->|H]; [done|]. destruct rest as [|[w|c] rest]; [done..|]. simpl in *.
  apply bool_decide_eq_true in H. apply bool_decide_eq_false. intros H2. revert H.
  change (c ∈ [Byte.x3c; Byte.x3e]) in H2. rewrite !elem_of_cons in H2.
  destruct H2 as [->|[->|H2]]; [..|by apply not_elem_of_nil in H2];
    apply (bool_decide_unpack _); vm_compute; exact I.
Qed.

Lemma args_loop_ok : forall segs fuel c r s h ps ws rs rest,
  before s (concat (map seg_toks segs) ++ rest) -> ends_command rest ->
  h !! c = Some (exec_cell ps) -> words ps ws -> wraps h r c rs -> (r < length h)%nat ->
  (length ps + length segs < MAXARGS)%nat -> (length (concat (map seg_toks segs)) <= fuel)%nat ->
  exists r' s' h' ps', args_loop buf es fuel c (length ps) r s h = Ok (r', s', length ps') h' /\
    before s' rest /\ h' !! c = Some (exec_cell ps') /\ words ps' (ws ++ map fst segs) /\
    wraps h' r' c (rs ++ concat (map snd segs)) /\ (r' < length h')%nat /\
    length ps' = (length ps + length segs)%nat /\
    (forall i x, i <> c -> h !! i = Some x -> h' !! i = Some x).
Proof.
  induction segs as [|[w rs'] segs IH]; intros fuel c r s h ps ws rs rest Hb Hend Hc Hw Hwr Hr Hn Hfuel.
  - simpl in Hb. destruct (peek_before buf es s (text "|)&;") rest Hb) as (s1 & Ep & Hb1); [done|].
    exists r. simpl. rewrite !app_nil_r.
    assert (E : exists s', args_loop buf es fuel c (length ps) r s h = Ok (r, s', length ps) h /\ before s' rest).
    { destruct Hend as [->|He].
      - destruct (gettoken_end buf es s1 Hb1) as (q & e & s2 & E & Hb2). exists s2. split; [|done].
        destruct fuel; cbn [args_loop]; rewrite Ep; cbn [first_in]; rewrite E, bool_decide_true by done; done.
      - rewrite He in Ep. exists s1. split; [|done]. destruct fuel; cbn [args_loop]; by rewrite Ep. }
    destruct E as (s' & E & Hb'). exists s', h, ps. split_and!; done.
  - simpl in Hb, Hfuel. destruct fuel as [|k]; [simpl in Hfuel; lia|]. simpl in Hn.
    rewrite length_app in Hfuel. rewrite <- app_assoc in Hb.
    destruct (peek_before buf es s (text "|)&;") _ Hb) as (s1 & Ep & Hb1); [done|]. cbn [first_in] in Ep.
    destruct (gettoken_word buf es s1 _ _ Hb1) as (q & e & s2 & E & Hx & Hb2).
    assert (Hlt : (length ps < MAXARGS)%nat) by lia.
    set (h1 := <[c := exec_cell (ps ++ [(q, e)])]> h).
    assert (Hc1 : h1 !! c = Some (exec_cell (ps ++ [(q, e)])))
      by (apply list_lookup_insert_eq; by eapply lookup_lt_Some).
    assert (Hstop : first_in (text "<>") (concat (map seg_toks segs) ++ rest) = false)
      by (destruct segs; [by apply ends_no_redir|done]).
    assert (Hwr1 : wraps h1 r c rs).
    { eapply wraps_ext; [|exact Hwr]. intros i sub q0 e0 m d Hi. apply list_lookup_insert_ne. intros ->.
      unfold exec_cell in Hc. congruence. }
    assert (Hlen : (length (concat (map rtoks rs')) = 2 * length rs')%nat).
    { clear. induction rs' as [|x l IHl]; simpl; [done|]. rewrite IHl. lia. }
    destruct (parseredirs_ok rs' k r s2 h1 _ Hb2 Hstop) as (r1 & s3 & l & E1 & Hb3 & Hw1 & Hr1);
      [lia|unfold h1; by rewrite length_insert|].
    assert (Hc2 : (h1 ++ l) !! c = Some (exec_cell (ps ++ [(q, e)]))) by (by apply lookup_app_l_Some).
    assert (Hwr2 : wraps (h1 ++ l) r c rs).
    { eapply wraps_ext; [|exact Hwr1]. intros i sub q0 e0 m d Hi. rewrite Hi. by apply lookup_app_l_Some. }
    destruct (IH k c r1 s3 (h1 ++ l) (ps ++ [(q, e)]) (ws ++ [w]) (rs ++ rs') rest Hb3 Hend Hc2)
      as (r' & s' & h' & ps' & E2 & Hb' & Hc' & Hw' & Hwr' & Hr' & Hl' & Hfr); try done.
    { apply Forall2_app; [done|]. by constructor. }
    { by eapply wraps_trans. }
    { rewrite length_app. simpl. lia. }
    { lia. }
    exists r', s', h', ps'. rewrite <- !app_assoc in *. rewrite length_app in *. cbn [length] in *.
    split_and!; try done; [|lia|].
    + cbn [args_loop]. rewrite Ep, E. rewrite bool_decide_false by done. rewrite bool_decide_true by done.
      cbn [negb]. rewrite (bind_ok _ _ _ _ _ (set_arg_push h c ps q e Hlt Hc)). fold h1. cbv zeta.
      rewrite (proj2 (Nat.leb_gt _ _)) by lia. rewrite (bind_ok _ _ _ _ _ E1). cbn [fst snd].
      rewrite Nat.add_1_r in E2. done.
    + intros i x Hi Hx'. apply Hfr; [done|]. apply lookup_app_l_Some. unfold h1.
      by rewrite list_lookup_insert_ne.
Qed.

(** ** The parser on the grammar *)

Lemma eat_sym s c ts : before s (Sym c :: ts) -> before (eat buf es s) ts.
Proof. intros (q & e & s' & E & Hb)%gettoken_sym. unfold eat. by rewrite E. Qed.

Lemma alloc_ok (x : cmd) h : alloc x h = Ok (length h) (h ++ [x]).
Proof. done. Qed.

Lemma lookup_new h (x : cmd) : (h ++ [x]) !! length h = Some x.
Proof. by apply list_lookup_middle. Qed.

Lemma back_loop_ok : forall n fuel c s h t rest,
  before s (amps n ++ rest) -> first_in (text "&") rest = false -> reps h c t -> (n <= fuel)%nat ->
  exists c' s' l, back_loop buf es fuel c s h = Ok (c', s') (h ++ l) /\ before s' rest /\
    reps (h ++ l) c' (backs n t).
Proof.
  induction n as [|n IH]; intros fuel c s h t rest Hb Hrest Ht Hfuel.
  - destruct (peek_before buf es s (text "&") rest Hb) as (s1 & Ep & Hb1); [done|]. rewrite Hrest in Ep.
    exists c, s1, []. rewrite app_nil_r. split_and!; [|done|done]. destruct fuel; cbn [back_loop]; by rewrite Ep.
  - destruct fuel as [|k]; [lia|].
    change (before s (Sym Byte.x26 :: (amps n ++ rest))) in Hb.
    destruct (peek_before buf es s (text "&") _ Hb) as (s1 & Ep & Hb1); [done|].
    destruct (IH k (length h) (eat buf es s1) (h ++ [BACK c]) (TBack t) rest) as (c' & s' & l & E & Hb' & Hr);
      [by eapply eat_sym|done| |lia|].
    + simpl. exists c. split_and!; [apply lookup_new|by eapply reps_bound|]. by apply reps_app.
    + exists c', s', (BACK c :: l). rewrite <- app_assoc in *. split_and!; [|done|].
      * cbn [back_loop]. rewrite Ep. exact E.
      * unfold backs in *. by rewrite Nat.iter_succ_r.
Qed.

Definition parser (lv : level) : nat -> nat -> P (nat * nat) :=
  match lv with Line => parseline buf es | Pipeline => parsepipe buf es | Command => parseexec buf es end.

(** What may come after, and the fuel beyond four units for each token. *)
Definition follow (lv : level) (rest : list token) : Prop :=
  rest = [] \/ first_in (match lv with Line => text ")" | Pipeline => text ")&;" | Command => text "|)&;" end) rest = true.
Definition spare (lv : level) : nat := match lv with Line => 4 | Pipeline => 3 | Command => 2 end.

Definition parses (lv : level) (t : tree) (ts : list token) : Prop :=
  forall k s h rest, before s (ts ++ rest) -> follow lv rest -> (4 * length ts + spare lv <= k)%nat ->
  exists c s' h', parser lv k s h = Ok (c, s') h' /\ before s' rest /\ ext h h' /\ reps h' c t.

Lemma follow_not lv rest toks :
  follow lv rest ->
  forallb (fun c => negb (strchr toks c)) (match lv with Line => text ")" | Pipeline => text ")&;" | Command => text "|)&;" end) = true ->
  first_in toks rest = false.
Proof.
  intros [->|H] Hall; [done|]. destruct rest as [|[w|c] rest]; [done..|]. simpl in *.
  rewrite forallb_forall in Hall. apply bool_decide_eq_true, list_elem_of_In in H.
  apply Hall in H. by apply negb_true_iff in H.
Qed.

Lemma parse_simple rs segs :
  (length segs < MAXARGS)%nat ->
  parses Command (wrap (TExec (map fst segs)) (rs ++ concat (map snd segs)))
    (concat (map rtoks rs) ++ concat (map seg_toks segs)).
Proof.
  intros Hn k s h rest Hb Hf Hk. destruct k as [|k]; [simpl in Hk; lia|]. rewrite <- app_assoc in Hb.
  rewrite length_app in Hk. simpl in Hk.
  destruct (peek_before buf es s (text "(") _ Hb) as (s1 & Ep & Hb1); [done|].
  assert (Ef : first_in (text "(") (concat (map rtoks rs) ++ concat (map seg_toks segs) ++ rest) = false).
  { destruct rs as [|[[] f] rs]; [|done..]. destruct segs as [|[w l] segs]; [|done].
    by apply (follow_not Command). }
  rewrite Ef in Ep.
  assert (Hstop : first_in (text "<>") (concat (map seg_toks segs) ++ rest) = false)
    by (destruct segs; [by apply ends_no_redir|done]).
  assert (Hlen : (length rs <= length (concat (map rtoks rs)))%nat).
  { clear. induction rs as [|x l IHl]; simpl; lia. }
  destruct (parseredirs_ok rs k (length h) s1 (h ++ [exec_cell []]) _ Hb1 Hstop)
    as (r & s2 & l & E1 & Hb2 & Hw & Hr); [lia|rewrite length_app; simpl; lia|].
  destruct (args_loop_ok segs k (length h) r s2 ((h ++ [exec_cell []]) ++ l) [] [] rs rest Hb2 Hf)
    as (r' & s' & h' & ps & E2 & Hb' & Hc & Hws & Hwr & Hr' & Hl & Hfr); try done; [|constructor|lia|].
  { apply lookup_app_l_Some, lookup_new. }
  exists r', s', h'. simpl in Hl. split_and!; [|done| |].
  - cbn [parser parseexec]. rewrite Ep. unfold execcmd.
    rewrite (bind_ok _ _ _ _ _ (alloc_ok _ _)). change (EXEC _ _) with (exec_cell []).
    rewrite (bind_ok _ _ _ _ _ E1). cbn [fst snd]. rewrite (bind_ok _ _ _ _ _ E2). cbn [fst snd].
    by rewrite (bind_ok _ _ _ _ _ (set_arg_end h' (length h) ps ltac:(lia) Hc)).
  - intros i x Hi. apply Hfr; [intros ->; by apply lookup_lt_Some in Hi; lia|].
    by do 2 apply lookup_app_l_Some.
  - eapply wraps_reps; [exact Hwr|]. simpl. do 2 eexists. split; [exact Hc|].
    apply words_args; [done|lia].
Qed.

Lemma parse_block t ts rs :
  parses Line t ts -> parses Command (wrap t rs) (Sym Byte.x28 :: ts ++ Sym Byte.x29 :: concat (map rtoks rs)).
Proof.
  intros IH k s h rest Hb Hf Hk. simpl in Hk. rewrite length_app in Hk. simpl in Hk.
  do 2 (destruct k as [|k]; [lia|]). simpl in Hb. rewrite <- app_assoc in Hb. simpl in Hb.
  destruct (peek_before buf es s (text "(") _ Hb) as (s1 & Ep & Hb1); [done|].
  destruct (peek_before buf es s1 (text "(") _ Hb1) as (s2 & Ep2 & Hb2); [done|].
  destruct (IH k (eat buf es s2) h (Sym Byte.x29 :: concat (map rtoks rs) ++ rest))
    as (c & s3 & h1 & E & Hb3 & He & Ht); [by eapply eat_sym|by right|simpl; lia|].
  destruct (peek_before buf es s3 (text ")") _ Hb3) as (s4 & Ep4 & Hb4); [done|].
  assert (Hlen : (length rs <= length (concat (map rtoks rs)))%nat).
  { clear. induction rs as [|x l IHl]; simpl; lia. }
  destruct (parseredirs_ok rs k c (eat buf es s4) h1 rest) as (r & s' & l & E1 & Hb' & Hw & Hr);
    [by eapply eat_sym|by apply ends_no_redir|lia|by eapply reps_bound|].
  exists r, s', (h1 ++ l). split_and!; [|done|eauto with xv6|].
  - cbn [parser parseexec parseblock]. rewrite Ep. cbn [first_in]. change (strchr (text "(") Byte.x28) with true.
    rewrite Ep2. cbn [first_in]. change (strchr (text "(") Byte.x28) with true. cbn [negb].
    cbn [parser] in E. rewrite (bind_ok _ _ _ _ _ E). cbn [fst snd]. rewrite Ep4. exact E1.
  - eapply wraps_reps; [exact Hw|]. by apply reps_app.
Qed.

Lemma follow_sub lv lv' rest :
  follow lv rest -> (spare lv' <= spare lv)%nat -> follow lv' rest.
Proof.
  intros [->|H] Hlv; [by left|right]. destruct rest as [|[w|x] rest]; [done..|]. simpl in *.
  apply bool_decide_eq_true in H. apply bool_decide_true. revert H.
  destruct lv, lv'; simpl in Hlv; try lia; try done; intros H;
    repeat (apply elem_of_cons in H as [->|H]; [by apply (bool_decide_unpack _)|]); by apply not_elem_of_nil in H.
Qed.

Lemma follow_amps n rest : follow Pipeline rest -> follow Pipeline (amps n ++ rest).
Proof. destruct n; [done|]. by right. Qed.

Lemma parse_pipeline t ts : parses Command t ts -> parses Pipeline t ts.
Proof.
  intros IH k s h rest Hb Hf Hk. destruct k as [|k]; simpl in Hk; [lia|].
  destruct (IH k s h rest Hb) as (c & s1 & h1 & E & Hb1 & He & Ht);
    [by apply (follow_sub Pipeline); [|simpl; lia]|simpl; lia|].
  destruct (peek_before buf es s1 (text "|") _ Hb1) as (s2 & Ep & Hb2); [done|].
  rewrite (follow_not Pipeline) in Ep by done.
  exists c, s2, h1. split_and!; try done. cbn [parser parsepipe] in *.
  rewrite (bind_ok _ _ _ _ _ E). cbn [fst snd]. by rewrite Ep.
Qed.

Lemma parse_pipe t1 ts1 t2 ts2 :
  parses Command t1 ts1 -> parses Pipeline t2 ts2 -> parses Pipeline (TPipe t1 t2) (ts1 ++ Sym Byte.x7c :: ts2).
Proof.
  intros IH1 IH2 k s h rest Hb Hf Hk. rewrite length_app in Hk. simpl in Hk.
  destruct k as [|k]; [lia|]. rewrite <- app_assoc in Hb. simpl in Hb.
  destruct (IH1 k s h _ Hb) as (c1 & s1 & h1 & E1 & Hb1 & He1 & Ht1); [by right|simpl; lia|].
  destruct (peek_before buf es s1 (text "|") _ Hb1) as (s2 & Ep & Hb2); [done|].
  destruct (IH2 k (eat buf es s2) h1 rest) as (c2 & s3 & h2 & E2 & Hb3 & He2 & Ht2);
    [by eapply eat_sym|done|simpl; lia|].
  exists (length h2), s3, (h2 ++ [PIPE c1 c2]). split_and!; [|done|eauto with xv6|].
  - cbn [parser parsepipe] in *. rewrite (bind_ok _ _ _ _ _ E1). cbn [fst snd]. rewrite Ep.
    cbn [first_in]. change (strchr (text "|") Byte.x7c) with true. cbv iota.
    by rewrite (bind_ok _ _ _ _ _ E2).
  - apply (reps_ext _ h1 h2 He2) in Ht1. simpl. exists c1, c2.
    split_and!; [apply lookup_new|by eapply reps_bound|by eapply reps_bound|by apply reps_app|by apply reps_app].
Qed.

(** The pipeline and the [&] of a line. *)
Lemma parse_backs t ts n k s h rest :
  parses Pipeline t ts -> before s (ts ++ amps n ++ rest) -> follow Pipeline rest ->
  first_in (text "&") rest = false -> (4 * (length ts + n) + 3 <= k)%nat ->
  exists c s1 h1 c' s' l, parsepipe buf es k s h = Ok (c, s1) h1 /\
    back_loop buf es k c s1 h1 = Ok (c', s') (h1 ++ l) /\ before s' rest /\ ext h (h1 ++ l) /\
    reps (h1 ++ l) c' (backs n t).
Proof.
  intros IH Hb Hf Hamp Hk.
  destruct (IH k s h _ Hb) as (c & s1 & h1 & E & Hb1 & He & Ht); [by apply follow_amps|simpl; lia|].
  destruct (back_loop_ok n k c s1 h1 t rest Hb1 Hamp Ht) as (c' & s' & l & E2 & Hb2 & Ht2); [lia|].
  exists c, s1, h1, c', s', l. split_and!; eauto with xv6.
Qed.

Lemma parse_line t ts n : parses Pipeline t ts -> parses Line (backs n t) (ts ++ amps n).
Proof.
  intros IH k s h rest Hb Hf Hk. rewrite length_app in Hk. unfold amps in Hk at 1.
  rewrite length_replicate in Hk. simpl in Hk. destruct k as [|k]; [lia|]. rewrite <- app_assoc in Hb.
  destruct (parse_backs t ts n k s h rest IH Hb) as (c & s1 & h1 & c' & s2 & l & E1 & E2 & Hb2 & He & Ht);
    [by apply (follow_sub Line); [|simpl; lia]|by apply (follow_not Line)|lia|].
  destruct (peek_before buf es s2 (text ";") _ Hb2) as (s3 & Ep & Hb3); [done|].
  rewrite (follow_not Line) in Ep by done.
  exists c', s3, (h1 ++ l). split_and!; try done. cbn [parser parseline].
  rewrite (bind_ok _ _ _ _ _ E1). cbn [fst snd]. rewrite (bind_ok _ _ _ _ _ E2). cbn [fst snd]. by rewrite Ep.
Qed.

Lemma parse_list t1 ts1 n t2 ts2 :
  parses Pipeline t1 ts1 -> parses Line t2 ts2 ->
  parses Line (TList (backs n t1) t2) (ts1 ++ amps n ++ Sym Byte.x3b :: ts2).
Proof.
  intros IH1 IH2 k s h rest Hb Hf Hk. rewrite !length_app in Hk. unfold amps in Hk at 1.
  rewrite length_replicate in Hk. simpl in Hk. destruct k as [|k]; [lia|].
  rewrite <- !app_assoc in Hb. simpl in Hb.
  destruct (parse_backs t1 ts1 n k s h _ IH1 Hb) as (c & s1 & h1 & c1 & s2 & l & E1 & E2 & Hb2 & He & Ht1);
    [by right|done|lia|].
  destruct (peek_before buf es s2 (text ";") _ Hb2) as (s3 & Ep & Hb3); [done|].
  destruct (IH2 k (eat buf es s3) (h1 ++ l) rest) as (c2 & s4 & h2 & E3 & Hb4 & He2 & Ht2);
    [by eapply eat_sym|done|simpl; lia|].
  exists (length h2), s4, (h2 ++ [LIST c1 c2]). split_and!; [|done|eauto with xv6|].
  - cbn [parser parseline] in *. rewrite (bind_ok _ _ _ _ _ E1). cbn [fst snd].
    rewrite (bind_ok _ _ _ _ _ E2). cbn [fst snd]. rewrite Ep. cbn [first_in].
    change (strchr (text ";") Byte.x3b) with true. cbv iota. by rewrite (bind_ok _ _ _ _ _ E3).
  - apply (reps_ext _ _ h2 He2) in Ht1. simpl. exists c1, c2.
    split_and!; [apply lookup_new|by eapply reps_bound|by eapply reps_bound|by apply reps_app|by apply reps_app].
Qed.

Lemma parse_gram lv t ts : gram lv t ts -> parses lv t ts.
Proof.
  induction 1; [by apply parse_simple|by apply parse_block|by apply parse_pipeline|by apply parse_pipe|
    by apply parse_line|by apply parse_list].
Qed.

End Heap.

(** ** NUL-termination *)

Lemma nth_drop_ch (b : list byte) q i : nth i (drop q b) Byte.x00 = ch b (q + i).
Proof.
  unfold ch. revert q. induction b as [|c b IH]; intros [|q]; simpl; done || by destruct i.
Qed.

Lemma cstr_prefix : forall w l, Byte.x00 ∉ w ->
  (forall i, (i < length w)%nat -> nth i l Byte.x00 = nth i w Byte.x00) -> nth (length w) l Byte.x00 = Byte.x00 ->
  cstr l = w.
Proof.
  induction w as [|c w IH]; intros l Hz Hi He; simpl in *.
  - destruct l as [|x l]; [done|]. simpl in *. by rewrite He, decide_True.
  - apply not_elem_of_cons in Hz as [Hc Hz]. pose proof (Hi 0%nat ltac:(lia)) as H0. destruct l as [|x l].
    + simpl in H0. congruence.
    + simpl in *. subst x. rewrite decide_False by congruence. f_equal. apply IH; [done| |done].
      intros i Hlt. apply (Hi (S i)). lia.
Qed.

Lemma ch_insert b e i x : (e < length b)%nat -> ch (<[e := x]> b) i = if decide (i = e) then x else ch b i.
Proof.
  intros He. unfold ch. rewrite !nth_lookup. destruct (decide (i = e)) as [->|Hne].
  - by rewrite list_lookup_insert_eq.
  - by rewrite list_lookup_insert_ne.
Qed.

Lemma ch_cut b e i : ch (<[e := Byte.x00]> b) i = if decide (i = e) then Byte.x00 else ch b i.
Proof.
  destruct (decide (e < length b)%nat); [by apply ch_insert|]. rewrite list_insert_ge by lia.
  case_decide; [|done]. subst. unfold ch. rewrite nth_overflow; [done|lia].
Qed.

Section Terminate.
Context (buf : list byte) (es : nat).

(** The words are as in [buf]; a string that was terminated stays so. *)
Definition agrees (b : list byte) : Prop := forall i, wordchar (ch buf i) -> ch b i = ch buf i.
Definition later (b b' : list byte) : Prop := forall i, ch b i = Byte.x00 -> ch b' i = Byte.x00.
Definition ended (b : list byte) (q : nat) (w : list byte) (e : nat) : Prop :=
  extent buf es q w e /\ ch b e = Byte.x00.

Lemma ended_str b q w e : agrees b -> ended b q w e -> str b q = w.
Proof.
  intros Ha [([_ Hw] & -> & _ & Hi & _) He]. unfold str. apply cstr_prefix.
  - intros Hz. rewrite Forall_forall in Hw. apply Hw in Hz. by apply not_word_zero in Hz.
  - intros i Hlt. rewrite nth_drop_ch, Ha; [by apply Hi|]. rewrite Hi by done.
    rewrite Forall_forall in Hw. apply Hw. by apply list_elem_of_In, nth_In.
  - by rewrite nth_drop_ch.
Qed.

Lemma later_ended b b' q w e : later b b' -> ended b q w e -> ended b' q w e.
Proof. intros Hl [? ?]. split; auto. Qed.

Lemma cut_agrees b e : agrees b -> ~ wordchar (ch buf e) -> agrees (<[e := Byte.x00]> b).
Proof. intros Ha He i Hi. rewrite ch_cut. case_decide; [by subst|auto]. Qed.

Lemma cut_later b e : later b (<[e := Byte.x00]> b).
Proof. intros i Hi. rewrite ch_cut. by case_decide. Qed.

Lemma nul_args_ok : forall ws argv eargv b, agrees b -> args (extent buf es) argv eargv ws ->
  exists b', nul_args argv eargv b = Some b' /\ agrees b' /\ later b b' /\ args (ended b') argv eargv ws.
Proof.
  induction ws as [|w ws IH]; intros argv eargv b Ha; simpl.
  - intros [l ->]. exists b. simpl. unfold later. eauto.
  - intros (q & e & argv' & eargv' & -> & -> & Hx & Hargs).
    destruct (IH argv' eargv' (<[e := Byte.x00]> b)) as (b' & E & Ha' & Hl & Hargs');
      [apply cut_agrees; [done|apply Hx]|done|].
    exists b'. simpl. split_and!; [done|done| |].
    + intros i Hi. by apply Hl, cut_later.
    + exists q, e, argv', eargv'. split_and!; try done. split; [done|]. apply Hl. by rewrite ch_cut, decide_True.
Qed.

Lemma nulterminate_ok h : forall t c fuel b,
  reps (extent buf es) h c t -> (c < fuel)%nat -> agrees b ->
  exists b', nulterminate fuel h c b = Some b' /\ agrees b' /\ later b b' /\ reps (ended b') h c t.
Proof.
  assert (Hmono : forall b b', later b b' -> forall t c, reps (ended b) h c t -> reps (ended b') h c t).
  { intros b b' Hl. apply reps_mono. intros q w e. by apply later_ended. }
  induction t as [ws|t IH f mode fd|t1 IH1 t2 IH2|t1 IH1 t2 IH2|t IH]; intros c fuel b;
    (destruct fuel as [|k]; [lia|]); simpl.
  - intros (argv & eargv & Hc & Hargs) _ Ha. rewrite Hc.
    destruct (nul_args_ok ws argv eargv b Ha Hargs) as (b' & E & ? & ? & ?). exists b'. eauto 10.
  - intros (sub & q & e & Hc & Hx & Hlt & Ht) Hk Ha. rewrite Hc.
    destruct (IH sub k b Ht ltac:(lia) Ha) as (b1 & E & Ha1 & Hl1 & Ht1). rewrite E. eexists. split; [done|].
    split; [apply cut_agrees; [done|apply Hx]|]. split; [intros i Hi; by apply cut_later, Hl1|].
    exists sub, q, e. split_and!; try done; [|by eapply Hmono; [apply cut_later|]].
    split; [done|]. by rewrite ch_cut, decide_True.
  - intros (l & r & Hc & Hl & Hr & H1 & H2) Hk Ha. rewrite Hc.
    destruct (IH1 l k b H1 ltac:(lia) Ha) as (b1 & E1 & Ha1 & Hl1 & Ht1). rewrite E1.
    destruct (IH2 r k b1 H2 ltac:(lia) Ha1) as (b2 & E2 & Ha2 & Hl2 & Ht2). exists b2.
    split_and!; [done|done|intros i Hi; by apply Hl2, Hl1|]. exists l, r. eauto 10.
  - intros (l & r & Hc & Hl & Hr & H1 & H2) Hk Ha. rewrite Hc.
    destruct (IH1 l k b H1 ltac:(lia) Ha) as (b1 & E1 & Ha1 & Hl1 & Ht1). rewrite E1.
    destruct (IH2 r k b1 H2 ltac:(lia) Ha1) as (b2 & E2 & Ha2 & Hl2 & Ht2). exists b2.
    split_and!; [done|done|intros i Hi; by apply Hl2, Hl1|]. exists l, r. eauto 10.
  - intros (sub & Hc & Hlt & Ht) Hk Ha. rewrite Hc.
    destruct (IH sub k b Ht ltac:(lia) Ha) as (b1 & E & Ha1 & Hl1 & Ht1). exists b1. eauto 10.
Qed.

End Terminate.

(** ** parsecmd *)

(** The command [t] with its strings in the buffer [b], as [runcmd] reads them. *)
Definition decoded (h : list cmd) (b : list byte) (c : nat) (t : tree) : Prop :=
  reps (fun q w _ => str b q = w) h c t.

Lemma cstr_view l post : Byte.x00 ∉ l ->
  cstr (l ++ Byte.x00 :: post) = l /\ view (l ++ Byte.x00 :: post) (length l) 0 l.
Proof.
  intros Hz.
  assert (Hn : forall i, (i <= length l)%nat -> nth i (l ++ Byte.x00 :: post) Byte.x00 = nth i l Byte.x00).
  { intros i Hi. destruct (decide (i < length l)%nat); [by rewrite app_nth1|].
    rewrite app_nth2, (nth_overflow l) by lia. by replace (i - length l)%nat with 0%nat by lia. }
  split; [|by split_and!]. apply cstr_prefix; [done| |].
  - intros i Hi. apply Hn. lia.
  - by rewrite Hn, nth_overflow.
Qed.

Lemma spells_length ts l : spells ts l -> (length ts <= length l)%nat.
Proof.
  induction 1 as [w Hw|w x ts l Hw [Hx _] Hl IH Hh|w c ts l Hw Hc Hl IH Hh]; simpl;
    rewrite ?length_app; simpl; [lia| |lia]. destruct x; [done|]. simpl. lia.
Qed.

(** The end of the line: nothing but white space is left. *)
Lemma before_end buf es s : before buf es s [] -> skip_white buf es s = es.
Proof.
  intros (l & (He & _) & Hs & Hh)%before_skip. inversion Hs as [w Hw E| |]; subst.
  destruct l as [|c l]; [simpl in He; lia|]. simpl in Hh. by apply Forall_cons in Hw as [? _].
Qed.

Lemma parsecmd_ok t ts l post :
  gram Line t ts -> spells ts l -> Byte.x00 ∉ l ->
  exists c b h, parsecmd (l ++ Byte.x00 :: post) [] = Ok (c, b) h /\ decoded h b c t.
Proof.
  intros Hg Hs Hz. set (buf := l ++ Byte.x00 :: post). set (es := length l).
  destruct (cstr_view l post Hz) as [Ec Hv].
  assert (Hb : before buf es 0 (ts ++ [])) by (rewrite app_nil_r; by exists l).
  destruct (parse_gram buf es Line t ts Hg (parse_fuel es) 0%nat [] [] Hb) as (c & s & h & E & Hb' & _ & Ht);
    [by left|unfold parse_fuel; pose proof (spells_length ts l Hs); simpl spare; unfold es; lia|].
  destruct (nulterminate_ok buf es h t c (length h) buf Ht) as (b & En & Ha & _ & Hd);
    [by eapply reps_bound|done|].
  exists c, b, h. split.
  - unfold parsecmd. fold buf in Ec. rewrite Ec. fold es. cbn [parser] in E.
    rewrite (bind_ok _ _ _ _ _ E). cbn [fst snd]. rewrite (before_end _ _ _ Hb'), Nat.eqb_refl. cbn [negb].
    rewrite bind_gets. by rewrite En.
  - unfold decoded. eapply reps_mono; [|exact Hd]. cbv beta. intros q w e. by apply ended_str.
Qed.

(** A store into the line inside its buffer. *)
Lemma put_ok (buf : list byte) i c : (i < length buf)%nat -> put buf i c = Some (<[i := c]> buf).
Proof. intros H. unfold put. by rewrite (proj2 (Nat.ltb_lt _ _) H). Qed.

(** C19: the parser of the shell builds the command of every line of the
    grammar.  However the tokens of the line are spaced, [parsecmd] returns a
    command of the grammar's shape, and the strings of the command, which it
    terminates in the line itself, are exactly the words of the line. *)
Theorem parsecmd_complete t ts l post :
  gram Line t ts -> spells ts l -> Byte.x00 ∉ l ->
  exists c b h, parsecmd (l ++ Byte.x00 :: post) [] = Ok (c, b) h /\ decoded h b c t.
Proof.
  apply parsecmd_ok.
Qed.

Lemma parsecmd_complete_witness : exists c b h,
  parsecmd (text "ls  a|wc" ++ [Byte.x0a; Byte.x00]) [] = Ok (c, b) h /\
  decoded h b c (TPipe (TExec [text "ls"; text "a"]) (TExec [text "wc"])).
Proof.
  assert (Hw : Forall word [text "ls"; text "a"; text "wc"]).
  { repeat constructor; try discriminate; apply (bool_decide_unpack (wordchar _)); vm_compute; exact I. }
  repeat match goal with H : Forall _ (_ :: _) |- _ => apply Forall_cons in H as [? H] end.
  apply (parsecmd_complete (TPipe (TExec [text "ls"; text "a"]) (TExec [text "wc"]))
    [Word (text "ls"); Word (text "a"); Sym Byte.x7c; Word (text "wc")] (text "ls  a|wc" ++ [Byte.x0a]) []).
  - apply (g_line (TPipe (TExec [text "ls"; text "a"]) (TExec [text "wc"]))
      [Word (text "ls"); Word (text "a"); Sym Byte.x7c; Word (text "wc")] 0).
    apply (g_pipe _ [Word (text "ls"); Word (text "a")] _ [Word (text "wc")]).
    + apply (g_simple [] [(text "ls", []); (text "a", [])]). vm_compute. lia.
    + apply g_command, (g_simple [] [(text "wc", [])]). vm_compute. lia.
  - apply (sp_word [] (text "ls") _ (text "  a|wc" ++ [Byte.x0a])); [constructor|done| |
      intros Hx; revert Hx; apply (bool_decide_unpack _); vm_compute; exact I].
    apply (sp_word (text "  ") (text "a") _ (text "|wc" ++ [Byte.x0a]));
      [apply (bool_decide_unpack _); vm_compute; exact I|done| |
       intros Hx; revert Hx; apply (bool_decide_unpack _); vm_compute; exact I].
    apply (sp_sym [] Byte.x7c _ (text "wc" ++ [Byte.x0a]));
      [constructor|apply (bool_decide_unpack _); vm_compute; exact I| |done].
    apply (sp_word [] (text "wc") [] [Byte.x0a]);
      [constructor|done|constructor; apply (bool_decide_unpack _); vm_compute; exact I|
       intros Hx; revert Hx; apply (bool_decide_unpack _); vm_compute; exact I].
  - apply (bool_decide_unpack _). vm_compute. exact I.
Defined.
