(* ===== verification/ShRun.v ===== *)
(** * What the shell runs

    The system calls of [runcmd] on a table of descriptors, with the rule of
    the kernel for new descriptors, give the programs that a command line
    starts and the files that each of them has open.  Printing a command and
    giving the line to the shell starts what the command means. *)

From Stdlib Require Import String.
From S2P Require Import Prelude Memory CString FsState Machine Sysfile Sh ShSpec.
Import Sh.
Local Open Scope Z_scope.
Local Open Scope kernel_scope.

(** ** Descriptors *)

(** What a descriptor stands for: a file that was opened, an end of a pipe, or
    something that the shell inherited. *)
Inductive fdo := File (path : list byte) (mode : Z) | PipeR (id : nat) | PipeW (id : nat) | Inherited (n : nat).

Notation fdtable := (list (option fdo)).

(** A program that was started: its arguments and its descriptors. *)
Notation job := (list (list byte) * fdtable)%type.

Section Kernel.
(** The files that can be opened and the programs that can be executed. *)
Context (open_ok : list byte -> Z -> bool) (exec_ok : list byte -> bool).

Definition closed (fds : fdtable) (fd : Z) : fdtable := <[Z.to_nat fd := None]> fds.

(** The programs that a process and its children start, a child before its
    parent; [n] counts the pipes. *)
Fixpoint started (p : prog) (fds : fdtable) (n : nat) : list job * nat :=
  match p with
  | Exit => ([], n)
  | Call c k =>
      match c in sys R return (R -> prog) -> list job * nat with
      | Fork => fun k =>
          let '(l1, n) := started (k 0) fds n in
          let '(l2, n) := started (k 1) fds n in (l1 ++ l2, n)
      | Wait => fun k => started (k 1) fds n
      | Exec path argv => fun k => if exec_ok path then ([(argv, fds)], n) else started (k (-1)) fds n
      | Open path mode => fun k =>
          match fdalloc_scan fds 0 with
          | Some fd =>
              if open_ok path mode then started (k (Z.of_nat fd)) (<[fd := Some (File path mode)]> fds) n
              else started (k (-1)) fds n
          | None => started (k (-1)) fds n
          end
      | Close fd => fun k => started (k 0) (closed fds fd) n
      | Dup fd => fun k =>
          match mjoin (fds !! Z.to_nat fd), fdalloc_scan fds 0 with
          | Some f, Some fd => started (k (Z.of_nat fd)) (<[fd := Some f]> fds) n
          | _, _ => started (k (-1)) fds n
          end
      | Pipe => fun k =>
          match fdalloc_scan fds 0 with
          | Some p0 =>
              let fds0 := <[p0 := Some (PipeR n)]> fds in
              match fdalloc_scan fds0 0 with
              | Some p1 =>
                  started (k (0, Z.of_nat p0, Z.of_nat p1)) (<[p1 := Some (PipeW n)]> fds0) (S n)
              | None => started (k (-1, 0, 0)) fds n
              end
          | None => started (k (-1, 0, 0)) fds n
          end
      | Write _ s => fun k => started (k (Z.of_nat (length s))) fds n
      end k
  end.

(** ** The meaning of a command *)

Fixpoint meaning (t : tree) (fds : fdtable) (n : nat) : list job * nat :=
  match t with
  | TExec ws =>
      match ws with
      | path :: _ => if exec_ok path then ([(ws, fds)], n) else ([], n)
      | [] => ([], n)
      end
  | TRedir t f mode fd =>
      if open_ok f mode then meaning t (<[Z.to_nat fd := Some (File f mode)]> fds) n else ([], n)
  | TPipe l r =>
      let '(l1, m) := meaning l (<[1%nat := Some (PipeW n)]> fds) (S n) in
      let '(l2, m) := meaning r (<[0%nat := Some (PipeR n)]> fds) m in (l1 ++ l2, m)
  | TList l r =>
      let '(l1, m) := meaning l fds n in
      let '(l2, m) := meaning r fds m in (l1 ++ l2, m)
  | TBack t => meaning t fds n
  end.

(** ** The lowest free descriptor *)

Lemma scan_some {A} (l : list (option A)) : forall k fd,
  fdalloc_scan l k = Some fd -> exists j, fd = (k + j)%nat /\ l !! j = Some None /\
    forall i, (i < j)%nat -> exists x, l !! i = Some (Some x).
Proof.
  induction l as [|[x|] l IH]; intros k fd; simpl; [done| |].
  - intros (j & -> & Hj & Hi)%IH. exists (S j). split_and!; [lia|done|].
    intros [|i] Hlt; [by exists x|]. apply Hi. lia.
  - intros [= <-]. exists 0%nat. split_and!; [lia|done|lia].
Qed.

Lemma scan_first {A} (l : list (option A)) : forall k j,
  l !! j = Some None -> (forall i, (i < j)%nat -> exists x, l !! i = Some (Some x)) ->
  fdalloc_scan l k = Some (k + j)%nat.
Proof.
  induction l as [|[x|] l IH]; intros k j Hj Hi; [done| |].
  - destruct j as [|j]; [done|]. simpl. rewrite (IH (S k) j); [f_equal; lia|done|].
    intros i Hlt. apply (Hi (S i)). lia.
  - destruct j as [|j]; simpl; [f_equal; lia|]. destruct (Hi 0%nat ltac:(lia)) as [x Hx]. done.
Qed.

(** Standard input and output are open and two descriptors are free. *)
Record ready (fds : fdtable) (p0 p1 : nat) : Prop := mk_ready {
  rd_in : exists f, fds !! 0%nat = Some (Some f);
  rd_out : exists f, fds !! 1%nat = Some (Some f);
  rd_free0 : fds !! p0 = Some None;
  rd_below0 : forall i, (i < p0)%nat -> exists f, fds !! i = Some (Some f);
  rd_free1 : fds !! p1 = Some None;
  rd_below1 : forall i, (i < p1)%nat -> i <> p0 -> exists f, fds !! i = Some (Some f);
  rd_order : (p0 < p1)%nat;
}.

Lemma ready_above fds p0 p1 : ready fds p0 p1 -> (2 <= p0)%nat.
Proof.
  intros [[f0 H0] [f1 H1] Hf _ _ _ _]. destruct p0 as [|[|p0]]; [congruence..|lia].
Qed.

Lemma ready_put fds p0 p1 fd f : ready fds p0 p1 -> (fd < 2)%nat -> ready (<[fd := Some f]> fds) p0 p1.
Proof.
  intros Hr Hfd. pose proof (ready_above _ _ _ Hr) as Ha. destruct Hr as [[f0 H0] [f1 H1] Hf Hb Hf1 Hb1 Ho].
  assert (Hl : (fd < length fds)%nat) by (apply lookup_lt_Some in Hf; lia).
  assert (Hput : forall i g, fds !! i = Some (Some g) -> exists g, <[fd := Some f]> fds !! i = Some (Some g)).
  { intros i g Hi. destruct (decide (i = fd)) as [->|Hne]; [exists f; by apply list_lookup_insert_eq|].
    exists g. by rewrite list_lookup_insert_ne. }
  constructor; [by eapply Hput|by eapply Hput|by rewrite list_lookup_insert_ne by lia| | | |done].
  - intros i Hi. destruct (Hb i Hi) as [g Hg]. by eapply Hput.
  - by rewrite list_lookup_insert_ne by lia.
  - intros i Hi Hne. destruct (Hb1 i Hi Hne) as [g Hg]. by eapply Hput.
Qed.

(** A standard descriptor that was closed is the next one to be given out. *)
Lemma scan_std fds p0 p1 fd : ready fds p0 p1 -> (fd < 2)%nat ->
  fdalloc_scan (<[fd := None]> fds) 0 = Some fd.
Proof.
  intros Hr Hfd. pose proof (ready_above _ _ _ Hr) as Ha. destruct Hr as [[f0 H0] [f1 H1] Hf Hb _ _ _].
  apply (scan_first _ 0 fd).
  - apply list_lookup_insert_eq. apply lookup_lt_Some in Hf. lia.
  - intros i Hi. assert (i = 0%nat) as -> by lia. exists f0. by rewrite list_lookup_insert_ne by lia.
Qed.

Lemma scan_pipe fds p0 p1 n : ready fds p0 p1 ->
  fdalloc_scan fds 0 = Some p0 /\ fdalloc_scan (<[p0 := Some (PipeR n)]> fds) 0 = Some p1.
Proof.
  intros [_ _ Hf Hb Hf1 Hb1 Ho]. split; [by apply (scan_first fds 0)|]. apply (scan_first _ 0).
  - by rewrite list_lookup_insert_ne by lia.
  - intros i Hi. destruct (decide (i = p0)) as [->|Hne].
    + eexists. apply list_lookup_insert_eq. by eapply lookup_lt_Some.
    + rewrite list_lookup_insert_ne by done. by apply Hb1.
Qed.

(** The child of a pipe: its standard descriptor is the end of the pipe, and
    both descriptors of the pipe are closed again. *)
Lemma child_fds fds p0 p1 n fd (e : fdo) :
  ready fds p0 p1 -> (fd < 2)%nat ->
  closed (closed (<[fd := Some e]> (closed (<[p1 := Some (PipeW n)]> (<[p0 := Some (PipeR n)]> fds))
    (Z.of_nat fd))) (Z.of_nat p0)) (Z.of_nat p1) = <[fd := Some e]> fds.
Proof.
  intros Hr Hfd. pose proof (ready_above _ _ _ Hr) as Ha. destruct Hr as [_ _ Hf _ Hf1 _ Ho].
  unfold closed. rewrite !Nat2Z.id. apply list_eq. intros i.
  assert (H0 : (p0 < length fds)%nat) by (by eapply lookup_lt_Some).
  assert (H1 : (p1 < length fds)%nat) by (by eapply lookup_lt_Some).
  destruct (decide (i = p1)) as [->|N1].
  { rewrite list_lookup_insert_eq by (rewrite !length_insert; lia). by rewrite list_lookup_insert_ne by lia. }
  rewrite list_lookup_insert_ne by done. destruct (decide (i = p0)) as [->|N0].
  { rewrite list_lookup_insert_eq by (rewrite !length_insert; lia). by rewrite list_lookup_insert_ne by lia. }
  rewrite list_lookup_insert_ne by done. destruct (decide (i = fd)) as [->|Nf].
  - rewrite !list_lookup_insert_eq by (rewrite ?length_insert; lia). done.
  - by rewrite !list_lookup_insert_ne by done.
Qed.

(** ** runcmd *)

(** Redirections of the standard descriptors only. *)
Fixpoint std_redirs (t : tree) : Prop :=
  match t with
  | TExec _ => True
  | TRedir t _ _ fd => 0 <= fd < 2 /\ std_redirs t
  | TPipe l r | TList l r => std_redirs l /\ std_redirs r
  | TBack t => std_redirs t
  end.

Lemma started_fork child parent fds n :
  started (fork1 child parent) fds n =
    let '(l1, n) := started child fds n in let '(l2, n) := started parent fds n in (l1 ++ l2, n).
Proof. done. Qed.

(** One child of a pipe, on the descriptor [fd] and the end [pe] of the pipe. *)
Lemma started_child fds p0 p1 n fd pe e (k : prog) m :
  ready fds p0 p1 -> (fd < 2)%nat -> pe = p0 /\ e = PipeR n \/ pe = p1 /\ e = PipeW n ->
  started (_ <-- Close (Z.of_nat fd) ;; _ <-- Dup (Z.of_nat pe) ;; _ <-- Close (Z.of_nat p0) ;;
           _ <-- Close (Z.of_nat p1) ;; k)
    (<[p1 := Some (PipeW n)]> (<[p0 := Some (PipeR n)]> fds)) m =
  started k (<[fd := Some e]> fds) m.
Proof.
  intros Hr Hfd He. pose proof (ready_above _ _ _ Hr) as Ha.
  pose proof Hr as [_ _ Hf _ Hf1 _ Ho]. cbn [started].
  assert (H0 : (p0 < length fds)%nat) by (by eapply lookup_lt_Some).
  assert (H1 : (p1 < length fds)%nat) by (by eapply lookup_lt_Some).
  assert (Hpe : closed (<[p1 := Some (PipeW n)]> (<[p0 := Some (PipeR n)]> fds)) (Z.of_nat fd) !! pe = Some (Some e)).
  { unfold closed. rewrite Nat2Z.id, list_lookup_insert_ne by lia. destruct He as [[-> ->]|[-> ->]].
    - by rewrite list_lookup_insert_ne, list_lookup_insert_eq by lia.
    - by rewrite list_lookup_insert_eq by (rewrite length_insert; lia). }
  rewrite (Nat2Z.id pe), Hpe. simpl mjoin.
  assert (Hs : fdalloc_scan (closed (<[p1 := Some (PipeW n)]> (<[p0 := Some (PipeR n)]> fds)) (Z.of_nat fd)) 0 = Some fd).
  { unfold closed. rewrite Nat2Z.id. apply (scan_first _ 0 fd).
    - apply list_lookup_insert_eq. rewrite !length_insert. lia.
    - intros i Hi. assert (i = 0%nat) as -> by lia. destruct (rd_in _ _ _ Hr) as [f Hf0]. exists f.
      by rewrite !list_lookup_insert_ne by lia. }
  rewrite Hs. by rewrite (child_fds fds p0 p1 n fd e).
Qed.

Lemma started_exit_parent fds p0 p1 m :
  started (_ <-- Close p0 ;; _ <-- Close p1 ;; _ <-- Wait ;; _ <-- Wait ;; Exit) fds m = ([], m).
Proof. done. Qed.

Lemma args_strs (b : list byte) : forall ws argv eargv, args (fun q w _ => str b q = w) argv eargv ws -> strs b argv = ws.
Proof.
  induction ws as [|w ws IH]; intros argv eargv; simpl.
  - intros [l ->]. done.
  - intros (q & e & argv' & eargv' & -> & _ & Hq & Hargs). simpl. f_equal; eauto.
Qed.

Lemma runcmd_ok h b : forall t c fuel fds p0 p1 n,
  decoded h b c t -> (c < fuel)%nat -> std_redirs t -> ready fds p0 p1 ->
  started (runcmd fuel h b c) fds n = meaning t fds n.
Proof.
  unfold decoded.
  induction t as [ws|t IH f mode fd|l IHl r IHr|l IHl r IHr|t IH]; intros c fuel fds p0 p1 n;
    (destruct fuel as [|k]; [lia|]); simpl reps; simpl std_redirs.
  - intros (argv & eargv & Hc & Hargs) _ _ _. cbn [runcmd meaning]. rewrite Hc.
    rewrite (args_strs b ws argv eargv Hargs). destruct ws as [|w ws]; [done|]. cbn [started].
    by destruct (exec_ok w).
  - intros (sub & q & e & Hc & Hq & Hlt & Ht) Hk [Hfd Hs] Hr. cbn [runcmd meaning]. rewrite Hc, Hq.
    cbn [started]. unfold closed. rewrite (scan_std fds p0 p1) by (done || lia).
    destruct (open_ok f mode); [|done]. rewrite Z2Nat.id by lia.
    rewrite (proj2 (Z.ltb_ge _ _)) by lia. rewrite list_insert_insert_eq.
    apply (IH sub k _ p0 p1); [done|lia|done|]. apply ready_put; [done|lia].
  - intros (l' & r' & Hc & Hl & Hr & H1 & H2) Hk [Hs1 Hs2] Hrd. cbn [runcmd meaning]. rewrite Hc.
    cbn [started]. destruct (scan_pipe fds p0 p1 n Hrd) as [E0 E1]. rewrite E0, E1. cbv beta iota zeta.
    change (0 <? 0) with false. cbv iota. rewrite started_fork.
    rewrite (started_child fds p0 p1 n 1 p1 (PipeW n)) by (done || lia || by right).
    rewrite (IHl l' k _ p0 p1 (S n) H1 ltac:(lia) Hs1) by (apply ready_put; [done|lia]).
    destruct (meaning l _ (S n)) as [l1 m]. rewrite started_fork.
    rewrite (started_child fds p0 p1 n 0 p0 (PipeR n)) by (done || lia || by left).
    rewrite (IHr r' k _ p0 p1 m H2 ltac:(lia) Hs2) by (apply ready_put; [done|lia]).
    destruct (meaning r _ m) as [l2 m2]. rewrite started_exit_parent. by rewrite app_nil_r.
  - intros (l' & r' & Hc & Hl & Hr & H1 & H2) Hk [Hs1 Hs2] Hrd. cbn [runcmd meaning]. rewrite Hc.
    rewrite started_fork, (IHl l' k _ p0 p1 n H1 ltac:(lia) Hs1 Hrd).
    destruct (meaning l fds n) as [l1 m]. cbn [started].
    by rewrite (IHr r' k _ p0 p1 m H2 ltac:(lia) Hs2 Hrd).
  - intros (sub & Hc & Hlt & Ht) Hk Hs Hr. cbn [runcmd meaning]. rewrite Hc.
    rewrite started_fork, (IH sub k _ p0 p1 n Ht ltac:(lia) Hs Hr).
    destruct (meaning t fds n) as [l1 m]. cbn [started]. by rewrite app_nil_r.
Qed.

End Kernel.

(** ** Printing a command *)

(** Characters that the line editor stores as they are. *)
Definition plain (c : byte) : Prop := wordchar c /\ c <> Byte.x08 /\ c <> Byte.x7f.
Definition typed (w : list byte) : Prop := w <> [] /\ Forall plain w.

#[export] Instance typed_dec w : Decision (typed w).
Proof. unfold typed, plain. apply _. Defined.

(** The commands that can be written: the parser takes fewer than [MAXARGS]
    words, and redirects standard input and output. *)
Fixpoint writable (t : tree) : Prop :=
  match t with
  | TExec ws => (length ws < MAXARGS)%nat /\ Forall typed ws
  | TRedir t f mode fd => typed f /\ (exists out, mode = rmode out /\ fd = rfd out) /\ writable t
  | TPipe l r | TList l r => writable l /\ writable r
  | TBack t => writable t
  end.

Definition paren (b : bool) (ts : list token) : list token :=
  if b then Sym Byte.x28 :: ts ++ [Sym Byte.x29] else ts.

(** The tokens of a command where a line (0), a line without [;] (1), a pipeline
    (2) or a simple command or block (3) is expected. *)
Fixpoint toks (lv : nat) (t : tree) : list token :=
  match t with
  | TExec ws => map Word ws
  | TRedir t f _ fd => toks 3 t ++ [Sym (rsym (negb (fd =? 0))); Word f]
  | TPipe l r => paren (3 <=? lv)%nat (toks 3 l ++ Sym Byte.x7c :: toks 2 r)
  | TBack t => paren (2 <=? lv)%nat (toks 1 t ++ [Sym Byte.x26])
  | TList l r => paren (1 <=? lv)%nat (toks 1 l ++ Sym Byte.x3b :: toks 0 r)
  end.

Definition bytes_of (tk : token) : list byte := match tk with Word w => w | Sym c => [c] end.

(** The tokens with a space after each, and the end of the line. *)
Definition spell (ts : list token) : list byte := concat (map (fun tk => bytes_of tk ++ [Byte.x20]) ts).
Definition print (t : tree) : list byte := spell (toks 0 t) ++ [Byte.x0a].

Lemma gram_paren t ts : gram Line t ts -> gram Command t (paren true ts).
Proof. apply (g_block t ts []). Qed.

Lemma gram_redir t ts out f :
  gram Command t ts -> gram Command (TRedir t f (rmode out) (rfd out)) (ts ++ rtoks (out, f)).
Proof.
  intros H. inversion H as [rs segs Hn E1 E2 E3|t0 ts0 rs H0 E1 E2 E3| | | |]; subst.
  - destruct segs as [|[w l] segs] using rev_ind.
    + pose proof (g_simple (rs ++ [(out, f)]) [] Hn) as G. simpl in *. rewrite !app_nil_r in *.
      rewrite map_app, concat_app in G. simpl in G. unfold wrap in *. by rewrite fold_left_app in G.
    + clear IHsegs. rewrite length_app in Hn. simpl in Hn.
      pose proof (g_simple rs (segs ++ [(w, l ++ [(out, f)])])) as G. rewrite length_app in G.
      specialize (G Hn). rewrite !map_app, !concat_app in *. cbn [map concat fst snd] in *.
      rewrite !app_nil_r in *. rewrite app_assoc in G. unfold wrap in *. rewrite fold_left_app in G.
      unfold seg_toks at 2 in G. cbn [fst snd fold_left] in G. rewrite map_app, concat_app in G.
      cbn [map concat] in G. rewrite app_nil_r in G. unfold seg_toks at 2. cbn [fst snd].
      rewrite <- !app_assoc. rewrite fold_left_app in G. rewrite app_assoc, fold_left_app. exact G.
  - pose proof (g_block t0 ts0 (rs ++ [(out, f)]) H0) as G. rewrite map_app, concat_app in G. simpl in G.
    unfold wrap in *. rewrite fold_left_app in G. simpl in *. by rewrite <- app_assoc.
Qed.

Lemma gram_words ws : (length ws < MAXARGS)%nat -> gram Command (TExec ws) (map Word ws).
Proof.
  intros Hn. pose proof (g_simple [] (map (fun w => (w, [])) ws)) as G. rewrite length_map in G.
  specialize (G Hn). rewrite !map_map in G. cbn [fst snd app] in G.
  replace (map (fun w : list byte => w) ws) with ws in G by (symmetry; apply map_id).
  assert (E1 : concat (map (fun _ : list byte => @nil redir) ws) = []) by (clear; induction ws; done).
  rewrite E1 in G.
  assert (E2 : concat (map (fun w => seg_toks (w, [])) ws) = map Word ws)
    by (clear; induction ws as [|w ws IH]; simpl; [done|]; by f_equal).
  by rewrite E2 in G.
Qed.

(** A line without [;]. *)
Definition gram_back (t : tree) (ts : list token) : Prop :=
  exists n t0 ts0, gram Pipeline t0 ts0 /\ t = backs n t0 /\ ts = ts0 ++ amps n.

Lemma gram_back_pipe t ts : gram Pipeline t ts -> gram_back t ts.
Proof. intros H. exists 0%nat, t, ts. by rewrite app_nil_r. Qed.

Lemma gram_back_line t ts : gram_back t ts -> gram Line t ts.
Proof. intros (n & t0 & ts0 & H & -> & ->). by apply g_line. Qed.

Lemma gram_toks t : writable t ->
  gram Line t (toks 0 t) /\ gram_back t (toks 1 t) /\ gram Pipeline t (toks 2 t) /\ gram Command t (toks 3 t).
Proof.
  assert (Hc : forall t ts, gram Command t ts ->
    gram Line t ts /\ gram_back t ts /\ gram Pipeline t ts /\ gram Command t ts).
  { intros t0 ts H. apply g_command in H as Hp. apply gram_back_pipe in Hp as Hb. auto using gram_back_line. }
  induction t as [ws|t IH f mode fd|l IHl r IHr|l IHl r IHr|t IH]; simpl writable.
  - intros [Hn _]. by apply Hc, gram_words.
  - intros (_ & (out & -> & ->) & Ht). destruct (IH Ht) as (_ & _ & _ & H3). apply Hc.
    simpl. replace (negb (rfd out =? 0)) with out by (by destruct out). by apply gram_redir.
  - intros [Hl Hr]. destruct (IHl Hl) as (_ & _ & _ & H3), (IHr Hr) as (_ & _ & H2 & _).
    pose proof (g_pipe _ _ _ _ H3 H2) as Hp. apply gram_back_pipe in Hp as Hb.
    split_and!; [by apply gram_back_line|done|done|by apply gram_paren, gram_back_line].
  - intros [Hl Hr]. destruct (IHl Hl) as (_ & (n & t0 & ts0 & Hg & Et & Ets) & _), (IHr Hr) as (H0 & _).
    assert (G : gram Line (TList l r) (toks 1 l ++ Sym Byte.x3b :: toks 0 r)).
    { rewrite Ets, Et, <- app_assoc. by apply g_list. }
    apply gram_paren in G as Gc. destruct (Hc _ _ Gc) as (_ & ? & ? & ?). auto.
  - intros Ht. destruct (IH Ht) as (_ & (n & t0 & ts0 & Hg & Et & Ets) & _).
    assert (G : gram_back (TBack t) (toks 1 t ++ [Sym Byte.x26])).
    { exists (S n), t0, ts0. split; [done|]. split; [by rewrite Et|]. rewrite Ets, <- app_assoc. f_equal.
      unfold amps. by rewrite <- replicate_S_end. }
    apply gram_back_line in G as Gl. apply gram_paren in Gl as Gc. destruct (Hc _ _ Gc) as (_ & _ & ? & ?). auto.
Qed.

(** ** Typing a line *)

Definition tok_ok (tk : token) : Prop := match tk with Word w => typed w | Sym c => sym c end.

Lemma in_symbols c : bool_decide (c ∈ symbols) = true -> sym c.
Proof. apply bool_decide_eq_true_1. Qed.

Lemma toks_ok t : writable t -> forall lv, Forall tok_ok (toks lv t).
Proof.
  assert (Hp : forall b ts, Forall tok_ok ts -> Forall tok_ok (paren b ts)).
  { intros [] ts H; [|done]. simpl. constructor; [by apply in_symbols|]. apply Forall_app. split; [done|].
    constructor; [by apply in_symbols|done]. }
  induction t as [ws|t IH f mode fd|l IHl r IHr|l IHl r IHr|t IH]; simpl writable; simpl toks.
  - intros [_ H] lv. apply Forall_map. eapply Forall_impl; [exact H|done].
  - intros (Hf & _ & Ht) lv. apply Forall_app. split; [by apply IH|]. constructor; [|by constructor].
    apply in_symbols. by destruct (negb (fd =? 0)).
  - intros [Hl Hr] lv. apply Hp, Forall_app. split; [by apply IHl|]. constructor; [by apply in_symbols|by apply IHr].
  - intros [Hl Hr] lv. apply Hp, Forall_app. split; [by apply IHl|]. constructor; [by apply in_symbols|by apply IHr].
  - intros Ht lv. apply Hp, Forall_app. split; [by apply IH|]. constructor; [by apply in_symbols|done].
Qed.

Lemma spells_white c ts l : white c -> spells ts l -> spells ts (c :: l).
Proof.
  intros Hc [w Hw|w x ts' l' Hw Hx Hl Hh|w s ts' l' Hw Hs Hl Hh].
  - by apply sp_end, Forall_cons.
  - apply (sp_word (c :: w)); [by apply Forall_cons|done..].
  - apply (sp_sym (c :: w)); [by apply Forall_cons|done..].
Qed.

Lemma space_white : white Byte.x20.
Proof. apply (bool_decide_unpack _). vm_compute. exact I. Qed.

Lemma spells_spell ts : Forall tok_ok ts -> spells ts (spell ts ++ [Byte.x0a]).
Proof.
  assert (Hn : white Byte.x0a) by (apply (bool_decide_unpack _); vm_compute; exact I).
  induction 1 as [|tk ts Ht _ IH]; [apply sp_end; by repeat constructor|].
  unfold spell. cbn [map concat]. rewrite <- !app_assoc. cbn [app]. fold (spell ts).
  pose proof (spells_white _ _ _ space_white IH) as Hs.
  destruct tk as [w|c]; cbn [bytes_of tok_ok] in *.
  - destruct Ht as [Hw Hp]. apply (sp_word [] w ts); [constructor| |done|].
    + split; [done|]. eapply Forall_impl; [exact Hp|]. by intros c [? _].
    + simpl. intros (_ & Hx & _). by apply Hx, space_white.
  - by apply (sp_sym [] c ts).
Qed.

(** Bytes that [readline] stores and echoes. *)
Definition ordinary (c : byte) : Prop := c ∉ [Byte.x00; Byte.x0d; Byte.x0a; Byte.x08; Byte.x7f; Byte.x09].

#[export] Instance ordinary_dec c : Decision (ordinary c).
Proof. unfold ordinary. apply _. Defined.

Lemma spell_ordinary ts : Forall tok_ok ts -> Forall ordinary (spell ts).
Proof.
  intros H. unfold spell. apply Forall_concat, Forall_map. eapply Forall_impl; [exact H|]. cbv beta.
  intros tk Ht. apply Forall_app. split.
  - destruct tk as [w|c]; cbn [bytes_of tok_ok] in *.
    + destruct Ht as [_ Hp]. eapply Forall_impl; [exact Hp|]. cbv beta. intros c ((Hz & Hw & _) & H8 & H7) Hc.
      assert (Hws : forall x, x ∈ [Byte.x0d; Byte.x0a; Byte.x09] -> x ∈ whitespace)
        by (intros x; rewrite !elem_of_cons; intros [->|[->|[->|Hx]]]; [..|by apply not_elem_of_nil in Hx];
            apply (bool_decide_unpack _); vm_compute; exact I).
      rewrite !elem_of_cons in Hc. destruct Hc as [->|[->|[->|[->|[->|[->|Hc]]]]]]; try done;
        [apply Hw, Hws..|by apply not_elem_of_nil in Hc]; apply (bool_decide_unpack _); vm_compute; exact I.
    + constructor; [|done]. assert (Hall : Forall ordinary symbols)
        by (apply (bool_decide_unpack _); vm_compute; exact I).
      rewrite Forall_forall in Hall. by apply Hall.
  - constructor; [|done]. apply (bool_decide_unpack _). vm_compute. exact I.
Qed.

Section Typing.
Context (dir : option (list (Z * list byte))) (stat_ok : list byte -> bool).

Lemma take_put (buf : list byte) n c k : (n < length buf)%nat ->
  take (S n) (<[n := c]> buf) = take n buf ++ [c] /\ (n < k -> drop k (<[n := c]> buf) = drop k buf)%nat.
Proof.
  intros Hn. split.
  - rewrite (take_S_r _ _ c) by (by apply list_lookup_insert_eq). by rewrite take_insert_ge.
  - intros Hk. by rewrite drop_insert_lt by lia.
Qed.

Lemma readline_plain nbuf input : forall l buf n out,
  Forall ordinary l -> (n + length l + 1 < nbuf)%nat -> (nbuf <= length buf)%nat ->
  exists out', readline_loop dir stat_ok nbuf (l ++ Byte.x0a :: input) buf n out =
    Some (Z.of_nat (n + length l + 1),
          take n buf ++ l ++ [Byte.x0a; Byte.x00] ++ drop (n + length l + 2) buf, input, out').
Proof.
  induction l as [|c l IH]; intros buf n out Hl Hn Hb; simpl in *.
  - rewrite (proj2 (Nat.ltb_lt _ _)) by lia.
    rewrite (put_ok buf), (put_ok (<[n := _]> buf)) by (rewrite ?length_insert; lia).
    eexists. do 4 f_equal; [f_equal; lia|].
    rewrite <- (take_drop (S (S n)) (<[S n := Byte.x00]> (<[n := Byte.x0a]> buf))).
    destruct (take_put (<[n := Byte.x0a]> buf) (S n) Byte.x00 (n + 0 + 2)) as [E1 E2]; [rewrite length_insert; lia|].
    destruct (take_put buf n Byte.x0a (n + 0 + 2)) as [E3 E4]; [lia|].
    rewrite E1, E3. replace (S (S n)) with (n + 0 + 2)%nat at 1 by lia. rewrite E2, E4 by lia.
    by rewrite <- !app_assoc.
  - apply Forall_cons in Hl as [Hc Hl]. rewrite (proj2 (Nat.ltb_lt _ _)) by lia.
    unfold ordinary in Hc. rewrite !not_elem_of_cons in Hc. destruct Hc as (_ & Hr & Hnl & Hbs & Hdel & Htab & _).
    rewrite (bool_decide_false (c = Byte.x0d)), (bool_decide_false (c = Byte.x0a)), (bool_decide_false (c = Byte.x08)),
      (bool_decide_false (c = Byte.x7f)), (bool_decide_false (c = Byte.x09)) by done. cbn [orb].
    rewrite put_ok by lia.
    destruct (IH (<[n := c]> buf) (S n) (out ++ [(1, [c])]) Hl) as [out' E]; [lia|rewrite length_insert; lia|].
    exists out'. rewrite E. destruct (take_put buf n c (S n + length l + 2)) as [E1 E2]; [lia|].
    rewrite E1, E2 by lia. rewrite <- !app_assoc.
    replace (n + S (length l) + 1)%nat with (S n + length l + 1)%nat by lia.
    by replace (n + S (length l) + 2)%nat with (S n + length l + 2)%nat by lia.
Qed.

(** The line that [getcmd] delivers. *)
Lemma getcmd_plain l input :
  Forall ordinary l -> (length l + 1 < sizeof_buf)%nat ->
  exists post, getcmd dir stat_ok sizeof_buf (l ++ Byte.x0a :: input) =
    Some (Some (l ++ [Byte.x0a] ++ Byte.x00 :: post), input).
Proof.
  intros Hl Hn. unfold getcmd, readline.
  destruct (readline_plain sizeof_buf input l (replicate sizeof_buf Byte.x00) 0 [] Hl) as [out E];
    [done|by rewrite length_replicate|]. rewrite E.
  eexists. rewrite (proj2 (Z.ltb_ge _ _)) by lia. cbn [take app].
  rewrite bool_decide_false; [done|]. destruct Hl as [|c l Hc Hl]; [done|]. simpl.
  unfold ordinary in Hc. apply not_elem_of_cons in Hc as [? _]. done.
Qed.

(** A line that is not a [cd] command. *)
Definition not_cd (t : tree) : Prop := take 3 (print t) <> text "cd ".

Lemma do_line_spawns l post : take 3 l <> text "cd " -> Byte.x00 ∉ l ->
  do_line (l ++ Byte.x00 :: post) = Spawn (run_line (l ++ Byte.x00 :: post)).
Proof.
  intros Hcd Hz. unfold do_line. destruct (_ && _ && _) eqn:E; [|done]. exfalso.
  rewrite !andb_true_iff, !bool_decide_eq_true in E. destruct E as [[E0 E1] E2]. unfold ch in *.
  apply Hcd. destruct l as [|a [|b [|c l]]]; simpl in *; [done..|]. by subst.
Qed.

(** ** The shell *)

Section Shell.
Context (open_ok : list byte -> Z -> bool) (exec_ok : list byte -> bool).

(** The action runs the command [t] from the descriptors [fds]. *)
Definition runs_as (fds : fdtable) (a : action) (t : tree) : Prop :=
  exists p, a = Spawn p /\ forall n, started open_ok exec_ok p fds n = meaning open_ok exec_ok t fds n.

Lemma writable_std t : writable t -> std_redirs t.
Proof. induction t; simpl; try naive_solver. intros (_ & ([] & _ & ->) & H); simpl; split; auto; lia. Qed.

Lemma run_line_ok fds p0 p1 t post :
  writable t -> ready fds p0 p1 -> runs_as fds (Spawn (run_line (print t ++ Byte.x00 :: post))) t.
Proof.
  intros Hw Hr. eexists. split; [reflexivity|]. intros n.
  pose proof (toks_ok t Hw 0) as Hok. pose proof (spell_ordinary _ Hok) as Ho.
  assert (Hz : Byte.x00 ∉ print t).
  { unfold print. rewrite elem_of_app. intros [H|H].
    - rewrite Forall_forall in Ho. apply Ho in H. apply H. left.
    - apply list_elem_of_singleton in H. done. }
  destruct (parsecmd_ok t (toks 0 t) (print t) post) as (c & b & h & E & Hd);
    [by apply gram_toks|by apply spells_spell|done|].
  unfold run_line. rewrite E.
  apply (runcmd_ok _ _ h b t c (length h) fds p0 p1 n Hd); [|by apply writable_std|done].
  by eapply reps_bound.
Qed.

Lemma main_loop_ok fds p0 p1 : forall ts fuel,
  ready fds p0 p1 -> (length ts <= fuel)%nat ->
  Forall (fun t => writable t /\ not_cd t /\ (length (print t) < sizeof_buf)%nat) ts ->
  exists acts, main_loop dir stat_ok fuel (concat (map print ts)) = Some acts /\ Forall2 (runs_as fds) acts ts.
Proof.
  induction ts as [|t ts IH]; intros fuel Hr Hfuel Hts.
  - exists []. split; [by destruct fuel|constructor].
  - apply Forall_cons in Hts as [(Hw & Hcd & Hlen) Hts]. destruct fuel as [|k]; simpl in Hfuel; [lia|].
    destruct (IH k Hr ltac:(lia) Hts) as (acts & E & Hacts).
    pose proof (spell_ordinary _ (toks_ok t Hw 0)) as Ho. unfold print in Hlen. rewrite length_app in Hlen.
    destruct (getcmd_plain (spell (toks 0 t)) (concat (map print ts)) Ho Hlen) as [post Eg].
    exists (do_line (print t ++ Byte.x00 :: post) :: acts). split.
    + cbn [map concat]. unfold print at 1. rewrite <- app_assoc. cbn [app main_loop].
      cbn [app] in Eg. rewrite Eg. rewrite E. unfold print. by rewrite <- app_assoc.
    + constructor; [|done]. rewrite do_line_spawns; [by eapply run_line_ok|done|].
      unfold print. rewrite elem_of_app. intros [H|H].
      * rewrite Forall_forall in Ho. apply Ho in H. apply H. left.
      * apply list_elem_of_singleton in H. done.
Qed.

End Shell.

End Typing.

(** The loop of [main] that opens the console. *)
Lemma open_console_ready (fds : fdtable) :
  (5 <= length fds)%nat -> (forall i f, (3 <= i)%nat -> fds !! i <> Some (Some f)) ->
  ready (open_console 4 (Inherited 0) fds) 3 4.
Proof.
  intros Hl Hfree. destruct fds as [|a [|b [|c [|d [|e fds]]]]]; simpl in Hl; try lia.
  assert (d = None) as -> by (destruct d; [by destruct (Hfree 3%nat f ltac:(lia))|done]).
  assert (e = None) as -> by (destruct e; [by destruct (Hfree 4%nat f ltac:(lia))|done]).
  destruct a, b, c; simpl; constructor; simpl; eauto; try lia;
    intros i Hi; intros; destruct i as [|[|[|[|i]]]]; simpl; eauto; lia.
Qed.

Lemma print_lines_length ts : (length ts <= length (concat (map print ts)))%nat.
Proof.
  induction ts as [|t ts IH]; [done|]. cbn [map concat length]. rewrite length_app.
  unfold print at 1. rewrite length_app. simpl. lia.
Qed.

(** C20: the shell runs what is typed.  Whatever commands are typed, one to a
    line that fits the buffer, the shell forks one child for each line, in
    order, and that child and its children start exactly the programs of the
    command with their arguments: in a pipeline the output of the left side and
    the input of the right side are the two ends of one new pipe, a redirection
    puts the file in place of standard input or output, and every other
    descriptor of a program is the shell's.  A command whose file cannot be
    opened is not started. *)
Theorem shell_runs_lines open_ok exec_ok dir stat_ok fds ts :
  length fds = NOFILE -> (forall i f, (3 <= i)%nat -> fds !! i <> Some (Some f)) ->
  Forall (fun t => writable t /\ not_cd t /\ (length (print t) < sizeof_buf)%nat) ts ->
  let '(fds, r) := main dir stat_ok (Inherited 0) fds (concat (map print ts)) in
  exists acts, r = Some acts /\ Forall2 (runs_as open_ok exec_ok fds) acts ts.
Proof.
  intros Hl Hfree Hts. unfold main. apply (main_loop_ok dir stat_ok open_ok exec_ok _ 3 4); [|apply print_lines_length|done].
  apply open_console_ready; [rewrite Hl; unfold NOFILE; lia|done].
Qed.

Module ShDemo.

(** [ls a | wc > out ; echo b &] *)
Definition w (s : string) : list byte := text s.
Definition line : tree :=
  TList (TPipe (TExec [w "ls"; w "a"]) (TRedir (TExec [w "wc"]) (w "out") (rmode true) (rfd true)))
    (TBack (TExec [w "echo"; w "b"])).

Lemma line_writable : writable line.
Proof.
  assert (H : Forall typed [w "ls"; w "a"; w "wc"; w "out"; w "echo"; w "b"])
    by (apply (bool_decide_unpack _); vm_compute; exact I).
  repeat match goal with H : Forall _ (_ :: _) |- _ => apply Forall_cons in H as [? H] end.
  unfold line. cbn [writable length]. unfold MAXARGS. split_and!; try lia; try done;
    first [by exists true|repeat (apply Forall_cons; split; [assumption|]); constructor].
Qed.

End ShDemo.

Lemma shell_runs_lines_witness :
  let '(fds, r) := main None (fun _ => true) (Inherited 0) (replicate NOFILE None) (print ShDemo.line) in
  exists p, r = Some [Spawn p] /\ forall n, started (fun _ _ => true) (fun _ => true) p fds n =
    meaning (fun _ _ => true) (fun _ => true) ShDemo.line fds n.
Proof.
  pose proof (shell_runs_lines (fun _ _ => true) (fun _ => true) None (fun _ => true) (replicate NOFILE None)
    [ShDemo.line]) as H. cbn [map concat] in H. rewrite app_nil_r in H.
  destruct (main _ _ _ _ _) as [fds r]. destruct H as (acts & -> & Hf).
  - reflexivity.
  - intros i f _ H. by apply lookup_replicate in H as [? _].
  - constructor; [|constructor]. split; [apply ShDemo.line_writable|]. split; [vm_compute; discriminate|].
    vm_compute. lia.
  - inversion Hf as [|a t l ts (p & -> & Hp) Hr]; subst. inversion Hr; subst. by exists p.
Defined.
