(* ===== verification/ShSafe.v ===== *)
(** * The shell on any input

    On every line the parser returns a command or panics with a message: its
    loops end and it follows no wild pointer.  On every input, with any
    directory to complete names from, the line editor stores inside its buffer. *)

From Stdlib Require Import String.
From S2P Require Import Prelude Memory CString FsState Sysfile Sh ShSpec.
Import Sh.
Local Open Scope Z_scope.
Local Open Scope kernel_scope.

(** ** Outcomes *)

(** What the parser says about a line it does not accept. *)
Definition complaints : list string :=
  ["missing file for redirection"; "syntax"; "too many args"; "syntax - missing )"]%string.

(** The computation returns with [Q] or rejects the line. *)
Definition fine {A} (o : outcome (list cmd) A) (Q : A -> list cmd -> Prop) : Prop :=
  match o with Ok a h => Q a h | Panic m => m ∈ complaints | _ => False end.

Lemma fine_bind {A B} (m : P A) (k : A -> P B) h R Q :
  fine (m h) R -> (forall a h', R a h' -> fine (k a h') Q) -> fine (bind m k h) Q.
Proof. unfold bind, fine. destruct (m h); simpl; intros H Hk; try done. by apply Hk. Qed.

Lemma fine_mono {A} (o : outcome (list cmd) A) (R Q : A -> list cmd -> Prop) :
  fine o R -> (forall a h, R a h -> Q a h) -> fine o Q.
Proof. destruct o; simpl; auto. Qed.

Lemma fine_ret {A} (a : A) h (Q : A -> list cmd -> Prop) : Q a h -> fine (ret a h) Q.
Proof. done. Qed.

Ltac complain := cbv beta iota delta [fine panic negb]; apply (bool_decide_unpack _); vm_compute; exact I.

(** ** The heap
    Pointers to commands go down, pointers into the line stay in it. *)

Definition cell_ok (es i : nat) (c : cmd) : Prop :=
  match c with
  | EXEC _ _ => exists ps, c = exec_cell ps /\ (length ps < MAXARGS)%nat /\
      Forall (fun p => p.1 <= p.2 <= es)%nat ps
  | REDIR sub q e _ _ => (sub < i /\ q <= e <= es)%nat
  | BACK sub => (sub < i)%nat
  | PIPE l r | LIST l r => (l < i /\ r < i)%nat
  end.

Definition heap_ok (es : nat) (h : list cmd) : Prop := forall i c, h !! i = Some c -> cell_ok es i c.

Lemma heap_ok_alloc es h c : heap_ok es h -> cell_ok es (length h) c -> heap_ok es (h ++ [c]).
Proof.
  intros Hh Hc i x. rewrite lookup_app_Some. intros [Hi|[Hle Hi]]; [by apply Hh|].
  apply list_lookup_singleton_Some in Hi as [Hi <-]. by replace i with (length h) by lia.
Qed.

Lemma heap_ok_set es h i ps : heap_ok es h -> (length ps < MAXARGS)%nat ->
  Forall (fun p => p.1 <= p.2 <= es)%nat ps -> heap_ok es (<[i := exec_cell ps]> h).
Proof.
  intros Hh Hp Hf j x [(-> & <- & _)|[_ Hx]]%list_lookup_insert_Some; [|by apply Hh]. by exists ps.
Qed.

Section Scan.
Context (buf : list byte) (es : nat).
Hypothesis Hend : ch buf es = Byte.x00.

Lemma skip_while_range p : forall n s, (s <= skip_while buf p n s <= s + n)%nat.
Proof.
  induction n as [|n IH]; intros s; simpl; [lia|]. destruct (p (ch buf s)); [|lia].
  specialize (IH (S s)). lia.
Qed.

Lemma skip_while_stop p : forall n s, let s' := skip_while buf p n s in s' = (s + n)%nat \/ p (ch buf s') = false.
Proof.
  induction n as [|n IH]; intros s; simpl; [left; lia|]. destruct (p (ch buf s)) eqn:E; [|by right].
  destruct (IH (S s)); [left; lia|by right].
Qed.

Lemma skip_white_range s : (s <= es)%nat -> (s <= skip_white buf es s <= es)%nat.
Proof. intros Hs. unfold skip_white. pose proof (skip_while_range (strchr whitespace) (es - s) s). lia. Qed.

Lemma skip_white_stop s : (s <= es)%nat -> ~ white (ch buf (skip_white buf es s)).
Proof.
  intros Hs. unfold skip_white. destruct (skip_while_stop (strchr whitespace) (es - s) s) as [E|E].
  - rewrite E. replace (s + (es - s))%nat with es by lia. rewrite Hend. intros H. by apply white_not_zero in H.
  - by apply bool_decide_eq_false in E.
Qed.

(** A byte other than 0 is not the end. *)
Lemma inside q : (q <= es)%nat -> ch buf q <> Byte.x00 -> (q < es)%nat.
Proof. intros Hq Hne. destruct (decide (q = es)) as [->|]; [done|lia]. Qed.

Lemma gettoken_progress s : (s <= es)%nat ->
  let '(tok, q, e, s') := gettoken buf es s in
  (s <= q <= e /\ e <= s' <= es)%nat /\ (tok <> Byte.x00 -> (s < s')%nat).
Proof.
  intros Hs. unfold gettoken. pose proof (skip_white_range s Hs) as Hq. pose proof (skip_white_stop s Hs) as Hw.
  set (q := skip_white buf es s) in *. pose proof (inside q (proj2 Hq)) as Hin.
  assert (Hsym : sym (ch buf q) -> ch buf q <> Byte.x3e ->
    (s <= q <= S q /\ S q <= skip_white buf es (S q) <= es)%nat /\ (ch buf q <> Byte.x00 -> (s < skip_white buf es (S q))%nat)).
  { intros Hs1 Hs2. assert (Hz : ch buf q <> Byte.x00).
    { intros E. rewrite E in Hs1. revert Hs1. unfold sym. apply (bool_decide_unpack (Byte.x00 ∉ symbols)).
      vm_compute. exact I. }
    specialize (Hin Hz). pose proof (skip_white_range (S q) ltac:(lia)). lia. }
  destruct (decide (sym (ch buf q))) as [Hs1|Hs1]; [destruct (decide (ch buf q = Byte.x3e)) as [E3|E3]|].
  - rewrite E3. specialize (Hin ltac:(by rewrite E3)). pose proof (inside (S q) ltac:(lia)) as Hin2.
    destruct (decide (ch buf (S q) = Byte.x3e)) as [E4|E4].
    + rewrite E4. specialize (Hin2 ltac:(by rewrite E4)). pose proof (skip_white_range (S (S q)) ltac:(lia)). split; [lia|intros; lia].
    + assert (Hm : forall A (x y : A), match ch buf (S q) with Byte.x3e => x | _ => y end = y)
        by (intros A x y; destruct (ch buf (S q)); done).
      rewrite Hm. pose proof (skip_white_range (S q) ltac:(lia)). split; [lia|intros; lia].
  - rewrite (switch_sym (ch buf q)) by done. by apply Hsym.
  - destruct (decide (ch buf q = Byte.x00)) as [Ez|Ez].
    + rewrite Ez. pose proof (skip_white_range q ltac:(lia)). split; [lia|done].
    + assert (Hwc : wordchar (ch buf q)) by (split_and!; done).
      rewrite (switch_word (ch buf q)) by done. set (p := fun c => _ && _).
      pose proof (skip_while_range p (es - q) q) as Hr. specialize (Hin Ez).
      assert (Hp : (q < skip_while buf p (es - q) q)%nat).
      { destruct (es - q)%nat as [|m] eqn:Em; [lia|]. simpl. unfold p at 1.
        rewrite word_test, bool_decide_true by done. pose proof (skip_while_range p m (S q)). lia. }
      pose proof (skip_white_range (skip_while buf p (es - q) q) ltac:(lia)). split; [lia|intros; lia].
Qed.

Lemma skip_white_twice s : (s <= es)%nat -> skip_white buf es (skip_white buf es s) = skip_white buf es s.
Proof.
  intros Hs. pose proof (skip_white_stop s Hs) as Hw. set (q := skip_white buf es s) in *.
  unfold skip_white. destruct (es - q)%nat; [done|]. simpl. by rewrite strchr_white, bool_decide_false.
Qed.

Lemma peek_range s toks : (s <= es)%nat ->
  let '(b, s') := peek buf es s toks in (s <= s' <= es)%nat /\ (b = true -> (s' < eat buf es s' <= es)%nat).
Proof.
  intros Hs. unfold peek. pose proof (skip_white_range s Hs) as Hq. set (q := skip_white buf es s) in *.
  split; [done|]. intros [Hz _]%andb_true_iff. apply negb_true_iff, bool_decide_eq_false in Hz.
  pose proof (gettoken_progress q ltac:(lia)) as Hg. unfold eat.
  destruct (gettoken buf es q) as [[[tok q'] e] s'] eqn:E. destruct Hg as [Hg1 Hg2].
  split; [|lia]. apply Hg2. intros ->.
  pose proof (skip_white_twice s Hs) as Hqq. fold q in Hqq.
  unfold gettoken in E. rewrite Hqq in E. destruct (ch buf q); try discriminate E; try done.
  by destruct (ch buf (S q)).
Qed.

(** ** The parser *)

(** A parser that started at [s] with [n] commands returns a command of the heap
    and a later position. *)
Definition parsed (n s : nat) (r : nat * nat) (h' : list cmd) : Prop :=
  (n <= length h')%nat /\ (r.1 < length h')%nat /\ (s <= r.2 <= es)%nat /\ heap_ok es h'.

Ltac parsed := unfold parsed in *; simpl in *; split_and!; solve [done | lia].

Lemma parsed_alloc n s r c h : parsed n s r h -> cell_ok es (length h) c -> parsed n s (length h, r.2) (h ++ [c]).
Proof.
  unfold parsed. rewrite length_app. simpl. intros (H0 & H1 & H2 & H3) Hc. split_and!; try lia. by apply heap_ok_alloc.
Qed.

Lemma parseredirs_fine : forall fuel c s h, (s <= es)%nat -> (es - s <= fuel)%nat ->
  heap_ok es h -> (c < length h)%nat ->
  fine (parseredirs buf es fuel c s h) (fun r h' => parsed (length h) s r h' /\ h `prefix_of` h').
Proof.
  induction fuel as [|k IH]; intros c s h Hs Hf Hh Hc; cbn [parseredirs]; pose proof (peek_range s (text "<>") Hs) as Hp;
    destruct (peek buf es s (text "<>")) as [more s1] eqn:Ep; destruct Hp as [Hp1 Hp2].
  - destruct more; [specialize (Hp2 eq_refl); lia|]. apply fine_ret; split; [parsed|done].
  - destruct more; [|apply fine_ret; split; [parsed|done]]. specialize (Hp2 eq_refl). unfold eat in Hp2.
    destruct (gettoken buf es s1) as [[[tok q0] e0] s2].
    pose proof (gettoken_progress s2 ltac:(lia)) as Hg.
    destruct (gettoken buf es s2) as [[[t q] e] s3]. destruct Hg as [Hg1 Hg2].
    destruct (bool_decide_reflect (t = Byte.x61)) as [->|]; cbn [negb]; [|complain].
    specialize (Hg2 ltac:(done)). eapply (fine_bind _ _ _ (fun c' h' =>
      (c' < length h')%nat /\ heap_ok es h' /\ h `prefix_of` h')).
    + assert (Ha : forall m d, fine (redircmd c q e m d h) (fun c' h' =>
        (c' < length h')%nat /\ heap_ok es h' /\ h `prefix_of` h')).
      { intros m d. simpl. split_and!; [rewrite length_app; simpl; lia| |by apply prefix_app_r].
        apply heap_ok_alloc; [done|]. simpl. lia. }
      destruct tok; try apply Ha; apply fine_ret; by split_and!.
    + intros c' h' (H1 & H2 & H3). specialize (IH c' s3 h' ltac:(lia) ltac:(lia) H2 H1). revert IH.
      unfold fine. destruct (parseredirs buf es k c' s3 h'); try done. intros ((? & ? & ? & ?) & ?).
      split; [apply prefix_length in H3; parsed|by etrans].
Qed.

Lemma args_loop_fine : forall fuel c r s h ps, (s <= es)%nat -> (es - s <= fuel)%nat ->
  heap_ok es h -> (r < length h)%nat -> h !! c = Some (exec_cell ps) -> (length ps < MAXARGS)%nat ->
  Forall (fun p => p.1 <= p.2 <= es)%nat ps ->
  fine (args_loop buf es fuel c (length ps) r s h) (fun x h' => parsed (length h) s (x.1) h' /\
    exists ps', x.2 = length ps' /\ h' !! c = Some (exec_cell ps') /\ (length ps' < MAXARGS)%nat).
Proof.
  induction fuel as [|k IH]; intros c r s h ps Hs Hf Hh Hr Hc Hl Hps; cbn [args_loop];
    pose proof (peek_range s (text "|)&;") Hs) as Hp;
    destruct (peek buf es s (text "|)&;")) as [stop s1] eqn:Ep; destruct Hp as [Hp1 _];
    (destruct stop; [apply fine_ret; split; [parsed|by exists ps]|]);
    pose proof (gettoken_progress s1 ltac:(lia)) as Hg; destruct (gettoken buf es s1) as [[[t q] e] s2];
    destruct Hg as [Hg1 Hg2];
    (destruct (bool_decide_reflect (t = Byte.x00)) as [->|Hz];
      [apply fine_ret; split; [parsed|by exists ps]|]); specialize (Hg2 Hz);
    (destruct (bool_decide_reflect (t = Byte.x61)) as [->|]; cbn [negb]; [|complain]); [lia|].
  rewrite (bind_ok _ _ _ _ _ (set_arg_push h c ps q e Hl Hc)).
  destruct (MAXARGS <=? S (length ps))%nat eqn:Em; [complain|]. apply Nat.leb_gt in Em.
  assert (Hl' : (length (ps ++ [(q, e)]) < MAXARGS)%nat) by (rewrite length_app; simpl; lia).
  assert (Hps' : Forall (fun p => p.1 <= p.2 <= es)%nat (ps ++ [(q, e)]))
    by (apply Forall_app; split; [done|]; constructor; [simpl; lia|done]).
  eapply fine_bind; [apply parseredirs_fine; [lia|lia|by apply heap_ok_set|by rewrite length_insert]|].
  intros [r' s3] h' ((H0 & H1 & H2 & H3) & Hpre). simpl in *.
  assert (Hc' : h' !! c = Some (exec_cell (ps ++ [(q, e)]))).
  { eapply prefix_lookup_Some; [|exact Hpre]. apply list_lookup_insert_eq. by eapply lookup_lt_Some. }
  specialize (IH c r' s3 h' (ps ++ [(q, e)]) ltac:(lia) ltac:(lia) H3 H1 Hc' Hl' Hps').
  replace (length (ps ++ [(q, e)])) with (S (length ps)) in IH by (rewrite length_app; simpl; lia).
  revert IH. unfold fine. destruct (args_loop buf es k c (S (length ps)) r' s3 h'); try done.
  rewrite length_insert in H0. intros ((? & ? & ? & ?) & ?). split; [parsed|done].
Qed.

Lemma back_loop_fine : forall fuel c s h, (s <= es)%nat -> (es - s <= fuel)%nat ->
  heap_ok es h -> (c < length h)%nat -> fine (back_loop buf es fuel c s h) (parsed (length h) s).
Proof.
  induction fuel as [|k IH]; intros c s h Hs Hf Hh Hc; cbn [back_loop]; pose proof (peek_range s (text "&") Hs) as Hp;
    destruct (peek buf es s (text "&")) as [more s1] eqn:Ep; destruct Hp as [Hp1 Hp2];
    (destruct more; [specialize (Hp2 eq_refl)|apply fine_ret; parsed]); [lia|].
  unfold backcmd. unfold bind at 1. simpl. set (c' := length h) in *.
  specialize (IH c' (eat buf es s1) (h ++ [BACK c]) ltac:(lia) ltac:(lia)
    ltac:(by apply heap_ok_alloc) ltac:(rewrite length_app; simpl; lia)).
  revert IH. unfold fine. destruct (back_loop buf es k c' _ _); try done.
  rewrite length_app. intros (? & ? & ? & ?). parsed.
Qed.

(** The fuel of each parser at [s]. *)
Definition all_fine (fuel : nat) : Prop := forall s h, (s <= es)%nat -> heap_ok es h ->
  let post := parsed (length h) s in
  ((4 * (es - s) + 4 <= fuel)%nat -> fine (parseline buf es fuel s h) post) /\
  ((4 * (es - s) + 3 <= fuel)%nat -> fine (parsepipe buf es fuel s h) post) /\
  ((4 * (es - s) + 2 <= fuel)%nat -> fine (parseexec buf es fuel s h) post) /\
  ((4 * (es - s) + 1 <= fuel)%nat -> (peek buf es s (text "(")).1 = true ->
     fine (parseblock buf es fuel s h) post).

Section Step.
Context (k : nat).
Hypothesis IH : all_fine k.
Context (s : nat) (h : list cmd).
Hypothesis Hs : (s <= es)%nat.
Hypothesis Hh : heap_ok es h.

(** The rest of a line or a pipeline: a symbol, a second part and the command for both. *)
Lemma fine_rest (parse : nat -> P (nat * nat)) (toks : string) (node : nat -> nat -> cmd) r h1 :
  (forall s' h', (s < s' <= es)%nat -> heap_ok es h' -> fine (parse s' h') (parsed (length h') s')) ->
  (forall l r n, (l < n)%nat -> (r < n)%nat -> cell_ok es n (node l r)) ->
  parsed (length h) s r h1 ->
  fine ((let '(more, s) := peek buf es (r.2) (text toks) in
         if more then
           rest <- parse (eat buf es s) ;;
           cmd <- alloc (node (r.1) (rest.1)) ;;
           ret (cmd, rest.2)
         else ret (r.1, s)) h1) (parsed (length h) s).
Proof.
  intros Hparse Hnode (H0 & H1 & H2 & H3). pose proof (peek_range (r.2) (text toks) ltac:(lia)) as Hp.
  destruct (peek buf es (r.2) (text toks)) as [more s1]. destruct Hp as [Hp1 Hp2].
  destruct more; [specialize (Hp2 eq_refl)|apply fine_ret; parsed].
  eapply fine_bind; [apply Hparse; [lia|done]|]. intros rest h2 (? & ? & ? & ?). unfold bind. simpl.
  apply (parsed_alloc (length h) s rest); [parsed|]. apply Hnode; lia.
Qed.

Lemma parseline_step : (4 * (es - s) + 4 <= S k)%nat -> fine (parseline buf es (S k) s h) (parsed (length h) s).
Proof.
  intros Hf. cbn [parseline]. destruct (IH s h Hs Hh) as (_ & Hpipe & _).
  eapply fine_bind; [apply Hpipe; lia|]. intros r h1 (? & ? & ? & ?).
  eapply fine_bind; [apply (back_loop_fine k (r.1) (r.2) h1); done || lia|]. intros r2 h2 (? & ? & ? & ?).
  apply (fine_rest (parseline buf es k) ";" LIST); [|done|parsed].
  intros s' h' ??. apply IH; [lia|done|lia].
Qed.

Lemma parsepipe_step : (4 * (es - s) + 3 <= S k)%nat -> fine (parsepipe buf es (S k) s h) (parsed (length h) s).
Proof.
  intros Hf. cbn [parsepipe]. destruct (IH s h Hs Hh) as (_ & _ & Hexec & _).
  eapply fine_bind; [apply Hexec; lia|]. intros r h1 Hr.
  apply (fine_rest (parsepipe buf es k) "|" PIPE); [|done|done].
  intros s' h' ??. apply IH; [lia|done|lia].
Qed.

Lemma parseblock_step : (4 * (es - s) + 1 <= S k)%nat -> (peek buf es s (text "(")).1 = true ->
  fine (parseblock buf es (S k) s h) (parsed (length h) s).
Proof.
  intros Hf Hopen. cbn [parseblock]. pose proof (peek_range s (text "(") Hs) as Hp.
  destruct (peek buf es s (text "(")) as [open s1]. simpl in Hopen. subst open. destruct Hp as [Hp1 Hp2].
  specialize (Hp2 eq_refl). cbn [negb].
  eapply fine_bind; [apply IH; [lia|done|lia]|]. intros r h1 (? & ? & ? & ?).
  pose proof (peek_range (r.2) (text ")") ltac:(lia)) as Hp.
  destruct (peek buf es (r.2) (text ")")) as [close s2]. destruct Hp as [Hp3 Hp4].
  destruct close; [specialize (Hp4 eq_refl)|complain]. cbn [negb].
  eapply fine_mono; [apply parseredirs_fine; done || lia|]. intros r2 h2 ((? & ? & ? & ?) & _). parsed.
Qed.

Lemma parseexec_step : (4 * (es - s) + 2 <= S k)%nat -> fine (parseexec buf es (S k) s h) (parsed (length h) s).
Proof.
  intros Hf. cbn [parseexec]. pose proof (peek_range s (text "(") Hs) as Hp.
  pose proof (skip_white_twice s Hs) as Htwice.
  destruct (peek buf es s (text "(")) as [block s1] eqn:Ep. destruct Hp as [Hp1 Hp2].
  assert (E1 : s1 = skip_white buf es s) by (unfold peek in Ep; congruence).
  destruct block.
  - eapply fine_mono; [apply IH; [lia|done|lia|]|intros r h' (? & ? & ? & ?); parsed].
    unfold peek in *. rewrite E1, Htwice. by injection Ep.
  - unfold bind at 1, execcmd, alloc. cbn beta iota.
    assert (Hnew : heap_ok es (h ++ [exec_cell []])).
    { apply heap_ok_alloc; [done|]. exists []. split_and!; [done|unfold MAXARGS; simpl; lia|done]. }
    eapply fine_bind; [apply parseredirs_fine; [lia|lia|exact Hnew|rewrite length_app; simpl; lia]|].
    rewrite length_app. intros r h1 ((? & ? & ? & ?) & Hpre).
    assert (Hc : h1 !! length h = Some (exec_cell [])).
    { eapply prefix_lookup_Some; [|exact Hpre]. by apply list_lookup_middle. }
    eapply fine_bind; [apply (args_loop_fine k (length h) (r.1) (r.2) h1 []); try done;
      [lia|lia|unfold MAXARGS; simpl; lia]|].
    intros [r2 argc] h2 ((? & ? & ? & ?) & ps & -> & Hc2 & Hl). cbn [snd].
    rewrite (bind_ok _ _ _ _ _ (set_arg_end h2 (length h) ps Hl Hc2)). apply fine_ret. parsed.
Qed.

End Step.

Lemma parsers_fine : forall fuel, all_fine fuel.
Proof.
  induction fuel as [|k IH]; intros s h Hs Hh post; [split_and!; intros; lia|]. unfold post.
  split_and!; [by apply parseline_step|by apply parsepipe_step|by apply parseexec_step|by apply parseblock_step].
Qed.

End Scan.

(** ** Terminating the strings and running the command *)

Section Heap.
Context (es : nat) (h : list cmd).
Hypothesis Hh : heap_ok es h.

Definition same_after (buf buf' : list byte) : Prop :=
  length buf' = length buf /\ forall i, (es < i)%nat -> buf' !! i = buf !! i.

Lemma same_after_insert buf buf' e : (e <= es)%nat -> same_after buf buf' -> same_after buf (<[e := Byte.x00]> buf').
Proof.
  intros He [Hl Hb]. split; [by rewrite length_insert|]. intros i Hi. rewrite list_lookup_insert_ne by lia. by apply Hb.
Qed.

Lemma same_after_trans b1 b2 b3 : same_after b1 b2 -> same_after b2 b3 -> same_after b1 b3.
Proof. intros [H1 H2] [H3 H4]. split; [congruence|]. intros i Hi. by rewrite H4, H2. Qed.

Lemma nul_args_total ps n m : forall buf, (0 < n)%nat ->
  Forall (fun p => p.1 <= p.2 <= es)%nat ps ->
  exists buf', nul_args (map Some (map fst ps) ++ replicate n None) (map Some (map snd ps) ++ replicate m None) buf
    = Some buf' /\ same_after buf buf'.
Proof.
  induction ps as [|[q e] ps IH]; intros buf Hn Hf; simpl.
  - destruct n; [lia|]. simpl. eexists. split; [done|]. by split.
  - inversion_clear Hf as [|?? He Hf']. destruct (IH (<[e := Byte.x00]> buf) Hn Hf') as (buf' & -> & Hb).
    eexists. split; [done|]. eapply same_after_trans; [|exact Hb]. apply same_after_insert; [simpl in He; lia|by split].
Qed.

Lemma nulterminate_total : forall fuel c buf, (c < fuel)%nat -> (c < length h)%nat ->
  exists buf', nulterminate fuel h c buf = Some buf' /\ same_after buf buf'.
Proof.
  induction fuel as [|k IH]; intros c buf Hf Hc; [lia|]. simpl.
  destruct (lookup_lt_is_Some_2 h c Hc) as [x Hx]. rewrite Hx. pose proof (Hh c x Hx) as Hok.
  destruct x as [argv eargv|sub q e m d|l r|l r|sub]; simpl in Hok.
  - destruct Hok as (ps & [= -> ->] & Hl & Hf'). apply nul_args_total; [rewrite length_map; lia|done].
  - destruct (IH sub buf ltac:(lia) ltac:(lia)) as (b1 & -> & H1). eexists. split; [done|].
    apply same_after_insert; [lia|done].
  - destruct (IH l buf ltac:(lia) ltac:(lia)) as (b1 & -> & H1).
    destruct (IH r b1 ltac:(lia) ltac:(lia)) as (b2 & -> & H2). exists b2. split; [done|by eapply same_after_trans].
  - destruct (IH l buf ltac:(lia) ltac:(lia)) as (b1 & -> & H1).
    destruct (IH r b1 ltac:(lia) ltac:(lia)) as (b2 & -> & H2). exists b2. split; [done|by eapply same_after_trans].
  - apply IH; lia.
Qed.

(** The fuel is enough: more of it does not change what the command does. *)
Lemma runcmd_enough buf : forall fuel c n, (c < fuel)%nat -> (c < length h)%nat ->
  runcmd (fuel + n) h buf c = runcmd fuel h buf c.
Proof.
  induction fuel as [|k IH]; intros c n Hf Hc; [lia|]. cbn [runcmd Nat.add].
  destruct (lookup_lt_is_Some_2 h c Hc) as [x Hx]. rewrite Hx. pose proof (Hh c x Hx) as Hok.
  destruct x as [argv eargv|sub q e m d|l r|l r|sub]; simpl in Hok; [done|..];
    repeat match goal with |- context [runcmd (k + n) h buf ?i] => rewrite (IH i n) by lia end; done.
Qed.

End Heap.

Lemma ch_end buf : ch buf (length (cstr buf)) = Byte.x00.
Proof.
  induction buf as [|b l IH]; [done|]. unfold ch in *. simpl. destruct b; simpl; done.
Qed.

Lemma parsecmd_fine buf : fine (parsecmd buf []) (fun r h => (r.1 < length h)%nat /\
  heap_ok (length (cstr buf)) h /\ same_after (length (cstr buf)) buf (r.2)).
Proof.
  unfold parsecmd. set (es := length (cstr buf)).
  assert (Hend : ch buf es = Byte.x00) by apply ch_end.
  eapply fine_bind; [apply (parsers_fine buf es Hend (parse_fuel es) 0%nat []); [lia|done|unfold parse_fuel; lia]|].
  intros r h (_ & Hr & Hpos & Hh). destruct (negb (_ =? _)%nat); [complain|]. rewrite bind_gets.
  destruct (nulterminate_total es h Hh (length h) (r.1) buf Hr Hr) as (buf' & -> & Hb).
  apply fine_ret. by split_and!.
Qed.

(** ** The line editor *)

(** The line ends inside the buffer of [nbuf] bytes, or the input has ended. *)
Definition line_read (nbuf : nat) (r : Z) (buf rest : list byte) : Prop :=
  length buf = nbuf /\
  ((r = -1 /\ buf !! 0%nat = Some Byte.x00 /\ rest = []) \/
   (0 <= r < Z.of_nat nbuf /\ buf !! Z.to_nat r = Some Byte.x00)).

Section Editor.
Context (dir : option (list (Z * list byte))) (stat_ok : list byte -> bool) (nbuf : nat).

Lemma append_name_ok : forall rest buf n, length buf = nbuf -> (n < nbuf)%nat ->
  exists buf' n', append_name nbuf rest buf n = Some (buf', n') /\ length buf' = nbuf /\ (n <= n' < nbuf)%nat.
Proof.
  induction rest as [|c rest IH]; intros buf n Hb Hn; simpl; [by exists buf, n|].
  destruct (negb _ && _) eqn:E; [|exists buf, n; split_and!; done || lia].
  apply andb_true_iff in E as [_ Hlt%Nat.ltb_lt]. rewrite put_ok by lia.
  destruct (IH (<[n := c]> buf) (S n)) as (buf' & n' & E & ? & ?); [by rewrite length_insert|lia|].
  exists buf', n'. split_and!; [done|done|lia..].
Qed.

Lemma autocomplete_ok buf n : length buf = nbuf -> (n < nbuf)%nat ->
  exists buf' n' w, autocomplete dir stat_ok buf n nbuf = Some (buf', n', w) /\
    length buf' = nbuf /\ (n <= n' < nbuf)%nat.
Proof.
  intros Hb Hn. unfold autocomplete. destruct (_ =? 0)%nat; [by eexists _, _, _|].
  destruct dir as [l|]; [|by eexists _, _, _]. destruct (find_match _ _ _ _) as [name|]; [|by eexists _, _, _].
  destruct (append_name_ok (drop ((n - word_start buf n) `min` DIRSIZ) name) buf n Hb Hn) as (b1 & n1 & E & Hb1 & Hn1).
  rewrite E. destruct (Nat.ltb_spec (n1 + 1) nbuf) as [Hlt|Hge].
  - rewrite put_ok by lia. rewrite put_ok by (rewrite length_insert; lia).
    eexists _, _, _. split; [done|]. rewrite !length_insert. lia.
  - rewrite put_ok by lia. eexists _, _, _. split; [done|]. rewrite !length_insert. lia.
Qed.

Lemma stop_ok buf n input (out : list (Z * list byte)) : length buf = nbuf -> (n < nbuf)%nat -> (nbuf <= n + 1)%nat ->
  exists r buf' rest out', Some (Z.of_nat n, <[n := Byte.x00]> buf, input, out) = Some (r, buf', rest, out') /\
    line_read nbuf r buf' rest /\ rest `suffix_of` input /\
    (n + 1 < nbuf -> (length rest < length input)%nat \/ rest = [])%nat.
Proof.
  intros Hb Hn Hge. eexists _, _, _, _. split; [done|]. split_and!; [|done|lia].
  split; [by rewrite length_insert|right]. split; [lia|]. rewrite Nat2Z.id. apply list_lookup_insert_eq. lia.
Qed.

Lemma readline_loop_ok : forall input buf n out, length buf = nbuf -> (n < nbuf)%nat ->
  exists r buf' rest out', readline_loop dir stat_ok nbuf input buf n out = Some (r, buf', rest, out') /\
    line_read nbuf r buf' rest /\ rest `suffix_of` input /\
    (n + 1 < nbuf -> (length rest < length input)%nat \/ rest = [])%nat.
Proof.
  induction input as [|c input IH]; intros buf n out Hb Hn; cbn [readline_loop];
    destruct (Nat.ltb_spec (n + 1) nbuf) as [Hlt|Hge].
  - rewrite put_ok by lia. exists (-1), (<[0%nat := Byte.x00]> buf), [], out. split_and!; [done| |done|by right].
    split; [by rewrite length_insert|left]. split_and!; try done. apply list_lookup_insert_eq. lia.
  - rewrite put_ok by lia. by eapply stop_ok.
  - set (c' := if bool_decide (c = Byte.x0d) then Byte.x0a else c).
    assert (Hnext : forall b m o, length b = nbuf -> (m < nbuf)%nat ->
      exists r buf' rest out', readline_loop dir stat_ok nbuf input b m o = Some (r, buf', rest, out') /\
        line_read nbuf r buf' rest /\ rest `suffix_of` c :: input /\
        (n + 1 < nbuf -> length rest < length (c :: input) \/ rest = [])%nat).
    { intros b m o Hbm Hm. destruct (IH b m o Hbm Hm) as (r & b' & rest & o' & E & H1 & H2 & H3).
      exists r, b', rest, o'. split_and!; [done..|by apply suffix_cons_r|]. left. apply suffix_length in H2. simpl. lia. }
    destruct (bool_decide (c' = Byte.x0a)).
    + rewrite put_ok by lia. rewrite put_ok by (rewrite length_insert; lia).
      eexists _, _, _, _. split; [done|]. split_and!; [|by apply suffix_cons_r|left; simpl; lia].
      split; [by rewrite !length_insert|right]. split; [lia|]. rewrite Nat2Z.id.
      apply list_lookup_insert_eq. rewrite length_insert. lia.
    + destruct (_ || _); [destruct (0 <? n)%nat|destruct (bool_decide (c' = Byte.x09))];
        [apply Hnext; [done|lia]|apply Hnext; [done|lia]| |].
      * destruct (autocomplete_ok buf n Hb Hn) as (b & m & w & -> & Hbm & Hm). apply Hnext; [done|lia].
      * rewrite put_ok by lia. apply Hnext; [by rewrite length_insert|lia].
  - rewrite put_ok by lia. by eapply stop_ok.
Qed.

Lemma readline_ok input buf : length buf = nbuf -> (0 < nbuf)%nat ->
  exists r buf' rest out, readline dir stat_ok buf nbuf input = Some (r, buf', rest, out) /\
    line_read nbuf r buf' rest /\ rest `suffix_of` input /\
    (1 < nbuf -> (length rest < length input)%nat \/ rest = [])%nat.
Proof.
  intros Hb Hn. destruct (readline_loop_ok input buf 0%nat [] Hb Hn) as (r & b & rest & out & H).
  by exists r, b, rest, out.
Qed.

End Editor.

(** The main loop takes every input to its end. *)
Lemma main_loop_total dir stat_ok : forall fuel input, (length input <= fuel)%nat ->
  exists acts, main_loop dir stat_ok fuel input = Some acts.
Proof.
  induction fuel as [|k IH]; intros input Hf.
  { destruct input; [by exists []|simpl in Hf; lia]. }
  cbn [main_loop]. unfold getcmd.
  destruct (readline_ok dir stat_ok sizeof_buf input (replicate sizeof_buf Byte.x00))
    as (r & buf & rest & out & -> & _ & _ & Hshort); [by rewrite length_replicate|unfold sizeof_buf; lia|].
  destruct (r <? 0); [by exists []|]. destruct (bool_decide _); [by exists []|].
  destruct (IH rest) as [acts ->]; [|by eexists].
  destruct (Hshort ltac:(unfold sizeof_buf; lia)) as [|E]; [lia|]. rewrite E. simpl. lia.
Qed.

(** C33: on every buffer the parser ends, with a command or with one of its
    four messages for a line that is not well-formed ([parseblock] never
    panics).  All pointers of the command go down in the heap or into the line,
    the termination of the strings writes nothing after the line, and running
    the command needs no deeper recursion than the heap has commands. *)
Theorem parsecmd_total (buf : list byte) :
  match parsecmd buf [] with
  | Ok (c, buf') h =>
      (c < length h)%nat /\ heap_ok (length (cstr buf)) h /\ same_after (length (cstr buf)) buf buf' /\
      forall n, runcmd (length h + n) h buf' c = runcmd (length h) h buf' c
  | Panic m => m ∈ complaints
  | _ => False
  end.
Proof.
  pose proof (parsecmd_fine buf) as H. unfold fine in H. destruct (parsecmd buf []) as [[c buf'] h|?|?|?| |]; try done.
  destruct H as (H1 & H2 & H3). split_and!; [done..|]. intros n. by eapply runcmd_enough.
Qed.


