(* ===== verification/Umalloc.v ===== *)
(** * umalloc.c

    The allocator of the user programs: a circular list of free blocks, sorted
    by address, whose headers are in the memory of the process. *)

From S2P Require Import Prelude Memory.
Local Open Scope Z_scope.
Local Open Scope kernel_scope.

Module Umalloc.

(** ** The code *)

(** The memory of the process, the static pointer and the break. *)
Record uheap : Type := { umem : memory; freep : Z; brk : Z }.

Definition U := M uheap.

Definition set_umem (m : memory) (s : uheap) : uheap := {| umem := m; freep := freep s; brk := brk s |}.
Definition set_freep (p : Z) (s : uheap) : uheap := {| umem := umem s; freep := p; brk := brk s |}.

(** [union header]: the pointer at offset 0, the size at offset 8, 16 bytes. *)
Definition Header : Z := 16.
Definition s_ptr (m : memory) (h : Z) : Z := loadZ 8 m h.
Definition s_size (m : memory) (h : Z) : Z := loadZ 4 m (h + 8).
Definition set_ptr (h v : Z) : U unit := modify (fun s => set_umem (storeZ 8 (umem s) h v) s).
Definition set_size (h v : Z) : U unit := modify (fun s => set_umem (storeZ 4 (umem s) (h + 8) v) s).
Definition get_ptr (h : Z) : U Z := gets (fun s => s_ptr (umem s) h).
Definition get_size (h : Z) : U Z := gets (fun s => s_size (umem s) h).

(** [h + n] on a [Header *]. *)
Definition hadd (h n : Z) : Z := u64 (h + n * Header).

Section Allocator.
(** The address of the static [base], and whether the kernel moves a break by
    a number of bytes. *)
Context (base : Z) (grow : Z -> Z -> bool).

(** [sbrk]: the old break, or -1. *)
Definition sbrk (n : Z) : U Z :=
  b <- gets brk ;;
  if grow b n then modify (fun s => {| umem := umem s; freep := freep s; brk := b + n |}) ;; ret b
  else ret (u64 (-1)).

(** More blocks than the heap has room for. *)
Definition max_blocks (s : uheap) : nat := Z.to_nat ((brk s - base) / Header).

(** The loop of [free]: the block after which [bp] goes. *)
Fixpoint free_loop (fuel : nat) (bp p : Z) : U Z :=
  n <- get_ptr p ;;
  if (p <? bp) && (bp <? n) then ret p
  else if (n <=? p) && ((p <? bp) || (bp <? n)) then ret p
  else
    match fuel with
    | O => out_of_fuel
    | S k => free_loop k bp n
    end.

(** [if(bp + bp->s.size == p->s.ptr) ... else bp->s.ptr = p->s.ptr;] *)
Definition join_next (bp p : Z) : U unit :=
  n <- get_ptr p ;;
  size <- get_size bp ;;
  if hadd bp size =? n then
    nsize <- get_size n ;;
    set_size bp (u32 (size + nsize)) ;;
    nn <- get_ptr n ;;
    set_ptr bp nn
  else set_ptr bp n.

(** [if(p + p->s.size == bp) ... else p->s.ptr = bp;] *)
Definition join_prev (bp p : Z) : U unit :=
  size <- get_size p ;;
  if hadd p size =? bp then
    bsize <- get_size bp ;;
    set_size p (u32 (size + bsize)) ;;
    bn <- get_ptr bp ;;
    set_ptr p bn
  else set_ptr p bp.

Definition free (ap : Z) : U unit :=
  let bp := u64 (ap - Header) in
  fuel <- gets max_blocks ;;
  start <- gets freep ;;
  p <- free_loop fuel bp start ;;
  join_next bp p ;;
  join_prev bp p ;;
  modify (set_freep p).

Definition morecore (nu : Z) : U Z :=
  let nu := if nu <? 4096 then 4096 else nu in
  p <- sbrk (nu * Header) ;;
  if p =? u64 (-1) then ret 0
  else
    set_size p nu ;;
    free (hadd p 1) ;;
    gets freep.

(** [p] has room: take it, or its end. *)
Definition take_block (nunits prevp p : Z) : U Z :=
  size <- get_size p ;;
  p <- (if size =? nunits then
          n <- get_ptr p ;;
          set_ptr prevp n ;;
          ret p
        else
          set_size p (u32 (size - nunits)) ;;
          size <- get_size p ;;
          let p := hadd p size in
          set_size p nunits ;;
          ret p) ;;
  modify (set_freep prevp) ;;
  ret (hadd p 1).

Fixpoint malloc_loop (fuel : nat) (nunits prevp p : Z) : U Z :=
  size <- get_size p ;;
  if nunits <=? size then take_block nunits prevp p
  else
    f <- gets freep ;;
    p <- (if p =? f then
            q <- morecore nunits ;;
            ret (if q =? 0 then None else Some q)
          else ret (Some p)) ;;
    match p with
    | None => ret 0
    | Some p =>
        match fuel with
        | O => out_of_fuel
        | S k => n <- get_ptr p ;; malloc_loop k nunits p n
        end
    end.

(** The fuel is enough to walk the list, grow the heap and walk it again. *)
Definition malloc (nbytes : Z) : U Z :=
  let nunits := u32 ((nbytes + Header - 1) / Header + 1) in
  prevp <- gets freep ;;
  prevp <- (if prevp =? 0 then
              modify (set_freep base) ;; set_ptr base base ;;
              set_size base 0 ;;
              ret base
            else ret prevp) ;;
  fuel <- gets (fun s => 2 * max_blocks s + 4)%nat ;;
  p <- get_ptr prevp ;;
  malloc_loop fuel nunits prevp p.

End Allocator.

End Umalloc.
