(* ===== verification/UmallocSpec.v ===== *)
(** * The heap of a user program

    The abstract heap is the sequence of blocks that tile the memory between the
    start of the heap and the break, each in use or free, no two free ones
    adjacent.  [malloc] takes the end of a free block, after it has appended one
    if necessary; [free] releases a block and merges it with its neighbours. *)

From stdpp Require Import sets.
From S2P Require Import Prelude Memory Umalloc.
Import Umalloc.
Local Open Scope Z_scope.
Local Open Scope kernel_scope.

(** ** The abstract heap *)

(** A block is in use or free and has a number of units, its header included. *)
Notation tile := (bool * Z)%type.

Fixpoint span (T : list tile) : Z :=
  match T with
  | [] => 0
  | x :: T => 16 * x.2 + span T
  end.

(** The free blocks with their addresses. *)
Fixpoint frees (lo : Z) (T : list tile) : list (Z * Z) :=
  match T with
  | [] => []
  | (true, n) :: T => frees (lo + 16 * n) T
  | (false, n) :: T => (lo, n) :: frees (lo + 16 * n) T
  end.

(** Merge adjacent free blocks. *)
Fixpoint coalesce (T : list tile) : list tile :=
  match T with
  | [] => []
  | (true, n) :: T => (true, n) :: coalesce T
  | (false, n) :: T =>
      match coalesce T with
      | (false, k) :: T => (false, n + k) :: T
      | T => (false, n) :: T
      end
  end.

(** The byte at [a] belongs to a block in use. *)
Fixpoint in_use (lo : Z) (T : list tile) (a : Z) : Prop :=
  match T with
  | [] => False
  | x :: T => (x.1 = true /\ lo <= a < lo + 16 * x.2) \/ in_use (lo + 16 * x.2) T a
  end.

(** The headers of the blocks in use hold their sizes. *)
Fixpoint sizes (m : memory) (lo : Z) (T : list tile) : Prop :=
  match T with
  | [] => True
  | x :: T => (x.1 = true -> s_size m lo = x.2) /\ sizes m (lo + 16 * x.2) T
  end.

Definition first (l : list (Z * Z)) (e : Z) : Z := match l with [] => e | x :: _ => x.1 end.

(** The headers of the blocks [l] are linked, the last one to [e]. *)
Fixpoint linked (m : memory) (l : list (Z * Z)) (e : Z) : Prop :=
  match l with
  | [] => True
  | x :: l => s_ptr m (x.1) = first l e /\ s_size m (x.1) = x.2 /\ linked m l e
  end.

(** No two free blocks are adjacent. *)
Fixpoint separate (T : list tile) : Prop :=
  match T with
  | [] => True
  | x :: T => match T with y :: _ => x.1 = true \/ y.1 = true | [] => True end /\ separate T
  end.

(** Take [n] units from the end of a free block of [k]. *)
Definition carve (T1 : list tile) (k n : Z) (T2 : list tile) : list tile :=
  if k =? n then T1 ++ (true, n) :: T2 else T1 ++ (false, k - n) :: (true, n) :: T2.

(** ** Lists of blocks *)

Lemma span_app T1 T2 : span (T1 ++ T2) = span T1 + span T2.
Proof. induction T1 as [|x T1 IH]; simpl; [done|]. rewrite IH. lia. Qed.

Lemma frees_app T1 T2 : forall lo, frees lo (T1 ++ T2) = frees lo T1 ++ frees (lo + span T1) T2.
Proof.
  induction T1 as [|[[|] n] T1 IH]; intros lo; simpl; [by rewrite Z.add_0_r|..]; rewrite IH;
    by replace (lo + 16 * n + span T1) with (lo + (16 * n + span T1)) by lia.
Qed.

Lemma in_use_app T1 T2 a : forall lo, in_use lo (T1 ++ T2) a <-> in_use lo T1 a \/ in_use (lo + span T1) T2 a.
Proof.
  induction T1 as [|x T1 IH]; intros lo; simpl; [rewrite Z.add_0_r; tauto|]. rewrite IH.
  replace (lo + 16 * x.2 + span T1) with (lo + (16 * x.2 + span T1)) by lia. tauto.
Qed.

Lemma sizes_app m T1 T2 : forall lo, sizes m lo (T1 ++ T2) <-> sizes m lo T1 /\ sizes m (lo + span T1) T2.
Proof.
  induction T1 as [|x T1 IH]; intros lo; simpl; [rewrite Z.add_0_r; tauto|]. rewrite IH.
  replace (lo + 16 * x.2 + span T1) with (lo + (16 * x.2 + span T1)) by lia. tauto.
Qed.

Lemma linked_app m l1 l2 e : linked m (l1 ++ l2) e <-> linked m l1 (first l2 e) /\ linked m l2 e.
Proof.
  induction l1 as [|x l1 IH]; simpl; [tauto|]. rewrite IH.
  replace (first (l1 ++ l2) e) with (first l1 (first l2 e)) by (by destruct l1). tauto.
Qed.

(** Part of a linked list, up to a header. *)
Lemma linked_upto m A l x Q e : linked m (A ++ l ++ x :: Q) e -> linked m (l ++ [x]) (first Q e).
Proof. intros [_ H]%linked_app. change (x :: Q) with ([x] ++ Q) in H. rewrite app_assoc in H. by apply linked_app in H as [? _]. Qed.

Lemma linked_elem m l e x : linked m l e -> x ∈ l -> s_size m (x.1) = x.2.
Proof. intros Hl [l1 [l2 ->]]%list_elem_of_split. apply linked_app in Hl as [_ Hl]. apply Hl. Qed.

Definition positive (T : list tile) : Prop := Forall (fun x : tile => 1 <= x.2) T.

Lemma positive_split T1 x T2 : positive (T1 ++ x :: T2) -> positive T1 /\ 1 <= x.2 /\ positive T2.
Proof. intros [H1 H2]%Forall_app. by inversion_clear H2. Qed.

Lemma span_nonneg T : positive T -> 0 <= span T.
Proof. induction 1; simpl; lia. Qed.

(** The free blocks are inside the heap, in order. *)
Lemma frees_range T : positive T -> forall lo x, x ∈ frees lo T ->
  1 <= x.2 /\ lo <= x.1 /\ x.1 + 16 * x.2 <= lo + span T.
Proof.
  induction 1 as [|[u n] T Hn HT IH]; intros lo x Hx; [by apply elem_of_nil in Hx|]. simpl in *.
  assert (Hrec : x ∈ frees (lo + 16 * n) T -> 1 <= x.2 /\ lo <= x.1 /\ x.1 + 16 * x.2 <= lo + (16 * n + span T))
    by (intros H; specialize (IH _ _ H); lia).
  destruct u; [by apply Hrec|]. apply elem_of_cons in Hx as [->|Hx]; [|by apply Hrec].
  pose proof (span_nonneg T HT). simpl. lia.
Qed.

Lemma in_use_range T : positive T -> forall lo a, in_use lo T a -> lo <= a < lo + span T.
Proof.
  induction 1 as [|x T Hx HT IH]; intros lo a Hu; [done|]. simpl in *. pose proof (span_nonneg T HT).
  destruct Hu as [[_ Hu]|Hu]; [lia|]. specialize (IH _ _ Hu). lia.
Qed.

(** A byte in use is in no free block. *)
Lemma in_use_outside T a : positive T -> forall lo x, in_use lo T a -> x ∈ frees lo T ->
  a < x.1 \/ x.1 + 16 * x.2 <= a.
Proof.
  induction 1 as [|[u n] T Hn HT IH]; intros lo x Hu Hx; [by apply elem_of_nil in Hx|]. simpl in *.
  destruct u; simpl in Hu.
  - pose proof (frees_range T HT _ _ Hx). destruct Hu as [[_ Hu]|Hu]; [lia|by eapply IH].
  - destruct Hu as [[? _]|Hu]; [done|]. apply elem_of_cons in Hx as [->|Hx]; [|by eapply IH].
    right. simpl. apply (in_use_range T HT) in Hu. lia.
Qed.

(** ** Merging *)

Lemma separate_app T1 x T2 : separate (T1 ++ x :: T2) <-> separate (T1 ++ [x]) /\ separate (x :: T2).
Proof.
  induction T1 as [|y T1 IH]; [simpl; tauto|]. rewrite <- !app_comm_cons.
  change (separate (y :: ?l)) with (match l with z :: _ => y.1 = true \/ z.1 = true | [] => True end /\ separate l).
  rewrite IH. destruct T1; simpl; tauto.
Qed.

Lemma separate_used T1 n T2 : separate (T1 ++ (true, n) :: T2) <-> separate T1 /\ separate T2.
Proof.
  induction T1 as [|y T1 IH]; [simpl; destruct T2; tauto|]. rewrite <- !app_comm_cons.
  change (separate (y :: ?l)) with (match l with z :: _ => y.1 = true \/ z.1 = true | [] => True end /\ separate l).
  rewrite IH. destruct T1; simpl; tauto.
Qed.

Lemma separate_around T1 n T2 : separate (T1 ++ (false, n) :: T2) -> separate T1 /\ separate T2.
Proof.
  induction T1 as [|y T1 IH]; [simpl; tauto|]. rewrite <- !app_comm_cons. intros [H1 [H2 H3]%IH]. split; [|done].
  split; [|done]. by destruct T1.
Qed.

Lemma separate_carve T1 k n T2 j : separate (T1 ++ (false, k) :: T2) -> separate (T1 ++ (false, j) :: (true, n) :: T2).
Proof.
  intros Hs. pose proof (separate_around _ _ _ Hs) as [_ H2]. apply separate_app in Hs as [H1 _]. apply separate_app.
  split; [|by split; [right|apply (separate_used [])]]. clear -H1. induction T1 as [|y T1 IH]; [done|].
  destruct H1 as [H1 H2]. split; [by destruct T1|by apply IH].
Qed.

Lemma coalesce_id T : separate T -> coalesce T = T.
Proof.
  induction T as [|[u n] T IH]; [done|]. intros [H1 H2]. simpl. rewrite IH by done.
  destruct u; [done|]. by destruct T as [|[[|] k] T]; [..|destruct H1].
Qed.

Lemma coalesce_separate T : separate (coalesce T).
Proof.
  induction T as [|[u n] T IH]; [done|]. simpl. destruct (coalesce T) as [|[[|] k] T']; simpl in *; destruct u; simpl; tauto.
Qed.

(** Merging can start at the end. *)
Lemma coalesce_app T1 T2 : coalesce (T1 ++ T2) = coalesce (T1 ++ coalesce T2).
Proof.
  induction T1 as [|[u n] T1 IH]; simpl; [symmetry; apply coalesce_id, coalesce_separate|]. by rewrite IH.
Qed.

Lemma coalesce_span T : span (coalesce T) = span T.
Proof.
  induction T as [|[u n] T IH]; [done|]. simpl. rewrite <- IH.
  destruct u; [done|]. destruct (coalesce T) as [|[[|] k] T']; simpl; lia.
Qed.

Lemma coalesce_positive T : positive T -> positive (coalesce T).
Proof.
  unfold positive. induction 1 as [|[u n] T Hn HT IH]; simpl in *; [done|]. destruct u; [by constructor|].
  destruct (coalesce T) as [|[[|] k] T']; [by repeat constructor|by constructor|].
  inversion_clear IH. constructor; [simpl in *; lia|done].
Qed.

Lemma coalesce_in_use T a : forall lo, in_use lo (coalesce T) a <-> in_use lo T a.
Proof.
  induction T as [|[u n] T IH]; intros lo; [done|]. simpl. rewrite <- IH. destruct u; [done|].
  destruct (coalesce T) as [|[[|] k] T']; simpl; [done..|].
  replace (lo + 16 * n + 16 * k) with (lo + 16 * (n + k)) by lia. naive_solver.
Qed.

Lemma coalesce_sizes m T : forall lo, sizes m lo (coalesce T) <-> sizes m lo T.
Proof.
  induction T as [|[u n] T IH]; intros lo; [done|]. simpl. rewrite <- IH. destruct u; [done|].
  destruct (coalesce T) as [|[[|] k] T']; simpl; [done..|].
  replace (lo + 16 * n + 16 * k) with (lo + 16 * (n + k)) by lia. split; [intros [_ H]|intros [_ [_ H]]]; done.
Qed.

(** Blocks before a merged part stay. *)
Lemma coalesce_after T x Y y Y' : separate (T ++ [x]) -> coalesce Y = y :: Y' -> y.1 = x.1 ->
  coalesce (T ++ Y) = T ++ y :: Y'.
Proof.
  intros Hs HY Hyx. revert Hs. induction T as [|[u n] T IH]; [done|]. rewrite <- app_comm_cons.
  intros [H1 H2]. simpl. rewrite IH by done. destruct u; [done|].
  destruct T as [|[[|] k] T]; simpl in *; [|done|by destruct H1]. destruct y as [[|] ?]; [done|].
  simpl in Hyx. rewrite <- Hyx in H1. by destruct H1.
Qed.

(** ** Headers in memory *)

(** Two headers are the same or do not meet. *)
Definition apart (h h' : Z) : Prop := h + 16 <= h' \/ h' + 16 <= h.

Ltac each := repeat (apply Forall_cons; split); first [apply Forall_nil_2 | cbn [fst snd] in *; unfold apart; lia].

Lemma ptr_set_ptr m h v : 0 <= v < 2 ^ 64 -> s_ptr (storeZ 8 m h v) h = v.
Proof. intros. unfold s_ptr. rewrite loadZ_store_same. by apply Z.mod_small. Qed.

Lemma size_set_size m h v : 0 <= v < 2 ^ 32 -> s_size (storeZ 4 m (h + 8) v) h = v.
Proof. intros. unfold s_size. rewrite loadZ_store_same. by apply Z.mod_small. Qed.

Lemma ptr_set_size m h v h' : h = h' \/ apart h h' -> s_ptr (storeZ 4 m (h + 8) v) h' = s_ptr m h'.
Proof. unfold apart. intros. unfold s_ptr. apply loadZ_storeZ_disjoint. lia. Qed.

Lemma size_set_ptr m h v h' : h = h' \/ apart h h' -> s_size (storeZ 8 m h v) h' = s_size m h'.
Proof. unfold apart. intros. unfold s_size. apply loadZ_storeZ_disjoint. lia. Qed.

Lemma ptr_set_ptr_ne m h v h' : apart h h' -> s_ptr (storeZ 8 m h v) h' = s_ptr m h'.
Proof. unfold apart. intros. unfold s_ptr. apply loadZ_storeZ_disjoint. lia. Qed.

Lemma size_set_size_ne m h v h' : apart h h' -> s_size (storeZ 4 m (h + 8) v) h' = s_size m h'.
Proof. unfold apart. intros. unfold s_size. apply loadZ_storeZ_disjoint. lia. Qed.

(** [m'] differs from [m] inside the headers [hs] only. *)
Definition writes (hs : list Z) (m m' : memory) : Prop :=
  forall a, Forall (fun h => a < h \/ h + 16 <= a) hs -> m' a = m a.

Lemma writes_ptr h v m m' hs : writes hs m m' -> h ∈ hs -> writes hs m (storeZ 8 m' h v).
Proof.
  intros Hw Hh a Ha. rewrite <- Hw by done. rewrite Forall_forall in Ha. specialize (Ha h Hh).
  apply store_bytes_ne. rewrite length_le_split. lia.
Qed.

Lemma writes_size h v m m' hs : writes hs m m' -> h ∈ hs -> writes hs m (storeZ 4 m' (h + 8) v).
Proof.
  intros Hw Hh a Ha. rewrite <- Hw by done. rewrite Forall_forall in Ha. specialize (Ha h Hh).
  apply store_bytes_ne. rewrite length_le_split. lia.
Qed.

Lemma writes_header hs m m' h : writes hs m m' -> Forall (apart h) hs ->
  s_ptr m' h = s_ptr m h /\ s_size m' h = s_size m h.
Proof.
  intros Hw Ha. assert (Hb : forall i, 0 <= i < 16 -> m' (h + i) = m (h + i)).
  { intros i Hi. apply Hw. eapply Forall_impl; [exact Ha|]. unfold apart. lia. }
  unfold s_ptr, s_size, loadZ. split; f_equal; apply load_bytes_ext; intros i Hi; [apply Hb; lia|].
  rewrite <- !Z.add_assoc. apply Hb. lia.
Qed.

Lemma writes_linked hs m m' l e : writes hs m m' -> Forall (fun x => Forall (apart x.1) hs) l ->
  linked m l e -> linked m' l e.
Proof.
  intros Hw. induction 1 as [|x l Hx Hl IH]; simpl; [done|].
  destruct (writes_header hs m m' (x.1) Hw Hx) as [-> ->]. intros (? & ? & ?). auto.
Qed.

(** Headers of blocks in use keep their sizes. *)
Lemma writes_sizes hs m m' T : positive T -> writes hs m m' -> forall lo,
  (forall a, in_use lo T a -> Forall (fun h => a < h \/ h + 16 <= a) hs) -> sizes m lo T -> sizes m' lo T.
Proof.
  intros HT Hw. induction HT as [|[u n] T Hn HT IH]; intros lo Ha; simpl in *; [done|].
  intros [H1 H2]. split; [|apply IH; auto]. intros ->. rewrite <- H1 by done. unfold s_size, loadZ.
  f_equal. apply load_bytes_ext. intros i Hi. apply Hw, Ha. left. split; [done|lia].
Qed.

(** ** free *)

Lemma hadd_small h n : 0 <= h + 16 * n < 2 ^ 64 -> hadd h n = h + 16 * n.
Proof. intros. unfold hadd, Header. rewrite u64_small; lia. Qed.

(** Both halves of [free] link the header [a] to [b], or merge [b] into it. *)
Definition attach (m : memory) (a b : Z) : memory :=
  if hadd a (s_size m a) =? b then
    let m1 := storeZ 4 m (a + 8) (u32 (s_size m a + s_size m b)) in storeZ 8 m1 a (s_ptr m1 b)
  else storeZ 8 m a b.

Lemma join_next_eq bp p s : join_next bp p s = Ok tt (set_umem (attach (umem s) bp (s_ptr (umem s) p)) s).
Proof. unfold join_next, attach, get_ptr, get_size. rewrite !bind_gets. cbn beta. by destruct (_ =? _). Qed.

Lemma join_prev_eq bp p s : join_prev bp p s = Ok tt (set_umem (attach (umem s) p bp) s).
Proof. unfold join_prev, attach, get_size. rewrite !bind_gets. cbn beta. by destruct (_ =? _). Qed.

Lemma attach_writes m a b : writes [a] m (attach m a b).
Proof.
  unfold attach. destruct (_ =? _); [|by apply writes_ptr; [|left]].
  apply writes_ptr; [|by left]. by apply writes_size; [|left].
Qed.

(** All headers of [l] are after the block [a] of [n] units, and below [2 ^ 36]. *)
Definition after (a n : Z) (l : list (Z * Z)) : Prop :=
  Forall (fun x => a + 16 <= x.1 /\ a + 16 * n <= x.1 < 2 ^ 36) l.

Lemma after_apart a n l : after a n l -> Forall (fun x : Z * Z => Forall (apart x.1) [a]) l.
Proof. intros H. eapply Forall_impl; [exact H|]. intros x Hx. cbn beta in Hx. constructor; [right; lia|done]. Qed.

Lemma attach_link m a n r e : 0 <= a < 2 ^ 36 -> 0 <= n < 2 ^ 32 -> 0 <= e < 2 ^ 64 -> after a n r ->
  s_size m a = n -> a + 16 * n <> first r e -> linked m r e ->
  linked (attach m a (first r e)) ((a, n) :: r) e.
Proof.
  intros Ha Hn He Hr Hs Hne Hl. pose proof (attach_writes m a (first r e)) as Hw.
  split_and!; [| |by eapply writes_linked; [exact Hw|eapply after_apart|]]; cbn [fst snd];
    unfold attach; rewrite Hs, hadd_small, (proj2 (Z.eqb_neq _ _)) by lia.
  - apply ptr_set_ptr. destruct Hr; simpl; lia.
  - by rewrite size_set_ptr by (by left).
Qed.

Lemma attach_merge m a n k r e : 0 <= a < 2 ^ 36 -> 1 <= n -> 0 <= k -> n + k < 2 ^ 32 -> 0 <= e < 2 ^ 64 ->
  after a (n + k) r -> s_size m a = n -> linked m ((a + 16 * n, k) :: r) e ->
  linked (attach m a (a + 16 * n)) ((a, n + k) :: r) e.
Proof.
  intros Ha Hn Hk Hnk He Hr Hs (Hl1 & Hl2 & Hl). cbn [fst snd] in *.
  pose proof (attach_writes m a (a + 16 * n)) as Hw.
  split_and!; [| |by eapply writes_linked; [exact Hw|eapply after_apart|]]; cbn [fst snd];
    unfold attach; rewrite Hs, hadd_small, Z.eqb_refl, Hl2, u32_small by lia.
  - rewrite ptr_set_size by (right; left; lia). rewrite Hl1. apply ptr_set_ptr. destruct Hr; simpl; lia.
  - rewrite size_set_ptr by (by left). rewrite size_set_size; lia.
Qed.

Section Heap.
Context (base lo : Z).

(** The list of the headers: [base] and the free blocks. *)
Definition blocks (T : list tile) : list (Z * Z) := (base, 0) :: frees lo T.

Definition limit : Z := 2 ^ 36.

Definition heap_ok (s : uheap) (T : list tile) : Prop :=
  (positive T /\ separate T /\ brk s = lo + span T) /\
  (0 < base /\ base + 16 <= lo /\ brk s < limit) /\
  linked (umem s) (blocks T) base /\ sizes (umem s) lo T /\
  freep s ∈ map fst (blocks T).

(** The free blocks after a block of [n] units at [a]. *)
Lemma frees_after a n T : positive T -> 1 <= n -> a + 16 * n + span T < 2 ^ 36 -> after a n (frees (a + 16 * n) T).
Proof.
  intros HT Hn Hlim. apply Forall_forall. intros x Hx. pose proof (frees_range T HT _ _ Hx). lia.
Qed.

(** The block that is freed and its successor. *)
Lemma attach_next m bp n T2 : positive T2 -> separate T2 -> 1 <= n -> 0 < base -> base + 16 <= bp ->
  bp + 16 * n + span T2 < limit -> s_size m bp = n -> linked m (frees (bp + 16 * n) T2) base ->
  exists n' T2', coalesce ((false, n) :: T2) = (false, n') :: T2' /\
    linked (attach m bp (first (frees (bp + 16 * n) T2) base)) ((bp, n') :: frees (bp + 16 * n') T2') base.
Proof.
  intros HT Hsep Hn Hb Hbp Hlim Hsz Hl. pose proof (span_nonneg T2 HT) as Hspan. unfold limit in Hlim.
  assert (Hnext : (exists k T3, T2 = (false, k) :: T3) \/
    first (frees (bp + 16 * n) T2) base <> bp + 16 * n /\ coalesce ((false, n) :: T2) = (false, n) :: T2).
  { destruct T2 as [|[[|] k] T3]; [right; split; [simpl; lia|done]|right|by left; eauto].
    split; [|simpl; rewrite coalesce_id by apply Hsep; done]. inversion_clear HT as [|?? Hk HT3].
    simpl in Hk, Hspan, Hlim |- *. pose proof (frees_after (bp + 16 * n) k T3 HT3 Hk) as Ha.
    destruct Ha as [|x l Hx]; simpl; lia. }
  destruct Hnext as [(k & T3 & ->)|[Hne E]].
  - inversion_clear HT as [|?? Hk HT3]. simpl in Hk, Hlim, Hspan. pose proof (span_nonneg T3 HT3).
    exists (n + k), T3. split; [pose proof (coalesce_id _ Hsep) as Ec; cbn [coalesce] in *; by rewrite Ec|].
    replace (bp + 16 * (n + k)) with (bp + 16 * n + 16 * k) by lia. cbn [frees first fst] in *.
    apply attach_merge; try done; try lia.
    replace (bp + 16 * n + 16 * k) with (bp + 16 * (n + k)) by lia. apply frees_after; [done|lia|lia].
  - exists n, T2. split; [done|]. apply attach_link; try done; try lia. apply frees_after; [done|lia|lia].
Qed.

(** A free block of the list is a block of the heap. *)
Lemma frees_split T : forall l P x Q, frees l T = P ++ x :: Q -> exists T1 T2,
  T = T1 ++ (false, x.2) :: T2 /\ P = frees l T1 /\ x.1 = l + span T1 /\ Q = frees (x.1 + 16 * x.2) T2.
Proof.
  induction T as [|[u n] T IH]; intros l P x Q HE; [by destruct P|]. simpl in HE. destruct u.
  - destruct (IH _ _ _ _ HE) as (T1 & T2 & -> & -> & Hx & ->). exists ((true, n) :: T1), T2.
    split_and!; [done|done|simpl; lia|done].
  - destruct P as [|y P]; injection HE as <- HE.
    + exists [], T. simpl. split_and!; try done. lia.
    + destruct (IH _ _ _ _ HE) as (T1 & T2 & -> & -> & Hx & ->). exists ((false, n) :: T1), T2.
      split_and!; [done|done|simpl; lia|done].
Qed.

(** The headers before a header of the list end before it. *)
Lemma blocks_before T P x Q : positive T -> base + 16 <= lo -> blocks T = P ++ x :: Q ->
  Forall (fun y => y.1 + 16 <= x.1 /\ y.1 + 16 * y.2 <= x.1) P.
Proof.
  intros HT Hlo HB. destruct P as [|y P]; [done|]. injection HB as <- HB.
  apply frees_split in HB as (T1 & T2 & -> & -> & Hx & _). apply Forall_app in HT as [HT1 _].
  pose proof (span_nonneg T1 HT1). constructor; [simpl; lia|]. apply Forall_forall. intros y Hy.
  pose proof (frees_range T1 HT1 _ _ Hy). lia.
Qed.

Lemma blocks_app T1 T2 : blocks (T1 ++ T2) = blocks T1 ++ frees (lo + span T1) T2.
Proof. unfold blocks. by rewrite frees_app. Qed.

Lemma before_apart (P : list (Z * Z)) p : Forall (fun y => y.1 + 16 <= p /\ y.1 + 16 * y.2 <= p) P ->
  Forall (fun x : Z * Z => Forall (apart x.1) [p]) P.
Proof. intros H. eapply Forall_impl; [exact H|]. intros y Hy. cbn beta in Hy. constructor; [left; lia|done]. Qed.

(** The previous header [p] of [k] units and the block that is freed; [T1] is
    the part of the heap before it. *)
Lemma attach_prev m p k P n T1 T2 : positive T1 -> positive T2 -> separate T1 -> separate ((false, n) :: T2) ->
  1 <= n -> 0 < base -> base + 16 <= lo -> lo + span T1 + 16 * n + span T2 < limit ->
  blocks T1 = P ++ [(p, k)] -> linked m P p -> s_size m p = k ->
  linked m ((lo + span T1, n) :: frees (lo + span T1 + 16 * n) T2) base ->
  let T' := coalesce (T1 ++ (false, n) :: T2) in
  linked (attach m p (lo + span T1)) (blocks T') base /\ p ∈ map fst (blocks T').
Proof.
  intros HT1 HT2 Hs1 Hs2 Hn Hb Hlo Hlim HB HP Hk Hl T'. unfold limit in Hlim.
  pose proof (span_nonneg T1 HT1). pose proof (span_nonneg T2 HT2).
  pose proof (before_apart P p (blocks_before T1 P (p, k) [] HT1 Hlo HB)) as HPp.
  assert (HP' : linked (attach m p (lo + span T1)) P p) by (by eapply writes_linked; [apply attach_writes|..]).
  assert (Hcases : (exists T0, T1 = T0 ++ [(false, k)] /\ p = lo + span T0 /\ P = blocks T0) \/
    (0 <= k /\ base <= p /\ p + 16 <= lo + span T1 /\ p + 16 * k < lo + span T1 /\ T' = T1 ++ (false, n) :: T2)).
  { unfold T'. destruct T1 as [|[u j] T0 _] using rev_ind.
    - right. destruct P as [|? [|??]]; [|done..]. injection HB as <- <-. cbn [app span]. rewrite (coalesce_id _ Hs2). split_and!; done || lia.
    - rewrite blocks_app, span_app in *. apply positive_split in HT1 as (HT0 & Hj & _).
      simpl in Hj. pose proof (span_nonneg T0 HT0). destruct u; cbn [frees span snd] in *.
      + right. rewrite app_nil_r in HB. apply separate_used in Hs1 as [Hs1 _].
        assert (Hin : (p, k) ∈ blocks T0) by (rewrite HB; set_solver).
        rewrite <- app_assoc. cbn [app]. rewrite coalesce_id by (by apply separate_used).
        apply elem_of_cons in Hin as [[= -> ->]|Hin]; [split_and!; done || lia|].
        pose proof (frees_range T0 HT0 _ _ Hin). cbn [fst snd] in *. split_and!; done || lia.
      + left. apply app_inj_tail in HB as [<- [= <- <-]]. by exists T0. }
  destruct Hcases as [(T0 & -> & -> & ->)|(Hk0 & Hp1 & Hp2 & Hp3 & HT')].
  - apply positive_split in HT1 as (HT0 & Hj & _). simpl in Hj. pose proof (span_nonneg T0 HT0).
    rewrite span_app in *. simpl span in *.
    assert (HT' : T' = T0 ++ (false, k + n) :: T2).
    { unfold T'. rewrite <- app_assoc. eapply coalesce_after; [exact Hs1| |done].
      pose proof (coalesce_id _ Hs2) as Ec. cbn [app coalesce] in *. by rewrite Ec. }
    rewrite HT', blocks_app. cbn [frees]. split; [|rewrite map_app; set_solver].
    apply linked_app. split; [done|]. replace (lo + (span T0 + (16 * k + 0))) with (lo + span T0 + 16 * k) in * by lia.
    replace (lo + span T0 + 16 * (k + n)) with (lo + span T0 + 16 * k + 16 * n) by lia.
    apply attach_merge; try done; try lia.
    replace (lo + span T0 + 16 * k + 16 * n) with (lo + span T0 + 16 * (k + n)) by lia. apply frees_after; [done|lia..].
  - rewrite HT', blocks_app, HB. split; [|rewrite !map_app; set_solver]. rewrite <- app_assoc.
    apply linked_app. split; [done|].
    apply (attach_link m p k ((lo + span T1, n) :: frees (lo + span T1 + 16 * n) T2)); try done; try lia.
    + constructor; [simpl; lia|]. eapply Forall_impl; [by apply (frees_after (lo + span T1) n); [..|lia]|].
      intros x Hx. cbn beta in *. lia.
    + simpl. lia.
Qed.

(** *** The place of a block *)

Definition stops (m : memory) (bp p : Z) : bool :=
  let n := s_ptr m p in
  (p <? bp) && (bp <? n) || (n <=? p) && ((p <? bp) || (bp <? n)).

(** Along linked headers where it does not stop, to one where it does. *)
Lemma free_loop_walk s bp tg e : forall l fuel, linked (umem s) (l ++ [tg]) e ->
  Forall (fun x => stops (umem s) bp x.1 = false) l -> stops (umem s) bp (tg.1) = true -> (length l <= fuel)%nat ->
  free_loop fuel bp (first (l ++ [tg]) e) s = Ok (tg.1) s.
Proof.
  intros l fuel Hl Hno Hstop. revert fuel.
  assert (Hstep : forall fuel p, free_loop fuel bp p s = if stops (umem s) bp p then Ok p s else
    match fuel with O => OutOfFuel | S k => free_loop k bp (s_ptr (umem s) p) s end).
  { intros fuel p. unfold stops. destruct fuel; cbn [free_loop]; unfold get_ptr; rewrite bind_gets; cbn beta;
      destruct (_ && _); try done; simpl; by destruct (_ && _). }
  induction Hno as [|x l Hx Hno IH]; intros fuel Hf; rewrite Hstep; simpl first.
  - by rewrite Hstop.
  - rewrite Hx. destruct fuel as [|k]; [simpl in Hf; lia|]. destruct Hl as (-> & _ & Hl). apply IH; [done|simpl in Hf; lia].
Qed.

Lemma frees_length T : positive T -> forall l, 16 * Z.of_nat (length (frees l T)) <= span T.
Proof.
  induction 1 as [|[u n] T Hn HT IH]; intros l; simpl in *; [done|]. specialize (IH (l + 16 * n)).
  destruct u; simpl; lia.
Qed.

Lemma first_app_snoc (P : list (Z * Z)) x Q e e' : first (P ++ x :: Q) e = first (P ++ [x]) e'.
Proof. by destruct P. Qed.

(** In a heap with a gap at [bp], only the last header before it stops the loop. *)
Lemma stops_iff m bp P tg Q : base <= tg.1 -> linked m (P ++ tg :: Q) base ->
  first (P ++ tg :: Q) base = base ->
  (forall P1 x P2, P = P1 ++ x :: P2 -> x.1 < first (P2 ++ [tg]) base) ->
  (forall Q1 x Q2, Q = Q1 ++ x :: Q2 -> x.1 < first Q2 (x.1 + 1)) ->
  Forall (fun x => x.1 < bp) (P ++ [tg]) -> Forall (fun x => bp < x.1) Q -> base < bp ->
  Forall (fun x => stops m bp x.1 = false) P /\ stops m bp (tg.1) = true /\
  Forall (fun x => stops m bp x.1 = false) Q.
Proof.
  intros Htg Hl Hfirst HP HQ HPb HQb Hb. rewrite Forall_app, Forall_singleton in HPb. destruct HPb as [HPb Htb].
  unfold stops. split_and!.
  - apply Forall_forall. intros x [P1 [P2 ->]]%list_elem_of_split. specialize (HP P1 x P2 eq_refl).
    rewrite <- app_assoc in Hl. apply linked_app in Hl as [_ [-> _]].
    rewrite (first_app_snoc P2 tg Q base base). rewrite Forall_app, Forall_cons in HPb.
    destruct HPb as (_ & Hx & HP2). assert (first (P2 ++ [tg]) base < bp) by (by destruct HP2). lia.
  - apply linked_app in Hl as [_ [-> _]]. destruct HQb; simpl; lia.
  - apply Forall_forall. intros x [Q1 [Q2 ->]]%list_elem_of_split. specialize (HQ Q1 x Q2 eq_refl).
    apply linked_app in Hl as [_ [_ [_ Hl]]]. apply linked_app in Hl as [_ [-> _]].
    rewrite Forall_app, Forall_cons in HQb. destruct HQb as [_ [Hx _]]. destruct Q2; simpl in *; lia.
Qed.

Lemma stops_around s T1 n T2 P p k :
  let bp := lo + span T1 in let Q := frees (bp + 16 * n) T2 in
  linked (umem s) (P ++ (p, k) :: Q) base -> blocks T1 = P ++ [(p, k)] ->
  positive T1 -> 1 <= n -> positive T2 -> base + 16 <= lo ->
  Forall (fun x => stops (umem s) bp x.1 = false) P /\ stops (umem s) bp p = true /\
  Forall (fun x => stops (umem s) bp x.1 = false) Q.
Proof.
  intros bp Q Hl HB HT1 Hn HT2 Hlo. pose proof (span_nonneg T1 HT1).
  assert (Hbase : Forall (fun x => base <= x.1 < bp) (P ++ [(p, k)])).
  { rewrite <- HB. constructor; [simpl; lia|]. apply Forall_forall. intros x Hx.
    pose proof (frees_range T1 HT1 _ _ Hx). lia. }
  apply (stops_iff (umem s) bp P (p, k) Q); try done.
  - apply Forall_app in Hbase as [_ Hb]. apply Forall_inv in Hb. simpl in *. lia.
  - change ((p, k) :: Q) with ([(p, k)] ++ Q). by rewrite app_assoc, <- HB.
  - intros P1 x P2 ->. rewrite <- app_assoc in HB. destruct P2 as [|y P2]; simpl first.
    + pose proof (blocks_before T1 (P1 ++ [x]) (p, k) [] HT1 Hlo) as Hp. rewrite <- app_assoc in Hp.
      specialize (Hp HB). apply Forall_app in Hp as [_ Hp]. apply Forall_inv in Hp. simpl in *. lia.
    + pose proof (blocks_before T1 (P1 ++ [x]) y (P2 ++ [(p, k)]) HT1 Hlo) as Hp. rewrite <- app_assoc in Hp.
      specialize (Hp HB). apply Forall_app in Hp as [_ Hp]. apply Forall_inv in Hp. simpl in *. lia.
  - intros Q1 x Q2 HQ. apply frees_split in HQ as (Ta & Tb & -> & _ & _ & ->).
    apply positive_split in HT2 as (_ & Hx & HTb). simpl in Hx.
    destruct (frees (x.1 + 16 * x.2) Tb) as [|y r] eqn:E; simpl; [lia|].
    pose proof (frees_range Tb HTb (x.1 + 16 * x.2) y) as Hy. rewrite E in Hy. specialize (Hy ltac:(left)). lia.
  - eapply Forall_impl; [exact Hbase|]. intros x Hx. cbn beta in Hx. lia.
  - apply Forall_forall. intros x Hx. pose proof (frees_range T2 HT2 _ _ Hx). lia.
  - lia.
Qed.

Lemma free_loop_ok s T1 n T2 : heap_ok s (T1 ++ (true, n) :: T2) ->
  let bp := lo + span T1 in
  exists P p k, blocks T1 = P ++ [(p, k)] /\ free_loop (max_blocks base s) bp (freep s) s = Ok p s.
Proof.
  intros ((HT & _ & Hbrk) & (Hb & Hlo & _) & Hl & _ & Hf) bp.
  pose proof (positive_split _ _ _ HT) as (HT1 & Hn & HT2). simpl in Hn.
  pose proof (span_nonneg T1 HT1). pose proof (span_nonneg T2 HT2).
  destruct (exists_last (l := blocks T1) ltac:(done)) as (P & [p k] & HB). exists P, p, k. split; [done|].
  rewrite blocks_app in Hl, Hf. cbn [frees] in Hl, Hf. fold bp in Hl, Hf. set (Q := frees (bp + 16 * n) T2) in *.
  assert (Hfuel : (length P + length Q <= max_blocks base s)%nat).
  { pose proof (frees_length T1 HT1 lo). pose proof (frees_length T2 HT2 (bp + 16 * n)). fold Q in H2.
    assert (HPl : length P = length (frees lo T1)).
    { apply (f_equal length) in HB. rewrite length_app in HB. simpl in HB. lia. }
    rewrite span_app in Hbrk. simpl in Hbrk. unfold max_blocks, Header. rewrite Hbrk.
    assert (Z.of_nat (length P + length Q) <= (lo + (span T1 + (16 * n + span T2)) - base) / 16);
      [apply Z.div_le_lower_bound; lia|lia]. }
  rewrite HB, <- app_assoc in Hl, Hf. cbn [app] in Hl, Hf.
  destruct (stops_around s T1 n T2 P p k Hl) as (HPs & Hstop & HQs); try done.
  change (frees (lo + span T1 + 16 * n) T2) with Q in HQs.
  rewrite map_app, elem_of_app in Hf. destruct Hf as [Hf|Hf]; [|apply elem_of_cons in Hf as [Hf|Hf]].
  - apply list_elem_of_fmap in Hf as (x & -> & [P1 [P2 HP]]%list_elem_of_split).
    change (x.1) with (first ((x :: P2) ++ [(p, k)]) (first Q base)). subst P.
    apply (free_loop_walk s bp (p, k)); [|by apply Forall_app in HPs as [_ ?]|done|].
    + rewrite <- app_assoc in Hl. by apply (linked_upto _ P1) in Hl.
    + rewrite length_app in Hfuel. simpl in *. lia.
  - rewrite Hf. change p with (first ([] ++ [(p, k)]) (first Q base)) at 1.
    apply (free_loop_walk s bp (p, k)); [by apply (linked_upto _ P [] (p, k)) in Hl|done|done|simpl; lia].
  - apply list_elem_of_fmap in Hf as (x & -> & [Q1 [Q2 HQ]]%list_elem_of_split).
    change (x.1) with (first (((x :: Q2) ++ P) ++ [(p, k)]) (first Q base)).
    apply (free_loop_walk s bp (p, k)); [| |done|].
    + rewrite <- app_assoc. apply linked_app. split; [|by apply (linked_upto _ [] P (p, k)) in Hl].
      replace (first (P ++ [(p, k)]) (first Q base)) with base by (rewrite <- HB; done).
      rewrite HQ in Hl. rewrite app_comm_cons, app_assoc in Hl. by apply linked_app in Hl as [_ ?].
    + apply Forall_app. split; [|done]. rewrite HQ in HQs. by apply Forall_app in HQs as [_ ?].
    + rewrite HQ, length_app in Hfuel. simpl in *. rewrite length_app. lia.
Qed.

(** The bytes in use around a block are outside its header and the previous one. *)
Lemma in_use_apart T1 n T2 P p k a : positive T1 -> 1 <= n -> positive T2 -> base + 16 <= lo ->
  blocks T1 = P ++ [(p, k)] -> in_use lo (T1 ++ (false, n) :: T2) a ->
  Forall (fun h => a < h \/ h + 16 <= a) [lo + span T1; p].
Proof.
  intros HT1 Hn HT2 Hlo HB Hu. pose proof (span_nonneg T1 HT1).
  assert (Hp : p = base \/ (p, k) ∈ frees lo T1 /\ 1 <= k /\ p + 16 * k <= lo + span T1).
  { assert (Hin : (p, k) ∈ blocks T1) by (rewrite HB; set_solver).
    apply elem_of_cons in Hin as [[= -> ->]|Hin]; [by left|right].
    pose proof (frees_range T1 HT1 _ _ Hin). simpl in *. split_and!; done || lia. }
  apply in_use_app in Hu as [Hu|[[? _]|Hu]]; [|done|].
  - pose proof (in_use_range T1 HT1 _ _ Hu). constructor; [lia|constructor; [|done]].
    destruct Hp as [->|(Hp & ? & ?)]; [lia|]. pose proof (in_use_outside T1 a HT1 _ _ Hu Hp). simpl in *. lia.
  - pose proof (in_use_range T2 HT2 _ _ Hu). simpl in *. each.
Qed.

(** The headers after both halves of [free]. *)
Lemma free_memory s T1 n T2 P p k : heap_ok s (T1 ++ (true, n) :: T2) -> blocks T1 = P ++ [(p, k)] ->
  let bp := lo + span T1 in
  let T' := coalesce (T1 ++ (false, n) :: T2) in
  let m' := attach (attach (umem s) bp (s_ptr (umem s) p)) p bp in
  linked m' (blocks T') base /\ p ∈ map fst (blocks T') /\ writes [bp; p] (umem s) m'.
Proof.
  intros ((HT & Hsep & Hbrk) & (Hb & Hlo & Hlim) & Hl & Hsz & _) HB bp T'.
  pose proof (positive_split _ _ _ HT) as (HT1 & Hn & HT2). simpl in Hn.
  pose proof (span_nonneg T1 HT1). pose proof (span_nonneg T2 HT2).
  apply separate_used in Hsep as [Hs1 Hs2]. rewrite span_app in Hbrk. simpl in Hbrk. unfold limit in Hlim.
  apply sizes_app in Hsz as [_ [Hszb _]]. specialize (Hszb eq_refl). simpl in Hszb. fold bp in Hszb.
  rewrite blocks_app, HB in Hl. cbn [frees] in Hl. fold bp in Hl. rewrite <- app_assoc in Hl.
  apply linked_app in Hl as [HlP (Hlp & Hlk & HlQ)]. cbn [fst snd app] in *.
  destruct (attach_next (umem s) bp n T2) as (n' & T2' & Ec & Hl1); try done; try (unfold limit, bp; lia).
  rewrite <- Hlp in Hl1. set (m1 := attach (umem s) bp (s_ptr (umem s) p)) in *.
  assert (Hw1 : writes [bp] (umem s) m1) by apply attach_writes.
  assert (Hbefore : Forall (fun x : Z * Z => Forall (apart x.1) [bp]) (P ++ [(p, k)])).
  { rewrite <- HB. apply before_apart. constructor; [simpl; unfold bp; lia|]. apply Forall_forall. intros x Hx.
    pose proof (frees_range T1 HT1 _ _ Hx). unfold bp. lia. }
  apply Forall_app in Hbefore as [HbP Hbp]. apply Forall_inv in Hbp. cbn [fst] in Hbp.
  destruct (writes_header _ _ _ p Hw1 Hbp) as [_ Hk1]. rewrite Hlk in Hk1.
  assert (Hpos' : positive ((false, n') :: T2')) by (rewrite <- Ec; apply coalesce_positive; by constructor).
  pose proof (coalesce_span ((false, n) :: T2)) as Hspan. rewrite Ec in Hspan. simpl in Hspan.
  inversion Hpos' as [|?? Hn' HT2']. simpl in Hn'.
  destruct (attach_prev m1 p k P n' T1 T2') as [Hl2 Hin2]; try done; try (unfold limit; lia).
  { rewrite <- Ec. apply coalesce_separate. }
  { by eapply writes_linked. }
  replace T' with (coalesce (T1 ++ (false, n') :: T2')) by (unfold T'; rewrite <- Ec; symmetry; apply coalesce_app).
  split_and!; [done|done|]. intros a Ha. rewrite attach_writes by (by inversion_clear Ha). apply Hw1.
  inversion_clear Ha. by constructor.
Qed.

Lemma free_ok s T1 n T2 : heap_ok s (T1 ++ (true, n) :: T2) ->
  let T' := coalesce (T1 ++ (false, n) :: T2) in
  exists s', free base (lo + span T1 + 16) s = Ok tt s' /\ heap_ok s' T' /\ brk s' = brk s /\
    forall a, in_use lo T' a -> umem s' a = umem s a.
Proof.
  intros Hs T'. destruct (free_loop_ok s T1 n T2 Hs) as (P & p & k & HB & Eloop).
  destruct (free_memory s T1 n T2 P p k Hs HB) as (Hl & Hin & Hw). fold T' in Hl, Hin.
  destruct Hs as ((HT & Hsep & Hbrk) & (Hb & Hlo & Hlim) & _ & Hsz & _).
  pose proof (positive_split _ _ _ HT) as (HT1 & Hn & HT2). simpl in Hn.
  pose proof (span_nonneg T1 HT1). pose proof (span_nonneg T2 HT2).
  rewrite span_app in Hbrk. simpl in Hbrk. unfold limit in Hlim. set (bp := lo + span T1) in *.
  set (m' := attach _ p bp) in *.
  assert (Hkeep : forall a, in_use lo T' a -> Forall (fun h => a < h \/ h + 16 <= a) [bp; p]).
  { intros a Hu. apply (proj1 (coalesce_in_use _ _ _)) in Hu.
    exact (in_use_apart T1 n T2 P p k a HT1 Hn HT2 Hlo HB Hu). }
  assert (HT' : positive T').
  { apply coalesce_positive. apply Forall_app. split; [done|]. by constructor. }
  exists (set_freep p (set_umem m' s)). split_and!; [|split_and!; try done|done|intros a Hu; by apply Hw, Hkeep].
  - unfold free. replace (u64 _) with bp by (unfold Header; rewrite u64_small; unfold bp; lia).
    rewrite !bind_gets. cbn beta. rewrite (bind_ok _ _ _ _ _ Eloop).
    rewrite (bind_ok _ _ _ _ _ (join_next_eq bp p s)). by rewrite (bind_ok _ _ _ _ _ (join_prev_eq bp p _)).
  - apply coalesce_separate.
  - simpl. rewrite Hbrk. unfold T'. rewrite coalesce_span, span_app. done.
  - eapply (writes_sizes [bp; p]); [done|exact Hw|exact Hkeep|].
    apply coalesce_sizes, sizes_app. by apply sizes_app in Hsz as [? [_ ?]].
Qed.

(** ** malloc *)

Lemma take_block_eq nunits prevp p s :
  let m := umem s in
  take_block nunits prevp p s =
  if s_size m p =? nunits then Ok (hadd p 1) (set_freep prevp (set_umem (storeZ 8 m prevp (s_ptr m p)) s))
  else
    let m1 := storeZ 4 m (p + 8) (u32 (s_size m p - nunits)) in
    let p' := hadd p (s_size m1 p) in
    Ok (hadd p' 1) (set_freep prevp (set_umem (storeZ 4 m1 (p' + 8) nunits) s)).
Proof. unfold take_block, get_size. rewrite bind_gets. cbn beta zeta. by destruct (_ =? _). Qed.

(** The header that points to a free block is the one before it. *)
Lemma blocks_pred m T1 k T2 prevp : positive (T1 ++ (false, k) :: T2) -> 0 < base -> base + 16 <= lo ->
  linked m (blocks (T1 ++ (false, k) :: T2)) base -> prevp ∈ map fst (blocks (T1 ++ (false, k) :: T2)) ->
  s_ptr m prevp = lo + span T1 -> exists A kx, blocks T1 = A ++ [(prevp, kx)].
Proof.
  intros HT Hb Hlo Hl (x & -> & [A [C HB]]%list_elem_of_split)%list_elem_of_fmap Hp.
  pose proof (positive_split _ _ _ HT) as (HT1 & _ & _). pose proof (span_nonneg T1 HT1).
  rewrite HB in Hl. apply linked_app in Hl as [_ [Hx _]]. rewrite Hp in Hx.
  destruct C as [|y C]; simpl in Hx; [lia|]. exists A, (x.2). destruct x as [px kx]. simpl.
  pose proof (blocks_app T1 ((false, k) :: T2)) as HB'. cbn [frees] in HB'.
  change ((px, kx) :: y :: C) with ([(px, kx)] ++ y :: C) in HB. rewrite app_assoc in HB.
  pose proof (blocks_before _ _ _ _ HT Hlo HB) as H1. pose proof (blocks_before _ _ _ _ HT Hlo HB') as H2.
  rewrite HB in HB'. destruct (Nat.lt_trichotomy (length (A ++ [(px, kx)])) (length (blocks T1))) as [Hlt|[Heq|Hlt]].
  - assert (Hy : blocks T1 !! length (A ++ [(px, kx)]) = Some y).
    { erewrite <- (lookup_app_l (blocks T1)) by done. rewrite <- HB'. by apply list_lookup_middle. }
    rewrite Forall_lookup in H2. specialize (H2 _ _ Hy). simpl in *. lia.
  - by apply app_inj_1 in HB' as [<- _].
  - assert (Hy : (A ++ [(px, kx)]) !! length (blocks T1) = Some (lo + span T1, k)).
    { erewrite <- (lookup_app_l (A ++ _)) by done. rewrite HB'. by apply list_lookup_middle. }
    rewrite Forall_lookup in H1. specialize (H1 _ _ Hy). simpl in *. lia.
Qed.

(** Bytes in use are outside the header of every block of the list. *)
Lemma in_use_header T h a : positive T -> base + 16 <= lo -> h ∈ map fst (blocks T) -> in_use lo T a ->
  a < h \/ h + 16 <= a.
Proof.
  intros HT Hlo (x & -> & Hx)%list_elem_of_fmap Hu. apply elem_of_cons in Hx as [->|Hx].
  - apply in_use_range in Hu; [simpl; lia|done].
  - pose proof (in_use_outside T a HT _ _ Hu Hx). pose proof (frees_range T HT _ _ Hx). lia.
Qed.
(** A whole free block becomes a block in use. *)
Lemma unlink_ok s T1 k T2 prevp : heap_ok s (T1 ++ (false, k) :: T2) ->
  prevp ∈ map fst (blocks (T1 ++ (false, k) :: T2)) -> s_ptr (umem s) prevp = lo + span T1 ->
  let m' := storeZ 8 (umem s) prevp (s_ptr (umem s) (lo + span T1)) in
  heap_ok (set_freep prevp (set_umem m' s)) (T1 ++ (true, k) :: T2) /\ writes [prevp] (umem s) m'.
Proof.
  intros ((HT & Hsep & Hbrk) & (Hb & Hlo & Hlim) & Hl & Hsz & _) Hprev Hptr m'.
  destruct (blocks_pred _ _ _ _ _ HT Hb Hlo Hl Hprev Hptr) as (A & kx & HB).
  pose proof (positive_split _ _ _ HT) as (HT1 & Hk & HT2). simpl in Hk.
  pose proof (span_nonneg T1 HT1). pose proof (span_nonneg T2 HT2). unfold limit in Hlim.
  rewrite span_app in Hbrk. simpl in Hbrk.
  assert (Hw : writes [prevp] (umem s) m') by (by apply writes_ptr; [|left]). split; [|done].
  assert (HTu : positive (T1 ++ (true, k) :: T2)) by (apply Forall_app; split; [done|by constructor]).
  assert (HB' : blocks (T1 ++ (true, k) :: T2) = A ++ (prevp, kx) :: frees (lo + span T1 + 16 * k) T2).
  { rewrite blocks_app, HB, <- app_assoc. done. }
  rewrite blocks_app in Hl. cbn [frees] in Hl. rewrite HB, <- app_assoc in Hl. cbn [app] in Hl.
  apply linked_app in Hl as [HlA (_ & Hlx & (Hlp & Hlk & HlR))]. cbn [fst snd] in *.
  set (R := frees (lo + span T1 + 16 * k) T2) in *.
  assert (Hpx : base <= prevp /\ prevp + 16 <= lo + span T1).
  { assert (Hin : (prevp, kx) ∈ blocks T1) by (rewrite HB; set_solver).
    apply elem_of_cons in Hin as [[= -> ->]|Hin]; [lia|]. pose proof (frees_range T1 HT1 _ _ Hin). simpl in *. lia. }
  assert (HR : after prevp 0 R).
  { eapply Forall_impl; [apply (frees_after (lo + span T1) k T2); [done|lia|lia]|]. intros x Hx. cbn beta in *. lia. }
  split_and!; try done.
  - by apply separate_used, (separate_around _ k).
  - simpl. rewrite span_app. simpl. lia.
  - rewrite HB'. apply linked_app. simpl. split_and!.
    + eapply writes_linked; [exact Hw|by apply before_apart, (blocks_before T1 A (prevp, kx) [])|exact HlA].
    + unfold m'. rewrite Hlp, ptr_set_ptr; [done|]. destruct HR; simpl; lia.
    + unfold m'. by rewrite size_set_ptr by (by left).
    + eapply writes_linked; [exact Hw|by eapply after_apart|exact HlR].
  - pose proof Hsz as [Hsz1 [_ Hsz2]]%sizes_app.
    assert (Hkeep : forall a, in_use lo (T1 ++ (false, k) :: T2) a -> Forall (fun h => a < h \/ h + 16 <= a) [prevp]).
    { intros a Hu. constructor; [exact (in_use_header _ prevp a HT Hlo Hprev Hu)|done]. }
    apply sizes_app. simpl. split_and!.
    + eapply writes_sizes; [done|exact Hw| |done]. intros a Hu. apply Hkeep, in_use_app. by left.
    + intros _. unfold m'. rewrite size_set_ptr by (right; left; lia). done.
    + eapply writes_sizes; [done|exact Hw| |done]. intros a Hu. apply Hkeep, in_use_app. by right; right.
  - cbn [freep set_freep]. rewrite HB', map_app. set_solver.
Qed.

(** The end of a free block becomes a block in use. *)
Lemma split_ok s T1 k n T2 prevp : heap_ok s (T1 ++ (false, k) :: T2) -> 1 <= n < k ->
  prevp ∈ map fst (blocks (T1 ++ (false, k) :: T2)) ->
  let p := lo + span T1 in let p' := p + 16 * (k - n) in
  let m' := storeZ 4 (storeZ 4 (umem s) (p + 8) (k - n)) (p' + 8) n in
  heap_ok (set_freep prevp (set_umem m' s)) (T1 ++ (false, k - n) :: (true, n) :: T2) /\ writes [p; p'] (umem s) m'.
Proof.
  intros ((HT & Hsep & Hbrk) & (Hb & Hlo & Hlim) & Hl & Hsz & _) Hn Hprev p p' m'.
  pose proof (positive_split _ _ _ HT) as (HT1 & Hk & HT2). simpl in Hk.
  pose proof (span_nonneg T1 HT1). pose proof (span_nonneg T2 HT2). unfold limit in Hlim.
  rewrite span_app in Hbrk. simpl in Hbrk.
  assert (Hw : writes [p; p'] (umem s) m').
  { apply writes_size; [|right; left]. by apply writes_size; [|left]. }
  split; [|done].
  assert (HB' : blocks (T1 ++ (false, k - n) :: (true, n) :: T2) = blocks T1 ++ (p, k - n) :: frees (p + 16 * k) T2).
  { rewrite blocks_app. cbn [frees]. fold p. do 3 f_equal. lia. }
  rewrite blocks_app in Hl, Hprev. cbn [frees] in Hl, Hprev. fold p in Hl, Hprev. set (R := frees (p + 16 * k) T2) in *.
  pose proof (blocks_before (T1 ++ (false, k) :: T2) (blocks T1) (p, k) R HT Hlo ltac:(rewrite blocks_app; done)) as Hbef.
  apply linked_app in Hl as [Hl1 (Hlp & Hlk & HlR)]. cbn [fst snd] in *.
  assert (HR : after p k R) by (apply frees_after; [done|lia|unfold p; lia]).
  assert (Hkeep : forall a, in_use lo (T1 ++ (false, k) :: T2) a -> Forall (fun h => a < h \/ h + 16 <= a) [p; p']).
  { intros a Hu. assert (a < p \/ p + 16 * k <= a); [|unfold p'; each].
    apply (in_use_outside _ _ HT lo (p, k) Hu). rewrite frees_app. set_solver. }
  split_and!; try done.
  - apply Forall_app. split; [done|]. constructor; [simpl; lia|]. by constructor; [simpl; lia|].
  - by apply (separate_carve _ k).
  - simpl. rewrite span_app. simpl. lia.
  - rewrite HB'. apply linked_app. split; [|cbn [linked fst snd umem set_umem set_freep]; split_and!].
    + eapply writes_linked; [exact Hw| |exact Hl1]. eapply Forall_impl; [exact Hbef|]. intros x Hx. cbn beta in Hx.
      unfold p'; each.
    + unfold m'. by rewrite ptr_set_size by (right; unfold apart, p'; lia); rewrite ptr_set_size by (by left).
    + unfold m'. rewrite size_set_size_ne by (unfold apart, p'; lia). rewrite size_set_size; [done|].
      unfold p in *. lia.
    + eapply writes_linked; [exact Hw| |exact HlR]. eapply Forall_impl; [exact HR|]. intros x Hx. cbn beta in Hx.
      unfold p'. each.
  - pose proof Hsz as [Hsz1 [_ Hsz2]]%sizes_app. simpl in Hsz2. apply sizes_app. fold p in Hsz2 |- *. simpl. split_and!.
    + eapply writes_sizes; [done|exact Hw| |done]. intros a Hu. apply Hkeep, in_use_app. by left.
    + done.
    + intros _. unfold m', p'. apply size_set_size. unfold p in *. lia.
    + replace (p + 16 * (k - n) + 16 * n) with (p + 16 * k) by lia.
      eapply writes_sizes; [done|exact Hw| |done]. intros a Hu. apply Hkeep, in_use_app. by right; right.
  - cbn [freep set_freep]. rewrite HB'. rewrite !map_app in *. set_solver.
Qed.

(** [take_block] on a free block that is large enough. *)
Lemma take_block_ok s T1 k n T2 prevp : heap_ok s (T1 ++ (false, k) :: T2) -> 1 <= n <= k ->
  prevp ∈ map fst (blocks (T1 ++ (false, k) :: T2)) -> s_ptr (umem s) prevp = lo + span T1 ->
  exists s', take_block n prevp (lo + span T1) s = Ok (lo + span T1 + 16 * (k - n) + 16) s' /\
    heap_ok s' (carve T1 k n T2) /\ brk s' = brk s /\
    forall a, in_use lo (T1 ++ (false, k) :: T2) a -> umem s' a = umem s a.
Proof.
  intros Hs Hn Hprev Hptr. pose proof Hs as ((HT & Hsep & Hbrk) & (Hb & Hlo & Hlim) & Hl & Hsz & _).
  pose proof (positive_split _ _ _ HT) as (HT1 & Hk & HT2).
  pose proof (span_nonneg T1 HT1). pose proof (span_nonneg T2 HT2). unfold limit in Hlim.
  rewrite span_app in Hbrk. simpl in Hbrk.
  assert (Hsize : s_size (umem s) (lo + span T1) = k).
  { rewrite blocks_app in Hl. apply linked_app in Hl as [_ [_ [? _]]]. done. }
  rewrite take_block_eq. cbn zeta. rewrite Hsize. unfold carve. destruct (Z.eqb_spec k n) as [<-|Hne].
  - destruct (unlink_ok s T1 k T2 prevp Hs Hprev Hptr) as [Hs' Hw].
    eexists. split; [rewrite hadd_small by lia; do 2 f_equal; lia|]. split_and!; [exact Hs'|done|].
    intros a Hu. apply Hw. constructor; [exact (in_use_header _ prevp a HT Hlo Hprev Hu)|done].
  - destruct (split_ok s T1 k n T2 prevp Hs ltac:(lia) Hprev) as [Hs' Hw].
    rewrite u32_small by lia. rewrite size_set_size by lia. rewrite !hadd_small by (rewrite ?hadd_small; lia).
    eexists. split; [do 2 f_equal; lia|]. split_and!; [exact Hs'|done|]. intros a Hu. apply Hw.
    assert (a < lo + span T1 \/ lo + span T1 + 16 * k <= a); [|each].
    apply (in_use_outside _ _ HT lo (lo + span T1, k) Hu). rewrite frees_app. set_solver.
Qed.
(** *** The search *)

Context (grow : Z -> Z -> bool).

(** The end of the search: grow the heap and search again. *)
Definition grow_then (fuel : nat) (nunits : Z) : U Z :=
  q <- morecore base grow nunits ;;
  if q =? 0 then ret 0
  else
    match fuel with
    | O => out_of_fuel
    | S k => n <- get_ptr q ;; malloc_loop base grow k nunits q n
    end.

Lemma malloc_loop_step fuel nunits prevp p s :
  malloc_loop base grow fuel nunits prevp p s =
  if nunits <=? s_size (umem s) p then take_block nunits prevp p s
  else if p =? freep s then grow_then fuel nunits s
  else match fuel with O => OutOfFuel | S k => malloc_loop base grow k nunits p (s_ptr (umem s) p) s end.
Proof.
  destruct fuel; cbn [malloc_loop]; unfold get_size; rewrite bind_gets; cbn beta; destruct (_ <=? _); try done;
    rewrite bind_gets; cbn beta; destruct (_ =? _); try done; unfold grow_then; rewrite bind_assoc;
    (apply bind_cong; [done|]); intros q s'; rewrite bind_ret; by destruct (q =? 0).
Qed.

(** A free block that is large enough, with a header that points to it. *)
Definition found (s : uheap) (T : list tile) (n : Z) (o : outcome uheap Z) : Prop :=
  exists T1 k T2 prevp, T = T1 ++ (false, k) :: T2 /\ n <= k /\ prevp ∈ map fst (blocks T) /\
    s_ptr (umem s) prevp = lo + span T1 /\ o = take_block n prevp (lo + span T1) s.

Lemma malloc_walk s T n e f : heap_ok s T -> 1 <= n -> f.1 = freep s -> forall l fuel prevp,
  linked (umem s) (l ++ [f]) e -> Forall (fun x => x.1 <> freep s) l -> l ++ [f] ⊆ blocks T ->
  prevp ∈ map fst (blocks T) -> s_ptr (umem s) prevp = first (l ++ [f]) e -> (length l <= fuel)%nat ->
  let o := malloc_loop base grow fuel n prevp (first (l ++ [f]) e) s in
  found s T n o \/
  Forall (fun x => x.2 < n) (l ++ [f]) /\ o = grow_then (fuel - length l) n s.
Proof.
  intros Hs Hn Hf. pose proof Hs as (_ & _ & Hl & _).
  assert (Htake : forall x prevp, x ∈ blocks T -> n <= x.2 -> prevp ∈ map fst (blocks T) ->
    s_ptr (umem s) prevp = x.1 -> found s T n (take_block n prevp (x.1) s)).
  { intros x prevp Hx Hxn Hp Hptr. apply elem_of_cons in Hx as [->|Hx]; [simpl in Hxn; lia|].
    apply list_elem_of_split in Hx as (P & Q & HE). apply frees_split in HE as (T1 & T2 & HT & _ & Hx & _).
    exists T1, (x.2), T2, prevp. rewrite <- Hx. done. }
  induction l as [|x l IH]; intros fuel prevp Hlk Hno Hsub Hp Hptr Hfuel o; unfold o;
    rewrite malloc_loop_step; cbn [app first] in *.
  - destruct Hlk as (_ & Hsz & _). rewrite Hsz. destruct (Z.leb_spec n (f.2)).
    + left. apply Htake; try done. set_solver.
    + right. rewrite Hf, Z.eqb_refl, Nat.sub_0_r. split; [by each|done].
  - destruct Hlk as (Hnx & Hsz & Hlk). rewrite Hsz. inversion_clear Hno as [|?? Hx Hno'].
    destruct (Z.leb_spec n (x.2)).
    + left. apply Htake; try done. set_solver.
    + rewrite (proj2 (Z.eqb_neq _ _) Hx). destruct fuel as [|k]; [simpl in Hfuel; lia|]. rewrite Hnx.
      destruct (IH k (x.1) Hlk Hno') as [Hfound|[Hall HE]].
      * set_solver.
      * apply list_elem_of_fmap. exists x. set_solver.
      * done.
      * simpl in Hfuel. lia.
      * by left.
      * right. split; [by constructor|done].
Qed.

Definition fits (T : list tile) (n : Z) : bool := existsb (fun x => negb x.1 && (n <=? x.2)) T.

(** The search from [freep]: it finds a block exactly if there is one. *)
Lemma malloc_search s T n fuel : heap_ok s T -> 1 <= n -> (length (frees lo T) <= fuel)%nat ->
  let o := malloc_loop base grow fuel n (freep s) (s_ptr (umem s) (freep s)) s in
  if fits T n then found s T n o
  else exists k, (fuel <= k + length (frees lo T))%nat /\ o = grow_then k n s.
Proof.
  intros Hs Hn Hfuel o. pose proof Hs as ((HT & _) & (Hb & Hlo & _) & Hl & _ & Hf).
  apply list_elem_of_fmap in Hf as (f & Hf & [A [C HB]]%list_elem_of_split).
  assert (Hhead : forall e, first (A ++ [f]) e = base).
  { intros e. erewrite <- (first_app_snoc A f C base), <- HB. done. }
  assert (Hlen : length (C ++ A) = length (frees lo T)).
  { apply (f_equal length) in HB. rewrite !length_app in *. simpl in HB. lia. }
  rewrite HB in Hl. pose proof (linked_upto _ [] A f C base Hl) as HlA. apply linked_app in Hl as [_ (Hlf & _ & HlC)].
  assert (Hptr : s_ptr (umem s) (freep s) = first ((C ++ A) ++ [f]) (first C base)).
  { rewrite Hf, Hlf, <- app_assoc. destruct C; simpl; [by rewrite Hhead|done]. }
  unfold o. clear o. rewrite Hptr.
  destruct (malloc_walk s T n (first C base) f Hs Hn (eq_sym Hf) (C ++ A) fuel (freep s)) as [Hfound|[Hnone HE]]; try done.
  - rewrite <- app_assoc. apply linked_app. by rewrite Hhead.
  - rewrite Hf. apply Forall_app. split; apply Forall_forall; intros x Hx.
    + apply list_elem_of_split in Hx as (C1 & C2 & ->). rewrite app_comm_cons, app_assoc in HB.
      pose proof (blocks_before _ _ _ _ HT Hlo HB) as Hbef. apply Forall_app in Hbef as [_ Hbef].
      apply Forall_inv in Hbef. lia.
    + pose proof (blocks_before _ _ _ _ HT Hlo HB) as Hbef. rewrite Forall_forall in Hbef. specialize (Hbef x Hx). simpl in *. lia.
  - rewrite HB. set_solver.
  - rewrite Hf, HB, map_app. set_solver.
  - lia.
  - replace (fits T n) with true; [done|]. destruct Hfound as (T1 & k & T2 & _ & -> & Hk & _).
    unfold fits. rewrite existsb_app. simpl. rewrite (proj2 (Z.leb_le _ _) Hk). by rewrite orb_true_r.
  - destruct (fits T n) eqn:E; [|exists (fuel - length (C ++ A))%nat; split; [lia|done]]. exfalso.
    apply existsb_exists in E as ([u k] & Hin & [Hu Hk]%andb_true_iff). destruct u; [done|]. simpl in Hk.
    apply list_elem_of_In, list_elem_of_split in Hin as (T1 & T2 & ->).
    assert (Hin : (lo + span T1, k) ∈ (C ++ A) ++ [f]).
    { assert (Hin : (lo + span T1, k) ∈ A ++ f :: C) by (rewrite <- HB, blocks_app; set_solver). set_solver. }
    rewrite Forall_forall in Hnone. specialize (Hnone _ Hin). simpl in *. lia.
Qed.
(** *** Growing the heap *)

(** The kernel keeps the memory of a process below [limit]. *)
Hypothesis Hgrow : forall b n, grow b n = true -> b + n < limit.

(** The number of units that [morecore] asks for. *)
Definition core_units (n : Z) : Z := if n <? 4096 then 4096 else n.

Lemma sbrk_ok s T nu : heap_ok s T -> 1 <= nu -> grow (brk s) (nu * Header) = true ->
  let s1 := {| umem := storeZ 4 (umem s) (brk s + 8) nu; freep := freep s; brk := brk s + nu * Header |} in
  heap_ok s1 (T ++ [(true, nu)]) /\ forall a, in_use lo T a -> umem s1 a = umem s a.
Proof.
  intros ((HT & Hsep & Hbrk) & (Hb & Hlo & Hlim) & Hl & Hsz & Hf) Hnu Hg s1. apply Hgrow in Hg.
  unfold limit, Header in *. pose proof (span_nonneg T HT).
  assert (Hw : writes [brk s] (umem s) (umem s1)) by (by apply writes_size; [|left]).
  assert (Hkeep : forall a, in_use lo T a -> Forall (fun h => a < h \/ h + 16 <= a) [brk s]).
  { intros a Hu. pose proof (in_use_range T HT _ _ Hu). each. }
  split; [|intros a Hu; by apply Hw, Hkeep]. split_and!; try done.
  - apply Forall_app. split; [done|]. by constructor.
  - by apply separate_used.
  - simpl. rewrite span_app. simpl. unfold Header. lia.
  - rewrite blocks_app. simpl frees. rewrite app_nil_r. eapply writes_linked; [exact Hw| |exact Hl].
    constructor; [each|]. apply Forall_forall. intros x Hx. pose proof (frees_range T HT _ _ Hx). each.
  - apply sizes_app. simpl. split_and!; [by eapply writes_sizes| |done]. intros _. rewrite <- Hbrk.
    apply size_set_size. lia.
  - rewrite blocks_app. simpl frees. by rewrite app_nil_r.
Qed.

Lemma morecore_ok s T n : heap_ok s T -> 1 <= n -> let nu := core_units n in
  if grow (brk s) (nu * Header) then
    exists s', morecore base grow n s = Ok (freep s') s' /\ heap_ok s' (coalesce (T ++ [(false, nu)])) /\
      (forall a, in_use lo T a -> umem s' a = umem s a)
  else morecore base grow n s = Ok 0 s.
Proof.
  intros Hs Hn nu. assert (Hnu : 1 <= nu) by (unfold nu, core_units; destruct (n <? 4096); lia).
  pose proof Hs as ((HT & _ & Hbrk) & (Hb & Hlo & Hlim) & _). pose proof (span_nonneg T HT). unfold limit in Hlim.
  unfold morecore, sbrk. fold (core_units n). fold nu. rewrite bind_assoc, bind_gets. cbn beta.
  destruct (grow (brk s) (nu * Header)) eqn:Eg; [|done].
  destruct (sbrk_ok s T nu Hs Hnu Eg) as [Hs1 Hk1]. destruct (free_ok _ _ _ _ Hs1) as (s' & Ef & Hs' & _ & Hk').
  exists s'. rewrite bind_assoc, bind_modify, bind_ret. rewrite (proj2 (Z.eqb_neq _ _)) by (change (u64 (-1)) with (2 ^ 64 - 1); lia).
  unfold set_size. rewrite bind_modify. rewrite hadd_small by lia.
  replace (brk s + 16 * 1) with (lo + span T + 16) by lia.
  split_and!; [|done|].
  - by rewrite (bind_ok _ _ _ _ _ Ef).
  - intros a Hu. rewrite Hk', Hk1; [done..|]. apply coalesce_in_use, in_use_app. by left.
Qed.

(** The new units are in the last block, which is large enough. *)
Lemma grown_fits T n nu : positive T -> n <= nu -> fits (coalesce (T ++ [(false, nu)])) n = true.
Proof.
  intros HT Hn. assert (Hlast : exists T0 k, coalesce (T ++ [(false, nu)]) = T0 ++ [(false, k)] /\ nu <= k).
  { induction HT as [|[u j] T Hj HT (T0 & k & IH & Hk)]; [by exists [], nu|]. simpl in *. rewrite IH. destruct u.
    - by exists ((true, j) :: T0), k.
    - destruct T0 as [|[[|] i] T0]; [exists [], (j + k); split; [done|lia]|by exists ((false, j) :: (true, i) :: T0), k|].
      by exists ((false, j + i) :: T0), k. }
  destruct Hlast as (T0 & k & -> & Hk). unfold fits. rewrite existsb_app. simpl.
  rewrite (proj2 (Z.leb_le n k)) by lia. by rewrite !orb_true_r.
Qed.

Lemma grown_length T nu : (length (frees lo (coalesce (T ++ [(false, nu)]))) <= length (frees lo T) + 1)%nat.
Proof.
  assert (H : forall T l, (length (frees l (coalesce T)) <= length (frees l T))%nat).
  { clear. induction T as [|[u n] T IH]; intros l; [done|]. specialize (IH (l + 16 * n)). simpl. destruct u; [done|].
    destruct (coalesce T) as [|[[|] k] T']; simpl in *; [lia..|].
    replace (l + 16 * (n + k)) with (l + 16 * n + 16 * k) by lia. lia. }
  etrans; [apply H|]. rewrite frees_app, length_app. done.
Qed.

(** What an allocation of [n] units that answers [r] makes of the heap [T]. *)
Definition allocated (T : list tile) (n r : Z) (s' : uheap) : Prop :=
  exists T1 k T2, T = T1 ++ (false, k) :: T2 /\ n <= k /\ r = lo + span T1 + 16 * (k - n) + 16 /\
    heap_ok s' (carve T1 k n T2).

Lemma found_ok s T n o : heap_ok s T -> 1 <= n -> found s T n o -> exists r s', o = Ok r s' /\
  allocated T n r s' /\ forall a, in_use lo T a -> umem s' a = umem s a.
Proof.
  intros Hs Hn (T1 & k & T2 & prevp & -> & Hk & Hp & Hptr & ->).
  destruct (take_block_ok s T1 k n T2 prevp Hs ltac:(lia) Hp Hptr) as (s' & E & Hs' & _ & Hkeep).
  eexists _, s'. split_and!; [exact E| |done]. by exists T1, k, T2.
Qed.

(** The heap before its first use, and later. *)
Definition ready (s : uheap) (T : list tile) : Prop :=
  heap_ok s T \/ freep s = 0 /\ T = [] /\ brk s = lo /\ 0 < base /\ base + 16 <= lo /\ brk s < limit.

Lemma ready_start s T : ready s T -> exists s1, heap_ok s1 T /\ brk s1 = brk s /\
  (forall a, in_use lo T a -> umem s1 a = umem s a) /\
  forall nbytes, malloc base grow nbytes s = malloc base grow nbytes s1.
Proof.
  intros [Hs|(Hf & -> & Hbrk & Hb & Hlo & Hlim)]; [by exists s|].
  set (m := storeZ 4 (storeZ 8 (umem s) base base) (base + 8) 0). unfold limit in Hlim.
  exists {| umem := m; freep := base; brk := brk s |}. split_and!; [|done|done|].
  - split_and!; try done; [apply Forall_nil_2|simpl; lia| |by left].
    simpl. unfold m. rewrite ptr_set_size by (by left). rewrite ptr_set_ptr by lia. by rewrite size_set_size by lia.
  - intros nbytes. unfold malloc. rewrite !bind_gets. cbn [freep]. rewrite Hf, Z.eqb_refl.
    by rewrite (proj2 (Z.eqb_neq base 0)) by lia.
Qed.

Lemma malloc_loop_ok s T n fuel : heap_ok s T -> 1 <= n -> (2 * length (frees lo T) + 3 <= fuel)%nat ->
  let nu := core_units n in
  exists r s', malloc_loop base grow fuel n (freep s) (s_ptr (umem s) (freep s)) s = Ok r s' /\
    (forall a, in_use lo T a -> umem s' a = umem s a) /\
    if fits T n then allocated T n r s'
    else if grow (brk s) (nu * Header) then allocated (coalesce (T ++ [(false, nu)])) n r s'
    else r = 0 /\ s' = s.
Proof.
  intros Hs Hn Hfuel nu. pose proof (malloc_search s T n fuel Hs Hn ltac:(lia)) as Hsearch. cbn zeta in Hsearch.
  destruct (fits T n).
  { destruct (found_ok s T n _ Hs Hn Hsearch) as (r & s' & -> & ? & ?). by exists r, s'. }
  destruct Hsearch as (k & Hk & ->). unfold grow_then. pose proof (morecore_ok s T n Hs Hn) as Hmore. cbn zeta in Hmore.
  fold nu in Hmore. destruct (grow (brk s) (nu * Header)).
  2: { rewrite (bind_ok _ _ _ _ _ Hmore). by exists 0, s. }
  destruct Hmore as (s1 & E1 & Hs1 & Hk1). rewrite (bind_ok _ _ _ _ _ E1).
  set (T' := coalesce (T ++ [(false, nu)])) in *.
  pose proof Hs as ((HT & _) & _). pose proof Hs1 as ((HT' & _) & (Hb & Hlo & _) & _ & _ & Hf).
  assert (Hf0 : freep s1 <> 0).
  { apply list_elem_of_fmap in Hf as (x & -> & [->|Hx]%elem_of_cons); [simpl; lia|].
    pose proof (frees_range T' HT' _ _ Hx). lia. }
  rewrite (proj2 (Z.eqb_neq _ _) Hf0).
  assert (Hlen : (length (frees lo T') <= length (frees lo T) + 1)%nat) by apply grown_length.
  destruct k as [|k]; [lia|]. unfold get_ptr. rewrite bind_gets. cbn beta.
  pose proof (malloc_search s1 T' n k Hs1 Hn ltac:(lia)) as Hsearch. cbn zeta in Hsearch.
  unfold T' in Hsearch at 1. rewrite grown_fits in Hsearch; [|done|unfold nu, core_units; destruct (Z.ltb_spec n 4096); lia].
  destruct (found_ok s1 T' n _ Hs1 Hn Hsearch) as (r & s' & -> & Ha & Hkeep). exists r, s'. split_and!; [done| |done].
  intros a Hu. rewrite Hkeep, Hk1; [done..|]. apply coalesce_in_use, in_use_app. by left.
Qed.

Lemma malloc_ok s T nbytes : ready s T -> 0 <= nbytes < 2 ^ 32 ->
  let n := (nbytes + 15) / 16 + 1 in
  let nu := core_units n in
  exists r s', malloc base grow nbytes s = Ok r s' /\
    (forall a, in_use lo T a -> umem s' a = umem s a) /\
    if fits T n then allocated T n r s'
    else if grow (brk s) (nu * Header) then allocated (coalesce (T ++ [(false, nu)])) n r s'
    else r = 0 /\ heap_ok s' T.
Proof.
  intros Hready Hnb n nu. destruct (ready_start s T Hready) as (s1 & Hs1 & Hbrk & Hkeep & ->). rewrite <- Hbrk.
  pose proof Hs1 as ((HT & _ & Hb1) & (Hb & Hlo & Hlim) & _ & _ & Hf).
  assert (Hn : 1 <= n < 2 ^ 32).
  { unfold n. pose proof (Z.div_pos (nbytes + 15) 16). pose proof (Z.div_le_upper_bound (nbytes + 15) 16 (2 ^ 31)). lia. }
  assert (Hf0 : freep s1 <> 0).
  { apply list_elem_of_fmap in Hf as (x & -> & [->|Hx]%elem_of_cons); [simpl; lia|].
    pose proof (frees_range T HT _ _ Hx). lia. }
  assert (Hfuel : (2 * length (frees lo T) + 3 <= 2 * max_blocks base s1 + 4)%nat).
  { pose proof (frees_length T HT lo). unfold max_blocks, Header. rewrite Hb1.
    assert (Z.of_nat (length (frees lo T)) <= (lo + span T - base) / 16); [apply Z.div_le_lower_bound; lia|lia]. }
  destruct (malloc_loop_ok s1 T n _ Hs1 ltac:(lia) Hfuel) as (r & s' & E & Hk & Hres).
  exists r, s'. split_and!.
  - unfold malloc. replace (u32 _) with n by (unfold Header; rewrite u32_small by (replace (nbytes + 16 - 1) with (nbytes + 15) by lia; fold n; lia);
      unfold n; do 2 f_equal; lia).
    rewrite bind_gets. cbn beta. rewrite (proj2 (Z.eqb_neq _ _) Hf0), bind_ret, bind_gets. cbn beta.
    unfold get_ptr. rewrite bind_gets. exact E.
  - intros a Hu. by rewrite Hk, Hkeep.
  - destruct (fits T n); [done|]. fold nu in Hres. destruct (grow _ _); [done|]. destruct Hres as [-> ->]. by split.
Qed.

(** C18: the allocator refines a heap of tiles, each free or in use.  [malloc]
    takes the units it needs from the end of a free block, or uses up the block.
    If no free block is large enough it asks the kernel for at least 4096 units,
    and takes them from the last block of the grown heap; if the kernel refuses
    it answers 0.  [free] of a block in use releases it and merges it with its
    free neighbours, whatever the place where the search starts.  Both end, the
    list stays sorted, complete and linked, and no byte of another block in use
    changes. *)
Theorem umalloc_refines s T : ready s T ->
  (forall nbytes, 0 <= nbytes < 2 ^ 32 ->
     let n := (nbytes + 15) / 16 + 1 in
     let nu := core_units n in
     exists r s', malloc base grow nbytes s = Ok r s' /\
       (forall a, in_use lo T a -> umem s' a = umem s a) /\
       if fits T n then allocated T n r s'
       else if grow (brk s) (nu * Header) then allocated (coalesce (T ++ [(false, nu)])) n r s'
       else r = 0 /\ heap_ok s' T) /\
  (forall T1 n T2, T = T1 ++ (true, n) :: T2 ->
     let T' := coalesce (T1 ++ (false, n) :: T2) in
     exists s', free base (lo + span T1 + 16) s = Ok tt s' /\ heap_ok s' T' /\ brk s' = brk s /\
       forall a, in_use lo T' a -> umem s' a = umem s a).
Proof.
  intros Hs. split; [intros nbytes; by apply malloc_ok|]. intros T1 n T2 ->.
  destruct Hs as [Hs|(_ & HT & _)]; [by apply free_ok|by destruct T1].
Qed.

End Heap.

(** ** A heap of one process *)

Section Example.

Definition demo_grow (b n : Z) : bool := b + n <? 2 ^ 20.
Definition demo_heap : uheap := {| umem := fun _ => Byte.xff; freep := 0; brk := 16384 |}.

Lemma demo_limit b n : demo_grow b n = true -> b + n < limit.
Proof. unfold demo_grow, limit. intros H%Z.ltb_lt. lia. Qed.

Lemma demo_ready : ready 8192 16384 demo_heap [].
Proof. right. split_and!; done. Qed.

(** The first call grows the heap and takes the end of the new block; the
    block is freed again, and one free block is left. *)
Lemma umalloc_refines_witness :
  exists r s s', malloc 8192 demo_grow 100 demo_heap = Ok r s /\ r = 16384 + 16 * 4088 + 16 /\
    heap_ok 8192 16384 s [(false, 4088); (true, 8)] /\
    free 8192 r s = Ok tt s' /\ heap_ok 8192 16384 s' [(false, 4096)].
Proof.
  destruct (umalloc_refines 8192 16384 demo_grow demo_limit demo_heap [] demo_ready) as [Hm _].
  destruct (Hm 100 ltac:(lia)) as (r & s & E & _ & T1 & k & T2 & HT & Hk & -> & Hs).
  destruct T1 as [|? [|??]]; [|done..]. injection HT as <- <-.
  destruct (umalloc_refines 8192 16384 demo_grow demo_limit s _ (or_introl Hs)) as [_ Hf].
  destruct (Hf [(false, 4088)] 8 [] eq_refl) as (s' & E' & Hs' & _).
  exists (16384 + 16 * 4088 + 16), s, s'. split; [exact E|]. split; [reflexivity|].
  split; [exact Hs|]. split; [exact E'|exact Hs'].
Defined.

End Example.
