(* ===== verification/Mkfs.v ===== *)
(** * mkfs.c: the image builder

    The program that writes the image of the file system on the host.  The
    image is the list of its blocks, in the format that the kernel reads (fs.h).
    A failed [assert] and a read past the end of the image end the program;
    the operations on files of the host succeed. *)

From S2P Require Import Prelude CString FsState Log Fs.
Local Open Scope Z_scope.
Local Open Scope kernel_scope.

Module Mkfs.

Definition NINODES : Z := 200.

Definition nbitmap : Z := FSSIZE / (BSIZE * 8) + 1.
Definition ninodeblocks : Z := NINODES / IPB + 1.
Definition nlog : Z := LOGSIZE.
Definition nmeta : Z := 2 + nlog + ninodeblocks + nbitmap.
Definition nblocks : Z := FSSIZE - nmeta.

(** The image file and the two counters. *)
Record mkfs : Type := { img : list (list byte); freeinode : Z; freeblock : Z }.

Definition I := M mkfs.

Definition set_img (l : list (list byte)) (s : mkfs) : mkfs :=
  {| img := l; freeinode := freeinode s; freeblock := freeblock s |}.

Definition zeroes : list byte := replicate (Z.to_nat BSIZE) Byte.x00.

(** The number with the bytes of [x] in Intel order, on the host's little-endian
    memory. *)
Definition xshort (x : Z) : Z := le_combine (map byte.of_Z [x; Z.shiftr x 8]).
Definition xint (x : Z) : Z := le_combine (map byte.of_Z [x; Z.shiftr x 8; Z.shiftr x 16; Z.shiftr x 24]).

Definition assert_ (b : bool) : I unit := if b then ret tt else panic "assert".

(** ** Sectors *)

(** A write past the end leaves a hole of zeros before it. *)
Definition wsect (sec : Z) (buf : list byte) : I unit :=
  modify (fun s =>
    let n := Z.to_nat sec in
    set_img (if (n <? length (img s))%nat then <[n := buf]> (img s)
             else img s ++ replicate (n - length (img s)) zeroes ++ [buf]) s).

Definition rsect (sec : Z) : I (list byte) := fun s =>
  match img s !! Z.to_nat sec with
  | Some b => Ok b s
  | None => Panic "read"
  end.

(** ** Inodes *)

(** [struct dinode] and its bytes. *)
Record dinode : Type := mk_dinode {
  d_type : Z; d_major : Z; d_minor : Z; d_nlink : Z; d_size : Z; d_addrs : list Z }.

Definition dinode_bytes (d : dinode) : list byte :=
  le_split 2 (d_type d) ++ le_split 2 (d_major d) ++ le_split 2 (d_minor d) ++ le_split 2 (d_nlink d) ++
  le_split 4 (d_size d) ++ concat (map (le_split 4) (d_addrs d)).

Definition dinode_at (b : list byte) (o : nat) : dinode :=
  mk_dinode (word 2 b o) (word 2 b (o + 2)) (word 2 b (o + 4)) (word 2 b (o + 6)) (word 4 b (o + 8)) (addrs_of b o).

Definition inodestart : Z := 2 + nlog.
Definition bmapstart : Z := 2 + nlog + ninodeblocks.

(** [struct superblock sb] *)
Definition sb : superblock :=
  mk_superblock (xint FSSIZE) (xint nblocks) (xint NINODES) (xint nlog) (xint 2) (xint inodestart) (xint bmapstart).

Definition sb_bytes : list byte :=
  concat (map (le_split 4) [sb_size sb; sb_nblocks sb; sb_ninodes sb; sb_nlog sb; sb_logstart sb; sb_inodestart sb; sb_bmapstart sb]).

Definition winode (inum : Z) (ip : dinode) : I unit :=
  let bn := IBLOCK inum sb in
  buf <- rsect bn ;;
  wsect bn (splice (dinode_off inum) (dinode_bytes ip) buf).

Definition rinode (inum : Z) : I dinode :=
  let bn := IBLOCK inum sb in
  buf <- rsect bn ;;
  ret (dinode_at buf (dinode_off inum)).

(** [freeinode++] and [freeblock++]: the old values. *)
Definition next_inode : I Z :=
  n <- gets freeinode ;;
  modify (fun s => {| img := img s; freeinode := u32 (n + 1); freeblock := freeblock s |}) ;;
  ret n.
Definition next_block : I Z :=
  n <- gets freeblock ;;
  modify (fun s => {| img := img s; freeinode := freeinode s; freeblock := u32 (n + 1) |}) ;;
  ret n.

Definition ialloc (type : Z) : I Z :=
  inum <- next_inode ;;
  winode inum (mk_dinode (xshort type) 0 0 (xshort 1) (xint 0) (replicate 13 0)) ;;
  ret inum.

(** ** The bitmap *)

Fixpoint balloc_bits (n : nat) (i : Z) (buf : list byte) : list byte :=
  match n with
  | O => buf
  | S k => balloc_bits k (i + 1) (bm_set i buf)
  end.

Definition balloc (used : Z) : I unit :=
  assert_ (used <? BSIZE * 8) ;;
  wsect (sb_bmapstart sb) (balloc_bits (Z.to_nat used) 0 zeroes).

(** ** Files *)

(** A block of the host's [uint]s. *)
Definition words_of (b : list byte) : list Z := map (fun i => word 4 b (4 * i)) (seq 0 (Z.to_nat NINDIRECT)).
Definition words_bytes (l : list Z) : list byte := concat (map (le_split 4) l).

(** The block [fbn] of the file, allocated if necessary, and the addresses. *)
Definition file_block (addrs : list Z) (fbn : Z) : I (Z * list Z) :=
  if fbn <? NDIRECT then
    let i := Z.to_nat fbn in
    addrs <- (if xint (addrs !!! i) =? 0 then b <- next_block ;; ret (<[i := xint b]> addrs)
              else ret addrs) ;;
    ret (xint (addrs !!! i), addrs)
  else
    let n := Z.to_nat NDIRECT in
    addrs <- (if xint (addrs !!! n) =? 0 then b <- next_block ;; ret (<[n := xint b]> addrs)
              else ret addrs) ;;
    buf <- rsect (xint (addrs !!! n)) ;;
    let indirect := words_of buf in
    let i := Z.to_nat (fbn - NDIRECT) in
    indirect <- (if indirect !!! i =? 0 then
                   b <- next_block ;;
                   let indirect := <[i := xint b]> indirect in
                   wsect (xint (addrs !!! n)) (words_bytes indirect) ;;
                   ret indirect
                 else ret indirect) ;;
    ret (xint (indirect !!! i), addrs).

Fixpoint iappend_loop (fuel : nat) (addrs : list Z) (off : Z) (p : list byte) : I (list Z * Z) :=
  match p with
  | [] => ret (addrs, off)
  | _ =>
      match fuel with
      | O => out_of_fuel
      | S k =>
          let fbn := off / BSIZE in
          assert_ (fbn <? MAXFILE) ;;
          r <- file_block addrs fbn ;;
          let n1 := Z.min (Z.of_nat (length p)) (u32 ((fbn + 1) * BSIZE - off)) in
          buf <- rsect (r.1) ;;
          wsect (r.1) (splice (Z.to_nat (off - fbn * BSIZE)) (take (Z.to_nat n1) p) buf) ;;
          iappend_loop k (r.2) (u32 (off + n1)) (drop (Z.to_nat n1) p)
      end
  end.

(** Every turn appends a byte at least. *)
Definition iappend (inum : Z) (p : list byte) : I unit :=
  din <- rinode inum ;;
  let off := xint (d_size din) in
  r <- iappend_loop (length p) (d_addrs din) off p ;;
  winode inum (mk_dinode (d_type din) (d_major din) (d_minor din) (d_nlink din) (xint (r.2)) (r.1)).

(** ** main *)

Fixpoint append_chunks (inum : Z) (chunks : list (list byte)) : I unit :=
  match chunks with
  | [] => ret tt
  | c :: chunks => iappend inum c ;; append_chunks inum chunks
  end.

Definition underscore : byte := Byte.x5f.

(** One file of the command line: its name, and what the reads of it deliver. *)
Definition add_file (rootino : Z) (f : list byte * list (list byte)) : I unit :=
  assert_ (negb (bool_decide (slash ∈ f.1))) ;;
  let name := match f.1 with c :: n => if bool_decide (c = underscore) then n else f.1 | [] => [] end in
  inum <- ialloc T_FILE ;;
  iappend rootino (dirent_of name (xshort inum)) ;;
  append_chunks inum (f.2).

Fixpoint add_files (rootino : Z) (l : list (list byte * list (list byte))) : I unit :=
  match l with
  | [] => ret tt
  | f :: l => add_file rootino f ;; add_files rootino l
  end.

(** The image starts empty and is filled with zeros first. *)
Definition start : mkfs := {| img := []; freeinode := 1; freeblock := 0 |}.

Fixpoint fill (n : nat) (i : Z) : I unit :=
  match n with
  | O => ret tt
  | S k => wsect i zeroes ;; fill k (i + 1)
  end.

Definition dot : list byte := [Byte.x2e].
Definition dotdot : list byte := [Byte.x2e; Byte.x2e].

Definition main (files : list (list byte * list (list byte))) : I unit :=
  modify (fun s => {| img := img s; freeinode := freeinode s; freeblock := nmeta |}) ;;
  fill (Z.to_nat FSSIZE) 0 ;;
  wsect 1 (splice 0 sb_bytes zeroes) ;;
  rootino <- ialloc T_DIR ;;
  assert_ (rootino =? ROOTINO) ;;
  iappend rootino (dirent_of dot (xshort rootino)) ;;
  iappend rootino (dirent_of dotdot (xshort rootino)) ;;
  add_files rootino files ;;
  din <- rinode rootino ;;
  let off := xint (d_size din) in
  let off := u32 ((off / BSIZE + 1) * BSIZE) in
  winode rootino (mk_dinode (d_type din) (d_major din) (d_minor din) (d_nlink din) (xint off) (d_addrs din)) ;;
  used <- gets freeblock ;;
  balloc used.

End Mkfs.
