(* ===== verification/MkfsSpec.v ===== *)
(** * The image that mkfs builds

    The image holds the files of the command line in the form that the kernel
    reads: [mkfs_builds_image] gives, for every file and for the root directory,
    the blocks that the inode of the image names in the sense of [maps], the
    hypothesis under which [readi] delivers the contents. *)

From stdpp Require Import gmap.
From S2P Require Import Prelude CString FsState Machine Bio BioSpec Blocks Log LogSpec DemoFs CacheInit Txn Fs FileSpec InodeSpec Mkfs.
Import Mkfs.
Local Open Scope Z_scope.
Local Open Scope kernel_scope.

(** ** Numbers in Intel order *)

Lemma xint_id x : 0 <= x < 2 ^ 32 -> xint x = x.
Proof.
  intros Hx. unfold xint. replace (map _ _) with (le_split 4 x).
  - rewrite le_combine_split. by apply Z.mod_small.
  - change (le_split 4 x) with [byte.of_Z x; byte.of_Z (Z.shiftr x 8);
      byte.of_Z (Z.shiftr (Z.shiftr x 8) 8); byte.of_Z (Z.shiftr (Z.shiftr (Z.shiftr x 8) 8) 8)].
    by rewrite !Z.shiftr_shiftr by lia.
Qed.

Lemma xshort_id x : 0 <= x < 2 ^ 16 -> xshort x = x.
Proof.
  intros Hx. unfold xshort. change (map _ _) with (le_split 2 x).
  rewrite le_combine_split. by apply Z.mod_small.
Qed.

(** ** Words in a part of a block *)

Lemma word_splice_out n k l b off : (k + length l <= length b)%nat ->
  (off + n <= k \/ k + length l <= off)%nat -> word n (splice k l b) off = word n b off.
Proof.
  intros Hk Ho. apply word_ext. intros i Hi. rewrite lookup_splice by done. by rewrite decide_False by lia.
Qed.

Lemma word_splice_in n k l b off : (k + length l <= length b)%nat -> (off + n <= length l)%nat ->
  word n (splice k l b) (k + off) = word n l off.
Proof.
  intros Hk Ho. unfold word. f_equal. apply list_eq. intros i. destruct (decide (i < n)%nat).
  - rewrite !lookup_take_lt, !lookup_drop, lookup_splice by done. rewrite decide_True by lia. f_equal. lia.
  - by rewrite !lookup_take_ge by lia.
Qed.

Lemma word_here n v pre post : 0 <= v < 2 ^ (Z.of_nat n * 8) ->
  word n (pre ++ le_split n v ++ post) (length pre) = v.
Proof.
  intros Hv. unfold word. rewrite drop_app_length, take_app_le, take_ge by (rewrite length_le_split; lia).
  rewrite le_combine_split. by apply Z.mod_small.
Qed.

Lemma length_words_bytes l : length (words_bytes l) = (4 * length l)%nat.
Proof. unfold words_bytes. induction l as [|x l IH]; simpl; [done|]. rewrite IH. lia. Qed.

Lemma word_of_words l i x pre post : l !! i = Some x -> 0 <= x < 2 ^ 32 ->
  word 4 (pre ++ words_bytes l ++ post) (length pre + 4 * i) = x.
Proof.
  intros Hi Hx. pose proof (lookup_lt_Some _ _ _ Hi). rewrite <- (take_drop_middle l i x Hi). unfold words_bytes.
  rewrite map_app, concat_app. cbn [map concat].
  replace (length pre + 4 * i)%nat with (length (pre ++ words_bytes (take i l))).
  - unfold words_bytes. rewrite <- !app_assoc. rewrite app_assoc. by apply word_here.
  - rewrite length_app, length_words_bytes, length_take. lia.
Qed.

Definition uints (l : list Z) : Prop := Forall (fun x => 0 <= x < 2 ^ 32) l.

Lemma words_of_bytes l : length l = 128%nat -> uints l -> words_of (words_bytes l) = l.
Proof.
  intros Hl Hu. apply list_eq. intros i. unfold words_of. change (Z.to_nat NINDIRECT) with 128%nat.
  destruct (decide (i < 128)%nat) as [Hi|Hi].
  - rewrite list_lookup_fmap, lookup_seq_lt by done. cbn [fmap option_fmap option_map].
    destruct (lookup_lt_is_Some_2 l i) as [x Hx]; [lia|]. rewrite Hx. f_equal.
    pose proof (word_of_words l i x [] [] Hx) as H. rewrite app_nil_r in H. apply H. by apply (Forall_lookup_1 _ _ _ _ Hu Hx).
  - rewrite !lookup_ge_None_2; [done|lia|rewrite length_map, length_seq; lia].
Qed.

(** ** Inodes in a block *)

Record dinode_ok (d : dinode) : Prop := {
  ok_shorts : Forall (fun x => 0 <= x < 2 ^ 16) [d_type d; d_major d; d_minor d; d_nlink d];
  ok_size : 0 <= d_size d < 2 ^ 32;
  ok_addrs : length (d_addrs d) = 13%nat /\ uints (d_addrs d) }.

Lemma length_dinode_bytes d : length (d_addrs d) = 13%nat -> length (dinode_bytes d) = 64%nat.
Proof.
  intros H. unfold dinode_bytes. rewrite !length_app, !length_le_split. fold (words_bytes (d_addrs d)).
  rewrite length_words_bytes. lia.
Qed.

Lemma dinode_at_same b o d : dinode_ok d -> (o + 64 <= length b)%nat ->
  dinode_at (splice o (dinode_bytes d) b) o = d.
Proof.
  intros [Hs Hz [Hl Hu]] Ho. pose proof (length_dinode_bytes d Hl) as Hlen.
  unfold dinode_at, addrs_of. rewrite <- (Nat.add_0_r o) at 2.
  rewrite !word_splice_in by lia.
  destruct d as [t ma mi nl sz ad]. cbn [d_type d_major d_minor d_nlink d_size d_addrs] in *.
  rewrite !Forall_cons in Hs. destruct Hs as (H1 & H2 & H3 & H4 & _).
  assert (Ha : map (fun i => word 4 (splice o (dinode_bytes (mk_dinode t ma mi nl sz ad)) b) (o + 12 + 4 * i)) (seq 0 13) = ad).
  { apply list_eq. intros i. destruct (decide (i < 13)%nat) as [Hi|Hi].
    - rewrite list_lookup_fmap, lookup_seq_lt by done. cbn [fmap option_fmap option_map].
      destruct (lookup_lt_is_Some_2 ad i) as [x Hx]; [lia|]. rewrite Hx. f_equal.
      rewrite <- Nat.add_assoc, word_splice_in by lia. unfold dinode_bytes. cbn [d_type d_major d_minor d_nlink d_size d_addrs].
      pose proof (word_of_words ad i x (le_split 2 t ++ le_split 2 ma ++ le_split 2 mi ++ le_split 2 nl ++ le_split 4 sz) [] Hx
        (Forall_lookup_1 _ _ _ _ Hu Hx)) as H.
      rewrite app_nil_r, <- !app_assoc, !length_app, !length_le_split in H. exact H.
    - rewrite !lookup_ge_None_2; [done|lia|rewrite length_map, length_seq; lia]. }
  rewrite Ha. clear Ha. unfold dinode_bytes. cbn [d_type d_major d_minor d_nlink d_size d_addrs].
  f_equal.
  - by apply (word_here 2 t []).
  - by apply (word_here 2 ma (le_split 2 t)).
  - rewrite app_assoc. by apply (word_here 2 mi (le_split 2 t ++ le_split 2 ma)).
  - rewrite (app_assoc (le_split 2 ma)), app_assoc. by apply (word_here 2 nl (le_split 2 t ++ le_split 2 ma ++ le_split 2 mi)).
  - rewrite (app_assoc (le_split 2 mi)), (app_assoc (le_split 2 ma)), app_assoc.
    by apply (word_here 4 sz (le_split 2 t ++ le_split 2 ma ++ le_split 2 mi ++ le_split 2 nl)).
Qed.

Lemma dinode_at_other b o o' l : (o + length l <= length b)%nat -> (o' + 64 <= o \/ o + length l <= o')%nat ->
  dinode_at (splice o l b) o' = dinode_at b o'.
Proof.
  intros Hl Ho. unfold dinode_at, addrs_of. rewrite !word_splice_out by lia. f_equal.
  apply map_ext_in. intros i [_ Hi]%in_seq. apply word_splice_out; lia.
Qed.

(** ** The image during the construction *)

Definition image_ok (s : mkfs) : Prop :=
  length (img s) = 1000%nat /\ Forall (fun b => length b = BLK) (img s) /\
  (59 <= freeblock s <= 1000) /\ forall a, freeblock s <= a < 1000 -> img s !! Z.to_nat a = Some zeroes.

Lemma rsect_ok s a b : img s !! Z.to_nat a = Some b -> rsect a s = Ok b s.
Proof. intros H. unfold rsect. by rewrite H. Qed.

Lemma wsect_ok s a b : image_ok s -> 0 <= a < 1000 ->
  wsect a b s = Ok tt (set_img (<[Z.to_nat a := b]> (img s)) s).
Proof.
  intros (Hl & _) Ha. unfold wsect, modify. cbv zeta. rewrite (proj2 (Nat.ltb_lt _ _)) by lia. done.
Qed.

Lemma image_write s a b : image_ok s -> 0 <= a < freeblock s -> length b = BLK ->
  image_ok (set_img (<[Z.to_nat a := b]> (img s)) s).
Proof.
  intros (Hl & Hb & Hf & Hz) Ha Hlen. split_and!; simpl; try lia; [by rewrite length_insert|by apply Forall_insert|].
  intros x Hx. rewrite list_lookup_insert_ne by lia. by apply Hz.
Qed.

(** ** The blocks of one file *)

Definition pad (n : nat) (l : list Z) : list Z := take n (l ++ replicate n 0).

Lemma length_pad n l : length (pad n l) = n.
Proof. unfold pad. rewrite length_take, length_app, length_replicate. lia. Qed.

Lemma lookup_pad n l i : (i < n)%nat -> pad n l !!! i = if decide (i < length l)%nat then l !!! i else 0.
Proof.
  intros Hi. unfold pad. rewrite !list_lookup_total_alt, lookup_take_lt by done. case_decide.
  - by rewrite lookup_app_l.
  - rewrite lookup_app_r, lookup_replicate_2 by lia. done.
Qed.

Lemma pad_push n l x : (length l < n)%nat -> <[length l := x]> (pad n l) = pad n (l ++ [x]).
Proof.
  intros Hl. unfold pad. rewrite <- app_assoc, !take_app, !take_ge by (rewrite ?length_app; simpl; lia).
  rewrite insert_app_r_alt by lia. rewrite Nat.sub_diag. f_equal. simpl.
  destruct (n - length l)%nat as [|k] eqn:E; [lia|]. destruct n as [|n]; [lia|]. simpl. f_equal.
  rewrite take_nil, Nat.sub_0_r, app_nil_l. change (0 :: replicate n 0) with (replicate (S n) 0).
  rewrite !take_replicate. f_equal. lia.
Qed.

Lemma pad_full n l x : (n <= length l)%nat -> pad n (l ++ [x]) = pad n l.
Proof. intros Hl. unfold pad. by rewrite <- app_assoc, !take_app_le. Qed.

Lemma pad_uints n l : uints l -> uints (pad n l).
Proof.
  intros Hl. apply Forall_take, Forall_app. split; [done|]. apply Forall_replicate. lia.
Qed.

(** The addresses in the inode: twelve blocks and the indirect block. *)
Definition addrs (fm : list Z) (ind : Z) : list Z := pad 12 fm ++ [ind].

Definition owned (fm : list Z) (ind : Z) : list Z := if ind =? 0 then fm else ind :: fm.

(** The blocks [fm] of the image hold the contents and zeros after them. *)
Record data (d : list (list byte)) (fm : list Z) (ind : Z) (c : list byte) : Prop := {
  da_len : (length c <= 512 * length fm)%nat;
  da_max : (length fm <= 140)%nat;
  da_bytes : contents fm d ∅ = c ++ replicate (512 * length fm - length c) Byte.x00;
  da_ind : if (12 <? length fm)%nat then words_of (blk d ∅ ind) = pad 128 (drop 12 fm) /\ ind <> 0 else ind = 0 }.

Definition own_ok (hi : Z) (fm : list Z) (ind : Z) : Prop :=
  NoDup (owned fm ind) /\ Forall (fun a => 59 <= a < hi) (owned fm ind).

(** The number of blocks that a file with [n] data blocks takes. *)
Definition need (n : nat) : Z := Z.of_nat n + (if (12 <? n)%nat then 1 else 0).

Definition nblk (n : nat) : nat := ((n + 511) / 512)%nat.

Lemma nblk_mono n m : (n <= m)%nat -> (nblk n <= nblk m)%nat.
Proof. intros H. unfold nblk. apply Nat.Div0.div_le_mono. lia. Qed.

(** The next byte is the first of a new block, or goes into the last one. *)
Lemma nblk_cases n :
  (n / 512 = nblk n /\ n mod 512 = 0 /\ nblk (S n) = S (nblk n) \/ n / 512 < nblk n /\ nblk (S n) = nblk n)%nat.
Proof.
  unfold nblk. pose proof (Nat.div_mod_eq n 512). pose proof (Nat.mod_upper_bound n 512 ltac:(lia)).
  set (q := (n / 512)%nat) in *. set (r := (n mod 512)%nat) in *.
  assert (E : forall t, (t < 512)%nat -> ((512 * q + t) / 512 = q)%nat).
  { intros t Ht. symmetry. by apply (Nat.div_unique _ _ q t). }
  assert (E1 : forall t, (t < 512)%nat -> ((512 * S q + t) / 512 = S q)%nat).
  { intros t Ht. symmetry. by apply (Nat.div_unique _ _ (S q) t). }
  destruct (Nat.eq_dec r 0%nat) as [Hr|Hr].
  - left. replace (n + 511)%nat with (512 * q + 511)%nat by lia. replace (S n + 511)%nat with (512 * S q + 0)%nat by lia.
    rewrite E, E1 by lia. done.
  - right. replace (n + 511)%nat with (512 * S q + (r - 1))%nat by lia.
    replace (S n + 511)%nat with (512 * S q + r)%nat by lia. rewrite !E1 by lia. lia.
Qed.

(** Bytes that stay in one block. *)
Lemma nblk_same n k : (0 < k)%nat -> (n mod 512 + k <= 512)%nat -> nblk (S n) = nblk (n + k).
Proof.
  intros Hk Hb. unfold nblk. pose proof (Nat.div_mod_eq n 512). set (q := (n / 512)%nat) in *. set (r := (n mod 512)%nat) in *.
  replace (S n + 511)%nat with (512 * S q + r)%nat by lia. replace (n + k + 511)%nat with (512 * S q + (r + k - 1))%nat by lia.
  transitivity (S q); [symmetry; apply (Nat.div_unique _ _ (S q) r)|apply (Nat.div_unique _ _ (S q) (r + k - 1))]; lia.
Qed.

(** A step that lets a file grow from [fm] to [fm1]. *)
Record grows (s : mkfs) (fm : list Z) (ind : Z) (s1 : mkfs) (fm1 : list Z) (ind1 : Z) : Prop := {
  gr_image : image_ok s1;
  gr_own : own_ok (freeblock s1) fm1 ind1;
  gr_inode : freeinode s1 = freeinode s;
  gr_block : freeblock s1 = freeblock s + need (length fm1) - need (length fm);
  gr_frame : forall a, 0 <= a < freeblock s -> a ∉ owned fm ind -> img s1 !! Z.to_nat a = img s !! Z.to_nat a;
  gr_fresh : forall a, a ∈ owned fm1 ind1 -> a ∈ owned fm ind \/ freeblock s <= a }.

Lemma need_mono n m : (n <= m)%nat -> need n <= need m.
Proof. intros H. unfold need. destruct (Nat.ltb_spec 12 n), (Nat.ltb_spec 12 m); lia. Qed.

Lemma grows_trans s fm ind s1 fm1 ind1 s2 fm2 ind2 : (length fm <= length fm1)%nat ->
  grows s fm ind s1 fm1 ind1 -> grows s1 fm1 ind1 s2 fm2 ind2 -> grows s fm ind s2 fm2 ind2.
Proof.
  intros Hlen [H1 H2 H3 H4 H5 H6] [G1 G2 G3 G4 G5 G6]. pose proof (need_mono _ _ Hlen). split; try done; try lia; try congruence.
  - intros a Ha Hin. rewrite G5, H5; [done..|lia|]. intros [?|?]%H6; [done|lia].
  - intros a [Ha|Ha]%G6; [by apply H6|]. right. lia.
Qed.

Lemma owned_elem fm ind a : a ∈ fm -> a ∈ owned fm ind.
Proof. intros H. unfold owned. destruct (ind =? 0); [done|]. by right. Qed.

Lemma contents_write d a v fm : a ∉ fm -> Forall (fun x => 0 <= x) (a :: fm) ->
  contents fm (<[Z.to_nat a := v]> d) ∅ = contents fm d ∅.
Proof.
  intros Ha [Ha0 Hf]%Forall_cons. unfold contents. f_equal. apply map_ext_in. intros x Hx%list_elem_of_In.
  rewrite Forall_forall in Hf. specialize (Hf x Hx). unfold blk. rewrite lookup_empty.
  rewrite list_lookup_total_insert_ne; [done|]. intros E. apply Z2Nat.inj in E; [|lia..]. by subst.
Qed.

Lemma contents_snoc fm a d : contents (fm ++ [a]) d ∅ = contents fm d ∅ ++ blk d ∅ a.
Proof. unfold contents. rewrite map_app, concat_app. simpl. by rewrite app_nil_r. Qed.

Lemma block_lookup s a : image_ok s -> 0 <= a < 1000 -> img s !! Z.to_nat a = Some (blk (img s) ∅ a).
Proof.
  intros (Hl & _) Ha. unfold blk. rewrite lookup_empty. apply list_lookup_lookup_total_lt. lia.
Qed.

Lemma block_fresh s a : image_ok s -> freeblock s <= a < 1000 -> blk (img s) ∅ a = zeroes.
Proof.
  intros Him Ha. pose proof Him as (_ & _ & Hf & Hz). pose proof (block_lookup s a Him ltac:(lia)) as H.
  rewrite Hz in H by lia. congruence.
Qed.

Lemma words_of_zeroes : words_of zeroes = pad 128 [].
Proof. by vm_compute. Qed.

(** *** Finding and allocating the block at the end of a file *)

Definition use_block (s : mkfs) : mkfs :=
  {| img := img s; freeinode := freeinode s; freeblock := freeblock s + 1 |}.

Lemma next_block_ok s : image_ok s -> next_block s = Ok (freeblock s) (use_block s).
Proof.
  intros (_ & _ & Hf & _). unfold next_block, use_block. rewrite bind_gets, bind_modify. by rewrite u32_small by lia.
Qed.

Lemma image_use s : image_ok s -> freeblock s < 1000 -> image_ok (use_block s).
Proof.
  intros (Hl & Hb & Hf & Hz) H. split_and!; simpl; [done|done|lia..|]. intros a Ha. apply Hz. lia.
Qed.

Section Grow.
Context (s : mkfs) (fm : list Z) (ind : Z) (c : list byte).
Hypothesis Him : image_ok s.
Hypothesis Hd : data (img s) fm ind c.
Hypothesis Hown : own_ok (freeblock s) fm ind.

Lemma fm_range a : a ∈ fm -> 59 <= a < freeblock s.
Proof.
  intros Ha. destruct Hown as [_ H]. rewrite Forall_forall in H. by apply H, owned_elem.
Qed.

Lemma ind_range : (12 < length fm)%nat -> 59 <= ind < freeblock s /\ ind ∉ fm.
Proof.
  intros Hl. destruct Hd as [_ _ _ Hi]. rewrite (proj2 (Nat.ltb_lt _ _) Hl) in Hi. destruct Hi as [_ Hne].
  destruct Hown as [Hn H]. unfold owned in *. rewrite (proj2 (Z.eqb_neq _ _) Hne) in *.
  apply NoDup_cons in Hn as [Hn _]. apply Forall_cons in H as [H _]. done.
Qed.

Lemma fm_uints l : l ⊆ fm -> uints l.
Proof.
  intros Hl. apply Forall_forall. intros a Ha%Hl%fm_range. destruct Him as (_ & _ & Hf & _). lia.
Qed.

Lemma addrs_direct k : (k < 12)%nat -> addrs fm ind !!! k = if decide (k < length fm)%nat then fm !!! k else 0.
Proof.
  intros Hk. unfold addrs. rewrite lookup_total_app_l by (rewrite length_pad; lia). by apply lookup_pad.
Qed.

Lemma addrs_ind : addrs fm ind !!! 12%nat = ind.
Proof. unfold addrs. rewrite lookup_total_app_r by (rewrite length_pad; lia). by rewrite length_pad. Qed.

(** The block is there. *)
Lemma file_block_there k x : fm !! k = Some x ->
  file_block (addrs fm ind) (Z.of_nat k) s = Ok (x, addrs fm ind) s.
Proof.
  intros Hk. pose proof (lookup_lt_Some _ _ _ Hk) as Hlt. pose proof (fm_range x ltac:(by eapply list_elem_of_lookup_2)) as Hx.
  destruct Hd as [_ Hmax _ Hi]. pose proof Him as (_ & _ & Hf & _).
  assert (Hxx : xint x = x) by (apply xint_id; lia). unfold file_block. rewrite Nat2Z.id. change NDIRECT with 12.
  destruct (Z.ltb_spec (Z.of_nat k) 12).
  - rewrite addrs_direct, decide_True by lia. rewrite (list_lookup_total_correct _ _ _ Hk), Hxx.
    rewrite (proj2 (Z.eqb_neq x 0)) by lia. rewrite bind_ret. rewrite addrs_direct, decide_True by lia.
    rewrite (list_lookup_total_correct _ _ _ Hk), Hxx. done.
  - destruct (ind_range ltac:(lia)) as [Hir _]. rewrite (proj2 (Nat.ltb_lt 12 _)) in Hi by lia. destruct Hi as [Hw Hne].
    change (Z.to_nat 12) with 12%nat. rewrite addrs_ind. rewrite xint_id by lia.
    rewrite (proj2 (Z.eqb_neq ind 0)) by lia. rewrite bind_ret, addrs_ind, xint_id by lia.
    rewrite (bind_ok _ _ _ _ _ (rsect_ok s ind _ (block_lookup s ind Him ltac:(lia)))). rewrite Hw.
    assert (E : pad 128 (drop 12 fm) !!! Z.to_nat (Z.of_nat k - 12) = x).
    { rewrite lookup_pad by lia. rewrite decide_True by (rewrite length_drop; lia).
      apply list_lookup_total_correct. rewrite lookup_drop. rewrite <- Hk. f_equal. lia. }
    rewrite E. rewrite (proj2 (Z.eqb_neq x 0)) by lia. rewrite bind_ret, E, Hxx. done.
Qed.

(** What a new block at the end makes of the file. *)
Lemma data_snoc d' x : (length fm < 140)%nat -> (forall a, a ∈ fm -> blk d' ∅ a = blk (img s) ∅ a) ->
  blk d' ∅ x = zeroes -> forall ind',
  (if (12 <? S (length fm))%nat then words_of (blk d' ∅ ind') = pad 128 (drop 12 (fm ++ [x])) /\ ind' <> 0 else ind' = 0) ->
  data d' (fm ++ [x]) ind' c.
Proof.
  intros Hmax Hsame Hx ind' Hi. destruct Hd as [H1 H2 H3 _]. split; rewrite ?length_app; cbn [length]; try lia.
  - rewrite contents_snoc, Hx. replace (contents fm d' ∅) with (contents fm (img s) ∅).
    + rewrite H3, <- app_assoc. f_equal. unfold zeroes. change (Z.to_nat BSIZE) with 512%nat.
      rewrite <- replicate_add. f_equal. lia.
    + unfold contents. f_equal. apply map_ext_in. intros a Ha%list_elem_of_In. symmetry. by apply Hsame.
  - by replace (length fm + 1)%nat with (S (length fm)) by lia.
Qed.

Lemma owned_snoc x ind' : x ∉ owned fm ind' -> own_ok (freeblock s) fm ind' -> 59 <= x ->
  forall hi, freeblock s <= hi -> x < hi -> own_ok hi (fm ++ [x]) ind'.
Proof.
  intros Hx [Hn Hr] Hx59 hi Hhi Hxhi. unfold own_ok, owned in *.
  assert (Hr' : Forall (fun a => 59 <= a < hi) (if ind' =? 0 then fm else ind' :: fm)).
  { eapply Forall_impl; [exact Hr|]. intros a Ha. cbn beta in Ha. lia. }
  destruct (ind' =? 0).
  - split; [apply NoDup_app; split_and!; [done|intros a Ha Hax; by apply list_elem_of_singleton in Hax as ->|apply NoDup_singleton]|].
    apply Forall_app. split; [done|]. constructor; [lia|done].
  - apply NoDup_cons in Hn as [Hi Hn]. apply Forall_cons in Hr' as [Hi' Hr']. split.
    + apply NoDup_cons. split; [set_solver|]. apply NoDup_app. split_and!; [done| |apply NoDup_singleton].
      intros a Ha Hax. apply list_elem_of_singleton in Hax as ->. set_solver.
    + constructor; [done|]. apply Forall_app. split; [done|]. constructor; [lia|done].
Qed.

Lemma fresh_not_owned x : freeblock s <= x -> x ∉ owned fm ind.
Proof. intros Hx Hin. destruct Hown as [_ H]. rewrite Forall_forall in H. specialize (H x Hin). lia. Qed.

(** A new direct block. *)
Lemma file_block_direct : (length fm < 12)%nat -> freeblock s < 1000 ->
  let x := freeblock s in let s1 := use_block s in
  file_block (addrs fm ind) (Z.of_nat (length fm)) s = Ok (x, addrs (fm ++ [x]) ind) s1 /\
  data (img s1) (fm ++ [x]) ind c /\ grows s fm ind s1 (fm ++ [x]) ind.
Proof.
  intros Hl Hfree x s1. pose proof Him as (_ & _ & Hf & _).
  assert (Hi : ind = 0) by (destruct Hd as [_ _ _ Hi]; by rewrite (proj2 (Nat.ltb_ge 12 _)) in Hi by lia).
  split_and!.
  - unfold file_block. rewrite Nat2Z.id. change NDIRECT with 12. rewrite (proj2 (Z.ltb_lt _ _)) by lia.
    rewrite addrs_direct, decide_False by lia. change (xint 0 =? 0) with true. cbv iota. rewrite bind_assoc, (bind_ok _ _ _ _ _ (next_block_ok s Him)), bind_ret.
    assert (E : <[length fm := xint (freeblock s)]> (addrs fm ind) = addrs (fm ++ [x]) ind).
    { unfold addrs. rewrite insert_app_l by (rewrite length_pad; lia). rewrite pad_push by done. by rewrite xint_id by lia. }
    rewrite E. unfold addrs at 1. rewrite lookup_total_app_l by (rewrite length_pad; lia).
    rewrite lookup_pad by lia. rewrite decide_True by (rewrite length_app; simpl; lia).
    rewrite (list_lookup_total_correct _ _ x) by (by apply list_lookup_middle). by rewrite xint_id by (unfold x; lia).
  - apply data_snoc; [lia|done|by apply (block_fresh s); [|unfold x; lia]|].
    by rewrite (proj2 (Nat.ltb_ge 12 _)) by lia.
  - split; try done.
    + by apply image_use.
    + apply owned_snoc; [by apply fresh_not_owned|done|unfold x; lia|simpl; lia|simpl; unfold x; lia].
    + rewrite length_app. unfold need. rewrite !(proj2 (Nat.ltb_ge 12 _)) by (simpl; lia). simpl. lia.
    + intros a. unfold owned. rewrite Hi. simpl. rewrite elem_of_app, list_elem_of_singleton. unfold x. intros [?| ->]; [by left|right; lia].
Qed.

(** The state after a new block [x] was entered in the indirect block [ind']. *)
Definition entered (s0 : mkfs) (ind' x : Z) : mkfs :=
  set_img (<[Z.to_nat ind' := words_bytes (pad 128 (drop 12 (fm ++ [x])))]> (img s0)) (use_block s0).

Lemma entered_data ind' x : (12 <= length fm < 140)%nat -> 59 <= ind' < 1000 -> ind' ∉ fm ->
  freeblock s <= x < 1000 -> x <> ind' -> forall s0, img s0 = img s ->
  data (img (entered s0 ind' x)) (fm ++ [x]) ind' c.
Proof.
  intros Hl Hi Hin Hx Hne s0 E. pose proof Him as (Hlen & _ & Hf & _). unfold entered. simpl. rewrite E.
  apply data_snoc; [lia| | |].
  - intros a Ha. pose proof (fm_range a Ha). unfold blk. rewrite !lookup_empty.
    apply list_lookup_total_insert_ne. intros E2. apply Z2Nat.inj in E2; [|lia..]. by subst.
  - rewrite <- (block_fresh s x Him Hx). unfold blk. rewrite !lookup_empty.
    apply list_lookup_total_insert_ne. intros E2. apply Z2Nat.inj in E2; [|lia..]. by subst.
  - rewrite (proj2 (Nat.ltb_lt 12 _)) by lia. split; [|lia]. unfold blk. rewrite lookup_empty.
    rewrite list_lookup_total_insert_eq by lia. apply words_of_bytes; [apply length_pad|]. apply pad_uints.
    apply Forall_drop, Forall_app. split; [by apply fm_uints|]. constructor; [lia|done].
Qed.

(** The part of [file_block] after the indirect block was found. *)
Lemma enter_block s0 ind' (addrs' : list Z) : image_ok s0 -> (12 <= length fm < 140)%nat -> 59 <= ind' < freeblock s0 ->
  freeblock s0 < 1000 -> words_of (blk (img s0) ∅ ind') = pad 128 (drop 12 fm) -> addrs' !!! 12%nat = ind' ->
  let x := freeblock s0 in
  (buf <- rsect (xint (addrs' !!! 12%nat)) ;;
   let indirect := words_of buf in
   let i := Z.to_nat (Z.of_nat (length fm) - 12) in
   indirect <- (if indirect !!! i =? 0 then
                  b <- next_block ;;
                  let indirect := <[i := xint b]> indirect in
                  wsect (xint (addrs' !!! 12%nat)) (words_bytes indirect) ;;
                  ret indirect
                else ret indirect) ;;
   ret (xint (indirect !!! i), addrs')) s0 = Ok (x, addrs') (entered s0 ind' x) /\ image_ok (entered s0 ind' x).
Proof.
  intros Him0 Hl Hi Hfree Hw Ha x. pose proof Him0 as (_ & _ & Hf & _). rewrite Ha, xint_id by lia.
  rewrite (bind_ok _ _ _ _ _ (rsect_ok s0 ind' _ (block_lookup s0 ind' Him0 ltac:(lia)))). cbv zeta. rewrite Hw.
  set (i := Z.to_nat (Z.of_nat (length fm) - 12)).
  assert (Hlen : length (drop 12 fm) = i) by (rewrite length_drop; unfold i; lia).
  rewrite lookup_pad by (unfold i; lia). rewrite decide_False by lia. change (0 =? 0) with true. cbv iota.
  rewrite !bind_assoc, (bind_ok _ _ _ _ _ (next_block_ok s0 Him0)). rewrite bind_assoc.
  assert (Ew : <[i := xint (freeblock s0)]> (pad 128 (drop 12 fm)) = pad 128 (drop 12 (fm ++ [x]))).
  { rewrite xint_id by lia. rewrite <- Hlen, pad_push by (rewrite Hlen; unfold i; lia). rewrite drop_app_le by lia. done. }
  rewrite Ew. rewrite (bind_ok _ _ _ _ _ (wsect_ok (use_block s0) ind' _ (image_use s0 Him0 Hfree) ltac:(lia))).
  rewrite bind_ret. split.
  - unfold entered. rewrite lookup_pad by (unfold i; lia). rewrite !drop_app_le by lia.
    rewrite decide_True by (rewrite length_app, Hlen; simpl; lia).
    rewrite <- Hlen. rewrite (list_lookup_total_correct _ _ x) by (by apply list_lookup_middle). by rewrite xint_id by (unfold x; lia).
  - apply (image_write (use_block s0)); [by apply image_use|simpl; lia|].
    rewrite length_words_bytes, length_pad. done.
Qed.

(** A new block behind the direct ones, with the indirect block there. *)
Lemma file_block_more : (12 < length fm < 140)%nat ->
  freeblock s + need (S (length fm)) - need (length fm) <= 1000 ->
  exists s1 x ind1, file_block (addrs fm ind) (Z.of_nat (length fm)) s = Ok (x, addrs (fm ++ [x]) ind1) s1 /\
    data (img s1) (fm ++ [x]) ind1 c /\ grows s fm ind s1 (fm ++ [x]) ind1.
Proof.
  intros Hl Hroom. pose proof Him as (_ & _ & Hf & _). pose proof Hd as [_ _ _ Hi].
  unfold file_block. change NDIRECT with 12. rewrite (proj2 (Z.ltb_ge _ _)) by lia. change (Z.to_nat 12) with 12%nat.
  rewrite addrs_ind. rewrite (proj2 (Nat.ltb_lt _ _)) in Hi by lia.
  destruct Hi as [Hw Hne]. destruct (ind_range ltac:(lia)) as [Hir Hin]. rewrite xint_id by lia.
  rewrite (proj2 (Z.eqb_neq _ _) Hne), bind_ret. set (x := freeblock s).
  assert (Hx : x < 1000) by (unfold need in Hroom; rewrite !(proj2 (Nat.ltb_lt 12 _)) in Hroom by lia; unfold x; lia).
  destruct (enter_block s ind (addrs fm ind) Him ltac:(lia) Hir Hx Hw addrs_ind) as [E Him1].
  exists (entered s ind x), x, ind. split_and!.
  - etrans; [exact E|]. unfold addrs. by rewrite pad_full by lia.
  - apply entered_data; try done; unfold x; lia.
  - split; try done.
    + apply owned_snoc; [by apply fresh_not_owned|done|unfold x; lia|simpl; lia|simpl; unfold x; lia].
    + rewrite length_app. unfold need. rewrite !(proj2 (Nat.ltb_lt 12 _)) by (simpl; lia). simpl. lia.
    + intros a Ha Ho. simpl. apply list_lookup_insert_ne. intros E2. apply Z2Nat.inj in E2; [|lia..]. subst a.
      apply Ho. unfold owned. rewrite (proj2 (Z.eqb_neq _ _) Hne). by left.
    + intros a. unfold owned. rewrite (proj2 (Z.eqb_neq _ _) Hne), !elem_of_cons, elem_of_app, list_elem_of_singleton.
      unfold x. intros [?|[?| ->]]; [by left; left|by left; right|right; lia].
Qed.

(** The first one, with a new indirect block. *)
Lemma file_block_first : length fm = 12%nat ->
  freeblock s + need (S (length fm)) - need (length fm) <= 1000 ->
  exists s1 x ind1, file_block (addrs fm ind) (Z.of_nat (length fm)) s = Ok (x, addrs (fm ++ [x]) ind1) s1 /\
    data (img s1) (fm ++ [x]) ind1 c /\ grows s fm ind s1 (fm ++ [x]) ind1.
Proof.
  intros Hlen Hroom. pose proof Him as (_ & _ & Hf & _). pose proof Hd as [_ _ _ Hi].
  unfold file_block. change NDIRECT with 12. rewrite (proj2 (Z.ltb_ge _ _)) by lia. change (Z.to_nat 12) with 12%nat.
  rewrite addrs_ind. rewrite (proj2 (Nat.ltb_ge _ _)) in Hi by lia. assert (Hl : (12 <= length fm < 140)%nat) by lia.
  rewrite Hi. change (xint 0 =? 0) with true. cbv iota.
  rewrite bind_assoc, (bind_ok _ _ _ _ _ (next_block_ok s Him)), bind_ret. set (i1 := freeblock s).
  assert (Hx : i1 + 1 < 1000) by (unfold need in Hroom; rewrite Hlen in Hroom; simpl in Hroom; unfold i1; lia).
  assert (Ea : <[12%nat := xint i1]> (addrs fm 0) = addrs fm i1).
  { unfold addrs. rewrite insert_app_r_alt by (rewrite length_pad; lia). rewrite length_pad.
    rewrite xint_id by (unfold i1; lia). done. }
  rewrite Ea. pose proof (image_use s Him ltac:(unfold i1 in Hx; lia)) as Him0.
  assert (Hw : words_of (blk (img (use_block s)) ∅ i1) = pad 128 (drop 12 fm)).
  { change (img (use_block s)) with (img s). rewrite (block_fresh s i1 Him) by (unfold i1 in *; lia).
    rewrite words_of_zeroes. by rewrite drop_ge by lia. }
  assert (Hi1 : 59 <= i1 < freeblock (use_block s)) by (simpl; unfold i1; lia).
  assert (Hai : addrs fm i1 !!! 12%nat = i1).
  { unfold addrs. rewrite lookup_total_app_r by (rewrite length_pad; lia). by rewrite length_pad. }
  destruct (enter_block (use_block s) i1 (addrs fm i1) Him0 Hl Hi1 Hx Hw Hai) as [E Him1].
  change (freeblock (use_block s)) with (i1 + 1) in *. exists (entered (use_block s) i1 (i1 + 1)), (i1 + 1), i1.
  assert (Hfresh : i1 ∉ fm) by (intros Hin%fm_range; unfold i1 in *; lia). split_and!.
  - etrans; [exact E|]. unfold addrs. by rewrite pad_full by lia.
  - apply entered_data; try done; unfold i1 in *; lia.
  - assert (Ho1 : owned fm i1 = i1 :: fm) by (unfold owned; rewrite (proj2 (Z.eqb_neq i1 0)) by (unfold i1; lia); done).
    assert (Ho0 : owned fm ind = fm) by (unfold owned; by rewrite Hi). destruct Hown as [Hn Hr]. rewrite Ho0 in Hn, Hr.
    split; try done.
    + split; unfold owned; rewrite (proj2 (Z.eqb_neq i1 0)) by (unfold i1; lia).
      * apply NoDup_cons. split; [rewrite elem_of_app, list_elem_of_singleton; intros [?|?]; [done|lia]|].
         apply NoDup_app. split_and!; [done| |apply NoDup_singleton]. intros a Ha ->%list_elem_of_singleton.
         apply fm_range in Ha. unfold i1 in Ha. lia.
      * constructor; [simpl; unfold i1; lia|]. apply Forall_app. split; [|constructor; [simpl; unfold i1; lia|done]].
         eapply Forall_impl; [exact Hr|]. intros a Ha. cbn beta in Ha. simpl. lia.
    + rewrite length_app, Hlen. unfold need. simpl. lia.
    + intros a Ha Ho. simpl. apply list_lookup_insert_ne. unfold i1. intros E2. apply Z2Nat.inj in E2; lia.
    + intros a. change (owned fm 0) with fm. unfold owned. rewrite (proj2 (Z.eqb_neq i1 0)) by (unfold i1; lia).
      rewrite elem_of_cons, elem_of_app, list_elem_of_singleton. unfold i1. intros [->|[?| ->]]; [right; lia|by left|right; lia].
Qed.

Lemma file_block_indirect : (12 <= length fm < 140)%nat ->
  freeblock s + need (S (length fm)) - need (length fm) <= 1000 ->
  exists s1 x ind1, file_block (addrs fm ind) (Z.of_nat (length fm)) s = Ok (x, addrs (fm ++ [x]) ind1) s1 /\
    data (img s1) (fm ++ [x]) ind1 c /\ grows s fm ind s1 (fm ++ [x]) ind1.
Proof.
  intros Hl Hroom. destruct (decide (length fm = 12%nat)); [by apply file_block_first|apply file_block_more; [lia|done]].
Qed.

(** Writing the next bytes into the last block. *)
Lemma write_ok x q : let k := (length c / 512)%nat in let o := (length c mod 512)%nat in
  fm !! k = Some x -> (o + length q <= 512)%nat ->
  let s1 := set_img (<[Z.to_nat x := splice o q (blk (img s) ∅ x)]> (img s)) s in
  data (img s1) fm ind (c ++ q) /\ grows s fm ind s1 fm ind.
Proof.
  intros k o Hk Ho s1. pose proof (fm_range x ltac:(by eapply list_elem_of_lookup_2)) as Hx.
  pose proof Him as (Hlen & Hblk & Hf & _). pose proof (lookup_lt_Some _ _ _ Hk) as Hkl.
  assert (Hb : forall a, 0 <= a < 1000 -> length (blk (img s) ∅ a) = 512%nat).
  { intros a Ha. exact (Forall_lookup_1 _ _ _ _ Hblk (block_lookup s a Him Ha)). }
  assert (Hlx : length (splice o q (blk (img s) ∅ x)) = BLK).
  { rewrite length_splice; rewrite Hb by lia; [done|lia]. }
  assert (Hdiv : length c = (512 * k + o)%nat) by (unfold k, o; apply Nat.div_mod_eq).
  assert (Hown' : NoDup fm) by (destruct Hown as [Hn _]; unfold owned in Hn; destruct (ind =? 0); [done|by inversion Hn]).
  assert (Hnew : forall a, 0 <= a -> blk (img s1) ∅ a = if decide (a = x) then splice o q (blk (img s) ∅ x) else blk (img s) ∅ a).
  { intros a Ha. unfold blk, s1. simpl. rewrite !lookup_empty. case_decide as E.
    - subst. apply list_lookup_total_insert_eq. lia.
    - apply list_lookup_total_insert_ne. intros E2. apply Z2Nat.inj in E2; [|lia..]. by subst. }
  destruct Hd as [H1 H2 H3 H4]. split; [split|split; try done].
  - rewrite length_app. lia.
  - done.
  - assert (Ec : contents fm (img s1) ∅ = splice (length c) q (contents fm (img s) ∅)).
    { unfold contents. rewrite Hdiv. change 512%nat with BLK. erewrite <- (splice_concat _ k (blk (img s) ∅ x) o q).
      - f_equal. apply list_eq. intros i. rewrite list_lookup_fmap. destruct (decide (i = k)) as [->|Hne].
        + rewrite list_lookup_insert_eq by (by rewrite length_map). rewrite Hk. simpl. rewrite Hnew by lia.
          by rewrite decide_True.
        + rewrite list_lookup_insert_ne by done. rewrite list_lookup_fmap. destruct (fm !! i) as [a|] eqn:Ei; [|done].
          simpl. f_equal. pose proof (fm_range a ltac:(by eapply list_elem_of_lookup_2)). rewrite Hnew by lia.
          rewrite decide_False; [done|]. intros ->. apply Hne. by eapply NoDup_lookup.
      - apply Forall_map, Forall_forall. intros a Ha%fm_range. apply Hb. lia.
      - rewrite list_lookup_fmap, Hk. done.
      - change BLK with 512%nat. lia. }
    rewrite Ec, H3. set (n := (512 * length fm - length c)%nat).
    replace (replicate n Byte.x00) with (replicate (length q) Byte.x00 ++ replicate (n - length q) Byte.x00)
      by (rewrite <- replicate_add; f_equal; unfold n; lia).
    rewrite splice_comm_segments by (by rewrite length_replicate). rewrite <- app_assoc. do 3 f_equal.
    rewrite length_app. unfold n. lia.
  - destruct (Nat.ltb_spec 12 (length fm)) as [Hgt|]; [|done]. destruct H4 as [Hw Hne]. split; [|done].
    pose proof (ind_range Hgt) as [Hir Hin]. rewrite Hnew by lia. rewrite decide_False; [done|].
    intros ->. by apply Hin, (list_elem_of_lookup_2 _ k).
  - apply image_write; [done|lia|done].
  - simpl. lia.
  - intros a Ha Ho2. simpl. apply list_lookup_insert_ne. intros E2. apply Z2Nat.inj in E2; [|lia..]. subst a.
    by apply Ho2, owned_elem, (list_elem_of_lookup_2 _ k).
  - intros a Ha. by left.
Qed.

Lemma grows_refl : grows s fm ind s fm ind.
Proof. split; try done; [lia|]. intros a Ha. by left. Qed.

Lemma file_block_ok : length fm = nblk (length c) -> (length c < 140 * 512)%nat ->
  freeblock s + need (nblk (S (length c))) - need (length fm) <= 1000 ->
  exists s1 fm1 ind1 x, file_block (addrs fm ind) (Z.of_nat (length c) / 512) s = Ok (x, addrs fm1 ind1) s1 /\
    fm1 !! (length c / 512)%nat = Some x /\ length fm1 = nblk (S (length c)) /\
    data (img s1) fm1 ind1 c /\ grows s fm ind s1 fm1 ind1.
Proof.
  intros Hfm Hmax Hroom. replace (Z.of_nat (length c) / 512) with (Z.of_nat (length c / 512)) by (rewrite Nat2Z.inj_div; done).
  pose proof (Nat.Div0.div_lt_upper_bound (length c) 512 140 ltac:(lia)) as Hlt.
  destruct (nblk_cases (length c)) as [(E1 & E2 & E3)|(E1 & E2)].
  - rewrite E1, <- Hfm, E3, <- Hfm. rewrite E3, <- Hfm in Hroom.
    assert (Hmid : forall x, (fm ++ [x]) !! length fm = Some x) by (intros x; by apply list_lookup_middle).
    assert (Hl : forall x : Z, length (fm ++ [x]) = S (length fm)) by (intros x; rewrite length_app; simpl; lia).
    destruct (Nat.lt_ge_cases (length fm) 12) as [Hlt12|Hge].
    + pose proof Him as (_ & _ & Hf & _). unfold need in Hroom. rewrite !(proj2 (Nat.ltb_ge 12 _)) in Hroom by lia.
      destruct (file_block_direct Hlt12 ltac:(lia)) as (E & Hd1 & Hg). by eexists _, (fm ++ [_]), _, _.
    + destruct (file_block_indirect ltac:(lia) Hroom) as (s1 & x & ind1 & E & Hd1 & Hg). by exists s1, (fm ++ [x]), ind1, x.
  - destruct (lookup_lt_is_Some_2 fm (length c / 512)) as [x Hx]; [lia|]. exists s, fm, ind, x.
    split_and!; [by apply file_block_there|done|lia|done|apply grows_refl].
Qed.

End Grow.

(** The loop of [iappend]. *)
Lemma iappend_loop_ok : forall fuel p s fm ind c, image_ok s -> data (img s) fm ind c -> own_ok (freeblock s) fm ind ->
  length fm = nblk (length c) -> (length p <= fuel)%nat -> (length (c ++ p) <= 140 * 512)%nat ->
  freeblock s + need (nblk (length (c ++ p))) - need (length fm) <= 1000 ->
  exists s1 fm1 ind1, iappend_loop fuel (addrs fm ind) (Z.of_nat (length c)) p s =
      Ok (addrs fm1 ind1, Z.of_nat (length (c ++ p))) s1 /\
    data (img s1) fm1 ind1 (c ++ p) /\ length fm1 = nblk (length (c ++ p)) /\ grows s fm ind s1 fm1 ind1.
Proof.
  induction fuel as [|k IH]; intros p s fm ind c Him Hd Hown Hfm Hfuel Hmax Hroom.
  { destruct p; [|simpl in Hfuel; lia]. exists s, fm, ind. rewrite app_nil_r in *. split_and!; try done. by apply grows_refl. }
  destruct p as [|b0 p0] eqn:Ep.
  { exists s, fm, ind. rewrite app_nil_r in *. split_and!; try done. by apply grows_refl. }
  cbn [iappend_loop]. rewrite <- Ep in *. assert (Hp : (0 < length p)%nat) by (rewrite Ep; simpl; lia). clear Ep b0 p0.
  rewrite length_app in Hmax, Hroom. change BSIZE with 512. change MAXFILE with 140.
  pose proof (Nat.mod_upper_bound (length c) 512 ltac:(lia)). pose proof (Nat.div_mod_eq (length c) 512) as Hdm.
  assert (Hq : Z.of_nat (length c) / 512 = Z.of_nat (length c / 512)) by (by rewrite Nat2Z.inj_div).
  assert (Hmono : need (nblk (S (length c))) <= need (nblk (length c + length p))) by (apply need_mono, nblk_mono; lia).
  rewrite (proj2 (Z.ltb_lt _ _)) by lia. cbn [assert_]. rewrite bind_ret.
  destruct (file_block_ok s fm ind c Him Hd Hown Hfm ltac:(lia) ltac:(lia)) as (s1 & fm1 & ind1 & x & E1 & Hx & Hfm1 & Hd1 & G1).
  rewrite (bind_ok _ _ _ _ _ E1). cbn [fst snd]. rewrite Hq.
  set (o := (length c mod 512)%nat) in *. set (n1 := Nat.min (length p) (512 - o)).
  replace (Z.min _ _) with (Z.of_nat n1) by (rewrite u32_small by lia; unfold n1; lia).
  pose proof (gr_image _ _ _ _ _ _ G1) as Him1. pose proof (gr_own _ _ _ _ _ _ G1) as Hown1.
  pose proof (fm_range s1 fm1 ind1 Hown1 x ltac:(by eapply list_elem_of_lookup_2)) as Hxr. pose proof Him1 as (_ & _ & Hf1 & _).
  rewrite (bind_ok _ _ _ _ _ (rsect_ok s1 x _ (block_lookup s1 x Him1 ltac:(lia)))).
  rewrite (bind_ok _ _ _ _ _ (wsect_ok s1 x _ Him1 ltac:(lia))). rewrite Nat2Z.id.
  replace (Z.to_nat (Z.of_nat (length c) - _)) with o by lia.
  assert (Hln : length (take n1 p) = n1) by (rewrite length_take; unfold n1; lia).
  destruct (write_ok s1 fm1 ind1 c Him1 Hd1 Hown1 x (take n1 p) Hx ltac:(rewrite Hln; fold o; unfold n1; lia)) as [Hd2 G2].
  fold o in Hd2, G2. set (s2 := set_img _ s1) in *.
  rewrite u32_small by (unfold n1; lia). replace (Z.of_nat (length c) + Z.of_nat n1) with (Z.of_nat (length (c ++ take n1 p)))
    by (rewrite length_app, Hln; lia).
  assert (Hcp : (c ++ take n1 p) ++ drop n1 p = c ++ p) by (by rewrite <- app_assoc, take_drop).
  assert (Hfm2 : length fm1 = nblk (length (c ++ take n1 p))).
  { rewrite Hfm1, length_app, Hln. apply nblk_same; [unfold n1; lia|fold o; unfold n1; lia]. }
  destruct (IH (drop n1 p) s2 fm1 ind1 (c ++ take n1 p)) as (s3 & fm3 & ind3 & E3 & Hd3 & Hl3 & G3).
  - apply (gr_image _ _ _ _ _ _ G2).
  - done.
  - apply (gr_own _ _ _ _ _ _ G2).
  - done.
  - rewrite length_drop. unfold n1. lia.
  - rewrite Hcp, length_app. lia.
  - rewrite Hcp, length_app. pose proof (gr_block _ _ _ _ _ _ G2). pose proof (gr_block _ _ _ _ _ _ G1). lia.
  - rewrite Hcp in *. exists s3, fm3, ind3. split_and!; [done..|].
    assert (Hle : (length fm <= length fm1)%nat) by (rewrite Hfm, Hfm1; apply nblk_mono; lia).
    eapply grows_trans; [exact Hle|exact G1|]. eapply grows_trans; [|exact G2|exact G3]. done.
Qed.

(** ** The table of inodes *)

Definition inode_at (d : list (list byte)) (inum : Z) : dinode :=
  dinode_at (blk d ∅ (IBLOCK inum sb)) (dinode_off inum).

Lemma iblock_range inum : 0 <= inum < 208 -> IBLOCK inum sb = inum / 8 + 32 /\ 32 <= inum / 8 + 32 < 58.
Proof.
  intros Hi. assert (0 <= inum / 8 < 26) by (split; [apply Z.div_pos; lia|apply Z.div_lt_upper_bound; lia]).
  unfold IBLOCK. change IPB with 8. change (sb_inodestart sb) with 32. rewrite u32_small by lia. lia.
Qed.

Lemma dinode_off_range inum : 0 <= inum -> (dinode_off inum + 64 <= 512)%nat.
Proof. intros Hi. unfold dinode_off. change IPB with 8. pose proof (Z.mod_pos_bound inum 8). lia. Qed.

Lemma rinode_ok s inum : image_ok s -> 0 <= inum < 208 -> rinode inum s = Ok (inode_at (img s) inum) s.
Proof.
  intros Him Hi. pose proof (iblock_range inum Hi) as [E Hr]. unfold rinode.
  by rewrite (bind_ok _ _ _ _ _ (rsect_ok s _ _ (block_lookup s (IBLOCK inum sb) Him ltac:(lia)))).
Qed.

Definition put_inode (s : mkfs) (inum : Z) (di : dinode) : mkfs :=
  set_img (<[Z.to_nat (IBLOCK inum sb) :=
    splice (dinode_off inum) (dinode_bytes di) (blk (img s) ∅ (IBLOCK inum sb))]> (img s)) s.

Lemma winode_ok s inum di : image_ok s -> 0 <= inum < 208 -> winode inum di s = Ok tt (put_inode s inum di).
Proof.
  intros Him Hi. pose proof (iblock_range inum Hi) as [E Hr]. unfold winode.
  rewrite (bind_ok _ _ _ _ _ (rsect_ok s _ _ (block_lookup s (IBLOCK inum sb) Him ltac:(lia)))).
  apply wsect_ok; [done|lia].
Qed.

Lemma put_inode_ok s inum di : image_ok s -> 0 <= inum < 208 -> dinode_ok di ->
  let s1 := put_inode s inum di in
  image_ok s1 /\ inode_at (img s1) inum = di /\
  (forall j, 0 <= j < 208 -> j <> inum -> inode_at (img s1) j = inode_at (img s) j) /\
  forall a, 0 <= a -> ~ 32 <= a < 58 -> blk (img s1) ∅ a = blk (img s) ∅ a.
Proof.
  intros Him Hi Hdi s1. pose proof (iblock_range inum Hi) as [E Hr]. pose proof (dinode_off_range inum ltac:(lia)) as Ho.
  pose proof Him as (Hlen & Hblk & Hf & _).
  assert (Hb : length (blk (img s) ∅ (IBLOCK inum sb)) = 512%nat).
  { exact (Forall_lookup_1 _ _ _ _ Hblk (block_lookup s (IBLOCK inum sb) Him ltac:(lia))). }
  pose proof (length_dinode_bytes di (proj1 (ok_addrs _ Hdi))) as Hld.
  assert (Hsame : blk (img s1) ∅ (IBLOCK inum sb) = splice (dinode_off inum) (dinode_bytes di) (blk (img s) ∅ (IBLOCK inum sb))).
  { unfold blk at 1. rewrite lookup_empty. apply list_lookup_total_insert_eq. lia. }
  assert (Hother : forall a, 0 <= a -> a <> IBLOCK inum sb -> blk (img s1) ∅ a = blk (img s) ∅ a).
  { intros a Ha Hne. unfold blk. rewrite !lookup_empty. apply list_lookup_total_insert_ne.
    intros E2. apply Z2Nat.inj in E2; lia. }
  split_and!.
  - apply image_write; [done|lia|]. rewrite length_splice; [done|lia].
  - unfold inode_at. rewrite Hsame. apply dinode_at_same; [done|lia].
  - intros j Hj Hne. unfold inode_at. destruct (decide (IBLOCK j sb = IBLOCK inum sb)) as [Eb|Eb].
    + rewrite Eb, Hsame. apply dinode_at_other; [lia|]. rewrite Hld.
      pose proof (iblock_range j Hj) as [E2 _]. unfold dinode_off. change IPB with 8.
      pose proof (Z.div_mod j 8). pose proof (Z.div_mod inum 8). pose proof (Z.mod_pos_bound j 8). pose proof (Z.mod_pos_bound inum 8). lia.
    + pose proof (iblock_range j Hj) as [E2 Hr2]. by rewrite Hother by lia.
  - intros a Ha Hn. apply Hother; lia.
Qed.

(** ** The files of the image *)

Definition total (G : list (Z * list byte)) : Z := foldr (fun f z => need (nblk (length f.2)) + z) 0 G.

Lemma total_insert G k f f' : G !! k = Some f ->
  total (<[k := f']> G) = total G - need (nblk (length f.2)) + need (nblk (length f'.2)).
Proof.
  revert k. induction G as [|g G IH]; intros k Hk; [done|]. destruct k as [|k]; simpl in *.
  - simplify_eq. lia.
  - rewrite (IH k Hk). lia.
Qed.

Lemma total_snoc G f : total (G ++ [f]) = total G + need (nblk (length f.2)).
Proof. unfold total. induction G as [|g G IH]; simpl in *; [lia|]. rewrite IH. lia. Qed.

Definition dino (t : Z) (c : list byte) (fm : list Z) (ind : Z) : dinode :=
  mk_dinode t 0 0 1 (Z.of_nat (length c)) (addrs fm ind).

(** File [k] of [G] is inode [k + 1] of the image and has the blocks [L !! k]. *)
Record inv (s : mkfs) (G : list (Z * list byte)) (L : list (list Z * Z)) : Prop := {
  in_image : image_ok s;
  in_count : length L = length G /\ freeinode s = 1 + Z.of_nat (length G) /\ (length G < 200)%nat;
  in_file : forall k t c fm ind, G !! k = Some (t, c) -> L !! k = Some (fm, ind) ->
    inode_at (img s) (Z.of_nat k + 1) = dino t c fm ind /\ data (img s) fm ind c /\ length fm = nblk (length c) /\
    own_ok (freeblock s) fm ind /\ 0 <= t < 2 ^ 16;
  in_apart : forall j k fm ind fm' ind' a, j <> k -> L !! j = Some (fm, ind) -> L !! k = Some (fm', ind') ->
    a ∈ owned fm ind -> a ∉ owned fm' ind';
  in_block : freeblock s = 59 + total G;
  in_fixed : blk (img s) ∅ 1 = splice 0 sb_bytes zeroes /\ blk (img s) ∅ 2 = zeroes }.

Lemma data_frame d d' fm ind c : (forall a, a ∈ owned fm ind -> blk d' ∅ a = blk d ∅ a) ->
  data d fm ind c -> data d' fm ind c.
Proof.
  intros Hsame [H1 H2 H3 H4]. split; try done.
  - rewrite <- H3. unfold contents. f_equal. apply map_ext_in. intros a Ha%list_elem_of_In. by apply Hsame, owned_elem.
  - destruct (Nat.ltb_spec 12 (length fm)); [|done]. destruct H4 as [H4 Hne]. split; [|done]. rewrite Hsame; [done|].
    unfold owned. rewrite (proj2 (Z.eqb_neq _ _) Hne). by left.
Qed.

Lemma blk_same d d' a : d' !! Z.to_nat a = d !! Z.to_nat a -> blk d' ∅ a = blk d ∅ a.
Proof. intros E. unfold blk. rewrite !lookup_empty, !list_lookup_total_alt. by rewrite E. Qed.

Lemma dino_ok t c fm ind hi : 0 <= t < 2 ^ 16 -> (length c <= 140 * 512)%nat -> own_ok hi fm ind -> hi <= 1000 ->
  0 <= ind < 2 ^ 32 -> dinode_ok (dino t c fm ind).
Proof.
  intros Ht Hc [_ Ho] Hhi Hind. split; simpl; [|lia|].
  - repeat (apply Forall_cons; split); [lia..|done].
  - split; [unfold addrs; rewrite length_app, length_pad; done|]. apply Forall_app. split; [|by constructor].
    apply pad_uints, Forall_forall. intros a Ha. rewrite Forall_forall in Ho. specialize (Ho a (owned_elem _ _ _ Ha)). lia.
Qed.

Lemma ind_uint hi fm ind c d : own_ok hi fm ind -> hi <= 1000 -> data d fm ind c -> 0 <= ind < 2 ^ 32.
Proof.
  intros [_ Ho] Hhi Hd. destruct (Z.eq_dec ind 0) as [->|Hne]; [lia|]. unfold owned in Ho.
  rewrite (proj2 (Z.eqb_neq _ _) Hne) in Ho. apply Forall_cons in Ho as [Ho _]. lia.
Qed.

(** No two files share a block after the blocks of one of them changed. *)
Lemma apart_insert (L : list (list Z * Z)) k fm1 ind1 : (k < length L)%nat ->
  (forall i j fm ind fm' ind' a, i <> j -> L !! i = Some (fm, ind) -> L !! j = Some (fm', ind') ->
     a ∈ owned fm ind -> a ∉ owned fm' ind') ->
  (forall i fm ind a, i <> k -> L !! i = Some (fm, ind) -> a ∈ owned fm ind -> a ∉ owned fm1 ind1) ->
  forall i j fm ind fm' ind' a, i <> j -> <[k := (fm1, ind1)]> L !! i = Some (fm, ind) ->
    <[k := (fm1, ind1)]> L !! j = Some (fm', ind') -> a ∈ owned fm ind -> a ∉ owned fm' ind'.
Proof.
  intros Hk Hapart Hnew i j fm ind fm' ind' a Hij Hi Hj Ha Ha'.
  destruct (decide (i = k)) as [->|Hik]; [|destruct (decide (j = k)) as [->|Hjk]].
  - rewrite list_lookup_insert_eq in Hi by lia. injection Hi as <- <-. rewrite list_lookup_insert_ne in Hj by done.
    by eapply (Hnew j).
  - rewrite list_lookup_insert_eq in Hj by lia. injection Hj as <- <-. rewrite list_lookup_insert_ne in Hi by done.
    by eapply (Hnew i).
  - rewrite list_lookup_insert_ne in Hi by done. rewrite list_lookup_insert_ne in Hj by done. by eapply (Hapart i j).
Qed.

(** The bytes of a file grow; the other files stay. *)
Lemma iappend_ok s G L k t c p : inv s G L -> G !! k = Some (t, c) ->
  let G' := <[k := (t, c ++ p)]> G in
  (length (c ++ p) <= 140 * 512)%nat -> total G' <= 941 ->
  exists s' L', iappend (Z.of_nat k + 1) p s = Ok tt s' /\ inv s' G' L'.
Proof.
  intros [Him (HLG & Hfi & HG) Hfile Hapart Hblock (Hf1 & Hf2)] Hk G' Hmax Htot.
  pose proof (lookup_lt_Some _ _ _ Hk) as Hkl. destruct (lookup_lt_is_Some_2 L k) as [[fm ind] HL]; [lia|].
  destruct (Hfile k t c fm ind Hk HL) as (Hino & Hd & Hfm & Hown & Ht).
  pose proof Him as (_ & _ & Hf & _). pose proof (total_insert G k _ (t, c ++ p) Hk) as Hti. fold G' in Hti. cbn [snd] in Hti.
  destruct (iappend_loop_ok (length p) p s fm ind c Him Hd Hown Hfm) as (s1 & fm1 & ind1 & E1 & Hd1 & Hfm1 & G1); [lia|done|rewrite Hfm; lia|].
  destruct G1 as [Him1 Hown1 Hi1 Hb1 Hframe Hfresh].
  assert (Hb1' : freeblock s1 = 59 + total G') by (rewrite Hb1, Hfm, Hfm1; lia). pose proof Him1 as (_ & _ & Hfr1 & _).
  assert (Hdi : dinode_ok (dino t (c ++ p) fm1 ind1)).
  { eapply dino_ok; [done|done|exact Hown1|lia|]. eapply ind_uint; [exact Hown1|lia|exact Hd1]. }
  assert (Hinum : 0 <= Z.of_nat k + 1 < 208) by lia.
  assert (Hlc : (length c <= 140 * 512)%nat) by (rewrite length_app in Hmax; lia).
  destruct (put_inode_ok s1 _ _ Him1 Hinum Hdi) as (Him2 & Hi2 & Ho2 & Hb2). set (s2 := put_inode s1 _ _) in *.
  assert (Hlow : forall a, 0 <= a < 59 -> blk (img s1) ∅ a = blk (img s) ∅ a).
  { intros a Ha. apply blk_same, Hframe; [lia|]. intros Hin. destruct Hown as [_ Ho]. rewrite Forall_forall in Ho.
    specialize (Ho a Hin). lia. }
  exists s2, (<[k := (fm1, ind1)]> L). split.
  - unfold iappend. rewrite (bind_ok _ _ _ _ _ (rinode_ok s _ Him Hinum)), Hino. cbn [d_size d_addrs dino].
    rewrite xint_id by lia. rewrite (bind_ok _ _ _ _ _ E1). cbn [fst snd]. rewrite xint_id by lia.
    by apply (winode_ok s1 _ (dino t (c ++ p) fm1 ind1)).
  - split; try done.
    + unfold G'. rewrite !length_insert. split_and!; [done| |done]. simpl. congruence.
    + intros j t' c' fm' ind' Hj HjL. unfold G' in Hj. destruct (decide (j = k)) as [->|Hne].
      * rewrite list_lookup_insert_eq in Hj by lia. rewrite list_lookup_insert_eq in HjL by lia. injection Hj as <- <-. injection HjL as <- <-.
        split; [done|split; [|done]]. eapply data_frame; [|exact Hd1]. intros a Ha.
        destruct Hown1 as [_ Ho]. rewrite Forall_forall in Ho. specialize (Ho a Ha). apply Hb2; lia.
      * rewrite list_lookup_insert_ne in Hj by done. rewrite list_lookup_insert_ne in HjL by done.
         destruct (Hfile j t' c' fm' ind' Hj HjL) as (Hino' & Hd' & Hfm' & Hown' & Ht').
        pose proof (lookup_lt_Some _ _ _ Hj) as Hjl. split; [|split; [|split; [done|split; [destruct Hown' as [Hn' Ho']; split; [done|]|done]]]].
        -- rewrite Ho2 by lia. rewrite <- Hino'. unfold inode_at. pose proof (iblock_range (Z.of_nat j + 1) ltac:(lia)) as [-> ?].
           rewrite Hlow by lia. done.
        -- eapply data_frame; [|exact Hd']. intros a Ha. destruct Hown' as [_ Ho']. rewrite Forall_forall in Ho'.
           specialize (Ho' a Ha). rewrite Hb2 by lia. apply blk_same, Hframe; [lia|].
           by eapply (Hapart j k).
        -- eapply Forall_impl; [exact Ho'|]. intros a Ha. cbn beta in Ha. change (freeblock s2) with (freeblock s1).
           pose proof (need_mono (length fm) (length fm1)) as Hm. rewrite Hfm, Hfm1 in Hm.
           specialize (Hm ltac:(apply nblk_mono; rewrite length_app; lia)). lia.
    + apply apart_insert; [lia|done|]. intros i fi di a Hne Hi Hin [Hx|Hx]%Hfresh; [by eapply (Hapart i k)|].
      destruct (lookup_lt_is_Some_2 G i) as [[t' c'] Hg]; [rewrite <- HLG; by eapply lookup_lt_Some|].
      destruct (Hfile i t' c' fi di Hg Hi) as (_ & _ & _ & [_ Ho] & _). rewrite Forall_forall in Ho. specialize (Ho a Hin). lia.
    + split; rewrite Hb2 by lia; rewrite Hlow by lia; done.
Qed.

Lemma ialloc_ok s G L t : inv s G L -> 0 <= t < 2 ^ 16 -> (length G < 199)%nat ->
  exists s', ialloc t s = Ok (1 + Z.of_nat (length G)) s' /\ inv s' (G ++ [(t, [])]) (L ++ [([], 0)]).
Proof.
  intros [Him (HLG & Hfi & HG) Hfile Hapart Hblock (Hf1 & Hf2)] Ht Hroom.
  set (n := 1 + Z.of_nat (length G)) in *. set (s1 := {| img := img s; freeinode := n + 1; freeblock := freeblock s |}).
  assert (Him1 : image_ok s1) by exact Him. pose proof Him as (_ & _ & Hfr & _).
  assert (Hdi : dinode_ok (dino t [] [] 0)).
  { eapply (dino_ok t [] [] 0 1000); [done|cbn [length]; lia| |lia|lia]. split; [apply NoDup_nil_2|apply Forall_nil_2]. }
  destruct (put_inode_ok s1 n _ Him1 ltac:(lia) Hdi) as (Him2 & Hi2 & Ho2 & Hb2). set (s2 := put_inode s1 n _) in *.
  exists s2. split.
  - unfold ialloc, next_inode. rewrite bind_assoc, bind_gets, bind_assoc, bind_modify, bind_ret, Hfi, u32_small by lia. fold s1.
    rewrite xshort_id by done. change (mk_dinode t 0 0 (xshort 1) (xint 0) (replicate 13 0)) with (dino t [] [] 0).
    by rewrite (bind_ok _ _ _ _ _ (winode_ok s1 n _ Him1 ltac:(lia))).
  - split; try done.
    + rewrite !length_app. simpl. unfold n. split_and!; lia.
    + intros k t' c fm ind Hk HL. apply lookup_snoc_Some in Hk. apply lookup_snoc_Some in HL.
      destruct Hk as [[Hk1 Hk]|[Hk1 Hk]]; destruct HL as [[HL1 HL]|[HL1 HL]]; try lia.
      * destruct (Hfile k t' c fm ind Hk HL) as (Hino & Hd & Hfm & Hown & Ht').
        split; [|split; [|done]].
        -- rewrite Ho2 by (unfold n; lia). exact Hino.
        -- eapply data_frame; [|exact Hd]. intros a Ha. destruct Hown as [_ Ho]. rewrite Forall_forall in Ho.
           specialize (Ho a Ha). apply Hb2; lia.
      * injection Hk as <- <-. injection HL as <- <-. split; [|split; [|split; [done|split; [|done]]]].
        -- rewrite Hk1. replace (Z.of_nat (length G) + 1) with n by (unfold n; lia). done.
        -- split; simpl; try lia; done.
        -- split; [apply NoDup_nil_2|done].
    + intros i j fm ind fm' ind' a Hij Hi Hj Ha. apply lookup_snoc_Some in Hi. apply lookup_snoc_Some in Hj.
      destruct Hi as [[Hi1 Hi]|[Hi1 Hi]]; [|injection Hi as <- <-; by apply elem_of_nil in Ha].
      destruct Hj as [[Hj1 Hj]|[Hj1 Hj]]; [by eapply (Hapart i j)|]. injection Hj as <- <-. apply not_elem_of_nil.
    + rewrite total_snoc. change (need (nblk (length (t, [] : list byte).2))) with 0. simpl. lia.
    + split; rewrite Hb2 by lia; done.
Qed.

Lemma total_mono A B C : Forall2 (fun f g : Z * list byte => (length f.2 <= length g.2)%nat) A B -> total A <= total (B ++ C).
Proof.
  assert (Hpos : forall n, 0 <= need n) by (intros n; unfold need; destruct (12 <? n)%nat; lia).
  induction 1 as [|f g A B Hfg HAB IH]; simpl.
  - induction C as [|x C IHC]; simpl; [lia|]. specialize (Hpos (nblk (length x.2))). lia.
  - pose proof (need_mono _ _ (nblk_mono _ _ Hfg)). lia.
Qed.

Lemma append_chunks_ok k t : forall chunks s G L c, inv s G L -> G !! k = Some (t, c) ->
  (length (c ++ concat chunks) <= 140 * 512)%nat -> total (<[k := (t, c ++ concat chunks)]> G) <= 941 ->
  exists s' L', append_chunks (Z.of_nat k + 1) chunks s = Ok tt s' /\ inv s' (<[k := (t, c ++ concat chunks)]> G) L'.
Proof.
  induction chunks as [|p chunks IH]; intros s G L c Hinv Hk Hmax Htot; cbn [append_chunks concat] in *.
  - rewrite app_nil_r in *. exists s, L. split; [done|]. by rewrite list_insert_id.
  - rewrite app_assoc in *. pose proof (lookup_lt_Some _ _ _ Hk).
    assert (Ht1 : total (<[k := (t, c ++ p)]> G) <= 941).
    { etrans; [|exact Htot]. rewrite !(total_insert G k _ _ Hk). cbn [snd].
      pose proof (need_mono _ _ (nblk_mono (length (c ++ p)) (length ((c ++ p) ++ concat chunks)) ltac:(rewrite (length_app (c ++ p)); lia))). lia. }
    destruct (iappend_ok s G L k t c p Hinv Hk ltac:(rewrite length_app in Hmax; lia) Ht1) as (s1 & L1 & E1 & Hinv1).
    rewrite (bind_ok _ _ _ _ _ E1).
    destruct (IH s1 _ L1 (c ++ p) Hinv1) as (s2 & L2 & E2 & Hinv2).
    + by apply list_lookup_insert_eq.
    + done.
    + by rewrite list_insert_insert_eq.
    + rewrite list_insert_insert_eq in Hinv2. by exists s2, L2.
Qed.

(** ** The files of the command line *)

(** The name in the directory: a leading underscore is left out. *)
Definition file_name (f : list byte * list (list byte)) : list byte :=
  match f.1 with c :: n => if bool_decide (c = underscore) then n else f.1 | [] => [] end.

(** The entries of the directory for files with inodes from [i] on. *)
Fixpoint entries (i : Z) (l : list (list byte * list (list byte))) : list byte :=
  match l with
  | [] => []
  | f :: l => dirent_of (file_name f) i ++ entries (i + 1) l
  end.

Definition regular (f : list byte * list (list byte)) : Z * list byte := (T_FILE, concat (f.2)).

Lemma length_dirent name i : length (dirent_of name i) = 16%nat.
Proof.
  unfold dirent_of. rewrite length_app, length_le_split, length_strncpy_bytes, length_take, length_app, length_replicate.
  unfold DIRSIZ. lia.
Qed.

Lemma length_entries l : forall i, length (entries i l) = (16 * length l)%nat.
Proof. induction l as [|f l IH]; intros i; cbn [entries length]; [done|]. rewrite length_app, length_dirent, IH. lia. Qed.

Lemma add_file_ok f s D rest L : let G := (T_DIR, D) :: rest in let i := 1 + Z.of_nat (length G) in
  inv s G L -> slash ∉ f.1 -> (length rest < 198)%nat -> (length (concat (f.2)) <= 140 * 512)%nat ->
  (length D + 16 <= 140 * 512)%nat ->
  let G' := (T_DIR, D ++ dirent_of (file_name f) i) :: rest ++ [regular f] in
  total G' <= 941 -> exists s' L', add_file 1 f s = Ok tt s' /\ inv s' G' L'.
Proof.
  intros G i Hinv Hslash Hrest Hlen HD G' Htot. unfold add_file. rewrite bool_decide_eq_false_2 by done. cbn [assert_ negb].
  rewrite bind_ret. fold (file_name f).
  destruct (ialloc_ok s G L T_FILE Hinv ltac:(unfold T_FILE; lia) ltac:(simpl; lia)) as (s1 & E1 & Hinv1).
  rewrite (bind_ok _ _ _ _ _ E1). fold i. rewrite xshort_id by (unfold i, G; simpl length; lia).
  set (k := S (length rest)). set (D' := D ++ dirent_of (file_name f) i).
  assert (HlD : length D' = (length D + 16)%nat) by (unfold D'; by rewrite length_app, length_dirent).
  assert (Ht2 : total ((T_DIR, D') :: rest ++ [(T_FILE, [])]) <= 941).
  { etrans; [|exact Htot]. rewrite <- (app_nil_r G'). apply total_mono. constructor; [done|]. apply Forall2_app.
    - apply Forall2_same_length_lookup_2; [done|]. intros j x y Hx Hy. by simplify_eq.
    - constructor; [simpl; lia|constructor]. }
  destruct (iappend_ok s1 _ _ 0 T_DIR D (dirent_of (file_name f) i) Hinv1 eq_refl) as (s2 & L2 & E2 & Hinv2).
  { fold D'. rewrite HlD. lia. }
  { exact Ht2. }
  change (Z.of_nat 0 + 1) with 1 in E2. rewrite (bind_ok _ _ _ _ _ E2). cbn [insert list_insert] in Hinv2.
  destruct (append_chunks_ok k T_FILE (f.2) s2 ((T_DIR, D') :: rest ++ [(T_FILE, [])]) L2 [] Hinv2) as (s3 & L3 & E3 & Hinv3).
  - simpl. by apply list_lookup_middle.
  - done.
  - unfold k. simpl. rewrite insert_app_r_alt by lia. rewrite Nat.sub_diag. exact Htot.
  - exists s3, L3. replace i with (Z.of_nat k + 1) by (unfold i, k, G; simpl length; lia). split; [exact E3|].
    revert Hinv3. unfold k. simpl. rewrite insert_app_r_alt by lia. rewrite Nat.sub_diag. done.
Qed.

Lemma add_files_ok : forall l s D rest L, let G := (T_DIR, D) :: rest in
  inv s G L -> Forall (fun f => slash ∉ f.1 /\ (length (concat f.2) <= 140 * 512)%nat) l ->
  (length rest + length l < 199)%nat -> (length D + 16 * length l <= 140 * 512)%nat ->
  let G' := (T_DIR, D ++ entries (1 + Z.of_nat (length G)) l) :: rest ++ map regular l in
  total G' <= 941 -> exists s' L', add_files 1 l s = Ok tt s' /\ inv s' G' L'.
Proof.
  induction l as [|f l IH]; intros s D rest L G Hinv Hl Hrest HD G' Htot.
  - unfold G' in *. cbn [entries map] in *. rewrite !app_nil_r in *. by exists s, L.
  - inversion_clear Hl as [|?? [Hslash Hlen] Hl']. cbn [length] in Hrest, HD. cbn [add_files].
    set (i := 1 + Z.of_nat (length G)) in *. set (D1 := D ++ dirent_of (file_name f) i).
    assert (HG : G' = (T_DIR, D1 ++ entries (1 + Z.of_nat (length ((T_DIR, D1) :: rest ++ [regular f]))) l) ::
      (rest ++ [regular f]) ++ map regular l).
    { unfold G', D1. cbn [entries map]. rewrite <- !app_assoc. cbn [app]. do 4 f_equal. unfold i, G. simpl length.
      rewrite length_app. f_equal. simpl. lia. }
    assert (Htot1 : total ((T_DIR, D1) :: rest ++ [regular f]) <= 941).
    { etrans; [|exact Htot]. rewrite HG. apply (total_mono _ (_ :: rest ++ [regular f]) (map regular l)).
      constructor; [cbn [snd]; rewrite length_app; lia|].
      apply Forall2_same_length_lookup_2; [done|]. intros j u v Hu Hv. by simplify_eq. }
    destruct (add_file_ok f s D rest L Hinv Hslash ltac:(lia) Hlen ltac:(lia) Htot1) as (s1 & L1 & E1 & Hinv1).
    rewrite (bind_ok _ _ _ _ _ E1).
    destruct (IH s1 D1 (rest ++ [regular f]) L1 Hinv1 Hl') as (s2 & L2 & E2 & Hinv2).
    + rewrite length_app. simpl. lia.
    + unfold D1. rewrite length_app, length_dirent. lia.
    + by rewrite <- HG.
    + exists s2, L2. split; [exact E2|]. by rewrite HG.
Qed.

(** ** The bitmap *)

Lemma land_bit x k : 0 <= k -> negb (Z.land x (Z.shiftl 1 k) =? 0) = Z.testbit x k.
Proof.
  intros Hk. assert (E : Z.land x (Z.shiftl 1 k) = if Z.testbit x k then Z.shiftl 1 k else 0).
  { apply Z.bits_inj'. intros n Hn. rewrite Z.land_spec, Z.shiftl_spec by done.
    destruct (Z.eq_dec n k) as [->|Hne].
    - rewrite Z.sub_diag. destruct (Z.testbit x k); [by rewrite Z.shiftl_spec, Z.sub_diag by done|by rewrite Z.testbit_0_l].
    - assert (Hz : Z.testbit 1 (n - k) = false).
      { destruct (Z.lt_ge_cases (n - k) 0); [by apply Z.testbit_neg_r|]. apply (Z.bits_above_log2 1); simpl; lia. }
      rewrite Hz, andb_false_r. destruct (Z.testbit x k); [by rewrite Z.shiftl_spec|by rewrite Z.testbit_0_l]. }
  rewrite E. destruct (Z.testbit x k); [|done]. rewrite Z.shiftl_1_l. pose proof (Z.pow_pos_nonneg 2 k).
  by rewrite (proj2 (Z.eqb_neq _ _)) by lia.
Qed.

Lemma bm_test_bit l b : 0 <= b -> bm_test l b = Z.testbit (bm_byte l b) (b mod 8).
Proof. intros Hb. unfold bm_test, bm_mask. apply land_bit. apply Z.mod_pos_bound. lia. Qed.

Lemma bm_test_set l i b : length l = 512%nat -> 0 <= i < 4096 -> 0 <= b < 4096 ->
  bm_test (bm_set i l) b = (b =? i) || bm_test l b.
Proof.
  intros Hl Hi Hb. rewrite !bm_test_bit by lia. unfold bm_set, bm_byte at 1.
  assert (Hdiv : forall x, 0 <= x < 4096 -> 0 <= x / 8 < 512) by (intros x Hx; split; [apply Z.div_pos; lia|apply Z.div_lt_upper_bound; lia]).
  pose proof (Hdiv i Hi). pose proof (Hdiv b Hb). pose proof (Z.mod_pos_bound b 8 ltac:(lia)). pose proof (Z.mod_pos_bound i 8 ltac:(lia)).
  pose proof (Z.div_mod i 8). pose proof (Z.div_mod b 8).
  destruct (Z.eq_dec (b / 8) (i / 8)) as [E|E].
  - rewrite E, list_lookup_total_insert_eq by lia. rewrite byte.unsigned_of_Z. unfold byte.wrap.
    rewrite Z.mod_pow2_bits_low by lia. rewrite Z.lor_spec, orb_comm. f_equal.
    + unfold bm_mask. rewrite Z.shiftl_spec by lia. destruct (Z.eqb_spec b i) as [->|Hne].
      * by rewrite Z.sub_diag.
      * destruct (Z.lt_ge_cases (b mod 8 - i mod 8) 0); [by apply Z.testbit_neg_r|]. apply (Z.bits_above_log2 1); simpl; lia.
    + unfold bm_byte. by rewrite E.
  - rewrite list_lookup_total_insert_ne by lia. rewrite (proj2 (Z.eqb_neq b i)) by (intros ->; lia). done.
Qed.

Lemma balloc_bits_ok b : 0 <= b < 4096 -> forall n i l, length l = 512%nat -> 0 <= i -> i + Z.of_nat n <= 4096 ->
  length (balloc_bits n i l) = 512%nat /\
  bm_test (balloc_bits n i l) b = (i <=? b) && (b <? i + Z.of_nat n) || bm_test l b.
Proof.
  intros Hb. induction n as [|n IH]; intros i l Hl Hi Hn; cbn [balloc_bits].
  - split; [done|]. destruct (Z.leb_spec i b), (Z.ltb_spec b (i + Z.of_nat 0)); simpl; lia || done.
  - destruct (IH (i + 1) (bm_set i l)) as [H1 H2]; [unfold bm_set; by rewrite length_insert|lia|lia|]. split; [done|].
    rewrite H2, bm_test_set by lia. rewrite orb_assoc. f_equal.
    destruct (Z.leb_spec (i + 1) b), (Z.ltb_spec b (i + 1 + Z.of_nat n)), (Z.eqb_spec b i), (Z.leb_spec i b), (Z.ltb_spec b (i + Z.of_nat (S n)));
      simpl; lia || done.
Qed.

Lemma bm_test_zeroes b : bm_test zeroes b = false.
Proof.
  unfold bm_test, bm_byte. replace (zeroes !!! Z.to_nat (b / 8)) with Byte.x00; [done|]. unfold zeroes. rewrite list_lookup_total_alt.
  destruct (decide (Z.to_nat (b / 8) < Z.to_nat BSIZE)%nat); [by rewrite lookup_replicate_2|]. by rewrite lookup_ge_None_2 by (rewrite length_replicate; lia).
Qed.

(** ** All blocks that are in use belong to a file *)

Lemma NoDup_concat (LL : list (list Z)) : (forall i l, LL !! i = Some l -> NoDup l) ->
  (forall i j l l' a, i <> j -> LL !! i = Some l -> LL !! j = Some l' -> a ∈ l -> a ∉ l') -> NoDup (concat LL).
Proof.
  induction LL as [|l LL IH]; intros H1 H2; simpl; [apply NoDup_nil_2|]. apply NoDup_app. split_and!.
  - by apply (H1 0%nat).
  - intros a Ha Hc. apply list_elem_of_In, in_concat in Hc as (l' & Hl' & Ha'). apply list_elem_of_In in Hl', Ha'.
    apply list_elem_of_lookup in Hl' as [j Hj]. by apply (H2 0%nat (S j) l l' a).
  - apply IH; [intros i; apply (H1 (S i))|]. intros i j l1 l2 a Hij. apply (H2 (S i) (S j)). lia.
Qed.

Definition all_owned (L : list (list Z * Z)) : list Z := concat (map (fun x => owned x.1 x.2) L).

Lemma all_owned_elem L a : a ∈ all_owned L <-> exists k fm ind, L !! k = Some (fm, ind) /\ a ∈ owned fm ind.
Proof.
  unfold all_owned. rewrite list_elem_of_In, in_concat. split.
  - intros (l & Hl & Ha). apply in_map_iff in Hl as ([fm ind] & <- & Hin). apply list_elem_of_In, list_elem_of_lookup in Hin as [k Hk].
    exists k, fm, ind. split; [done|by apply list_elem_of_In].
  - intros (k & fm & ind & Hk & Ha). exists (owned fm ind). split; [|by apply list_elem_of_In].
    apply in_map_iff. exists (fm, ind). split; [done|]. by apply list_elem_of_In, (list_elem_of_lookup_2 _ k).
Qed.

Lemma inv_all_owned s G L : inv s G L -> forall a, 59 <= a < freeblock s <-> a ∈ all_owned L.
Proof.
  intros [Him (HLG & _) Hfile Hapart Hblock _].
  assert (Hrange : forall a, a ∈ all_owned L -> 59 <= a < freeblock s).
  { intros a (k & fm & ind & Hk & Ha)%all_owned_elem. destruct (lookup_lt_is_Some_2 G k) as [[t c] Hg]; [rewrite <- HLG; by eapply lookup_lt_Some|].
    destruct (Hfile k t c fm ind Hg Hk) as (_ & _ & _ & [_ Ho] & _). rewrite Forall_forall in Ho. by apply Ho. }
  assert (Hnd : NoDup (all_owned L)).
  { apply NoDup_concat.
    - intros i l Hi. rewrite list_lookup_fmap in Hi. destruct (L !! i) as [[fm ind]|] eqn:Ei; [|done]. injection Hi as <-.
      destruct (lookup_lt_is_Some_2 G i) as [[t c] Hg]; [rewrite <- HLG; by eapply lookup_lt_Some|].
      by destruct (Hfile i t c fm ind Hg Ei) as (_ & _ & _ & [Hn _] & _).
    - intros i j l l' a Hij Hi Hj Ha. rewrite list_lookup_fmap in Hi, Hj.
      destruct (L !! i) as [[fm ind]|] eqn:Ei; [|done]. destruct (L !! j) as [[fm' ind']|] eqn:Ej; [|done].
      injection Hi as <-. injection Hj as <-. by apply (Hapart i j fm ind fm' ind' a). }
  assert (Hlen : Z.of_nat (length (all_owned L)) = total G).
  { assert (H2 : Forall2 (fun g x => Z.of_nat (length (owned x.1 x.2)) = need (nblk (length g.2))) G L).
    { apply Forall2_same_length_lookup_2; [done|]. intros k [t c] [fm ind] Hg Hk.
      destruct (Hfile k t c fm ind Hg Hk) as (_ & Hd & Hfm & _). cbn [fst snd]. rewrite <- Hfm. unfold owned, need.
      pose proof (da_ind _ _ _ _ Hd) as Hi. destruct (12 <? length fm)%nat.
      - rewrite (proj2 (Z.eqb_neq _ _) (proj2 Hi)). simpl. lia.
      - rewrite Hi. simpl. lia. }
    clear -H2. induction H2 as [|g x G L H H2 IH]; [done|]. unfold all_owned in *. cbn [map concat]. rewrite length_app. simpl total. lia. }
  intros a. split; [|apply Hrange]. intros Ha. pose proof Him as (_ & _ & Hf & _).
  assert (Hp : all_owned L ≡ₚ seqZ 59 (freeblock s - 59)).
  { apply submseteq_length_Permutation.
    - apply NoDup_submseteq; [done|]. intros x Hx. apply elem_of_seqZ. specialize (Hrange x Hx). lia.
    - rewrite length_seqZ. lia. }
  rewrite Hp. apply elem_of_seqZ. lia.
Qed.

(** ** What the kernel finds *)

Lemma loaded_eq d inum di : sb_of (d !!! 1%nat) = sb -> inode_at d inum = di ->
  loaded d inum = mk_inode ROOTDEV inum 1 I_VALID (s16 (d_type di)) (s16 (d_major di)) (s16 (d_minor di))
    (s16 (d_nlink di)) (d_size di) (d_addrs di).
Proof. intros E <-. unfold loaded, inode_at, dinode_at, blk. rewrite E, lookup_empty. done. Qed.

Lemma data_maps s fm ind c i : image_ok s -> data (img s) fm ind c -> own_ok (freeblock s) fm ind ->
  i_dev i = 1 -> i_addrs i = addrs fm ind -> maps i fm ind (img s) ∅.
Proof.
  intros Him Hd Hown Hdev Haddr. pose proof Him as (Hlen & Hblk & Hf & _). pose proof Hd as [_ Hmax _ Hi].
  pose proof (fm_range s fm ind Hown) as Hr. pose proof (ind_range s fm ind c Hd Hown) as Hir. split; try done.
  - apply Forall_forall. intros a Ha. specialize (Hr a Ha). lia.
  - intros q a Hq Hlt. rewrite Haddr. rewrite (list_lookup_lookup_total_lt (addrs fm ind) q)
      by (unfold addrs; rewrite length_app, length_pad; simpl; lia). f_equal.
    rewrite addrs_direct by done. rewrite decide_True by (by eapply lookup_lt_Some). by apply list_lookup_total_correct.
  - rewrite Haddr. unfold addrs. rewrite lookup_app_r by (rewrite length_pad; lia). by rewrite length_pad.
  - intros Hgt. specialize (Hir Hgt). lia.
  - intros q a Hq Hge. pose proof (lookup_lt_Some _ _ _ Hq). rewrite (proj2 (Nat.ltb_lt 12 _)) in Hi by lia. destruct Hi as [Hw _].
    assert (E : words_of (blk (img s) ∅ ind) !!! (q - 12)%nat = word 4 (blk (img s) ∅ ind) (4 * (q - 12))).
    { unfold words_of. apply list_lookup_total_correct. rewrite list_lookup_fmap, lookup_seq_lt; [done|].
      change (Z.to_nat NINDIRECT) with 128%nat. lia. }
    rewrite <- E, Hw, lookup_pad by lia. rewrite decide_True by (rewrite length_drop; lia).
    apply list_lookup_total_correct. rewrite lookup_drop. rewrite <- Hq. f_equal. lia.
  - destruct Hown as [Hn _]. unfold owned in Hn. destruct (ind =? 0); [done|by inversion Hn].
  - intros Hgt. by apply Hir.
  - apply Forall_forall. intros a Ha. specialize (Hr a Ha).
    exact (Forall_lookup_1 _ _ _ _ Hblk (block_lookup s a Him ltac:(lia))).
Qed.

(** ** The start *)

Lemma fill_ok : forall n s, fill n (Z.of_nat (length (img s))) s = Ok tt (set_img (img s ++ replicate n zeroes) s).
Proof.
  induction n as [|n IH]; intros s; cbn [fill replicate].
  - rewrite app_nil_r. by destruct s.
  - unfold wsect. rewrite bind_modify. cbv zeta. rewrite Nat2Z.id, Nat.ltb_irrefl, Nat.sub_diag. cbn [replicate app].
    set (s1 := set_img _ s). replace (Z.of_nat (length (img s)) + 1) with (Z.of_nat (length (img s1)))
      by (simpl; rewrite length_app; simpl; lia).
    rewrite IH. simpl. by rewrite <- app_assoc.
Qed.

(** The empty file system. *)
Definition empty_fs : mkfs :=
  {| img := <[1%nat := splice 0 sb_bytes zeroes]> (replicate 1000 zeroes); freeinode := 1; freeblock := 59 |}.

Lemma empty_fs_inv : inv empty_fs [] [].
Proof.
  assert (Hz : length zeroes = BLK) by apply length_replicate.
  split; [|split_and!; done || (simpl; lia)|done..|by vm_compute].
  - unfold empty_fs. split_and!; cbn [img freeblock]; [| |lia..|].
    + by rewrite length_insert, length_replicate.
    + apply Forall_insert; [by apply Forall_replicate|]. by vm_compute.
    + intros a Ha. rewrite list_lookup_insert_ne by lia. apply lookup_replicate_2. lia.
Qed.

Lemma main_start files : main files start =
  (rootino <- ialloc T_DIR ;;
   assert_ (rootino =? ROOTINO) ;;
   iappend rootino (dirent_of dot (xshort rootino)) ;;
   iappend rootino (dirent_of dotdot (xshort rootino)) ;;
   add_files rootino files ;;
   din <- rinode rootino ;;
   let off := xint (d_size din) in
   let off := u32 ((off / BSIZE + 1) * BSIZE) in
   winode rootino (mk_dinode (d_type din) (d_major din) (d_minor din) (d_nlink din) (xint off) (d_addrs din)) ;;
   used <- gets freeblock ;;
   balloc used) empty_fs.
Proof.
  unfold main. rewrite bind_modify. set (s := {| img := _; freeinode := _; freeblock := _ |}).
  pose proof (fill_ok (Z.to_nat FSSIZE) s) as E. change (Z.of_nat (length (img s))) with 0 in E.
  rewrite (bind_ok _ _ _ _ _ E). unfold wsect at 1. rewrite bind_modify. cbv zeta. cbn [img set_img app start s].
  rewrite length_replicate. reflexivity.
Qed.

Definition root_dir (files : list (list byte * list (list byte))) : list byte :=
  dirent_of dot 1 ++ dirent_of dotdot 1 ++ entries 2 files.

Definition all_files (files : list (list byte * list (list byte))) : list (Z * list byte) :=
  (T_DIR, root_dir files) :: map regular files.

(** Before the root directory gets its final size. *)
Lemma main_files files : Forall (fun f => slash ∉ f.1 /\ (length (concat f.2) <= 140 * 512)%nat) files ->
  (length files < 199)%nat -> total (all_files files) <= 941 ->
  exists s L, inv s (all_files files) L /\ main files start =
    (din <- rinode 1 ;;
     let off := xint (d_size din) in
     let off := u32 ((off / BSIZE + 1) * BSIZE) in
     winode 1 (mk_dinode (d_type din) (d_major din) (d_minor din) (d_nlink din) (xint off) (d_addrs din)) ;;
     used <- gets freeblock ;;
     balloc used) s.
Proof.
  intros Hfiles Hn Htot. rewrite main_start.
  destruct (ialloc_ok empty_fs [] [] T_DIR empty_fs_inv ltac:(unfold T_DIR; lia) ltac:(simpl; lia)) as (s1 & E1 & H1).
  rewrite (bind_ok _ _ _ _ _ E1). change (1 + Z.of_nat (length (@nil (Z * list byte)))) with 1. cbn [app] in H1.
  change (1 =? ROOTINO) with true. cbn [assert_]. rewrite bind_ret. rewrite xshort_id by lia.
  assert (Hle : forall D, (length D <= length (root_dir files))%nat -> total [(T_DIR, D)] <= 941).
  { intros D HD. etrans; [|exact Htot]. apply (total_mono _ [_] (map regular files)). by constructor. }
  assert (Hroot : length (root_dir files) = (32 + 16 * length files)%nat).
  { unfold root_dir. rewrite !length_app, !length_dirent, length_entries. lia. }
  destruct (iappend_ok s1 _ _ 0 T_DIR [] (dirent_of dot 1) H1 eq_refl) as (s2 & L2 & E2 & H2).
  { rewrite app_nil_l, length_dirent. lia. }
  { apply Hle. rewrite app_nil_l, length_dirent. lia. }
  change (Z.of_nat 0 + 1) with 1 in E2. rewrite (bind_ok _ _ _ _ _ E2).
  destruct (iappend_ok s2 _ _ 0 T_DIR (dirent_of dot 1) (dirent_of dotdot 1) H2 eq_refl) as (s3 & L3 & E3 & H3).
  { rewrite length_app, !length_dirent. lia. }
  { apply Hle. rewrite length_app, !length_dirent. lia. }
  change (Z.of_nat 0 + 1) with 1 in E3. rewrite (bind_ok _ _ _ _ _ E3).
  destruct (add_files_ok files s3 (dirent_of dot 1 ++ dirent_of dotdot 1) [] L3 H3 Hfiles) as (s4 & L4 & E4 & H4).
  { simpl length. lia. }
  { rewrite length_app, !length_dirent. lia. }
  { rewrite <- app_assoc. exact Htot. }
  rewrite (bind_ok _ _ _ _ _ E4). exists s4, L4. split; [|done]. rewrite <- app_assoc in H4. exact H4.
Qed.

(** The size of inode [k + 1]: the size of the root directory, the first of the
    files, is rounded up, by a whole block if it is a multiple of the block size. *)
Definition final_size (k : nat) (c : list byte) : Z :=
  let n := Z.of_nat (length c) in
  if (k =? 0)%nat then (n / 512 + 1) * 512 else n.

Lemma set_bitmap s : image_ok s -> exists s', balloc (freeblock s) s = Ok tt s' /\
  image_ok s' /\ freeblock s' = freeblock s /\ (forall a, 0 <= a -> a <> 58 -> blk (img s') ∅ a = blk (img s) ∅ a) /\
  forall b, 0 <= b < 1000 -> bm_test (blk (img s') ∅ 58) b = (b <? freeblock s).
Proof.
  intros Him. pose proof Him as (Hlen & _ & Hf & _). unfold balloc.
  change (BSIZE * 8) with 4096. rewrite (proj2 (Z.ltb_lt _ _)) by lia. cbn [assert_]. rewrite bind_ret.
  change (sb_bmapstart sb) with 58. rewrite (wsect_ok s 58 _ Him ltac:(lia)). set (bm := balloc_bits _ _ _).
  assert (Hbm : forall b, 0 <= b < 4096 -> length bm = 512%nat /\ bm_test bm b = (b <? freeblock s)).
  { intros b Hb. destruct (balloc_bits_ok b Hb (Z.to_nat (freeblock s)) 0 zeroes) as [H1 H2]; [apply length_replicate|lia|lia|].
    split; [done|]. unfold bm. rewrite H2, bm_test_zeroes, orb_false_r. rewrite Z2Nat.id by lia.
    by rewrite (proj2 (Z.leb_le 0 b)) by lia. }
  eexists. split; [reflexivity|]. split; [|split; [done|split]].
  - apply image_write; [done|lia|]. apply (Hbm 0). lia.
  - intros a Ha Hne. unfold blk. rewrite !lookup_empty. apply list_lookup_total_insert_ne. lia.
  - intros b Hb. replace (blk _ ∅ 58) with bm; [apply (Hbm b); lia|]. unfold blk. rewrite lookup_empty.
    symmetry. apply list_lookup_total_insert_eq. lia.
Qed.

(** The end of [main] changes the root's inode and the bitmap only. *)
Lemma main_end s G L t D fm ind : inv s G L -> G !! 0%nat = Some (t, D) -> L !! 0%nat = Some (fm, ind) ->
  (length D <= 140 * 512)%nat ->
  exists s2, (din <- rinode 1 ;;
     let off := xint (d_size din) in
     let off := u32 ((off / BSIZE + 1) * BSIZE) in
     winode 1 (mk_dinode (d_type din) (d_major din) (d_minor din) (d_nlink din) (xint off) (d_addrs din)) ;;
     used <- gets freeblock ;;
     balloc used) s = Ok tt s2 /\
    image_ok s2 /\ freeblock s2 = freeblock s /\
    (forall a, 0 <= a -> ~ 32 <= a <= 58 -> blk (img s2) ∅ a = blk (img s) ∅ a) /\
    inode_at (img s2) 1 = mk_dinode t 0 0 1 (final_size 0 D) (addrs fm ind) /\
    (forall j, 0 <= j < 208 -> j <> 1 -> inode_at (img s2) j = inode_at (img s) j) /\
    forall b, 0 <= b < 1000 -> bm_test (blk (img s2) ∅ 58) b = (b <? freeblock s).
Proof.
  intros [Him _ Hfile _ _ _] HG HL HD. destruct (Hfile 0%nat t D fm ind HG HL) as (Hino & Hd & Hfm & Hown & Ht).
  pose proof Him as (_ & _ & Hf & _). change (Z.of_nat 0 + 1) with 1 in Hino.
  set (di := mk_dinode t 0 0 1 (final_size 0 D) (addrs fm ind)).
  assert (Hsz : 0 <= final_size 0 D < 2 ^ 32).
  { unfold final_size. rewrite Nat.eqb_refl. pose proof (Z.div_pos (Z.of_nat (length D)) 512).
    pose proof (Z.div_le_upper_bound (Z.of_nat (length D)) 512 1000). lia. }
  assert (Hdi : dinode_ok di).
  { destruct (dino_ok t D fm ind (freeblock s) Ht HD Hown ltac:(lia) (ind_uint _ _ _ _ _ Hown ltac:(lia) Hd)) as [K1 _ K3]. by split. }
  destruct (put_inode_ok s 1 di Him ltac:(lia) Hdi) as (Him1 & Hi1 & Ho1 & Hb1). set (s1 := put_inode s 1 di) in *.
  destruct (set_bitmap s1 Him1) as (s2 & E2 & Him2 & Hfb & Hb2 & Hbm). change (freeblock s1) with (freeblock s) in *.
  assert (Hino2 : forall j, 0 <= j < 208 -> inode_at (img s2) j = inode_at (img s1) j).
  { intros j Hj. unfold inode_at. pose proof (iblock_range j Hj) as [-> Hr]. by rewrite Hb2 by lia. }
  exists s2. split; [|split; [done|split; [done|split_and!]]]; try done.
  - rewrite (bind_ok _ _ _ _ _ (rinode_ok s 1 Him ltac:(lia))), Hino. cbn [d_size d_type d_major d_minor d_nlink d_addrs dino].
    rewrite (xint_id (Z.of_nat (length D))) by lia. change BSIZE with 512. change ((Z.of_nat (length D) / 512 + 1) * 512) with (final_size 0 D).
    rewrite u32_small, xint_id by lia. rewrite (bind_ok _ _ _ _ _ (winode_ok s 1 di Him ltac:(lia))). exact E2.
  - intros a Ha Hn. rewrite Hb2 by lia. apply Hb1; lia.
  - rewrite Hino2 by lia. exact Hi1.
  - intros j Hj Hne. rewrite Hino2 by lia. by apply Ho1.
Qed.

Lemma file_types files k t c : all_files files !! k = Some (t, c) -> s16 t = t /\ t <> T_DEV.
Proof.
  intros Hk. destruct k as [|k]; simpl in Hk; [by simplify_eq|]. rewrite list_lookup_fmap in Hk.
  destruct (files !! k); [|done]. by injection Hk as <- _.
Qed.

(** [readi] of a file that was loaded from the image delivers its contents. *)
Lemma image_readi d fm ind k t c devsw s f0 ws ip off n :
  maps (loaded d (Z.of_nat k + 1)) fm ind d ∅ -> i_type (loaded d (Z.of_nat k + 1)) = t -> t <> T_DEV ->
  i_size (loaded d (Z.of_nat k + 1)) = final_size k c -> length fm = nblk (length c) ->
  contents fm d ∅ = c ++ replicate (512 * length fm - length c) Byte.x00 ->
  (0 < k \/ length c mod 512 <> 0)%nat ->
  idle s -> st f0 d ws ∅ [] (fs s) -> icache f0 !! ip = Some (loaded d (Z.of_nat k + 1)) ->
  0 <= off -> 0 <= n -> off + n <= Z.of_nat (length c) ->
  runs (readi devsw ip ToVar off n) s (fun r f' =>
    r = (n, take (Z.to_nat n) (drop (Z.to_nat off) c)) /\ st f0 d ws ∅ [] f').
Proof.
  intros Hm Ht Hdev Hsz Hfm Hc Hk Hidle Hst Hi Ho Hn Hend.
  assert (Hsize : Z.of_nat (length c) <= final_size k c <= 512 * Z.of_nat (length fm)).
  { rewrite Hfm. unfold final_size, nblk. pose proof (Nat.div_mod_eq (length c + 511) 512). pose proof (Nat.mod_upper_bound (length c + 511) 512).
    pose proof (Nat.div_mod_eq (length c) 512). pose proof (Nat.mod_upper_bound (length c) 512).
    replace (Z.of_nat (length c) / 512) with (Z.of_nat (length c / 512)) by (by rewrite Nat2Z.inj_div).
    destruct (Nat.eqb_spec k 0); lia. }
  eapply runs_mono; [apply (readi_ok devsw ip _ fm ind ltac:(by rewrite Ht) ltac:(lia) s f0 d ws ∅ off n); try done; try lia; rewrite map_size_empty; unfold NBUF; lia|].
  cbv beta. intros r f' [-> Hst']. split; [|done]. f_equal. rewrite Hc, drop_app_le, take_app_le by (rewrite ?length_drop; lia). done.
Qed.

(** The image that [main] leaves. *)
Lemma main_image files :
  Forall (fun f => slash ∉ f.1 /\ (length (concat f.2) <= 140 * 512)%nat) files ->
  (length files < 199)%nat -> total (all_files files) <= 941 ->
  exists s L, main files start = Ok tt s /\ let d := img s in
    length d = 1000%nat /\ sb_of (d !!! 1%nat) = mk_superblock 1000 941 200 30 2 32 58 /\ clean_log 2 d /\
    (forall k t c, all_files files !! k = Some (t, c) -> exists fm ind, L !! k = Some (fm, ind) /\
       let i := loaded d (Z.of_nat k + 1) in
       maps i fm ind d ∅ /\ i_type i = t /\ i_nlink i = 1 /\ i_size i = final_size k c /\
       contents fm d ∅ = c ++ replicate (512 * length fm - length c) Byte.x00 /\ length fm = nblk (length c)) /\
    (forall j k fm ind fm' ind' a, j <> k -> L !! j = Some (fm, ind) -> L !! k = Some (fm', ind') ->
       a ∈ owned fm ind -> a ∉ owned fm' ind') /\
    forall b, 0 <= b < 1000 -> bm_test (d !!! 58%nat) b = true <-> b < 59 \/ b ∈ all_owned L.
Proof.
  intros Hfiles Hn Htot. destruct (main_files files Hfiles Hn Htot) as (s & L & Hinv & ->).
  assert (Hroot : (length (root_dir files) <= 140 * 512)%nat).
  { unfold root_dir. rewrite !length_app, !length_dirent, length_entries. lia. }
  pose proof Hinv as [Him (HLG & _ & HGn) Hfile Hapart Hblock (Hf1 & Hf2)].
  destruct (lookup_lt_is_Some_2 L 0) as [[fm0 ind0] HL0]; [rewrite HLG; simpl; lia|].
  destruct (main_end s (all_files files) L T_DIR (root_dir files) fm0 ind0 Hinv eq_refl HL0 Hroot)
    as (s2 & E2 & Him2 & Hfb & Hb2 & Hi2 & Ho2 & Hbm).
  exists s2, L. split; [done|]. cbv zeta. pose proof Him2 as (Hlen & _ & Hf & _).
  assert (Hsb : sb_of (img s2 !!! 1%nat) = sb).
  { specialize (Hb2 1 ltac:(lia) ltac:(lia)). rewrite Hf1 in Hb2. unfold blk in Hb2. rewrite lookup_empty in Hb2.
    change (Z.to_nat 1) with 1%nat in Hb2. rewrite Hb2. by vm_compute. }
  split; [done|]. split; [by rewrite Hsb; vm_compute|]. split.
  { exists zeroes. rewrite (block_lookup s2 2 Him2) by lia. rewrite Hb2 by lia. rewrite Hf2. split_and!; [done|by vm_compute..]. }
  split; [|split; [exact Hapart|]].
  - intros k t c Hk. pose proof (lookup_lt_Some _ _ _ Hk). destruct (lookup_lt_is_Some_2 L k) as [[fm ind] HLk]; [lia|].
    destruct (Hfile k t c fm ind Hk HLk) as (Hino & Hd & Hfm & Hown & Ht). exists fm, ind. split; [done|].
    assert (Hino2 : inode_at (img s2) (Z.of_nat k + 1) = mk_dinode t 0 0 1 (final_size k c) (addrs fm ind)).
    { destruct k as [|k]; [|rewrite Ho2 by lia; by rewrite Hino]. injection Hk as <- <-. simplify_eq. exact Hi2. }
    pose proof (loaded_eq _ _ _ Hsb Hino2) as El. cbn [d_type d_major d_minor d_nlink d_size d_addrs] in El.
    assert (Hd2 : data (img s2) fm ind c).
    { eapply data_frame; [|exact Hd]. intros a Ha. destruct Hown as [_ Ho]. rewrite Forall_forall in Ho.
      specialize (Ho a Ha). apply Hb2; lia. }
    assert (Hm : maps (loaded (img s2) (Z.of_nat k + 1)) fm ind (img s2) ∅).
    { rewrite El. eapply (data_maps s2 fm ind c); try done. by rewrite Hfb. }
    assert (Hty : i_type (loaded (img s2) (Z.of_nat k + 1)) = t) by (rewrite El; by eapply file_types).
    assert (Hsz : i_size (loaded (img s2) (Z.of_nat k + 1)) = final_size k c) by (by rewrite El).
    split_and!; [done|done|by rewrite El|done|apply Hd2|done].
  - intros b Hb. replace (img s2 !!! 58%nat) with (blk (img s2) ∅ 58) by (unfold blk; by rewrite lookup_empty).
    rewrite Hbm by lia. rewrite Z.ltb_lt, <- (inv_all_owned s _ L Hinv b). lia.
Qed.

(** C13: mkfs builds a file system that the kernel can read, for any files that
    fit.  The superblock describes the image and the log is empty.  The inode
    of every file names the blocks that hold its contents, as [readi] needs it,
    and the root directory has an entry for every file; [readi] of an inode that
    was loaded from the image delivers its contents.  No two files share a
    block, and the bitmap marks exactly the blocks before the data and the
    blocks of the files. *)
Theorem mkfs_builds_image files :
  Forall (fun f => slash ∉ f.1 /\ (length (concat f.2) <= 140 * 512)%nat) files ->
  (length files < 199)%nat -> total (all_files files) <= 941 ->
  exists s L, main files start = Ok tt s /\ let d := img s in
    length d = 1000%nat /\ sb_of (d !!! 1%nat) = mk_superblock 1000 941 200 30 2 32 58 /\ clean_log 2 d /\
    (forall k t c, all_files files !! k = Some (t, c) -> exists fm ind, L !! k = Some (fm, ind) /\
       let i := loaded d (Z.of_nat k + 1) in
       maps i fm ind d ∅ /\ i_type i = t /\ i_nlink i = 1 /\ i_size i = final_size k c /\
       contents fm d ∅ = c ++ replicate (512 * length fm - length c) Byte.x00 /\
       forall devsw s f0 ws ip off n, (0 < k \/ length c mod 512 <> 0)%nat -> idle s -> st f0 d ws ∅ [] (fs s) ->
         icache f0 !! ip = Some i -> 0 <= off -> 0 <= n -> off + n <= Z.of_nat (length c) ->
         runs (readi devsw ip ToVar off n) s (fun r _ => r = (n, take (Z.to_nat n) (drop (Z.to_nat off) c)))) /\
    (forall j k fm ind fm' ind' a, j <> k -> L !! j = Some (fm, ind) -> L !! k = Some (fm', ind') ->
       a ∈ owned fm ind -> a ∉ owned fm' ind') /\
    forall b, 0 <= b < 1000 -> bm_test (d !!! 58%nat) b = true <-> b < 59 \/ b ∈ all_owned L.
Proof.
  intros Hfiles Hn Htot. destruct (main_image files Hfiles Hn Htot) as (s & L & E & Hlen & Hsb & Hlog & Hf & Hrest).
  exists s, L. split; [done|]. cbv zeta. split; [done|]. split; [done|]. split; [done|]. split; [|exact Hrest].
  intros k t c Hk. destruct (Hf k t c Hk) as (fm & ind & HL & Hm & Ht & Hnl & Hsz & Hc & Hfm). exists fm, ind.
  refine (conj HL (conj Hm (conj Ht (conj Hnl (conj Hsz (conj Hc _)))))).
  intros devsw s0 f0 ws ip off n H1 H2 H3 H4 H5 H6 H7. eapply runs_mono.
  - apply (image_readi (img s) fm ind k t c) with (f0 := f0) (ws := ws); try assumption. by eapply file_types.
  - by intros r f' [-> _].
Qed.

Module MkfsDemo.

(** Two files on the command line; the second takes two blocks. *)
Definition readme : list (list byte) := [replicate 512 Byte.x41; replicate 100 Byte.x42].
Definition files : list (list byte * list (list byte)) :=
  [([Byte.x5f; Byte.x63; Byte.x61; Byte.x74], [[Byte.x7f]]); ([Byte.x52; Byte.x4d], readme)].

(** A kernel that found the image on its disk and loaded the second file. *)
Definition with_inode (i : inode) (s : kstate) : kstate := set_fs (set_icache [i] (fs s)) s.
Definition kernel (d : list (list byte)) : kstate := with_inode (loaded d 3) (CacheDemo.kernel d).

Lemma with_inode_ok i s : idle s -> crep (fs s) ∅ [] ->
  idle (with_inode i s) /\ crep (fs (with_inode i s)) ∅ [] /\ disk (fs (with_inode i s)) = disk (fs s) /\
  icache (fs (with_inode i s)) !! 0%nat = Some i.
Proof. intros. split_and!; [by apply idle_set_fs|by apply crep_icache|done..]. Qed.

Lemma files_ok : Forall (fun f => slash ∉ f.1 /\ (length (concat f.2) <= 140 * 512)%nat) files.
Proof.
  constructor; [|constructor; [|constructor]].
  - split; [apply (bool_decide_unpack _); by vm_compute|]. cbn [fst snd concat app length]. lia.
  - split; [apply (bool_decide_unpack _); by vm_compute|]. cbn [snd]. change (length (concat readme)) with 612%nat. lia.
Qed.

Lemma kernel_ok d : idle (kernel d) /\ st (fs (kernel d)) d (dwrites (fs (kernel d))) ∅ [] (fs (kernel d)) /\
  icache (fs (kernel d)) !! 0%nat = Some (loaded d 3).
Proof.
  destruct (with_inode_ok (loaded d 3) (CacheDemo.kernel d)) as (H1 & H2 & H3 & H4).
  - apply CacheDemo.idle_kernel.
  - eapply inited_crep, CacheDemo.inited_kernel.
  - pose proof (eq_trans H3 (CacheDemo.disk_kernel d)) as H5. fold (kernel d) in *. split; [exact H1|]. split; [|exact H4].
    apply st_refl in H2. rewrite H5 in H2. exact H2.
Qed.

End MkfsDemo.

(** Six bytes across the end of the first block of the second file. *)
Lemma mkfs_builds_image_witness : exists s f,
  main MkfsDemo.files start = Ok tt s /\
  readi DemoFs.no_devices 0 ToVar 509 6 (MkfsDemo.kernel (img s)) =
    Ok (6, replicate 3 Byte.x41 ++ replicate 3 Byte.x42) (set_fs f (MkfsDemo.kernel (img s))).
Proof.
  destruct (mkfs_builds_image MkfsDemo.files) as (s & L & E & _ & _ & _ & Hf & _).
  - exact MkfsDemo.files_ok.
  - cbn. lia.
  - by vm_compute.
  - destruct (Hf 2%nat T_FILE (concat MkfsDemo.readme) eq_refl) as (fm & ind & _ & _ & _ & _ & _ & _ & Hread).
    destruct (MkfsDemo.kernel_ok (img s)) as (Hidle & Hst & Hi).
    destruct (Hread DemoFs.no_devices _ _ _ 0%nat 509 6 (or_introl (Nat.lt_0_succ 1)) Hidle Hst Hi)
      as (r & f & E2 & ->); [lia|lia|by vm_compute|].
    exists s, f. split; [exact E|]. rewrite E2. f_equal.
Defined.
