(* ===== verification/MkfsBoot.v ===== *)
(** * Opening the files of an image

    The image that mkfs.c builds, seen by the kernel: a path of one component
    leads through the root directory to the file of the command line that has
    this name, and [readi] delivers the bytes that were given to mkfs. *)

From stdpp Require Import gmap.
From S2P Require Import Prelude Memory CString FsState Machine Spinlock Kalloc Proc Sleeplock Bio BioSpec Blocks.
From S2P Require Import Log LogSpec LogCrash Demo DemoFs CacheInit Txn Fs FileSpec InodeSpec PathSpec NameSpec Mkfs MkfsSpec.
Import Mkfs.
Local Open Scope Z_scope.
Local Open Scope kernel_scope.

(** ** The entries of the root directory *)

Lemma elem_of_taken {A} (x : A) n l : x ∉ l -> x ∉ take n l.
Proof. intros Hx Hin. apply Hx. apply elem_of_take in Hin as (j & Hj & _). by eapply list_elem_of_lookup_2. Qed.

Lemma dirents_cons e c n : length e = 16%nat -> dirents (e ++ c) (S n) = (de_inum e, cstr (de_name e)) :: dirents c n.
Proof.
  intros He. unfold dirents. cbn [seq map]. rewrite drop_0, take_app_le, take_ge by lia. f_equal.
  rewrite <- seq_shift, map_map. apply map_ext. intros k. cbv zeta.
  rewrite drop_app, drop_ge by lia. replace (16 * S k - length e)%nat with (16 * k)%nat by lia. done.
Qed.

Lemma dirent_entry name i : Byte.x00 ∉ name -> 0 <= i < 2 ^ 16 ->
  (de_inum (dirent_of name i), cstr (de_name (dirent_of name i))) = (i, take DIRSIZ name).
Proof.
  intros Hz Hi. f_equal.
  - exact (word_here 2 i [] _ Hi).
  - unfold de_name, dirent_of. rewrite drop_app_length' by (by rewrite length_le_split).
    rewrite take_ge by (rewrite length_strncpy_bytes, length_take; lia).
    unfold strncpy_bytes. set (l := take DIRSIZ (name ++ _)).
    assert (Hl : cstr l = take DIRSIZ name).
    { unfold l. rewrite take_app. destruct (decide (DIRSIZ <= length name)%nat) as [Hd|Hd].
      - replace (DIRSIZ - length name)%nat with 0%nat by lia. rewrite take_0, app_nil_r. apply cstr_id.
        by apply elem_of_taken.
      - rewrite (take_ge name) by lia. rewrite take_replicate.
        replace (min (DIRSIZ - length name) DIRSIZ) with (S (DIRSIZ - length name - 1)) by lia. by apply cstr_app. }
    rewrite Hl. destruct (length l - _)%nat as [|m]; cbn [replicate].
    + rewrite app_nil_r. by apply cstr_id, elem_of_taken.
    + by apply cstr_app, elem_of_taken.
Qed.

Definition stored (f : list byte * list (list byte)) : list byte := take DIRSIZ (file_name f).

Fixpoint names (i : Z) (l : list (list byte * list (list byte))) : list (Z * list byte) :=
  match l with [] => [] | f :: l => (i, stored f) :: names (i + 1) l end.

Lemma length_names l : forall i, length (names i l) = length l.
Proof. induction l as [|f l IH]; intros i; cbn [names length]; [done|]. by rewrite IH. Qed.

Lemma dirents_entries c n : forall l i, Forall (fun f => Byte.x00 ∉ file_name f) l -> 0 <= i -> i + Z.of_nat (length l) <= 2 ^ 16 ->
  dirents (entries i l ++ c) (length l + n) = names i l ++ dirents c n.
Proof.
  induction l as [|f l IH]; intros i Hz Hi Hn; [done|]. apply Forall_cons in Hz as [Hf Hz]. simpl length in Hn.
  cbn [entries names length Nat.add app]. rewrite <- app_assoc, dirents_cons by apply length_dirent.
  rewrite dirent_entry by (done || lia). by rewrite IH by (done || lia).
Qed.

Lemma dirents_zero m : dirents (replicate (16 * m) Byte.x00) m = replicate m (0, []).
Proof.
  induction m as [|m IH]; [done|]. replace (16 * S m)%nat with (16 + 16 * m)%nat by lia.
  rewrite replicate_add, dirents_cons by done. cbn [replicate]. by rewrite IH.
Qed.

Lemma find_entry_free name m : find_entry name (replicate m (0, [])) = None.
Proof. by induction m. Qed.

Lemma find_entry_app name l l' : find_entry name (l ++ l') = match find_entry name l with Some i => Some i | None => find_entry name l' end.
Proof. induction l as [|[i nm] l IH]; cbn [app find_entry]; [done|]. by destruct (_ || _). Qed.

Lemma find_names_none name l : forall i, 0 < i -> name ∉ map stored l -> find_entry name (names i l) = None.
Proof.
  induction l as [|f l IH]; intros i Hi Hn; [done|]. cbn [map] in Hn. apply not_elem_of_cons in Hn as [Hne Hn].
  cbn [names find_entry]. rewrite (bool_decide_false (stored f = name)) by done. rewrite orb_true_r. apply IH; [lia|done].
Qed.

Lemma find_names_some l : forall i j f, 0 < i -> NoDup (map stored l) -> l !! j = Some f ->
  find_entry (stored f) (names i l) = Some (i + Z.of_nat j).
Proof.
  induction l as [|g l IH]; intros i j f Hi Hnd Hj; [done|]. cbn [map] in Hnd. apply NoDup_cons in Hnd as [Hg Hnd].
  cbn [names find_entry]. rewrite (proj2 (Z.eqb_neq i 0)) by lia. cbn [orb]. destruct j as [|j]; cbn in Hj.
  - injection Hj as <-. rewrite bool_decide_true by done. cbn [negb]. f_equal. lia.
  - rewrite bool_decide_false.
    + cbn [negb]. rewrite (IH (i + 1) j f) by (done || lia). f_equal. lia.
    + intros E. apply Hg. rewrite E. apply list_elem_of_fmap. exists f. split; [done|]. by eapply list_elem_of_lookup_2.
Qed.

(** ** The files as the kernel finds them *)

Record good_names (files : list (list byte * list (list byte))) : Prop := mk_good_names {
  gn_clean : Forall (fun f => Byte.x00 ∉ file_name f) files;
  gn_nodup : NoDup (dot :: dotdot :: map stored files);
}.

(** The entries of the root directory. *)
Definition root_entries (files : list (list byte * list (list byte))) (m : nat) : list (Z * list byte) :=
  (1, dot) :: (1, dotdot) :: names 2 files ++ replicate m (0, []).

Lemma dirents_root files m : Forall (fun f => Byte.x00 ∉ file_name f) files -> (length files < 199)%nat ->
  dirents (root_dir files ++ replicate (16 * m) Byte.x00) (2 + length files + m) = root_entries files m.
Proof.
  intros Hz Hn. unfold root_dir, root_entries. cbn [Nat.add].
  assert (Byte.x00 ∉ dot /\ Byte.x00 ∉ dotdot) as [Hd Hdd] by (split; apply (bool_decide_unpack _); by vm_compute).
  rewrite <- !app_assoc, !dirents_cons, !dirent_entry by (apply length_dirent || done || lia).
  rewrite (dirents_entries (replicate (16 * m) Byte.x00) m files 2 Hz) by lia. by rewrite dirents_zero.
Qed.

Lemma find_root_some files m j f : good_names files -> files !! j = Some f ->
  find_entry (stored f) (root_entries files m) = Some (Z.of_nat (S j) + 1).
Proof.
  intros [Hz Hnd] Hj. apply NoDup_cons in Hnd as [Hd Hnd]. apply NoDup_cons in Hnd as [Hdd Hnd].
  assert (Hin : stored f ∈ map stored files).
  { apply list_elem_of_fmap. exists f. split; [done|]. by eapply list_elem_of_lookup_2. }
  unfold root_entries. cbn [find_entry Z.eqb orb].
  rewrite (bool_decide_false (dot = stored f)) by (intros E; apply Hd; rewrite E; by right).
  rewrite (bool_decide_false (dotdot = stored f)) by (intros E; by rewrite E in Hdd). cbn [negb].
  rewrite find_entry_app, (find_names_some files 2 j f) by (done || lia). f_equal. lia.
Qed.

Lemma find_root_none files m name : name <> dot -> name <> dotdot -> name ∉ map stored files ->
  find_entry name (root_entries files m) = None.
Proof.
  intros Hd Hdd Hn. unfold root_entries. cbn [find_entry Z.eqb orb]. rewrite !bool_decide_false by congruence. cbn [negb].
  by rewrite find_entry_app, find_names_none, find_entry_free by (done || lia).
Qed.

(** One file of the image, with the contents [c] that mkfs wrote and a size that
    may run to the end of the last block. *)
Lemma image_file d fm ind inum c m :
  sb_of (d !!! 1%nat) = sb -> length d = 1000%nat -> 0 <= inum < 208 ->
  maps (loaded d inum) fm ind d ∅ -> i_type (loaded d inum) <> 0 -> i_type (loaded d inum) <> T_DEV ->
  i_nlink (loaded d inum) = 1 -> contents fm d ∅ = c ++ replicate (512 * length fm - length c) Byte.x00 ->
  i_size (loaded d inum) = Z.of_nat (length c + m) -> (length c + m <= 512 * length fm)%nat ->
  file_has d inum (c ++ replicate m Byte.x00).
Proof.
  intros Hsb Hlen Hi Hm Ht Hdev Hnl Hc Hsz Hle. split.
  - constructor; [done|by rewrite Hnl|]. rewrite Hsb, Hlen. destruct (iblock_range inum Hi) as [-> ?]. lia.
  - split; [done|]. rewrite length_app, length_replicate. split; [done|]. exists fm, ind. split; [done|]. split; [done|].
    rewrite Hc. replace (512 * length fm - length c)%nat with (m + (512 * length fm - length c - m))%nat by lia.
    rewrite replicate_add, app_assoc, take_app_le by (rewrite length_app, length_replicate; lia).
    by rewrite take_ge by (rewrite length_app, length_replicate; lia).
Qed.

Section Image.
Context (files : list (list byte * list (list byte))).
Hypothesis Hfiles : Forall (fun f => slash ∉ f.1 /\ (length (concat f.2) <= 140 * 512)%nat) files.
Hypothesis Hn : (length files < 199)%nat.
Hypothesis Htot : total (all_files files) <= 941.
Hypothesis Hgood : good_names files.
Hypothesis Hroot : (length (root_dir files) mod 512 <> 0)%nat.

Lemma image_dirs : exists s, main files start = Ok tt s /\ length (img s) = 1000%nat /\
  (exists m, is_dir (img s) ROOTINO (root_entries files m)) /\
  forall j f, files !! j = Some f -> file_has (img s) (Z.of_nat (S j) + 1) (concat f.2).
Proof.
  destruct (main_image files Hfiles Hn Htot) as (s & L & E & Hlen & Hsb & _ & Hf & _). exists s.
  split; [done|]. split; [done|]. assert (Hsb' : sb_of (img s !!! 1%nat) = sb) by (rewrite Hsb; by vm_compute). clear Hsb. split.
  - destruct (Hf 0%nat T_DIR (root_dir files) eq_refl) as (fm & ind & _ & Hm & Ht & Hnl & Hsz & Hc & Hfm).
    change (Z.of_nat 0 + 1) with ROOTINO in *.
    assert (Hrl : length (root_dir files) = (32 + 16 * length files)%nat).
    { unfold root_dir. rewrite !length_app, !length_dirent, length_entries. lia. }
    set (m := (32 * length fm - 2 - length files)%nat). exists m.
    assert (Hm2 : (length (root_dir files) + 16 * m = 512 * length fm)%nat /\
      final_size 0 (root_dir files) = Z.of_nat (length (root_dir files) + 16 * m)).
    { unfold final_size. cbn [Nat.eqb]. unfold m. rewrite Hfm. revert Hroot Hrl. generalize (length (root_dir files)). intros z H1 H2.
      unfold nblk. pose proof (Nat.div_mod_eq (z + 511) 512). pose proof (Nat.mod_upper_bound (z + 511) 512).
      pose proof (Nat.div_mod_eq z 512). pose proof (Nat.mod_upper_bound z 512).
      replace (Z.of_nat z / 512) with (Z.of_nat (z / 512)) by (by rewrite Nat2Z.inj_div). split; lia. }
    split; [done|]. exists (root_dir files ++ replicate (16 * m) Byte.x00). split; [|split].
    + apply (image_file (img s) fm ind ROOTINO (root_dir files) (16 * m) Hsb' Hlen);
        [unfold ROOTINO; lia|exact Hm|by rewrite Ht|by rewrite Ht|exact Hnl|exact Hc|rewrite Hsz; apply Hm2|lia].
    + unfold root_entries. rewrite length_app, length_replicate, Hrl. cbn [length]. rewrite length_app, length_names, length_replicate. lia.
    + replace (length (root_entries files m)) with (2 + length files + m)%nat.
      * symmetry. apply dirents_root; [apply Hgood|done].
      * unfold root_entries. cbn [length Nat.add]. by rewrite length_app, length_names, length_replicate.
  - intros j f Hj. pose proof (lookup_lt_Some _ _ _ Hj) as Hlt.
    destruct (Hf (S j) T_FILE (concat f.2)) as (fm & ind & _ & Hm & Ht & Hnl & Hsz & Hc & Hfm).
    { change (map regular files !! j = Some (regular f)). by rewrite list_lookup_fmap, Hj. }
    rewrite <- (app_nil_r (concat f.2)). apply (image_file (img s) fm ind _ (concat f.2) 0 Hsb' Hlen);
      [lia|exact Hm|by rewrite Ht|by rewrite Ht|exact Hnl|exact Hc| |].
    + rewrite Hsz. unfold final_size. cbn [Nat.eqb]. lia.
    + rewrite Hfm. unfold nblk. pose proof (Nat.div_mod_eq (length (concat f.2) + 511) 512).
      pose proof (Nat.mod_upper_bound (length (concat f.2) + 511) 512). lia.
Qed.

End Image.

(** ** Opening and reading *)

(** [open], [read] and [close] of a path inside the kernel. *)
Definition read_path (devsw : Z -> devops) (path : list byte) (off n : Z) : K (option (Z * list byte)) :=
  r <- namei devsw path ;;
  match r with
  | None => ret None
  | Some ip => ilock ip ;; x <- readi devsw ip ToVar off n ;; iunlockput ip ;; ret (Some x)
  end.

Lemma read_path_ok devsw s d R path inum c off n :
  Byte.x00 ∉ path -> inodes_idle s -> cache d R [] (fs s) -> (size R + 2 <= NINODE)%nat -> starts s path inum ->
  forall next, resolves d inum (components path) (Some next) -> file_has d next c ->
  0 <= off -> 0 <= n -> off + n <= Z.of_nat (length c) ->
  runs (read_path devsw path off n) s (fun r f' =>
    r = Some (n, take (Z.to_nat n) (drop (Z.to_nat off) c)) /\ cache d R [] f').
Proof.
  intros Hz Hii Hc Hroom Hst next Hres Hfile Ho Hn Hend. pose proof (cache_pos _ _ _ _ Hc) as Hpos.
  unfold read_path. eapply runs_bind; [by apply (namei_ok devsw s d R path inum) with (r := Some next)|].
  intros ? f1 [(ip & -> & Hc1 & Hr1) _]. pose proof (proj1 Hfile) as Hok.
  eapply runs_bind; [apply (ilock_refers (set_fs f1 s) d (get_ref next R) ip next); [by apply inodes_idle_set_fs|done..]|].
  cbv beta. intros _ f2 (Hc2 & (x & Hx & Hcp & Hin) & Hk2).
  eapply runs_bind; [apply (read_file_ok devsw d (get_ref next R) [ip] (set_fs f2 s) ip x c off n);
    [by apply inodes_idle_set_fs|done|done|done|by rewrite Hin|done..]|].
  cbv beta. intros r f3 (-> & Hc3 & Hic3). cbn [fs set_fs] in Hic3.
  eapply runs_bind; [apply (iunlockput_ok (set_fs f3 s) d (get_ref next R) ip next);
    [by apply inodes_idle_set_fs|done|by eapply refers_icache, Hk2|apply Hok]|].
  cbv beta. intros _ f4 [Hc4 _]. apply runs_ret. split; [done|]. rewrite put_get in Hc4 by done. done.
Qed.

Lemma component name : slash ∉ name -> name <> [] -> components (slash :: name) = [name].
Proof.
  intros Hs Hne. rewrite components_slash. unfold components.
  assert (split_slash name = [name]) as ->; [|by rewrite filter_cons_True].
  clear Hne. induction name as [|b l IH]; [done|]. apply not_elem_of_cons in Hs as [Hb Hs]. cbn [split_slash].
  by rewrite bool_decide_false, IH by congruence.
Qed.

(** C14: the files that mkfs was given can be opened by name.  On an image that
    mkfs built, with the names of the files different in their first [DIRSIZ]
    bytes and a root directory that does not fill its last block, the path of a
    name leads to its file and reading gives any part of what mkfs was given;
    a name that mkfs was not given is not found.  The inode cache is afterwards
    as it was. *)
Theorem mkfs_files_open files :
  Forall (fun f => slash ∉ f.1 /\ (length (concat f.2) <= 140 * 512)%nat) files ->
  (length files < 199)%nat -> total (all_files files) <= 941 ->
  good_names files -> (length (root_dir files) mod 512 <> 0)%nat ->
  exists s, main files start = Ok tt s /\ length (img s) = 1000%nat /\ forall devsw s0 R name off n,
    inodes_idle s0 -> cache (img s) R [] (fs s0) -> (size R + 2 <= NINODE)%nat ->
    slash ∉ name -> Byte.x00 ∉ name -> name <> [] ->
    (forall f, f ∈ files -> stored f = take DIRSIZ name -> 0 <= off -> 0 <= n -> off + n <= Z.of_nat (length (concat f.2)) ->
       runs (read_path devsw (slash :: name) off n) s0 (fun r f' =>
         r = Some (n, take (Z.to_nat n) (drop (Z.to_nat off) (concat f.2))) /\ cache (img s) R [] f')) /\
    (take DIRSIZ name ∉ dot :: dotdot :: map stored files ->
       runs (read_path devsw (slash :: name) off n) s0 (fun r f' => r = None /\ cache (img s) R [] f')).
Proof.
  intros Hfiles Hn Htot Hgood Hroot. destruct (image_dirs files Hfiles Hn Htot Hgood Hroot) as (s & E & Hlen & (m & Hdir) & Hfile).
  exists s. split; [done|]. split; [done|]. intros devsw s0 R name off n Hii Hc Hroom Hs Hz Hne.
  assert (Hz' : Byte.x00 ∉ slash :: name) by (apply not_elem_of_cons; split; [discriminate|exact Hz]). pose proof (component name Hs Hne) as Hcomp. split.
  - intros f [j Hj]%list_elem_of_lookup Hst Ho Hpos Hend.
    apply (read_path_ok devsw s0 (img s) R (slash :: name) ROOTINO (concat f.2) off n Hz' Hii Hc Hroom eq_refl (Z.of_nat (S j) + 1));
      [|by apply Hfile|done..].
    rewrite Hcomp. eapply resolves_entry; [exact Hdir| |apply resolves_here]. rewrite <- Hst. by apply find_root_some.
  - intros Hno. apply not_elem_of_cons in Hno as [H1 Hno]. apply not_elem_of_cons in Hno as [H2 Hno].
    unfold read_path. eapply runs_bind; [apply (namei_ok devsw s0 (img s) R (slash :: name) ROOTINO Hz' Hii Hc Hroom eq_refl None)|].
    + rewrite Hcomp. eapply resolves_missing; [exact Hdir|]. by apply find_root_none.
    + intros ? f' [[-> Hc'] _]. apply runs_ret. exact (conj eq_refl Hc').
Qed.

(** The files of MkfsSpec.v: "/RM" has its second block opened, "/x" is not there. *)
Lemma mkfs_files_open_witness : exists s f f',
  main MkfsDemo.files start = Ok tt s /\ let k := InodeDemo.kernel (img s) in
  read_path DemoFs.no_devices [slash; Byte.x52; Byte.x4d] 509 6 k =
    Ok (Some (6, replicate 3 Byte.x41 ++ replicate 3 Byte.x42)) (set_fs f k) /\
  read_path DemoFs.no_devices [slash; Byte.x78] 0 1 k = Ok None (set_fs f' k).
Proof.
  destruct (mkfs_files_open MkfsDemo.files) as (s & E & Hlen & H).
  - exact MkfsDemo.files_ok.
  - cbn. lia.
  - by vm_compute.
  - constructor; apply (bool_decide_unpack _); by vm_compute.
  - by vm_compute.
  - destruct (InodeDemo.icache_kernel_ok (img s)) as [Hii Hc]; [rewrite Hlen; lia|].
    assert (Hroom : (size (∅ : gmap Z Z) + 2 <= NINODE)%nat) by (rewrite map_size_empty; change NINODE with 50%nat; lia).
    destruct (H DemoFs.no_devices _ ∅ [Byte.x52; Byte.x4d] 509 6 Hii Hc Hroom) as [H1 _];
      [apply (bool_decide_unpack _); vm_compute; exact Logic.I..|discriminate|].
    destruct (H DemoFs.no_devices _ ∅ [Byte.x78] 0 1 Hii Hc Hroom) as [_ H2];
      [apply (bool_decide_unpack _); vm_compute; exact Logic.I..|discriminate|].
    destruct (H1 ([Byte.x52; Byte.x4d], MkfsDemo.readme)) as (r & f & E1 & -> & _);
      [right; left|by vm_compute|lia|lia|by vm_compute|].
    destruct H2 as (r & f' & E2 & -> & _); [apply (bool_decide_unpack _); vm_compute; exact Logic.I|].
    exists s, f, f'. split; [exact E|]. split; [exact (eq_trans E1 eq_refl)|exact E2].
Defined.
