(* ===== verification/Kbd.v ===== *)
(** * kbd.c and kbd.h: the keyboard driver

    The controller hands over scan codes one at a time.  [kbdgetc] turns one of
    them into a character with the help of four tables and of the modifiers that
    it keeps between calls. *)

From Stdlib Require Import Ascii.
From stdpp Require Import list.
From S2P Require Import Prelude Console.
Local Open Scope Z_scope.

Module Kbd.

(** ** kbd.h *)

Inductive kbd_const : Set :=
  | SHIFT | CTL | ALT | CAPSLOCK | NUMLOCK | SCROLLLOCK | E0ESC
  | KEY_HOME | KEY_END | KEY_LF | KEY_RT | KEY_PGUP | KEY_PGDN | KEY_INS | KEY_DEL.

Definition kbd_value (c : kbd_const) : Z :=
  match c with
  | SHIFT => Z.shiftl 1 0
  | CTL => Z.shiftl 1 1
  | ALT => Z.shiftl 1 2
  | CAPSLOCK => Z.shiftl 1 3
  | NUMLOCK => Z.shiftl 1 4
  | SCROLLLOCK => Z.shiftl 1 5
  | E0ESC => Z.shiftl 1 6
  | KEY_HOME => 0xE0
  | KEY_END => 0xE1
  | KEY_LF => 0xE4
  | KEY_RT => 0xE5
  | KEY_PGUP => 0xE6
  | KEY_PGDN => 0xE7
  | KEY_INS => 0xE8
  | KEY_DEL => 0xE9
  end.

#[local] Coercion kbd_value : kbd_const >-> Z.

(** Characters of the source text are numbers. *)
Definition chr (c : ascii) : Z := Z.of_N (N_of_ascii c).
Local Notation "$ c" := (chr c%char) (at level 0).

Local Notation NO := 0.

(** A designated element, [[i] v] in an initialiser. *)
Definition el (i v : Z) : Z * Z := (i, v).

(** An array of 256 bytes with the initialiser [rows] and the designated
    elements [at_]; the rest is zero. *)
Definition table (rows : list Z) (at_ : list (Z * Z)) : list Z :=
  foldl (fun t e => <[Z.to_nat e.1 := e.2]> t) (rows ++ replicate (256 - length rows) 0) at_.

Definition shiftcode : list Z := table []
  [el 0x1D CTL; el 0x2A SHIFT; el 0x36 SHIFT; el 0x38 ALT;
   el 0x9D CTL; el 0xB8 ALT].

Definition togglecode : list Z := table []
  [el 0x3A CAPSLOCK; el 0x45 NUMLOCK; el 0x46 SCROLLLOCK].

(** 8 is a backspace, 9 a tab, 10 a newline, 13 a carriage return, 34 a double
    quote. *)
Definition normalmap : list Z := table
  [NO; 0x1B;  $"1"; $"2"; $"3"; $"4"; $"5"; $"6";
   $"7"; $"8"; $"9"; $"0"; $"-"; $"="; 8; 9;
   $"q"; $"w"; $"e"; $"r"; $"t"; $"y"; $"u"; $"i";
   $"o"; $"p"; $"["; $"]"; 10; NO; $"a"; $"s";
   $"d"; $"f"; $"g"; $"h"; $"j"; $"k"; $"l"; $";";
   $"'"; $"`"; NO; $"\"; $"z"; $"x"; $"c"; $"v";
   $"b"; $"n"; $"m"; $","; $"."; $"/"; NO; $"*";
   NO; $" "; NO; NO; NO; NO; NO; NO;
   NO; NO; NO; NO; NO; NO; NO; $"7";
   $"8"; $"9"; $"-"; $"4"; $"5"; $"6"; $"+"; $"1";
   $"2"; $"3"; $"0"; $"."; NO; NO; NO; NO]
  [el 0x9C 10; el 0xB5 $"/"; el 0xC8 KEY_UP; el 0xD0 KEY_DN;
   el 0xC9 KEY_PGUP; el 0xD1 KEY_PGDN; el 0xCB KEY_LF; el 0xCD KEY_RT;
   el 0x97 KEY_HOME; el 0xCF KEY_END; el 0xD2 KEY_INS; el 0xD3 KEY_DEL].

Definition shiftmap : list Z := table
  [NO; 27; $"!"; $"@"; $"#"; $"$"; $"%"; $"^";
   $"&"; $"*"; $"("; $")"; $"_"; $"+"; 8; 9;
   $"Q"; $"W"; $"E"; $"R"; $"T"; $"Y"; $"U"; $"I";
   $"O"; $"P"; $"{"; $"}"; 10; NO; $"A"; $"S";
   $"D"; $"F"; $"G"; $"H"; $"J"; $"K"; $"L"; $":";
   34; $"~"; NO; $"|"; $"Z"; $"X"; $"C"; $"V";
   $"B"; $"N"; $"M"; $"<"; $">"; $"?"; NO; $"*";
   NO; $" "; NO; NO; NO; NO; NO; NO;
   NO; NO; NO; NO; NO; NO; NO; $"7";
   $"8"; $"9"; $"-"; $"4"; $"5"; $"6"; $"+"; $"1";
   $"2"; $"3"; $"0"; $"."; NO; NO; NO; NO]
  [el 0x9C 10; el 0xB5 $"/"; el 0xC8 KEY_UP; el 0xD0 KEY_DN;
   el 0xC9 KEY_PGUP; el 0xD1 KEY_PGDN; el 0xCB KEY_LF; el 0xCD KEY_RT;
   el 0x97 KEY_HOME; el 0xCF KEY_END; el 0xD2 KEY_INS; el 0xD3 KEY_DEL].

(** An element of the table is an unsigned byte: [C('/')] is [0xef]. *)
Definition ctl_key (c : Z) : Z := u8 (Ctl c).

Definition ctlmap : list Z := table
  [NO; NO; NO; NO; NO; NO; NO; NO;
   NO; NO; NO; NO; NO; NO; NO; NO;
   ctl_key $"Q"; ctl_key $"W"; ctl_key $"E"; ctl_key $"R"; ctl_key $"T"; ctl_key $"Y"; ctl_key $"U"; ctl_key $"I";
   ctl_key $"O"; ctl_key $"P"; NO; NO; 13; NO; ctl_key $"A"; ctl_key $"S";
   ctl_key $"D"; ctl_key $"F"; ctl_key $"G"; ctl_key $"H"; ctl_key $"J"; ctl_key $"K"; ctl_key $"L"; NO;
   NO; NO; NO; ctl_key $"\"; ctl_key $"Z"; ctl_key $"X"; ctl_key $"C"; ctl_key $"V";
   ctl_key $"B"; ctl_key $"N"; ctl_key $"M"; NO; NO; ctl_key $"/"; NO; NO]
  [el 0x9C 13; el 0xB5 (ctl_key $"/"); el 0xC8 KEY_UP; el 0xD0 KEY_DN;
   el 0xC9 KEY_PGUP; el 0xD1 KEY_PGDN; el 0xCB KEY_LF; el 0xCD KEY_RT;
   el 0x97 KEY_HOME; el 0xCF KEY_END; el 0xD2 KEY_INS; el 0xD3 KEY_DEL].

(** ** kbd.c *)

(** The static variable [shift], and the scan codes that wait in the controller:
    the port [KBSTATP] has [KBS_DIB] as long as there is one, and reading
    [KBDATAP] takes the oldest. *)
Record kbd : Type := mk_kbd { shift : Z; waiting : list Z }.

Definition charcode : list (list Z) := [normalmap; shiftmap; ctlmap; ctlmap].

Definition flag (x : Z) (b : Z) : bool := negb (Z.land x b =? 0).
Definition at_ (t : list Z) (i : Z) : Z := t !!! Z.to_nat i.

Definition kbdgetc (k : kbd) : Z * kbd :=
  match waiting k with
  | [] => (-1, k)
  | data :: rest =>
      let sh := shift k in
      if data =? 0xE0 then (0, mk_kbd (Z.lor sh E0ESC) rest)
      else if flag data 0x80 then
        let data := if flag sh E0ESC then data else Z.land data 0x7F in
        (0, mk_kbd (Z.land sh (Z.lnot (Z.lor (at_ shiftcode data) E0ESC))) rest)
      else
        let '(data, sh) :=
          if flag sh E0ESC then (Z.lor data 0x80, Z.land sh (Z.lnot E0ESC)) else (data, sh) in
        let sh := Z.lor sh (at_ shiftcode data) in
        let sh := Z.lxor sh (at_ togglecode data) in
        let c := at_ (charcode !!! Z.to_nat (Z.land sh (Z.lor CTL SHIFT))) data in
        let c :=
          if flag sh CAPSLOCK then
            if (97 <=? c) && (c <=? 122) then c + (65 - 97)
            else if (65 <=? c) && (c <=? 90) then c + (97 - 65)
            else c
          else c in
        (c, mk_kbd sh rest)
  end.

(** What [consoleintr] gets from [kbdgetc] before the first negative number; a
    call that is not negative takes a scan code, so that [n] calls are enough
    for [n] codes. *)
Fixpoint kbd_chars (n : nat) (k : kbd) : list Z * kbd :=
  match n with
  | O => ([], k)
  | S n =>
      let '(c, k) := kbdgetc k in
      if c <? 0 then ([], k)
      else let '(cs, k) := kbd_chars n k in (c :: cs, k)
  end.

Definition drain (k : kbd) : list Z * kbd := kbd_chars (S (length (waiting k))) k.

End Kbd.
