(* ===== verification/KbdSpec.v ===== *)
(** * Typing on the keyboard

    A typist presses keys of a US keyboard: the letters and signs of its four
    rows, with or without a shift or control key held down, the caps lock, and a
    few keys of their own.  [keyboard_types_lines] follows their scan codes
    through [kbdgetc] and the interrupt handler into the line editor. *)

From Stdlib Require Import Ascii String.
From stdpp Require Import list.
From S2P Require Import Prelude FsState Machine Spinlock Kalloc Proc Sleeplock Console Trap Pages Demo ConsoleSpec Kbd.
Import Kbd.
Local Open Scope Z_scope.
Local Open Scope kernel_scope.

(** ** The keyboard *)

Definition chars (s : string) : list Z := map chr (list_ascii_of_string s).

(** The keys of a row have consecutive scan codes. *)
Definition row (first : Z) (low up : list Z) : list (Z * (Z * Z)) :=
  zip (map (fun i => first + Z.of_nat i) (seq 0 (List.length low))) (zip low up).

Definition keyboard : list (Z * (Z * Z)) :=
  row 0x02 (chars "1234567890-=") (chars "!@#$%^&*()_+") ++
  row 0x10 (chars "qwertyuiop[]") (chars "QWERTYUIOP{}") ++
  row 0x1E (chars "asdfghjkl;'`") (chars "ASDFGHJKL:" ++ [34] ++ chars "~") ++
  row 0x2B (chars "\zxcvbnm,./") (chars "|ZXCVBNM<>?") ++
  row 0x39 (chars " ") (chars " ").

Inductive modifier : Set := Plain | LeftShift | RightShift | LeftCtl | RightCtl.

Definition is_shift (m : modifier) : bool := match m with LeftShift | RightShift => true | _ => false end.
Definition is_ctl (m : modifier) : bool := match m with LeftCtl | RightCtl => true | _ => false end.

Inductive stroke : Set :=
  | Keys (m : modifier) (ks : list (Z * (Z * Z)))   (* keys of the rows, [m] held down *)
  | CapsLock | Enter | KeypadEnter | Backspace | Tab | Up | Down.

(** What the keyboard sends: a code when a key goes down and the code with its
    top bit set when it comes up, after [0xE0] for the keys that were added to
    the original layout. *)
Definition down (c : Z) : list Z := [c].
Definition up (c : Z) : list Z := [c + 0x80].
Definition tap (c : Z) : list Z := down c ++ up c.

Definition hold (m : modifier) : list Z :=
  match m with
  | Plain => []
  | LeftShift => down 0x2A
  | RightShift => down 0x36
  | LeftCtl => down 0x1D
  | RightCtl => 0xE0 :: down 0x1D
  end.
Definition let_go (m : modifier) : list Z :=
  match m with
  | Plain => []
  | LeftShift => up 0x2A
  | RightShift => up 0x36
  | LeftCtl => up 0x1D
  | RightCtl => 0xE0 :: up 0x1D
  end.

Definition codes (k : stroke) : list Z :=
  match k with
  | Keys m ks => hold m ++ flat_map (fun e => tap e.1) ks ++ let_go m
  | CapsLock => tap 0x3A
  | Enter => tap 0x1C
  | KeypadEnter => 0xE0 :: down 0x1C ++ 0xE0 :: up 0x1C
  | Backspace => tap 0x0E
  | Tab => tap 0x0F
  | Up => 0xE0 :: down 0x48 ++ 0xE0 :: up 0x48
  | Down => 0xE0 :: down 0x50 ++ 0xE0 :: up 0x50
  end.

(** What the typist means. *)
Definition letter (e : Z * (Z * Z)) : bool := (97 <=? e.2.1) && (e.2.1 <=? 122).

Definition key_text (caps : bool) (m : modifier) (e : Z * (Z * Z)) : Z :=
  if is_ctl m then Ctl e.2.2
  else if xorb (is_shift m) (caps && letter e) then e.2.2 else e.2.1.

Definition text1 (caps : bool) (k : stroke) : list Z :=
  match k with
  | Keys m ks => map (key_text caps m) ks
  | CapsLock => []
  | Enter | KeypadEnter => [10]
  | Backspace => [8]
  | Tab => [9]
  | Up => [KEY_UP]
  | Down => [KEY_DN]
  end.

Definition caps_after (caps : bool) (k : stroke) : bool :=
  match k with CapsLock => negb caps | _ => caps end.

Fixpoint text (caps : bool) (ks : list stroke) : list Z :=
  match ks with
  | [] => []
  | k :: ks => text1 caps k ++ text (caps_after caps k) ks
  end.

(** The control keys go with letters. *)
Definition stroke_ok (k : stroke) : Prop :=
  match k with
  | Keys m ks => Forall (fun e => e ∈ keyboard /\ (is_ctl m = true -> letter e = true)) ks
  | _ => True
  end.

(** ** One scan code at a time *)

Definition base (caps : bool) : Z := if caps then 8 else 0.
Definition held (m : modifier) : Z := if is_shift m then 1 else if is_ctl m then 2 else 0.

(** [kbdgetc] reads [l] and ends with the modifiers [sh']; apart from zeros, it
    returns [cs]. *)
Fixpoint reads (sh : Z) (l : list Z) (cs : list Z) (sh' : Z) : Prop :=
  match l with
  | [] => cs = [] /\ sh' = sh
  | c :: l => exists sh1 v cs1, (forall rest, kbdgetc (mk_kbd sh (c :: rest)) = (v, mk_kbd sh1 rest)) /\
      0 <= v /\ cs = (if v =? 0 then cs1 else v :: cs1) /\ reads sh1 l cs1 sh'
  end.

Lemma reads_app l1 : forall sh l2 cs1 sh1 cs2 sh2,
  reads sh l1 cs1 sh1 -> reads sh1 l2 cs2 sh2 -> reads sh (l1 ++ l2) (cs1 ++ cs2) sh2.
Proof.
  induction l1 as [|c l1 IH]; intros sh l2 cs1 sh1 cs2 sh2 H1 H2; simpl in *.
  - by destruct H1 as [-> ->].
  - destruct H1 as (sh' & v & cs' & E & Hv & -> & H1). exists sh', v, (cs' ++ cs2).
    split_and!; [done|done|by destruct (v =? 0)|]. by eapply IH.
Qed.

Lemma reads_chars l : forall n sh cs sh', reads sh l cs sh' -> (length l < n)%nat ->
  exists all, kbd_chars n (mk_kbd sh l) = (all, mk_kbd sh' []) /\ List.filter (fun v => negb (v =? 0)) all = cs.
Proof.
  induction l as [|c l IH]; intros n sh cs sh' H Hn; (destruct n as [|n]; [simpl in Hn; lia|]); simpl in H.
  - destruct H as [-> ->]. by exists [].
  - destruct H as (sh1 & v & cs1 & E & Hv & -> & H). simpl in Hn. cbn [kbd_chars]. rewrite E.
    rewrite (proj2 (Z.ltb_ge _ _)) by lia.
    destruct (IH n sh1 cs1 sh' H ltac:(lia)) as (all & -> & <-). exists (v :: all). split; [done|].
    cbn [List.filter]. by destruct (v =? 0).
Qed.

(** [reads] of given codes is a computation. *)
Fixpoint run_codes (sh : Z) (l : list Z) : list Z * Z :=
  match l with
  | [] => ([], sh)
  | c :: l =>
      let '(v, k) := kbdgetc (mk_kbd sh [c]) in
      let '(cs, sh') := run_codes (shift k) l in
      (if v =? 0 then cs else v :: cs, sh')
  end.

Lemma kbdgetc_rest sh c rest :
  kbdgetc (mk_kbd sh (c :: rest)) = ((kbdgetc (mk_kbd sh [c])).1, mk_kbd (shift (kbdgetc (mk_kbd sh [c])).2) rest).
Proof.
  unfold kbdgetc. cbn [waiting shift]. destruct (c =? 0xE0); [done|]. destruct (flag c 0x80); [done|].
  by destruct (flag sh (kbd_value E0ESC)).
Qed.

Definition positive (sh : Z) (l : list Z) : bool :=
  (fix go sh l := match l with
   | [] => true
   | c :: l => let '(v, k) := kbdgetc (mk_kbd sh [c]) in (0 <=? v) && go (shift k) l
   end) sh l.

Lemma run_reads l : forall sh, positive sh l = true -> reads sh l (run_codes sh l).1 (run_codes sh l).2.
Proof.
  induction l as [|c l IH]; intros sh Hp; simpl; [done|]. simpl in Hp.
  pose proof (kbdgetc_rest sh c) as E. destruct (kbdgetc (mk_kbd sh [c])) as [v k] eqn:Ek. cbn [fst snd] in E.
  apply andb_prop in Hp as [Hv Hp]. apply Z.leb_le in Hv. specialize (IH _ Hp).
  destruct (run_codes (shift k) l) as [cs sh'] eqn:Er. exists (shift k), v, cs. done.
Qed.

Lemma by_running sh l cs sh' : positive sh l = true -> run_codes sh l = (cs, sh') -> reads sh l cs sh'.
Proof. intros Hp E. pose proof (run_reads l sh Hp) as H. by rewrite E in H. Qed.

(** ** Strokes *)

Definition checks (sh : Z) (l : list Z) (cs : list Z) (sh' : Z) : bool :=
  positive sh l && bool_decide (run_codes sh l = (cs, sh')).

Lemma checked sh l cs sh' : checks sh l cs sh' = true -> reads sh l cs sh'.
Proof. intros H. apply andb_prop in H as [H1 H2]. apply bool_decide_eq_true in H2. by apply by_running. Qed.

Definition modifiers : list modifier := [Plain; LeftShift; RightShift; LeftCtl; RightCtl].

(** Every key of the rows, under every modifier. *)
Lemma keys_checked :
  forallb (fun caps => forallb (fun m => forallb (fun e => (is_ctl m && negb (letter e)) ||
    checks (base caps + held m) (tap e.1) [key_text caps m e] (base caps + held m)) keyboard) modifiers)
    [true; false] = true.
Proof. by vm_compute. Qed.

Lemma key_reads caps m e : e ∈ keyboard -> (is_ctl m = true -> letter e = true) ->
  reads (base caps + held m) (tap e.1) [key_text caps m e] (base caps + held m).
Proof.
  intros He Hl. pose proof keys_checked as H. rewrite forallb_forall in H.
  specialize (H caps ltac:(destruct caps; simpl; auto)). rewrite forallb_forall in H.
  specialize (H m ltac:(destruct m; simpl; tauto)). rewrite forallb_forall in H.
  specialize (H e ltac:(by apply list_elem_of_In)). apply orb_prop in H as [H|H]; [|by apply checked].
  apply andb_prop in H as [H1 H2]. by rewrite (Hl H1) in H2.
Qed.

Lemma keys_read caps m ks :
  Forall (fun e => e ∈ keyboard /\ (is_ctl m = true -> letter e = true)) ks ->
  reads (base caps + held m) (flat_map (fun e => tap e.1) ks) (map (key_text caps m) ks) (base caps + held m).
Proof.
  induction 1 as [|e ks [He Hl] _ IH]; [done|]. cbn [flat_map map].
  eapply (reads_app (tap e.1) _ _ [_]); [by apply key_reads|done].
Qed.

Lemma stroke_reads caps k : stroke_ok k -> reads (base caps) (codes k) (text1 caps k) (base (caps_after caps k)).
Proof.
  intros Hk. destruct k as [m ks| | | | | | |]; cbn [codes text1 caps_after]; try (apply checked; by destruct caps).
  apply (reads_app _ _ _ [] (base caps + held m) (map (key_text caps m) ks)); [apply checked; by destruct caps, m|].
  rewrite <- (app_nil_r (map (key_text caps m) ks)).
  eapply reads_app; [by apply keys_read|]. apply checked. by destruct caps, m.
Qed.

Definition final_caps (caps : bool) (ks : list stroke) : bool := fold_left caps_after ks caps.

Lemma strokes_read ks : forall caps, Forall stroke_ok ks ->
  reads (base caps) (flat_map codes ks) (text caps ks) (base (final_caps caps ks)).
Proof.
  induction ks as [|k ks IH]; intros caps H; [done|]. apply Forall_cons in H as [H1 H2]. cbn [flat_map text].
  eapply reads_app; [by apply stroke_reads|]. by apply IH.
Qed.

(** ** Into the line editor *)

(** [consoleintr] does nothing for a key that has no character. *)
Lemma skip_zeros cs s : consoleintr cs s = consoleintr (List.filter (fun v => negb (v =? 0)) cs) s.
Proof.
  assert (H : forall s1, for_each cs console_key s1 =
    for_each (List.filter (fun v => negb (v =? 0)) cs) console_key s1).
  { induction cs as [|c cs IH]; intros s1; [done|]. cbn [List.filter].
    destruct (Z.eqb_spec c 0) as [->|Hc]; cbn [negb]; [by rewrite <- IH|]. cbn [for_each]. by apply bind_cong. }
  unfold consoleintr. apply bind_cong; [done|]. intros _ s1. unfold bind. by rewrite H.
Qed.

(** C21: the text that a typist enters on the keyboard reaches the line editor.
    For any sequence of strokes, with the shift and control keys and the caps
    lock used in any way, [kbdgetc] translates the scan codes to the characters
    that the keys stand for and is left with the same modifiers, and the
    interrupt handler edits the input as those characters demand. *)
Theorem keyboard_types_lines s a caps ks :
  lock_free input_lock s -> lock_free ptable_lock s -> cpu_wf (this_cpu s) -> rep (tty (fs s)) a ->
  Forall stroke_ok ks -> Forall key_ok (text caps ks) -> fits_all a (text caps ks) ->
  exists cs s', drain (mk_kbd (base caps) (flat_map codes ks)) = (cs, mk_kbd (base (final_caps caps ks)) []) /\
    kbdintr cs s = Ok tt s' /\ rep (tty (fs s')) (fold_left edit (text caps ks) a) /\
    procs s' = wake (existsb is_nl (text caps ks)) (procs s).
Proof.
  intros Hi Hp Hw Hr Hs Hk Hf.
  destruct (reads_chars _ (S (length (flat_map codes ks))) _ _ _ (strokes_read ks caps Hs)) as (cs & E & Hcs); [lia|].
  destruct (consoleintr_ok s a (text caps ks) Hi Hp Hw Hr Hk Hf) as (s' & E1 & R & P).
  exists cs, s'. split; [exact E|]. split; [|done]. unfold kbdintr. by rewrite skip_zeros, Hcs.
Qed.

(** [H], [i], a backspace and enter. *)
Lemma keyboard_types_lines_witness : exists cs s',
  drain (mk_kbd 0 [0x2A; 0x23; 0xA3; 0xAA; 0x17; 0x97; 0x0E; 0x8E; 0x1C; 0x9C]) = (cs, mk_kbd 0 []) /\
  kbdintr cs demo_tty = Ok tt s' /\
  rep (tty (fs s')) (mk_editor [Byte.x48; NL] [] [[Byte.x48]] None).
Proof.
  destruct (keyboard_types_lines demo_tty (mk_editor [] [] [] None) false
    [Keys LeftShift [(0x23, (104, 72))]; Keys Plain [(0x17, (105, 73))]; Backspace; Enter]) as (cs & s' & E & E1 & R & _).
  - exists "input"%string. vm_compute. reflexivity.
  - exists "ptable"%string. vm_compute. reflexivity.
  - split; cbn; lia.
  - exact rep_console0.
  - repeat (apply Forall_cons; split); try exact I; try apply Forall_nil_2;
      (split; [apply list_elem_of_In; vm_compute; tauto|discriminate]).
  - unfold key_ok, Ctl. vm_compute text. repeat (apply Forall_cons; split; [lia|]). apply Forall_nil_2.
  - apply (bool_decide_unpack _). vm_compute. exact I.
  - exists cs, s'. split; [exact E|]. split; [exact E1|exact R].
Defined.
