(* ===== verification/Ide.v ===== *)
(** * ide.c: the driver of the IDE disk

    Requests wait on a queue linked through the buffers; the drive works on the
    first one, and its interrupt takes that request off the queue and starts the
    next.  This is the driver of the kernel that boots from a disk, in the place
    of memide.c.

    The ports of the drive are hardware: the functions are written over the
    operations of the class [Ports].  A read of the status register may change
    the drive, so that every operation returns its new state. *)

From stdpp Require Import gmap.
From S2P Require Import Prelude Memory CString FsState Machine Spinlock Kalloc Proc Sleeplock Bio Pci Trap.
Local Open Scope Z_scope.
Local Open Scope kernel_scope.

Class Ports (dev : Type) := {
  inb : Z -> dev -> Z * dev;
  outb : Z -> Z -> dev -> dev;
  insl : Z -> nat -> dev -> list byte * dev;    (* as many double words *)
  outsl : Z -> list byte -> dev -> dev;
}.

Module Ide.

Inductive ide_const : Set :=
  | SECTOR_SIZE | IDE_BSY | IDE_DRDY | IDE_DF | IDE_ERR
  | IDE_CMD_READ | IDE_CMD_WRITE | IDE_CMD_RDMUL | IDE_CMD_WRMUL.

Definition ide_value (c : ide_const) : Z :=
  match c with
  | SECTOR_SIZE => 512
  | IDE_BSY => 0x80
  | IDE_DRDY => 0x40
  | IDE_DF => 0x20
  | IDE_ERR => 0x01
  | IDE_CMD_READ => 0x20
  | IDE_CMD_WRITE => 0x30
  | IDE_CMD_RDMUL => 0xc4
  | IDE_CMD_WRMUL => 0xc5
  end.

Coercion ide_value : ide_const >-> Z.

(** The address of [idelock], and that of a buffer, on which its process sleeps. *)
Definition idelock : Z := 14.
Definition buf_chan (b : nat) : Z := 0x30000 + 16 * Z.of_nat b.

(** The kernel with the static data of the driver and the hardware; [qnext] has
    the buffers whose field of that name is not null. *)
Record ide {dev : Type} : Type := mk_ide {
  kern : kstate;
  idequeue : option nat;
  qnext : gmap nat nat;
  havedisk1 : Z;
  hw : dev;
}.
Arguments ide dev : clear implicits.
Arguments mk_ide {dev}.

Section Driver.
Context {dev : Type} `{Ports dev, Bus dev}.

Definition D := M (ide dev).

Definition set_kern (k : kstate) (s : ide dev) : ide dev := mk_ide k (idequeue s) (qnext s) (havedisk1 s) (hw s).
Definition set_idequeue (q : option nat) (s : ide dev) : ide dev := mk_ide (kern s) q (qnext s) (havedisk1 s) (hw s).
Definition set_qnext (q : gmap nat nat) (s : ide dev) : ide dev := mk_ide (kern s) (idequeue s) q (havedisk1 s) (hw s).
Definition set_havedisk1 (v : Z) (s : ide dev) : ide dev := mk_ide (kern s) (idequeue s) (qnext s) v (hw s).
Definition set_hw (d : dev) (s : ide dev) : ide dev := mk_ide (kern s) (idequeue s) (qnext s) (havedisk1 s) d.

(** An operation of the rest of the kernel; when it is resumed, the queue and
    the drive are those of that moment. *)
Fixpoint olift {A} (s : ide dev) (o : outcome kstate A) : outcome (ide dev) A :=
  match o with
  | Ok a k => Ok a (set_kern k s)
  | Swtch k c => Swtch (set_kern k s) (fun s' => olift s' (c (kern s')))
  | Spin l k c => Spin l (set_kern k s) (fun s' => olift s' (c (kern s')))
  | Panic e => Panic e
  | Fault => Fault
  | OutOfFuel => OutOfFuel
  end.
Definition lift {A} (m : K A) : D A := fun s => olift s (m (kern s)).

Definition in_b (port : Z) : D Z := fun s => let '(v, d) := inb port (hw s) in Ok v (set_hw d s).
Definition out_b (port v : Z) : D unit := modify (fun s => set_hw (outb port v (hw s)) s).

(** The drive is polled at most [fuel] times. *)
Context (fuel : nat).

Fixpoint idewait_loop (n : nat) : D Z :=
  match n with
  | O => out_of_fuel
  | S n =>
      r <- in_b 0x1f7 ;;
      if negb (Z.land r (Z.lor IDE_BSY IDE_DRDY) =? IDE_DRDY) then idewait_loop n else ret r
  end.

Definition idewait (checkerr : bool) : D Z :=
  r <- idewait_loop fuel ;;
  ret (if checkerr && negb (Z.land r (Z.lor IDE_DF IDE_ERR) =? 0) then -1 else 0).

(** The presence of disk 1: any answer that is not zero, within [n] reads. *)
Fixpoint probe (n : nat) : D unit :=
  match n with
  | O => ret tt
  | S n =>
      r <- in_b 0x1f7 ;;
      if negb (r =? 0) then modify (set_havedisk1 1) else probe n
  end.

Definition ideinit (ncpu : Z) : D unit :=
  lift (initlock idelock "ide") ;;
  modify (fun s => set_hw (ioapicenable IRQ_IDE (ncpu - 1) (hw s)) s) ;;
  idewait false ;;
  out_b 0x1f6 (Z.lor 0xe0 (Z.shiftl 1 4)) ;;
  probe 1000 ;;
  out_b 0x1f6 (Z.lor 0xe0 (Z.shiftl 0 4)).

Definition idestart (b : option nat) : D unit :=
  match b with
  | None => panic "idestart"
  | Some b =>
      x <- lift (get_buf b) ;;
      if FSSIZE <=? b_blockno x then panic "incorrect blockno" else
      let sector_per_block := BSIZE / SECTOR_SIZE in
      let sector := b_blockno x * sector_per_block in
      let read_cmd := if sector_per_block =? 1 then IDE_CMD_READ else IDE_CMD_RDMUL in
      let write_cmd := if sector_per_block =? 1 then IDE_CMD_WRITE else IDE_CMD_WRMUL in
      if 7 <? sector_per_block then panic "idestart" else
      idewait false ;;
      out_b 0x3f6 0 ;;
      out_b 0x1f2 sector_per_block ;;
      out_b 0x1f3 (Z.land sector 0xff) ;;
      out_b 0x1f4 (Z.land (Z.shiftr sector 8) 0xff) ;;
      out_b 0x1f5 (Z.land (Z.shiftr sector 16) 0xff) ;;
      out_b 0x1f6 (Z.lor (Z.lor 0xe0 (Z.shiftl (Z.land (b_dev x) 1) 4)) (Z.land (Z.shiftr sector 24) 0x0f)) ;;
      if flag_set (b_flags x) B_DIRTY then
        out_b 0x1f7 write_cmd ;;
        modify (fun s => set_hw (outsl 0x1f0 (b_data x) (hw s)) s)
      else out_b 0x1f7 read_cmd
  end.

Definition ideintr : D unit :=
  lift (acquire idelock) ;;
  q <- gets idequeue ;;
  match q with
  | None => lift (release idelock)
  | Some b =>
      modify (fun s => set_idequeue (qnext s !! b) s) ;;
      x <- lift (get_buf b) ;;
      when (negb (flag_set (b_flags x) B_DIRTY)) do (
        r <- idewait true ;;
        when (0 <=? r) do (
          s <- gets hw ;;
          let '(data, d) := insl 0x1f0 (Z.to_nat (BSIZE / 4)) s in
          modify (set_hw d) ;;
          lift (upd_buf b (set_data data)))) ;;
      lift (upd_buf b (fun x => set_flags (Z.lor (b_flags x) B_VALID) x)) ;;
      lift (upd_buf b (fun x => set_flags (Z.land (b_flags x) (Z.lnot B_DIRTY)) x)) ;;
      lift (wakeup (buf_chan b)) ;;
      q <- gets idequeue ;;
      when (bool_decide (q <> None)) do idestart q ;;
      lift (release idelock)
  end.

(** [for (pp = &idequeue; *pp; pp = &( *pp)->qnext) ; *pp = b;] from the field
    of the buffer [p] on; the buffers are fewer than [n]. *)
Fixpoint append_after (n : nat) (p b : nat) : D unit :=
  match n with
  | O => out_of_fuel
  | S n =>
      q <- gets qnext ;;
      match q !! p with
      | Some p' => append_after n p' b
      | None => modify (fun s => set_qnext (<[p := b]> (qnext s)) s)
      end
  end.

(** The wait for the request to finish. *)
Fixpoint rw_wait (n : nat) (b : nat) : D unit :=
  x <- lift (get_buf b) ;;
  if negb (Z.land (b_flags x) (Z.lor B_VALID B_DIRTY) =? B_VALID) then
    match n with
    | O => out_of_fuel
    | S n => lift (sleep (buf_chan b) idelock) ;; rw_wait n b
    end
  else ret tt.

Definition iderw (b : nat) : D unit :=
  h <- lift (holdingsleep (buf_lock b)) ;;
  if negb h then panic "iderw: buf not locked" else
  x <- lift (get_buf b) ;;
  if Z.land (b_flags x) (Z.lor B_VALID B_DIRTY) =? B_VALID then panic "iderw: nothing to do" else
  disk1 <- gets havedisk1 ;;
  if negb (b_dev x =? 0) && (disk1 =? 0) then panic "iderw: ide disk 1 not present" else
  lift (acquire idelock) ;;
  modify (fun s => set_qnext (delete b (qnext s)) s) ;;
  q <- gets idequeue ;;
  match q with
  | None => modify (set_idequeue (Some b))
  | Some p => append_after (S NBUF) p b
  end ;;
  q <- gets idequeue ;;
  when (bool_decide (q = Some b)) do idestart (Some b) ;;
  rw_wait wait_limit b ;;
  lift (release idelock).

End Driver.
End Ide.
