(* ===== verification/IdeSpec.v ===== *)
(** * The queue of the disk driver

    What the drive promises is the class [AtaLaws]: it becomes ready in the end,
    the task file holds what was written to its registers, and the commands for
    one sector read and write the sector that the task file names.  On top of
    it, the interrupts of the drive serve the requests of the queue in the order
    in which they came ([ide_serves_in_order]), and a request has the effect
    that it has with memide.c ([ide_refines_memide]). *)

From stdpp Require Import gmap.
From S2P Require Import Prelude Memory FsState Machine Spinlock Kalloc Proc Sleeplock Bio BioSpec Pci Trap Pages Resume Ide.
From S2P Require Import DemoFs CacheInit.
Import Ide.
Local Open Scope Z_scope.
Local Open Scope kernel_scope.

(** ** The drive *)

Inductive job : Set := Idle | Reading (disk sector : Z) | Writing (disk sector : Z).

(** The task file, the sectors of the two disks and the command at work. *)
Record ata : Type := mk_ata { task : gmap Z Z; platters : list (list (list byte)); at_work : job }.

Definition reg (a : ata) (p : Z) : Z := default 0 (task a !! p).
Definition lba (a : ata) : Z :=
  reg a 0x1f3 + Z.shiftl (reg a 0x1f4) 8 + Z.shiftl (reg a 0x1f5) 16 + Z.shiftl (Z.land (reg a 0x1f6) 0xf) 24.
Definition selected (a : ata) : Z := Z.land (Z.shiftr (reg a 0x1f6) 4) 1.

Definition sector (P : list (list (list byte))) (disk n : Z) : list byte := P !!! Z.to_nat disk !!! Z.to_nat n.
Definition write_sector (disk n : Z) (l : list byte) (P : list (list (list byte))) : list (list (list byte)) :=
  alter (<[Z.to_nat n := l]>) (Z.to_nat disk) P.

Section Drive.
Context {dev : Type} `{Ports dev}.

(** [n] reads of the status find the drive busy, and the next one has [v]. *)
Fixpoint polls (n : nat) (d : dev) (v : Z) (d' : dev) : Prop :=
  match n with
  | O => inb 0x1f7 d = (v, d') /\ Z.land v (Z.lor IDE_BSY IDE_DRDY) = IDE_DRDY
  | S n => exists w d1, inb 0x1f7 d = (w, d1) /\ Z.land w (Z.lor IDE_BSY IDE_DRDY) <> IDE_DRDY /\ polls n d1 v d'
  end.

(** [shows d a]: the hardware [d] is in the state [a].  A drive without faults
    is ready after fewer than [fuel] reads of its status. *)
Class AtaLaws (fuel : nat) := {
  shows : dev -> ata -> Prop;
  law_ready d a : shows d a -> exists n v d', (n < fuel)%nat /\ polls n d v d' /\
    Z.land v (Z.lor IDE_DF IDE_ERR) = 0 /\ shows d' a;
  law_register d a p v : shows d a -> at_work a = Idle -> p ∈ [0x3f6; 0x1f2; 0x1f3; 0x1f4; 0x1f5; 0x1f6] ->
    shows (outb p v d) (mk_ata (<[p := v]> (task a)) (platters a) Idle);
  law_read d a : shows d a -> at_work a = Idle -> reg a 0x1f2 = 1 ->
    shows (outb 0x1f7 IDE_CMD_READ d) (mk_ata (task a) (platters a) (Reading (selected a) (lba a)));
  law_write d a : shows d a -> at_work a = Idle -> reg a 0x1f2 = 1 ->
    shows (outb 0x1f7 IDE_CMD_WRITE d) (mk_ata (task a) (platters a) (Writing (selected a) (lba a)));
  law_in d a k n : shows d a -> at_work a = Reading k n ->
    exists d', insl 0x1f0 128 d = (sector (platters a) k n, d') /\ shows d' (mk_ata (task a) (platters a) Idle);
  law_out d a k n l : shows d a -> at_work a = Writing k n -> length l = 512%nat ->
    shows (outsl 0x1f0 l d) (mk_ata (task a) (write_sector k n l (platters a)) Idle);
}.

End Drive.

(** ** Requests *)

Definition dirty (x : buf) : bool := flag_set (b_flags x) B_DIRTY.

(** A buffer that [iderw] accepts. *)
Record request (x : buf) : Prop := mk_request {
  rq_flags : b_flags x = 0 \/ b_flags x = Z.lor B_VALID B_DIRTY;
  rq_dev : b_dev x = 0 \/ b_dev x = 1;
  rq_no : 0 <= b_blockno x < 1000;
  rq_data : length (b_data x) = 512%nat;
}.

(** What the request does to the disks, and what the buffer holds after it. *)
Definition serve (P : list (list (list byte))) (x : buf) : list (list (list byte)) :=
  if dirty x then write_sector (b_dev x) (b_blockno x) (b_data x) P else P.
Definition served (P : list (list (list byte))) (x : buf) : buf :=
  set_flags B_VALID (if dirty x then x else set_data (sector P (b_dev x) (b_blockno x)) x).

(** The command that reads for [x]; a write is over when its data is out. *)
Definition job_of (x : buf) : job := if dirty x then Idle else Reading (b_dev x) (b_blockno x).

Lemma served_eq P x : request x ->
  set_flags (Z.land (Z.lor (b_flags x) B_VALID) (Z.lnot B_DIRTY)) (if dirty x then x else set_data (sector P (b_dev x) (b_blockno x)) x) = served P x.
Proof. intros [Hf _ _ _]. unfold served, dirty. by destruct Hf as [->| ->]. Qed.

(** ** The driver on the drive *)

Section Spec.
Context {dev : Type} `{Ports dev} (fuel : nat) `{L : !AtaLaws (dev := dev) fuel}.
Implicit Type s : ide dev.

(** States are written out, with the fields of [ide] in their order. *)
Lemma lift_ok {A B} (m : K A) (f : A -> D (dev := dev) B) k q qn h d a k' :
  m k = Ok a k' -> bind (lift m) f (mk_ide k q qn h d) = f a (mk_ide k' q qn h d).
Proof. intros E. unfold bind, lift. cbn [kern]. by rewrite E. Qed.

Lemma take_head {B} (f : unit -> D (dev := dev) B) b k q qn h d :
  bind (modify (fun s => set_idequeue (qnext s !! b) s)) f (mk_ide k q qn h d) = f tt (mk_ide k (qn !! b) qn h d).
Proof. done. Qed.

Lemma polls_wait n : forall m d v d' k q qn h, polls n d v d' -> (n < m)%nat ->
  idewait_loop m (mk_ide k q qn h d) = Ok v (mk_ide k q qn h d').
Proof.
  induction n as [|n IH]; intros m d v d' k q qn h Hp Hm; (destruct m as [|m]; [lia|]); cbn [polls] in Hp;
    cbn [idewait_loop]; unfold bind, in_b; cbn [hw].
  - destruct Hp as [-> Hv]. cbn [obind]. by rewrite Hv, Z.eqb_refl.
  - destruct Hp as (w & d1 & -> & Hw & Hp). cbn [obind]. rewrite (proj2 (Z.eqb_neq _ _) Hw). cbn [negb].
    apply (IH m d1); [done|lia].
Qed.

Lemma idewait_ok k q qn h d a ce : shows d a ->
  exists d', shows d' a /\ idewait fuel ce (mk_ide k q qn h d) = Ok 0 (mk_ide k q qn h d').
Proof.
  intros Hs. destruct (law_ready _ _ Hs) as (n & v & d' & Hn & Hp & Hv & Hs'). exists d'. split; [done|].
  unfold idewait. rewrite (bind_ok _ _ _ _ _ (polls_wait n fuel d v d' k q qn h Hp Hn)).
  rewrite Hv. by rewrite andb_false_r.
Qed.

Lemma out_bind {B} p v (f : unit -> D (dev := dev) B) k q qn h d :
  bind (out_b p v) f (mk_ide k q qn h d) = f tt (mk_ide k q qn h (outb p v d)).
Proof. done. Qed.

(** The registers that [idestart] writes name the sector of the buffer. *)
Definition programmed (a : ata) (x : buf) : gmap Z Z :=
  <[0x1f6 := Z.lor (Z.lor 0xe0 (Z.shiftl (Z.land (b_dev x) 1) 4)) (Z.land (Z.shiftr (b_blockno x) 24) 0x0f)]>
  (<[0x1f5 := Z.land (Z.shiftr (b_blockno x) 16) 0xff]> (<[0x1f4 := Z.land (Z.shiftr (b_blockno x) 8) 0xff]>
  (<[0x1f3 := Z.land (b_blockno x) 0xff]> (<[0x1f2 := 1]> (<[0x3f6 := 0]> (task a)))))).

Lemma programmed_sector a x P j : request x -> let a' := mk_ata (programmed a x) P j in
  reg a' 0x1f2 = 1 /\ lba a' = b_blockno x /\ selected a' = b_dev x.
Proof.
  intros [_ Hd Hn _]. cbv zeta. unfold lba, selected, reg, programmed. cbn [task]. set (n := b_blockno x) in *.
  repeat (rewrite lookup_insert_eq || rewrite lookup_insert_ne by done). cbn [from_option]. unfold id.
  assert (H16 : Z.shiftr n 16 = 0) by (rewrite Z.shiftr_div_pow2 by lia; apply Z.div_small; lia).
  assert (H24 : Z.shiftr n 24 = 0) by (rewrite Z.shiftr_div_pow2 by lia; apply Z.div_small; lia).
  rewrite H16, H24. change (Z.land 0 255) with 0. change (Z.land 0 15) with 0. rewrite Z.lor_0_r.
  split; [done|]. split; [|by destruct Hd as [-> | ->]].
  assert (H8 : Z.land (Z.shiftr n 8) 255 = n / 256).
  { rewrite Z.shiftr_div_pow2 by lia. change 255 with (Z.ones 8). rewrite Z.land_ones by lia.
    apply Z.mod_small. split; [apply Z.div_pos; lia|]. apply Z.div_lt_upper_bound; lia. }
  assert (H0 : Z.land n 255 = n mod 256) by (change 255 with (Z.ones 8); by rewrite Z.land_ones by lia).
  assert (H6 : Z.land (Z.lor 0xe0 (Z.shiftl (Z.land (b_dev x) 1) 4)) 0xf = 0) by (by destruct Hd as [-> | ->]).
  rewrite H8, H0, H6, !Z.shiftl_mul_pow2 by lia. pose proof (Z.div_mod n 256). lia.
Qed.

(** One register of the task file. *)
Ltac out_step Hs :=
  match goal with
  | |- context [bind (out_b ?p ?v) _ (mk_ide ?k ?q ?qn ?h ?d)] =>
      rewrite out_bind; apply (law_register d _ p v) in Hs; [|reflexivity|set_solver]; cbn [task platters] in Hs
  end.

Lemma idestart_ok k q qn h d a b x : shows d a -> at_work a = Idle -> bufs (fs k) !! b = Some x -> request x ->
  exists d' a', idestart fuel (Some b) (mk_ide k q qn h d) = Ok tt (mk_ide k q qn h d') /\
    shows d' a' /\ at_work a' = job_of x /\ platters a' = serve (platters a) x.
Proof.
  intros Hs Hj Hx Hr. unfold idestart. erewrite lift_ok by (apply get_buf_ok; exact Hx).
  rewrite (proj2 (Z.leb_gt _ _)) by (unfold FSSIZE; pose proof (rq_no _ Hr); lia).
  change (BSIZE / SECTOR_SIZE) with 1. rewrite Z.mul_1_r. cbv zeta. change (7 <? 1) with false. change (1 =? 1) with true. cbv iota.
  destruct (idewait_ok k q qn h d a false Hs) as (d1 & Hs1 & E). rewrite (bind_ok _ _ _ _ _ E). clear E Hs.
  destruct a as [tk P j]. cbn [at_work] in Hj. subst j.
  do 6 out_step Hs1. destruct (programmed_sector (mk_ata tk P Idle) x P Idle Hr) as (H1 & H2 & H3). cbv zeta in H1, H2, H3.
  fold (dirty x). unfold job_of, serve. destruct (dirty x).
  - rewrite out_bind. eexists _, _. split; [reflexivity|].
    apply law_write in Hs1; [|done|exact H1]. eapply law_out in Hs1; [|done|by apply Hr].
    split; [exact Hs1|]. cbn [at_work platters]. split; [done|]. f_equal; [exact H3|exact H2].
  - eexists _, _. split; [reflexivity|]. apply law_read in Hs1; [|done|exact H1]. split; [exact Hs1|].
    cbn [at_work platters]. split; [|done]. f_equal; [exact H3|exact H2].
Qed.

(** ** The queue *)

Fixpoint links (p : option nat) (q : list nat) (qn : gmap nat nat) : Prop :=
  match q with
  | [] => p = None
  | b :: q => p = Some b /\ links (qn !! b) q qn
  end.

(** The drive while the requests [q] wait, of which it works on the first; [P]
    are the disks before that one. *)
Definition working (d : dev) (P : list (list (list byte))) (f : fsys) (q : list nat) : Prop :=
  exists a, shows d a /\
    match q with
    | [] => at_work a = Idle /\ platters a = P
    | b :: _ => exists x, bufs f !! b = Some x /\ at_work a = job_of x /\ platters a = serve P x
    end.

Definition queued (f : fsys) (b : nat) : Prop := (b < NBUF)%nat /\ exists x, bufs f !! b = Some x /\ request x.

Record ide_rep s (P : list (list (list byte))) (q : list nat) : Prop := mk_ide_rep {
  ir_links : links (idequeue s) q (qnext s);
  ir_apart : NoDup q;
  ir_queued : Forall (queued (fs (kern s))) q;
  ir_drive : working (hw s) P (fs (kern s)) q;
}.

(** A kernel in which the handler can run. *)
Record ready (k : kstate) : Prop := mk_ready {
  rd_ide : lock_free idelock k;
  rd_ptable : lock_free ptable_lock k;
  rd_cpu : cpu_wf (this_cpu k);
  rd_norm : cpu_norm (this_cpu k) = this_cpu k;
}.

Definition put_buf (b : nat) (x : buf) (k : kstate) : kstate :=
  set_fs (set_bufs (<[b := x]> (bufs (fs k))) (fs k)) k.
Definition wake_all (c : Z) (k : kstate) : kstate := set_procs (map (wakeup1_proc c) (procs k)) k.

(** The kernel after the request of [b] is served. *)
Definition finished (P : list (list (list byte))) (b : nat) (x : buf) (k : kstate) : kstate :=
  wake_all (buf_chan b) (put_buf b (served P x) k).

Lemma put_buf_twice b x y k : put_buf b y (put_buf b x k) = put_buf b y k.
Proof. destruct k as [? ? ? ? ? ? ? ? ? ? ? ? ? ? f], f. unfold put_buf, set_fs, set_bufs. cbn. by rewrite list_insert_insert_eq. Qed.

Lemma put_buf_lookup b x y k : bufs (fs k) !! b = Some x -> bufs (fs (put_buf b y k)) !! b = Some y.
Proof. intros Hx. cbn. apply list_lookup_insert_eq. by eapply lookup_lt_Some. Qed.

Lemma put_buf_same b x k : bufs (fs k) !! b = Some x -> put_buf b x k = k.
Proof. intros Hx. unfold put_buf. rewrite list_insert_id by done. by destruct k as [? ? ? ? ? ? ? ? ? ? ? ? ? ? []]. Qed.

(** The part of the handler that fetches the sector of a read. *)
Lemma fetch_ok P b x k q qn h d a :
  shows d a -> at_work a = job_of x -> platters a = serve P x -> bufs (fs k) !! b = Some x ->
  exists d' a', (when (negb (flag_set (b_flags x) B_DIRTY)) do (
      r <- idewait fuel true ;;
      when (0 <=? r) do (
        s <- gets hw ;;
        let '(data, d) := insl 0x1f0 (Z.to_nat (BSIZE / 4)) s in
        modify (set_hw d) ;;
        lift (upd_buf b (set_data data))))) (mk_ide k q qn h d) =
    Ok tt (mk_ide (put_buf b (if dirty x then x else set_data (sector P (b_dev x) (b_blockno x)) x) k) q qn h d') /\
    shows d' a' /\ at_work a' = Idle /\ platters a' = serve P x.
Proof.
  intros Hs Hj HP Hx. fold (dirty x). unfold job_of in Hj. unfold serve in *. destruct (dirty x); cbn [negb].
  - exists d, a. by rewrite put_buf_same.
  - destruct (idewait_ok k q qn h d a true Hs) as (d1 & Hs1 & E). rewrite (bind_ok _ _ _ _ _ E).
    change (0 <=? 0) with true. cbv iota. rewrite bind_gets. cbn [hw]. change (Z.to_nat (BSIZE / 4)) with 128%nat.
    destruct (law_in _ _ _ _ Hs1 Hj) as (d2 & -> & Hs2). rewrite bind_modify. cbn [set_hw kern idequeue qnext havedisk1 hw].
    exists d2. eexists. split; [|split; [exact Hs2|done]]. unfold lift. cbn [kern].
    rewrite (upd_buf_ok b _ x k Hx). rewrite HP. done.
Qed.

Lemma lift_upd {B} b g x (f : unit -> D (dev := dev) B) k q qn h d : bufs (fs k) !! b = Some x ->
  bind (lift (upd_buf b g)) f (mk_ide k q qn h d) = f tt (mk_ide (put_buf b (g x) k) q qn h d).
Proof. intros Hx. erewrite lift_ok by (apply upd_buf_ok; exact Hx). done. Qed.

(** The flags of the buffer, and the wakeup of its process. *)
Lemma complete_ok {B} (f : unit -> D (dev := dev) B) P b x y k q qn h d :
  bufs (fs k) !! b = Some y -> lock_free ptable_lock k -> cpu_wf (this_cpu k) -> cpu_norm (this_cpu k) = this_cpu k ->
  set_flags (Z.land (Z.lor (b_flags y) B_VALID) (Z.lnot B_DIRTY)) y = served P x ->
  (lift (upd_buf b (fun x => set_flags (Z.lor (b_flags x) B_VALID) x)) ;;
   lift (upd_buf b (fun x => set_flags (Z.land (b_flags x) (Z.lnot B_DIRTY)) x)) ;;
   bind (lift (wakeup (buf_chan b))) f) (mk_ide k q qn h d) = f tt (mk_ide (finished P b x k) q qn h d).
Proof.
  intros Hy Hl Hw Hn Es. rewrite (lift_upd b _ y) by done.
  erewrite lift_upd by (eapply put_buf_lookup; exact Hy). rewrite put_buf_twice.
  erewrite lift_ok by (apply wakeup_eq; [exact Hl|exact Hw]). unfold finished. rewrite <- Es.
  set (k' := put_buf _ _ k). change (this_cpu k') with (this_cpu k). rewrite Hn. by destruct k.
Qed.

(** The start of the next request. *)
Lemma next_ok P k q qn h d a : Forall (queued (fs k)) q -> shows d a -> at_work a = Idle -> platters a = P ->
  exists d', (when (bool_decide (hd_error q <> None)) do idestart fuel (hd_error q)) (mk_ide k (hd_error q) qn h d) =
    Ok tt (mk_ide k (hd_error q) qn h d') /\ working d' P (fs k) q.
Proof.
  intros Hq Hs Hj HP. destruct q as [|b q]; cbn [hd_error].
  - exists d. split; [done|]. by exists a.
  - apply Forall_cons in Hq as [(Hb & x & Hx & Hr) _]. rewrite bool_decide_true by done.
    destruct (idestart_ok k (Some b) qn h d a b x Hs Hj Hx Hr) as (d' & a' & E & Hs' & Hj' & HP').
    exists d'. split; [exact E|]. exists a'. split; [done|]. exists x. by rewrite HP', HP.
Qed.

Lemma links_next p b q qn : links p (b :: q) qn -> p = Some b /\ qn !! b = hd_error q /\ links (hd_error q) q qn.
Proof. intros [-> Hl]. split; [done|]. destruct q as [|c q]; [done|]. by destruct Hl as [-> ?]. Qed.

Lemma queued_put f b x c k : f = fs k -> c <> b -> queued f c -> queued (fs (put_buf b x k)) c.
Proof.
  intros -> Hne (Hc & y & Hy & Hr). split; [done|]. exists y. split; [|done]. cbn. by rewrite list_lookup_insert_ne.
Qed.

Lemma ideintr_ok s P b x q : ide_rep s P (b :: q) -> ready (kern s) -> bufs (fs (kern s)) !! b = Some x ->
  exists s', ideintr fuel s = Ok tt s' /\ ide_rep s' (serve P x) q /\ kern s' = finished P b x (kern s) /\
    havedisk1 s' = havedisk1 s.
Proof.
  intros [Hl Hnd Hq (a & Hs & y & Hy & Hj & HP)] Hk Hx. destruct s as [k p qn h d].
  cbn [idequeue qnext kern hw havedisk1] in *. assert (y = x) as -> by congruence. destruct (links_next _ _ _ _ Hl) as (-> & Hn & Hl').
  apply Forall_cons in Hq as [(Hb & y & Hy' & Hr) Hq]. assert (y = x) as -> by congruence. apply NoDup_cons in Hnd as [Hbq Hnd].
  pose proof (rd_ide _ Hk) as Hi. set (kl := locked_state idelock k).
  destruct (fetch_ok P b x kl (hd_error q) qn h d a Hs Hj HP Hx) as (d1 & a1 & E1 & Hs1 & Hj1 & HP1).
  set (y := if dirty x then x else _) in *.
  assert (Hyl : bufs (fs (put_buf b y kl)) !! b = Some y) by (by eapply put_buf_lookup).
  assert (Hq' : Forall (queued (fs (finished P b x (put_buf b y kl)))) q).
  { rewrite Forall_forall in Hq |- *. intros c Hc. unfold finished. cbn [fs wake_all set_procs]. rewrite put_buf_twice.
    apply (queued_put (fs k)); [done|set_solver|auto]. }
  destruct (next_ok (serve P x) _ q qn h d1 a1 Hq' Hs1 Hj1 HP1) as (d2 & E2 & Hw).
  unfold ideintr. erewrite lift_ok by (apply acquire_free; exact Hi).
  fold kl. rewrite bind_gets. cbn [idequeue]. rewrite take_head, Hn.
  erewrite lift_ok by (apply get_buf_ok; exact Hx).
  rewrite (bind_ok _ _ _ _ _ E1).
  rewrite (complete_ok _ P b x y); [|done| | | |].
  - rewrite bind_gets. cbn [idequeue]. rewrite (bind_ok _ _ _ _ _ E2). unfold lift. cbn [kern].
    rewrite (release_held _ _ k) by (done || apply Hk). cbn [olift]. eexists. split; [reflexivity|].
    split; [by constructor|]. split; [|done]. cbn [set_kern kern]. unfold finished. rewrite put_buf_twice, (rd_norm _ Hk).
    by destruct k.
  - apply (lock_free_locked ptable_lock idelock k); [done|apply Hk].
  - apply cpu_wf_pushcli, Hk.
  - apply cpu_norm_pushcli, Hk.
  - unfold y. rewrite <- (served_eq P x Hr). by destruct (dirty x).
Qed.

(** The buffers after the requests [xs], in their order. *)
Fixpoint results (P : list (list (list byte))) (xs : list buf) : list buf :=
  match xs with
  | [] => []
  | x :: xs => served P x :: results (serve P x) xs
  end.

Lemma finished_ready P b x k : ready k -> ready (finished P b x k).
Proof. intros []. by constructor. Qed.

Lemma wakeup1_other c p c' : (state p = SLEEPING -> chan p <> c') -> state (wakeup1_proc c p) = SLEEPING ->
  chan (wakeup1_proc c p) <> c'.
Proof. unfold wakeup1_proc. destruct (_ && _) eqn:E; [done|auto]. Qed.

Lemma wakeup1_this c p : state (wakeup1_proc c p) = SLEEPING -> chan (wakeup1_proc c p) <> c.
Proof.
  unfold wakeup1_proc. case_bool_decide as Hs; cbn [andb]; [|done]. destruct (Z.eqb_spec (chan p) c); done.
Qed.

Lemma serve_queue q : forall s P xs, ide_rep s P q -> ready (kern s) ->
  Forall2 (fun b x => bufs (fs (kern s)) !! b = Some x) q xs ->
  exists s', for_each q (fun _ => ideintr fuel) s = Ok tt s' /\ ide_rep s' (foldl serve P xs) [] /\
    ready (kern s') /\ Forall2 (fun b y => bufs (fs (kern s')) !! b = Some y) q (results P xs) /\
    (forall c, c ∉ q -> bufs (fs (kern s')) !! c = bufs (fs (kern s)) !! c) /\
    forall c, (forall p, p ∈ procs (kern s) -> state p = SLEEPING -> chan p <> c) \/ c ∈ map buf_chan q ->
      forall p, p ∈ procs (kern s') -> state p = SLEEPING -> chan p <> c.
Proof.
  induction q as [|b q IH]; intros s P xs Hr Hk HF.
  - apply Forall2_nil_inv_l in HF as ->. exists s. split_and!; try done. intros c [Hc|Hc]; [done|by apply not_elem_of_nil in Hc].
  - apply Forall2_cons_inv_l in HF as (x & xs' & Hx & HF & ->).
    destruct (ideintr_ok s P b x q Hr Hk Hx) as (s1 & E1 & Hr1 & Hk1 & _).
    pose proof (ir_apart _ _ _ Hr) as Hnd. apply NoDup_cons in Hnd as [Hb _].
    assert (Hother : forall c, c <> b -> bufs (fs (kern s1)) !! c = bufs (fs (kern s)) !! c).
    { intros c Hc. rewrite Hk1. cbn. by apply list_lookup_insert_ne. }
    destruct (IH s1 (serve P x) xs' Hr1) as (s2 & E2 & Hr2 & Hk2 & Hres & Hrest & Hsl).
    { rewrite Hk1. by apply finished_ready. }
    { rewrite Forall2_same_length_lookup in HF |- *. destruct HF as [Hlen HF]. split; [done|]. intros i c y Hc Hy.
      rewrite Hother; [by eapply HF|]. intros ->. by apply list_elem_of_lookup_2 in Hc. }
    exists s2. split; [cbn [for_each]; by rewrite (bind_ok _ _ _ _ _ E1)|]. split; [done|]. split; [done|]. split; [|split].
    + constructor; [|done]. rewrite Hrest by done. rewrite Hk1. cbn. apply list_lookup_insert_eq. by eapply lookup_lt_Some.
    + intros c Hc. rewrite Hrest by set_solver. apply Hother. set_solver.
    + intros c Hc. apply Hsl. cbn [map] in Hc.
      destruct (decide (c ∈ map buf_chan q)) as [Hin|Hin]; [by right|]. left. rewrite Hk1. cbn. intros p Hp.
      apply list_elem_of_In, in_map_iff in Hp as (p0 & <- & Hp%list_elem_of_In).
      destruct Hc as [Hc|Hc]; [by apply wakeup1_other, Hc|].
      apply elem_of_cons in Hc as [->|Hc]; [apply wakeup1_this|done].
Qed.

(** ** A request *)

Lemma queue_ext q : forall p qn qn', (forall c, c ∈ q -> qn' !! c = qn !! c) -> links p q qn -> links p q qn'.
Proof.
  induction q as [|b q IH]; intros p qn qn' He Hl; [done|]. destruct Hl as [-> Hl]. split; [done|].
  rewrite He by set_solver. eapply IH; [|exact Hl]. set_solver.
Qed.

Lemma append_ok b k ih h d q : forall p qn n, links (qn !! p) q qn -> NoDup (p :: q) -> b ∉ p :: q -> qn !! b = None ->
  (length q < n)%nat -> exists qn', append_after n p b (mk_ide (dev := dev) k ih qn h d) = Ok tt (mk_ide k ih qn' h d) /\
    links (qn' !! p) (q ++ [b]) qn' /\ forall c, c ∉ p :: q -> qn' !! c = qn !! c.
Proof.
  induction q as [|c q IH]; intros p qn n Hl Hnd Hb Hbn Hn; (destruct n as [|n]; [simpl in Hn; lia|]);
    cbn [append_after]; rewrite bind_gets; cbn [qnext].
  - cbn [links] in Hl. rewrite Hl. eexists. split; [reflexivity|]. cbn [app links]. rewrite lookup_insert_eq.
    split_and!; [done|rewrite lookup_insert_ne by set_solver; done|]. intros c Hc. apply lookup_insert_ne. set_solver.
  - destruct Hl as [Hp Hl]. rewrite Hp. apply NoDup_cons in Hnd as [Hpn Hnd].
    destruct (IH c qn n Hl Hnd ltac:(set_solver) Hbn ltac:(simpl in Hn; lia)) as (qn' & E & Hl' & Ho).
    exists qn'. split; [exact E|]. split; [|intros e He; apply Ho; set_solver]. rewrite Ho by done. by split.
Qed.

Lemma few_buffers q : NoDup q -> Forall (fun b => b < NBUF)%nat q -> (length q <= NBUF)%nat.
Proof.
  intros Hn Hq. rewrite <- (length_seq NBUF 0). apply submseteq_length, NoDup_submseteq; [done|].
  intros b Hb. rewrite Forall_forall in Hq. apply elem_of_seq. specialize (Hq b Hb). lia.
Qed.

Lemma queued_lt f q : Forall (queued f) q -> Forall (fun b => b < NBUF)%nat q.
Proof. intros Hq. eapply Forall_impl; [exact Hq|]. by intros b []. Qed.

(** The request goes to the end of the queue; an idle drive starts on it. *)
Lemma enqueue_ok {B} (f : unit -> D (dev := dev) B) k p qn h d P q b x :
  links p q qn -> NoDup q -> Forall (queued (fs k)) q -> working d P (fs k) q ->
  b ∉ q -> (b < NBUF)%nat -> bufs (fs k) !! b = Some x -> request x ->
  exists qn' d',
    (modify (fun s => set_qnext (delete b (qnext s)) s) ;;
     q <- gets idequeue ;;
     match q with
     | None => modify (set_idequeue (Some b))
     | Some p => append_after (S NBUF) p b
     end ;;
     q <- gets idequeue ;;
     bind (when (bool_decide (q = Some b)) do idestart fuel (Some b)) f) (mk_ide k p qn h d) =
    f tt (mk_ide k (hd_error (q ++ [b])) qn' h d') /\
    links (hd_error (q ++ [b])) (q ++ [b]) qn' /\ working d' P (fs k) (q ++ [b]).
Proof.
  intros Hl Hnd Hq Hw Hb Hlt Hx Hr. rewrite bind_modify. cbn [set_qnext kern idequeue qnext havedisk1 hw].
  rewrite bind_gets. unfold set_qnext. cbn [kern idequeue qnext havedisk1 hw].
  apply (queue_ext q p qn (delete b qn)) in Hl; [|intros c Hc; apply lookup_delete_ne; set_solver].
  destruct q as [|c q]; cbn [links] in Hl.
  - subst p. rewrite bind_modify. cbn [set_idequeue kern idequeue qnext havedisk1 hw]. rewrite bind_gets.
    unfold set_idequeue. cbn [kern idequeue qnext havedisk1 hw]. rewrite bool_decide_true by done.
    destruct Hw as (a & Hs & Hj & HP).
    destruct (idestart_ok k (Some b) (delete b qn) h d a b x Hs Hj Hx Hr) as (d' & a' & E & Hs' & Hj' & HP').
    rewrite (bind_ok _ _ _ _ _ E). exists (delete b qn), d'. split; [done|]. cbn [app hd_error links].
    rewrite lookup_delete_eq. split; [done|]. exists a'. split; [done|]. exists x. by rewrite HP', HP.
  - destruct Hl as [-> Hl]. pose proof (few_buffers _ Hnd (queued_lt _ _ Hq)) as Hlen. cbn [length] in Hlen.
    destruct (append_ok b k (Some c) h d q c (delete b qn) (S NBUF) Hl Hnd Hb (lookup_delete_eq _ _) ltac:(lia))
      as (qn' & E & Hl' & _).
    rewrite (bind_ok _ _ _ _ _ E), bind_gets. cbn [idequeue]. rewrite bool_decide_false by (intros [= ->]; set_solver).
    rewrite bind_ret. exists qn', d. cbn [app hd_error links]. done.
Qed.

(** The caller of [iderw]: the process [i], with no spin lock held and with the
    sleep lock of the buffer. *)
Record caller (k : kstate) (i : nat) (b : nat) : Prop := mk_caller {
  ca_idle : idle k;
  ca_ide : lock_free idelock k;
  ca_ncli : ncli (this_cpu k) = 0;
  ca_cur : cur k = Some i;
  ca_buf : (b < NBUF)%nat;
  ca_lock : exists l, slocks (fs k) !! buf_lock b = Some l /\ sl_locked l = 1;
}.

Lemma request_pending x : request x -> Z.land (b_flags x) (Z.lor B_VALID B_DIRTY) =? B_VALID = false.
Proof. intros [Hf _ _ _]. by destruct Hf as [->| ->]. Qed.

(** The caller run again: it has the lock of the driver, and gives it back. *)
Lemma resume_ok n ie b i t y : lock_free idelock (kern t) -> lock_free ptable_lock (kern t) ->
  ncli (this_cpu (kern t)) = 0 -> cur (kern t) = Some i -> bufs (fs (kern t)) !! b = Some y -> b_flags y = B_VALID ->
  obind (olift (set_kern (locked_state ptable_lock (kern t)) t)
      (after_sched idelock ie (locked_state ptable_lock (kern t))))
    (fun _ => bind (rw_wait n b) (fun _ => lift (dev := dev) (release idelock))) =
  Ok tt (set_kern (awake ie i (kern t)) t).
Proof.
  intros Hi Hp Hn Hc Hy Hf. destruct t as [k q qn h d]. cbn [kern] in *.
  rewrite (after_sched_eq idelock ie k i) by done. cbn [olift obind]. cbn [set_kern kern idequeue qnext havedisk1 hw].
  set (ka := awake ie i k).
  assert (E : rw_wait n b (mk_ide (locked_state idelock ka) q qn h d) = Ok tt (mk_ide (locked_state idelock ka) q qn h d)).
  { destruct n; cbn [rw_wait]; erewrite lift_ok by (apply get_buf_ok; exact Hy); by rewrite Hf. }
  unfold set_kern at 1. cbn [kern idequeue qnext havedisk1 hw]. rewrite (bind_ok _ _ _ _ _ E). unfold lift. cbn [kern].
  rewrite (release_held _ _ ka); [|exact Hi|split; cbn; lia|done|done]. cbn [olift].
  unfold set_kern. cbn [idequeue qnext havedisk1 hw]. done.
Qed.

Lemma rw_wait_sleeps {B} (f : unit -> D (dev := dev) B) n b x k q qn h d : bufs (fs k) !! b = Some x -> request x ->
  bind (rw_wait (S n) b) f (mk_ide k q qn h d) =
  bind (lift (sleep (buf_chan b) idelock)) (fun _ => bind (rw_wait n b) f) (mk_ide k q qn h d).
Proof.
  intros Hx Hr. cbn [rw_wait]. rewrite bind_assoc. erewrite lift_ok by (apply get_buf_ok; exact Hx).
  rewrite (request_pending x Hr). cbn [negb]. by rewrite bind_assoc.
Qed.

Lemma iderw_ok s P q i pr b x : ide_rep s P q -> caller (kern s) i b -> procs (kern s) !! i = Some pr ->
  b ∉ q -> bufs (fs (kern s)) !! b = Some x -> request x -> b_dev x = 0 \/ havedisk1 s <> 0 ->
  exists s1 c, iderw fuel b s = Swtch s1 c /\
    kern s1 = asleep (buf_chan b) i (locked_state ptable_lock (kern s)) /\ ide_rep s1 P (q ++ [b]) /\
    forall t y, lock_free idelock (kern t) -> lock_free ptable_lock (kern t) -> ncli (this_cpu (kern t)) = 0 ->
      cur (kern t) = Some i -> bufs (fs (kern t)) !! b = Some y -> b_flags y = B_VALID ->
      c (set_kern (locked_state ptable_lock (kern t)) t) =
        Ok tt (set_kern (awake (eflags_IF (this_cpu (kern s))) i (kern t)) t).
Proof.
  intros [Hl Hnd Hq Hw] Hc Hpr Hb Hx Hr Hdev. destruct s as [k p qn h d]. cbn [idequeue qnext kern hw havedisk1] in *.
  pose proof (ca_idle _ _ _ Hc) as Hidle. destruct (ca_lock _ _ _ Hc) as (l & Hsl & Hll).
  unfold iderw. erewrite lift_ok by (apply (holdingsleep_idle k b Hidle (ca_buf _ _ _ Hc) l Hsl)). rewrite Hll. cbn [Z.eqb negb].
  erewrite lift_ok by (apply get_buf_ok; exact Hx). rewrite (request_pending x Hr). rewrite bind_gets. cbn [havedisk1].
  assert (Hd : negb (b_dev x =? 0) && (h =? 0) = false).
  { destruct Hdev as [->|Hh]; [done|]. by rewrite (proj2 (Z.eqb_neq _ _) Hh), andb_false_r. }
  rewrite Hd. erewrite lift_ok by (apply acquire_free; exact (ca_ide _ _ _ Hc)).
  edestruct (enqueue_ok (fun _ => rw_wait wait_limit b ;; lift (release idelock)) (locked_state idelock k) p qn h d P q b x)
    as (qn' & d' & E & Hl' & Hw'); try done; [apply Hc|].
  rewrite E. clear E. change wait_limit with (S 63). rewrite (rw_wait_sleeps _ 63 b x) by done.
  assert (Es : lift (dev := dev) (sleep (buf_chan b) idelock) (mk_ide (locked_state idelock k) (hd_error (q ++ [b])) qn' h d') =
    Swtch (mk_ide (asleep (buf_chan b) i (locked_state ptable_lock k)) (hd_error (q ++ [b])) qn' h d')
      (fun s' => olift s' (after_sched idelock (eflags_IF (this_cpu k)) (kern s')))).
  { unfold lift. cbn [kern]. rewrite (sleep_eq idelock (buf_chan b) k i pr); try done; apply Hc || apply Hidle. }
  rewrite (bind_swtch _ _ _ _ _ Es). eexists _, _. split; [reflexivity|]. split; [done|]. split.
  - constructor; cbn [idequeue qnext kern hw]; [exact Hl'| |apply Forall_app; split; [exact Hq|]|exact Hw'].
    + apply NoDup_app. split_and!; [done|set_solver|apply NoDup_singleton].
    + constructor; [|constructor]. split; [apply Hc|]. by exists x.
  - intros t y Ht1 Ht2 Ht3 Ht4 Ht5 Ht6. cbv beta. by apply (resume_ok _ _ b i t y).
Qed.


(** memide.c on the same request. *)
Lemma memide_same k i b x P : caller k i b -> bufs (fs k) !! b = Some x -> request x -> b_dev x = 1 ->
  disk (fs k) = P !!! 1%nat -> (1000 <= length (disk (fs k)))%nat -> (1 < length P)%nat ->
  exists m, Bio.iderw b k = Ok tt m /\ bufs (fs m) = <[b := served P x]> (bufs (fs k)) /\
    disk (fs m) = serve P x !!! 1%nat.
Proof.
  intros Hc Hx Hr Hd HD Hlen HP. destruct (ca_lock _ _ _ Hc) as (l & Hl & Hl1). pose proof (rq_no _ Hr) as Hno.
  pose proof (iderw_read k b x l (ca_idle _ _ _ Hc) (ca_buf _ _ _ Hc) Hx Hl Hl1 Hd ltac:(lia)) as HR.
  pose proof (iderw_write k b x l (ca_idle _ _ _ Hc) (ca_buf _ _ _ Hc) Hx Hl Hl1 Hd ltac:(lia)) as HW.
  unfold served, serve, dirty, sector, write_sector. rewrite Hd. change (Z.to_nat 1) with 1%nat.
  destruct (rq_flags _ Hr) as [Hf|Hf]; rewrite Hf.
  - change (flag_set 0 B_DIRTY) with false. cbv iota. rewrite (HR Hf). eexists. split; [reflexivity|].
    split; [|exact HD]. cbn. by rewrite HD.
  - change (flag_set (Z.lor B_VALID B_DIRTY) B_DIRTY) with true. cbv iota. rewrite (HW Hf). eexists. split; [reflexivity|].
    split; [done|]. cbn. rewrite HD. destruct (lookup_lt_is_Some_2 P 1 HP) as [d1 H1].
    by rewrite !list_lookup_total_alt, list_lookup_alter_eq, H1.
Qed.


End Spec.

Module IdeDemo.

(** ** A drive that is busy for two reads of its status after a command *)

Definition drive : Type := nat * ata.

#[export] Instance drive_ports : Ports drive := {
  inb p d := match d with (S n, a) => (0x80, (n, a)) | (O, a) => (0x40, (O, a)) end;
  outb p v d :=
    let a := d.2 in
    if p =? 0x1f7 then
      (2%nat, mk_ata (task a) (platters a)
                (if v =? IDE_CMD_READ then Reading (selected a) (lba a) else Writing (selected a) (lba a)))
    else (d.1, mk_ata (<[p := v]> (task a)) (platters a) (at_work a));
  insl p n d :=
    let a := d.2 in
    match at_work a with
    | Reading k n => (sector (platters a) k n, (d.1, mk_ata (task a) (platters a) Idle))
    | _ => ([], d)
    end;
  outsl p l d :=
    let a := d.2 in
    match at_work a with
    | Writing k n => (2%nat, mk_ata (task a) (write_sector k n l (platters a)) Idle)
    | _ => d
    end;
}.

Lemma drive_polls n a : polls (dev := drive) n (n, a) 0x40 (O, a).
Proof. induction n as [|n IH]; [done|]. exists 0x80, (n, a). split_and!; done. Qed.

#[export] Program Instance drive_laws : AtaLaws (dev := drive) 3 := {
  shows d a := d.2 = a /\ (d.1 < 3)%nat;
}.
Next Obligation. intros [n a'] a [Ha Hn]. cbn in *. subst. exists n, 0x40, (O, a). split_and!; [done|apply drive_polls|done|done|cbn; lia]. Qed.
Next Obligation.
  intros [n a'] a p v [Ha Hn] Hj Hp. cbn in *. subst. rewrite (proj2 (Z.eqb_neq p 503)) by set_solver.
  by rewrite Hj.
Qed.
Next Obligation. intros [n a'] a [Ha Hn] Hj Hr. cbn in *. subst. split; [done|lia]. Qed.
Next Obligation. intros [n a'] a [Ha Hn] Hj Hr. cbn in *. subst. split; [done|lia]. Qed.
Next Obligation. intros [n a'] a k m [Ha Hn] Hj. cbn in *. subst. rewrite Hj. by eexists. Qed.
Next Obligation. intros [n a'] a k m l [Ha Hn] Hj Hl. cbn in *. subst. rewrite Hj. split; [done|cbn; lia]. Qed.

(** ** A kernel with two buffers, of which the first is locked *)

Definition blank : list byte := replicate 512 Byte.x00.
Definition disk0 : list (list byte) := replicate 1000 blank.
Definition disks : list (list (list byte)) := [disk0; disk0].

Definition text : list byte := replicate 512 Byte.x41.
Definition w7 : buf := mk_buf (Z.lor B_VALID B_DIRTY) 1 7 1 0 0 text.
Definition r7 : buf := mk_buf 0 1 7 1 0 0 blank.

Definition with_ide (k : kstate) : kstate :=
  set_fs (set_slocks (<[buf_lock 0 := mk_sleeplock 1 "buffer" 1]> (slocks (fs k))) (set_bufs [w7; r7] (fs k)))
    (set_locks (<[idelock := mk_spinlock 0 "ide" None]> (locks k)) k).

Lemma with_ide_idle k : idle k -> idle (with_ide k).
Proof.
  intros [H1 H2 H3 H4 H5 H6 H7 H8].
  assert (Hl : forall lk, lk <> idelock -> lock_free lk k -> lock_free lk (with_ide k)).
  { intros lk Hne [n Hn]. exists n. cbn. by rewrite lookup_insert_ne. }
  constructor; try done; try (by apply Hl).
  intros b Hb. apply Hl; [|by apply H6]. unfold idelock, slk, buf_lock. lia.
Qed.

Definition kernel : kstate := with_ide (CacheDemo.kernel disk0).

Lemma with_ide_caller k : idle k -> ncli (this_cpu k) = 0 ->
  exists i pr, caller (with_ide k) i 0 /\ procs (with_ide k) !! i = Some pr.
Proof.
  intros Hk Hn. destruct (idle_cur _ Hk) as (i & pr & Hc & Hp). exists i, pr. split; [|exact Hp].
  constructor; [by apply with_ide_idle|by eexists; apply lookup_insert_eq|exact Hn|exact Hc|unfold NBUF; lia|].
  eexists. split; [apply lookup_insert_eq|done].
Qed.

Lemma with_ide_ready k : idle k -> ready (with_ide k).
Proof.
  intros Hk. pose proof (with_ide_idle k Hk) as []. constructor; try done. by eexists; apply lookup_insert_eq.
Qed.

Lemma with_ide_disk k : disk (fs (with_ide k)) = disk (fs k).
Proof. done. Qed.

Lemma kernel_facts : ready kernel /\ disk (fs kernel) = disk0 /\
  exists i pr, caller kernel i 0 /\ procs kernel !! i = Some pr.
Proof.
  split; [apply with_ide_ready, CacheDemo.idle_kernel|].
  split; [exact (eq_trans (with_ide_disk _) (CacheDemo.disk_kernel disk0))|]. apply with_ide_caller; [apply CacheDemo.idle_kernel|].
  destruct (in_rest _ _ _ (CacheDemo.inited_kernel disk0)) as (-> & _). done.
Qed.

Lemma w7_ok : request w7.
Proof. constructor; [by right|by right|cbn; lia|done]. Qed.
Lemma r7_ok : request r7.
Proof. constructor; [by left|by right|cbn; lia|done]. Qed.

(** The drive idle, and with the two requests on its queue. *)
Definition idle_drive : ide drive := mk_ide kernel None ∅ 1 (O, mk_ata ∅ disks Idle).
Definition two_requests : ide drive := mk_ide kernel (Some 0%nat) {[0%nat := 1%nat]} 1 (O, mk_ata ∅ (serve disks w7) Idle).

Lemma idle_drive_rep : ide_rep 3 idle_drive disks [].
Proof. constructor; [done|constructor|constructor|]. exists (mk_ata ∅ disks Idle). split; [split; [done|cbn; lia]|done]. Qed.

Lemma two_requests_rep : ide_rep 3 two_requests disks [0%nat; 1%nat].
Proof.
  constructor.
  - done.
  - apply (bool_decide_unpack _). by vm_compute.
  - constructor; [|constructor; [|constructor]].
    + split; [unfold NBUF; lia|]. exists w7. split; [done|apply w7_ok].
    + split; [unfold NBUF; lia|]. exists r7. split; [done|apply r7_ok].
  - exists (mk_ata ∅ (serve disks w7) Idle). split; [split; [done|cbn; lia]|]. by exists w7.
Qed.

End IdeDemo.
Import IdeDemo.


