(* ===== verification/Boot.v ===== *)
(** * bootmain.c: the boot loader

    The loader runs before the kernel, on the memory of the machine and the
    ports of the IDE disk, here those of the class [Ports].  Addresses and
    lengths are 32 bits wide. *)

From S2P Require Import Prelude Memory CString FsState Machine Ide.
Local Open Scope Z_scope.
Local Open Scope kernel_scope.

Module Boot.

Record boot {dev : Type} : Type := mk_boot { pmem : memory; disk : dev }.
Arguments boot dev : clear implicits.
Arguments mk_boot {dev}.

Definition SECTSIZE : Z := 512.

(** The offsets of the fields of [struct mbheader]. *)
Inductive mbheader : Set :=
  | hdr_flags | hdr_header_addr | hdr_load_addr | hdr_load_end_addr | hdr_bss_end_addr | hdr_entry_addr.

Definition mb_off (f : mbheader) : Z :=
  match f with
  | hdr_flags => 4
  | hdr_header_addr => 12
  | hdr_load_addr => 16
  | hdr_load_end_addr => 20
  | hdr_bss_end_addr => 24
  | hdr_entry_addr => 28
  end.

Section Loader.
Context {dev : Type} `{Ports dev}.

Definition B := M (boot dev).

Definition in_b (port : Z) : B Z := fun s => let '(v, d) := inb port (disk s) in Ok v (mk_boot (pmem s) d).
Definition out_b (port v : Z) : B unit := modify (fun s => mk_boot (pmem s) (outb port (u8 v) (disk s))).
Definition load32 (a : Z) : B Z := gets (fun s => loadZ 4 (pmem s) a).

(** The drive is polled at most [fuel] times. *)
Context (fuel : nat).

Fixpoint waitdisk_loop (n : nat) : B unit :=
  match n with
  | O => out_of_fuel
  | S n => r <- in_b 0x1F7 ;; if negb (Z.land r 0xC0 =? 0x40) then waitdisk_loop n else ret tt
  end.

Definition waitdisk : B unit := waitdisk_loop fuel.

Definition readsect (dst offset : Z) : B unit :=
  waitdisk ;;
  out_b 0x1F2 1 ;;
  out_b 0x1F3 offset ;;
  out_b 0x1F4 (Z.shiftr offset 8) ;;
  out_b 0x1F5 (Z.shiftr offset 16) ;;
  out_b 0x1F6 (Z.lor (Z.shiftr offset 24) 0xE0) ;;
  out_b 0x1F7 0x20 ;;
  waitdisk ;;
  fun s => let '(l, d) := insl 0x1F0 (Z.to_nat (SECTSIZE / 4)) (disk s) in
           Ok tt (mk_boot (store_bytes (pmem s) dst l) d).

Fixpoint readseg_loop (n : nat) (pa epa offset : Z) : B unit :=
  if pa <? epa then
    match n with
    | O => out_of_fuel
    | S n =>
        readsect pa offset ;;
        readseg_loop n (u32 (pa + SECTSIZE)) epa (u32 (offset + 1))
    end
  else ret tt.

(** The fuel is the number of sectors. *)
Definition readseg (pa count offset : Z) : B unit :=
  let epa := u32 (pa + count) in
  let pa := u32 (pa - offset mod SECTSIZE) in
  let offset := u32 (offset / SECTSIZE + 1) in
  readseg_loop (Z.to_nat ((epa - pa + SECTSIZE - 1) / SECTSIZE)) pa epa offset.

(** The scratch space [x]. *)
Definition x_at (n : Z) : B Z := load32 (0x10000 + 4 * n).

Fixpoint find_header (k : nat) (n : Z) : B (option Z) :=
  match k with
  | O => ret None
  | S k =>
      a <- x_at n ;;
      if a =? 0x1BADB002 then
        b <- x_at (n + 1) ;;
        c <- x_at (n + 2) ;;
        if u32 (a + b + c) =? 0 then ret (Some n) else find_header k (n + 1)
      else find_header k (n + 1)
  end.

(** The address of the kernel that is called, or nothing when the loader gives up. *)
Definition bootmain : B (option Z) :=
  readseg 0x10000 8192 0 ;;
  r <- find_header (Z.to_nat (8192 / 4)) 0 ;;
  match r with
  | None => ret None
  | Some n =>
      let hdr (f : mbheader) := load32 (0x10000 + 4 * n + mb_off f) in
      flags <- hdr hdr_flags ;;
      if Z.land flags 0x10000 =? 0 then ret None else
      load_addr <- hdr hdr_load_addr ;;
      header_addr <- hdr hdr_header_addr ;;
      if header_addr <? load_addr then ret None else
      load_end_addr <- hdr hdr_load_end_addr ;;
      if load_end_addr <? load_addr then ret None else
      readseg load_addr (u32 (load_end_addr - load_addr)) (u32 (n * 4 - (header_addr - load_addr))) ;;
      bss_end_addr <- hdr hdr_bss_end_addr ;;
      load_end_addr <- hdr hdr_load_end_addr ;;
      (if load_end_addr <? bss_end_addr then
         modify (fun s => mk_boot (stosb (pmem s) load_end_addr 0 (Z.to_nat (bss_end_addr - load_end_addr))) (disk s))
       else ret tt) ;;
      entry <- hdr hdr_entry_addr ;;
      ret (Some entry)
  end.

End Loader.

End Boot.
