(* ===== verification/BootSpec.v ===== *)
(** * The boot loader loads the kernel

    On a drive that obeys [AtaLaws] (IdeSpec.v) the loader finds the multiboot
    header in the sectors after its own, copies the kernel to the place that
    the header names, clears the rest and calls the entry point. *)

From stdpp Require Import gmap.
From S2P Require Import Prelude Memory CString FsState Machine Bio Log Ide IdeSpec FileSpec Boot.
Import Ide Boot.
Local Open Scope Z_scope.
Local Open Scope kernel_scope.

(** ** Reading sectors *)

Section Spec.
Context {dev : Type} `{Ports dev} (fuel : nat) `{L : !AtaLaws (dev := dev) fuel}.
Implicit Types (m : memory) (d : dev).

Lemma waitdisk_polls n : forall k m d v d', polls n d v d' -> (n < k)%nat ->
  waitdisk_loop k (mk_boot m d) = Ok tt (mk_boot m d').
Proof.
  induction n as [|n IH]; intros k m d v d' Hp Hk; (destruct k as [|k]; [lia|]); cbn [polls] in Hp;
    cbn [waitdisk_loop]; unfold bind, in_b; cbn [Boot.disk pmem].
  - destruct Hp as [-> Hv]. cbn [obind]. change 0xC0 with (Z.lor IDE_BSY IDE_DRDY). rewrite Hv. done.
  - destruct Hp as (w & d1 & -> & Hw & Hp). cbn [obind]. change 0xC0 with (Z.lor IDE_BSY IDE_DRDY).
    change 0x40 with (IDE_DRDY : Z). rewrite (proj2 (Z.eqb_neq _ _) Hw). cbn [negb]. by apply (IH k m d1 v d'); [|lia].
Qed.

Lemma waitdisk_ok m d a : shows d a -> exists d', shows d' a /\ waitdisk fuel (mk_boot m d) = Ok tt (mk_boot m d').
Proof.
  intros Hs. destruct (law_ready _ _ Hs) as (n & v & d' & Hn & Hp & _ & Hs'). exists d'. split; [done|].
  by eapply waitdisk_polls.
Qed.

Lemma out_then {A} p v (f : unit -> B (dev := dev) A) m d :
  bind (out_b p v) f (mk_boot m d) = f tt (mk_boot m (outb p (u8 v) d)).
Proof. done. Qed.

(** The task file for the sector [o] of the first disk. *)
Definition sector_regs (o : Z) (t : gmap Z Z) : gmap Z Z :=
  <[0x1f6 := u8 (Z.lor (Z.shiftr o 24) 0xE0)]> (<[0x1f5 := u8 (Z.shiftr o 16)]> (<[0x1f4 := u8 (Z.shiftr o 8)]>
    (<[0x1f3 := u8 o]> (<[0x1f2 := u8 1]> t)))).

Lemma drive_bits q : 0 <= q < 16 -> Z.land (u8 (Z.lor q 0xE0)) 0xf = q /\ Z.land (Z.shiftr (u8 (Z.lor q 0xE0)) 4) 1 = 0.
Proof.
  intros Hq. assert (Hall : Forall (fun q => Z.land (u8 (Z.lor q 0xE0)) 0xf = q /\ Z.land (Z.shiftr (u8 (Z.lor q 0xE0)) 4) 1 = 0)
    (map Z.of_nat (seq 0 16))) by (apply (bool_decide_unpack _); by vm_compute).
  rewrite Forall_forall in Hall. apply Hall. apply list_elem_of_fmap. exists (Z.to_nat q). split; [lia|]. apply elem_of_seq. lia.
Qed.

Lemma sector_regs_ok o t P j : 0 <= o < 2 ^ 28 -> let a := mk_ata (sector_regs o t) P j in
  reg a 0x1f2 = 1 /\ lba a = o /\ selected a = 0.
Proof.
  intros Ho. cbv zeta. unfold lba, selected, reg, sector_regs. cbn [task].
  repeat (rewrite lookup_insert_eq || rewrite lookup_insert_ne by done). cbn [from_option]. unfold id.
  assert (Hq : 0 <= Z.shiftr o 24 < 16).
  { rewrite Z.shiftr_div_pow2 by lia. split; [apply Z.div_pos; lia|]. apply Z.div_lt_upper_bound; lia. }
  destruct (drive_bits _ Hq) as [-> ->]. split; [done|]. split; [|done].
  unfold u8. rewrite !Z.shiftr_div_pow2, !Z.shiftl_mul_pow2 by lia.
  change (2 ^ 8) with 256. change (2 ^ 16) with 65536. change (2 ^ 24) with 16777216. lia_mod.
Qed.

Ltac out_reg Hs :=
  match goal with
  | |- context [bind (out_b ?p ?v) _ (mk_boot ?m ?d)] =>
      rewrite out_then; apply (law_register d _ p (u8 v)) in Hs; [|reflexivity|set_solver]; cbn [task platters] in Hs
  end.

Lemma readsect_ok m d a dst o : shows d a -> at_work a = Idle -> 0 <= o < 2 ^ 28 ->
  exists d' a', readsect fuel dst o (mk_boot m d) = Ok tt (mk_boot (store_bytes m dst (sector (platters a) 0 o)) d') /\
    shows d' a' /\ at_work a' = Idle /\ platters a' = platters a.
Proof.
  intros Hs Hi Ho. unfold readsect. destruct (waitdisk_ok m d a Hs) as (d1 & Hs1 & E). rewrite (bind_ok _ _ _ _ _ E). clear E Hs.
  destruct a as [t P j]. cbn [at_work] in Hi. subst j. do 5 out_reg Hs1.
  destruct (sector_regs_ok o t P Idle Ho) as (H1 & H2 & H3). cbv zeta in H1, H2, H3.
  rewrite out_then. apply law_read in Hs1; [|done|exact H1]. fold (sector_regs o t) in Hs1. rewrite H2, H3 in Hs1. cbn [task platters] in Hs1.
  change (outb 0x1F7 (u8 0x20)) with (outb 0x1F7 IDE_CMD_READ).
  destruct (waitdisk_ok m _ _ Hs1) as (d2 & Hs2 & E). rewrite (bind_ok _ _ _ _ _ E).
  destruct (law_in _ _ 0 o Hs2 eq_refl) as (d3 & E3 & Hs3). change (Z.to_nat (SECTSIZE / 4)) with 128%nat. cbn [Boot.disk pmem].
  rewrite E3. by eexists _, _.
Qed.

(** A drive at rest whose first disk has the sectors [l]. *)
Definition holds d (l : list (list byte)) : Prop :=
  exists a, shows d a /\ at_work a = Idle /\ platters a !! 0%nat = Some l.

Lemma holds_sector l d m dst o : holds d l -> 0 <= o < Z.of_nat (length l) -> Z.of_nat (length l) <= 2 ^ 28 ->
  exists d', readsect fuel dst o (mk_boot m d) = Ok tt (mk_boot (store_bytes m dst (l !!! Z.to_nat o)) d') /\ holds d' l.
Proof.
  intros (a & Hs & Hi & Hl) Ho Hlen. destruct (readsect_ok m d a dst o Hs Hi ltac:(lia)) as (d' & a' & E & Hs' & Hi' & Hp').
  exists d'. unfold sector in E. change (Z.to_nat 0) with 0%nat in E. rewrite (list_lookup_total_correct _ _ _ Hl) in E.
  split; [done|]. exists a'. by rewrite Hp'.
Qed.

Section Disk.
Context (l : list (list byte)).
Hypothesis Hblocks : Forall (fun c => length c = 512%nat) l.
Hypothesis Hlen : Z.of_nat (length l) <= 2 ^ 28.

Lemma sector_length o : (o < length l)%nat -> length (l !!! o) = 512%nat.
Proof using Hblocks.
  intros Ho. destruct (lookup_lt_is_Some_2 l o Ho) as [c Hc]. rewrite (list_lookup_total_correct _ _ _ Hc).
  rewrite Forall_lookup in Hblocks. by apply (Hblocks o c).
Qed.

Lemma readseg_loop_ok : forall k m d pa epa o, holds d l -> 0 <= pa -> (o + k <= length l)%nat ->
  pa + 512 * Z.of_nat k < 2 ^ 32 -> (k = 0%nat -> epa <= pa) -> ((0 < k)%nat -> pa + 512 * (Z.of_nat k - 1) < epa <= pa + 512 * Z.of_nat k) ->
  exists d', readseg_loop fuel k pa epa (Z.of_nat o) (mk_boot m d) =
      Ok tt (mk_boot (store_bytes m pa (concat (take k (drop o l)))) d') /\ holds d' l.
Proof.
  induction k as [|k IH]; intros m d pa epa o Hh Hpa Hok Hw H0 H1; cbn [readseg_loop].
  - rewrite (proj2 (Z.ltb_ge _ _)) by (apply H0; done). exists d. by rewrite take_0, store_bytes_nil.
  - specialize (H1 ltac:(lia)). rewrite (proj2 (Z.ltb_lt _ _)) by lia.
    destruct (holds_sector l d m pa (Z.of_nat o) Hh ltac:(lia) Hlen) as (d1 & E1 & Hh1). rewrite (bind_ok _ _ _ _ _ E1).
    rewrite Nat2Z.id. unfold SECTSIZE. rewrite !u32_small by lia. replace (Z.of_nat o + 1) with (Z.of_nat (S o)) by lia.
    destruct (IH (store_bytes m pa (l !!! o)) d1 (pa + 512) epa (S o) Hh1) as (d2 & E2 & Hh2); [lia|lia|lia|lia|lia|].
    exists d2. split; [|done]. rewrite E2. do 2 f_equal.
    destruct (lookup_lt_is_Some_2 l o ltac:(lia)) as [c Hc]. rewrite (drop_S l c o Hc). cbn [take concat].
    rewrite <- (list_lookup_total_correct _ _ _ Hc), store_bytes_app, sector_length by lia. done.
Qed.

(** The bytes of the disk after the sector of the loader. *)
Definition image : list byte := concat (drop 1 l).

Lemma image_blocks : Forall (fun c => length c = BLK) (drop 1 l).
Proof using Hblocks. by apply Forall_drop. Qed.

Lemma image_length : length image = (512 * (length l - 1))%nat.
Proof using Hblocks. unfold image. rewrite length_concat_blocks by apply image_blocks. by rewrite length_drop. Qed.

Lemma sectors_image k q : (q + k <= length l - 1)%nat -> concat (take k (drop (S q) l)) = take (512 * k) (drop (512 * q) image).
Proof using Hblocks.
  intros Hq. unfold image. replace (drop (S q) l) with (drop q (drop 1 l)) by (rewrite drop_drop; f_equal; lia).
  pose proof image_blocks as Hb. assert (Hl : (q + k <= length (drop 1 l))%nat) by (rewrite length_drop; lia).
  revert Hb Hl. generalize (drop 1 l) as b. clear Hq. induction q as [|q IH]; intros b Hb Hl.
  - rewrite Nat.mul_0_r, !drop_0. revert b Hb Hl. induction k as [|k IHk]; intros b Hb Hl; [done|].
    destruct b as [|c b]; [simpl in Hl; lia|]. apply Forall_cons in Hb as [Hc Hb]. cbn [take concat].
    rewrite (IHk b Hb ltac:(simpl in Hl; lia)). rewrite take_app, (take_ge c) by (rewrite Hc; change BLK with 512%nat; lia).
    do 2 f_equal. rewrite Hc. change BLK with 512%nat. lia.
  - destruct b as [|c b]; [simpl in Hl; lia|]. apply Forall_cons in Hb as [Hc Hb]. cbn [drop concat].
    rewrite (IH b Hb ltac:(simpl in Hl; lia)). f_equal. change BLK with 512%nat in Hc.
    replace (512 * S q)%nat with (length c + 512 * q)%nat by lia. by rewrite drop_app_add.
Qed.

(** [readseg] copies [n] bytes of the image; it may write the rest of the first
    and of the last sector around them. *)
Lemma readseg_ok m d pa n off : holds d l -> 0 < n -> 0 <= off -> off + n <= Z.of_nat (length image) ->
  512 <= pa -> pa + n + 512 < 2 ^ 32 ->
  exists m' d', readseg fuel pa n off (mk_boot m d) = Ok tt (mk_boot m' d') /\ holds d' l /\
    load_bytes m' pa (Z.to_nat n) = take (Z.to_nat n) (drop (Z.to_nat off) image) /\
    forall x, x < pa - 512 \/ pa + n + 512 <= x -> m' x = m x.
Proof.
  intros Hh Hn Hoff Hend Hpa Hw. rewrite image_length in Hend. unfold readseg, SECTSIZE.
  pose proof (Z.mod_pos_bound off 512 ltac:(lia)) as Hr. pose proof (Z.div_mod off 512 ltac:(lia)) as Hdm.
  set (r := off mod 512) in *. set (q := off / 512) in *. assert (0 <= q) by (unfold q; apply Z.div_pos; lia).
  assert (Hl28 : Z.of_nat (length l) <= 268435456) by exact Hlen.
  rewrite !u32_small by lia. cbv zeta.
  set (k := Z.to_nat ((pa + n - (pa - r) + 512 - 1) / 512)).
  assert (Hk : 512 * (Z.of_nat k - 1) < n + r <= 512 * Z.of_nat k) by (unfold k; lia_mod).
  destruct (readseg_loop_ok k m d (pa - r) (pa + n) (S (Z.to_nat q)) Hh) as (d' & E & Hh'); [lia|lia|lia|lia|lia|].
  replace (Z.of_nat (S (Z.to_nat q))) with (q + 1) in E by lia. rewrite (sectors_image k (Z.to_nat q)) in E by lia.
  eexists _, d'. split; [exact E|]. split; [done|]. set (b := take (512 * k) _).
  assert (Hb : length b = (512 * k)%nat) by (unfold b; rewrite length_take, length_drop, image_length; lia). split.
  - pose proof (load_store_same m (pa - r) b _ Hb) as Hs.
    assert (Hd : load_bytes (store_bytes m (pa - r) b) pa (Z.to_nat n) = take (Z.to_nat n) (drop (Z.to_nat r) b)).
    { rewrite <- Hs at 2. rewrite drop_load_bytes, take_load_bytes by lia. f_equal. lia. }
    rewrite Hd. unfold b. rewrite skipn_firstn_comm, drop_drop, take_take. f_equal; [lia|]. f_equal. lia.
  - intros x Hx. apply store_bytes_ne. rewrite Hb. lia.
Qed.

End Disk.

(** ** The multiboot header *)

Definition field (img : list byte) (o : Z) : Z := word 4 img (Z.to_nat o).

Definition is_header (img : list byte) (n : Z) : Prop :=
  field img (4 * n) = 0x1BADB002 /\ u32 (field img (4 * n) + field img (4 * (n + 1)) + field img (4 * (n + 2))) = 0.

(** The first header in the image is at the word [n]; it asks for the bytes of the
    image from [off] on at [load], up to [load_end], and for zeros up to
    [bss_end]. *)
Record kernel_header (img : list byte) (n load load_end bss_end entry off : Z) : Prop := mk_kernel_header {
  kh_range : 0 <= n /\ 4 * n + 32 <= 8192;
  kh_header : is_header img n;
  kh_first j : 0 <= j < n -> ~ is_header img j;
  kh_flags : Z.land (field img (4 * n + mb_off hdr_flags)) 0x10000 <> 0;
  kh_header_addr : field img (4 * n + mb_off hdr_header_addr) = load + 4 * n - off;
  kh_load : field img (4 * n + mb_off hdr_load_addr) = load;
  kh_load_end : field img (4 * n + mb_off hdr_load_end_addr) = load_end;
  kh_bss_end : field img (4 * n + mb_off hdr_bss_end_addr) = bss_end;
  kh_entry : field img (4 * n + mb_off hdr_entry_addr) = entry;
  kh_off : 0 <= off <= 4 * n;
  kh_size : load < load_end /\ off + (load_end - load) <= Z.of_nat (length img);
  kh_place : 0x12000 + 512 <= load /\ load_end + 512 < 2 ^ 32;
}.

(** The scratch space has the first 8192 bytes of the image. *)
Definition scratch m (img : list byte) : Prop :=
  forall o, 0 <= o -> o + 4 <= 8192 -> loadZ 4 m (0x10000 + o) = field img o.

Lemma scratch_load m img : load_bytes m 0x10000 (Z.to_nat 8192) = take (Z.to_nat 8192) img -> scratch m img.
Proof.
  intros Hm o Ho Hend. unfold loadZ, field, word. f_equal.
  assert (E : load_bytes m (0x10000 + o) 4 = take 4 (drop (Z.to_nat o) (load_bytes m 0x10000 (Z.to_nat 8192)))).
  { rewrite drop_load_bytes, take_load_bytes by lia. f_equal. lia. }
  rewrite E, Hm, skipn_firstn_comm, take_take. f_equal. lia.
Qed.

Lemma scratch_frame m m' img : scratch m img -> (forall x, 0x10000 <= x < 0x12000 -> m' x = m x) -> scratch m' img.
Proof.
  intros Hs Hx o Ho Hend. rewrite <- Hs by done. unfold loadZ. f_equal. apply load_bytes_ext. intros i Hi. apply Hx. lia.
Qed.

Lemma find_header_ok m d img n : scratch m img -> is_header img n -> (forall j, 0 <= j < n -> ~ is_header img j) ->
  4 * n + 12 <= 8192 -> forall k j, 0 <= j <= n -> n < j + Z.of_nat k ->
  find_header k j (mk_boot m d) = Ok (Some n) (mk_boot m d).
Proof.
  intros Hs Hn Hfirst Hr. induction k as [|k IH]; intros j Hj Hk; [lia|]. cbn [find_header]. unfold x_at, load32.
  rewrite bind_gets. cbn [pmem]. rewrite Hs by lia. destruct (decide (j = n)) as [->|Hne].
  - destruct Hn as [Hm Hsum]. rewrite Hm, Z.eqb_refl, !bind_gets. cbn [pmem]. rewrite !Hs by lia. rewrite Hm in Hsum.
    by rewrite Hsum.
  - specialize (Hfirst j ltac:(lia)). assert (Hnext := IH (j + 1) ltac:(lia) ltac:(lia)).
    destruct (Z.eqb_spec (field img (4 * j)) 0x1BADB002) as [Hm|Hm]; [|exact Hnext].
    rewrite !bind_gets. cbn [pmem]. rewrite !Hs by lia. destruct (Z.eqb_spec (u32 (field img (4 * j) + field img (4 * (j + 1)) + field img (4 * (j + 2)))) 0) as [H0|H0]; [|exact Hnext].
    by destruct Hfirst.
Qed.

(** A load of the header, which is in the scratch space. *)
Lemma hdr_then {A} m d img n f (k : Z -> B (dev := dev) A) : scratch m img -> 0 <= n -> 4 * n + 32 <= 8192 ->
  bind (load32 (0x10000 + 4 * n + mb_off f)) k (mk_boot m d) = k (field img (4 * n + mb_off f)) (mk_boot m d).
Proof.
  intros Hs Hn Hr. unfold load32. rewrite bind_gets. cbn [pmem]. rewrite <- Z.add_assoc, Hs by (destruct f; cbn; lia). done.
Qed.

Lemma clear_ok m load_end bss_end : load_bytes (stosb m load_end 0 (Z.to_nat (bss_end - load_end))) load_end (Z.to_nat (bss_end - load_end)) =
    replicate (Z.to_nat (bss_end - load_end)) Byte.x00 /\
  forall x, x < load_end -> stosb m load_end 0 (Z.to_nat (bss_end - load_end)) x = m x.
Proof.
  rewrite stosb_spec. change (byte.of_Z 0) with Byte.x00. split.
  - apply load_store_same. by rewrite length_replicate.
  - intros x Hx. apply store_bytes_ne. lia.
Qed.


End Spec.

Import IdeDemo.

Module BootDemo.

(** A kernel with its header at the second word, loaded at one megabyte. *)
Definition header : list byte :=
  concat (map (le_split 4) [0x1BADB002; 0x10000; 2 ^ 32 - 0x1BADB002 - 0x10000; 0x100004; 0x100000; 0x100400; 0x100800; 0x100030]).
Definition sectors : list (list byte) :=
  replicate 512 Byte.x55 :: splice 4 header blank :: replicate 20 (replicate 512 Byte.x90).
Definition machine : IdeDemo.drive := (0%nat, mk_ata ∅ [sectors; []] Idle).

Lemma drive_holds : holds 3 machine sectors.
Proof. exists (mk_ata ∅ [sectors; []] Idle). split; [split; [reflexivity|cbn; lia]|]. split; reflexivity. Qed.

Lemma header_ok : kernel_header (image sectors) 1 0x100000 0x100400 0x100800 0x100030 0.
Proof.
  constructor; [lia|split; by vm_compute| |by vm_compute..|lia|split; [lia|by vm_compute]|split; [lia|by vm_compute]].
  intros j Hj [Hm _]. assert (j = 0) as -> by lia. vm_compute in Hm. discriminate.
Qed.

End BootDemo.

