(* ===== verification/Mp.v ===== *)
(** * mp.c: the processors of the machine

    The BIOS leaves a table of the processors in memory, which [mpinit] finds and
    reads.  The static data of mp.c and the address of the local APIC are the
    record [mpst]; the ports of the interrupt mode register are those of the
    class [Ports].  The two messages of [mpinit] are left out. *)

From S2P Require Import Prelude Memory CString FsState Machine Ide.
Local Open Scope Z_scope.
Local Open Scope kernel_scope.

Module Mp.

Definition NCPU : Z := 8.

(** [apicids] are the fields [apicid] of the array [cpus]. *)
Record mpst {dev : Type} : Type := mk_mpst {
  kmem : memory;
  ncpu : Z;
  apicids : list Z;
  ioapicid : Z;
  lapic : Z;
  ports : dev;
}.
Arguments mpst dev : clear implicits.
Arguments mk_mpst {dev}.

(** The fields of [struct mp], [struct mpconf], [struct mpproc] and [struct
    mpioapic] that are used, with their offsets and sizes. *)
Inductive mp_field : Set := mp_physaddr | mp_imcrp.
Inductive mpconf_field : Set := mc_length | mc_version | mc_lapicaddr_p.

Definition mp_get (m : memory) (mp : Z) (f : mp_field) : Z :=
  match f with mp_physaddr => loadZ 4 m (mp + 4) | mp_imcrp => loadZ 1 m (mp + 12) end.
Definition mpconf_get (m : memory) (conf : Z) (f : mpconf_field) : Z :=
  match f with
  | mc_length => loadZ 2 m (conf + 4)
  | mc_version => loadZ 1 m (conf + 6)
  | mc_lapicaddr_p => loadZ 4 m (conf + 36)
  end.
Definition mpproc_apicid (m : memory) (p : Z) : Z := loadZ 1 m (p + 1).
Definition mpioapic_apicno (m : memory) (p : Z) : Z := loadZ 1 m (p + 1).

Inductive mp_size : Set := sizeof_mp | sizeof_mpconf | sizeof_mpproc | sizeof_mpioapic.
Definition mp_bytes (s : mp_size) : Z :=
  match s with sizeof_mp => 16 | sizeof_mpconf => 44 | sizeof_mpproc => 20 | sizeof_mpioapic => 8 end.
Coercion mp_bytes : mp_size >-> Z.

Inductive mp_type : Set := MPPROC | MPBUS | MPIOAPIC | MPIOINTR | MPLINTR.
Definition mp_code (t : mp_type) : Z :=
  match t with MPPROC => 0x00 | MPBUS => 0x01 | MPIOAPIC => 0x02 | MPIOINTR => 0x03 | MPLINTR => 0x04 end.
Coercion mp_code : mp_type >-> Z.

Definition mp_signature : list byte := [Byte.x5f; Byte.x4d; Byte.x50; Byte.x5f].    (* "_MP_" *)
Definition conf_signature : list byte := [Byte.x50; Byte.x43; Byte.x4d; Byte.x50].  (* "PCMP" *)

Fixpoint sum_loop (m : memory) (addr : Z) (len : nat) (sum : Z) : Z :=
  match len with
  | O => sum
  | S k => sum_loop m (addr + 1) k (s32 (sum + byte.unsigned (m addr)))
  end.
Definition sum (m : memory) (addr len : Z) : Z := u8 (sum_loop m addr (Z.to_nat len) 0).

(** [memcmp(p, s, 4) == 0] *)
Definition signed_by (s : list byte) (m : memory) (p : Z) : bool := bool_decide (load_bytes m p 4 = s).

(** The address of the structure, or 0. *)
Fixpoint mpsearch1_loop (m : memory) (k : nat) (p e : Z) : Z :=
  match k with
  | O => 0
  | S k =>
      if p <? e then
        if signed_by mp_signature m p && (sum m p sizeof_mp =? 0) then p
        else mpsearch1_loop m k (p + sizeof_mp) e
      else 0
  end.
Definition mpsearch1 (m : memory) (a len : Z) : Z :=
  let addr := P2V a in
  mpsearch1_loop m (Z.to_nat ((len + sizeof_mp - 1) / sizeof_mp)) addr (addr + len).

Definition mpsearch (m : memory) : Z :=
  let bda := P2V 0x400 in
  let b (o : Z) := byte.unsigned (m (bda + o)) in
  let p := Z.shiftl (Z.lor (Z.shiftl (b 0x0F) 8) (b 0x0E)) 4 in
  let mp :=
    if negb (p =? 0) then mpsearch1 m p 1024
    else mpsearch1 m (u32 (Z.lor (Z.shiftl (b 0x14) 8) (b 0x13) * 1024 - 1024)) 1024 in
  if negb (mp =? 0) then mp else mpsearch1 m 0xF0000 0x10000.

(** The table and the structure that points to it. *)
Definition mpconfig (m : memory) : option (Z * Z) :=
  let mp := mpsearch m in
  if (mp =? 0) || (mp_get m mp mp_physaddr =? 0) then None else
  let conf := P2V (mp_get m mp mp_physaddr) in
  if negb (signed_by conf_signature m conf) then None
  else if negb (mpconf_get m conf mc_version =? 1) && negb (mpconf_get m conf mc_version =? 4) then None
  else if negb (sum m conf (mpconf_get m conf mc_length) =? 0) then None
  else Some (conf, mp).

Section Init.
Context {dev : Type} `{Ports dev}.

Definition I := M (mpst dev).

(** [if(ncpu < NCPU) cpus[ncpu++].apicid = id] *)
Definition add_cpu (id : Z) (s : mpst dev) : mpst dev :=
  if ncpu s <? NCPU then
    mk_mpst (kmem s) (ncpu s + 1) (<[Z.to_nat (ncpu s) := id]> (apicids s)) (ioapicid s) (lapic s) (ports s)
  else s.
Definition set_ioapicid (v : Z) (s : mpst dev) : mpst dev := mk_mpst (kmem s) (ncpu s) (apicids s) v (lapic s) (ports s).
Definition set_lapic (v : Z) (s : mpst dev) : mpst dev := mk_mpst (kmem s) (ncpu s) (apicids s) (ioapicid s) v (ports s).
Definition set_ports (d : dev) (s : mpst dev) : mpst dev :=
  mk_mpst (kmem s) (ncpu s) (apicids s) (ioapicid s) (lapic s) d.

(** The entries from [p] to [e]; each takes eight bytes at least. *)
Fixpoint mpinit_loop (k : nat) (p e : Z) : I unit :=
  if p <? e then
    match k with
    | O => out_of_fuel
    | S k =>
        m <- gets kmem ;;
        let type := byte.unsigned (m p) in
        if type =? MPPROC then
          modify (add_cpu (mpproc_apicid m p)) ;; mpinit_loop k (p + sizeof_mpproc) e
        else if type =? MPIOAPIC then
          modify (set_ioapicid (mpioapic_apicno m p)) ;; mpinit_loop k (p + sizeof_mpioapic) e
        else if (type =? MPBUS) || (type =? MPIOINTR) || (type =? MPLINTR) then mpinit_loop k (p + 8) e
        else panic "Major problem parsing mp config."
    end
  else ret tt.

Definition mpinit : I unit :=
  m <- gets kmem ;;
  match mpconfig m with
  | None => ret tt
  | Some (conf, mp) =>
      modify (set_lapic (P2V (mpconf_get m conf mc_lapicaddr_p))) ;;
      let n := mpconf_get m conf mc_length in
      mpinit_loop (Z.to_nat n) (conf + sizeof_mpconf) (conf + n) ;;
      when (negb (mp_get m mp mp_imcrp =? 0)) do (
        modify (fun s => set_ports (outb 0x22 0x70 (ports s)) s) ;;
        modify (fun s => let '(v, d) := inb 0x23 (ports s) in set_ports (outb 0x23 (Z.lor v 1) d) s))
  end.

End Init.

End Mp.
