(* ===== verification/MpSpec.v ===== *)
(** * mpinit finds the processors

    The places where the floating structure can be, as a list of addresses, and
    the table as a list of entries: [mpinit] takes the first structure with a
    correct checksum, and the processors of the table in their order, up to
    [NCPU]. *)

From stdpp Require Import gmap.
From S2P Require Import Prelude Memory CString FsState Machine NetHdr Ide IdeSpec Mp.
Import Mp.
Local Open Scope Z_scope.
Local Open Scope kernel_scope.

(** ** Where the structure is *)

Definition is_mp (m : memory) (p : Z) : Prop := load_bytes m p 4 = mp_signature /\ sum m p sizeof_mp = 0.

#[export] Instance is_mp_dec m p : Decision (is_mp m p).
Proof. unfold is_mp. apply _. Defined.

(** The [n] places from the physical address [a] on. *)
Definition places (a : Z) (n : nat) : list Z := map (fun i => P2V a + 16 * Z.of_nat i) (seq 0 n).

(** The extended BIOS data area if there is one and the last kilobyte of base
    memory otherwise; then the ROM. *)
Definition mp_places (m : memory) : list Z :=
  let b (o : Z) := byte.unsigned (m (P2V 0x400 + o)) in
  let ebda := Z.shiftl (Z.lor (Z.shiftl (b 0x0F) 8) (b 0x0E)) 4 in
  let base := u32 (Z.lor (Z.shiftl (b 0x14) 8) (b 0x13) * 1024 - 1024) in
  places (if ebda =? 0 then base else ebda) 64 ++ places 0xF0000 4096.

Definition first_mp (m : memory) (l : list Z) : Z := match filter (is_mp m) l with p :: _ => p | [] => 0 end.

Lemma signed_sum m p : signed_by mp_signature m p && (sum m p sizeof_mp =? 0) = bool_decide (is_mp m p).
Proof.
  unfold signed_by, is_mp. apply eq_true_iff_eq. by rewrite andb_true_iff, !bool_decide_eq_true, Z.eqb_eq.
Qed.

Lemma mpsearch1_first m k : forall p e, p + 16 * (Z.of_nat k - 1) < e ->
  mpsearch1_loop m k p e = first_mp m (map (fun i => p + 16 * Z.of_nat i) (seq 0 k)).
Proof.
  induction k as [|k IH]; intros p e He; [done|]. cbn [mpsearch1_loop seq map]. rewrite (proj2 (Z.ltb_lt p e)) by lia.
  rewrite signed_sum, Z.mul_0_r, Z.add_0_r. unfold first_mp. rewrite filter_cons. case_bool_decide as Hp.
  - by rewrite decide_True.
  - rewrite decide_False by done. rewrite <- seq_shift, map_map. change (mp_bytes sizeof_mp) with 16. rewrite IH by lia.
    unfold first_mp. replace (map _ (seq 0 k)) with (map (fun i => p + 16 * Z.of_nat (S i)) (seq 0 k)); [done|].
    apply map_ext. intros i. lia.
Qed.

Lemma mpsearch1_places m a n : mpsearch1 m a (16 * Z.of_nat n) = first_mp m (places a n).
Proof.
  unfold mpsearch1, places. change (mp_bytes sizeof_mp) with 16.
  replace (Z.to_nat ((16 * Z.of_nat n + 16 - 1) / 16)) with n by lia_mod. apply mpsearch1_first. lia.
Qed.

Lemma places_nonzero a n p : 0 <= a < 2 ^ 32 -> p ∈ places a n -> p <> 0.
Proof. intros Ha (i & -> & _)%list_elem_of_fmap. unfold P2V, KERNBASE. rewrite u64_small by lia. lia. Qed.

Lemma first_mp_app m l l' : Forall (fun p => p <> 0) l ->
  (if negb (first_mp m l =? 0) then first_mp m l else first_mp m l') = first_mp m (l ++ l').
Proof.
  intros Hl. unfold first_mp. rewrite filter_app. destruct (filter (is_mp m) l) as [|p q] eqn:E; [done|]. cbn [app].
  assert (Hp : p ∈ filter (is_mp m) l) by (rewrite E; left). apply list_elem_of_filter in Hp as [_ Hp].
  rewrite Forall_forall in Hl. by rewrite (proj2 (Z.eqb_neq _ _) (Hl p Hp)).
Qed.

Lemma mpsearch_places m : mpsearch m = first_mp m (mp_places m).
Proof.
  unfold mpsearch, mp_places. cbv zeta. set (b := fun o => byte.unsigned (m (P2V 0x400 + o))).
  assert (Hb : forall o, 0 <= b o < 256) by (intros o; apply byte.unsigned_range).
  set (ebda := Z.shiftl _ 4). set (base := u32 _).
  assert (He : 0 <= ebda < 2 ^ 32).
  { unfold ebda. pose proof (Hb 0xF) as H1. pose proof (Hb 0xE) as H2. unfold b in H1, H2. rewrite !Z.shiftl_mul_pow2 by lia.
    rewrite lor_disjoint by (change (2 ^ 8) with 256; lia). change (2 ^ 8) with 256. lia. }
  assert (Hs : 0 <= base < 2 ^ 32) by (unfold base, u32; apply Z.mod_pos_bound; lia).
  rewrite <- first_mp_app by (apply Forall_forall; intros p; apply places_nonzero; by destruct (ebda =? 0)).
  rewrite <- !mpsearch1_places. change (16 * Z.of_nat 64) with 1024. change (16 * Z.of_nat 4096) with 0x10000.
  by destruct (ebda =? 0).
Qed.

(** ** The table *)

Inductive entry : Set := Processor (apicid : Z) | IoApic (apicno : Z) | Other (type : mp_type).

Definition other_type (t : mp_type) : bool := match t with MPBUS | MPIOINTR | MPLINTR => true | _ => false end.

Definition entry_size (x : entry) : Z := match x with Processor _ => 20 | _ => 8 end.

Definition entry_at (m : memory) (p : Z) (x : entry) : Prop :=
  match x with
  | Processor id => byte.unsigned (m p) = 0 /\ byte.unsigned (m (p + 1)) = id
  | IoApic no => byte.unsigned (m p) = 2 /\ byte.unsigned (m (p + 1)) = no
  | Other t => byte.unsigned (m p) = t /\ other_type t = true
  end.

Fixpoint entries_at (m : memory) (p : Z) (l : list entry) : Prop :=
  match l with [] => True | x :: l => entry_at m p x /\ entries_at m (p + entry_size x) l end.

Definition table_size (l : list entry) : Z := foldr (fun x n => entry_size x + n) 0 l.

(** The structure at [mp] points to a table at [conf] with the entries [l]. *)
Record mp_table (m : memory) (mp conf : Z) (l : list entry) : Prop := mk_mp_table {
  mt_first : first_mp m (mp_places m) = mp /\ mp <> 0;
  mt_conf : loadZ 4 m (mp + 4) <> 0 /\ P2V (loadZ 4 m (mp + 4)) = conf;
  mt_signature : load_bytes m conf 4 = conf_signature;
  mt_version : loadZ 1 m (conf + 6) = 1 \/ loadZ 1 m (conf + 6) = 4;
  mt_length : loadZ 2 m (conf + 4) = 44 + table_size l;
  mt_sum : sum m conf (44 + table_size l) = 0;
  mt_entries : entries_at m (conf + 44) l;
}.

Definition processors (l : list entry) : list Z := omap (fun x => match x with Processor id => Some id | _ => None end) l.
Definition ioapics (l : list entry) : list Z := omap (fun x => match x with IoApic no => Some no | _ => None end) l.

Lemma mpconfig_table m mp conf l : mp_table m mp conf l -> mpconfig m = Some (conf, mp).
Proof.
  intros [[Hf Hne] [Hp <-] Hsig Hv Hl Hs _]. unfold mpconfig. rewrite mpsearch_places, Hf. cbn [mp_get].
  rewrite (proj2 (Z.eqb_neq _ _) Hne), (proj2 (Z.eqb_neq _ _) Hp). cbn [orb]. unfold signed_by. rewrite Hsig, bool_decide_true by done.
  cbn [negb mpconf_get]. rewrite Hl, Hs. destruct Hv as [->| ->]; done.
Qed.

Section Init.
Context {dev : Type} `{Ports dev}.
Implicit Type s : mpst dev.

Definition take_entry s (x : entry) : mpst dev :=
  match x with Processor id => add_cpu id s | IoApic no => set_ioapicid no s | Other _ => s end.

Lemma take_entry_mem s x : kmem (take_entry s x) = kmem s.
Proof. destruct x; try done. cbn. unfold add_cpu. by destruct (_ <? _). Qed.

Lemma table_size_cons x l : table_size (x :: l) = entry_size x + table_size l.
Proof. done. Qed.

Lemma table_size_bound l : 8 * Z.of_nat (length l) <= table_size l.
Proof. induction l as [|x l IH]; [done|]. rewrite table_size_cons. simpl length. destruct x; cbn [entry_size]; lia. Qed.

Lemma loadZ_1 m a : loadZ 1 m a = byte.unsigned (m a).
Proof. unfold loadZ. rewrite load_bytes_cons. cbn [le_combine]. apply Z.lor_0_r. Qed.

Lemma mpinit_loop_ok e : forall l k p s, entries_at (kmem s) p l -> p + table_size l = e -> (length l <= k)%nat ->
  mpinit_loop k p e s = Ok tt (foldl take_entry s l).
Proof.
  induction l as [|x l IH]; intros k p s Hl He Hk.
  - cbn in He. destruct k; cbn [mpinit_loop]; rewrite (proj2 (Z.ltb_ge _ _)) by lia; done.
  - destruct k as [|k]; [simpl in Hk; lia|]. rewrite table_size_cons in He. destruct Hl as [Hx Hl].
    pose proof (table_size_bound l). cbn [mpinit_loop foldl].
    assert (0 < entry_size x) by (destruct x; cbn; lia). rewrite (proj2 (Z.ltb_lt p e)) by lia. rewrite bind_gets. cbv zeta.
    assert (Hnext : mpinit_loop k (p + entry_size x) e (take_entry s x) = Ok tt (foldl take_entry (take_entry s x) l)).
    { apply IH; [by rewrite take_entry_mem|lia|simpl in Hk; lia]. }
    destruct x as [id|no|t]; cbn [entry_at] in Hx.
    + destruct Hx as [-> <-]. cbn [mp_code Z.eqb]. rewrite bind_modify. unfold mpproc_apicid. rewrite loadZ_1. exact Hnext.
    + destruct Hx as [-> <-]. cbn [mp_code Z.eqb Pos.eqb]. rewrite bind_modify. unfold mpioapic_apicno. rewrite loadZ_1. exact Hnext.
    + destruct Hx as [-> Ht]. by destruct t.
Qed.

(** ** What the entries leave *)

Definition used s : list Z := take (Z.to_nat (ncpu s)) (apicids s).

Lemma take_entries_ok l : forall s, 0 <= ncpu s <= NCPU -> length (apicids s) = Z.to_nat NCPU ->
  let s' := foldl take_entry s l in
  kmem s' = kmem s /\ lapic s' = lapic s /\ ports s' = ports s /\
  ncpu s' = Z.min NCPU (ncpu s + Z.of_nat (length (processors l))) /\
  used s' = used s ++ take (Z.to_nat (NCPU - ncpu s)) (processors l) /\
  ioapicid s' = default (ioapicid s) (last (ioapics l)).
Proof.
  induction l as [|x l IH]; intros s Hn Hlen; cbv zeta.
  - cbn [foldl processors omap list_omap ioapics last default from_option length]. split_and!; try done; [lia|]. by rewrite take_nil, app_nil_r.
  - cbn [foldl]. specialize (IH (take_entry s x)). cbv zeta in IH. rewrite take_entry_mem in IH.
    destruct x as [id|no|t]; cbn [take_entry] in *.
    + unfold add_cpu in *. destruct (Z.ltb_spec (ncpu s) NCPU) as [Hlt|Hge].
      * cbn [ncpu apicids lapic ioapicid ports kmem] in IH.
        destruct IH as (H1 & H2 & H3 & H4 & H5 & H6); [lia|by rewrite length_insert|]. split_and!; [done|done|done| | |exact H6].
        -- rewrite H4. cbn [processors omap list_omap length]. unfold processors. lia.
        -- rewrite H5. unfold used at 1. cbn [ncpu apicids].
           replace (Z.to_nat (ncpu s + 1)) with (S (Z.to_nat (ncpu s))) by lia.
           rewrite (take_S_r _ _ id) by (apply list_lookup_insert_eq; lia). rewrite take_insert_ge by lia.
           replace (Z.to_nat (NCPU - ncpu s)) with (S (Z.to_nat (NCPU - (ncpu s + 1)))) by lia.
           cbn [processors omap list_omap take]. by rewrite <- app_assoc.
      * destruct IH as (H1 & H2 & H3 & H4 & H5 & H6); [lia|done|]. replace (ncpu s) with NCPU in * by lia.
        split_and!; [done|done|done| | |exact H6].
        -- rewrite H4. lia.
        -- rewrite H5. by rewrite Z.sub_diag.
    + destruct IH as (H1 & H2 & H3 & H4 & H5 & H6); [done|done|]. split_and!; [done|done|done|done|done|].
      rewrite H6. cbn [ioapics omap list_omap]. unfold ioapics. rewrite last_cons. by destruct (last _).
    + exact (IH Hn Hlen).
Qed.

(** C32: [mpinit] finds the processors.  It takes the first floating structure
    with the right signature and checksum among the places that the standard
    names, and when the table it points to is correct, the processors of the
    table in their order, up to [NCPU], the last I/O APIC and the address of
    the local APIC.  Where there is no structure it changes nothing. *)
Theorem mpinit_finds_processors s : ncpu s = 0 -> length (apicids s) = Z.to_nat NCPU ->
  (first_mp (kmem s) (mp_places (kmem s)) = 0 -> mpinit s = Ok tt s) /\
  forall mp conf l, mp_table (kmem s) mp conf l -> exists s', mpinit s = Ok tt s' /\ kmem s' = kmem s /\
    ncpu s' = Z.min NCPU (Z.of_nat (length (processors l))) /\
    take (Z.to_nat (ncpu s')) (apicids s') = take (Z.to_nat NCPU) (processors l) /\
    ioapicid s' = default (ioapicid s) (last (ioapics l)) /\ lapic s' = P2V (loadZ 4 (kmem s) (conf + 36)).
Proof.
  intros Hn Hlen. split.
  - intros Hf. unfold mpinit. rewrite bind_gets. unfold mpconfig. by rewrite mpsearch_places, Hf.
  - intros mp conf l Ht. unfold mpinit. rewrite bind_gets, (mpconfig_table _ _ _ _ Ht), bind_modify. cbv zeta. cbn [mpconf_get mp_get].
    rewrite (mt_length _ _ _ _ Ht). set (s1 := set_lapic _ s).
    assert (E : mpinit_loop (Z.to_nat (44 + table_size l)) (conf + sizeof_mpconf) (conf + (44 + table_size l)) s1 =
      Ok tt (foldl take_entry s1 l)).
    { pose proof (table_size_bound l). apply mpinit_loop_ok; [apply Ht|cbn [mp_bytes]; lia|lia]. }
    rewrite (bind_ok _ _ _ _ _ E).
    destruct (take_entries_ok l s1) as (H1 & H2 & H3 & H4 & H5 & H6); [cbn; rewrite Hn; unfold NCPU; lia|done|].
    change (ncpu s1) with (ncpu s) in *. rewrite Hn in *. change (used s1) with (take (Z.to_nat (ncpu s)) (apicids s)) in H5.
    rewrite Hn in H5. destruct (negb _).
    + rewrite bind_modify. eexists. split; [reflexivity|]. destruct (inb _ _). by split_and!.
    + eexists. split; [reflexivity|]. by split_and!.
Qed.

End Init.

Module MpDemo.

(** Two processors and an I/O APIC; the structure is the second one of the ROM
    with the right signature, the first has a wrong checksum. *)
Definition floating (check : Z) : list byte :=
  mp_signature ++ le_split 4 0x9000 ++ map byte.of_Z [1; 4; check; 0; 0; 0; 0; 0].
Definition table (check : Z) : list byte :=
  conf_signature ++ le_split 2 100 ++ map byte.of_Z [4; check] ++ replicate 28 Byte.x00 ++ le_split 4 0xFEE00000 ++
  replicate 4 Byte.x00 ++ (map byte.of_Z [0; 5] ++ replicate 18 Byte.x00) ++ (map byte.of_Z [1] ++ replicate 7 Byte.x00) ++
  (map byte.of_Z [2; 9] ++ replicate 6 Byte.x00) ++ (map byte.of_Z [0; 3] ++ replicate 18 Byte.x00).
Definition check (l : list byte) : Z := (- fold_right (fun b n => byte.unsigned b + n) 0 l) mod 256.
Definition mem0 : memory :=
  store_bytes (store_bytes (store_bytes (fun _ => Byte.x00) (P2V 0xF0040) (floating (check (floating 0))))
    (P2V 0xF0020) (floating (1 + check (floating 0)))) (P2V 0x9000) (table (check (table 0))).
Definition entries : list entry := [Processor 5; Other MPBUS; IoApic 9; Processor 3].
Definition machine : mpst IdeDemo.drive := mk_mpst mem0 0 (replicate 8 0) 0 0 (0%nat, mk_ata ∅ [] Idle).

Lemma table_ok : mp_table mem0 (P2V 0xF0040) (P2V 0x9000) entries.
Proof.
  constructor.
  - split; by vm_compute.
  - split; by vm_compute.
  - by vm_compute.
  - right. by vm_compute.
  - by vm_compute.
  - by vm_compute.
  - repeat split; by vm_compute.
Qed.

End MpDemo.

Lemma mpinit_finds_processors_witness : exists s', mpinit (H := IdeDemo.drive_ports) MpDemo.machine = Ok tt s' /\
  take 2 (apicids s') = [5; 3] /\ ncpu s' = 2 /\ ioapicid s' = 9 /\ lapic s' = P2V 0xFEE00000.
Proof.
  destruct (mpinit_finds_processors (H := IdeDemo.drive_ports) MpDemo.machine eq_refl eq_refl) as [_ H].
  destruct (H _ _ _ MpDemo.table_ok) as (s' & E & _ & Hn & Hids & Hio & Hl). exists s'. rewrite Hn in Hids.
  split; [exact E|]. split; [exact Hids|]. split; [exact Hn|]. split; [exact Hio|]. rewrite Hl. by vm_compute.
Defined.
